(* ===== verification/_CoqProject ===== *)
-Q . S2P
Prelude.v
Machine.v
EthIO.v
Frame.v
MacDriver.v
Mac.v
Checksum.v
Ipv4.v
Arp.v
Icmp.v
Segment.v
Udp.v
Tcp.v
Tte.v
TteSchedule.v
Ptp.v
Uart.v
Crc32.v
Download.v
Decompress.v
EthBoot.v
Bootloader.v
CoreThread.v
TaskList.v
Sched.v
Noc.v
Lock.v
LockUser.v
Queuing.v
Ports.v
NocInit.v
Sampling.v
MemFifo.v
Capture.v
FShark.v
VeriMac.v
Fat.v
FatFile.v
FatSpec.v
FatDir.v
FatOps.v
FatRemove.v
FatCreate.v
SdHost.v
Sd.v
SdDemo.v
