(* ===== verification/Prelude.v ===== *)
(** * A verification of the network and multicore software of FShark

    FShark runs a network analyser on Patmos, a time-predictable multicore processor in an
    FPGA. This development models the code of the repository that moves data between the
    outside world and the cores, and between the cores, and proves what makes it correct: the
    capture device with the program that prints its frames, and the C libraries for networking,
    booting, scheduling and message passing.

    ** The program and its parts

    - The analyser: src/c/VeriMAC.c sets the filter of the capture device, triggers it and
      prints the frames it delivers. The device is hardware, in src/hardware/src/main/scala/io:
      FShark_filter.scala looks at a byte of each frame from the MAC, CircularBuffer.scala
      drops the frame or passes it on, MemFifo.scala stores it, and FShark.scala is the state
      machine and the bus interface.
    - [src/c/ethlib], the network stack. The protocol modules build and take apart frames in
      the rx/tx buffer of the Ethernet controller, which they access byte by byte through
      eth_patmos_io.c; eth_mac_driver.c starts transmissions and waits for receptions;
      mac.c classifies a frame, and arp.c, icmp.c, udp.c (with ipv4.c) and tcp.c handle it.
      tte.c (Time-Triggered Ethernet) and ptp1588.c (clock synchronisation) are clients of
      the same layers.
    - [src/c/bootloader], which loads the application: download.c parses packets from a byte
      channel (the UART, decompress.c on top of it, or ethmac.c over the network), and
      bootloader.c starts it on all cores.
    - [src/c/apps/ttscheduling] and [src/c/apps/rmscheduling], two schedulers on linked task
      lists.
    - [src/c/libcorethread]: corethread.c starts functions on other cores.
    - [src/c/libnoc] and [src/c/libmp], communication between cores over the network on chip:
      noc.c drives the DMA; lock.c, queuing.c and sampling.c implement a lock, queues and
      sampled values on it; mp.c allocates and connects ports.
    - [src/c/libsd], files on an SD card: fat32.c is a driver for FAT32 volumes on the blocks
      of sddisk.c, which reads and writes them with the commands of sd_spi.c through the
      controller src/hardware/src/main/scala/io/SDHostCtrl.scala.

    ** The files

    - [Prelude]: operators, integer types, loops and lists of C, automation. [Machine]: the
      controller and the globals of the stack, in a state monad with a trace; what the
      hardware and the timers answer is a parameter, a function of the trace.
    - [EthIO], [Frame]: eth_patmos_io.c; the buffer of words is an array of bytes, and the loop
      patterns of the protocols act on frames.
    - [MacDriver], [Mac]: eth_mac_driver.c and mac.c. A send hands exactly the frame to the
      controller and returns at the first report of its end; a receive ends at the first
      reception or after the timeout.
    - [Checksum], [Ipv4]: ipv4.c and the checksum; the sums of the code against RFC 1071.
    - [Arp]: arp.c; the table refines a map with a victim, a request and a reply resolve an
      address from end to end, all branches of the handling of received frames.
    - [Icmp]: icmp.c; the reply to a ping, and when its checksum is right.
    - [Segment], [Udp], [Tcp]: udp.c and tcp.c; frames read back as they were written, sending
      with resolution of the address, the handshake, and the state machine against RFC 793.
    - [Tte], [TteSchedule]: tte.c; queues, clock synchronisation, control frames, and that the
      generated schedule is exactly the releases of all links in the order of time.
    - [Ptp]: ptp1588.c; messages read back, and offset and delay are computed exactly.
    - [Uart], [Crc32], [Download]: download.c, against the interface [ByteDevSpec]; an image is
      loaded as it was sent, a corrupted packet is rejected. [Decompress]: decompress.c decodes
      what an LZSS encoder encodes, and implements [ByteDevSpec], so that compressed downloads
      load the image, too. [EthBoot]: ethmac.c.
    - [Bootloader]: bootloader.c, as a transition system of the cores; the master runs only what
      it has loaded, and so does a slave, but that with more than two cores it may call NULL.
    - [CoreThread]: corethread.c; calls that start threads on other cores and join them return
      what they return in sequence, and where they can get stuck. [NocInit]: the start of the
      network on chip in noc.c; no core goes on before all have loaded their schedules.
    - [TaskList], [Sched]: the task lists at the level of pointers refine lists, and the two
      schedulers dispatch in the right order; the hyper-period search.
    - [Noc]: noc.c and the network, as programs that interleave one access at a time with each
      other and with the movement of single words. [Lock], [LockUser]: lock.c; mutual
      exclusion, freedom of deadlock, and the overflow that breaks it. [Queuing]: queuing.c;
      all messages are delivered, in order, without deadlock. [Ports]: mp.c, utils.c and the
      creation of ports; ports that are created deliver. [Sampling]: sampling.c; reads are
      consistent samples, in order.
    - [MemFifo]: MemFifo.scala refines a queue. [Capture]: FShark_filter.scala and
      CircularBuffer.scala pass on exactly the frames that match. [FShark]: FShark.scala; a
      processor reads the first frame that matches. [VeriMac]: VeriMAC.c prints it, from end
      to end. Hardware modules are functions of a clock cycle on their registers, for the
      data width of 16 bits that src/hardware/config/altde2-115.xml sets.
    - [Fat]: the allocation table of fat32.c; chains of clusters are extended and freed.
      [FatFile]: its functions on open files. [FatSpec]: these refine files as sequences of
      bytes, and a write changes no other file. [FatDir]: directories are lists of names, and
      the search for a path finds the entries it leads to. [FatOps]: the functions that take a
      path, [fat_open], [fat_creat], [fat_unlink], [fat_mkdir] and [fat_rmdir], with
      [fat_create] and [fat_delete] below them, in a monad of state whose runs may also stop (a
      failed assertion, an access out of bounds, a loop without end); a file opened by its path
      is read and written as a sequence of bytes, and what is returned in case of an error.
      [FatRemove]: a file is removed, and its clusters are free. [FatCreate]: a new file is
      found under its name, and is empty. [FatRemove] also has runs in which the code damages
      the volume.
    - [SdHost]: SDHostCtrl.scala, which decodes the address of an access; a byte is exchanged with
      the card bit by bit. [Sd]: sd_spi.c and sddisk.c, over the interface [SpiBus]; the blocks
      [Fat] works on are the memory of a card that satisfies [SdCard]. The controller implements
      [SpiBus] for pointers to its registers; the pointers sd_spi.c declares are others, with
      which [disk_init] never returns. [SdDemo]: a card.

    A function of the source keeps its name. A C function that reads and writes memory is a
    function on the memory it is given; a function that also reads devices or the time is a
    computation of [Machine] (or a program of [Noc], where cores interfere). Integers are [Z],
    and each truncation of the source is written out ([u8] to [s64]). Fields of the structures
    that several agents change live in memory; the others are records.

    ** Theorems

    The theorems marked as claims are of these groups: round trips (what a routine writes, its
    counterpart reads back); equivalence with a
    reference (RFC 1071 sums, an LZSS decoder, a schedule as the sorted list of releases);
    refinement (the ARP table of a map, the queues of lists, files of sequences of bytes, the
    disk of a map of blocks); functional behaviour on every branch, the error branches included;
    invariants and safety of the state machines and of concurrent executions; termination and
    liveness (loops return, or never do; a concurrent execution can always be completed); and
    bounds, where the code is right only for a range of inputs, which is then stated exactly. The
    comment in front of a claim names its hypotheses, and the theorems that show what happens
    where they do not hold.

    ** Fuel

    Polling loops take fuel: the theorems state how much suffices, as a function of when the
    hardware answers or the timeout has passed. [zero_fill] of [Download] takes the fuel the
    size of a section needs; [free_chain] of [Fat] the length of the chain, the loops of
    [FatFile] one round for each byte, [fat_resolve_path] the clusters of the directories, [fat_delete] of
    [FatOps] also the entries that are marked; waiting for the controller of [SdHost] sixteen
    polls for each cycle of its clock divider. The programs of [Noc] need none: loops are unrolled
    by steps.

    ** Not modelled

    - Printing and debugging output of all parts, and the exit of the boot loader through the
      memory management.
    - [get_ptp_usecs] of ptp1588.c (floating point), [tte_stop_ticking] of tte.c (frees
      memory), the interrupt handlers of noc.c (assembly) and its [TRAP] variant, and the
      variants of sampling.c other than the default one.
    - The stores of fat_create and fat_delete in fat32.c next to the array dir_path, which hit
      the stack of the caller. SD cards are known by their specification, as far as the driver
      uses it.
    - src/c/libaudio and the demonstration programs, which the analyser does not use.
    - Vendored and generated code: FatFs, libelf, the ROSACE case study; the MAC of the capture
      device, which is known by the stream it sends; the hardware of the processor, and its
      emulator. *)

From stdpp Require Import base gmap list numbers.
From Stdlib Require Import ZArith Lia Zquot.

Open Scope Z_scope.

(** ** C operators

    The bit operators of C on mathematical integers, in a scope of their own.
    [<<] and [>>] do not wrap: every C assignment that truncates is written with
    one of the conversions [u8] ... [s64] below. *)

Declare Scope c_scope.
Delimit Scope c_scope with C.

Notation "x .& y" := (Z.land x y) (at level 40, left associativity) : c_scope.
Notation "x .| y" := (Z.lor x y) (at level 50, left associativity) : c_scope.
Notation "x .^ y" := (Z.lxor x y) (at level 50, left associativity) : c_scope.
Notation "x << y" := (Z.shiftl x y) (at level 35, right associativity) : c_scope.
Notation "x >> y" := (Z.shiftr x y) (at level 35, right associativity) : c_scope.
Notation "~~ x" := (Z.lnot x) (at level 30, right associativity) : c_scope.

Open Scope c_scope.

(** ** Conversions to the integer types of the target (ILP32)

    [unsigned char], [unsigned short], [unsigned int], [unsigned long long] and the
    signed types; conversion to a signed type wraps, as on every compiler for the
    target. *)

Definition u8 (x : Z) : Z := x mod 0x100.
Definition u16 (x : Z) : Z := x mod 0x10000.
Definition u32 (x : Z) : Z := x mod 0x100000000.
Definition u64 (x : Z) : Z := x mod 0x10000000000000000.
Definition s8 (x : Z) : Z := (x + 0x80) mod 0x100 - 0x80.
Definition s16 (x : Z) : Z := (x + 0x8000) mod 0x10000 - 0x8000.
Definition s32 (x : Z) : Z := (x + 0x80000000) mod 0x100000000 - 0x80000000.
Definition s64 (x : Z) : Z :=
  (x + 0x8000000000000000) mod 0x10000000000000000 - 0x8000000000000000.

(** ** Automation *)

(** [zdm]: linear arithmetic with [/] and [mod] by constants. *)
Ltac zdm :=
  unfold u8, u16, u32, u64, s8, s16, s32, s64 in *;
  Z.to_euclidean_division_equations; lia.

(** [dec_bool]: case analysis on the boolean comparisons of the goal. *)
Ltac dec_bool :=
  repeat match goal with
  | |- context [Z.eqb ?a ?b] => destruct (Z.eqb_spec a b)
  | |- context [Z.ltb ?a ?b] => destruct (Z.ltb_spec a b)
  | |- context [Z.leb ?a ?b] => destruct (Z.leb_spec a b)
  end.

(** [zif]: decide the comparisons of the goal that linear arithmetic decides. *)
Ltac zif :=
  repeat match goal with
  | |- context [Z.leb ?a ?b] =>
      first [rewrite (proj2 (Z.leb_le a b)) by lia | rewrite (proj2 (Z.leb_gt a b)) by lia]
  | |- context [Z.ltb ?a ?b] =>
      first [rewrite (proj2 (Z.ltb_lt a b)) by lia | rewrite (proj2 (Z.ltb_ge a b)) by lia]
  | |- context [Z.eqb ?a ?b] =>
      first [rewrite (proj2 (Z.eqb_eq a b)) by lia | rewrite (proj2 (Z.eqb_neq a b)) by lia]
  end; cbn [andb orb negb].

(** ** Lemmas on the conversions *)

Lemma u8_range x : 0 <= u8 x < 256.
Proof. unfold u8. apply Z.mod_pos_bound. lia. Qed.

Lemma u16_range x : 0 <= u16 x < 65536.
Proof. unfold u16. apply Z.mod_pos_bound. lia. Qed.

Lemma u32_range x : 0 <= u32 x < 4294967296.
Proof. unfold u32. apply Z.mod_pos_bound. lia. Qed.

Lemma u8_small x : 0 <= x < 256 -> u8 x = x.
Proof. intros. unfold u8. apply Z.mod_small. lia. Qed.

Lemma u16_small x : 0 <= x < 65536 -> u16 x = x.
Proof. intros. unfold u16. apply Z.mod_small. lia. Qed.

Lemma u32_small x : 0 <= x < 4294967296 -> u32 x = x.
Proof. intros. unfold u32. apply Z.mod_small. lia. Qed.

Lemma u64_small x : 0 <= x < 18446744073709551616 -> u64 x = x.
Proof. intros. unfold u64. apply Z.mod_small. lia. Qed.

Lemma s32_small x : -2147483648 <= x < 2147483648 -> s32 x = x.
Proof. intros. unfold s32. rewrite Z.mod_small; lia. Qed.

(** The difference of two [unsigned long long], read as a signed number. *)
Lemma s64_u64 x : -9223372036854775808 <= x < 9223372036854775808 -> s64 (u64 x) = x.
Proof. intros. zdm. Qed.

Lemma u8_u8 x : u8 (u8 x) = u8 x.
Proof. apply u8_small, u8_range. Qed.

Lemma u32_u32 x : u32 (u32 x) = u32 x.
Proof. apply u32_small, u32_range. Qed.

(** [auto with cword] closes ranges of conversions, [autorewrite with cword] removes
    conversions that linear arithmetic shows to have no effect. *)
Create HintDb cword.
Create Rewrite HintDb cword.
#[export] Hint Resolve u8_range u16_range u32_range : cword.
#[export] Hint Rewrite u8_small u16_small u32_small u64_small s32_small using lia : cword.

(** ** Masks and shifts as arithmetic *)

Lemma land_ff x : x .& 0xFF = x mod 256.
Proof. exact (Z.land_ones x 8 ltac:(lia)). Qed.

Lemma land_ffff x : x .& 0xFFFF = x mod 65536.
Proof. exact (Z.land_ones x 16 ltac:(lia)). Qed.

Lemma land_ffffffff x : x .& 0xFFFFFFFF = x mod 4294967296.
Proof. exact (Z.land_ones x 32 ltac:(lia)). Qed.

Lemma land_3 x : x .& 3 = x mod 4.
Proof. exact (Z.land_ones x 2 ltac:(lia)). Qed.

Lemma land_1 x : x .& 1 = x mod 2.
Proof. exact (Z.land_ones x 1 ltac:(lia)). Qed.

Lemma shr_div x n : 0 <= n -> x >> n = x / 2 ^ n.
Proof. apply Z.shiftr_div_pow2. Qed.

Lemma shl_mul x n : 0 <= n -> x << n = x * 2 ^ n.
Proof. apply Z.shiftl_mul_pow2. Qed.

(** [|] of a multiple of [2 ^ n] and a value below [2 ^ n] is addition. *)
Lemma lor_add x y n :
  0 <= n -> x mod 2 ^ n = 0 -> 0 <= y < 2 ^ n -> x .| y = x + y.
Proof.
  intros Hn Hx Hy.
  assert (Z.land x y = 0) as H0.
  { apply Z.bits_inj'. intros i Hi. rewrite Z.land_spec, Z.bits_0.
    destruct (Z.lt_ge_cases i n).
    - rewrite <- (Z.mod_pow2_bits_low x n i), Hx, Z.bits_0 by lia. done.
    - rewrite <- (Z.mod_small y (2 ^ n)), Z.mod_pow2_bits_high by lia.
      apply andb_false_r. }
  by rewrite Z.add_nocarry_lxor, Z.lxor_lor.
Qed.

Lemma lor_shl hi lo n :
  0 <= n -> 0 <= lo < 2 ^ n -> (hi << n) .| lo = hi * 2 ^ n + lo.
Proof.
  intros Hn Hlo. rewrite <- shl_mul by lia. apply (lor_add _ _ n); [lia| |lia].
  rewrite shl_mul by lia. apply Z_mod_mult.
Qed.

(** The big-endian word built by [(a << 24) | (b << 16) | (c << 8) | d]. *)
Lemma word_of_bytes a b c d :
  0 <= b < 256 -> 0 <= c < 256 -> 0 <= d < 256 ->
  (a << 24) .| (b << 16) .| (c << 8) .| d = a * 0x1000000 + b * 0x10000 + c * 0x100 + d.
Proof.
  intros. rewrite !shl_mul by lia.
  rewrite (lor_add (a * 2 ^ 24) (b * 2 ^ 16) 24) by zdm.
  rewrite (lor_add _ (c * 2 ^ 8) 16) by zdm.
  rewrite (lor_add _ d 8) by zdm. lia.
Qed.

(** Clearing a field: [w & ~m] is [w] minus the bits of the field. *)
Lemma land_lnot_sub w m : w .& (~~ m) = w - w .& m.
Proof.
  rewrite Z.sub_nocarry_ldiff.
  - apply Z.bits_inj'. intros i Hi.
    rewrite Z.land_spec, Z.lnot_spec, Z.ldiff_spec, Z.land_spec by lia.
    by destruct (Z.testbit w i), (Z.testbit m i).
  - apply Z.bits_inj'. intros i Hi. rewrite Z.ldiff_spec, Z.land_spec, Z.bits_0.
    by destruct (Z.testbit w i), (Z.testbit m i).
Qed.

(** Reading a field: [w & (0xFF << s)] shifted down. *)
Lemma land_shl_ff w s : 0 <= s -> w .& (0xFF << s) = ((w / 2 ^ s) mod 256) * 2 ^ s.
Proof.
  intros Hs. rewrite <- shr_div, <- land_ff, <- shl_mul by lia.
  apply Z.bits_inj'. intros i Hi. rewrite Z.land_spec.
  destruct (Z.lt_ge_cases i s).
  - rewrite !Z.shiftl_spec_low by lia. apply andb_false_r.
  - rewrite !Z.shiftl_spec, Z.land_spec, Z.shiftr_spec by lia.
    by replace (i - s + s) with i by lia.
Qed.

Lemma land_u32_mask w m : 0 <= w < 0x100000000 -> w .& (u32 m) = w .& m.
Proof.
  intros Hw. unfold u32. change 0x100000000 with (2 ^ 32).
  rewrite <- Z.land_ones, (Z.land_comm m), Z.land_assoc, Z.land_ones by lia.
  by rewrite (Z.mod_small w) by lia.
Qed.

(** ** Lists *)

(** [C] array read: index [i] of array [l]; an index outside the array reads
    the default 0, and every use below is in range. *)
Definition arr (l : list Z) (i : Z) : Z := nth (Z.to_nat i) l 0.

Lemma arr_insert l i j x :
  0 <= i < Z.of_nat (length l) -> 0 <= j ->
  arr (<[Z.to_nat i := x]> l) j = if i =? j then x else arr l j.
Proof.
  intros Hi Hj. unfold arr. destruct (Z.eqb_spec i j) as [<-|Hne].
  - apply nth_lookup_Some. apply list_lookup_insert_eq. lia.
  - rewrite !nth_lookup, list_lookup_insert_ne by lia. done.
Qed.

Lemma repeat_app_cons {A} (x : A) n l : repeat x n ++ x :: l = repeat x (S n) ++ l.
Proof. induction n as [|n IH]; [done|]. simpl in *. by rewrite IH. Qed.

(** [l[i] = v], undefined outside of the array. *)
Definition store (l : list Z) (i v : Z) : option (list Z) :=
  if (0 <=? i) && (i <? Z.of_nat (length l)) then Some (<[Z.to_nat i := v]> l) else None.

(** [memset(l, v, n)], undefined when the array is shorter. *)
Definition memset (l : list Z) (v n : Z) : option (list Z) :=
  if n <=? Z.of_nat (length l) then Some (replicate (Z.to_nat n) v ++ drop (Z.to_nat n) l) else None.

(** [for (i = 0; i < n; i++) body]: a counted loop on a state. *)
Definition for_ {A} (n : Z) (body : Z -> A -> A) (a : A) : A :=
  fold_left (fun s i => body i s) (seqZ 0 n) a.

Lemma for_0 {A} (body : Z -> A -> A) a : for_ 0 body a = a.
Proof. done. Qed.

Lemma for_S {A} n (body : Z -> A -> A) a :
  0 <= n -> for_ (n + 1) body a = body n (for_ n body a).
Proof.
  intros. unfold for_. rewrite seqZ_app, fold_left_app by lia.
  by rewrite (seqZ_cons _ 1) by lia.
Qed.

(** The invariant rule of counted loops. *)
Lemma for_ind {A} (P : Z -> A -> Prop) n (body : Z -> A -> A) a :
  0 <= n -> P 0 a -> (forall i s, 0 <= i < n -> P i s -> P (i + 1) (body i s)) ->
  P n (for_ n body a).
Proof.
  intros Hn H0 HS.
  assert (forall k, 0 <= k -> k <= n -> P k (for_ k body a)) as H; [|apply H; lia].
  apply (natlike_ind (fun k => k <= n -> P k (for_ k body a))); [done|].
  intros k Hk IH Hle. rewrite <- Z.add_1_r, for_S by lia. apply HS; [lia|]. apply IH. lia.
Qed.

Lemma for_ext {A} (body body' : Z -> A -> A) n a :
  (forall i s, 0 <= i < n -> body i s = body' i s) -> for_ n body a = for_ n body' a.
Proof.
  intros E. unfold for_. assert (forall i, i ∈ seqZ 0 n -> 0 <= i < n) as Hin
    by (intros i Hi%elem_of_seqZ; lia).
  revert a. induction (seqZ 0 n) as [|i l IH]; intros a; [done|]. cbn [fold_left].
  rewrite E by (apply Hin; by left). apply IH. intros j Hj. apply Hin. by right.
Qed.

(** [for (i = 0; i < n; i += 2) body]. *)
Definition for_by2 {A} (n : Z) (body : Z -> A -> A) (a : A) : A :=
  for_ ((n + 1) / 2) (fun j => body (2 * j)) a.

Lemma for_by2_4 {A} (body : Z -> A -> A) a : for_by2 4 body a = body 2 (body 0 a).
Proof. reflexivity. Qed.

(** [for (j = 0; j < n; j++) dst[j] = src[j];] *)
Definition copy_arr (n : Z) (src dst : list Z) : list Z :=
  for_ n (fun j d => <[Z.to_nat j := arr src j]> d) dst.

Lemma copy_arr_full n src dst :
  0 <= n -> length src = Z.to_nat n -> length dst = Z.to_nat n -> copy_arr n src dst = src.
Proof.
  intros Hn Hs Hd. unfold copy_arr.
  assert (let d := for_ n (fun j d => <[Z.to_nat j := arr src j]> d) dst in
          length d = Z.to_nat n /\ forall i, Z.of_nat i < n -> d !! i = src !! i) as [Hl He].
  { apply (for_ind (fun k d => length d = Z.to_nat n /\
                       forall i, Z.of_nat i < k -> d !! i = src !! i)); [done|split; [done|lia]|].
    intros k d Hk [Hl He]. split; [by rewrite length_insert|]. intros i Hi.
    destruct (decide (i = Z.to_nat k)) as [->|Hne].
    - rewrite list_lookup_insert_eq by lia. unfold arr.
      destruct (lookup_lt_is_Some_2 src (Z.to_nat k)) as [x Hx]; [lia|].
      rewrite Hx. f_equal. by apply nth_lookup_Some.
    - rewrite list_lookup_insert_ne by done. apply He. lia. }
  apply list_eq. intros i. destruct (decide (Z.of_nat i < n)); [auto|].
  rewrite !lookup_ge_None_2 by lia. done.
Qed.

(** Reading [n] values into an array: defined exactly when they fit. *)
Definition fill (n : Z) (f : Z -> Z) (l : list Z) : option (list Z) :=
  for_ n (fun i o => l ← o; store l i (f i)) (Some l).

Lemma fill_spec n f l :
  0 <= n ->
  fill n f l = if n <=? Z.of_nat (length l)
               then Some ((f <$> seqZ 0 n) ++ drop (Z.to_nat n) l) else None.
Proof.
  intros Hn. unfold fill.
  apply (for_ind (fun k o => o = if k <=? Z.of_nat (length l)
               then Some ((f <$> seqZ 0 k) ++ drop (Z.to_nat k) l) else None)); [done| |].
  - by destruct (Z.leb_spec 0 (Z.of_nat (length l))); [|lia].
  - intros i o Hi ->. destruct (Z.leb_spec i (Z.of_nat (length l))).
    2:{ by destruct (Z.leb_spec (i + 1) (Z.of_nat (length l))); [lia|]. }
    cbn [mbind option_bind]. unfold store.
    rewrite length_app, length_fmap, length_seqZ, length_drop.
    destruct (Z.leb_spec (i + 1) (Z.of_nat (length l))); [|zif; done]. zif.
    f_equal. rewrite insert_app_r_alt by (rewrite length_fmap, length_seqZ; lia).
    rewrite length_fmap, length_seqZ, Nat.sub_diag.
    rewrite seqZ_app, fmap_app, <- app_assoc by lia. f_equal.
    destruct (lookup_lt_is_Some_2 l (Z.to_nat i)) as [x Hx]; [lia|].
    rewrite (drop_S _ _ _ Hx). cbn [insert list_insert].
    replace (Z.to_nat (i + 1)) with (S (Z.to_nat i)) by lia.
    rewrite (seqZ_cons _ 1) by lia. done.
Qed.

(** [eval_eqb]: evaluate the comparisons of closed integers in conditions.
    [eval_arr]: evaluate reads of a literal array at a literal index. *)
Ltac eval_eqb :=
  repeat match goal with
  | |- context [if ?a =? ?b then _ else _] =>
      let v := eval vm_compute in (a =? b) in
      match v with true => idtac | false => idtac end;
      change (a =? b) with v; cbv iota
  end.

Ltac eval_arr :=
  match goal with
  | |- context [arr (?x :: ?l) ?i] =>
      let v := eval cbv [nth] in (nth ltac:(let n := eval vm_compute in (Z.to_nat i) in exact n) (x :: l) 0) in
      change (arr (x :: l) i) with v
  end.

(** ** Plain [char]

    Whether [char] is signed is the compiler's choice; the routines that use it
    are modelled for both. *)
Class CharType := char_signed : bool.

Definition to_char `{CharType} (x : Z) : Z := if char_signed then s8 x else u8 x.
