(* ===== verification/Machine.v ===== *)
(** * The machine the Ethernet library runs on

    The state shared by the components of [src/c/ethlib]: the rx/tx buffer of the
    Ethernet controller, the history of the accesses to memory-mapped devices, and
    the globals of the library ([my_mac] of mac.c, [my_ip] of ipv4.c, [arp_table] of
    arp.c, [ipv4_id] of udp.c).

    The controller itself (hardware) and the timers are the environment, a
    parameter: what a register read returns, what the controller's DMA leaves in
    the buffer after an access and what a timer shows are functions of the history
    of accesses, so the environment may react in any deterministic way to
    everything the program did. *)

From stdpp Require Import base gmap list numbers.
From S2P Require Import Prelude.

(** ** Device accesses and the environment *)

(** The rx/tx buffer: 32-bit words by word index. *)
Abbreviation buf := (gmap Z Z).

(** An access to a device register. A write carries the contents of the buffer at
    that time, because a transmission starts with one. *)
Inductive event :=
| EvRd (addr : Z)
| EvWr (addr data : Z) (snapshot : buf)
| EvUsecs
| EvCycles.

(** Histories are lists of events, latest first. *)
Abbreviation history := (list event).

Class Env := {
  env_rd : history -> Z -> Z;        (** value of a register read *)
  env_dma : history -> buf -> buf;   (** the buffer after a register access *)
  env_usecs : history -> Z;          (** [get_cpu_usecs()] *)
  env_cycles : history -> Z;         (** [get_cpu_cycles()] *)
  env_past_arp_table : Z             (** the byte in memory behind [arp_table] *)
}.

(** ** State *)

(** [struct arp_table_entry] of arp.c. *)
Record arp_table_entry := ArpEntry {
  used : Z;
  ip_addr : list Z;
  mac_addr : list Z
}.

Record machine := Machine {
  buff : buf;
  hist : history;
  my_mac : list Z;
  my_ip : list Z;
  arp_table : list arp_table_entry;
  ipv4_id : Z
}.

Definition set_buff (f : buf -> buf) (s : machine) : machine :=
  Machine (f (buff s)) (hist s) (my_mac s) (my_ip s) (arp_table s) (ipv4_id s).
Definition set_my_mac (v : list Z) (s : machine) : machine :=
  Machine (buff s) (hist s) v (my_ip s) (arp_table s) (ipv4_id s).
Definition set_my_ip (v : list Z) (s : machine) : machine :=
  Machine (buff s) (hist s) (my_mac s) v (arp_table s) (ipv4_id s).
Definition set_arp_table (v : list arp_table_entry) (s : machine) : machine :=
  Machine (buff s) (hist s) (my_mac s) (my_ip s) v (ipv4_id s).
Definition set_ipv4_id (v : Z) (s : machine) : machine :=
  Machine (buff s) (hist s) (my_mac s) (my_ip s) (arp_table s) v.

(** ** The program monad

    A computation maps a state to a result and a state, or to [None] when one of
    its polling loops did not end within the fuel it was given, or when it writes
    outside of an array ([lift]). *)

Definition M (A : Type) : Type := machine -> option (A * machine).

#[global] Instance M_ret : MRet M := fun A a s => Some (a, s).
#[global] Instance M_bind : MBind M := fun A B f m s =>
  match m s with Some (a, s') => f a s' | None => None end.

Definition gets {A} (f : machine -> A) : M A := fun s => Some (f s, s).
Definition modify (f : machine -> machine) : M unit := fun s => Some (tt, f s).
Definition diverge {A} : M A := fun _ => None.
Definition lift {A} (o : option A) : M A := fun s =>
  match o with Some a => Some (a, s) | None => None end.

(** A pure read and a pure update of the buffer. *)
Definition rdbuf {A} (f : buf -> A) : M A := gets (fun s => f (buff s)).
Definition wrbuf (f : buf -> buf) : M unit := modify (set_buff f).

(** A read-and-update of the buffer, for routines that return a value too. *)
Definition runbuf {A} (f : buf -> A * buf) : M A := fun s =>
  let '(a, b) := f (buff s) in Some (a, set_buff (fun _ => b) s).

(** [while (cond) body]: [step] performs one iteration of the loop on the local
    variables [x] and says with [inr] that the loop is left. *)
Fixpoint loop {X A} (fuel : nat) (step : X -> M (X + A)) (x : X) : M A :=
  match fuel with
  | O => diverge
  | S fuel =>
      r ← step x;
      match r with
      | inl x' => loop fuel step x'
      | inr a => mret a
      end
  end.

(** ** Device accesses *)

Section Access.
Context `{Env}.

(** A register access appends to the history and lets the controller act. *)
Definition access (e : event) (s : machine) : machine :=
  Machine (env_dma (e :: hist s) (buff s)) (e :: hist s)
    (my_mac s) (my_ip s) (arp_table s) (ipv4_id s).

Definition io_rd (addr : Z) : M Z := fun s =>
  Some (u32 (env_rd (hist s) addr), access (EvRd addr) s).

Definition io_wr (addr data : Z) : M unit := fun s =>
  Some (tt, access (EvWr addr data (buff s)) s).

(** Reading a timer appends to the history only. *)
Definition stamp (e : event) (s : machine) : machine :=
  Machine (buff s) (e :: hist s) (my_mac s) (my_ip s) (arp_table s) (ipv4_id s).

Definition get_cpu_usecs : M Z := fun s => Some (u64 (env_usecs (hist s)), stamp EvUsecs s).

Definition get_cpu_cycles : M Z := fun s => Some (u64 (env_cycles (hist s)), stamp EvCycles s).

End Access.

(** ** Running computations *)

Lemma bind_eq {A B} (m : M A) (f : A -> M B) s :
  (m ≫= f) s = match m s with Some (a, s') => f a s' | None => None end.
Proof. done. Qed.

Lemma bind_some {A B} (m : M A) (f : A -> M B) s a s' :
  m s = Some (a, s') -> (m ≫= f) s = f a s'.
Proof. intros E. by rewrite bind_eq, E. Qed.

Lemma bind_inv {A B} (m : M A) (f : A -> M B) s r :
  (m ≫= f) s = Some r -> exists a s', m s = Some (a, s') /\ f a s' = Some r.
Proof. rewrite bind_eq. destruct (m s) as [[a s']|]; [eauto|done]. Qed.

(** Running the primitive computations, for rewriting step by step. *)
Lemma bind_gets {A B} (f : machine -> A) (k : A -> M B) s : (gets f ≫= k) s = k (f s) s.
Proof. reflexivity. Qed.

Lemma bind_rdbuf {A B} (f : buf -> A) (k : A -> M B) s : (rdbuf f ≫= k) s = k (f (buff s)) s.
Proof. reflexivity. Qed.

Lemma bind_wrbuf {B} (f : buf -> buf) (k : unit -> M B) s :
  (wrbuf f ≫= k) s = k tt (set_buff f s).
Proof. reflexivity. Qed.

Lemma bind_modify {B} (f : machine -> machine) (k : unit -> M B) s :
  (modify f ≫= k) s = k tt (f s).
Proof. reflexivity. Qed.

Lemma bind_runbuf {A B} (f : buf -> A * buf) (k : A -> M B) s :
  (runbuf f ≫= k) s = k (fst (f (buff s))) (set_buff (fun m => snd (f m)) s).
Proof. rewrite bind_eq. unfold runbuf, set_buff. by destruct (f (buff s)). Qed.

Lemma bind_lift {A B} (a : A) (k : A -> M B) s : (lift (Some a) ≫= k) s = k a s.
Proof. reflexivity. Qed.

Lemma bind_mret {A B} (a : A) (k : A -> M B) s : (mret a ≫= k) s = k a s.
Proof. reflexivity. Qed.

Lemma bind_io_rd `{Env} {B} a (k : Z -> M B) s :
  (io_rd a ≫= k) s = k (u32 (env_rd (hist s) a)) (access (EvRd a) s).
Proof. reflexivity. Qed.

Lemma bind_io_wr `{Env} {B} a d (k : unit -> M B) s :
  (io_wr a d ≫= k) s = k tt (access (EvWr a d (buff s)) s).
Proof. reflexivity. Qed.

(** One iteration of a loop. *)
Lemma loop_step {X A} fuel (step : X -> M (X + A)) x x' s s' :
  step x s = Some (inl x', s') -> loop (S fuel) step x s = loop fuel step x' s'.
Proof. intros E. cbn [loop]. by rewrite (bind_some _ _ _ _ _ E). Qed.

Lemma loop_exit {X A} fuel (step : X -> M (X + A)) x a s s' :
  step x s = Some (inr a, s') -> loop (S fuel) step x s = Some (a, s').
Proof. intros E. cbn [loop]. by rewrite (bind_some _ _ _ _ _ E). Qed.

(** More fuel does not change the result of a loop that ended. *)
Lemma loop_fuel_mono {X A} fuel fuel' (step : X -> M (X + A)) x s r :
  (fuel <= fuel')%nat -> loop fuel step x s = Some r -> loop fuel' step x s = Some r.
Proof.
  revert fuel' x s. induction fuel as [|n IH]; intros [|n'] x s Hle Hr; try done; try lia.
  cbn [loop] in *. rewrite bind_eq in *.
  destruct (step x s) as [[[x'|a] s']|]; [|done..]. apply IH; [lia|done].
Qed.

(** The invariant rule of loops: partial correctness, for every fuel. *)
Lemma loop_inv {X A} (I : X -> machine -> Prop) (Q : A -> machine -> Prop)
    fuel (step : X -> M (X + A)) x s a s' :
  (forall x s x' s', I x s -> step x s = Some (inl x', s') -> I x' s') ->
  (forall x s a s', I x s -> step x s = Some (inr a, s') -> Q a s') ->
  I x s -> loop fuel step x s = Some (a, s') -> Q a s'.
Proof.
  intros Hstep Hexit. revert x s. induction fuel as [|n IH]; intros x s HI; [done|].
  cbn [loop]. rewrite bind_eq.
  destruct (step x s) as [[[x'|b] t]|] eqn:E; [| |done]; [eauto|].
  intros [= <- <-]. eauto.
Qed.

(** A polling loop: as long as [stop] says [None] an iteration only moves the
    state by [next]; the loop ends in the first state in which [stop] says [Some]. *)
Lemma loop_poll {A} (step : unit -> M (unit + A)) (next : machine -> machine)
    (stop : machine -> option (A * machine)) (n fuel : nat) s r :
  (forall s, step tt s = match stop s with
                         | None => Some (inl tt, next s)
                         | Some (a, s') => Some (inr a, s')
                         end) ->
  (forall i, (i < n)%nat -> stop (Nat.iter i next s) = None) ->
  stop (Nat.iter n next s) = Some r ->
  (n < fuel)%nat -> loop fuel step tt s = Some r.
Proof.
  intros Hstep. revert n s. induction fuel as [|fuel IH]; intros n s Hlt Hn Hf; [lia|].
  destruct n as [|n].
  - destruct r as [a s']. apply loop_exit. rewrite Hstep. simpl in Hn. by rewrite Hn.
  - rewrite (loop_step _ _ _ tt s (next s)).
    + apply (IH n); [|by rewrite <- Nat.iter_succ_r|lia].
      intros i Hi. rewrite <- Nat.iter_succ_r. apply Hlt. lia.
    + rewrite Hstep. specialize (Hlt 0%nat ltac:(lia)). simpl in Hlt. by rewrite Hlt.
Qed.

(** If a poll can stop within [n] iterations, there is a first one. *)
Lemma first_stop {A} (next : machine -> machine) (stop : machine -> option (A * machine)) n s :
  stop (Nat.iter n next s) <> None ->
  exists k r, (k <= n)%nat /\ stop (Nat.iter k next s) = Some r /\
    forall i, (i < k)%nat -> stop (Nat.iter i next s) = None.
Proof.
  revert s. induction n as [|n IH]; intros s Hs.
  - simpl in Hs. destruct (stop s) as [r|] eqn:E; [|done].
    exists 0%nat, r. repeat split; [lia|done|lia].
  - destruct (stop s) as [r|] eqn:E.
    + exists 0%nat, r. repeat split; [lia|done|lia].
    + rewrite Nat.iter_succ_r in Hs. destruct (IH _ Hs) as (k & r & Hk & Hr & Hlt).
      exists (S k), r. repeat split; [lia|by rewrite Nat.iter_succ_r|].
      intros [|i] Hi; [done|]. rewrite Nat.iter_succ_r. apply Hlt. lia.
Qed.

(** The history after [n] reads of one register. *)
Lemma hist_polls `{Env} n a s :
  hist (Nat.iter n (access (EvRd a)) s) = repeat (EvRd a) n ++ hist s.
Proof. induction n as [|n IH]; [done|]. simpl. by rewrite IH. Qed.
