(* ===== verification/EthIO.v ===== *)
(** * Access to the Ethernet controller: src/c/ethlib/eth_patmos_io.c

    Register reads and writes go to the environment; the rx/tx buffer is part of
    the machine. The buffer is an array of 32-bit words, and the byte routines
    extract and replace bytes of these words in big-endian order; the lemmas below
    show that they make the buffer an array of bytes, and the frame view
    [fb m base k] (byte [k] of the frame at [base]) is what the other components
    reason with. *)

From stdpp Require Import base gmap list numbers.
From S2P Require Import Prelude Machine.
Local Open Scope Z_scope.
Local Open Scope c_scope.

(** ** Definitions *)

(** A word of the buffer, 0 where nothing was written; the bus is 32 bits wide. *)
Definition word_at (m : buf) (i : Z) : Z := u32 (default 0 (m !! i)).

Section Regs.
Context `{Env}.

Definition eth_iowr (addr data : Z) : M unit := io_wr (4 * (u32 addr >> 2)) (u32 data).

Definition eth_iord (addr : Z) : M Z := io_rd (4 * (u32 addr >> 2)).

End Regs.

Definition mem_iowr (addr data : Z) (m : buf) : buf :=
  <[u32 addr >> 2 := u32 data]> m.

Definition mem_iowr_byte (addr data : Z) (m : buf) : buf :=
  let previous_data := word_at m (u32 addr >> 2) in
  let shift_factor := u32 (24 - 8 * (addr .& 0x03)) in
  let mask := u32 (~~ (0x000000FF << shift_factor)) in
  let data := u32 ((0x000000FF .& data) << shift_factor) in
  let data := u32 ((previous_data .& mask) + data) in
  <[u32 addr >> 2 := data]> m.

(** The argument of [mem_iord] is an [int]: its shift is arithmetic. *)
Definition mem_iord (m : buf) (addr : Z) : Z :=
  word_at m ((s32 addr >> 2) mod 0x40000000).

Definition mem_iord_byte (m : buf) (addr : Z) : Z :=
  let full_data := word_at m (u32 addr >> 2) in
  let shift_factor := u32 (24 - 8 * (addr .& 0x03)) in
  let mask := u32 (0x000000FF << shift_factor) in
  (full_data .& mask) >> shift_factor.

(** The second controller, whose registers are at [ETH1_BASE] and whose buffer [m] is
    another one. *)
Section Regs1.
Context `{Env} (ETH1_BASE : Z).

Definition eth_iowr1 (addr data : Z) : M unit := io_wr (ETH1_BASE + 4 * (u32 addr >> 2)) (u32 data).

Definition eth_iord1 (addr : Z) : M Z := io_rd (ETH1_BASE + 4 * (u32 addr >> 2)).

End Regs1.

Definition mem_iowr1 (addr data : Z) (m : buf) : buf :=
  <[u32 addr >> 2 := u32 data]> m.

Definition mem_iowr1_byte (addr data : Z) (m : buf) : buf :=
  let previous_data := word_at m (u32 addr >> 2) in
  let shift_factor := u32 (24 - 8 * (addr .& 0x03)) in
  let mask := u32 (~~ (0x000000FF << shift_factor)) in
  let data := u32 ((0x000000FF .& data) << shift_factor) in
  let data := u32 ((previous_data .& mask) + data) in
  <[u32 addr >> 2 := data]> m.

Definition mem_iord1 (m : buf) (addr : Z) : Z :=
  word_at m ((s32 addr >> 2) mod 0x40000000).

Definition mem_iord_byte1 (m : buf) (addr : Z) : Z :=
  let full_data := word_at m (u32 addr >> 2) in
  let shift_factor := u32 (24 - 8 * (addr .& 0x03)) in
  let mask := u32 (0x000000FF << shift_factor) in
  (full_data .& mask) >> shift_factor.

(** Byte [k] of the frame at [base]. *)
Definition fb (m : buf) (base k : Z) : Z := mem_iord_byte m (base + k).

(** Frame addresses the library is used with: inside the 0xF000 bytes of the
    buffer, above which the controller's registers begin. *)
Definition in_buffer (base len : Z) : Prop := 0 <= base /\ base + len <= 0xF000.

(** ** Bytes of words *)

Lemma word_at_range m i : 0 <= word_at m i < 0x100000000.
Proof. apply u32_range. Qed.

Lemma word_at_insert m i j v :
  word_at (<[i := v]> m) j = if decide (i = j) then u32 v else word_at m j.
Proof. unfold word_at. rewrite lookup_insert. by case_decide. Qed.

Definition shift_of (a : Z) : Z := 24 - 8 * (a mod 4).

Lemma shift_of_cases a :
  shift_of a = 0 \/ shift_of a = 8 \/ shift_of a = 16 \/ shift_of a = 24.
Proof.
  unfold shift_of. assert (0 <= a mod 4 < 4) as H by (apply Z.mod_pos_bound; lia).
  revert H. generalize (a mod 4). lia.
Qed.

Lemma shift_of_nonneg a : 0 <= shift_of a.
Proof. pose proof (shift_of_cases a). lia. Qed.

Lemma shift_factor_eq a : u32 (24 - 8 * (a .& 0x03)) = shift_of a.
Proof.
  rewrite land_3. apply u32_small.
  pose proof (shift_of_cases a). fold (shift_of a). lia.
Qed.

Lemma mem_iord_byte_eq m a :
  mem_iord_byte m a = (word_at m (u32 a / 4) / 2 ^ shift_of a) mod 256.
Proof.
  unfold mem_iord_byte. rewrite shift_factor_eq.
  pose proof (shift_of_nonneg a).
  rewrite land_u32_mask by apply word_at_range.
  rewrite land_shl_ff, (shr_div _ (shift_of a)) by lia.
  change (u32 a >> 2) with (Z.shiftr (u32 a) 2). rewrite (shr_div _ 2) by lia.
  apply Z.div_mul. lia.
Qed.

Lemma mem_iowr_byte_eq a v m :
  let w := word_at m (u32 a / 4) in
  let s := shift_of a in
  mem_iowr_byte a v m =
  <[u32 a / 4 := w - ((w / 2 ^ s) mod 256) * 2 ^ s + (v mod 256) * 2 ^ s]> m.
Proof.
  intros w s. unfold mem_iowr_byte. rewrite shift_factor_eq.
  rewrite (shr_div _ 2) by lia. change (2 ^ 2) with 4. fold w s.
  pose proof (word_at_range m (u32 a / 4)) as Hw. fold w in Hw.
  pose proof (shift_of_nonneg a) as Hs. fold s in Hs.
  rewrite land_u32_mask, land_lnot_sub, land_shl_ff by lia.
  rewrite (Z.land_comm 0xFF), land_ff, shl_mul by lia.
  f_equal.
  assert (0 <= v mod 256 < 256) by (apply Z.mod_pos_bound; lia).
  destruct (shift_of_cases a) as [E|[E|[E|E]]]; fold s in E; rewrite E;
    rewrite (u32_small (v mod 256 * _)) by lia; apply u32_small; zdm.
Qed.

Lemma mem_iord_byte_range m a : 0 <= mem_iord_byte m a < 256.
Proof. rewrite mem_iord_byte_eq. apply Z.mod_pos_bound. lia. Qed.

(** The buffer is an array of bytes: reading back what was written. *)
Lemma rd_wr_byte m a b v :
  0 <= a < 0x100000000 -> 0 <= b < 0x100000000 ->
  mem_iord_byte (mem_iowr_byte a v m) b =
  if a =? b then u8 v else mem_iord_byte m b.
Proof.
  intros Ha Hb. rewrite mem_iowr_byte_eq, !mem_iord_byte_eq, word_at_insert.
  rewrite !(u32_small a), !(u32_small b) by lia. fold (u8 v).
  pose proof (word_at_range m (a / 4)) as Hw. pose proof (u8_range v) as Hv.
  case_decide as E; [rewrite <- E|destruct (Z.eqb_spec a b); [subst; done|done]].
  set (w := word_at m (a / 4)) in *. generalize dependent w. intros w Hw.
  generalize dependent (u8 v). intros x Hx.
  destruct (shift_of_cases a) as [Ea|[Ea|[Ea|Ea]]], (shift_of_cases b) as [Eb|[Eb|[Eb|Eb]]];
    rewrite Ea, Eb; unfold shift_of in Ea, Eb; destruct (Z.eqb_spec a b); try (exfalso; zdm);
    rewrite u32_small by zdm; zdm.
Qed.

Lemma rd_wr_word m a b v :
  0 <= a < 0x100000000 -> 0 <= b < 0x100000000 ->
  mem_iord_byte (mem_iowr a v m) b =
  if a / 4 =? b / 4 then (v / 2 ^ shift_of b) mod 256 else mem_iord_byte m b.
Proof.
  intros Ha Hb. unfold mem_iowr. rewrite !mem_iord_byte_eq, (shr_div _ 2), word_at_insert by lia.
  change (2 ^ 2) with 4. rewrite !(u32_small a), !(u32_small b) by lia.
  case_decide as E; destruct (Z.eqb_spec (a / 4) (b / 4)); try done.
  rewrite u32_u32. destruct (shift_of_cases b) as [Eb|[Eb|[Eb|Eb]]]; rewrite Eb; zdm.
Qed.

(** A word read gives the four bytes of the word the address lies in. *)
Lemma mem_iord_bytes m a :
  0 <= a < 0x80000000 ->
  mem_iord m a =
  let b := 4 * (a / 4) in
  mem_iord_byte m b * 0x1000000 + mem_iord_byte m (b + 1) * 0x10000
  + mem_iord_byte m (b + 2) * 0x100 + mem_iord_byte m (b + 3).
Proof.
  intros Ha. unfold mem_iord. rewrite s32_small, (shr_div _ 2), Z.mod_small by (change (2 ^ 2) with 4; zdm).
  change (2 ^ 2) with 4. cbv zeta. rewrite !mem_iord_byte_eq, !u32_small by zdm.
  replace (4 * (a / 4) / 4) with (a / 4) by zdm.
  replace ((4 * (a / 4) + 1) / 4) with (a / 4) by zdm.
  replace ((4 * (a / 4) + 2) / 4) with (a / 4) by zdm.
  replace ((4 * (a / 4) + 3) / 4) with (a / 4) by zdm.
  replace (shift_of (4 * (a / 4))) with 24 by (unfold shift_of; zdm).
  replace (shift_of (4 * (a / 4) + 1)) with 16 by (unfold shift_of; zdm).
  replace (shift_of (4 * (a / 4) + 2)) with 8 by (unfold shift_of; zdm).
  replace (shift_of (4 * (a / 4) + 3)) with 0 by (unfold shift_of; zdm).
  pose proof (word_at_range m (a / 4)). zdm.
Qed.

(** ** The frame view *)

Lemma fb_range m base k : 0 <= fb m base k < 256.
Proof. apply mem_iord_byte_range. Qed.

Lemma fb_wrb m base j k v :
  0 <= base -> 0 <= j -> 0 <= k -> base + j < 0x100000000 -> base + k < 0x100000000 ->
  fb (mem_iowr_byte (base + j) v m) base k = if j =? k then u8 v else fb m base k.
Proof.
  intros. unfold fb. rewrite rd_wr_byte by lia.
  by destruct (Z.eqb_spec (base + j) (base + k)), (Z.eqb_spec j k); try lia.
Qed.

(** Word writes replace four bytes of an aligned frame. *)
Lemma fb_wrw m base j k v :
  0 <= base -> base mod 4 = 0 -> 0 <= j -> 0 <= k ->
  base + j < 0x100000000 -> base + k < 0x100000000 ->
  fb (mem_iowr (base + j) v m) base k =
  if j / 4 =? k / 4 then (v / 2 ^ shift_of k) mod 256 else fb m base k.
Proof.
  intros. unfold fb. rewrite rd_wr_word by lia.
  replace (shift_of (base + k)) with (shift_of k) by (unfold shift_of; zdm).
  destruct (Z.eqb_spec ((base + j) / 4) ((base + k) / 4)), (Z.eqb_spec (j / 4) (k / 4));
    [done|exfalso; zdm|exfalso; zdm|done].
Qed.

(** A write to one frame leaves the bytes outside of it alone. *)
Lemma fb_wrb_other m a base k v :
  0 <= a < 0x100000000 -> 0 <= base + k < 0x100000000 -> a <> base + k ->
  fb (mem_iowr_byte a v m) base k = fb m base k.
Proof.
  intros. unfold fb. rewrite rd_wr_byte by lia.
  by destruct (Z.eqb_spec a (base + k)); [lia|].
Qed.

(** Big-endian fields of a frame. *)
Definition fw (m : buf) (base k : Z) : Z := fb m base k * 256 + fb m base (k + 1).

Lemma fw_range m base k : 0 <= fw m base k < 65536.
Proof. unfold fw. pose proof (fb_range m base k). pose proof (fb_range m base (k + 1)). lia. Qed.

(** An aligned word read is two 16-bit fields. *)
Lemma mem_iord_fw m base k :
  0 <= base -> base mod 4 = 0 -> 0 <= k -> k mod 4 = 0 -> base + k < 0x80000000 ->
  mem_iord m (base + k) = fw m base k * 65536 + fw m base (k + 2).
Proof.
  intros. rewrite mem_iord_bytes by lia. cbv zeta.
  replace (4 * ((base + k) / 4)) with (base + k) by zdm.
  unfold fw, fb. replace (k + 2 + 1) with (k + 3) by lia. rewrite !Z.add_assoc. lia.
Qed.

(** Word writes on 16-bit fields. *)
Lemma fw_wrw m base j k v :
  0 <= base -> base mod 4 = 0 -> 0 <= j -> 0 <= k -> k mod 2 = 0 ->
  base + j < 0x100000000 -> base + k + 1 < 0x100000000 ->
  fw (mem_iowr (base + j) v m) base k =
  if j / 4 =? k / 4 then (if k mod 4 =? 0 then v / 65536 mod 65536 else v mod 65536)
  else fw m base k.
Proof.
  intros. unfold fw. rewrite !fb_wrw by lia.
  replace ((k + 1) / 4) with (k / 4) by zdm.
  destruct (Z.eqb_spec (j / 4) (k / 4)); [|done].
  destruct (Z.eqb_spec (k mod 4) 0) as [E|E].
  - replace (shift_of k) with 24 by (unfold shift_of; zdm).
    replace (shift_of (k + 1)) with 16 by (unfold shift_of; zdm). zdm.
  - replace (shift_of k) with 8 by (unfold shift_of; zdm).
    replace (shift_of (k + 1)) with 0 by (unfold shift_of; zdm). zdm.
Qed.

(** Byte writes elsewhere leave a field alone. *)
Lemma fw_wrb_other m base j k v :
  0 <= base -> 0 <= j -> 0 <= k -> j <> k -> j <> k + 1 ->
  base + j < 0x100000000 -> base + k + 1 < 0x100000000 ->
  fw (mem_iowr_byte (base + j) v m) base k = fw m base k.
Proof. intros. unfold fw. rewrite !fb_wrb by lia. zif. done. Qed.

(** ** Theorem *)

(** The buffer is an array of bytes: a byte write changes exactly the byte at
    its address, a word write exactly the four bytes of its word, in big-endian order,
    and a word read gives the four bytes of its word; the routines of the second
    controller do the same on its buffer. *)
Theorem buffer_is_byte_array m a b v :
  0 <= a < 0x80000000 -> 0 <= b < 0x80000000 ->
  mem_iord_byte (mem_iowr_byte a v m) b = (if a =? b then u8 v else mem_iord_byte m b) /\
  mem_iord_byte (mem_iowr a v m) b =
    (if a / 4 =? b / 4 then (v / 2 ^ (24 - 8 * (b mod 4))) mod 256 else mem_iord_byte m b) /\
  mem_iord m a = (let w := 4 * (a / 4) in
    mem_iord_byte m w * 0x1000000 + mem_iord_byte m (w + 1) * 0x10000
    + mem_iord_byte m (w + 2) * 0x100 + mem_iord_byte m (w + 3)) /\
  0 <= mem_iord_byte m b < 256 /\
  mem_iord_byte1 (mem_iowr1_byte a v m) b = mem_iord_byte (mem_iowr_byte a v m) b /\
  mem_iord1 (mem_iowr1 a v m) b = mem_iord (mem_iowr a v m) b.
Proof.
  intros Ha Hb. split; [apply rd_wr_byte; lia|]. split; [apply rd_wr_word; lia|].
  split; [by apply mem_iord_bytes|]. split; [apply mem_iord_byte_range|]. done.
Qed.

Lemma buffer_is_byte_array_witness :
  let m : buf := {[1 := 0x11223344]} in
  mem_iord_byte (mem_iowr_byte 5 0x1AB m) 5 = (if 5 =? 5 then u8 0x1AB else mem_iord_byte m 5) /\
  mem_iord_byte (mem_iowr 5 0x1AB m) 5 =
    (if 5 / 4 =? 5 / 4 then (0x1AB / 2 ^ (24 - 8 * (5 mod 4))) mod 256 else mem_iord_byte m 5) /\
  mem_iord m 5 = (let w := 4 * (5 / 4) in
    mem_iord_byte m w * 0x1000000 + mem_iord_byte m (w + 1) * 0x10000
    + mem_iord_byte m (w + 2) * 0x100 + mem_iord_byte m (w + 3)) /\
  0 <= mem_iord_byte m 5 < 256 /\
  mem_iord_byte1 (mem_iowr1_byte 5 0x1AB m) 5 = mem_iord_byte (mem_iowr_byte 5 0x1AB m) 5 /\
  mem_iord1 (mem_iowr1 5 0x1AB m) 5 = mem_iord (mem_iowr 5 0x1AB m) 5.
Proof. intros m. apply (buffer_is_byte_array m 5 5 0x1AB); lia. Defined.
