(* ===== verification/Frame.v ===== *)
(** * Frames in the buffer

    Loop patterns the protocol components share when they build a frame from
    another one: copying a frame, exchanging addresses, reading and writing lists of
    bytes. The lemmas describe their effect byte by byte. *)

From stdpp Require Import base gmap list numbers.
From S2P Require Import Prelude Machine EthIO.
Local Open Scope Z_scope.
Local Open Scope c_scope.

Lemma byte_list_eq m base off n l :
  0 <= n -> length l = Z.to_nat n ->
  (forall i, 0 <= i < n -> fb m base (off + i) = arr l i) ->
  (fun i => mem_iord_byte m (base + off + i)) <$> seqZ 0 n = l.
Proof.
  intros Hn Hl Hb. apply list_eq. intros i.
  destruct (decide (Z.of_nat i < n)) as [Hi|Hi].
  - rewrite list_lookup_fmap.
    assert (seqZ 0 n !! i = Some (Z.of_nat i)) as -> by (apply lookup_seqZ; lia).
    cbn. destruct (lookup_lt_is_Some_2 l i) as [x Hx]; [lia|]. rewrite Hx. f_equal.
    specialize (Hb (Z.of_nat i) ltac:(lia)). unfold fb in Hb.
    rewrite Z.add_assoc in Hb. rewrite Hb. unfold arr. rewrite Nat2Z.id.
    by apply nth_lookup_Some.
  - rewrite !lookup_ge_None_2; [done|lia|]. rewrite length_fmap, length_seqZ. lia.
Qed.

Lemma byte_list_length m a n :
  length ((fun i => mem_iord_byte m (a + i)) <$> seqZ 0 n) = Z.to_nat n.
Proof. by rewrite length_fmap, length_seqZ. Qed.

Lemma arr_byte_list m a n i :
  0 <= i < n -> arr ((fun i => mem_iord_byte m (a + i)) <$> seqZ 0 n) i = mem_iord_byte m (a + i).
Proof.
  intros Hi. unfold arr. apply nth_lookup_Some. rewrite list_lookup_fmap.
  assert (seqZ 0 n !! Z.to_nat i = Some i) as -> by (apply lookup_seqZ; lia). done.
Qed.

(** Copying a frame to a place that does not overlap it. *)
Lemma copy_loop m rx tx n :
  0 <= n -> in_buffer rx n -> in_buffer tx n -> (rx + n <= tx \/ tx + n <= rx) ->
  let m' := for_ n (fun i m => mem_iowr_byte (tx + i) (mem_iord_byte m (rx + i)) m) m in
  (forall k, 0 <= k < n -> fb m' tx k = fb m rx k) /\
  (forall a, 0 <= a < 0x100000000 -> ~ tx <= a < tx + n -> mem_iord_byte m' a = mem_iord_byte m a).
Proof.
  intros Hn [? ?] [? ?] Hd.
  apply (for_ind (fun j m' =>
    (forall k, 0 <= k < j -> fb m' tx k = fb m rx k) /\
    (forall a, 0 <= a < 0x100000000 -> ~ tx <= a < tx + j -> mem_iord_byte m' a = mem_iord_byte m a)));
    [done|split; intros; [lia|done]|].
  intros j m' Hj [IH1 IH2]. split.
  - intros k Hk. rewrite fb_wrb by lia. destruct (Z.eqb_spec j k) as [->|].
    + rewrite u8_small by apply mem_iord_byte_range. unfold fb. apply IH2; lia.
    + apply IH1. lia.
  - intros a Ha Hr. rewrite rd_wr_byte by lia.
    destruct (Z.eqb_spec (tx + j) a); [lia|]. apply IH2; lia.
Qed.

(** The two frames of a reply: the same, or apart. *)
Definition same_or_apart (rx tx n : Z) : Prop := rx = tx \/ rx + n <= tx \/ tx + n <= rx.

Lemma copy_frame m rx tx n :
  0 <= n -> in_buffer rx n -> in_buffer tx n -> same_or_apart rx tx n ->
  let m' := if negb (rx =? tx)
            then for_ n (fun i m => mem_iowr_byte (tx + i) (mem_iord_byte m (rx + i)) m) m else m in
  forall k, 0 <= k < n -> fb m' tx k = fb m rx k.
Proof.
  intros Hn Hr Ht Hd. destruct (Z.eqb_spec rx tx) as [->|Hne]; [done|].
  cbn [negb]. apply (copy_loop m rx tx n Hn Hr Ht). destruct Hd; [done|lia].
Qed.

(** Moving the [n] bytes at offset [s] to offset [d] and storing [l] at [s]. *)
Lemma move_loop m tx d s n l :
  0 <= n -> 0 <= d -> 0 <= s -> (d + n <= s \/ s + n <= d) ->
  0 <= tx -> tx + d + n <= 0x100000000 -> tx + s + n <= 0x100000000 ->
  let m' := for_ n (fun i m =>
      let m := mem_iowr_byte (tx + d + i) (mem_iord_byte m (tx + s + i)) m in
      mem_iowr_byte (tx + s + i) (arr l i) m) m in
  forall k, 0 <= k -> tx + k < 0x100000000 ->
  fb m' tx k = if (d <=? k) && (k <? d + n) then fb m tx (s + (k - d))
               else if (s <=? k) && (k <? s + n) then u8 (arr l (k - s))
               else fb m tx k.
Proof.
  intros Hn Hd Hs Hds Ht Hbd Hbs.
  apply (for_ind (fun j m' => forall k, 0 <= k -> tx + k < 0x100000000 ->
    fb m' tx k = if (d <=? k) && (k <? d + j) then fb m tx (s + (k - d))
               else if (s <=? k) && (k <? s + j) then u8 (arr l (k - s))
               else fb m tx k)); [done| |].
  - intros k Hk Hk'.
    destruct (Z.leb_spec d k), (Z.ltb_spec k (d + 0)), (Z.leb_spec s k), (Z.ltb_spec k (s + 0));
      try lia; done.
  - intros j m' Hj IH k Hk Hk'. cbv zeta. rewrite <- !(Z.add_assoc tx), !fb_wrb by lia.
    change (mem_iord_byte m' (tx + (s + j))) with (fb m' tx (s + j)). rewrite !IH by lia.
    destruct (Z.eqb_spec (s + j) k) as [<-|].
    + replace (s + j - s) with j by lia.
      destruct (Z.leb_spec d (s + j)), (Z.ltb_spec (s + j) (d + (j + 1))),
        (Z.leb_spec s (s + j)), (Z.ltb_spec (s + j) (s + (j + 1))); try lia; done.
    + destruct (Z.eqb_spec (d + j) k) as [<-|].
      * replace (d + j - d) with j by lia.
        destruct (Z.leb_spec d (s + j)), (Z.ltb_spec (s + j) (d + j)),
          (Z.leb_spec s (s + j)), (Z.ltb_spec (s + j) (s + j)),
          (Z.leb_spec d (d + j)), (Z.ltb_spec (d + j) (d + (j + 1))); try lia; cbn [andb];
          apply u8_small, fb_range.
      * destruct (Z.leb_spec d k), (Z.ltb_spec k (d + j)), (Z.ltb_spec k (d + (j + 1))),
          (Z.leb_spec s k), (Z.ltb_spec k (s + j)), (Z.ltb_spec k (s + (j + 1))); try lia; done.
Qed.

(** Writing the first [n] bytes of [l] at offset [off]. *)
Lemma write_loop m tx off n l k :
  0 <= n -> 0 <= off -> 0 <= tx -> tx + off + n <= 0x100000000 -> 0 <= k -> tx + k < 0x100000000 ->
  fb (for_ n (fun i m => mem_iowr_byte (tx + off + i) (arr l i) m) m) tx k =
  if (off <=? k) && (k <? off + n) then u8 (arr l (k - off)) else fb m tx k.
Proof.
  intros Hn Ho Ht Hb Hk Hk2. revert k Hk Hk2.
  apply (for_ind (fun j m' => forall k, 0 <= k -> tx + k < 0x100000000 ->
    fb m' tx k = if (off <=? k) && (k <? off + j) then u8 (arr l (k - off)) else fb m tx k)); [done| |].
  - intros k Hk Hk'. by destruct (Z.leb_spec off k), (Z.ltb_spec k (off + 0)); try lia.
  - intros j m' Hj IH k Hk Hk'. rewrite <- Z.add_assoc, fb_wrb, IH by lia.
    destruct (Z.eqb_spec (off + j) k) as [<-|Hne].
    + zif. f_equal. f_equal. lia.
    + destruct (Z.leb_spec off k), (Z.ltb_spec k (off + j)), (Z.ltb_spec k (off + (j + 1)));
        try lia; done.
Qed.
