(* ===== verification/MacDriver.v ===== *)
(** * The controller driver: src/c/ethlib/eth_mac_driver.c

    Transmission and reception of frames by polling the registers and buffer
    descriptors of the controller, and the register accessors. [fuel] bounds the
    number of iterations of the polling loops, whose number of iterations the
    environment decides. *)

From stdpp Require Import base gmap list numbers.
From S2P Require Import Prelude Machine EthIO.
Local Open Scope Z_scope.
Local Open Scope c_scope.

(** ** Register map (eth_mac_driver.h) *)

Definition MODER_ADDR := 0x00.
Definition INT_SOURCE_ADDR := 0x04.
Definition INT_MASK_ADDR := 0x08.
Definition TX_BD_NUM_ADDR := 0x20.
Definition MIICOMMAND_ADDR := 0x2C.
Definition MIIADDRESS_ADDR := 0x30.
Definition MIITX_DATA_ADDR := 0x34.
Definition MIISTATUS := 0x3C.
Definition WCTRLDATA_BIT := 0x4.
Definition BUSY_BIT := 0x2.
Definition TX_BD_ADDR_BASE := 0x400.
Definition RX_BD_ADDR_BASE (TX_BD_NUM : Z) := TX_BD_ADDR_BASE + TX_BD_NUM * 8.
Definition INT_SOURCE_RXB_BIT := 0x0004.
Definition INT_SOURCE_TXB_BIT := 0x0001.
Definition RX_BD_EMPTY_BIT := 0x8000.
Definition RX_BD_IRQEN_BIT := 0x4000.
Definition RX_BD_WRAP_BIT := 0x2000.
Definition TX_BD_READY_BIT := 0x8000.
Definition TX_BD_IRQEN_BIT := 0x4000.
Definition TX_BD_WRAP_BIT := 0x2000.
Definition TX_BD_PAD_EN_BIT := 0x1000.

Section Driver.
Context `{Env}.

(** ** High level functions *)

(** [free] and [done] are [unsigned char]. *)
Definition eth_mac_send (fuel : nat) (tx_addr frame_length : Z) : M unit :=
  loop fuel (fun free =>
    if free =? 1 then
      v ← eth_iord TX_BD_ADDR_BASE;
      mret (inl (u8 (v .& 0x8000)))
    else mret (inr tt)) 1;;
  eth_iowr INT_SOURCE_ADDR 0x00000001;;
  eth_iowr (TX_BD_ADDR_BASE + 4) tx_addr;;
  eth_iowr TX_BD_ADDR_BASE ((frame_length << 16) .| 0xF000);;
  loop fuel (fun done =>
    if done =? 0 then
      v ← eth_iord INT_SOURCE_ADDR;
      mret (inl (u8 (v .& 0x1)))
    else mret (inr tt)) 0.

Definition eth_mac_send_nb (tx_addr frame_length : Z) : M Z :=
  v ← eth_iord TX_BD_ADDR_BASE;
  if (v .& TX_BD_READY_BIT) =? 1 then mret 0
  else
    eth_iowr (TX_BD_ADDR_BASE + 4) tx_addr;;
    eth_iowr TX_BD_ADDR_BASE ((frame_length << 16) .| 0xF000);;
    eth_iowr INT_SOURCE_ADDR INT_SOURCE_TXB_BIT;;
    eth_iowr TX_BD_ADDR_BASE
      (TX_BD_READY_BIT .| TX_BD_IRQEN_BIT .| TX_BD_WRAP_BIT .| TX_BD_PAD_EN_BIT);;
    mret 1.

Definition eth_mac_receive (fuel : nat) (rx_addr timeout : Z) : M Z :=
  n ← eth_iord TX_BD_NUM_ADDR;
  eth_iowr (RX_BD_ADDR_BASE n + 4) rx_addr;;
  received ←
    (if timeout =? 0 then
       loop fuel (fun _ : unit =>
         v ← eth_iord INT_SOURCE_ADDR;
         if (v .& INT_SOURCE_RXB_BIT) =? 0 then mret (inl tt) else mret (inr true)) tt
     else
       start_time ← get_cpu_usecs;
       loop fuel (fun _ : unit =>
         v ← eth_iord INT_SOURCE_ADDR;
         if (v .& INT_SOURCE_RXB_BIT) =? 0 then
           now ← get_cpu_usecs;
           if timeout <=? u64 (now - start_time) then mret (inr false) else mret (inl tt)
         else mret (inr true)) tt);
  if received : bool then
    eth_iowr INT_SOURCE_ADDR INT_SOURCE_RXB_BIT;;
    n ← eth_iord TX_BD_NUM_ADDR;
    eth_iowr (RX_BD_ADDR_BASE n) (RX_BD_EMPTY_BIT .| RX_BD_IRQEN_BIT .| RX_BD_WRAP_BIT);;
    mret 1
  else mret 0.

Definition eth_mac_receive_nb (rx_addr : Z) : M Z :=
  n ← eth_iord TX_BD_NUM_ADDR;
  eth_iowr (RX_BD_ADDR_BASE n + 4) rx_addr;;
  v ← eth_iord INT_SOURCE_ADDR;
  let ans := if (v .& INT_SOURCE_RXB_BIT) =? 0 then 0 else 1 in
  eth_iowr INT_SOURCE_ADDR INT_SOURCE_RXB_BIT;;
  n ← eth_iord TX_BD_NUM_ADDR;
  eth_iowr (RX_BD_ADDR_BASE n) (RX_BD_EMPTY_BIT .| RX_BD_IRQEN_BIT .| RX_BD_WRAP_BIT);;
  mret ans.

Definition eth_mac_has_frame (rx_addr : Z) : M Z :=
  v ← eth_iord INT_SOURCE_ADDR;
  mret (if (v .& INT_SOURCE_RXB_BIT) =? 0 then 0 else 1).

Definition eth_mac_isready_rx_buffer (rx_buff rx_bd : Z) : M Z :=
  v ← eth_iord rx_bd;
  mret (if (v .& RX_BD_EMPTY_BIT) =? 0 then 0 else 1).

Definition eth_mac_clear_rx_buffer (rx_buff rx_bd : Z) : M unit :=
  temp_config ← eth_iord INT_SOURCE_ADDR;
  eth_iowr INT_SOURCE_ADDR (temp_config .| INT_SOURCE_RXB_BIT);;
  temp_config ← eth_iord rx_bd;
  eth_iowr rx_bd (temp_config .| (RX_BD_EMPTY_BIT .| RX_BD_IRQEN_BIT .| RX_BD_WRAP_BIT)).

Definition eth_mac_initialize : M unit :=
  eth_iowr 0x40 0xEEF0DA42;;
  eth_iowr 0x44 0x000000FF;;
  eth_iowr 0x00 0x0000A423;;
  n ← eth_iord TX_BD_NUM_ADDR;
  eth_iowr (RX_BD_ADDR_BASE n) (RX_BD_EMPTY_BIT .| RX_BD_IRQEN_BIT .| RX_BD_WRAP_BIT).

(** ** Register accessors *)

Definition set_tx_enable : M unit :=
  data ← eth_iord 0x00; eth_iowr 0x00 (data .| 0x0002).

Definition get_tx_enable : M Z :=
  data ← eth_iord 0x00; mret (data .& 0x0002).

Definition set_rx_enable : M unit :=
  data ← eth_iord 0x00; eth_iowr 0x00 (data .| 0x0001).

Definition get_rx_enable : M Z :=
  data ← eth_iord 0x00; mret (data .& 0x0001).

Definition set_int_source_rxb : M unit :=
  data ← eth_iord 0x04; eth_iowr 0x04 (data .| (1 << 3)).

Definition get_int_source_rxb : M Z :=
  data ← eth_iord 0x04; mret ((data >> 3) .& 1).

(** The message printed for a number that is too high is not modelled. *)
Definition set_tx_db_num (data : Z) : M unit :=
  if data <? 0x80 then eth_iowr 0x20 data else mret tt.

Definition get_tx_db_num : M Z := eth_iord 0x20.

Definition set_mac_address (my_mac0 my_mac1 : Z) : M unit :=
  eth_iowr 0x40 my_mac0;; eth_iowr 0x44 my_mac1.

Definition get_mac_address : M Z :=
  hi ← eth_iord 0x44;
  lo ← eth_iord 0x40;
  mret (u64 (u64 (hi << 32) + lo)).

Definition set_tx_bd (data : Z) : M unit := eth_iowr 0x400 data.

Definition get_tx_db : M Z := eth_iord 0x400.

Definition get_tx_db_mem_pointer : M Z := eth_iord (0x400 + 0x04).

Definition set_rx_bd (data : Z) : M unit :=
  tx_db_num ← get_tx_db_num; eth_iowr (0x400 + tx_db_num * 0x08) data.

Definition get_rx_db : M Z :=
  tx_db_num ← get_tx_db_num; eth_iord (0x400 + tx_db_num * 0x08).

Definition get_rx_db_length : M Z :=
  tx_db_num ← get_tx_db_num;
  rx_db ← get_rx_db;
  mret (rx_db >> 16).

Definition get_rx_db_mem_pointer : M Z :=
  tx_db_num ← get_tx_db_num; eth_iord (0x400 + tx_db_num * 0x08 + 0x04).

Definition set_rx_db_empty : M unit :=
  tx_db_num ← get_tx_db_num;
  cur_data ← eth_iord (0x400 + tx_db_num * 0x08);
  eth_iowr (0x400 + tx_db_num * 0x08) (cur_data .| (1 << 15)).

Definition get_rx_db_empty : M Z :=
  tx_db_num ← get_tx_db_num;
  cur_data ← eth_iord (0x400 + tx_db_num * 0x08);
  mret ((cur_data >> 15) .& 1).

Definition set_rx_db_irq : M unit :=
  tx_db_num ← get_tx_db_num;
  cur_data ← eth_iord (0x400 + tx_db_num * 0x08);
  eth_iowr (0x400 + tx_db_num * 0x08) (cur_data .| (1 << 14)).

Definition get_rx_db_irq : M Z :=
  tx_db_num ← get_tx_db_num;
  cur_data ← eth_iord (0x400 + tx_db_num * 0x08);
  mret ((cur_data >> 14) .& 1).

Definition send_phy_command (cmd reg_addr phy_addr : Z) : M Z :=
  v ← eth_iord MIISTATUS;
  if (v .& BUSY_BIT) =? BUSY_BIT then mret 0
  else
    eth_iowr MIITX_DATA_ADDR cmd;;
    eth_iowr MIIADDRESS_ADDR (((reg_addr .& 0xF) << 8) .| (phy_addr .& 0xF));;
    eth_iowr MIICOMMAND_ADDR WCTRLDATA_BIT;;
    mret 1.

Definition eth_read_register (addr : Z) : M Z :=
  v ← eth_iord addr; mret (s32 v).

End Driver.

(** ** Specification: what the controller is asked to transmit

    Setting the ready bit in the transmit descriptor starts the transmission of
    the number of bytes in its upper half, from the address last written to the
    descriptor's pointer. [tx_log] reads the transmissions off a history, latest
    first, each with the buffer contents when it was started. *)

Record tx_frame := TxFrame { tx_pnt : Z; tx_len : Z; tx_buf : buf }.

Fixpoint tx_pointer (h : history) : Z :=
  match h with
  | [] => 0
  | EvWr a d _ :: h => if a =? TX_BD_ADDR_BASE + 4 then d else tx_pointer h
  | _ :: h => tx_pointer h
  end.

Fixpoint tx_log (h : history) : list tx_frame :=
  match h with
  | [] => []
  | EvWr a d b :: h =>
      if (a =? TX_BD_ADDR_BASE) && Z.testbit d 15
      then TxFrame (tx_pointer h) (d >> 16) b :: tx_log h
      else tx_log h
  | _ :: h => tx_log h
  end.

Section DriverSpec.
Context `{Env}.

(** The flags of the interrupt source register after history [h]. *)
Definition txb (h : history) : bool := Z.testbit (env_rd h INT_SOURCE_ADDR) 0.
Definition rxb (h : history) : bool := Z.testbit (env_rd h INT_SOURCE_ADDR) 2.

(** The controller's DMA keeps away from the [len] bytes at [base]. *)
Definition dma_avoids (base len : Z) : Prop :=
  forall h m k, 0 <= k < len -> fb (env_dma h m) base k = fb m base k.

(** The states a transmission goes through: one look at the descriptor, then the
    three writes that start it. *)
Definition tx_armed (tx_addr : Z) (s : machine) : machine :=
  let s := access (EvRd TX_BD_ADDR_BASE) s in
  let s := access (EvWr INT_SOURCE_ADDR 1 (buff s)) s in
  access (EvWr (TX_BD_ADDR_BASE + 4) (u32 tx_addr) (buff s)) s.

Definition tx_started (tx_addr frame_length : Z) (s : machine) : machine :=
  let s := tx_armed tx_addr s in
  access (EvWr TX_BD_ADDR_BASE (u32 ((frame_length << 16) .| 0xF000)) (buff s)) s.

(** ** Lemmas *)

Lemma eth_iord_run a s :
  eth_iord a s = Some (u32 (env_rd (hist s) (4 * (u32 a >> 2))), access (EvRd (4 * (u32 a >> 2))) s).
Proof. done. Qed.

Lemma u32_land1 v : u8 (u32 v .& 1) = Z.b2z (Z.testbit v 0).
Proof. rewrite land_1, Z.bit0_mod. zdm. Qed.

Lemma land_bit v n : 0 <= n -> (v .& (2 ^ n) =? 0) = negb (Z.testbit v n).
Proof.
  intros Hn. destruct (Z.testbit v n) eqn:E; cbn [negb].
  - apply Z.eqb_neq. intros E0. apply (f_equal (fun x => Z.testbit x n)) in E0.
    rewrite Z.land_spec, Z.bits_0, E, Z.pow2_bits_true in E0 by lia. done.
  - apply Z.eqb_eq, Z.bits_inj'. intros i Hi. rewrite Z.land_spec, Z.bits_0.
    destruct (Z.eq_dec i n) as [->|]; [by rewrite E|].
    rewrite Z.pow2_bits_false by lia. apply andb_false_r.
Qed.

Lemma land_bit_u32 v n : 0 <= n < 32 -> (u32 v .& (2 ^ n) =? 0) = negb (Z.testbit v n).
Proof.
  intros Hn. rewrite land_bit by lia. unfold u32.
  change 4294967296 with (2 ^ 32). by rewrite Z.mod_pow2_bits_low by lia.
Qed.

(** The busy test of [eth_mac_send] reads the descriptor once, whatever it holds:
    the tested bit does not fit the [unsigned char] it is assigned to. *)
Lemma busy_loop_once fuel s :
  (2 <= fuel)%nat ->
  loop fuel (fun free =>
    if free =? 1 then v ← eth_iord TX_BD_ADDR_BASE; mret (inl (u8 (v .& 0x8000)))
    else mret (inr tt)) 1 s = Some (tt, access (EvRd TX_BD_ADDR_BASE) s).
Proof.
  intros Hf. destruct fuel as [|[|fuel]]; [lia..|].
  rewrite (loop_step _ _ _ 0 s (access (EvRd TX_BD_ADDR_BASE) s)).
  - by apply loop_exit.
  - cbv beta. rewrite Z.eqb_refl, bind_eq, eth_iord_run.
    unfold mret, M_ret. do 3 f_equal. change 0x8000 with (2 ^ 15).
    assert (forall v, u8 (v .& 2 ^ 15) = 0) as ->; [|done].
    intros v. unfold u8. change 256 with (2 ^ 8). apply Z.bits_inj'. intros i Hi.
    rewrite Z.bits_0. destruct (Z.lt_ge_cases i 8).
    + rewrite Z.mod_pow2_bits_low, Z.land_spec, Z.pow2_bits_false by lia. apply andb_false_r.
    + by apply Z.mod_pow2_bits_high.
Qed.

(** The completion loop of [eth_mac_send]. *)
Lemma done_loop n fuel s :
  (forall i, (i < n)%nat -> txb (repeat (EvRd INT_SOURCE_ADDR) i ++ hist s) = false) ->
  txb (repeat (EvRd INT_SOURCE_ADDR) n ++ hist s) = true ->
  (n + 2 <= fuel)%nat ->
  loop fuel (fun done =>
    if done =? 0 then v ← eth_iord INT_SOURCE_ADDR; mret (inl (u8 (v .& 0x1)))
    else mret (inr tt)) 0 s
  = Some (tt, Nat.iter (S n) (access (EvRd INT_SOURCE_ADDR)) s).
Proof.
  revert fuel s. induction n as [|n IH]; intros fuel s Hlt Hn Hf.
  - destruct fuel as [|[|fuel]]; [lia..|].
    rewrite (loop_step _ _ _ 1 s (access (EvRd INT_SOURCE_ADDR) s)); [by apply loop_exit|].
    cbv beta. rewrite Z.eqb_refl, bind_eq, eth_iord_run. unfold mret, M_ret. rewrite u32_land1.
    change (Z.testbit _ 0) with (txb (hist s)). simpl in Hn. by rewrite Hn.
  - destruct fuel as [|fuel]; [lia|].
    rewrite (loop_step _ _ _ 0 s (access (EvRd INT_SOURCE_ADDR) s)).
    + rewrite Nat.iter_succ_r. apply IH; [| |lia].
      * intros i Hi. specialize (Hlt (S i)). rewrite <- (Hlt ltac:(lia)).
        cbn [access hist]. by rewrite repeat_app_cons.
      * rewrite <- Hn. cbn [access hist]. by rewrite repeat_app_cons.
    + cbv beta. rewrite Z.eqb_refl, bind_eq, eth_iord_run. unfold mret, M_ret. rewrite u32_land1.
      change (Z.testbit _ 0) with (txb (hist s)).
      specialize (Hlt 0%nat ltac:(lia)). simpl in Hlt. by rewrite Hlt.
Qed.

(** ** Transmission *)

(** What the controller promises: it reports the end of a transmission within
    [bound] looks at the interrupt register. *)
Class TxLive (bound : nat) :=
  tx_live : forall h d b, Z.testbit d 15 = true ->
    exists n, (n <= bound)%nat /\
      txb (repeat (EvRd INT_SOURCE_ADDR) n ++ EvWr TX_BD_ADDR_BASE d b :: h) = true.

Lemma bd_word len :
  let d := u32 ((len << 16) .| 0xF000) in Z.testbit d 15 = true /\ d >> 16 = u16 len.
Proof.
  cbv zeta. rewrite lor_shl by lia. change (2 ^ 16) with 65536. split.
  - rewrite Z.testbit_true by lia. change (2 ^ 15) with 32768. zdm.
  - rewrite shr_div by lia. change (2 ^ 16) with 65536. zdm.
Qed.

Lemma eth_mac_send_run fuel tx len s :
  (2 <= fuel)%nat ->
  eth_mac_send fuel tx len s =
  loop fuel (fun done =>
    if done =? 0 then v ← eth_iord INT_SOURCE_ADDR; mret (inl (u8 (v .& 0x1)))
    else mret (inr tt)) 0 (tx_started tx len s).
Proof.
  intros Hf. unfold eth_mac_send. by rewrite (bind_some _ _ _ _ _ (busy_loop_once fuel s Hf)).
Qed.

Lemma tx_log_polls n a s :
  tx_log (hist (Nat.iter n (access (EvRd a)) s)) = tx_log (hist s).
Proof. rewrite hist_polls. by induction n as [|n IH]. Qed.

Lemma tx_log_started tx len s :
  tx_log (hist (tx_started tx len s)) =
  TxFrame (u32 tx) (u16 len) (buff (tx_armed tx s)) :: tx_log (hist s).
Proof.
  destruct (bd_word len) as [Hb Hl]. unfold tx_started. cbn -[u32 buff tx_armed Z.testbit Z.shiftr].
  rewrite Hb, Hl. done.
Qed.

(** The state after a completed transmission, in terms of the number of polls. *)
Definition tx_done (n : nat) (tx len : Z) (s : machine) : machine :=
  Nat.iter (S n) (access (EvRd INT_SOURCE_ADDR)) (tx_started tx len s).

Lemma eth_mac_send_inv fuel tx len s s' :
  eth_mac_send fuel tx len s = Some (tt, s') -> exists n, s' = tx_done n tx len s.
Proof.
  intros Hr. destruct (decide (2 <= fuel)%nat) as [Hf|Hf].
  - rewrite eth_mac_send_run in Hr by done.
    apply (loop_inv
      (fun done t => exists n, t = Nat.iter n (access (EvRd INT_SOURCE_ADDR)) (tx_started tx len s)
                      /\ (done <> 0 -> n <> 0%nat))
      (fun _ t => exists n, t = tx_done n tx len s)) in Hr; [done|..].
    + intros d t d' t' (n & -> & Hd) E. cbv beta in E.
      destruct (Z.eqb_spec d 0); [|done]. rewrite bind_eq, eth_iord_run in E.
      injection E as <- <-. exists (S n). split; [done|lia].
    + intros d t [] t' (n & -> & Hd) E. cbv beta in E.
      destruct (Z.eqb_spec d 0) as [->|Hne].
      * rewrite bind_eq, eth_iord_run in E. done.
      * injection E as <-. specialize (Hd Hne). destruct n as [|n]; [done|]. by exists n.
    + exists 0%nat. split; [done|lia].
  - exfalso. destruct fuel as [|[|fuel]]; [done| |lia]. done.
Qed.

(** The controller reports the end of the transmission after history [h] at the [n]-th look, and
    not before. *)
Definition first_report (h : history) (n : nat) : Prop :=
  (forall i, (i < n)%nat -> txb (repeat (EvRd INT_SOURCE_ADDR) i ++ h) = false) /\
  txb (repeat (EvRd INT_SOURCE_ADDR) n ++ h) = true.

Lemma eth_mac_send_first `{!TxLive bound} fuel tx len s :
  (bound + 2 <= fuel)%nat ->
  exists n, (n <= bound)%nat /\ eth_mac_send fuel tx len s = Some (tt, tx_done n tx len s) /\
    first_report (hist (tx_started tx len s)) n.
Proof.
  intros Hf. destruct (tx_live (hist (tx_armed tx s)) (u32 ((len << 16) .| 0xF000))
    (buff (tx_armed tx s)) (proj1 (bd_word len))) as (n & Hn & Ht).
  pose (stop := fun t => if txb (hist t) then Some (tt, t) else None).
  destruct (first_stop (access (EvRd INT_SOURCE_ADDR)) stop n (tx_started tx len s))
    as (k & r & Hk & Hr & Hlt).
  { unfold stop. rewrite hist_polls. cbv [tx_started access hist]. fold (hist (tx_armed tx s)).
    by rewrite Ht. }
  assert (first_report (hist (tx_started tx len s)) k) as [F1 F2].
  { split.
    - intros i Hi. specialize (Hlt i Hi). unfold stop in Hlt. rewrite hist_polls in Hlt. by case_match.
    - unfold stop in Hr. rewrite hist_polls in Hr. by case_match. }
  exists k. split; [lia|]. split; [|by split]. rewrite eth_mac_send_run by lia. by apply done_loop; [| |lia].
Qed.

Lemma eth_mac_send_total `{!TxLive bound} fuel tx len s :
  (bound + 2 <= fuel)%nat ->
  exists n, (n <= bound)%nat /\ eth_mac_send fuel tx len s = Some (tt, tx_done n tx len s).
Proof. intros Hf. destruct (eth_mac_send_first fuel tx len s Hf) as (n & Hn & E & _). by exists n. Qed.

(** The states [eth_mac_send_nb] goes through. *)
Definition nb_armed (tx_addr : Z) (s : machine) : machine :=
  let s := access (EvRd TX_BD_ADDR_BASE) s in
  access (EvWr (TX_BD_ADDR_BASE + 4) (u32 tx_addr) (buff s)) s.

Definition nb_done (tx_addr frame_length : Z) (s : machine) : machine :=
  let s := nb_armed tx_addr s in
  let s := access (EvWr TX_BD_ADDR_BASE (u32 ((frame_length << 16) .| 0xF000)) (buff s)) s in
  let s := access (EvWr INT_SOURCE_ADDR 1 (buff s)) s in
  access (EvWr TX_BD_ADDR_BASE 0xF000 (buff s)) s.

(** The test of the ready bit never succeeds. *)
Lemma eth_mac_send_nb_run tx len s : eth_mac_send_nb tx len s = Some (1, nb_done tx len s).
Proof.
  unfold eth_mac_send_nb. rewrite bind_eq, eth_iord_run. change TX_BD_READY_BIT with (2 ^ 15).
  destruct (Z.eqb_spec (u32 (env_rd (hist s) (4 * (u32 TX_BD_ADDR_BASE >> 2))) .& 2 ^ 15) 1) as [E|_];
    [|done].
  exfalso. apply (f_equal (fun x => Z.testbit x 0)) in E.
  rewrite Z.land_spec, Z.pow2_bits_false in E by lia. by rewrite andb_false_r in E.
Qed.

Lemma tx_log_nb tx len s :
  exists b, tx_log (hist (nb_done tx len s)) =
    TxFrame (u32 tx) 0 b :: TxFrame (u32 tx) (u16 len) (buff (nb_armed tx s)) :: tx_log (hist s).
Proof.
  destruct (bd_word len) as [Hb Hl]. eexists. unfold nb_done.
  cbn -[u32 Z.testbit Z.shiftr Z.shiftl Z.lor nb_armed buff]. rewrite Hb, Hl. reflexivity.
Qed.

(** A frame the controller's DMA keeps away from is transmitted as it was built. *)
Lemma tx_armed_frame tx base len s k :
  dma_avoids base len -> 0 <= k < len -> fb (buff (tx_armed tx s)) base k = fb (buff s) base k.
Proof. intros Hd Hk. cbn. by rewrite !Hd by lia. Qed.

Lemma nb_armed_frame tx base len s k :
  dma_avoids base len -> 0 <= k < len -> fb (buff (nb_armed tx s)) base k = fb (buff s) base k.
Proof. intros Hd Hk. cbn. by rewrite !Hd by lia. Qed.

(** Globals are not touched by the driver. *)
Definition same_globals (s s' : machine) : Prop :=
  my_mac s' = my_mac s /\ my_ip s' = my_ip s /\ arp_table s' = arp_table s /\ ipv4_id s' = ipv4_id s.

Lemma same_globals_polls n e s : same_globals s (Nat.iter n (access e) s).
Proof. induction n as [|n IH]; [done|]. destruct IH as (? & ? & ? & ?). done. Qed.

Lemma same_globals_tx_done n tx len s : same_globals s (tx_done n tx len s).
Proof. exact (same_globals_polls (S n) _ (tx_started tx len s)). Qed.

(** ** Reception *)

(** The receive descriptor is pointed at [rx_addr]. *)
Definition rx_armed (rx_addr : Z) (s : machine) : machine :=
  let n := u32 (env_rd (hist s) TX_BD_NUM_ADDR) in
  let s := access (EvRd TX_BD_NUM_ADDR) s in
  access (EvWr (4 * (u32 (RX_BD_ADDR_BASE n + 4) >> 2)) (u32 rx_addr) (buff s)) s.

(** The interrupt is acknowledged and the descriptor handed back. *)
Definition rx_release (s : machine) : machine :=
  let s := access (EvWr INT_SOURCE_ADDR INT_SOURCE_RXB_BIT (buff s)) s in
  let n := u32 (env_rd (hist s) TX_BD_NUM_ADDR) in
  let s := access (EvRd TX_BD_NUM_ADDR) s in
  access (EvWr (4 * (u32 (RX_BD_ADDR_BASE n) >> 2)) 0xE000 (buff s)) s.

(** One iteration without a frame: a look at the register, one at the clock. *)
Definition rx_next (s : machine) : machine :=
  stamp EvUsecs (access (EvRd INT_SOURCE_ADDR) s).

(** The time the iteration in state [s] sees on the clock. *)
Definition rx_now (s : machine) : Z :=
  u64 (env_usecs (EvRd INT_SOURCE_ADDR :: hist s)).

Definition rx_stop (start timeout : Z) (s : machine) : option (bool * machine) :=
  if rxb (hist s) then Some (true, access (EvRd INT_SOURCE_ADDR) s)
  else if timeout <=? u64 (rx_now s - start) then Some (false, rx_next s) else None.

Lemma rx_loop_step start timeout s :
  (v ← eth_iord INT_SOURCE_ADDR;
   if (v .& INT_SOURCE_RXB_BIT) =? 0 then
     now ← get_cpu_usecs;
     if timeout <=? u64 (now - start) then mret (inr false) else mret (inl tt)
   else mret (inr true)) s =
  match rx_stop start timeout s with
  | None => Some (inl tt, rx_next s)
  | Some (a, s') => Some (inr a, s')
  end.
Proof.
  rewrite bind_eq, eth_iord_run. unfold rx_stop.
  change INT_SOURCE_RXB_BIT with (2 ^ 2). rewrite land_bit_u32 by lia.
  change (Z.testbit _ 2) with (rxb (hist s)). destruct (rxb (hist s)); [done|].
  cbn [negb]. rewrite bind_eq. unfold get_cpu_usecs. fold (rx_next s).
  change (u64 (env_usecs _)) with (rx_now s). by destruct (timeout <=? _).
Qed.

(** The polls seen by [eth_mac_receive] up to iteration [n]. *)
Definition rx_at (rx_addr : Z) (n : nat) (s : machine) : machine :=
  Nat.iter n rx_next (stamp EvUsecs (rx_armed rx_addr s)).

(** The clock when the waiting started. *)
Definition rx_start (rx_addr : Z) (s : machine) : Z := u64 (env_usecs (hist (rx_armed rx_addr s))).

Lemma eth_mac_receive_run fuel rx timeout n s b t :
  timeout <> 0 -> (n < fuel)%nat ->
  (forall i, (i < n)%nat -> rx_stop (rx_start rx s) timeout (rx_at rx i s) = None) ->
  rx_stop (rx_start rx s) timeout (rx_at rx n s) = Some (b, t) ->
  eth_mac_receive fuel rx timeout s =
  if b then Some (1, rx_release t) else Some (0, t).
Proof.
  intros Ht Hf Hlt Hn. unfold eth_mac_receive.
  rewrite bind_eq, eth_iord_run, bind_eq. cbn [eth_iowr io_wr].
  rewrite (bind_some _ _ _ b t); [by destruct b|].
  destruct (Z.eqb_spec timeout 0) as [|_]; [done|].
  rewrite bind_eq. unfold get_cpu_usecs.
  exact (loop_poll _ rx_next (rx_stop (rx_start rx s) timeout) n fuel _ (b, t)
           (rx_loop_step _ _) Hlt Hn Hf).
Qed.

End DriverSpec.

(** ** Environments used by the examples

    [quiet_env]: transmissions end at once, no frame arrives, the clock advances by
    10 us with every access. [busy_env] also reports a received frame, and a
    transmit descriptor that is still owned by the controller. *)

Definition quiet_env : Env := {|
  env_rd := fun _ a => if a =? INT_SOURCE_ADDR then 1 else if a =? TX_BD_NUM_ADDR then 1 else 0;
  env_dma := fun _ m => m;
  env_usecs := fun h => 10 * Z.of_nat (length h);
  env_cycles := fun h => 800 * Z.of_nat (length h);
  env_past_arp_table := 1
|}.

Definition busy_env : Env := {|
  env_rd := fun _ a => if a =? INT_SOURCE_ADDR then 5 else if a =? TX_BD_NUM_ADDR then 1 else 0xFFFF;
  env_dma := fun _ m => m;
  env_usecs := fun h => 10 * Z.of_nat (length h);
  env_cycles := fun h => 800 * Z.of_nat (length h);
  env_past_arp_table := 1
|}.

Definition init_machine : machine :=
  Machine ∅ [] [0x00; 0x80; 0x6e; 0xF0; 0xDA; 0x42] [192; 168; 24; 50]
    (replicate 8 (ArpEntry 0 [0; 0; 0; 0] [0; 0; 0; 0; 0; 0])) 0x1111.

Lemma quiet_live : @TxLive quiet_env 0.
Proof. intros h d b _. exists 0%nat. split; [lia|done]. Qed.

Lemma busy_live : @TxLive busy_env 0.
Proof. intros h d b _. exists 0%nat. split; [lia|done]. Qed.

(** ** Theorems *)

Section DriverTheorems.
Context `{Env}.

(** Claim C31. [eth_mac_send] asks the controller to transmit exactly one frame, the [frame_length]
    bytes at [tx_addr] as they were in the buffer when the descriptor was written; it then looks
    at the interrupt register and returns at the first look that reports the end of the
    transmission, and not before, with no other access to the controller; and it leaves the
    globals of the library alone. It returns if the controller reports the end within [bound]
    looks. *)
Theorem eth_mac_send_transmits bound `{!TxLive bound} fuel tx_addr frame_length s :
  (bound + 2 <= fuel)%nat ->
  let h := hist (tx_started tx_addr frame_length s) in
  exists n s', eth_mac_send fuel tx_addr frame_length s = Some (tt, s') /\
    (n <= bound)%nat /\ first_report h n /\ hist s' = repeat (EvRd INT_SOURCE_ADDR) (S n) ++ h /\
    tx_log (hist s') =
      TxFrame (u32 tx_addr) (u16 frame_length) (buff (tx_armed tx_addr s)) :: tx_log (hist s) /\
    same_globals s s'.
Proof.
  intros Hf h. destruct (eth_mac_send_first fuel tx_addr frame_length s Hf) as (n & Hn & Hr & F).
  exists n. eexists. split; [exact Hr|]. split; [done|]. split; [done|]. split; [by apply hist_polls|].
  split; [|apply same_globals_tx_done]. unfold tx_done. by rewrite tx_log_polls, tx_log_started.
Qed.

(** Whatever the transmit descriptor holds, [eth_mac_send] looks at it
    once and then overwrites it: it does not wait for a transmission in progress,
    because the ready bit 0x8000 is assigned to an [unsigned char]. *)
Theorem eth_mac_send_no_busy_wait fuel tx_addr frame_length s s' :
  eth_mac_send fuel tx_addr frame_length s = Some (tt, s') ->
  exists n b1 b2 b3,
    hist s' = repeat (EvRd INT_SOURCE_ADDR) (S n) ++
      EvWr TX_BD_ADDR_BASE (u32 ((frame_length << 16) .| 0xF000)) b3 ::
      EvWr (TX_BD_ADDR_BASE + 4) (u32 tx_addr) b2 ::
      EvWr INT_SOURCE_ADDR 1 b1 ::
      EvRd TX_BD_ADDR_BASE :: hist s.
Proof.
  intros Hr. destruct (eth_mac_send_inv _ _ _ _ _ Hr) as [n ->].
  unfold tx_done. rewrite hist_polls. by exists n; do 3 eexists.
Qed.

(** The non-blocking send never refuses a frame: it returns 1 in every
    state, even when the descriptor's ready bit is set, and it starts two
    transmissions, the second one with length 0. *)
Theorem eth_mac_send_nb_never_refuses tx_addr frame_length s :
  exists s' b b', eth_mac_send_nb tx_addr frame_length s = Some (1, s') /\
    tx_log (hist s') =
      TxFrame (u32 tx_addr) 0 b' :: TxFrame (u32 tx_addr) (u16 frame_length) b ::
      tx_log (hist s) /\
    same_globals s s'.
Proof.
  destruct (tx_log_nb tx_addr frame_length s) as [b E]. rewrite eth_mac_send_nb_run.
  exists (nb_done tx_addr frame_length s), (buff (nb_armed tx_addr s)), b. done.
Qed.

(** Claim C32. Reception with a timeout: if within [fuel] looks at the interrupt
    register a frame is flagged or the timeout is over, [eth_mac_receive] returns;
    it returns 1 after acknowledging the frame and handing the descriptor back when
    a frame was flagged at the first such look, and 0 without touching either when
    the timeout was over first. *)
Theorem eth_mac_receive_spec fuel rx_addr timeout n s :
  0 < timeout -> (n < fuel)%nat ->
  (rxb (hist (rx_at rx_addr n s)) = true \/
   timeout <= u64 (rx_now (rx_at rx_addr n s) - rx_start rx_addr s)) ->
  exists k, (k <= n)%nat /\
    (forall i, (i < k)%nat -> rxb (hist (rx_at rx_addr i s)) = false /\
       u64 (rx_now (rx_at rx_addr i s) - rx_start rx_addr s) < timeout) /\
    eth_mac_receive fuel rx_addr timeout s =
      if rxb (hist (rx_at rx_addr k s))
      then Some (1, rx_release (access (EvRd INT_SOURCE_ADDR) (rx_at rx_addr k s)))
      else Some (0, rx_at rx_addr (S k) s).
Proof.
  intros Ht Hf Hn.
  destruct (first_stop rx_next (rx_stop (rx_start rx_addr s) timeout) n
              (stamp EvUsecs (rx_armed rx_addr s))) as (k & [b t] & Hk & Hr & Hlt).
  { unfold rx_stop. fold (rx_at rx_addr n s). destruct Hn as [->|Hn]; [done|].
    case_match; [done|]. by rewrite (proj2 (Z.leb_le _ _) Hn). }
  exists k. split; [done|]. split.
  - intros i Hi. specialize (Hlt i Hi). unfold rx_stop in Hlt.
    fold (rx_at rx_addr i s) in Hlt.
    destruct (rxb (hist (rx_at rx_addr i s))); [done|]. split; [done|].
    destruct (Z.leb_spec timeout (u64 (rx_now (rx_at rx_addr i s) - rx_start rx_addr s))); [done|lia].
  - rewrite (eth_mac_receive_run fuel rx_addr timeout k s b t) by (done || lia).
    unfold rx_stop in Hr. fold (rx_at rx_addr k s) in Hr.
    destruct (rxb (hist (rx_at rx_addr k s))); [by injection Hr as <- <-|].
    destruct (timeout <=? _); [|done]. by injection Hr as <- <-.
Qed.

End DriverTheorems.

(** ** Witnesses *)

Lemma eth_mac_send_transmits_witness :
  let h := hist (@tx_started quiet_env 0x800 60 init_machine) in
  exists n s', @eth_mac_send quiet_env 2 0x800 60 init_machine = Some (tt, s') /\
    (n <= 0)%nat /\ @first_report quiet_env h n /\ hist s' = repeat (EvRd INT_SOURCE_ADDR) (S n) ++ h /\
    tx_log (hist s') = [TxFrame 0x800 60 ∅] /\ same_globals init_machine s'.
Proof.
  exact (@eth_mac_send_transmits quiet_env 0 quiet_live 2 0x800 60 init_machine ltac:(lia)).
Defined.

Lemma eth_mac_send_no_busy_wait_witness :
  exists n b1 b2 b3,
    hist (@tx_done busy_env 0 0x800 60 init_machine) = repeat (EvRd INT_SOURCE_ADDR) (S n) ++
      EvWr TX_BD_ADDR_BASE (u32 ((60 << 16) .| 0xF000)) b3 ::
      EvWr (TX_BD_ADDR_BASE + 4) (u32 0x800) b2 ::
      EvWr INT_SOURCE_ADDR 1 b1 :: EvRd TX_BD_ADDR_BASE :: hist init_machine.
Proof.
  apply (@eth_mac_send_no_busy_wait busy_env 2 0x800 60 init_machine). reflexivity.
Defined.

Lemma eth_mac_receive_spec_witness :
  exists k, (k <= 4)%nat /\
    (forall i, (i < k)%nat -> @rxb quiet_env (hist (@rx_at quiet_env 0 i init_machine)) = false /\
       u64 (@rx_now quiet_env (@rx_at quiet_env 0 i init_machine)
            - @rx_start quiet_env 0 init_machine) < 100) /\
    @eth_mac_receive quiet_env 5 0 100 init_machine =
      if @rxb quiet_env (hist (@rx_at quiet_env 0 k init_machine))
      then Some (1, @rx_release quiet_env (@access quiet_env (EvRd INT_SOURCE_ADDR)
                     (@rx_at quiet_env 0 k init_machine)))
      else Some (0, @rx_at quiet_env 0 (S k) init_machine).
Proof.
  apply (@eth_mac_receive_spec quiet_env 5 0 100 4 init_machine); [lia|lia|].
  right. vm_compute. discriminate.
Defined.
