(* ===== verification/Mac.v ===== *)
(** * The MAC layer: src/c/ethlib/mac.c

    Classification of received frames and access to the MAC addresses of a frame.
    The printing routines are not modelled. *)

From stdpp Require Import base gmap list numbers.
From S2P Require Import Prelude Machine EthIO.
Local Open Scope Z_scope.
Local Open Scope c_scope.

(** ** Definitions *)

(** [enum eth_protocol] of mac.h, with its values. *)
Inductive eth_protocol :=
| TIMEOUT | UNSUPPORTED | IP | ICMP | UDP | TCP | PTP | ARP | LLDP | MDNS
| TTE_PCF | TTE_MSG | INTERNOC_MSG.

#[global] Instance eth_protocol_eq_dec : EqDecision eth_protocol.
Proof. solve_decision. Defined.

Definition eth_protocol_value (p : eth_protocol) : Z :=
  match p with
  | TIMEOUT => -1 | UNSUPPORTED => 0 | IP => 1 | ICMP => 2 | UDP => 3 | TCP => 4
  | PTP => 5 | ARP => 6 | LLDP => 7 | MDNS => 8 | TTE_PCF => 9 | TTE_MSG => 10
  | INTERNOC_MSG => 11
  end.

(** The initial value of [my_mac]. *)
Definition my_mac_init : list Z := [0x00; 0x80; 0x6e; 0xF0; 0xDA; 0x42].

Definition mac_packet_type (m : buf) (addr : Z) : eth_protocol :=
  let b := mem_iord_byte m (addr + 13) in
  if mem_iord_byte m (addr + 12) =? 0x08 then
    if b =? 0x00 then
      let b := mem_iord_byte m (addr + 23) in
      if b =? 0x01 then ICMP
      else if b =? 0x11 then UDP
      else if b =? 0x06 then TCP
      else UNSUPPORTED
    else if b =? 0x06 then ARP
    else UNSUPPORTED
  else if mem_iord_byte m (addr + 12) =? 0x88 then
    if b =? 0xc then LLDP
    else if b =? 0xf7 then PTP
    else UNSUPPORTED
  else if mem_iord_byte m (addr + 12) =? 0x89 then
    if b =? 0x1d then TTE_PCF
    else UNSUPPORTED
  else UNSUPPORTED.

Definition mac_addr_sender (m : buf) (rx_addr : Z) : list Z :=
  [mem_iord_byte m (rx_addr + 6 + 0); mem_iord_byte m (rx_addr + 6 + 1);
   mem_iord_byte m (rx_addr + 6 + 2); mem_iord_byte m (rx_addr + 6 + 3);
   mem_iord_byte m (rx_addr + 6 + 4); mem_iord_byte m (rx_addr + 6 + 5)].

Definition mac_addr_dest (m : buf) (rx_addr : Z) : list Z :=
  [mem_iord_byte m (rx_addr + 0); mem_iord_byte m (rx_addr + 1);
   mem_iord_byte m (rx_addr + 2); mem_iord_byte m (rx_addr + 3);
   mem_iord_byte m (rx_addr + 4); mem_iord_byte m (rx_addr + 5)].

Definition mac_compare_mac (mac1 mac2 : list Z) : Z :=
  if (arr mac1 0 =? arr mac2 0) && (arr mac1 1 =? arr mac2 1) && (arr mac1 2 =? arr mac2 2)
     && (arr mac1 3 =? arr mac2 3) && (arr mac1 4 =? arr mac2 4) && (arr mac1 5 =? arr mac2 5)
  then 1 else 0.

(** ** Specification *)

(** Frames by EtherType, and IPv4 packets by protocol number. *)
Definition classify (ethertype protocol : Z) : eth_protocol :=
  if ethertype =? 0x0800 then
    if protocol =? 1 then ICMP else if protocol =? 17 then UDP
    else if protocol =? 6 then TCP else UNSUPPORTED
  else if ethertype =? 0x0806 then ARP
  else if ethertype =? 0x880C then LLDP
  else if ethertype =? 0x88F7 then PTP
  else if ethertype =? 0x891D then TTE_PCF
  else UNSUPPORTED.

(** ** Lemmas and theorems *)

Lemma mac_packet_type_classify m addr :
  mac_packet_type m addr = classify (fw m addr 12) (fb m addr 23).
Proof.
  unfold mac_packet_type, classify, fw. cbv zeta. fold (fb m addr 12) (fb m addr 13) (fb m addr 23).
  change (12 + 1) with 13.
  pose proof (fb_range m addr 12). pose proof (fb_range m addr 13).
  dec_bool; try done; exfalso; lia.
Qed.

Lemma mac_compare_mac_eq mac1 mac2 :
  length mac1 = 6%nat -> length mac2 = 6%nat ->
  mac_compare_mac mac1 mac2 = if decide (mac1 = mac2) then 1 else 0.
Proof.
  intros H1 H2.
  destruct mac1 as [|a0 [|a1 [|a2 [|a3 [|a4 [|a5 [|]]]]]]]; try done.
  destruct mac2 as [|b0 [|b1 [|b2 [|b3 [|b4 [|b5 [|]]]]]]]; try done.
  unfold mac_compare_mac, arr. simpl. case_decide as E.
  - injection E as -> -> -> -> -> ->. by rewrite !Z.eqb_refl.
  - destruct (_ && _) eqn:B; [|done]. exfalso. apply E.
    rewrite !andb_true_iff, !Z.eqb_eq in B. by destruct B as [[[[[-> ->] ->] ->] ->] ->].
Qed.

Lemma mac_packet_type_ARP m addr :
  mac_packet_type m addr = ARP <-> fb m addr 12 = 0x08 /\ fb m addr 13 = 0x06.
Proof.
  unfold mac_packet_type. cbv zeta. fold (fb m addr 12) (fb m addr 13) (fb m addr 23).
  dec_bool; split; intros Hx; try done; destruct Hx; congruence.
Qed.

(** The classification of a frame depends on its EtherType and, for IPv4,
    on the protocol number only; the frame types of the enumeration that are no
    EtherType of the table are never returned. *)
Theorem mac_packet_type_spec m addr :
  mac_packet_type m addr = classify (fw m addr 12) (fb m addr 23) /\
  mac_packet_type m addr ∉ [TIMEOUT; IP; MDNS; TTE_MSG; INTERNOC_MSG].
Proof.
  rewrite mac_packet_type_classify. split; [done|].
  unfold classify. dec_bool; by apply (bool_decide_unpack _).
Qed.
