(* ===== verification/Checksum.v ===== *)
(** * The Internet checksum

    ipv4.c, udp.c and tcp.c share one way to compute the Internet checksum: add the
    16-bit words in a 32-bit accumulator and fold the carries in at the end. This
    file has the shared statements as definitions, the definition of RFC 1071 (add
    with end-around carry at every step) as a reference, and the lemmas that show
    that the two agree. *)

From stdpp Require Import base gmap list numbers.
From S2P Require Import Prelude Machine EthIO.
Local Open Scope Z_scope.
Local Open Scope c_scope.

(** ** Definitions *)

(** [if ((checksum & 0xFFFF0000) > 0) checksum = (checksum & 0xFFFF) + (checksum >> 16);] *)
Definition fold_carry (checksum : Z) : Z :=
  if 0 <? (checksum .& 0xFFFF0000) then u32 ((checksum .& 0xFFFF) + (checksum >> 16))
  else checksum.

(** The statement three times, then [(~checksum) & 0xFFFF]. *)
Definition finish_checksum (checksum : Z) : Z :=
  (~~ (fold_carry (fold_carry (fold_carry checksum)))) .& 0xFFFF.

(** ** Reference: RFC 1071 *)

(** Addition with end-around carry of 16-bit words. *)
Definition oc_add (a b : Z) : Z :=
  let s := a + b in if 65536 <=? s then s - 65535 else s.

Definition oc_sum (ws : list Z) : Z := fold_left oc_add ws 0.

Definition rfc1071 (ws : list Z) : Z := 65535 - oc_sum ws.

(** The 16-bit words of a frame from offset [k] on. *)
Definition frame_words (m : buf) (base k n : Z) : list Z :=
  (fun i => fw m base (k + 2 * i)) <$> seqZ 0 n.

(** ** Lemmas *)

Definition zsum (ws : list Z) : Z := fold_left Z.add ws 0.

(** Representative of a sum in one's complement: 0 only for 0. *)
Definition oc_norm (c : Z) : Z := if c =? 0 then 0 else (c - 1) mod 65535 + 1.

Lemma oc_norm_range c : 0 <= oc_norm c <= 65535.
Proof. unfold oc_norm. destruct (c =? 0); zdm. Qed.

Lemma oc_norm_add a b :
  0 <= a -> 0 <= b < 65536 -> oc_add (oc_norm a) b = oc_norm (a + b).
Proof.
  intros Ha Hb. unfold oc_add, oc_norm.
  dec_bool; zdm.
Qed.

Lemma zsum_app_one ws w : zsum (ws ++ [w]) = zsum ws + w.
Proof. unfold zsum. by rewrite fold_left_app. Qed.

Lemma zsum_nonneg ws : Forall (fun w => 0 <= w < 65536) ws -> 0 <= zsum ws <= 65535 * Z.of_nat (length ws).
Proof.
  induction ws as [|w ws IH] using rev_ind; intros Hf; [done|].
  apply Forall_app in Hf as [Hf Hw]. rewrite Forall_singleton in Hw.
  specialize (IH Hf). rewrite zsum_app_one, length_app. cbn [length]. lia.
Qed.

(** RFC 1071's sum is the representative of the plain sum. *)
Lemma oc_sum_norm ws : Forall (fun w => 0 <= w < 65536) ws -> oc_sum ws = oc_norm (zsum ws).
Proof.
  induction ws as [|w ws IH] using rev_ind; intros Hf; [done|].
  apply Forall_app in Hf as [Hf Hw]. rewrite Forall_singleton in Hw.
  unfold oc_sum in *. rewrite fold_left_app, IH, zsum_app_one by done. simpl.
  apply oc_norm_add; [|done]. by apply zsum_nonneg.
Qed.

Lemma fold_carry_eq c :
  0 <= c < 4294967296 -> fold_carry c = if c <? 65536 then c else c mod 65536 + c / 65536.
Proof.
  intros Hc. unfold fold_carry.
  assert (c .& 0xFFFF0000 = c - c mod 65536) as ->.
  { rewrite <- land_ffff, <- land_lnot_sub.
    change 0xFFFF0000 with (u32 (~~ 0xFFFF)). by apply land_u32_mask. }
  rewrite land_ffff, shr_div by lia. change (2 ^ 16) with 65536.
  destruct (Z.ltb_spec 0 (c - c mod 65536)), (Z.ltb_spec c 65536);
    [exfalso; zdm|apply u32_small; zdm|done|exfalso; zdm].
Qed.

Lemma lnot_ffff x : 0 <= x <= 65535 -> (~~ x) .& 0xFFFF = 65535 - x.
Proof. intros. rewrite land_ffff. unfold Z.lnot. zdm. Qed.

(** Three conditional folds normalise every 32-bit accumulator. *)
Lemma fold_carry_norm c :
  0 <= c < 4294967296 -> fold_carry (fold_carry (fold_carry c)) = oc_norm c.
Proof.
  intros Hc.
  assert (forall x, 0 <= x < 65536 -> fold_carry x = x) as Hid.
  { intros x Hx. rewrite fold_carry_eq by lia. by destruct (Z.ltb_spec x 65536); [|lia]. }
  assert (forall x, 0 <= x <= 131070 -> fold_carry x = oc_norm x) as Hone.
  { intros x Hx. rewrite fold_carry_eq by lia. unfold oc_norm. dec_bool; zdm. }
  destruct (Z.lt_ge_cases c 65536) as [Hlt|Hge].
  - rewrite !(Hid c) by lia. unfold oc_norm. dec_bool; zdm.
  - rewrite (fold_carry_eq c) by lia. destruct (Z.ltb_spec c 65536); [lia|].
    rewrite (Hone (c mod 65536 + c / 65536)) by zdm.
    pose proof (oc_norm_range (c mod 65536 + c / 65536)). rewrite Hid by lia.
    unfold oc_norm. dec_bool; zdm.
Qed.

(** The deferred-carry computation is the checksum of RFC 1071. *)
Lemma finish_checksum_norm c :
  0 <= c < 4294967296 -> finish_checksum c = 65535 - oc_norm c.
Proof.
  intros. unfold finish_checksum. rewrite fold_carry_norm by done.
  apply lnot_ffff, oc_norm_range.
Qed.

Lemma finish_checksum_rfc1071 ws :
  Forall (fun w => 0 <= w < 65536) ws -> Z.of_nat (length ws) <= 65536 ->
  finish_checksum (zsum ws) = rfc1071 ws.
Proof.
  intros Hf Hl. pose proof (zsum_nonneg ws Hf).
  rewrite finish_checksum_norm by lia. unfold rfc1071. by rewrite oc_sum_norm.
Qed.

Lemma frame_words_range m base k n : Forall (fun w => 0 <= w < 65536) (frame_words m base k n).
Proof. apply Forall_fmap, Forall_true. intros i. apply fw_range. Qed.

Lemma frame_words_length m base k n : 0 <= n -> Z.of_nat (length (frame_words m base k n)) = n.
Proof. intros. unfold frame_words. rewrite length_fmap, length_seqZ. lia. Qed.

Lemma frame_words_S m base k n :
  0 <= n -> frame_words m base k (n + 1) = frame_words m base k n ++ [fw m base (k + 2 * n)].
Proof.
  intros. unfold frame_words. rewrite seqZ_app, fmap_app by lia.
  by rewrite (seqZ_cons _ 1) by lia.
Qed.

Lemma frame_words_app m base k n n' :
  0 <= n -> 0 <= n' ->
  frame_words m base k (n + n') = frame_words m base k n ++ frame_words m base (k + 2 * n) n'.
Proof.
  intros. unfold frame_words. rewrite seqZ_app, fmap_app by lia. f_equal.
  rewrite <- (Z.add_0_r (0 + n)), <- fmap_add_seqZ, <- list_fmap_compose.
  apply list_fmap_ext. intros i x _. unfold compose. f_equal. lia.
Qed.

Lemma zsum_app ws ws' : zsum (ws ++ ws') = zsum ws + zsum ws'.
Proof.
  induction ws' as [|w ws' IH] using rev_ind; [rewrite app_nil_r; cbn; lia|].
  rewrite app_assoc, !zsum_app_one, IH. lia.
Qed.

(** The accumulation loop of the checksum routines. *)
Lemma checksum_loop m base k n c :
  0 <= n -> 0 <= c -> c + 65535 * n < 4294967296 ->
  for_ n (fun j checksum =>
    u32 (checksum + (mem_iord_byte m (base + k + 2 * j) << 8)
         + (mem_iord_byte m (base + (k + 1) + 2 * j) .& 0xFF))) c
  = c + zsum (frame_words m base k n).
Proof.
  intros Hn Hc Hb.
  apply (for_ind (fun i s => s = c + zsum (frame_words m base k i))); [done|by rewrite Z.add_0_r|].
  intros i s Hi ->. rewrite frame_words_S, zsum_app_one by lia.
  pose proof (zsum_nonneg _ (frame_words_range m base k i)) as Hz.
  rewrite frame_words_length in Hz by lia.
  pose proof (fw_range m base (k + 2 * i)).
  rewrite shl_mul, land_ff by lia. unfold fw, fb in *.
  replace (base + (k + 2 * i + 1)) with (base + (k + 1) + 2 * i) in * by lia.
  replace (base + (k + 2 * i)) with (base + k + 2 * i) in * by lia.
  rewrite (Z.mod_small (mem_iord_byte m (base + (k + 1) + 2 * i))) by apply mem_iord_byte_range.
  rewrite u32_small; change (2 ^ 8) with 256; lia.
Qed.

(** One addition of a 16-bit word of the frame that does not overflow. *)
Lemma checksum_add m base k c :
  0 <= c -> c + 65535 < 4294967296 ->
  u32 (c + (mem_iord_byte m (base + k) << 8) + (mem_iord_byte m (base + (k + 1)) .& 0xFF))
  = c + fw m base k.
Proof.
  intros Hc Hb. pose proof (fw_range m base k) as Hr. unfold fw, fb in *.
  rewrite shl_mul, land_ff by lia.
  rewrite (Z.mod_small (mem_iord_byte m (base + (k + 1)))) by apply mem_iord_byte_range.
  change (2 ^ 8) with 256. rewrite u32_small; lia.
Qed.

(** The words of two frames that agree, wherever they are. *)
Lemma frame_words_ext2 m m' base base' k n :
  (forall i, k <= i < k + 2 * n -> fb m base i = fb m' base' i) ->
  frame_words m base k n = frame_words m' base' k n.
Proof.
  intros E. unfold frame_words. apply list_fmap_ext. intros i x Hx.
  apply lookup_seqZ in Hx as [-> Hi]. unfold fw. rewrite !E by lia. done.
Qed.

Lemma frame_words_ext m m' base k n :
  (forall i, k <= i < k + 2 * n -> fb m base i = fb m' base i) ->
  frame_words m base k n = frame_words m' base k n.
Proof. apply frame_words_ext2. Qed.

Lemma zsum_words_cons m base k n :
  0 < n -> zsum (frame_words m base k n) = fw m base k + zsum (frame_words m base (k + 2) (n - 1)).
Proof.
  intros. replace n with (1 + (n - 1)) at 1 by lia.
  rewrite frame_words_app, zsum_app by lia. change (k + 2 * 1) with (k + 2). f_equal.
  change 1 with (0 + 1). rewrite frame_words_S, zsum_app_one by lia.
  rewrite Z.add_0_r. reflexivity.
Qed.

(** A sum completed with its checksum is the representative of zero, 65535. *)
Lemma oc_norm_complete c : 0 <= c -> oc_norm (c + (65535 - oc_norm c)) = 65535.
Proof.
  intros. unfold oc_norm at 2. destruct (Z.eqb_spec c 0) as [->|]; [done|].
  unfold oc_norm. replace (c + _) with (65535 * ((c - 1) / 65535 + 1)) by zdm.
  destruct (Z.eqb_spec (65535 * ((c - 1) / 65535 + 1)) 0); zdm.
Qed.

Lemma finish_checksum_zero c :
  0 <= c < 4294967296 -> (finish_checksum c =? 0) = (oc_norm c =? 65535).
Proof.
  intros. rewrite finish_checksum_norm by done. pose proof (oc_norm_range c).
  destruct (Z.eqb_spec (65535 - oc_norm c) 0), (Z.eqb_spec (oc_norm c) 65535); try done; lia.
Qed.

(** Storing a 16-bit value as two bytes of a frame. *)
Definition put16 (a v : Z) (m : buf) : buf :=
  mem_iowr_byte (a + 1) (v .& 0xFF) (mem_iowr_byte a (v >> 8) m).

Lemma fb_put16 m base k v i :
  0 <= base -> 0 <= k -> 0 <= i -> base + k + 1 < 0x100000000 -> base + i < 0x100000000 ->
  fb (put16 (base + k) v m) base i =
  if k =? i then u8 (v / 256) else if k + 1 =? i then v mod 256 else fb m base i.
Proof.
  intros. unfold put16. rewrite <- Z.add_assoc, !fb_wrb by lia.
  rewrite land_ff, shr_div by lia. change (2 ^ 8) with 256.
  destruct (Z.eqb_spec (k + 1) i), (Z.eqb_spec k i); try lia; [|done..].
  apply u8_small. apply Z.mod_pos_bound. lia.
Qed.

Lemma fw_put16 m base k v :
  0 <= base -> 0 <= k -> base + k + 1 < 0x100000000 -> 0 <= v < 65536 ->
  fw (put16 (base + k) v m) base k = v.
Proof.
  intros. unfold fw. rewrite !fb_put16 by lia. rewrite !Z.eqb_refl.
  destruct (Z.eqb_spec k (k + 1)); [lia|]. zdm.
Qed.
