(* ===== verification/Ipv4.v ===== *)
(** * IPv4: src/c/ethlib/ipv4.c

    Access to the header fields of a frame and the header checksum. The printing
    routines are not modelled. *)

From stdpp Require Import base gmap list numbers.
From S2P Require Import Prelude Machine EthIO Checksum.
Local Open Scope Z_scope.
Local Open Scope c_scope.

(** ** Definitions *)

(** [iphead_t] of ipv4.h. *)
Record iphead_t := IpHead {
  ver_headlen : Z;
  dscp_ecn : Z;
  ip_length : Z;
  identification : Z;
  flags_fragmentoff : Z;
  ttl : Z;
  protocol : Z;
  head_checksum : Z;
  source_ip : list Z;
  destination_ip : list Z
}.

(** The initial value of [my_ip]. *)
Definition my_ip_init : list Z := [192; 168; 24; 50].

Section Fields.
Context `{CharType}.

Definition ipv4_get_version (m : buf) (pkt_addr : Z) : Z :=
  let version := to_char (mem_iord_byte m (pkt_addr + 14)) in
  to_char (version >> 4).

Definition ipv4_get_type_of_service (m : buf) (pkt_addr : Z) : Z :=
  let type := to_char (mem_iord_byte m (pkt_addr + 14 + 1)) in
  to_char (type >> 2).

Definition ipv4_get_flags (m : buf) (pkt_addr : Z) : Z :=
  let flags := to_char (mem_iord_byte m (pkt_addr + 14 + 6)) in
  to_char (flags >> 5).

Definition ipv4_get_ttl (m : buf) (pkt_addr : Z) : Z :=
  to_char (mem_iord_byte m (pkt_addr + 14 + 8)).

Definition ipv4_get_protocol (m : buf) (pkt_addr : Z) : Z :=
  to_char (mem_iord_byte m (pkt_addr + 14 + 9)).

End Fields.

Definition ipv4_get_length (m : buf) (pkt_addr : Z) : Z :=
  let length := u16 (mem_iord_byte m (pkt_addr + 14 + 2)) in
  let length := u16 (length << 8) in
  u16 (length + mem_iord_byte m (pkt_addr + 14 + 3)).

Definition ipv4_get_identification (m : buf) (pkt_addr : Z) : Z :=
  let identification := mem_iord_byte m (pkt_addr + 14 + 4) in
  let identification := u32 (identification << 8) in
  u32 (identification + mem_iord_byte m (pkt_addr + 14 + 5)).

Definition ipv4_get_checksum (m : buf) (pkt_addr : Z) : Z :=
  u32 ((mem_iord_byte m (pkt_addr + 24) << 8) + (mem_iord_byte m (pkt_addr + 25) .& 0xFF)).

Definition ipv4_get_source_ip (m : buf) (pkt_addr : Z) : list Z :=
  (fun i => mem_iord_byte m (pkt_addr + 26 + i)) <$> seqZ 0 4.

Definition ipv4_get_destination_ip (m : buf) (pkt_addr : Z) : list Z :=
  (fun i => mem_iord_byte m (pkt_addr + 30 + i)) <$> seqZ 0 4.

Definition ipv4_compare_ip (ip1 ip2 : list Z) : Z :=
  if (arr ip1 0 =? arr ip2 0) && (arr ip1 1 =? arr ip2 1) && (arr ip1 2 =? arr ip2 2)
     && (arr ip1 3 =? arr ip2 3)
  then 1 else 0.

Definition ipv4_set_my_ip (new_ip : list Z) : M unit :=
  modify (fun s => for_ 4 (fun i s =>
    set_my_ip (<[Z.to_nat i := arr new_ip i]> (my_ip s)) s) s).

Definition ipv4_compute_checksum (m : buf) (pkt_addr : Z) : Z :=
  let checksum := 0 in
  let checksum := for_by2 20 (fun i checksum =>
    u32 (checksum + (mem_iord_byte m (pkt_addr + 14 + i) << 8)
         + (mem_iord_byte m (pkt_addr + 15 + i) .& 0xFF))) checksum in
  let checksum := u32 (checksum - (mem_iord_byte m (pkt_addr + 24) << 8)
                       + (mem_iord_byte m (pkt_addr + 25) .& 0xFF)) in
  u16 (finish_checksum checksum).

Definition ipv4_verify_checksum (m : buf) (pkt_addr : Z) : Z :=
  let checksum := 0 in
  let checksum := for_by2 20 (fun i checksum =>
    u32 (checksum + (mem_iord_byte m (pkt_addr + 14 + i) << 8)
         + (mem_iord_byte m (pkt_addr + 15 + i) .& 0xFF))) checksum in
  if finish_checksum checksum =? 0 then 1 else 0.

(** ** Lemmas *)

(** The ten words of the header. *)
Definition ip_header (m : buf) (pkt_addr : Z) : list Z := frame_words m pkt_addr 14 10.

Lemma ip_sum_loop m pkt_addr :
  for_by2 20 (fun i checksum =>
    u32 (checksum + (mem_iord_byte m (pkt_addr + 14 + i) << 8)
         + (mem_iord_byte m (pkt_addr + 15 + i) .& 0xFF))) 0
  = zsum (ip_header m pkt_addr).
Proof.
  unfold for_by2. change ((20 + 1) / 2) with 10.
  pose proof (checksum_loop m pkt_addr 14 10 0 ltac:(lia) ltac:(lia) ltac:(lia)) as E.
  change (14 + 1) with 15 in E. rewrite E, Z.add_0_l. reflexivity.
Qed.

Lemma ip_header_sum_range m pkt_addr : 0 <= zsum (ip_header m pkt_addr) <= 655350.
Proof. exact (zsum_nonneg _ (frame_words_range m pkt_addr 14 10)). Qed.

Lemma ip_header_split m pkt_addr :
  zsum (ip_header m pkt_addr) =
  zsum (frame_words m pkt_addr 14 5) + fw m pkt_addr 24 + zsum (frame_words m pkt_addr 26 4).
Proof.
  unfold ip_header. change 10 with (5 + (1 + 4)).
  rewrite !frame_words_app, !zsum_app by lia.
  change (zsum (frame_words m pkt_addr (14 + 2 * 5) 1)) with (0 + fw m pkt_addr 24).
  change (14 + 2 * 5 + 2 * 1) with 26. lia.
Qed.

Lemma ipv4_compare_ip_eq ip1 ip2 :
  length ip1 = 4%nat -> length ip2 = 4%nat ->
  ipv4_compare_ip ip1 ip2 = if decide (ip1 = ip2) then 1 else 0.
Proof.
  intros H1 H2.
  destruct ip1 as [|a0 [|a1 [|a2 [|a3 [|]]]]]; try done.
  destruct ip2 as [|b0 [|b1 [|b2 [|b3 [|]]]]]; try done.
  unfold ipv4_compare_ip, arr. simpl. case_decide as E.
  - injection E as -> -> -> ->. by rewrite !Z.eqb_refl.
  - destruct (_ && _) eqn:B; [|done]. exfalso. apply E.
    rewrite !andb_true_iff, !Z.eqb_eq in B. by destruct B as [[[-> ->] ->] ->].
Qed.

Lemma ipv4_get_length_eq m pkt_addr : ipv4_get_length m pkt_addr = fw m pkt_addr 16.
Proof.
  unfold ipv4_get_length, fw. cbv zeta. rewrite shl_mul by lia. unfold fb.
  replace (pkt_addr + 14 + 2) with (pkt_addr + 16) by lia.
  replace (pkt_addr + 14 + 3) with (pkt_addr + 17) by lia. change (16 + 1) with 17.
  pose proof (mem_iord_byte_range m (pkt_addr + 16)).
  pose proof (mem_iord_byte_range m (pkt_addr + 17)).
  rewrite (u16_small (mem_iord_byte m (pkt_addr + 16))) by lia.
  change (2 ^ 8) with 256. rewrite (u16_small (_ * 256)), u16_small by lia. lia.
Qed.

(** What the code computes: the checksum of RFC 1071 of the header without its
    checksum field, plus twice the low byte of that field. *)
Lemma ipv4_compute_checksum_eq m pkt_addr :
  ipv4_compute_checksum m pkt_addr =
  65535 - oc_norm (zsum (frame_words m pkt_addr 14 5) + zsum (frame_words m pkt_addr 26 4)
                   + 2 * fb m pkt_addr 25).
Proof.
  unfold ipv4_compute_checksum. cbv zeta. rewrite ip_sum_loop, ip_header_split.
  fold (fb m pkt_addr 24) (fb m pkt_addr 25). rewrite land_ff, shl_mul by lia.
  pose proof (zsum_nonneg _ (frame_words_range m pkt_addr 14 5)) as Ha.
  pose proof (zsum_nonneg _ (frame_words_range m pkt_addr 26 4)) as Hb.
  rewrite frame_words_length in Ha, Hb by lia.
  pose proof (fb_range m pkt_addr 24). pose proof (fb_range m pkt_addr 25).
  unfold fw. change (24 + 1) with 25. rewrite (Z.mod_small (fb m pkt_addr 25)) by lia.
  change (2 ^ 8) with 256. rewrite u32_small by lia. rewrite finish_checksum_norm by lia.
  rewrite u16_small by (pose proof (oc_norm_range (zsum (frame_words m pkt_addr 14 5)
    + (fb m pkt_addr 24 * 256 + fb m pkt_addr 25) + zsum (frame_words m pkt_addr 26 4)
    - fb m pkt_addr 24 * 256 + fb m pkt_addr 25)); lia).
  do 2 f_equal. lia.
Qed.

(** Bytes of the header other than the checksum field determine the sums. *)
Lemma ip_sums_put16 m base v :
  0 <= base -> base + 34 < 0x100000000 ->
  frame_words (put16 (base + 24) v m) base 14 5 = frame_words m base 14 5 /\
  frame_words (put16 (base + 24) v m) base 26 4 = frame_words m base 26 4.
Proof.
  intros. split; apply frame_words_ext; intros i Hi; rewrite fb_put16 by lia;
    destruct (Z.eqb_spec 24 i), (Z.eqb_spec (24 + 1) i); try lia; done.
Qed.

Lemma ipv4_verify_checksum_eq m pkt_addr :
  ipv4_verify_checksum m pkt_addr =
  if oc_norm (zsum (ip_header m pkt_addr)) =? 65535 then 1 else 0.
Proof.
  unfold ipv4_verify_checksum. cbv zeta. rewrite ip_sum_loop.
  pose proof (ip_header_sum_range m pkt_addr). by rewrite finish_checksum_zero by lia.
Qed.

Lemma ipv4_compute_checksum_range m pkt_addr : 0 <= ipv4_compute_checksum m pkt_addr < 65536.
Proof. apply u16_range. Qed.

(** Filling in the computed checksum makes the header verify. *)
Lemma ipv4_fill_verifies m base :
  0 <= base -> base + 34 < 0x100000000 -> fb m base 25 = 0 ->
  ipv4_verify_checksum (put16 (base + 24) (ipv4_compute_checksum m base) m) base = 1.
Proof.
  intros Hb Hl H0. rewrite ipv4_verify_checksum_eq, ip_header_split.
  destruct (ip_sums_put16 m base (ipv4_compute_checksum m base)) as [-> ->]; [lia..|].
  rewrite fw_put16 by (lia || apply ipv4_compute_checksum_range).
  rewrite ipv4_compute_checksum_eq, H0.
  pose proof (zsum_nonneg _ (frame_words_range m base 14 5)).
  pose proof (zsum_nonneg _ (frame_words_range m base 26 4)).
  set (a := zsum (frame_words m base 14 5)) in *. set (b := zsum (frame_words m base 26 4)) in *.
  replace (a + (65535 - oc_norm (a + b + 2 * 0)) + b)
    with ((a + b + 2 * 0) + (65535 - oc_norm (a + b + 2 * 0))) by lia.
  by rewrite oc_norm_complete by lia.
Qed.

(** ** Theorems *)

(** Claim C34. The header check accepts a frame exactly when the ten words of its
    IPv4 header add up to 0xFFFF in one's complement, as RFC 1071 requires. *)
Theorem ipv4_verify_checksum_rfc1071 m pkt_addr :
  ipv4_verify_checksum m pkt_addr = 1 <-> oc_sum (ip_header m pkt_addr) = 0xFFFF.
Proof.
  rewrite ipv4_verify_checksum_eq, oc_sum_norm by apply frame_words_range.
  by destruct (Z.eqb_spec (oc_norm (zsum (ip_header m pkt_addr))) 65535).
Qed.

(** The computed header checksum is the one of RFC 1071 over the header
    without its checksum field exactly when the low byte of that field is zero:
    the code adds this byte where it means to subtract it. *)
Theorem ipv4_compute_checksum_correct_iff m pkt_addr :
  ipv4_compute_checksum m pkt_addr =
    rfc1071 (frame_words m pkt_addr 14 5 ++ frame_words m pkt_addr 26 4)
  <-> fb m pkt_addr 25 = 0.
Proof.
  rewrite ipv4_compute_checksum_eq. unfold rfc1071.
  rewrite oc_sum_norm by (apply Forall_app; split; apply frame_words_range).
  rewrite zsum_app. pose proof (zsum_nonneg _ (frame_words_range m pkt_addr 14 5)).
  pose proof (zsum_nonneg _ (frame_words_range m pkt_addr 26 4)).
  pose proof (fb_range m pkt_addr 25). revert H H0 H1.
  generalize (zsum (frame_words m pkt_addr 14 5)), (zsum (frame_words m pkt_addr 26 4)), (fb m pkt_addr 25).
  intros a b x Ha Hb Hx. unfold oc_norm. dec_bool; split; intros; zdm.
Qed.

(** Round trip: in a frame whose checksum field is clear, storing the
    computed checksum makes the check succeed. *)
Theorem ipv4_checksum_roundtrip m base :
  in_buffer base 34 -> fw m base 24 = 0 ->
  let c := ipv4_compute_checksum m base in
  ipv4_verify_checksum (mem_iowr_byte (base + 25) (c .& 0xFF)
                          (mem_iowr_byte (base + 24) (c >> 8) m)) base = 1.
Proof.
  intros [Hb Hl] H0 c. replace (base + 25) with (base + 24 + 1) by lia.
  apply ipv4_fill_verifies; [lia..|].
  pose proof (fb_range m base 24). pose proof (fb_range m base 25).
  unfold fw in H0. change (24 + 1) with 25 in H0. lia.
Qed.

Lemma ipv4_checksum_roundtrip_witness :
  let m : buf := {[3 := 0x08004500; 4 := 0x00201111; 5 := 0x40004011; 7 := 0x1832C0A8]} in
  in_buffer 0 34 /\ fw m 0 24 = 0 /\
  let c := ipv4_compute_checksum m 0 in
  ipv4_verify_checksum (mem_iowr_byte (0 + 25) (c .& 0xFF)
                          (mem_iowr_byte (0 + 24) (c >> 8) m)) 0 = 1.
Proof.
  intros m. assert (in_buffer 0 34) by (split; lia).
  assert (fw m 0 24 = 0) by reflexivity.
  split; [done|]. split; [done|]. by apply (ipv4_checksum_roundtrip m 0).
Defined.
