(* ===== verification/Arp.v ===== *)
(** * ARP: src/c/ethlib/arp.c

    The table of resolved addresses and the request/reply protocol. The table is an
    array of [ARP_TABLE_SIZE] entries; the loops over it are recursions on the list
    of entries. *)

From stdpp Require Import base gmap list numbers.
From S2P Require Import Prelude Machine EthIO Frame MacDriver Mac Checksum Ipv4.
Local Open Scope Z_scope.
Local Open Scope c_scope.

(** ** The table *)

Definition ARP_TABLE_SIZE : Z := 8.

Definition set_used (u : Z) (e : arp_table_entry) : arp_table_entry :=
  ArpEntry u (ip_addr e) (mac_addr e).

(** The condition of the table loops: a used entry for [ip]. *)
Definition entry_matches (e : arp_table_entry) (ip : list Z) : bool :=
  (used e =? 1) && (arr (ip_addr e) 0 =? arr ip 0) && (arr (ip_addr e) 1 =? arr ip 1)
  && (arr (ip_addr e) 2 =? arr ip 2) && (arr (ip_addr e) 3 =? arr ip 3).

Fixpoint arp_table_init (tbl : list arp_table_entry) : list arp_table_entry :=
  match tbl with
  | [] => []
  | e :: tbl => set_used 0 e :: arp_table_init tbl
  end.

(** Returns the result and the caller's array [mac], overwritten when the entry
    was found. *)
Fixpoint arp_table_search (tbl : list arp_table_entry) (ip mac : list Z) : Z * list Z :=
  match tbl with
  | [] => (0, mac)
  | e :: tbl =>
      if entry_matches e ip then (1, copy_arr 6 (mac_addr e) mac)
      else arp_table_search tbl ip mac
  end.

Fixpoint arp_table_delete_entry (tbl : list arp_table_entry) (ip : list Z)
    : Z * list arp_table_entry :=
  match tbl with
  | [] => (0, [])
  | e :: tbl =>
      let '(ans, tbl') := arp_table_delete_entry tbl ip in
      if entry_matches e ip then (1, set_used 0 e :: tbl') else (ans, e :: tbl')
  end.

(** [arp_table[i].used], which the search for a free entry also reads with
    [i = ARP_TABLE_SIZE], one past the end of the array. *)
Definition used_at `{Env} (tbl : list arp_table_entry) (i : Z) : Z :=
  match tbl !! Z.to_nat i with
  | Some e => used e
  | None => env_past_arp_table
  end.

(** [while(arp_table[i].used == 1 && i<ARP_TABLE_SIZE) i++;] *)
Fixpoint arp_free_slot `{Env} (fuel : nat) (tbl : list arp_table_entry) (i : Z) : Z :=
  match fuel with
  | O => i
  | S fuel =>
      if (used_at tbl i =? 1) && (i <? ARP_TABLE_SIZE) then arp_free_slot fuel tbl (i + 1)
      else i
  end.

Definition arp_table_new_entry `{Env} (ip mac : list Z) (tbl : list arp_table_entry)
    : list arp_table_entry :=
  let tbl := if fst (arp_table_search tbl ip (replicate 6 0)) =? 1
             then snd (arp_table_delete_entry tbl ip) else tbl in
  let i := arp_free_slot 9 tbl 0 in
  let i := if i =? ARP_TABLE_SIZE then 0 else i in
  alter (fun e => ArpEntry 1 (copy_arr 4 ip (ip_addr e)) (copy_arr 6 mac (mac_addr e)))
    (Z.to_nat i) tbl.

(** ** Fields *)

Definition arp_get_target_ip (m : buf) (pkt_addr : Z) : list Z :=
  (fun i => mem_iord_byte m (pkt_addr + 38 + i)) <$> seqZ 0 4.

Definition arp_get_target_mac (m : buf) (pkt_addr : Z) : list Z :=
  (fun i => mem_iord_byte m (pkt_addr + 32 + i)) <$> seqZ 0 6.

Definition arp_get_sender_ip (m : buf) (pkt_addr : Z) : list Z :=
  (fun i => mem_iord_byte m (pkt_addr + 28 + i)) <$> seqZ 0 4.

Definition arp_get_operation (m : buf) (pkt_addr : Z) : Z :=
  u16 ((mem_iord_byte m (pkt_addr + 20) << 8) + (mem_iord_byte m (pkt_addr + 21) .& 0xFF)).

Definition arp_get_sender_mac (m : buf) (pkt_addr : Z) : list Z :=
  (fun i => mem_iord_byte m (pkt_addr + 22 + i)) <$> seqZ 0 6.

(** ** Protocol *)

(** [mymac] and [myip] are the globals [my_mac] and [my_ip]. *)
Definition arp_build_reply (mymac myip : list Z) (rx_addr tx_addr : Z) (m : buf) : Z * buf :=
  let frame_length := 42 in
  let m := if negb (rx_addr =? tx_addr) then
      for_ frame_length (fun i m =>
        mem_iowr_byte (tx_addr + i) (mem_iord_byte m (rx_addr + i)) m) m
    else m in
  let m := for_ 6 (fun i m =>
      let m := mem_iowr_byte (tx_addr + i) (mem_iord_byte m (tx_addr + 6 + i)) m in
      mem_iowr_byte (tx_addr + 6 + i) (arr mymac i) m) m in
  let m := mem_iowr_byte (tx_addr + 21) 2 m in
  let m := for_ 6 (fun i m =>
      let m := mem_iowr_byte (tx_addr + 32 + i) (mem_iord_byte m (tx_addr + 22 + i)) m in
      mem_iowr_byte (tx_addr + 22 + i) (arr mymac i) m) m in
  let m := for_ 4 (fun i m =>
      let m := mem_iowr_byte (tx_addr + 38 + i) (mem_iord_byte m (tx_addr + 28 + i)) m in
      mem_iowr_byte (tx_addr + 28 + i) (arr myip i) m) m in
  (frame_length, m).

Definition arp_build_request (mymac myip : list Z) (tx_addr : Z) (target_ip : list Z) (m : buf)
    : Z * buf :=
  let frame_length := 42 in
  let m := for_ 6 (fun i m =>
      let m := mem_iowr_byte (tx_addr + i) 0xFF m in
      let m := mem_iowr_byte (tx_addr + 6 + i) (arr mymac i) m in
      let m := mem_iowr_byte (tx_addr + 22 + i) (arr mymac i) m in
      mem_iowr_byte (tx_addr + 32 + i) 0x00 m) m in
  let m := for_ 4 (fun i m =>
      let m := mem_iowr_byte (tx_addr + 28 + i) (arr myip i) m in
      mem_iowr_byte (tx_addr + 38 + i) (arr target_ip i) m) m in
  let m := mem_iowr (tx_addr + 12) 0x08060001 m in
  let m := mem_iowr (tx_addr + 16) 0x08000604 m in
  let m := mem_iowr_byte (tx_addr + 20) 0x00 m in
  let m := mem_iowr_byte (tx_addr + 21) 0x01 m in
  (frame_length, m).

Section Protocol.
Context `{Env}.

Definition arp_process_received (fuel : nat) (rx_addr tx_addr : Z) : M Z :=
  target_ip ← rdbuf (fun m => arp_get_target_ip m rx_addr);
  ip ← gets my_ip;
  mac ← gets my_mac;
  if ipv4_compare_ip target_ip ip =? 1 then
    op ← rdbuf (fun m => mem_iord_byte m (rx_addr + 21));
    if op =? 0x01 then
      frame_length ← runbuf (arp_build_reply mac ip rx_addr tx_addr);
      eth_mac_send fuel tx_addr frame_length;;
      mret 1
    else if op =? 0x02 then
      target_mac ← rdbuf (fun m => arp_get_target_mac m rx_addr);
      if mac_compare_mac target_mac mac =? 1 then
        sender_ip ← rdbuf (fun m => arp_get_sender_ip m rx_addr);
        sender_mac ← rdbuf (fun m => arp_get_sender_mac m rx_addr);
        modify (fun s => set_arp_table (arp_table_new_entry sender_ip sender_mac (arp_table s)) s);;
        mret 2
      else mret 0
    else mret 0
  else mret 0.

Definition arp_resolve_ip (fuel : nat) (rx_addr tx_addr : Z) (target_ip : list Z) (timeout : Z)
    : M Z :=
  start_time ← get_cpu_usecs;
  loop fuel (fun ans =>
    mac ← gets my_mac;
    ip ← gets my_ip;
    frame_length ← runbuf (arp_build_request mac ip tx_addr target_ip);
    eth_mac_send fuel tx_addr frame_length;;
    received ← eth_mac_receive fuel rx_addr 100000;
    ans ←
      (if received =? 1 then
         type ← rdbuf (fun m => mac_packet_type m rx_addr);
         if bool_decide (type = ARP) then
           r ← arp_process_received fuel rx_addr tx_addr;
           if r =? 2 then
             tbl ← gets arp_table;
             mret (if fst (arp_table_search tbl target_ip (replicate 6 0)) =? 1 then 1 else ans)
           else mret ans
         else mret ans
       else mret ans);
    if ans =? 0 then
      now ← get_cpu_usecs;
      mret (if u64 (now - start_time) <? timeout then inl ans else inr ans)
    else mret (inr ans)) 0.

End Protocol.

(** ** The table as a finite map

    [arp_abs] is what the table stores: a map from IP to MAC addresses with at
    most eight elements. *)

Definition used_entries (tbl : list arp_table_entry) : list arp_table_entry :=
  filter (fun e => used e = 1) tbl.

Definition arp_abs (tbl : list arp_table_entry) : gmap (list Z) (list Z) :=
  list_to_map ((fun e => (ip_addr e, mac_addr e)) <$> used_entries tbl).

Definition entry_wf (e : arp_table_entry) : Prop :=
  (used e = 0 \/ used e = 1) /\ length (ip_addr e) = 4%nat /\ length (mac_addr e) = 6%nat.

(** The invariant of the table. *)
Definition arp_wf (tbl : list arp_table_entry) : Prop :=
  length tbl = 8%nat /\ Forall entry_wf tbl /\ NoDup (ip_addr <$> used_entries tbl).

(** ** Lemmas on the table *)

Lemma entry_matches_spec e ip :
  entry_wf e -> length ip = 4%nat ->
  entry_matches e ip = bool_decide (used e = 1 /\ ip_addr e = ip).
Proof.
  intros (_ & He & _) Hip. destruct e as [u ip' mac']. simpl in *.
  destruct ip as [|b0 [|b1 [|b2 [|b3 [|]]]]]; try done.
  destruct ip' as [|a0 [|a1 [|a2 [|a3 [|]]]]]; try done.
  unfold entry_matches, arr. simpl. case_bool_decide as E.
  - destruct E as [-> [= -> -> -> ->]]. by rewrite !Z.eqb_refl.
  - apply not_true_is_false. intros B. apply E.
    rewrite !andb_true_iff, !Z.eqb_eq in B. by destruct B as [[[[-> ->] ->] ->] ->].
Qed.

Lemma arp_abs_cons e tbl :
  arp_abs (e :: tbl) =
  if decide (used e = 1) then <[ip_addr e := mac_addr e]> (arp_abs tbl) else arp_abs tbl.
Proof. unfold arp_abs, used_entries. rewrite filter_cons. by case_decide. Qed.

Lemma arp_abs_app l1 l2 : arp_abs (l1 ++ l2) = arp_abs l1 ∪ arp_abs l2.
Proof.
  unfold arp_abs, used_entries. rewrite list.filter_app, fmap_app. apply list_to_map_app.
Qed.

Lemma arp_abs_None tbl ip :
  arp_abs tbl !! ip = None <-> ip ∉ (ip_addr <$> used_entries tbl).
Proof.
  unfold arp_abs. rewrite <- not_elem_of_list_to_map, <- list_fmap_compose. done.
Qed.

Lemma arp_search_abs tbl ip mac :
  Forall entry_wf tbl -> length ip = 4%nat -> length mac = 6%nat ->
  arp_table_search tbl ip mac =
  match arp_abs tbl !! ip with Some x => (1, x) | None => (0, mac) end.
Proof.
  intros Hwf Hip Hmac. induction Hwf as [|e tbl He Hwf IH]; [done|].
  cbn [arp_table_search]. rewrite entry_matches_spec, arp_abs_cons by done.
  case_bool_decide as E.
  - destruct E as [E <-]. rewrite decide_True by done. rewrite lookup_insert_eq.
    f_equal. destruct He as (_ & _ & ?). by apply copy_arr_full.
  - rewrite IH. case_decide as Hu; [|done]. rewrite lookup_insert_ne; [done|naive_solver].
Qed.

Lemma arp_delete_abs tbl ip :
  Forall entry_wf tbl -> length ip = 4%nat ->
  arp_abs (snd (arp_table_delete_entry tbl ip)) = delete ip (arp_abs tbl).
Proof.
  intros Hwf Hip. induction Hwf as [|e tbl He Hwf IH].
  - symmetry. apply delete_empty.
  - cbn [arp_table_delete_entry].
    destruct (arp_table_delete_entry tbl ip) as [ans tbl'] eqn:Ed. simpl in IH.
    rewrite entry_matches_spec by done. rewrite (arp_abs_cons e tbl).
    case_bool_decide as E; cbn [snd]; rewrite arp_abs_cons.
    + destruct E as [Hu <-]. rewrite (decide_True _ _ Hu). cbn [used set_used].
      rewrite decide_False by done. by rewrite IH, delete_insert_eq.
    + rewrite IH. case_decide as Hu; [|done]. rewrite delete_insert_ne; [done|naive_solver].
Qed.

Lemma arp_delete_length tbl ip : length (snd (arp_table_delete_entry tbl ip)) = length tbl.
Proof.
  induction tbl as [|e tbl IH]; [done|]. cbn [arp_table_delete_entry].
  destruct (arp_table_delete_entry tbl ip) as [ans tbl']. simpl in IH.
  destruct (entry_matches e ip); simpl; by rewrite IH.
Qed.

Lemma arp_delete_entries tbl ip :
  Forall entry_wf tbl -> length ip = 4%nat ->
  Forall entry_wf (snd (arp_table_delete_entry tbl ip)) /\
  used_entries (snd (arp_table_delete_entry tbl ip)) =
    filter (fun e => ip_addr e <> ip) (used_entries tbl).
Proof.
  intros Hwf Hip. induction Hwf as [|e tbl He Hwf [IH1 IH2]]; [done|].
  cbn [arp_table_delete_entry]. destruct (arp_table_delete_entry tbl ip) as [ans tbl'].
  simpl in IH1, IH2. rewrite entry_matches_spec by done.
  unfold used_entries in *. rewrite (filter_cons _ e tbl).
  case_bool_decide as E; cbn [snd].
  - destruct E as [Hu <-]. split.
    + constructor; [|done]. destruct He as (_ & ? & ?). split; [by left|done].
    + rewrite filter_cons_False by done. rewrite (decide_True _ _ Hu).
      rewrite filter_cons_False by (intros []; done). done.
  - split; [by constructor|]. rewrite filter_cons. case_decide as Hu; [|done].
    rewrite filter_cons_True by tauto. by rewrite IH2.
Qed.

Lemma arp_delete_wf tbl ip :
  arp_wf tbl -> length ip = 4%nat -> arp_wf (snd (arp_table_delete_entry tbl ip)).
Proof.
  intros (Hl & Hwf & Hnd) Hip. destruct (arp_delete_entries tbl ip Hwf Hip) as [H1 H2].
  split; [by rewrite arp_delete_length|]. split; [done|].
  rewrite H2. apply (sublist_NoDup _ _ Hnd). apply fmap_sublist, sublist_filter.
Qed.

Lemma arp_abs_size tbl :
  NoDup (ip_addr <$> used_entries tbl) -> size (arp_abs tbl) = length (used_entries tbl).
Proof.
  intros Hnd. unfold arp_abs.
  rewrite map_size_list_to_map; [by rewrite length_fmap|]. by rewrite <- list_fmap_compose.
Qed.

Lemma arp_free_slot_S `{Env} fuel tbl i :
  arp_free_slot (S fuel) tbl i =
  if (used_at tbl i =? 1) && (i <? ARP_TABLE_SIZE) then arp_free_slot fuel tbl (i + 1) else i.
Proof. done. Qed.

(** The search for a free entry stops at the first one, or at the end of the table
    whatever the byte behind the table is. *)
Lemma arp_free_slot_spec `{Env} (tbl : list arp_table_entry) n i :
  length tbl = 8%nat -> 0 <= i -> i + Z.of_nat n = 8 ->
  let r := arp_free_slot (S n) tbl i in
  i <= r <= 8 /\
  (forall j, i <= j < r -> exists e, tbl !! Z.to_nat j = Some e /\ used e = 1) /\
  (r < 8 -> exists e, tbl !! Z.to_nat r = Some e /\ used e <> 1).
Proof.
  intros Hl. revert i. induction n as [|n IH]; intros i Hi Hn.
  - assert (i = 8) as -> by lia. intros r.
    assert (r = 8) as -> by (unfold r; rewrite arp_free_slot_S; by rewrite andb_false_r).
    repeat split; lia.
  - intros r. destruct (lookup_lt_is_Some_2 tbl (Z.to_nat i)) as [e He]; [lia|].
    assert (r = if used e =? 1 then arp_free_slot (S n) tbl (i + 1) else i) as ->.
    { unfold r. rewrite arp_free_slot_S. unfold used_at. rewrite He.
      destruct (Z.ltb_spec i ARP_TABLE_SIZE); [by rewrite andb_true_r|].
      unfold ARP_TABLE_SIZE in *. lia. }
    destruct (Z.eqb_spec (used e) 1) as [Hu|Hu].
    + destruct (IH (i + 1) ltac:(lia) ltac:(lia)) as (H1 & H2 & H3).
      split; [lia|]. split; [|done]. intros j Hj. destruct (decide (j = i)) as [->|]; [by exists e|].
      apply H2. lia.
    + split; [lia|]. split; [lia|]. intros _. by exists e.
Qed.

Lemma used_entries_app l1 l2 : used_entries (l1 ++ l2) = used_entries l1 ++ used_entries l2.
Proof. apply list.filter_app. Qed.

Lemma alter_middle {A} (f : A -> A) l1 x l2 :
  alter f (length l1) (l1 ++ x :: l2) = l1 ++ f x :: l2.
Proof. induction l1 as [|y l1 IH]; [done|]. cbn. f_equal. exact IH. Qed.

(** Overwriting an unused entry adds a pair. *)
Lemma arp_fill_abs l1 e l2 ip mac :
  used e <> 1 -> ip ∉ (ip_addr <$> used_entries (l1 ++ e :: l2)) ->
  NoDup (ip_addr <$> used_entries (l1 ++ e :: l2)) ->
  let tbl' := l1 ++ ArpEntry 1 ip mac :: l2 in
  arp_abs tbl' = <[ip := mac]> (arp_abs (l1 ++ e :: l2)) /\
  NoDup (ip_addr <$> used_entries tbl').
Proof.
  intros Hu Hni Hnd tbl'. unfold tbl'.
  assert (used_entries (l1 ++ e :: l2) = used_entries l1 ++ used_entries l2) as Eu.
  { rewrite used_entries_app. unfold used_entries. by rewrite (filter_cons_False _ e). }
  rewrite Eu in *. rewrite !fmap_app in *. split.
  - rewrite !arp_abs_app, !arp_abs_cons. rewrite decide_True, decide_False by done.
    rewrite insert_union_r; [done|]. apply arp_abs_None. by apply not_elem_of_app in Hni as [? _].
  - rewrite used_entries_app. unfold used_entries at 2. rewrite filter_cons_True by done.
    fold (used_entries l2). rewrite fmap_app. cbn. rewrite <- Permutation_middle.
    by apply list.NoDup_cons.
Qed.

(** Overwriting the first entry of a full table replaces a pair. *)
Lemma arp_replace_abs e l2 ip mac :
  used e = 1 -> ip ∉ (ip_addr <$> used_entries (e :: l2)) ->
  NoDup (ip_addr <$> used_entries (e :: l2)) ->
  let tbl' := ArpEntry 1 ip mac :: l2 in
  arp_abs tbl' = <[ip := mac]> (delete (ip_addr e) (arp_abs (e :: l2))) /\
  NoDup (ip_addr <$> used_entries tbl').
Proof.
  intros Hu Hni Hnd tbl'. unfold tbl'. unfold used_entries in *.
  rewrite filter_cons_True in Hni, Hnd by done. fold (used_entries l2) in *. cbn in Hni, Hnd.
  apply list.NoDup_cons in Hnd as [Hn Hnd]. split.
  - rewrite !arp_abs_cons, decide_True, (decide_True _ _ Hu) by done.
    f_equal. symmetry. apply delete_insert_id. by apply arp_abs_None.
  - rewrite filter_cons_True by done. apply list.NoDup_cons. by apply not_elem_of_cons in Hni as [_ ?].
Qed.

(** The address in the first entry, the one given up when the table is full. *)
Definition first_ip (tbl : list arp_table_entry) : list Z :=
  match tbl with [] => [] | e :: _ => ip_addr e end.

(** Storing a pair in a table that has no entry for the address. *)
Definition arp_store `{Env} (ip mac : list Z) (tbl : list arp_table_entry) : list arp_table_entry :=
  let i := arp_free_slot 9 tbl 0 in
  let i := if i =? ARP_TABLE_SIZE then 0 else i in
  alter (fun e => ArpEntry 1 (copy_arr 4 ip (ip_addr e)) (copy_arr 6 mac (mac_addr e)))
    (Z.to_nat i) tbl.

Lemma arp_store_abs `{Env} ip mac tbl :
  arp_wf tbl -> length ip = 4%nat -> length mac = 6%nat -> arp_abs tbl !! ip = None ->
  arp_wf (arp_store ip mac tbl) /\
  arp_abs (arp_store ip mac tbl) =
    <[ip := mac]> (if decide (length (used_entries tbl) = 8%nat)
                   then delete (first_ip tbl) (arp_abs tbl) else arp_abs tbl).
Proof.
  intros (Hl & Hwf & Hnd) Hip Hmac Hn. apply arp_abs_None in Hn.
  destruct (arp_free_slot_spec tbl 8 0 Hl ltac:(lia) ltac:(lia)) as (Hr & Hused & Hfree).
  unfold arp_store. set (r := arp_free_slot 9 tbl 0) in *. unfold ARP_TABLE_SIZE.
  assert (forall e, entry_wf e -> ArpEntry 1 (copy_arr 4 ip (ip_addr e)) (copy_arr 6 mac (mac_addr e))
            = ArpEntry 1 ip mac) as Hcopy.
  { intros e (_ & H4 & H6). by rewrite !copy_arr_full. }
  assert (entry_wf (ArpEntry 1 ip mac)) as Hnew by (split; [by right|done]).
  destruct (Z.eqb_spec r 8) as [E|E].
  - destruct tbl as [|e l2]; [done|]. destruct (Hused 0 ltac:(lia)) as (e' & [= <-] & Hu).
    assert (length (used_entries (e :: l2)) = 8%nat) as Hfull.
    { unfold used_entries. rewrite <- Hl.
      assert (Forall (fun e => used e = 1) (e :: l2)) as Hall.
      { apply Forall_lookup. intros i x Hx. apply lookup_lt_Some in Hx as Hi.
        destruct (Hused (Z.of_nat i) ltac:(lia)) as (y & Hy & Huy).
        rewrite Nat2Z.id in Hy. congruence. }
      clear -Hall. induction Hall as [|x l Hx Hall IH]; [done|].
      rewrite filter_cons_True by done. cbn [length]. by f_equal. }
    rewrite decide_True by done. inversion Hwf as [|? ? He Hwf2]; subst.
    change (Z.to_nat 0) with 0%nat. cbn [alter list_alter]. rewrite Hcopy by done.
    destruct (arp_replace_abs e l2 ip mac Hu Hn Hnd) as [-> Hnd']. split; [|done].
    split; [done|]. split; [by constructor|done].
  - destruct (Hfree ltac:(lia)) as (e & He & Hu).
    rewrite <- (take_drop_middle _ _ _ He) in Hn, Hnd, Hl, Hwf |- *.
    assert (Z.to_nat r = length (take (Z.to_nat r) tbl)) as Hlen.
    { rewrite length_take. apply lookup_lt_Some in He. lia. }
    set (l1 := take (Z.to_nat r) tbl) in *. set (l2 := drop (S (Z.to_nat r)) tbl) in *.
    rewrite Hlen, alter_middle. apply Forall_app in Hwf as [Hwf1 Hwf2].
    inversion Hwf2 as [|? ? Hwe Hwf3]; subst. rewrite Hcopy by done.
    destruct (arp_fill_abs l1 e l2 ip mac Hu Hn Hnd) as [-> Hnd'].
    rewrite decide_False.
    + split; [|done]. split; [rewrite length_app in *; exact Hl|]. split; [|done].
      apply Forall_app. split; [done|by constructor].
    + intros Hfull. rewrite used_entries_app, length_app in Hfull. unfold used_entries in Hfull.
      rewrite filter_cons_False in Hfull by done.
      pose proof (list.length_filter (fun e : arp_table_entry => used e = 1) l1).
      pose proof (list.length_filter (fun e : arp_table_entry => used e = 1) l2).
      rewrite length_app in Hl. cbn [length] in Hl. lia.
Qed.

Lemma arp_new_entry_abs `{Env} ip mac tbl :
  arp_wf tbl -> length ip = 4%nat -> length mac = 6%nat ->
  arp_wf (arp_table_new_entry ip mac tbl) /\
  arp_abs (arp_table_new_entry ip mac tbl) =
    <[ip := mac]> (if decide (size (arp_abs tbl) = 8%nat /\ arp_abs tbl !! ip = None)
                   then delete (first_ip tbl) (arp_abs tbl) else arp_abs tbl).
Proof.
  intros Hwf Hip Hmac. pose proof Hwf as (Hl & He & Hnd).
  change (arp_table_new_entry ip mac tbl) with
    (arp_store ip mac (if fst (arp_table_search tbl ip (replicate 6 0)) =? 1
                       then snd (arp_table_delete_entry tbl ip) else tbl)).
  rewrite arp_search_abs by done. rewrite (arp_abs_size tbl Hnd).
  destruct (arp_abs tbl !! ip) as [x|] eqn:E; cbn [fst Z.eqb Pos.eqb].
  - rewrite decide_False by (intros []; done).
    destruct (arp_store_abs ip mac (snd (arp_table_delete_entry tbl ip))) as [H1 H2];
      [by apply arp_delete_wf|done..|by rewrite arp_delete_abs, lookup_delete_eq|].
    split; [done|]. rewrite H2, arp_delete_abs by done. rewrite decide_False.
    { by rewrite insert_delete_eq. }
    rewrite <- arp_abs_size, arp_delete_abs by (done || by apply arp_delete_wf).
    rewrite map_size_delete, E, arp_abs_size by done.
    pose proof (list.length_filter (fun e : arp_table_entry => used e = 1) tbl) as Hle.
    fold (used_entries tbl) in Hle. lia.
  - destruct (arp_store_abs ip mac tbl) as [H1 H2]; [done..|].
    split; [done|]. rewrite H2. f_equal.
    destruct (decide (length (used_entries tbl) = 8%nat)) as [E8|E8].
    + by rewrite decide_True.
    + rewrite decide_False; [done|]. by intros [].
Qed.

(** ** The frames of the protocol *)

Definition bytes (l : list Z) : Prop := Forall (fun b => 0 <= b < 256) l.

Lemma arr_byte l i : bytes l -> 0 <= arr l i < 256.
Proof.
  intros Hb. unfold arr. destruct (nth_in_or_default (Z.to_nat i) l 0) as [Hin| ->]; [|lia].
  unfold bytes in Hb. rewrite List.Forall_forall in Hb. by apply Hb.
Qed.

(** Byte [k] of the reply to the request [f]. *)
Definition arp_reply_byte (mymac myip : list Z) (f : Z -> Z) (k : Z) : Z :=
  if k <? 6 then f (6 + k)
  else if k <? 12 then arr mymac (k - 6)
  else if k <? 21 then f k
  else if k <? 22 then 2
  else if k <? 28 then arr mymac (k - 22)
  else if k <? 32 then arr myip (k - 28)
  else f (k - 10).

Lemma arp_build_reply_bytes mymac myip rx tx m :
  bytes mymac -> bytes myip -> in_buffer rx 42 -> in_buffer tx 42 -> same_or_apart rx tx 42 ->
  forall k, 0 <= k < 42 ->
  fb (snd (arp_build_reply mymac myip rx tx m)) tx k = arp_reply_byte mymac myip (fb m rx) k.
Proof.
  intros Hmac Hip Hrx Htx Hd k Hk. unfold arp_build_reply. cbn [snd]. cbv zeta.
  pose proof (copy_frame m rx tx 42 ltac:(lia) Hrx Htx Hd) as Hcopy. cbv zeta in Hcopy.
  set (m1 := if negb (rx =? tx) then _ else m) in *. destruct Htx as [Ht0 Ht1].
  pose proof (move_loop m1 tx 0 6 6 mymac) as Hsw. cbv zeta in Hsw. rewrite !Z.add_0_r in Hsw.
  unfold arp_reply_byte.
  assert (k < 6 \/ 6 <= k < 12 \/ 12 <= k < 21 \/ k = 21 \/ 22 <= k < 28 \/ 28 <= k < 32
          \/ 32 <= k < 38 \/ 38 <= k < 42) as Hc by lia.
  destruct Hc as [Hc|[Hc|[Hc|[Hc|[Hc|[Hc|[Hc|Hc]]]]]]];
    repeat (first [rewrite (move_loop _ tx 38 28 4 myip) by lia
                  |rewrite (move_loop _ tx 32 22 6 mymac) by lia
                  |rewrite fb_wrb by lia|rewrite Hsw by lia|rewrite Hcopy by lia]; zif);
    zif; rewrite ?u8_small by (by apply arr_byte); try done; f_equal; lia.
Qed.

(** Byte [k] of a request. *)
Definition arp_request_byte (mymac myip target : list Z) (k : Z) : Z :=
  if k <? 6 then 0xFF
  else if k <? 12 then arr mymac (k - 6)
  else if k <? 22 then arr [0x08; 0x06; 0x00; 0x01; 0x08; 0x00; 0x06; 0x04; 0x00; 0x01] (k - 12)
  else if k <? 28 then arr mymac (k - 22)
  else if k <? 32 then arr myip (k - 28)
  else if k <? 38 then 0
  else arr target (k - 38).

Lemma request_mac_loop m tx mymac :
  bytes mymac -> in_buffer tx 42 ->
  let m' := for_ 6 (fun i m =>
      let m := mem_iowr_byte (tx + i) 0xFF m in
      let m := mem_iowr_byte (tx + 6 + i) (arr mymac i) m in
      let m := mem_iowr_byte (tx + 22 + i) (arr mymac i) m in
      mem_iowr_byte (tx + 32 + i) 0x00 m) m in
  forall k, 0 <= k < 42 ->
  fb m' tx k = if k <? 6 then 0xFF else if k <? 12 then arr mymac (k - 6)
               else if (22 <=? k) && (k <? 28) then arr mymac (k - 22)
               else if (32 <=? k) && (k <? 38) then 0 else fb m tx k.
Proof.
  intros Hmac [? ?] m'.
  enough (forall k, 0 <= k < 42 ->
    fb m' tx k = if k <? 6 then 0xFF else if (6 <=? k) && (k <? 6 + 6) then arr mymac (k - 6)
               else if (22 <=? k) && (k <? 22 + 6) then arr mymac (k - 22)
               else if (32 <=? k) && (k <? 32 + 6) then 0 else fb m tx k) as Hl.
  { intros k Hk. rewrite Hl by lia. by destruct (Z.ltb_spec k 6); zif. }
  unfold m'. clear m'.
  apply (for_ind (fun j m' => forall k, 0 <= k < 42 ->
    fb m' tx k = if k <? j then 0xFF else if (6 <=? k) && (k <? 6 + j) then arr mymac (k - 6)
               else if (22 <=? k) && (k <? 22 + j) then arr mymac (k - 22)
               else if (32 <=? k) && (k <? 32 + j) then 0 else fb m tx k)); [lia| |].
  - intros k Hk. destruct (Z.leb_spec 6 k), (Z.leb_spec 22 k), (Z.leb_spec 32 k); try lia; zif; done.
  - intros j m' Hj IH k Hk. cbv zeta. rewrite <- !(Z.add_assoc tx), !fb_wrb by lia. rewrite IH by lia.
    assert (j = k \/ 6 + j = k \/ 22 + j = k \/ 32 + j = k \/
            (j <> k /\ 6 + j <> k /\ 22 + j <> k /\ 32 + j <> k)) as Hc by lia.
    destruct Hc as [<-|[<-|[<-|[<-|Hc]]]]; zif;
      rewrite ?u8_small by (by apply arr_byte); try done; try (f_equal; lia).
    destruct (Z.ltb_spec k j), (Z.ltb_spec k (j + 1)), (Z.leb_spec 6 k), (Z.ltb_spec k (6 + j)),
      (Z.ltb_spec k (6 + (j + 1))), (Z.leb_spec 22 k), (Z.ltb_spec k (22 + j)),
      (Z.ltb_spec k (22 + (j + 1))), (Z.leb_spec 32 k), (Z.ltb_spec k (32 + j)),
      (Z.ltb_spec k (32 + (j + 1))); try lia; done.
Qed.

Lemma request_ip_loop m tx myip target :
  bytes myip -> bytes target -> in_buffer tx 42 ->
  let m' := for_ 4 (fun i m =>
      let m := mem_iowr_byte (tx + 28 + i) (arr myip i) m in
      mem_iowr_byte (tx + 38 + i) (arr target i) m) m in
  forall k, 0 <= k < 42 ->
  fb m' tx k = if (28 <=? k) && (k <? 32) then arr myip (k - 28)
               else if 38 <=? k then arr target (k - 38) else fb m tx k.
Proof.
  intros Hip Htg [? ?].
  assert (forall k, 0 <= k < 42 ->
    fb (for_ 4 (fun i m =>
      let m := mem_iowr_byte (tx + 28 + i) (arr myip i) m in
      mem_iowr_byte (tx + 38 + i) (arr target i) m) m) tx k =
    if (28 <=? k) && (k <? 28 + 4) then arr myip (k - 28)
    else if (38 <=? k) && (k <? 38 + 4) then arr target (k - 38) else fb m tx k) as Hl.
  { apply (for_ind (fun j m' => forall k, 0 <= k < 42 ->
      fb m' tx k = if (28 <=? k) && (k <? 28 + j) then arr myip (k - 28)
                   else if (38 <=? k) && (k <? 38 + j) then arr target (k - 38) else fb m tx k));
      [lia| |].
    - intros k Hk. destruct (Z.leb_spec 28 k), (Z.leb_spec 38 k); try lia; zif; done.
    - intros j m' Hj IH k Hk. cbv zeta. rewrite <- !(Z.add_assoc tx), !fb_wrb by lia. rewrite IH by lia.
      assert (28 + j = k \/ 38 + j = k \/ (28 + j <> k /\ 38 + j <> k)) as Hc by lia.
      destruct Hc as [<-|[<-|Hc]]; zif;
        rewrite ?u8_small by (by apply arr_byte); try done; try (f_equal; lia).
      destruct (Z.leb_spec 28 k), (Z.ltb_spec k (28 + j)), (Z.ltb_spec k (28 + (j + 1))),
        (Z.leb_spec 38 k), (Z.ltb_spec k (38 + j)), (Z.ltb_spec k (38 + (j + 1))); try lia; done. }
  intros m' k Hk. unfold m'. rewrite Hl by lia.
  destruct (Z.leb_spec 28 k), (Z.leb_spec 38 k); try lia; zif; done.
Qed.

Lemma arp_build_request_bytes mymac myip tx target m :
  bytes mymac -> bytes myip -> bytes target -> in_buffer tx 42 -> tx mod 4 = 0 ->
  forall k, 0 <= k < 42 ->
  fb (snd (arp_build_request mymac myip tx target m)) tx k = arp_request_byte mymac myip target k.
Proof.
  intros Hmac Hip Htg Htx Hal k Hk. unfold arp_build_request. cbn [snd]. cbv zeta.
  pose proof Htx as [? ?]. rewrite !fb_wrb, !fb_wrw by lia.
  rewrite request_ip_loop, request_mac_loop by done.
  unfold arp_request_byte.
  destruct (Z.ltb_spec k 12) as [Hlt|Hge].
  { assert (k / 4 < 3) by zdm. change (16 / 4) with 4. change (12 / 4) with 3. zif.
    by destruct (Z.ltb_spec k 6); zif. }
  destruct (Z.ltb_spec k 22) as [Hlt2|Hge2].
  { assert (k = 12 \/ k = 13 \/ k = 14 \/ k = 15 \/ k = 16 \/ k = 17 \/ k = 18 \/ k = 19
            \/ k = 20 \/ k = 21) as Hc by lia.
    destruct Hc as [->|[->|[->|[->|[->|[->|[->|[->|[->| ->]]]]]]]]]; reflexivity. }
  assert (5 <= k / 4) by zdm. change (16 / 4) with 4. change (12 / 4) with 3. zif.
  destruct (Z.ltb_spec k 28), (Z.ltb_spec k 32), (Z.ltb_spec k 38); try lia; zif; done.
Qed.

(** ** Theorems: the table *)

(** Operations of the table, as steps. *)
Inductive arp_step `{Env} : list arp_table_entry -> list arp_table_entry -> Prop :=
| arp_step_init tbl : arp_step tbl (arp_table_init tbl)
| arp_step_delete tbl ip : length ip = 4%nat -> arp_step tbl (snd (arp_table_delete_entry tbl ip))
| arp_step_new tbl ip mac :
    length ip = 4%nat -> length mac = 6%nat -> arp_step tbl (arp_table_new_entry ip mac tbl).

Lemma arp_init_used tbl : used_entries (arp_table_init tbl) = [].
Proof. induction tbl as [|e tbl IH]; [done|]. cbn. exact IH. Qed.

Lemma arp_init_wf tbl : arp_wf tbl -> arp_wf (arp_table_init tbl).
Proof.
  intros (Hl & Hwf & _). split; [|split].
  - rewrite <- Hl. clear. induction tbl as [|e tbl IH]; [done|]. cbn. by f_equal.
  - clear Hl. induction Hwf as [|e tbl He Hwf IH]; [done|]. constructor; [|done].
    destruct He as (_ & ? & ?). split; [by left|done].
  - rewrite arp_init_used. apply NoDup_nil_2.
Qed.

Lemma arp_step_wf `{Env} tbl tbl' : arp_step tbl tbl' -> arp_wf tbl -> arp_wf tbl'.
Proof.
  intros [] Hwf; [by apply arp_init_wf|by apply arp_delete_wf|].
  by apply arp_new_entry_abs.
Qed.

(** Invariant: every sequence of table operations keeps the table at
    eight well-formed entries in which no address is resolved twice. *)
Theorem arp_table_invariant `{Env} tbl tbl' :
  rtc arp_step tbl tbl' -> arp_wf tbl ->
  length tbl' = 8%nat /\ Forall entry_wf tbl' /\ NoDup (ip_addr <$> used_entries tbl').
Proof. intros Hr. induction Hr as [|tbl t1 t2 Hs _ IH]; [done|]. intros. by apply IH, (arp_step_wf tbl). Qed.

(** Claim C7. Refinement: on a well-formed table the search is the lookup of a
    finite map, deletion is the map's deletion, and the insertion is the map's
    insertion, which gives up the pair in the first entry exactly when all eight
    entries are used by other addresses; this holds although the search for a free
    entry reads one byte behind the table, whatever that byte is. *)
Theorem arp_table_refines_map `{Env} tbl ip mac old :
  arp_wf tbl -> length ip = 4%nat -> length mac = 6%nat -> length old = 6%nat ->
  arp_table_search tbl ip old =
    match arp_abs tbl !! ip with Some x => (1, x) | None => (0, old) end /\
  arp_abs (snd (arp_table_delete_entry tbl ip)) = delete ip (arp_abs tbl) /\
  arp_abs (arp_table_new_entry ip mac tbl) =
    <[ip := mac]> (if decide (size (arp_abs tbl) = 8%nat /\ arp_abs tbl !! ip = None)
                   then delete (first_ip tbl) (arp_abs tbl) else arp_abs tbl).
Proof.
  intros Hwf Hip Hmac Hold. pose proof Hwf as (_ & He & _).
  split; [by apply arp_search_abs|]. split; [by apply arp_delete_abs|].
  by apply arp_new_entry_abs.
Qed.

(** ** Theorems: the protocol *)

Lemma arp_reply_fields mymac myip rx tx m :
  bytes mymac -> bytes myip -> length mymac = 6%nat -> length myip = 4%nat ->
  in_buffer rx 42 -> in_buffer tx 42 -> same_or_apart rx tx 42 ->
  let m' := snd (arp_build_reply mymac myip rx tx m) in
  mac_addr_dest m' tx = mac_addr_sender m rx /\
  mac_addr_sender m' tx = mymac /\
  (mac_packet_type m rx = ARP -> mac_packet_type m' tx = ARP) /\
  fb m' tx 21 = 2 /\
  arp_get_sender_mac m' tx = mymac /\
  arp_get_sender_ip m' tx = myip /\
  arp_get_target_mac m' tx = arp_get_sender_mac m rx /\
  arp_get_target_ip m' tx = arp_get_sender_ip m rx.
Proof.
  intros Hmac Hip Hl6 Hl4 Hrx Htx Hd m'.
  pose proof (arp_build_reply_bytes mymac myip rx tx m Hmac Hip Hrx Htx Hd) as Hb.
  fold m' in Hb.
  assert (forall i, 0 <= i < 6 -> mem_iord_byte m' (tx + 6 + i) = arr mymac i) as Hs.
  { intros i Hi. specialize (Hb (6 + i) ltac:(lia)). unfold fb in Hb.
    rewrite Z.add_assoc in Hb. rewrite Hb. unfold arp_reply_byte. zif. f_equal; lia. }
  split; [|split; [|split; [|split; [|split; [|split; [|split]]]]]].
  - unfold mac_addr_dest, mac_addr_sender.
    assert (forall i, 0 <= i < 6 -> mem_iord_byte m' (tx + i) = mem_iord_byte m (rx + 6 + i)) as H6.
    { intros i Hi. specialize (Hb i ltac:(lia)). unfold fb in Hb at 1. rewrite Hb.
      unfold arp_reply_byte, fb. zif. f_equal. lia. }
    by rewrite !H6 by lia.
  - unfold mac_addr_sender. rewrite !Hs by lia.
    destruct mymac as [|a0 [|a1 [|a2 [|a3 [|a4 [|a5 [|]]]]]]]; done.
  - rewrite !mac_packet_type_ARP, !(Hb 12), !(Hb 13) by lia. done.
  - by rewrite Hb by lia.
  - apply byte_list_eq; [lia|done|]. intros i Hi. rewrite Hb by lia.
    unfold arp_reply_byte. zif. f_equal; lia.
  - apply byte_list_eq; [lia|done|]. intros i Hi. rewrite Hb by lia.
    unfold arp_reply_byte. zif. f_equal; lia.
  - apply list_fmap_ext. intros i x [-> Hi]%lookup_seqZ.
    specialize (Hb (32 + (0 + Z.of_nat i)) ltac:(lia)). unfold fb in Hb.
    rewrite Z.add_assoc in Hb. rewrite Hb. unfold arp_reply_byte. zif. f_equal. lia.
  - apply list_fmap_ext. intros i x [-> Hi]%lookup_seqZ.
    specialize (Hb (38 + (0 + Z.of_nat i)) ltac:(lia)). unfold fb in Hb.
    rewrite Z.add_assoc in Hb. rewrite Hb. unfold arp_reply_byte. zif. f_equal. lia.
Qed.

Section ProtocolTheorems.
Context `{Env}.

(** What the library's globals look like. *)
Definition host_wf (s : machine) : Prop :=
  length (my_mac s) = 6%nat /\ bytes (my_mac s) /\ length (my_ip s) = 4%nat /\ bytes (my_ip s) /\
  arp_wf (arp_table s).

Lemma arp_for_us s rx :
  host_wf s ->
  ipv4_compare_ip (arp_get_target_ip (buff s) rx) (my_ip s) =
  if decide (arp_get_target_ip (buff s) rx = my_ip s) then 1 else 0.
Proof. intros (_ & _ & ? & _). apply ipv4_compare_ip_eq; [apply byte_list_length|done]. Qed.

Lemma arp_mac_for_us s rx :
  host_wf s ->
  mac_compare_mac (arp_get_target_mac (buff s) rx) (my_mac s) =
  if decide (arp_get_target_mac (buff s) rx = my_mac s) then 1 else 0.
Proof. intros (? & _). apply mac_compare_mac_eq; [apply byte_list_length|done]. Qed.

(** [arp_process_received] in one equation. *)
Lemma arp_process_received_eq fuel rx tx s :
  host_wf s ->
  arp_process_received fuel rx tx s =
  if decide (arp_get_target_ip (buff s) rx = my_ip s) then
    if fb (buff s) rx 21 =? 1 then
      (eth_mac_send fuel tx 42;; mret 1)
        (set_buff (fun m => snd (arp_build_reply (my_mac s) (my_ip s) rx tx m)) s)
    else if fb (buff s) rx 21 =? 2 then
      if decide (arp_get_target_mac (buff s) rx = my_mac s) then
        Some (2, set_arp_table (arp_table_new_entry (arp_get_sender_ip (buff s) rx)
                                  (arp_get_sender_mac (buff s) rx) (arp_table s)) s)
      else Some (0, s)
    else Some (0, s)
  else Some (0, s).
Proof.
  intros Hh. unfold arp_process_received. rewrite bind_rdbuf, !bind_gets, arp_for_us by exact Hh.
  case_decide as E; [|reflexivity].
  rewrite Z.eqb_refl, bind_rdbuf.
  change (mem_iord_byte (buff s) (rx + 21)) with (fb (buff s) rx 21).
  destruct (fb (buff s) rx 21 =? 1).
  { rewrite bind_runbuf. reflexivity. }
  destruct (fb (buff s) rx 21 =? 2); [|reflexivity].
  rewrite bind_rdbuf, arp_mac_for_us by exact Hh. case_decide as E2; [|reflexivity].
  rewrite Z.eqb_refl, !bind_rdbuf, bind_modify. reflexivity.
Qed.

(** What a host does with a received ARP frame: nothing when the frame is
    for another address; a request for its address is answered by transmitting
    exactly one 42-byte frame, the reply built from the request; a reply for it is
    stored in the table and nothing is transmitted; everything else is ignored. *)
Theorem arp_process_received_spec bound `{!TxLive bound} fuel rx tx s :
  host_wf s -> (bound + 2 <= fuel)%nat ->
  let run := arp_process_received fuel rx tx s in
  let for_us := arp_get_target_ip (buff s) rx = my_ip s in
  let op := fb (buff s) rx 21 in
  (~ for_us -> run = Some (0, s)) /\
  (for_us -> op <> 1 -> op <> 2 -> run = Some (0, s)) /\
  (for_us -> op = 2 -> arp_get_target_mac (buff s) rx <> my_mac s -> run = Some (0, s)) /\
  (for_us -> op = 2 -> arp_get_target_mac (buff s) rx = my_mac s ->
   run = Some (2, set_arp_table (arp_table_new_entry (arp_get_sender_ip (buff s) rx)
                                   (arp_get_sender_mac (buff s) rx) (arp_table s)) s)) /\
  (for_us -> op = 1 -> dma_avoids tx 42 ->
   exists s' b, run = Some (1, s') /\
     tx_log (hist s') = TxFrame (u32 tx) 42 b :: tx_log (hist s) /\
     (forall k, 0 <= k < 42 ->
        fb b tx k = fb (snd (arp_build_reply (my_mac s) (my_ip s) rx tx (buff s))) tx k) /\
     same_globals s s').
Proof.
  intros Hh Hf run for_us op. unfold run, for_us, op. rewrite arp_process_received_eq by done.
  split; [by intros; rewrite decide_False|].
  split; [by intros E ? ?; rewrite decide_True by done; zif|].
  split; [by intros E E2 ?; rewrite decide_True by done; zif; rewrite decide_False|].
  split; [by intros E E2 ?; rewrite decide_True by done; zif; rewrite decide_True|].
  intros E E1 Hd. rewrite decide_True by done. zif. rewrite bind_eq.
  set (t := set_buff _ s).
  destruct (eth_mac_send_total fuel tx 42 t Hf) as (n & _ & ->).
  exists (tx_done n tx 42 t), (buff (tx_armed tx t)). split; [done|]. split.
  { unfold tx_done. by rewrite tx_log_polls, tx_log_started. }
  split; [|apply (same_globals_tx_done n tx 42 t)].
  intros k Hk. by rewrite (tx_armed_frame tx tx 42) by done.
Qed.

End ProtocolTheorems.

(** The 42 bytes at [base'] of [m'] are a received copy of those at [base] of [m]. *)
Definition delivered (m : buf) (base : Z) (m' : buf) (base' n : Z) : Prop :=
  forall k, 0 <= k < n -> fb m' base' k = fb m base k.

(** Delivery of a concrete frame, by evaluation. *)
Lemma delivered_eval m base m' base' n :
  forallb (fun k => fb m' base' k =? fb m base k) (seqZ 0 n) = true -> delivered m base m' base' n.
Proof.
  intros Hf k Hk. rewrite forallb_forall in Hf. apply Z.eqb_eq, Hf.
  apply list_elem_of_In, elem_of_seqZ. lia.
Qed.

Lemma delivered_list m base m' base' n off c :
  delivered m base m' base' n -> 0 <= off -> off + c <= n ->
  (fun i => mem_iord_byte m' (base' + off + i)) <$> seqZ 0 c =
  (fun i => mem_iord_byte m (base + off + i)) <$> seqZ 0 c.
Proof.
  intros Hd Ho Hc. apply list_fmap_ext. intros i x [-> Hi]%lookup_seqZ.
  specialize (Hd (off + (0 + Z.of_nat i)) ltac:(lia)). unfold fb in Hd.
  rewrite !Z.add_assoc in Hd. rewrite !Z.add_assoc. exact Hd.
Qed.

Lemma arp_request_fields mymac myip tx target m :
  bytes mymac -> bytes myip -> bytes target ->
  length mymac = 6%nat -> length myip = 4%nat -> length target = 4%nat ->
  in_buffer tx 42 -> tx mod 4 = 0 ->
  let m' := snd (arp_build_request mymac myip tx target m) in
  mac_packet_type m' tx = ARP /\ fb m' tx 21 = 1 /\
  arp_get_sender_mac m' tx = mymac /\ arp_get_sender_ip m' tx = myip /\
  arp_get_target_ip m' tx = target.
Proof.
  intros Hmac Hip Htg Hl6 Hl4 Ht4 Htx Hal m'.
  pose proof (arp_build_request_bytes mymac myip tx target m Hmac Hip Htg Htx Hal) as Hb.
  fold m' in Hb.
  split; [rewrite mac_packet_type_ARP, !Hb by lia; done|].
  split; [by rewrite Hb by lia|].
  split; [|split]; (apply byte_list_eq; [lia|done|]); intros i Hi; rewrite Hb by lia;
    unfold arp_request_byte; zif; f_equal; lia.
Qed.

(** Claim C6. Address resolution end to end: host A asks for the address of host B;
    the frame reaches B, which recognises it as an ARP request for itself and builds
    a reply; the reply reaches A, which accepts it and from then on resolves B's
    address to B's MAC address. *)
Theorem arp_resolution_end_to_end `{Env} fuel txA txB rxA rxB mA mB macB ipB (a : machine) :
  host_wf a -> bytes macB -> bytes ipB -> length macB = 6%nat -> length ipB = 4%nat ->
  in_buffer txA 42 -> txA mod 4 = 0 -> in_buffer txB 42 -> in_buffer rxB 42 ->
  same_or_apart rxB txB 42 ->
  let request := snd (arp_build_request (my_mac a) (my_ip a) txA ipB mA) in
  delivered request txA mB rxB 42 ->
  let reply := snd (arp_build_reply macB ipB rxB txB mB) in
  delivered reply txB (buff a) rxA 42 ->
  mac_packet_type mB rxB = ARP /\ arp_get_target_ip mB rxB = ipB /\ fb mB rxB 21 = 1 /\
  mac_packet_type (buff a) rxA = ARP /\
  exists a', arp_process_received fuel rxA txA a = Some (2, a') /\
    arp_abs (arp_table a') !! ipB = Some macB /\ arp_wf (arp_table a').
Proof.
  intros Ha HmB HiB HlB6 HlB4 HtA Hal HtB HrB Hsa request Hreq reply Hrep.
  pose proof Ha as (Hl6 & Hm & Hl4 & Hi & Hw).
  destruct (arp_request_fields (my_mac a) (my_ip a) txA ipB mA) as (Q1 & Q2 & Q3 & Q4 & Q5);
    [done..|]. fold request in Q1, Q2, Q3, Q4, Q5.
  destruct (arp_reply_fields macB ipB rxB txB mB) as (_ & _ & R1 & R2 & R3 & R4 & R5 & R6);
    [done..|]. fold reply in R1, R2, R3, R4, R5, R6.
  assert (mac_packet_type mB rxB = ARP) as HtypeB.
  { rewrite mac_packet_type_ARP, !Hreq by lia. by apply mac_packet_type_ARP. }
  assert (arp_get_target_ip (buff a) rxA = my_ip a) as Hus.
  { unfold arp_get_target_ip. rewrite (delivered_list reply txB _ rxA 42) by (done || lia).
    fold (arp_get_target_ip reply txB). rewrite R6. unfold arp_get_sender_ip.
    by rewrite (delivered_list request txA _ rxB 42) by (done || lia). }
  assert (arp_get_target_mac (buff a) rxA = my_mac a) as Hum.
  { unfold arp_get_target_mac. rewrite (delivered_list reply txB _ rxA 42) by (done || lia).
    fold (arp_get_target_mac reply txB). rewrite R5. unfold arp_get_sender_mac.
    by rewrite (delivered_list request txA _ rxB 42) by (done || lia). }
  split; [done|]. split.
  { unfold arp_get_target_ip. by rewrite (delivered_list request txA _ rxB 42) by (done || lia). }
  split; [by rewrite Hreq by lia|].
  split; [rewrite mac_packet_type_ARP, !Hrep by lia; by apply mac_packet_type_ARP, R1|].
  rewrite arp_process_received_eq, decide_True by done.
  rewrite (Hrep 21), R2 by lia. cbn [Z.eqb Pos.eqb]. rewrite decide_True by done.
  assert (arp_get_sender_ip (buff a) rxA = ipB) as ->.
  { unfold arp_get_sender_ip. by rewrite (delivered_list reply txB _ rxA 42) by (done || lia). }
  assert (arp_get_sender_mac (buff a) rxA = macB) as ->.
  { unfold arp_get_sender_mac. by rewrite (delivered_list reply txB _ rxA 42) by (done || lia). }
  eexists. split; [done|]. cbn [arp_table set_arp_table].
  destruct (arp_new_entry_abs ipB macB (arp_table a)) as [? ->]; [done..|].
  by rewrite lookup_insert_eq.
Qed.

(** ** Witnesses *)

Lemma init_table_wf : arp_wf (arp_table init_machine).
Proof. split; [done|]. split; [|apply NoDup_nil_2]. repeat constructor. Qed.

Lemma init_host_wf : host_wf init_machine.
Proof.
  split; [done|]. split; [repeat constructor; lia|]. split; [done|].
  split; [repeat constructor; lia|apply init_table_wf].
Qed.

Lemma arp_table_invariant_witness :
  let t := @arp_table_new_entry quiet_env [10; 0; 0; 1] [2; 0; 0; 0; 0; 1] (arp_table init_machine) in
  length t = 8%nat /\ Forall entry_wf t /\ NoDup (ip_addr <$> used_entries t).
Proof.
  intros t. apply (@arp_table_invariant quiet_env (arp_table init_machine) t);
    [|apply init_table_wf].
  apply rtc_once. by apply (@arp_step_new quiet_env).
Defined.

Lemma arp_table_refines_map_witness :
  let t := arp_table init_machine in
  let ip := [10; 0; 0; 1] in let mac := [2; 0; 0; 0; 0; 1] in
  arp_table_search t ip (replicate 6 0) =
    match arp_abs t !! ip with Some x => (1, x) | None => (0, replicate 6 0) end /\
  arp_abs (snd (arp_table_delete_entry t ip)) = delete ip (arp_abs t) /\
  arp_abs (@arp_table_new_entry quiet_env ip mac t) =
    <[ip := mac]> (if decide (size (arp_abs t) = 8%nat /\ arp_abs t !! ip = None)
                   then delete (first_ip t) (arp_abs t) else arp_abs t).
Proof.
  intros t ip mac. by apply (@arp_table_refines_map quiet_env); [apply init_table_wf|..].
Defined.

(** A host that has received the request of a host 10.0.0.1 for its address. *)
Definition asked_machine : machine :=
  set_buff (fun _ => snd (arp_build_request [2; 0; 0; 0; 0; 1] [10; 0; 0; 1] 0
                            (my_ip init_machine) ∅)) init_machine.

Lemma arp_process_received_spec_witness :
  exists s' b, @arp_process_received quiet_env 2 0 0x800 asked_machine = Some (1, s') /\
    tx_log (hist s') = TxFrame (u32 0x800) 42 b :: tx_log (hist asked_machine) /\
    (forall k, 0 <= k < 42 ->
       fb b 0x800 k = fb (snd (arp_build_reply (my_mac asked_machine) (my_ip asked_machine)
                                 0 0x800 (buff asked_machine))) 0x800 k) /\
    same_globals asked_machine s'.
Proof.
  destruct (@arp_process_received_spec quiet_env 0 quiet_live 2 0 0x800 asked_machine
              init_host_wf ltac:(lia)) as (_ & _ & _ & _ & H).
  apply H; [by vm_compute|by vm_compute|]. intros h m k Hk. reflexivity.
Defined.

Lemma arp_resolution_end_to_end_witness :
  let macB := [2; 0; 0; 0; 0; 1] in let ipB := [10; 0; 0; 1] in
  let request := snd (arp_build_request (my_mac init_machine) (my_ip init_machine) 0x800 ipB ∅) in
  let reply := snd (arp_build_reply macB ipB 0x800 0x800 request) in
  let a := set_buff (fun _ => reply) init_machine in
  mac_packet_type request 0x800 = ARP /\ arp_get_target_ip request 0x800 = ipB /\
  fb request 0x800 21 = 1 /\ mac_packet_type (buff a) 0x800 = ARP /\
  exists a', @arp_process_received quiet_env 2 0x800 0x800 a = Some (2, a') /\
    arp_abs (arp_table a') !! ipB = Some macB /\ arp_wf (arp_table a').
Proof.
  intros macB ipB request reply a.
  apply (@arp_resolution_end_to_end quiet_env 2 0x800 0x800 0x800 0x800 ∅ request macB ipB a);
    try exact init_host_wf; try (split; lia); try reflexivity; try (repeat constructor; lia).
Defined.
