(* ===== verification/Icmp.v ===== *)
(** * ICMP: src/c/ethlib/icmp.c

    The ping responder. *)

From stdpp Require Import base gmap list numbers.
From S2P Require Import Prelude Machine EthIO Frame MacDriver Mac Checksum Ipv4 Arp.
Local Open Scope Z_scope.
Local Open Scope c_scope.

(** ** Definitions *)

Definition icmp_get_type (m : buf) (pkt_addr : Z) : Z := mem_iord_byte m (pkt_addr + 34).

Definition icmp_get_code (m : buf) (pkt_addr : Z) : Z := mem_iord_byte m (pkt_addr + 35).

Definition icmp_get_quench (m : buf) (pkt_addr : Z) : Z := mem_iord m (pkt_addr + 38).

Definition icmp_build_ping_reply (mymac myip : list Z) (rx_addr tx_addr : Z) (m : buf) : Z * buf :=
  let frame_length :=
    u32 (14 + ((mem_iord_byte m (rx_addr + 16) << 8) .| mem_iord_byte m (rx_addr + 17))) in
  let m := if negb (rx_addr =? tx_addr) then
      for_ frame_length (fun i m => mem_iowr_byte (tx_addr + i) (mem_iord_byte m (rx_addr + i)) m) m
    else m in
  let m := for_ 6 (fun i m =>
      let m := mem_iowr_byte (tx_addr + i) (mem_iord_byte m (tx_addr + 6 + i)) m in
      mem_iowr_byte (tx_addr + 6 + i) (arr mymac i) m) m in
  let m := for_ 4 (fun i m =>
      let m := mem_iowr_byte (tx_addr + 30 + i) (mem_iord_byte m (tx_addr + 26 + i)) m in
      mem_iowr_byte (tx_addr + 26 + i) (arr myip i) m) m in
  let m := mem_iowr_byte (tx_addr + 34) 0x00 m in
  let checksum := u16 ((mem_iord_byte m (tx_addr + 36) << 8) .| mem_iord_byte m (tx_addr + 37)) in
  let checksum := u16 (~~ ((~~ checksum) - 0x0800)) in
  let m := mem_iowr_byte (tx_addr + 36) (checksum >> 8) m in
  let m := mem_iowr_byte (tx_addr + 37) (checksum .& 0xff) m in
  (frame_length, m).

Section Protocol.
Context `{Env}.

Definition icmp_process_received (fuel : nat) (rx_addr tx_addr : Z) : M Z :=
  type ← rdbuf (fun m => icmp_get_type m rx_addr);
  if type =? 0x08 then
    destination_ip ← rdbuf (fun m => ipv4_get_destination_ip m rx_addr);
    ip ← gets my_ip;
    if negb (ipv4_compare_ip destination_ip ip =? 0) then
      mac ← gets my_mac;
      frame_length ← runbuf (icmp_build_ping_reply mac ip rx_addr tx_addr);
      eth_mac_send fuel tx_addr frame_length;;
      mret 1
    else mret 0
  else mret 0.

End Protocol.

(** ** Lemmas *)

(** The number of bytes of the frame, from the length field of the IP header. *)
Definition frame_len (m : buf) (rx : Z) : Z := 14 + fw m rx 16.

Lemma field_lor m a b :
  (mem_iord_byte m a << 8) .| mem_iord_byte m b = mem_iord_byte m a * 256 + mem_iord_byte m b.
Proof. rewrite lor_shl by (lia || apply mem_iord_byte_range). done. Qed.

Lemma icmp_reply_length mymac myip rx tx m :
  fst (icmp_build_ping_reply mymac myip rx tx m) = frame_len m rx.
Proof.
  unfold icmp_build_ping_reply, frame_len. cbn [fst]. rewrite field_lor.
  change (mem_iord_byte m (rx + 16) * 256 + mem_iord_byte m (rx + 17)) with (fw m rx 16).
  pose proof (fw_range m rx 16). apply u32_small. lia.
Qed.

(** The new checksum field. *)
Definition ping_checksum (c : Z) : Z := u16 (c + 0x0800).

(** Byte [k] of the reply to the request [f]. *)
Definition ping_reply_byte (mymac myip : list Z) (f : Z -> Z) (k : Z) : Z :=
  if k <? 6 then f (6 + k)
  else if k <? 12 then arr mymac (k - 6)
  else if k <? 26 then f k
  else if k <? 30 then arr myip (k - 26)
  else if k <? 34 then f (k - 4)
  else if k <? 35 then 0
  else if k <? 36 then f k
  else if k <? 37 then ping_checksum (f 36 * 256 + f 37) / 256
  else if k <? 38 then ping_checksum (f 36 * 256 + f 37) mod 256
  else f k.

Lemma icmp_reply_bytes mymac myip rx tx m :
  bytes mymac -> bytes myip -> 38 <= frame_len m rx ->
  in_buffer rx (frame_len m rx) -> in_buffer tx (frame_len m rx) ->
  same_or_apart rx tx (frame_len m rx) ->
  forall k, 0 <= k < frame_len m rx ->
  fb (snd (icmp_build_ping_reply mymac myip rx tx m)) tx k =
  ping_reply_byte mymac myip (fb m rx) k.
Proof.
  intros Hmac Hip Hlen Hrx Htx Hd k Hk.
  pose proof (icmp_reply_length mymac myip rx tx m) as El. unfold icmp_build_ping_reply in El |- *.
  cbn [fst] in El. rewrite El. cbn [snd]. clear El. set (n := frame_len m rx) in *.
  pose proof (copy_frame m rx tx n ltac:(lia) Hrx Htx Hd) as Hcopy. cbv zeta in Hcopy.
  set (m1 := if negb (rx =? tx) then _ else m) in *. destruct Htx as [Ht0 Ht1].
  pose proof (move_loop m1 tx 0 6 6 mymac) as Hsw. cbv zeta in Hsw. rewrite !Z.add_0_r in Hsw.
  set (m2 := for_ 6 _ m1) in *.
  pose proof (move_loop m2 tx 30 26 4 myip) as Hip2. cbv zeta in Hip2.
  set (m3 := for_ 4 _ m2) in *. cbv zeta.
  set (m4 := mem_iowr_byte (tx + 34) 0 m3).
  assert (forall j, 0 <= j < n -> fb m4 tx j = if j =? 34 then 0 else fb m3 tx j) as H4.
  { intros j Hj. unfold m4. rewrite fb_wrb by lia. by rewrite (Z.eqb_sym 34 j). }
  assert (forall j, 38 <= j < n \/ 35 <= j < 38 -> fb m4 tx j = fb m rx j) as Htail.
  { intros j Hj. assert (35 <= j < n) as Hj' by lia. clear Hj.
    rewrite H4, Hip2 by lia. zif. rewrite Hsw by lia. zif. apply Hcopy. lia. }
  rewrite field_lor. fold (fb m4 tx 36) (fb m4 tx 37). rewrite !Htail by lia.
  assert (u16 (~~ ((~~ u16 (fb m rx 36 * 256 + fb m rx 37)) - 2048)) =
          ping_checksum (fb m rx 36 * 256 + fb m rx 37)) as ->.
  { unfold ping_checksum, Z.lnot. pose proof (fb_range m rx 36). pose proof (fb_range m rx 37).
    rewrite (u16_small (fb m rx 36 * 256 + fb m rx 37)) by lia. f_equal. lia. }
  set (c := ping_checksum _). pose proof (u16_range (fb m rx 36 * 256 + fb m rx 37 + 2048)) as Hc.
  fold (ping_checksum (fb m rx 36 * 256 + fb m rx 37)) in Hc. fold c in Hc.
  rewrite !fb_wrb by lia. rewrite land_ff, shr_div by lia. change (2 ^ 8) with 256.
  rewrite !u8_small by zdm. unfold ping_reply_byte. fold c.
  destruct (Z.leb_spec 38 k) as [H38|H38].
  { zif. apply Htail. lia. }
  assert (k < 6 \/ 6 <= k < 12 \/ 12 <= k < 26 \/ 26 <= k < 30 \/ 30 <= k < 34 \/ k = 34
          \/ k = 35 \/ k = 36 \/ k = 37) as Hr by lia.
  destruct Hr as [Hr|[Hr|[Hr|[Hr|[Hr|[->|[->|[->| ->]]]]]]]]; zif; try done;
    rewrite ?H4, ?Hip2 by lia; zif; rewrite ?Hsw by lia; zif;
    rewrite ?u8_small by (by apply arr_byte); rewrite ?Hcopy by lia;
    try done; try (f_equal; lia).
Qed.

(** ** Theorems *)

(** The IP header of the reply has the words of the request's, in another order. *)
Lemma ping_ip_sum myip f g base base' m m' :
  (forall k, 14 <= k < 34 -> fb m' base' k = g k) -> (forall k, 14 <= k < 34 -> fb m base k = f k) ->
  (forall k, 14 <= k < 26 -> g k = f k) ->
  (forall k, 26 <= k < 30 -> g k = arr myip (k - 26)) ->
  (forall k, 30 <= k < 34 -> g k = f (k - 4)) ->
  (forall k, 30 <= k < 34 -> f k = arr myip (k - 30)) ->
  zsum (ip_header m' base') = zsum (ip_header m base).
Proof.
  intros Hg Hf H1 H2 H3 H4. unfold ip_header. change 10 with (6 + (2 + 2)).
  rewrite !frame_words_app, !zsum_app by lia.
  rewrite (frame_words_ext2 m' m base' base 14 6)
    by (intros i Hi; rewrite Hg, Hf, H1 by lia; done).
  change (14 + 2 * 6) with 26. change (26 + 2 * 2) with 30.
  rewrite !(zsum_words_cons _ _ _ 2), !(zsum_words_cons _ _ _ (2 - 1)) by lia.
  change (2 - 1 - 1) with 0. change (frame_words m' base' _ 0) with (@nil Z).
  change (frame_words m base _ 0) with (@nil Z). unfold fw.
  rewrite !Hg, !Hf by lia.
  rewrite (H2 26), (H2 (26 + 1)), (H2 (26 + 2)), (H2 (26 + 2 + 1)) by lia.
  rewrite (H3 30), (H3 (30 + 1)), (H3 (30 + 2)), (H3 (30 + 2 + 1)) by lia.
  rewrite (H4 30), (H4 (30 + 1)), (H4 (30 + 2)), (H4 (30 + 2 + 1)) by lia.
  change (30 + 1 - 4) with (26 + 1). change (30 + 2 - 4) with (26 + 2).
  change (30 + 2 + 1 - 4) with (26 + 2 + 1). change (30 - 4) with 26.
  change (30 + 1 - 30) with (26 + 1 - 26). change (30 + 2 - 30) with (26 + 2 - 26).
  change (30 + 2 + 1 - 30) with (26 + 2 + 1 - 26). change (30 - 30) with (26 - 26). lia.
Qed.

(** Claim C33. The ping reply: it keeps the length of the request, goes back to
    where the request came from, carries the request's identifier, sequence number
    and data, and its IP header is valid when the request's is. *)
Theorem icmp_reply_correct mymac myip rx tx m :
  length mymac = 6%nat -> length myip = 4%nat -> bytes mymac -> bytes myip ->
  42 <= frame_len m rx -> in_buffer rx (frame_len m rx) -> in_buffer tx (frame_len m rx) ->
  same_or_apart rx tx (frame_len m rx) -> ipv4_get_destination_ip m rx = myip ->
  let m' := snd (icmp_build_ping_reply mymac myip rx tx m) in
  fst (icmp_build_ping_reply mymac myip rx tx m) = frame_len m rx /\
  mac_addr_dest m' tx = mac_addr_sender m rx /\ mac_addr_sender m' tx = mymac /\
  ipv4_get_source_ip m' tx = myip /\
  ipv4_get_destination_ip m' tx = ipv4_get_source_ip m rx /\
  icmp_get_type m' tx = 0 /\ icmp_get_code m' tx = icmp_get_code m rx /\
  (forall k, 38 <= k < frame_len m rx -> fb m' tx k = fb m rx k) /\
  ipv4_verify_checksum m' tx = ipv4_verify_checksum m rx.
Proof.
  intros Hl6 Hl4 Hmac Hip Hn Hrx Htx Hd Hdst m'.
  pose proof (icmp_reply_bytes mymac myip rx tx m Hmac Hip ltac:(lia) Hrx Htx Hd) as Hb.
  fold m' in Hb. set (n := frame_len m rx) in *.
  assert (forall k, 0 <= k < n -> mem_iord_byte m' (tx + k) = ping_reply_byte mymac myip (fb m rx) k)
    as Hb' by exact Hb.
  split; [apply icmp_reply_length|].
  split.
  { unfold mac_addr_dest, mac_addr_sender.
    assert (forall i, 0 <= i < 6 -> mem_iord_byte m' (tx + i) = mem_iord_byte m (rx + 6 + i)) as H6.
    { intros i Hi. rewrite Hb' by lia. unfold ping_reply_byte, fb. zif. f_equal. lia. }
    by rewrite !H6 by lia. }
  split.
  { unfold mac_addr_sender.
    assert (forall i, 0 <= i < 6 -> mem_iord_byte m' (tx + 6 + i) = arr mymac i) as H6.
    { intros i Hi. rewrite <- Z.add_assoc, Hb' by lia. unfold ping_reply_byte. zif. f_equal. lia. }
    rewrite !H6 by lia. by destruct mymac as [|a0 [|a1 [|a2 [|a3 [|a4 [|a5 [|]]]]]]]. }
  split.
  { apply byte_list_eq; [lia|done|]. intros i Hi. rewrite Hb by lia.
    unfold ping_reply_byte. zif. f_equal. lia. }
  split.
  { apply list_fmap_ext. intros i x [-> Hi]%lookup_seqZ. rewrite <- Z.add_assoc, Hb' by lia.
    unfold ping_reply_byte, fb. zif. f_equal. lia. }
  split; [unfold icmp_get_type; by rewrite Hb' by lia|].
  split; [unfold icmp_get_code; by rewrite Hb' by lia|].
  split; [intros k Hk; rewrite Hb by lia; unfold ping_reply_byte; by zif|].
  rewrite !ipv4_verify_checksum_eq.
  rewrite (ping_ip_sum myip (fb m rx) (ping_reply_byte mymac myip (fb m rx)) rx tx m m');
    [done|..]; intros k Hk; try (apply Hb; lia); try done;
    try (unfold ping_reply_byte; zif; done).
  rewrite <- Hdst. unfold ipv4_get_destination_ip. rewrite arr_byte_list by lia.
  unfold fb. f_equal. lia.
Qed.

(** The checksum of the ping reply is right exactly when the request's
    checksum is below 0xF800: the code adds 0x0800 without the end-around carry. *)
Theorem icmp_reply_checksum_iff mymac myip rx tx m n :
  bytes mymac -> bytes myip -> fw m rx 16 = 20 + 2 * n -> 4 <= n ->
  in_buffer rx (frame_len m rx) -> in_buffer tx (frame_len m rx) ->
  same_or_apart rx tx (frame_len m rx) -> icmp_get_type m rx = 8 ->
  oc_sum (frame_words m rx 34 n) = 0xFFFF ->
  let m' := snd (icmp_build_ping_reply mymac myip rx tx m) in
  oc_sum (frame_words m' tx 34 n) = 0xFFFF <-> fw m rx 36 < 0xF800.
Proof.
  intros Hmac Hip Hlen Hn Hrx Htx Hd Hty Hok m'.
  assert (frame_len m rx = 34 + 2 * n) as El by (unfold frame_len; lia).
  pose proof (icmp_reply_bytes mymac myip rx tx m Hmac Hip ltac:(lia) Hrx Htx Hd) as Hb.
  fold m' in Hb. rewrite El in Hb.
  rewrite oc_sum_norm in Hok |- * by apply frame_words_range.
  rewrite (zsum_words_cons _ _ 34), (zsum_words_cons _ _ (34 + 2)) in Hok by lia.
  rewrite (zsum_words_cons _ _ 34), (zsum_words_cons _ _ (34 + 2)) by lia.
  change (34 + 2) with 36 in *. change (36 + 2) with 38 in *.
  rewrite (frame_words_ext2 m' m tx rx 38).
  2:{ intros i Hi. rewrite Hb by lia. unfold ping_reply_byte. by zif. }
  pose proof (fw_range m rx 36) as Hr36.
  assert (fw m' tx 34 = fw m rx 34 - 0x800 /\ fw m' tx 36 = ping_checksum (fw m rx 36)) as [-> ->].
  { unfold fw in Hr36 |- *. change (34 + 1) with 35. change (36 + 1) with 37 in *. rewrite !Hb by lia.
    unfold ping_reply_byte. zif. unfold icmp_get_type in Hty. fold (fb m rx 34) in Hty.
    rewrite Hty. split; [lia|]. set (c := ping_checksum _). zdm. }
  pose proof (zsum_nonneg _ (frame_words_range m rx 38 (n - 1 - 1))) as Hz.
  assert (2048 <= fw m rx 34) as H34.
  { unfold fw. unfold icmp_get_type in Hty. fold (fb m rx 34) in Hty. rewrite Hty.
    pose proof (fb_range m rx (34 + 1)). lia. }
  revert Hok Hr36 H34. generalize dependent (zsum (frame_words m rx 38 (n - 1 - 1))).
  generalize (fw m rx 34), (fw m rx 36). intros a c z Hz Hok Hc Ha.
  unfold ping_checksum, oc_norm in *. revert Hok. dec_bool; intros Hok; split; intros; zdm.
Qed.

(** What a host does with a received ICMP frame: a ping request for its
    address is answered with exactly one transmission of the reply; everything else
    is ignored. *)
Theorem icmp_process_received_spec `{Env} bound `{!TxLive bound} fuel rx tx s :
  length (my_ip s) = 4%nat -> (bound + 2 <= fuel)%nat ->
  let t := set_buff (fun m => snd (icmp_build_ping_reply (my_mac s) (my_ip s) rx tx m)) s in
  if decide (icmp_get_type (buff s) rx = 8 /\ ipv4_get_destination_ip (buff s) rx = my_ip s) then
    exists s', icmp_process_received fuel rx tx s = Some (1, s') /\
      tx_log (hist s') = TxFrame (u32 tx) (u16 (frame_len (buff s) rx))
        (buff (tx_armed tx t)) :: tx_log (hist s) /\
      same_globals s s'
  else icmp_process_received fuel rx tx s = Some (0, s).
Proof.
  intros Hl Hf t. unfold icmp_process_received. rewrite bind_rdbuf.
  destruct (Z.eqb_spec (icmp_get_type (buff s) rx) 8) as [E8|E8];
    [|rewrite decide_False by tauto; reflexivity].
  rewrite bind_rdbuf, bind_gets, ipv4_compare_ip_eq by (done || apply byte_list_length).
  destruct (decide (ipv4_get_destination_ip (buff s) rx = my_ip s)) as [Ed|Ed];
    [rewrite decide_True by tauto|rewrite decide_False by tauto; reflexivity].
  change (negb (1 =? 0)) with true. cbv iota. rewrite bind_gets, bind_runbuf.
  rewrite icmp_reply_length. fold t.
  destruct (eth_mac_send_total fuel tx (frame_len (buff s) rx) t Hf) as (k & _ & E).
  rewrite (bind_some _ _ _ _ _ E).
  exists (tx_done k tx (frame_len (buff s) rx) t). split; [reflexivity|].
  split; [|apply (same_globals_tx_done k tx (frame_len (buff s) rx) t)].
  unfold tx_done. rewrite tx_log_polls, tx_log_started. reflexivity.
Qed.

(** ** Witnesses *)

(** A ping request of 42 bytes for the initial address, in a buffer at 0. *)
Definition ping_request (checksum : Z) : buf :=
  {[ 3 := 0x08004500; 4 := 0x001C1111; 5 := 0x40004001; 6 := 0x00000A00;
     7 := 0x0001C0A8; 8 := 0x18320800; 9 := checksum * 65536 + (65535 - 0x800 - checksum) ]}.

Lemma icmp_reply_correct_witness :
  let m := ping_request 0x1234 in
  let m' := snd (icmp_build_ping_reply my_mac_init my_ip_init 0 0x800 m) in
  fst (icmp_build_ping_reply my_mac_init my_ip_init 0 0x800 m) = frame_len m 0 /\
  mac_addr_dest m' 0x800 = mac_addr_sender m 0 /\ mac_addr_sender m' 0x800 = my_mac_init /\
  ipv4_get_source_ip m' 0x800 = my_ip_init /\
  ipv4_get_destination_ip m' 0x800 = ipv4_get_source_ip m 0 /\
  icmp_get_type m' 0x800 = 0 /\ icmp_get_code m' 0x800 = icmp_get_code m 0 /\
  (forall k, 38 <= k < frame_len m 0 -> fb m' 0x800 k = fb m 0 k) /\
  ipv4_verify_checksum m' 0x800 = ipv4_verify_checksum m 0.
Proof.
  intros m m'. assert (frame_len m 0 = 42) as E by reflexivity.
  apply (icmp_reply_correct my_mac_init my_ip_init 0 0x800 m);
    try rewrite E; try reflexivity; try (split; lia); try (repeat constructor; lia); try lia.
Defined.

Lemma icmp_reply_checksum_iff_witness :
  let m := ping_request 0xF7FF in
  let m' := snd (icmp_build_ping_reply my_mac_init my_ip_init 0 0x800 m) in
  oc_sum (frame_words m' 0x800 34 4) = 0xFFFF <-> fw m 0 36 < 0xF800.
Proof.
  intros m m'. assert (frame_len m 0 = 42) as E by reflexivity.
  apply (icmp_reply_checksum_iff my_mac_init my_ip_init 0 0x800 m 4);
    try rewrite E; try reflexivity; try (split; lia); try (repeat constructor; lia); try lia.
Defined.

Lemma icmp_process_received_spec_witness :
  let s := set_buff (fun _ => ping_request 0x1234) init_machine in
  let t := set_buff (fun m => snd (icmp_build_ping_reply (my_mac s) (my_ip s) 0 0x800 m)) s in
  exists s', @icmp_process_received quiet_env 2 0 0x800 s = Some (1, s') /\
    tx_log (hist s') = TxFrame (u32 0x800) (u16 42) (buff (@tx_armed quiet_env 0x800 t))
                       :: tx_log (hist s) /\
    same_globals s s'.
Proof.
  intros s t.
  assert (frame_len (buff s) 0 = 42) as E by reflexivity.
  pose proof (@icmp_process_received_spec quiet_env 0 quiet_live 2 0 0x800 s eq_refl ltac:(lia)) as Hs.
  cbv zeta in Hs. rewrite decide_True in Hs by (split; reflexivity). rewrite E in Hs. exact Hs.
Defined.
