(* ===== verification/Segment.v ===== *)
(** * Segments: what udp.c and tcp.c share

    The checksum of a UDP datagram and a TCP segment is taken over the addresses of
    the IP header, the protocol number, the length and the segment, whose checksum
    field is at a different place in the two protocols. The segment starts at byte
    34 of the frame. *)

From stdpp Require Import base gmap list numbers.
From S2P Require Import Prelude Machine EthIO Frame Mac Checksum Arp.
Local Open Scope Z_scope.
Local Open Scope c_scope.

(** ** The checksum of a segment *)

(** A segment of odd length is padded with a zero byte in the buffer. *)
Definition seg_pad (pkt_addr seg_length : Z) (m : buf) : buf :=
  if (seg_length .& 0x1) =? 0 then m else mem_iowr_byte (pkt_addr + seg_length + 34) 0x00 m.

Definition seg_words (seg_length : Z) : Z := (seg_length + 1) / 2.

Lemma fb_pad base seg_length m k :
  0 <= base -> 0 <= seg_length -> base + seg_length + 34 < 0x100000000 ->
  0 <= k -> base + k < 0x100000000 ->
  fb (seg_pad base seg_length m) base k =
  if negb (Z.even seg_length) && (seg_length + 34 =? k) then 0 else fb m base k.
Proof.
  intros. unfold seg_pad. rewrite land_1.
  destruct (Z.even seg_length) eqn:Ev.
  - apply Z.even_spec in Ev as [q ->]. rewrite Z.mul_comm, Z_mod_mult. done.
  - assert (seg_length mod 2 = 1) as ->.
    { rewrite Zmod_odd. rewrite <- Z.negb_even, Ev. done. }
    rewrite <- Z.add_assoc. change (1 =? 0) with false. cbv iota. rewrite fb_wrb by lia. done.
Qed.

(** The sum over pseudo header and segment. *)
Definition seg_sum (m : buf) (base proto l : Z) : Z :=
  zsum (frame_words m base 34 (seg_words l)) + zsum (frame_words m base 26 4) + proto + l.

(** The segment is valid: the 16-bit words add up to 0xFFFF in one's complement. *)
Definition seg_valid (m : buf) (base proto l : Z) : Prop :=
  oc_sum (frame_words (seg_pad base l m) base 34 (seg_words l) ++ frame_words m base 26 4
          ++ [proto; l]) = 0xFFFF.

(** The sum without the checksum field, which is word [ck] of the segment. *)
Definition seg_rest (m : buf) (base ck proto l : Z) : Z :=
  zsum (frame_words m base 34 ck) + zsum (frame_words m base (36 + 2 * ck) (seg_words l - ck - 1))
  + zsum (frame_words m base 26 4) + proto + l.

Lemma seg_words_range l ck : 0 <= ck -> 2 * ck + 2 <= l < 65535 -> ck + 1 <= seg_words l <= 32768.
Proof. unfold seg_words. intros. zdm. Qed.

Section Sums.
Context (ck proto : Z) (Hck : 0 <= ck) (Hpr : 0 <= proto < 256).

Lemma seg_sum_split m base l :
  2 * ck + 2 <= l < 65535 -> seg_sum m base proto l = seg_rest m base ck proto l + fw m base (34 + 2 * ck).
Proof.
  intros Hl. pose proof (seg_words_range l ck Hck Hl). unfold seg_sum, seg_rest.
  replace (seg_words l) with (ck + (1 + (seg_words l - ck - 1))) at 1 by lia.
  rewrite !frame_words_app, !zsum_app by lia.
  rewrite (zsum_words_cons _ _ _ 1) by lia.
  change (frame_words m base (34 + 2 * ck + 2) (1 - 1)) with (@nil Z). change (zsum []) with 0.
  replace (34 + 2 * ck + 2 * 1) with (36 + 2 * ck) by lia. lia.
Qed.

Lemma seg_rest_range m base l :
  2 * ck + 2 <= l < 65535 ->
  zsum (frame_words m base 26 4) + proto + l <= seg_rest m base ck proto l <= 65535 * 32776.
Proof.
  intros Hl. pose proof (seg_words_range l ck Hck Hl). unfold seg_rest.
  pose proof (zsum_nonneg _ (frame_words_range m base 34 ck)) as H1.
  pose proof (zsum_nonneg _ (frame_words_range m base 26 4)) as H2.
  pose proof (zsum_nonneg _ (frame_words_range m base (36 + 2 * ck) (seg_words l - ck - 1))) as H3.
  rewrite frame_words_length in H1, H2, H3 by lia. lia.
Qed.

Lemma seg_rest_nonneg m base l : 2 * ck + 2 <= l < 65535 -> 0 <= seg_rest m base ck proto l.
Proof.
  intros Hl. pose proof (seg_rest_range m base l Hl).
  pose proof (zsum_nonneg _ (frame_words_range m base 26 4)). lia.
Qed.

Lemma seg_rest_ext m m' base base' l :
  2 * ck + 2 <= l < 65535 ->
  (forall k, 26 <= k < 34 + 2 * seg_words l -> k <> 34 + 2 * ck -> k <> 35 + 2 * ck ->
             fb m base k = fb m' base' k) ->
  seg_rest m base ck proto l = seg_rest m' base' ck proto l.
Proof.
  intros Hl E. pose proof (seg_words_range l ck Hck Hl). unfold seg_rest.
  rewrite (frame_words_ext2 m m' base base' 34), (frame_words_ext2 m m' base base' (36 + 2 * ck)),
    (frame_words_ext2 m m' base base' 26); [done|..]; intros i Hi; apply E; lia.
Qed.

(** Bytes of a padded segment up to its checksum. *)
Lemma fb_pad_low m base l k :
  0 <= base -> base + 65600 < 0x80000000 -> 2 * ck + 2 <= l < 65535 -> 0 <= k < 36 + 2 * ck ->
  fb (seg_pad base l m) base k = fb m base k.
Proof.
  intros. rewrite fb_pad by lia. destruct (Z.even l) eqn:Ev; [done|]. cbn [negb andb].
  destruct (Z.eqb_spec (l + 34) k); [|done]. lia.
Qed.

(** Storing the complement of the rest makes the segment valid, and it stays valid
    wherever its bytes are delivered. *)
Lemma seg_fill_sum m base l :
  0 <= base -> base + 65600 < 0x80000000 -> 2 * ck + 2 <= l < 65535 ->
  let p := seg_pad base l m in
  let q := put16 (base + (34 + 2 * ck)) (65535 - oc_norm (seg_rest p base ck proto l)) p in
  oc_norm (seg_sum (seg_pad base l q) base proto l) = 65535.
Proof.
  intros Hb Hh Hl p q. rewrite seg_sum_split by done. pose proof (seg_words_range l ck Hck Hl).
  pose proof (oc_norm_range (seg_rest p base ck proto l)) as Hc.
  set (c := 65535 - _) in q.
  assert (forall k, 0 <= k < 65600 -> k <> 34 + 2 * ck -> k <> 35 + 2 * ck ->
          fb q base k = fb p base k) as Hq.
  { intros k Hk H1 H2. unfold q. rewrite fb_put16 by lia. zif. done. }
  assert (fw (seg_pad base l q) base (34 + 2 * ck) = c) as ->.
  { unfold fw. rewrite !fb_pad_low by lia. apply (fw_put16 p base (34 + 2 * ck) c); unfold c; lia. }
  rewrite (seg_rest_ext (seg_pad base l q) p base base l) by (done ||
    (intros k Hk H1 H2; rewrite fb_pad, Hq by lia; unfold p; rewrite fb_pad by lia;
     by destruct (negb (Z.even l) && (l + 34 =? k)))).
  apply oc_norm_complete. by apply seg_rest_nonneg.
Qed.

Lemma seg_sum_delivered m base m' base' l :
  delivered m base m' base' (34 + l) -> 2 * ck + 2 <= l < 65535 ->
  0 <= base -> base + 65600 < 0x80000000 -> 0 <= base' -> base' + 65600 < 0x80000000 ->
  seg_sum (seg_pad base' l m') base' proto l = seg_sum (seg_pad base l m) base proto l.
Proof.
  intros Hd Hl Hb Hh Hb' Hh'. rewrite !seg_sum_split by lia.
  pose proof (seg_words_range l ck Hck Hl).
  rewrite (seg_rest_ext (seg_pad base' l m') (seg_pad base l m) base' base l).
  - unfold fw. rewrite !fb_pad_low, !Hd by lia. done.
  - lia.
  - intros k Hk H1 H2. rewrite !fb_pad by lia.
    destruct (Z.even l) eqn:Ev; cbn [negb andb].
    + apply Hd. apply Z.even_spec in Ev as [q Eq]. unfold seg_words in *. zdm.
    + destruct (Z.eqb_spec (l + 34) k); [done|]. apply Hd. unfold seg_words in *. zdm.
Qed.

Lemma seg_valid_norm m base l :
  0 <= base -> base + 65600 < 0x80000000 -> 2 * ck + 2 <= l < 65535 ->
  seg_valid m base proto l <-> oc_norm (seg_sum (seg_pad base l m) base proto l) = 65535.
Proof.
  intros Hb Hh Hl. unfold seg_valid.
  rewrite oc_sum_norm by (repeat (apply Forall_app; split); try apply frame_words_range;
                          repeat constructor; lia).
  rewrite !zsum_app. unfold seg_sum.
  rewrite (frame_words_ext (seg_pad base l m) m base 26 4) by (intros; apply fb_pad_low; lia).
  change (zsum [proto; l]) with (0 + proto + l).
  replace (zsum (frame_words (seg_pad base l m) base 34 (seg_words l)) +
           (zsum (frame_words m base 26 4) + (0 + proto + l)))
    with (zsum (frame_words (seg_pad base l m) base 34 (seg_words l)) +
          zsum (frame_words m base 26 4) + proto + l) by lia. done.
Qed.

End Sums.

(** ** Headers made of 16-bit fields *)

(** The two halves of a word put together from bytes or fields. *)
Lemma halves_bytes a b c d :
  0 <= a < 256 -> 0 <= b < 256 -> 0 <= c < 256 -> 0 <= d < 256 ->
  let v := (a << 24) .| (b << 16) .| (c << 8) .| d in
  v / 65536 mod 65536 = a * 256 + b /\ v mod 65536 = c * 256 + d.
Proof. intros. unfold v. rewrite word_of_bytes by lia. split; zdm. Qed.

Lemma halves_fields h l :
  0 <= h < 65536 -> 0 <= l < 65536 ->
  let v := (h << 16) .| l in v / 65536 mod 65536 = h /\ v mod 65536 = l.
Proof. intros. unfold v. rewrite lor_shl by lia. split; zdm. Qed.

Lemma halves_ip_port a b p :
  0 <= a < 256 -> 0 <= b < 256 -> 0 <= p < 65536 ->
  let v := (a << 24) .| (b << 16) .| p in
  v / 65536 mod 65536 = a * 256 + b /\ v mod 65536 = p.
Proof.
  intros. unfold v. rewrite !shl_mul by lia. rewrite (lor_add (a * 2 ^ 24) (b * 2 ^ 16) 24) by zdm.
  rewrite (lor_add _ p 16) by zdm. split; zdm.
Qed.

Lemma halves_low a b :
  0 <= a < 256 -> 0 <= b < 256 ->
  let v := (a << 8) .| b in v / 65536 mod 65536 = 0 /\ v mod 65536 = a * 256 + b.
Proof. intros. unfold v. rewrite lor_shl by lia. split; zdm. Qed.

Ltac word_halves :=
  lazymatch goal with
  | |- context [(_ << 24) .| (_ << 16) .| (_ << 8) .| _] => apply halves_bytes
  | |- context [(_ << 24) .| (_ << 16) .| _] => apply halves_ip_port
  | |- context [(_ << 16) .| _] => apply halves_fields
  | |- context [(_ << 8) .| _] => apply halves_low
  | |- _ => vm_compute; reflexivity
  end.

(** Fields that hold an array hold its bytes. *)
Lemma fields_bytes m base off n l :
  bytes l ->
  (forall w, 0 <= w < n -> fw m base (off + 2 * w) = arr l (2 * w) * 256 + arr l (2 * w + 1)) ->
  forall i, 0 <= i < 2 * n -> fb m base (off + i) = arr l i.
Proof.
  intros Hl Hw i Hi. specialize (Hw (i / 2) ltac:(zdm)).
  pose proof (arr_byte l (2 * (i / 2)) Hl). pose proof (arr_byte l (2 * (i / 2) + 1) Hl).
  unfold fw in Hw. pose proof (fb_range m base (off + 2 * (i / 2))).
  pose proof (fb_range m base (off + 2 * (i / 2) + 1)).
  assert (i = 2 * (i / 2) \/ i = 2 * (i / 2) + 1) as [E|E] by zdm; rewrite E at 1 2; rewrite ?Z.add_assoc; lia.
Qed.

Lemma mac_addr_dest_list m base :
  mac_addr_dest m base = (fun i => mem_iord_byte m (base + 0 + i)) <$> seqZ 0 6.
Proof. cbn -[mem_iord_byte]. by rewrite !Z.add_0_r. Qed.

Lemma mac_addr_sender_list m base :
  mac_addr_sender m base = (fun i => mem_iord_byte m (base + 6 + i)) <$> seqZ 0 6.
Proof. reflexivity. Qed.
