(* ===== verification/Udp.v ===== *)
(** * UDP: src/c/ethlib/udp.c

    Access to the fields of a UDP frame, its checksum, and the three routines that
    send a datagram. *)

From stdpp Require Import base gmap list numbers.
From S2P Require Import Prelude Machine EthIO Frame MacDriver Mac Checksum Ipv4 Arp Segment.
Local Open Scope Z_scope.
Local Open Scope c_scope.

(** ** Definitions *)

(** [udphead_t] and [udp_t] of udp.h. *)
Record udphead_t := UdpHead {
  uh_source_port : Z;
  uh_destination_port : Z;
  uh_data_length : Z;
  uh_checksum : Z
}.

Record udp_t := UdpPacket {
  ip_head : iphead_t;
  udp_head : udphead_t;
  data : list Z
}.

(** The initial value of [ipv4_id]. *)
Definition ipv4_id_init : Z := 0x1111.

Definition udp_get_source_port (m : buf) (pkt_addr : Z) : Z :=
  u16 (mem_iord m (pkt_addr + 32) .& 0x0000FFFF).

Definition udp_get_destination_port (m : buf) (pkt_addr : Z) : Z :=
  u16 (mem_iord m (pkt_addr + 36) >> 16).

Definition udp_get_packet_length (m : buf) (pkt_addr : Z) : Z :=
  u16 (mem_iord m (pkt_addr + 36) .& 0x0000FFFF).

Definition udp_get_checksum (m : buf) (pkt_addr : Z) : Z :=
  u16 (mem_iord m (pkt_addr + 40) >> 16).

Definition udp_get_data_length (m : buf) (pkt_addr : Z) : Z :=
  u16 (udp_get_packet_length m pkt_addr - 8).

(** Undefined when the caller's array is too short. *)
Definition udp_get_data (m : buf) (pkt_addr : Z) (data : list Z) (data_length : Z)
    : option (Z * list Z) :=
  data ← fill data_length (fun i => mem_iord_byte m (pkt_addr + 42 + i)) data;
  Some (1, data).

(** [sizeof(udphead_t)] is 8. *)
Definition udp_build_packet (ipv4_id : Z) (packet : udp_t) (src_ip dst_ip : list Z)
    (src_port dst_port : Z) (data_ : list Z) (data_length : Z) : udp_t :=
  let h := ip_head packet in
  let h := IpHead 0x45 0x00 (u16 (20 + 8 + data_length)) ipv4_id 0x4000 0x40 0x11 0x0
    (<[3%nat := arr src_ip 3]> (<[2%nat := arr src_ip 2]>
      (<[1%nat := arr src_ip 1]> (<[0%nat := arr src_ip 0]> (source_ip h)))))
    (<[3%nat := arr dst_ip 3]> (<[2%nat := arr dst_ip 2]>
      (<[1%nat := arr dst_ip 1]> (<[0%nat := arr dst_ip 0]> (destination_ip h))))) in
  UdpPacket h (UdpHead src_port dst_port data_length 0x0)
    (copy_arr data_length data_ (data packet)).

Definition udp_compute_checksum (pkt_addr : Z) (m : buf) : Z * buf :=
  let udp_length := u16 (mem_iord m (pkt_addr + 36) .& 0xFFFF) in
  let even := (udp_length .& 0x1) =? 0 in
  let corrected_length := if even then udp_length else u16 (udp_length + 1) in
  let m := if even then m else mem_iowr_byte (pkt_addr + udp_length + 34) 0x00 m in
  let checksum := 0 in
  let checksum := for_by2 corrected_length (fun i checksum =>
    u32 (checksum + (mem_iord_byte m (pkt_addr + 34 + i) << 8)
         + (mem_iord_byte m (pkt_addr + 35 + i) .& 0xFF))) checksum in
  let checksum := u32 (checksum - (mem_iord_byte m (pkt_addr + 40) << 8)
                       + (mem_iord_byte m (pkt_addr + 41) .& 0xFF)) in
  let checksum := for_by2 4 (fun i checksum =>
    let checksum := u32 (checksum + (mem_iord_byte m (pkt_addr + 26 + i) << 8)
                         + (mem_iord_byte m (pkt_addr + 27 + i) .& 0xFF)) in
    u32 (checksum + (mem_iord_byte m (pkt_addr + 30 + i) << 8)
         + (mem_iord_byte m (pkt_addr + 31 + i) .& 0xFF))) checksum in
  let checksum := u32 (checksum + 0x0011 + udp_length) in
  (u16 (finish_checksum checksum), m).

Definition udp_verify_checksum (pkt_addr : Z) (m : buf) : Z * buf :=
  let udp_length := u16 (mem_iord m (pkt_addr + 36) .& 0xFFFF) in
  let even := (udp_length .& 0x1) =? 0 in
  let corrected_length := if even then udp_length else u16 (udp_length + 1) in
  let m := if even then m else mem_iowr_byte (pkt_addr + udp_length + 34) 0x00 m in
  let checksum := 0 in
  let checksum := for_by2 corrected_length (fun i checksum =>
    u32 (checksum + (mem_iord_byte m (pkt_addr + 34 + i) << 8)
         + (mem_iord_byte m (pkt_addr + 35 + i) .& 0xFF))) checksum in
  let checksum := for_by2 4 (fun i checksum =>
    let checksum := u32 (checksum + (mem_iord_byte m (pkt_addr + 26 + i) << 8)
                         + (mem_iord_byte m (pkt_addr + 27 + i) .& 0xFF)) in
    u32 (checksum + (mem_iord_byte m (pkt_addr + 30 + i) << 8)
         + (mem_iord_byte m (pkt_addr + 31 + i) .& 0xFF))) checksum in
  let checksum := u32 (checksum + 0x0011 + udp_length) in
  (if finish_checksum checksum =? 0 then 1 else 0, m).

(** The statements the three send routines have in common: from "MAC addrs" to "UDP
    Data" the header is written to the buffer as words, *)
Definition udp_write_header (tx_addr : Z) (dmac smac sip dip : list Z)
    (source_port destination_port id ip_length udp_length : Z) (m : buf) : buf :=
  let m := mem_iowr tx_addr
    ((arr dmac 0 << 24) .| (arr dmac 1 << 16) .| (arr dmac 2 << 8) .| arr dmac 3) m in
  let m := mem_iowr (tx_addr + 4)
    ((arr dmac 4 << 24) .| (arr dmac 5 << 16) .| (arr smac 0 << 8) .| arr smac 1) m in
  let m := mem_iowr (tx_addr + 8)
    ((arr smac 2 << 24) .| (arr smac 3 << 16) .| (arr smac 4 << 8) .| arr smac 5) m in
  let m := mem_iowr (tx_addr + 12) 0x08004500 m in
  let m := mem_iowr (tx_addr + 16) ((ip_length << 16) .| id) m in
  let m := mem_iowr (tx_addr + 20) 0x40004011 m in
  let m := mem_iowr (tx_addr + 24) ((arr sip 0 << 8) .| arr sip 1) m in
  let m := mem_iowr (tx_addr + 28)
    ((arr sip 2 << 24) .| (arr sip 3 << 16) .| (arr dip 0 << 8) .| arr dip 1) m in
  let m := mem_iowr (tx_addr + 32) ((arr dip 2 << 24) .| (arr dip 3 << 16) .| source_port) m in
  let m := mem_iowr (tx_addr + 36) ((destination_port << 16) .| udp_length) m in
  mem_iowr (tx_addr + 40) 0x0000 m.

(** and then the data and the two checksums. *)
Definition udp_write_frame (tx_addr : Z) (dmac smac sip dip : list Z)
    (source_port destination_port id ip_length udp_length : Z) (data : list Z) (data_length : Z)
    (m : buf) : buf :=
  let m := udp_write_header tx_addr dmac smac sip dip source_port destination_port id
             ip_length udp_length m in
  let m := for_ data_length (fun i m => mem_iowr_byte (tx_addr + 42 + i) (arr data i) m) m in
  let checksum := ipv4_compute_checksum m tx_addr in
  let m := mem_iowr_byte (tx_addr + 24) (checksum >> 8) m in
  let m := mem_iowr_byte (tx_addr + 25) (checksum .& 0xFF) m in
  let '(checksum, m) := udp_compute_checksum tx_addr m in
  let m := mem_iowr_byte (tx_addr + 40) (checksum >> 8) m in
  mem_iowr_byte (tx_addr + 41) (checksum .& 0xFF) m.

Section Send.
Context `{Env}.

Definition udp_send (fuel : nat) (tx_addr rx_addr : Z) (destination_ip : list Z)
    (source_port destination_port : Z) (data : list Z) (data_length timeout : Z) : M Z :=
  tbl ← gets arp_table;
  let search := arp_table_search tbl destination_ip [0xFF; 0xFF; 0xFF; 0xFF; 0xFF; 0xFF] in
  destination_mac ←
    (if fst search =? 0 then
       r ← arp_resolve_ip fuel rx_addr tx_addr destination_ip timeout;
       if negb (r =? 0) then
         tbl ← gets arp_table;
         mret (snd (arp_table_search tbl destination_ip (snd search)))
       else mret (snd search)
     else mret (snd search));
  let udp_length := u16 (data_length + 8) in
  let ip_length := u16 (udp_length + 20) in
  let frame_length := u16 (ip_length + 14) in
  mac ← gets my_mac;
  ip ← gets my_ip;
  id ← gets ipv4_id;
  wrbuf (udp_write_frame tx_addr destination_mac mac ip destination_ip source_port
           destination_port id ip_length udp_length data data_length);;
  eth_mac_send fuel tx_addr frame_length;;
  modify (fun s => set_ipv4_id (u16 (ipv4_id s + 0x10000)) s);;
  mret 1.

Definition udp_send_mac (fuel : nat) (tx_addr rx_addr : Z) (destination_mac destination_ip : list Z)
    (source_port destination_port : Z) (data : list Z) (data_length timeout : Z) : M Z :=
  let udp_length := u16 (data_length + 8) in
  let ip_length := u16 (udp_length + 20) in
  let frame_length := u16 (ip_length + 14) in
  mac ← gets my_mac;
  ip ← gets my_ip;
  id ← gets ipv4_id;
  wrbuf (udp_write_frame tx_addr destination_mac mac ip destination_ip source_port
           destination_port id ip_length udp_length data data_length);;
  eth_mac_send fuel tx_addr frame_length;;
  modify (fun s => set_ipv4_id (u16 (ipv4_id s + 0x10000)) s);;
  mret 1.

Definition udp_send_packet (fuel : nat) (tx_addr rx_addr : Z) (packet : udp_t) (timeout : Z) : M Z :=
  let dip := destination_ip (ip_head packet) in
  tbl ← gets arp_table;
  let search := arp_table_search tbl dip [0xFF; 0xFF; 0xFF; 0xFF; 0xFF; 0xFF] in
  destination_mac ←
    (if fst search =? 0 then
       r ← arp_resolve_ip fuel rx_addr tx_addr dip timeout;
       if negb (r =? 0) then
         tbl ← gets arp_table;
         mret (snd (arp_table_search tbl dip (snd search)))
       else mret (snd search)
     else mret (snd search));
  let udp_length := u16 (uh_data_length (udp_head packet) + 8) in
  let ip_length := u16 (udp_length + 20) in
  let frame_length := u16 (ip_length + 14) in
  mac ← gets my_mac;
  id ← gets ipv4_id;
  wrbuf (udp_write_frame tx_addr destination_mac mac (source_ip (ip_head packet)) dip
           (uh_source_port (udp_head packet)) (uh_destination_port (udp_head packet))
           id ip_length udp_length (data packet) (uh_data_length (udp_head packet)));;
  eth_mac_send fuel tx_addr frame_length;;
  modify (fun s => set_ipv4_id (u16 (ipv4_id s + 0x10000)) s);;
  mret 1.

End Send.

(** ** Lemmas: the checksum *)

Lemma udp_length_field m base :
  0 <= base -> base mod 4 = 0 -> base + 36 < 0x80000000 ->
  u16 (mem_iord m (base + 36) .& 0xFFFF) = fw m base 38.
Proof.
  intros. rewrite mem_iord_fw by (lia || done). change (36 + 2) with 38. rewrite land_ffff.
  pose proof (fw_range m base 38). zdm.
Qed.

(** The accumulated words of the datagram. *)
Lemma udp_sum_loop m base udp_length :
  0 <= udp_length < 65535 ->
  for_by2 (if (udp_length .& 0x1) =? 0 then udp_length else u16 (udp_length + 1)) (fun i checksum =>
    u32 (checksum + (mem_iord_byte m (base + 34 + i) << 8)
         + (mem_iord_byte m (base + 35 + i) .& 0xFF))) 0
  = zsum (frame_words m base 34 (seg_words udp_length)).
Proof.
  intros Hl. unfold for_by2.
  assert (((if (udp_length .& 0x1) =? 0 then udp_length else u16 (udp_length + 1)) + 1) / 2
          = seg_words udp_length) as ->.
  { rewrite land_1. unfold seg_words. destruct (Z.eqb_spec (udp_length mod 2) 0); [done|].
    rewrite u16_small by lia. zdm. }
  assert (0 <= seg_words udp_length <= 32768) as Hw by (unfold seg_words; zdm).
  pose proof (checksum_loop m base 34 (seg_words udp_length) 0 ltac:(lia) ltac:(lia) ltac:(lia)) as E.
  change (34 + 1) with 35 in E. rewrite E, Z.add_0_l. reflexivity.
Qed.

(** The four words of the addresses. *)
Lemma udp_pseudo_loop m base c :
  0 <= c -> c + 262140 < 4294967296 ->
  for_by2 4 (fun i checksum =>
    let checksum := u32 (checksum + (mem_iord_byte m (base + 26 + i) << 8)
                         + (mem_iord_byte m (base + 27 + i) .& 0xFF)) in
    u32 (checksum + (mem_iord_byte m (base + 30 + i) << 8)
         + (mem_iord_byte m (base + 31 + i) .& 0xFF))) c
  = c + zsum (frame_words m base 26 4).
Proof.
  intros Hc Hb. rewrite for_by2_4. cbv zeta. rewrite !Z.add_0_r.
  pose proof (fw_range m base 26). pose proof (fw_range m base 28).
  pose proof (fw_range m base 30). pose proof (fw_range m base 32).
  rewrite <- !(Z.add_assoc base).
  change (26 + 2) with 28. change (30 + 2) with 32. change (27 + 2) with (28 + 1).
  change (31 + 2) with (32 + 1). change 31 with (30 + 1). change 27 with (26 + 1) at 1.
  rewrite (checksum_add m base 26 c), (checksum_add m base 30), (checksum_add m base 28),
    (checksum_add m base 32) by lia.
  rewrite (zsum_words_cons _ _ 26 4), (zsum_words_cons _ _ _ (4 - 1)),
    (zsum_words_cons _ _ _ (4 - 1 - 1)), (zsum_words_cons _ _ _ (4 - 1 - 1 - 1)) by lia.
  change (4 - 1 - 1 - 1 - 1) with 0. change (frame_words m base _ 0) with (@nil Z).
  change (26 + 2) with 28. change (28 + 2) with 30. change (30 + 2) with 32.
  change (zsum []) with 0. lia.
Qed.

Lemma udp_verify_checksum_eq m base :
  0 <= base -> base mod 4 = 0 -> base + 36 < 0x80000000 -> fw m base 38 < 65535 ->
  let l := fw m base 38 in
  udp_verify_checksum base m =
  (if oc_norm (seg_sum (seg_pad base l m) base 0x11 l) =? 65535 then 1 else 0, seg_pad base l m).
Proof.
  intros Hb Hm Hh Hl l. unfold udp_verify_checksum. cbv zeta. rewrite udp_length_field by done.
  fold l in Hl |- *. pose proof (fw_range m base 38) as Hr. fold l in Hr. fold (seg_pad base l m).
  rewrite udp_sum_loop by lia.
  pose proof (zsum_nonneg _ (frame_words_range (seg_pad base l m) base 34 (seg_words l))) as Hz.
  rewrite frame_words_length in Hz by (unfold seg_words; zdm).
  pose proof (zsum_nonneg _ (frame_words_range (seg_pad base l m) base 26 4)) as Hz2.
  rewrite frame_words_length in Hz2 by lia.
  assert (seg_words l <= 32768) by (unfold seg_words; zdm).
  rewrite udp_pseudo_loop by lia. f_equal.
  rewrite u32_small by lia. rewrite finish_checksum_zero by lia. done.
Qed.

Lemma udp_compute_checksum_eq m base :
  0 <= base -> base mod 4 = 0 -> base + 36 < 0x80000000 -> 8 <= fw m base 38 < 65535 ->
  let l := fw m base 38 in
  let p := seg_pad base l m in
  udp_compute_checksum base m =
  (65535 - oc_norm (seg_rest p base 3 0x11 l + 2 * fb p base 41), p).
Proof.
  intros Hb Hm Hh Hl l p. unfold udp_compute_checksum. cbv zeta. rewrite udp_length_field by done.
  fold l in Hl |- *. fold (seg_pad base l m). fold p.
  rewrite udp_sum_loop by lia.
  pose proof (zsum_nonneg _ (frame_words_range p base 26 4)) as Hz.
  pose proof (seg_rest_range 3 0x11 ltac:(lia) ltac:(lia) p base l ltac:(lia)) as Hr.
  pose proof (seg_sum_split 3 0x11 ltac:(lia) p base l ltac:(lia)) as Hs.
  pose proof (fw_range p base 40) as H40.
  unfold seg_sum in Hs. change (34 + 2 * 3) with 40 in Hs.
  fold (fb p base 40) (fb p base 41). rewrite land_ff, shl_mul by lia. change (2 ^ 8) with 256.
  pose proof (fb_range p base 40). pose proof (fb_range p base 41).
  rewrite (Z.mod_small (fb p base 41)) by lia.
  unfold fw in H40, Hs. change (40 + 1) with 41 in *.
  rewrite (u32_small (zsum _ - _ + _)) by lia. rewrite udp_pseudo_loop by lia.
  rewrite u32_small, finish_checksum_norm by lia. f_equal.
  match goal with |- context [oc_norm ?x] => pose proof (oc_norm_range x) end.
  rewrite u16_small by lia. do 2 f_equal. lia.
Qed.

(** Storing the computed checksum makes the datagram verify. *)
Lemma udp_fill_verifies m base :
  0 <= base -> base mod 4 = 0 -> base + 65600 < 0x80000000 -> 8 <= fw m base 38 < 65535 ->
  fb m base 41 = 0 ->
  let '(c, p) := udp_compute_checksum base m in
  fst (udp_verify_checksum base (put16 (base + 40) c p)) = 1.
Proof.
  intros Hb Hm Hh Hl H41. rewrite udp_compute_checksum_eq by (done || lia).
  set (l := fw m base 38) in *. set (p := seg_pad base l m).
  assert (forall k, 0 <= k < 42 -> fb p base k = fb m base k) as Hp
    by (intros; apply (fb_pad_low 3); lia).
  rewrite Hp, H41, Z.add_0_r by lia. set (c := 65535 - _).
  assert (fw (put16 (base + 40) c p) base 38 = l) as Hlq.
  { unfold fw at 1. rewrite !fb_put16 by lia. zif. rewrite !Hp by lia. reflexivity. }
  rewrite udp_verify_checksum_eq by (done || lia). rewrite Hlq. cbn [fst].
  pose proof (seg_fill_sum 3 0x11 ltac:(lia) ltac:(lia) m base l Hb Hh ltac:(lia)) as E.
  cbv zeta in E. fold p c in E. change (34 + 2 * 3) with 40 in E. by rewrite E.
Qed.

(** ** Lemmas: the frame *)

(** The header as 16-bit words, with the checksum fields clear. *)
Definition udp_header (dmac smac sip dip : list Z) (sport dport id iplen ulen : Z) : list Z :=
  [arr dmac 0 * 256 + arr dmac 1; arr dmac 2 * 256 + arr dmac 3; arr dmac 4 * 256 + arr dmac 5;
   arr smac 0 * 256 + arr smac 1; arr smac 2 * 256 + arr smac 3; arr smac 4 * 256 + arr smac 5;
   0x0800; 0x4500; iplen; id; 0x4000; 0x4011; 0;
   arr sip 0 * 256 + arr sip 1; arr sip 2 * 256 + arr sip 3;
   arr dip 0 * 256 + arr dip 1; arr dip 2 * 256 + arr dip 3; sport; dport; ulen; 0].

Lemma udp_header_written tx dmac smac sip dip sport dport id iplen ulen m w :
  bytes dmac -> bytes smac -> bytes sip -> bytes dip ->
  0 <= sport < 65536 -> 0 <= dport < 65536 -> 0 <= id < 65536 -> 0 <= iplen < 65536 ->
  0 <= ulen < 65536 -> 0 <= tx -> tx mod 4 = 0 -> tx + 44 < 0x100000000 -> 0 <= w < 21 ->
  fw (udp_write_header tx dmac smac sip dip sport dport id iplen ulen m) tx (2 * w) =
  arr (udp_header dmac smac sip dip sport dport id iplen ulen) w.
Proof.
  intros Hd Hs Hsi Hdi Hsp Hdp Hid Hil Hul Ht Ha Hb Hw.
  pose proof (fun i => arr_byte dmac i Hd) as Bd. pose proof (fun i => arr_byte smac i Hs) as Bs.
  pose proof (fun i => arr_byte sip i Hsi) as Bsi. pose proof (fun i => arr_byte dip i Hdi) as Bdi.
  unfold udp_write_header. cbv zeta.
  replace (mem_iowr tx) with (mem_iowr (tx + 0)) by (by rewrite Z.add_0_r).
  rewrite !fw_wrw by (lia || zdm).
  assert (w = 0 \/ w = 1 \/ w = 2 \/ w = 3 \/ w = 4 \/ w = 5 \/ w = 6 \/ w = 7 \/ w = 8 \/ w = 9
    \/ w = 10 \/ w = 11 \/ w = 12 \/ w = 13 \/ w = 14 \/ w = 15 \/ w = 16 \/ w = 17 \/ w = 18
    \/ w = 19 \/ w = 20) as Hc by lia.
  clear Hw.
  repeat destruct Hc as [->|Hc]; try subst w; eval_eqb; unfold udp_header; eval_arr;
    word_halves; auto; lia.
Qed.

(** The stages of writing a frame. *)
Lemma udp_write_frame_stages tx dmac smac sip dip sport dport id iplen ulen data n m :
  let m1 := udp_write_header tx dmac smac sip dip sport dport id iplen ulen m in
  let m2 := for_ n (fun i m => mem_iowr_byte (tx + 42 + i) (arr data i) m) m1 in
  let m3 := put16 (tx + 24) (ipv4_compute_checksum m2 tx) m2 in
  udp_write_frame tx dmac smac sip dip sport dport id iplen ulen data n m =
  let '(c, m4) := udp_compute_checksum tx m3 in put16 (tx + 40) c m4.
Proof.
  intros m1 m2 m3. unfold udp_write_frame. cbv zeta. fold m1. fold m2.
  replace (tx + 25) with (tx + 24 + 1) by lia.
  change (mem_iowr_byte (tx + 24 + 1) _ (mem_iowr_byte (tx + 24) _ m2)) with m3.
  destruct (udp_compute_checksum tx m3) as [c m4]. unfold put16.
  by replace (tx + 40 + 1) with (tx + 41) by lia.
Qed.

Section Frame.
Context (tx : Z) (dmac smac sip dip : list Z) (sport dport id : Z) (data : list Z) (n : Z) (m : buf).
Context (Hdm : bytes dmac) (Hsm : bytes smac) (Hsi : bytes sip) (Hdi : bytes dip) (Hda : bytes data).
Context (Hsp : 0 <= sport < 65536) (Hdp : 0 <= dport < 65536) (Hid : 0 <= id < 65536).
Context (Hn : 0 <= n) (Htx : in_buffer tx (n + 43)) (Hal : tx mod 4 = 0).

Let hdr := udp_header dmac smac sip dip sport dport id (n + 28) (n + 8).
Let m1 := udp_write_header tx dmac smac sip dip sport dport id (n + 28) (n + 8) m.
Let m2 := for_ n (fun i m => mem_iowr_byte (tx + 42 + i) (arr data i) m) m1.
Let m3 := put16 (tx + 24) (ipv4_compute_checksum m2 tx) m2.
Let f := udp_write_frame tx dmac smac sip dip sport dport id (n + 28) (n + 8) data n m.

Lemma frame_data_stage k :
  0 <= k < n + 43 ->
  fb m2 tx k = if (42 <=? k) && (k <? 42 + n) then arr data (k - 42) else fb m1 tx k.
Proof.
  intros Hk. destruct Htx. unfold m2. rewrite write_loop by lia.
  destruct (_ && _); [|done]. apply u8_small. by apply arr_byte.
Qed.

Lemma frame_header_stage w : 0 <= w < 21 -> fw m2 tx (2 * w) = arr hdr w.
Proof.
  intros Hw. destruct Htx. unfold hdr. rewrite <- (udp_header_written tx _ _ _ _ _ _ _ _ _ m) by (done || lia).
  fold m1. unfold fw. rewrite !frame_data_stage by lia. zif. done.
Qed.

Lemma frame_ip_stage k : 0 <= k < n + 43 -> k <> 24 -> k <> 25 -> fb m3 tx k = fb m2 tx k.
Proof. intros. destruct Htx. unfold m3. rewrite fb_put16 by lia. zif. done. Qed.

Lemma frame_length_stage : fw m3 tx 38 = n + 8.
Proof.
  unfold fw. rewrite !frame_ip_stage by lia. change (fw m2 tx (2 * 19) = n + 8).
  by rewrite frame_header_stage by lia.
Qed.

(** The frame differs from the last stage in the checksum field and the padding. *)
Lemma frame_final k : 0 <= k < n + 42 -> k <> 40 -> k <> 41 -> fb f tx k = fb m3 tx k.
Proof.
  intros Hk H1 H2. destruct Htx. unfold f. rewrite udp_write_frame_stages. cbv zeta.
  fold m1. fold m2. fold m3. rewrite udp_compute_checksum_eq by (rewrite ?frame_length_stage; lia).
  rewrite frame_length_stage, fb_put16 by lia. zif. rewrite fb_pad by lia.
  destruct (Z.eqb_spec (n + 8 + 34) k); [lia|]. by rewrite andb_false_r.
Qed.

Lemma frame_fields w : 0 <= w < 21 -> w <> 12 -> w <> 20 -> fw f tx (2 * w) = arr hdr w.
Proof.
  intros. rewrite <- frame_header_stage by lia. unfold fw.
  rewrite !frame_final, !frame_ip_stage by lia. done.
Qed.

Lemma frame_payload k : 0 <= k < n -> fb f tx (42 + k) = arr data k.
Proof.
  intros. rewrite frame_final, frame_ip_stage, frame_data_stage by lia. zif. f_equal. lia.
Qed.

Lemma frame_ip_verifies : ipv4_verify_checksum f tx = 1.
Proof.
  destruct Htx. rewrite ipv4_verify_checksum_eq. unfold ip_header.
  rewrite (frame_words_ext f m3) by (intros; apply frame_final; lia). fold (ip_header m3 tx).
  rewrite <- ipv4_verify_checksum_eq. apply ipv4_fill_verifies; [lia..|].
  pose proof (frame_header_stage 12 ltac:(lia)) as E. unfold hdr, udp_header in E.
  change (fb m2 tx 24 * 256 + fb m2 tx 25 = 0) in E.
  pose proof (fb_range m2 tx 24). pose proof (fb_range m2 tx 25). lia.
Qed.

Lemma frame_udp_verifies : fst (udp_verify_checksum tx f) = 1.
Proof.
  destruct Htx. unfold f. rewrite udp_write_frame_stages. cbv zeta.
  fold m1. fold m2. fold m3.
  pose proof (udp_fill_verifies m3 tx ltac:(lia) Hal ltac:(lia)) as Hv.
  destruct (udp_compute_checksum tx m3) as [c m4]. apply Hv; [rewrite frame_length_stage; lia|].
  rewrite frame_ip_stage by lia.
  pose proof (frame_header_stage 20 ltac:(lia)) as E. unfold hdr, udp_header in E.
  change (fb m2 tx 40 * 256 + fb m2 tx 41 = 0) in E.
  pose proof (fb_range m2 tx 40). pose proof (fb_range m2 tx 41). lia.
Qed.

End Frame.

(** ** Theorems *)

(** The verdict of the receiver depends on the bytes of the datagram only. *)
Lemma udp_verify_delivered m base m' base' n :
  delivered m base m' base' (34 + fw m base 38) ->
  0 <= base -> base mod 4 = 0 -> base + 65600 < 0x80000000 ->
  0 <= base' -> base' mod 4 = 0 -> base' + 65600 < 0x80000000 ->
  fw m base 38 = n -> 8 <= n < 65535 ->
  fst (udp_verify_checksum base' m') = fst (udp_verify_checksum base m).
Proof.
  intros Hd Hb Hm Hh Hb' Hm' Hh' Hl Hn. rewrite Hl in Hd.
  assert (fw m' base' 38 = n) as Hl' by (rewrite <- Hl; unfold fw; rewrite !Hd by lia; done).
  rewrite !udp_verify_checksum_eq by (rewrite ?Hl, ?Hl'; lia). rewrite Hl, Hl'. cbn [fst].
  by rewrite (seg_sum_delivered 3 0x11 ltac:(lia) ltac:(lia) m base m' base' n) by (done || lia).
Qed.

(** Reading a datagram back into an array of its size. *)
Lemma udp_get_data_eq m base d l n :
  0 <= n -> length d = Z.to_nat n -> length l = Z.to_nat n ->
  (forall k, 0 <= k < n -> fb m base (42 + k) = arr l k) ->
  udp_get_data m base d n = Some (1, l).
Proof.
  intros Hn Hd Hl Hb. unfold udp_get_data. rewrite fill_spec by done.
  destruct (Z.leb_spec n (Z.of_nat (length d))); [|lia]. cbn [mbind option_bind]. do 2 f_equal.
  rewrite drop_ge, app_nil_r by lia. by apply byte_list_eq.
Qed.

(** A frame with the given header fields, as a receiver reads it. *)
Definition header_at (m : buf) (base : Z) (hdr : list Z) : Prop :=
  forall w, 0 <= w < 21 -> w <> 12 -> w <> 20 -> fw m base (2 * w) = arr hdr w.

Lemma header_at_list m base hdr off n l :
  header_at m base hdr -> bytes l -> length l = Z.to_nat (2 * n) ->
  0 <= off -> 0 <= n -> off + n <= 12 \/ 13 <= off /\ off + n <= 20 ->
  (forall w, 0 <= w < n -> arr hdr (off + w) = arr l (2 * w) * 256 + arr l (2 * w + 1)) ->
  (fun i => mem_iord_byte m (base + 2 * off + i)) <$> seqZ 0 (2 * n) = l.
Proof.
  intros Hh Hl Hlen Ho Hn Hr Hw. apply byte_list_eq; [lia|done|].
  apply (fields_bytes m base (2 * off) n l Hl). intros w Hwn.
  rewrite <- Z.mul_add_distr_l, Hh, Hw by lia. done.
Qed.

Lemma udp_decode_addresses m base dmac smac sip dip sport dport id iplen ulen :
  header_at m base (udp_header dmac smac sip dip sport dport id iplen ulen) ->
  length dmac = 6%nat -> length smac = 6%nat -> length sip = 4%nat -> length dip = 4%nat ->
  bytes dmac -> bytes smac -> bytes sip -> bytes dip ->
  mac_addr_dest m base = dmac /\ mac_addr_sender m base = smac /\
  ipv4_get_source_ip m base = sip /\ ipv4_get_destination_ip m base = dip.
Proof.
  intros Hh L1 L2 L3 L4 B1 B2 B3 B4. rewrite mac_addr_dest_list, mac_addr_sender_list.
  split; [|split; [|split]].
  - apply (header_at_list m base _ 0 3 dmac Hh B1 L1); [lia..|]. intros w Hw.
    assert (w = 0 \/ w = 1 \/ w = 2) as [->|[->| ->]] by lia; reflexivity.
  - apply (header_at_list m base _ 3 3 smac Hh B2 L2); [lia..|]. intros w Hw.
    assert (w = 0 \/ w = 1 \/ w = 2) as [->|[->| ->]] by lia; reflexivity.
  - apply (header_at_list m base _ 13 2 sip Hh B3 L3); [lia..|]. intros w Hw.
    assert (w = 0 \/ w = 1) as [->| ->] by lia; reflexivity.
  - apply (header_at_list m base _ 15 2 dip Hh B4 L4); [lia..|]. intros w Hw.
    assert (w = 0 \/ w = 1) as [->| ->] by lia; reflexivity.
Qed.

Lemma udp_decode_numbers m base dmac smac sip dip sport dport id iplen ulen :
  header_at m base (udp_header dmac smac sip dip sport dport id iplen ulen) ->
  0 <= base -> base mod 4 = 0 -> base + 65600 < 0x80000000 ->
  mac_packet_type m base = UDP /\ ipv4_get_length m base = iplen /\
  udp_get_source_port m base = sport /\ udp_get_destination_port m base = dport /\
  udp_get_packet_length m base = ulen.
Proof.
  intros Hh Hb Ha Hl.
  pose proof (Hh 19 ltac:(lia) ltac:(lia) ltac:(lia)) as H38. change (fw m base 38 = ulen) in H38.
  pose proof (Hh 18 ltac:(lia) ltac:(lia) ltac:(lia)) as H36. change (fw m base 36 = dport) in H36.
  pose proof (Hh 17 ltac:(lia) ltac:(lia) ltac:(lia)) as H34. change (fw m base 34 = sport) in H34.
  pose proof (Hh 11 ltac:(lia) ltac:(lia) ltac:(lia)) as H22. change (fw m base 22 = 0x4011) in H22.
  pose proof (Hh 8 ltac:(lia) ltac:(lia) ltac:(lia)) as H16. change (fw m base 16 = iplen) in H16.
  pose proof (Hh 6 ltac:(lia) ltac:(lia) ltac:(lia)) as H12. change (fw m base 12 = 0x0800) in H12.
  pose proof (fw_range m base 34). pose proof (fw_range m base 36). pose proof (fw_range m base 38).
  split; [|split; [by rewrite ipv4_get_length_eq|split; [|split]]].
  - rewrite mac_packet_type_classify, H12. unfold fw in H22. change (22 + 1) with 23 in H22.
    assert (fb m base 23 = 0x11) as ->
      by (pose proof (fb_range m base 22); pose proof (fb_range m base 23); lia). done.
  - unfold udp_get_source_port. rewrite mem_iord_fw, land_ffff by (lia || done).
    change (32 + 2) with 34. rewrite H34 in *. zdm.
  - unfold udp_get_destination_port. rewrite mem_iord_fw, shr_div by (lia || done).
    change (36 + 2) with 38. change (2 ^ 16) with 65536. rewrite H36, H38 in *. zdm.
  - unfold udp_get_packet_length. by rewrite udp_length_field by (lia || done).
Qed.

(** Claim C22. UDP round trip: when the bytes of a frame written by a send routine
    reach a receiver, it classifies the frame as UDP, both its checksum tests accept
    it, and it reads back the sender's addresses and ports and exactly the data. *)
Theorem udp_frame_roundtrip tx rx dmac smac sip dip sport dport id data m m' d :
  let n := Z.of_nat (length data) in
  length dmac = 6%nat -> length smac = 6%nat -> length sip = 4%nat -> length dip = 4%nat ->
  bytes dmac -> bytes smac -> bytes sip -> bytes dip -> bytes data ->
  0 <= sport < 65536 -> 0 <= dport < 65536 -> 0 <= id < 65536 ->
  in_buffer tx (n + 43) -> tx mod 4 = 0 -> in_buffer rx (n + 43) -> rx mod 4 = 0 ->
  length d = length data ->
  let f := udp_write_frame tx dmac smac sip dip sport dport id (n + 28) (n + 8) data n m in
  delivered f tx m' rx (n + 42) ->
  mac_packet_type m' rx = UDP /\
  mac_addr_dest m' rx = dmac /\ mac_addr_sender m' rx = smac /\
  ipv4_get_source_ip m' rx = sip /\ ipv4_get_destination_ip m' rx = dip /\
  ipv4_get_length m' rx = n + 28 /\ ipv4_verify_checksum m' rx = 1 /\
  udp_get_source_port m' rx = sport /\ udp_get_destination_port m' rx = dport /\
  udp_get_data_length m' rx = n /\ fst (udp_verify_checksum rx m') = 1 /\
  udp_get_data m' rx d n = Some (1, data).
Proof.
  intros n L1 L2 L3 L4 B1 B2 B3 B4 B5 P1 P2 P3 Htx Hal Hrx Har Hd f Hdel.
  assert (0 <= n) as Hn by (unfold n; lia). pose proof Hrx as [Hr1 Hr2]. pose proof Htx as [Ht1 Ht2].
  pose proof (frame_fields tx dmac smac sip dip sport dport id data n m
    B1 B2 B3 B4 B5 P1 P2 P3 Hn Htx Hal) as HfT. cbv zeta in HfT. fold f in HfT.
  assert (header_at m' rx (udp_header dmac smac sip dip sport dport id (n + 28) (n + 8))) as Hh.
  { intros w Hw H1 H2. rewrite <- HfT by lia. unfold fw. rewrite !Hdel by lia. done. }
  destruct (udp_decode_addresses _ _ _ _ _ _ _ _ _ _ _ Hh L1 L2 L3 L4 B1 B2 B3 B4) as (? & ? & ? & ?).
  destruct (udp_decode_numbers _ _ _ _ _ _ _ _ _ _ _ Hh Hr1 Har ltac:(lia)) as (? & ? & ? & ? & Hpl).
  do 6 (split; [done|]). split.
  { rewrite ipv4_verify_checksum_eq. unfold ip_header.
    rewrite (frame_words_ext2 m' f rx tx) by (intros; apply Hdel; lia).
    fold (ip_header f tx). rewrite <- ipv4_verify_checksum_eq. by apply frame_ip_verifies. }
  do 2 (split; [done|]).
  split; [unfold udp_get_data_length; rewrite Hpl, u16_small; lia|].
  assert (fw f tx 38 = n + 8) as HfT38 by (exact (HfT 19 ltac:(lia) ltac:(lia) ltac:(lia))).
  split.
  { rewrite (udp_verify_delivered f tx m' rx (n + 8)); [by apply frame_udp_verifies|..];
      try lia. rewrite HfT38. by replace (34 + (n + 8)) with (n + 42) by lia. }
  apply udp_get_data_eq; [lia..|]. intros k Hk. rewrite Hdel by lia.
  by apply frame_payload.
Qed.

Section SendTheorems.
Context `{Env}.

(** The globals after a datagram was sent: [ipv4_id] keeps its value, the increment
    0x10000 does not fit it. *)
Lemma ipv4_id_step id : 0 <= id < 65536 -> u16 (id + 0x10000) = id.
Proof. intros. zdm. Qed.

Lemma udp_send_mac_run bound `{!TxLive bound} fuel tx rx dmac dip sport dport data n timeout s :
  (bound + 2 <= fuel)%nat -> 0 <= n -> n + 42 < 65536 -> 0 <= ipv4_id s < 65536 ->
  dma_avoids tx (n + 42) ->
  let f := udp_write_frame tx dmac (my_mac s) (my_ip s) dip sport dport (ipv4_id s)
             (n + 28) (n + 8) data n (buff s) in
  exists s' b, udp_send_mac fuel tx rx dmac dip sport dport data n timeout s = Some (1, s') /\
    tx_log (hist s') = TxFrame (u32 tx) (n + 42) b :: tx_log (hist s) /\
    delivered f tx b tx (n + 42) /\ same_globals s s'.
Proof.
  intros Hf H0 Hn Hid Hdma f. unfold udp_send_mac. cbv zeta.
  rewrite (u16_small (n + 8)), (u16_small (n + 8 + 20)), (u16_small (n + 8 + 20 + 14)) by lia.
  replace (n + 8 + 20 + 14) with (n + 42) by lia. replace (n + 8 + 20) with (n + 28) by lia.
  rewrite !bind_gets, bind_wrbuf. set (t := set_buff _ s).
  destruct (eth_mac_send_total fuel tx (n + 42) t Hf) as (k & _ & E).
  rewrite (bind_some _ _ _ _ _ E), bind_modify.
  exists (set_ipv4_id (u16 (ipv4_id (tx_done k tx (n + 42) t) + 0x10000)) (tx_done k tx (n + 42) t)).
  exists (buff (tx_armed tx t)). split; [reflexivity|].
  destruct (same_globals_tx_done k tx (n + 42) t) as (G1 & G2 & G3 & G4).
  split; [|split].
  - change (hist (set_ipv4_id ?v ?x)) with (hist x). unfold tx_done.
    rewrite tx_log_polls, tx_log_started, u16_small by lia. reflexivity.
  - intros j Hj. rewrite (tx_armed_frame tx tx (n + 42)) by done. reflexivity.
  - split; [exact G1|]. split; [exact G2|]. split; [exact G3|].
    cbn [ipv4_id set_ipv4_id]. rewrite G4. by apply ipv4_id_step.
Qed.

(** End to end over UDP: [udp_send_mac] returns 1 after transmitting exactly
    one frame of [data_length] + 42 bytes, a receiver whose buffer holds these bytes
    accepts both checksums and reads back the data, and the library's globals do not
    change; in particular all datagrams carry the same IPv4 identification, because
    the increment of [ipv4_id] is 0x10000. *)
Theorem udp_send_mac_delivers bound `{!TxLive bound} fuel tx rx dmac dip sport dport data timeout s :
  let n := Z.of_nat (length data) in
  (bound + 2 <= fuel)%nat -> bytes dmac -> bytes (my_mac s) -> bytes (my_ip s) -> bytes dip ->
  bytes data -> 0 <= sport < 65536 -> 0 <= dport < 65536 -> 0 <= ipv4_id s < 65536 ->
  in_buffer tx (n + 43) -> tx mod 4 = 0 -> dma_avoids tx (n + 42) ->
  exists s' b, udp_send_mac fuel tx rx dmac dip sport dport data n timeout s = Some (1, s') /\
    tx_log (hist s') = TxFrame (u32 tx) (n + 42) b :: tx_log (hist s) /\ same_globals s s' /\
    forall m' base d, in_buffer base (n + 43) -> base mod 4 = 0 -> length d = length data ->
      delivered b tx m' base (n + 42) ->
      ipv4_verify_checksum m' base = 1 /\ fst (udp_verify_checksum base m') = 1 /\
      udp_get_source_port m' base = sport /\ udp_get_destination_port m' base = dport /\
      udp_get_data m' base d n = Some (1, data).
Proof.
  intros n Hf B1 B2 B3 B4 B5 P1 P2 P3 Htx Hal Hdma. pose proof Htx as [Ht1 Ht2].
  assert (0 <= n) as Hn by (unfold n; lia).
  destruct (udp_send_mac_run bound fuel tx rx dmac dip sport dport data n timeout s)
    as (s' & b & E & Hlog & Hdel & Hg); [done || lia..|].
  exists s', b. do 3 (split; [done|]). intros m' base d Hrx Hra Hd Hdel2.
  set (f := udp_write_frame _ _ _ _ _ _ _ _ _ _ _ _ _) in Hdel.
  assert (delivered f tx m' base (n + 42)) as Hfm by (intros k Hk; rewrite Hdel2, Hdel by done; done).
  pose proof Hrx as [Hr1 Hr2].
  pose proof (frame_fields tx dmac (my_mac s) (my_ip s) dip sport dport (ipv4_id s) data n (buff s)
    B1 B2 B3 B4 B5 P1 P2 P3 Hn Htx Hal) as HfT. cbv zeta in HfT. fold f in HfT.
  assert (header_at m' base (udp_header dmac (my_mac s) (my_ip s) dip sport dport (ipv4_id s)
            (n + 28) (n + 8))) as Hh.
  { intros w Hw H1 H2. rewrite <- HfT by lia. unfold fw. rewrite !Hfm by lia. done. }
  destruct (udp_decode_numbers _ _ _ _ _ _ _ _ _ _ _ Hh Hr1 Hra ltac:(lia)) as (? & ? & ? & ? & Hpl).
  assert (fw f tx 38 = n + 8) as HfT38 by (exact (HfT 19 ltac:(lia) ltac:(lia) ltac:(lia))).
  split; [|split; [|split; [done|split; [done|]]]].
  - rewrite ipv4_verify_checksum_eq. unfold ip_header.
    rewrite (frame_words_ext2 m' f base tx) by (intros; apply Hfm; lia).
    fold (ip_header f tx). rewrite <- ipv4_verify_checksum_eq. by apply frame_ip_verifies.
  - rewrite (udp_verify_delivered f tx m' base (n + 8)); [by apply frame_udp_verifies|..];
      try lia. rewrite HfT38. by replace (34 + (n + 8)) with (n + 42) by lia.
  - apply udp_get_data_eq; [lia..|]. intros k Hk. rewrite Hfm by lia. by apply frame_payload.
Qed.

(** A built packet carries the addresses and the data it was built from. *)
Lemma udp_build_packet_eq id p sip dip sport dport d n :
  length sip = 4%nat -> length dip = 4%nat ->
  length (source_ip (ip_head p)) = 4%nat -> length (destination_ip (ip_head p)) = 4%nat ->
  0 <= n -> length d = Z.to_nat n -> length (data p) = Z.to_nat n ->
  udp_build_packet id p sip dip sport dport d n =
  UdpPacket (IpHead 0x45 0 (u16 (20 + 8 + n)) id 0x4000 0x40 0x11 0 sip dip)
    (UdpHead sport dport n 0) d.
Proof.
  intros H1 H2 H3 H4 Hn H5 H6. unfold udp_build_packet. cbv zeta. rewrite copy_arr_full by done.
  destruct (source_ip (ip_head p)) as [|a0 [|a1 [|a2 [|a3 [|]]]]]; try done.
  destruct (destination_ip (ip_head p)) as [|b0 [|b1 [|b2 [|b3 [|]]]]]; try done.
  destruct sip as [|c0 [|c1 [|c2 [|c3 [|]]]]]; try done.
  destruct dip as [|d0 [|d1 [|d2 [|d3 [|]]]]]; done.
Qed.

(** Equivalence of the send routines: for a destination the ARP table
    resolves, [udp_send] is [udp_send_mac] with the table's MAC address (no ARP
    traffic, no waiting), and so is [udp_send_packet] of a packet that
    [udp_build_packet] built with the host's own address as the source. *)
Theorem udp_send_routines_agree fuel tx rx p dmac dip sport dport d n timeout s :
  arp_wf (arp_table s) -> length dip = 4%nat -> length (my_ip s) = 4%nat ->
  arp_abs (arp_table s) !! dip = Some dmac ->
  length (source_ip (ip_head p)) = 4%nat -> length (destination_ip (ip_head p)) = 4%nat ->
  0 <= n -> length d = Z.to_nat n -> length (data p) = Z.to_nat n ->
  udp_send fuel tx rx dip sport dport d n timeout s =
    udp_send_mac fuel tx rx dmac dip sport dport d n timeout s /\
  udp_send_packet fuel tx rx
    (udp_build_packet (ipv4_id s) p (my_ip s) dip sport dport d n) timeout s =
    udp_send_mac fuel tx rx dmac dip sport dport d n timeout s.
Proof.
  intros (_ & Hwf & _) Hl Hip Hdm Hs Hd Hn Hda Hpd.
  pose proof (arp_search_abs _ dip [0xFF; 0xFF; 0xFF; 0xFF; 0xFF; 0xFF] Hwf Hl eq_refl) as Hse.
  rewrite Hdm in Hse. split.
  - unfold udp_send. rewrite bind_gets. cbv zeta. rewrite Hse. reflexivity.
  - rewrite udp_build_packet_eq by done. unfold udp_send_packet. cbn [ip_head destination_ip].
    rewrite bind_gets. cbv zeta. rewrite Hse. reflexivity.
Qed.

End SendTheorems.

(** ** Witnesses *)

Lemma udp_frame_roundtrip_witness :
  let d := [1; 2; 3] in
  let f := udp_write_frame 0x800 [2; 0; 0; 0; 0; 1] my_mac_init my_ip_init [10; 0; 0; 1]
             5000 5001 0x1111 (3 + 28) (3 + 8) d 3 ∅ in
  mac_packet_type f 0x800 = UDP /\
  mac_addr_dest f 0x800 = [2; 0; 0; 0; 0; 1] /\ mac_addr_sender f 0x800 = my_mac_init /\
  ipv4_get_source_ip f 0x800 = my_ip_init /\ ipv4_get_destination_ip f 0x800 = [10; 0; 0; 1] /\
  ipv4_get_length f 0x800 = 3 + 28 /\ ipv4_verify_checksum f 0x800 = 1 /\
  udp_get_source_port f 0x800 = 5000 /\ udp_get_destination_port f 0x800 = 5001 /\
  udp_get_data_length f 0x800 = 3 /\ fst (udp_verify_checksum 0x800 f) = 1 /\
  udp_get_data f 0x800 [0; 0; 0] 3 = Some (1, d).
Proof.
  intros d f.
  apply (udp_frame_roundtrip 0x800 0x800 [2; 0; 0; 0; 0; 1] my_mac_init my_ip_init [10; 0; 0; 1]
           5000 5001 0x1111 d ∅ f [0; 0; 0]);
    try reflexivity; try lia; try (split; cbn; lia); try (repeat constructor; lia).
Defined.

Lemma udp_send_mac_delivers_witness :
  let s := init_machine in
  exists s' b, @udp_send_mac quiet_env 2 0x800 0 [2; 0; 0; 0; 0; 1] [10; 0; 0; 1] 5000 5001 [7; 8] 2 0 s
      = Some (1, s') /\
    tx_log (hist s') = TxFrame (u32 0x800) (2 + 42) b :: tx_log (hist s) /\ same_globals s s' /\
    forall m' base d, in_buffer base (2 + 43) -> base mod 4 = 0 -> length d = 2%nat ->
      delivered b 0x800 m' base (2 + 42) ->
      ipv4_verify_checksum m' base = 1 /\ fst (udp_verify_checksum base m') = 1 /\
      udp_get_source_port m' base = 5000 /\ udp_get_destination_port m' base = 5001 /\
      udp_get_data m' base d 2 = Some (1, [7; 8]).
Proof.
  intros s.
  apply (@udp_send_mac_delivers quiet_env 0 quiet_live 2 0x800 0 [2; 0; 0; 0; 0; 1] [10; 0; 0; 1]
           5000 5001 [7; 8] 0 s); try lia; try reflexivity; try (split; cbn; lia);
    try (repeat constructor; lia).
Defined.

Lemma udp_send_routines_agree_witness :
  let s := set_arp_table (@arp_table_new_entry quiet_env [10; 0; 0; 1] [2; 0; 0; 0; 0; 1]
                            (arp_table init_machine)) init_machine in
  let p := UdpPacket (IpHead 0 0 0 0 0 0 0 0 [0; 0; 0; 0] [0; 0; 0; 0]) (UdpHead 0 0 0 0) [0; 0] in
  @udp_send quiet_env 2 0x800 0 [10; 0; 0; 1] 5000 5001 [7; 8] 2 0 s =
    @udp_send_mac quiet_env 2 0x800 0 [2; 0; 0; 0; 0; 1] [10; 0; 0; 1] 5000 5001 [7; 8] 2 0 s /\
  @udp_send_packet quiet_env 2 0x800 0
    (udp_build_packet (ipv4_id s) p (my_ip s) [10; 0; 0; 1] 5000 5001 [7; 8] 2) 0 s =
    @udp_send_mac quiet_env 2 0x800 0 [2; 0; 0; 0; 0; 1] [10; 0; 0; 1] 5000 5001 [7; 8] 2 0 s.
Proof.
  intros s p.
  apply (@udp_send_routines_agree quiet_env); try reflexivity; try lia.
  apply (@arp_new_entry_abs quiet_env [10; 0; 0; 1] [2; 0; 0; 0; 0; 1] (arp_table init_machine)
           init_table_wf eq_refl eq_refl).
Defined.
