(* ===== verification/Tcp.v ===== *)
(** * TCP: src/c/ethlib/tcp.c

    Access to the fields of a TCP segment, its checksum, sending of segments and the
    connection state machine. The connection, which the C code passes by reference,
    is an argument and a result. The debug output of [tcp_handle] is not modelled. *)

From stdpp Require Import base gmap list numbers.
From S2P Require Import Prelude Machine EthIO Frame MacDriver Mac Checksum Ipv4 Arp Segment.
Local Open Scope Z_scope.
Local Open Scope c_scope.

(** ** Data (tcp.h) *)

Inductive tcpstate :=
| CLOSED | LISTEN | SYN_SENT | SYN_RCVD | ESTABLISHED | FIN_WAIT_1 | FIN_WAIT_2
| TIME_WAIT | CLOSE_WAIT | CLOSING | LAST_ACK.

#[global] Instance tcpstate_eq_dec : EqDecision tcpstate.
Proof. solve_decision. Defined.

(** [enum tcpflags]. *)
Definition FIN := 0x1.
Definition SYN := 0x2.
Definition RST := 0x4.
Definition PSH := 0x8.
Definition ACK := 0x10.

Record tcp_connection := TcpConnection {
  eth_tx_addr : Z;
  eth_rx_addr : Z;
  dstMAC : list Z;
  srcMAC : list Z;
  srcIP : list Z;
  dstIP : list Z;
  srcport : Z;
  dstport : Z;
  seqNum : Z;
  ackNum : Z;
  status : tcpstate;
  tcp_ipv4_id : Z;
  send_buffer : list Z;
  send_buffer_size : Z;
  recv_buffer : list Z;
  recv_buffer_size : Z
}.

Definition set_status (v : tcpstate) (c : tcp_connection) : tcp_connection :=
  TcpConnection (eth_tx_addr c) (eth_rx_addr c) (dstMAC c) (srcMAC c) (srcIP c) (dstIP c)
    (srcport c) (dstport c) (seqNum c) (ackNum c) v (tcp_ipv4_id c)
    (send_buffer c) (send_buffer_size c) (recv_buffer c) (recv_buffer_size c).

Definition set_seq_ack (seq ack : Z) (c : tcp_connection) : tcp_connection :=
  TcpConnection (eth_tx_addr c) (eth_rx_addr c) (dstMAC c) (srcMAC c) (srcIP c) (dstIP c)
    (srcport c) (dstport c) seq ack (status c) (tcp_ipv4_id c)
    (send_buffer c) (send_buffer_size c) (recv_buffer c) (recv_buffer_size c).

Definition set_recv (d : list Z) (size : Z) (c : tcp_connection) : tcp_connection :=
  TcpConnection (eth_tx_addr c) (eth_rx_addr c) (dstMAC c) (srcMAC c) (srcIP c) (dstIP c)
    (srcport c) (dstport c) (seqNum c) (ackNum c) (status c) (tcp_ipv4_id c)
    (send_buffer c) (send_buffer_size c) d size.

(** ** Low-level functions *)

Definition tcp_get_source_port (m : buf) (pkt_addr : Z) : Z :=
  u16 ((mem_iord_byte m (pkt_addr + 34) << 8) + mem_iord_byte m (pkt_addr + 35)).

Definition tcp_get_destination_port (m : buf) (pkt_addr : Z) : Z :=
  u16 ((mem_iord_byte m (pkt_addr + 36) << 8) + mem_iord_byte m (pkt_addr + 37)).

Definition tcp_get_seqnum (m : buf) (pkt_addr : Z) : Z :=
  u32 ((mem_iord_byte m (pkt_addr + 38) << 24) + (mem_iord_byte m (pkt_addr + 39) << 16)
       + (mem_iord_byte m (pkt_addr + 40) << 8) + mem_iord_byte m (pkt_addr + 41)).

Definition tcp_get_acknum (m : buf) (pkt_addr : Z) : Z :=
  u32 ((mem_iord_byte m (pkt_addr + 42) << 24) + (mem_iord_byte m (pkt_addr + 43) << 16)
       + (mem_iord_byte m (pkt_addr + 44) << 8) + mem_iord_byte m (pkt_addr + 45)).

Definition tcp_get_header_length (m : buf) (pkt_addr : Z) : Z :=
  u8 (mem_iord_byte m (pkt_addr + 46) >> 2).

Definition tcp_get_flags (m : buf) (pkt_addr : Z) : Z :=
  u8 (mem_iord_byte m (pkt_addr + 47) .& 0xFF).

Definition tcp_get_checksum (m : buf) (pkt_addr : Z) : Z :=
  u16 (mem_iord m (pkt_addr + 50) >> 16).

Definition tcp_get_data_length (m : buf) (pkt_addr : Z) : Z :=
  u16 (ipv4_get_length m pkt_addr - 20 - tcp_get_header_length m pkt_addr).

(** Writes all the data of the segment whatever [data_length] says; undefined when
    the caller's array is too short. *)
Definition tcp_get_data (m : buf) (pkt_addr : Z) (data : list Z) (data_length : Z)
    : option (Z * list Z) :=
  let n := tcp_get_data_length m pkt_addr in
  data ← fill n (fun i => mem_iord_byte m (pkt_addr + 34 + tcp_get_header_length m pkt_addr + i)) data;
  Some (n, data).

Definition tcp_compute_checksum (pkt_addr tcp_length data_length : Z) (m : buf) : Z * buf :=
  let checksum := 0 in
  let even := (tcp_length .& 0x1) =? 0 in
  let corrected_length := if even then tcp_length else u16 (tcp_length + 1) in
  let m := if even then m else mem_iowr_byte (pkt_addr + 34 + tcp_length) 0x00 m in
  let checksum := for_by2 4 (fun i checksum =>
    let hex := u16 ((mem_iord_byte m (pkt_addr + 26 + i) << 8)
                    + mem_iord_byte m (pkt_addr + 26 + i + 1)) in
    u32 (checksum + hex)) checksum in
  let checksum := for_by2 4 (fun i checksum =>
    let hex := u16 ((mem_iord_byte m (pkt_addr + 30 + i) << 8)
                    + mem_iord_byte m (pkt_addr + 30 + i + 1)) in
    u32 (checksum + hex)) checksum in
  let checksum := u32 (checksum + 0x0006) in
  let checksum := u32 (checksum + tcp_length) in
  let checksum := for_by2 corrected_length (fun i checksum =>
    u32 (checksum + ((mem_iord_byte m (pkt_addr + 34 + i) << 8)
                     + mem_iord_byte m (pkt_addr + 34 + i + 1)))) checksum in
  (u16 (finish_checksum checksum), m).

Definition tcp_verify_checksum (pkt_addr : Z) (m : buf) : Z := 1.

(** The header of a segment, as words. *)
Definition tcp_write_header (conn : tcp_connection) (flags tcp_length ip_length data_length : Z)
    (m : buf) : buf :=
  let tx := eth_tx_addr conn in
  let m := mem_iowr tx ((arr (dstMAC conn) 0 << 24) .| (arr (dstMAC conn) 1 << 16)
             .| (arr (dstMAC conn) 2 << 8) .| arr (dstMAC conn) 3) m in
  let m := mem_iowr (tx + 4) ((arr (dstMAC conn) 4 << 24) .| (arr (dstMAC conn) 5 << 16)
             .| (arr (srcMAC conn) 0 << 8) .| arr (srcMAC conn) 1) m in
  let m := mem_iowr (tx + 8) ((arr (srcMAC conn) 2 << 24) .| (arr (srcMAC conn) 3 << 16)
             .| (arr (srcMAC conn) 4 << 8) .| arr (srcMAC conn) 5) m in
  let m := mem_iowr (tx + 12) 0x08004500 m in
  let m := mem_iowr (tx + 16) ((ip_length << 16) .| tcp_ipv4_id conn) m in
  let m := mem_iowr (tx + 20) 0x40004006 m in
  let m := mem_iowr (tx + 24) ((arr (srcIP conn) 0 << 8) .| arr (srcIP conn) 1) m in
  let m := mem_iowr (tx + 28) ((arr (srcIP conn) 2 << 24) .| (arr (srcIP conn) 3 << 16)
             .| (arr (dstIP conn) 0 << 8) .| arr (dstIP conn) 1) m in
  let m := mem_iowr (tx + 32) ((arr (dstIP conn) 2 << 24) .| (arr (dstIP conn) 3 << 16)
             .| srcport conn) m in
  let m := mem_iowr (tx + 36) ((dstport conn << 16) .| ((seqNum conn >> 24) << 8)
             .| ((seqNum conn >> 16) .& 0xFF)) m in
  let m := mem_iowr (tx + 40) ((((seqNum conn >> 8) .& 0xFF) << 24) .| ((seqNum conn .& 0xFF) << 16)
             .| ((ackNum conn >> 24) << 8) .| ((ackNum conn >> 16) .& 0xFF)) m in
  let m := mem_iowr (tx + 44) ((((ackNum conn >> 8) .& 0xFF) << 24) .| ((ackNum conn .& 0xFF) << 16)
             .| (((tcp_length - data_length) << 2) << 8) .| (u8 flags .& 0xFF)) m in
  let m := mem_iowr (tx + 48) ((0x72 << 24) .| (0x10 << 16) .| 0x0000) m in
  mem_iowr (tx + 52) 0x0000 m.

(** The frame [tcp_send] writes to the buffer. *)
Definition tcp_write_frame (conn : tcp_connection) (flags : Z) (data : list Z)
    (data_length tcp_length ip_length : Z) (m : buf) : buf :=
  let tx := eth_tx_addr conn in
  let m := tcp_write_header conn flags tcp_length ip_length data_length m in
  let m := for_ data_length (fun i m => mem_iowr_byte (tx + 54 + i) (arr data i) m) m in
  let checksum := ipv4_compute_checksum m tx in
  let m := mem_iowr_byte (tx + 24) (checksum >> 8) m in
  let m := mem_iowr_byte (tx + 25) (checksum .& 0xFF) m in
  let '(checksum, m) := tcp_compute_checksum tx tcp_length data_length m in
  let m := mem_iowr_byte (tx + 50) (checksum >> 8) m in
  mem_iowr_byte (tx + 51) (checksum .& 0xFF) m.

Section Connection.
Context `{Env}.

Definition tcp_send (conn : tcp_connection) (flags : Z) (data : list Z) (data_length : Z) : M Z :=
  let tcp_length := u16 (data_length + 20) in
  let ip_length := u16 (tcp_length + 20) in
  let frame_length := u16 (ip_length + 14) in
  wrbuf (tcp_write_frame conn flags data data_length tcp_length ip_length);;
  eth_mac_send_nb (eth_tx_addr conn) frame_length.

(** ** High-level functions *)

(** The character '0', which the code sends as a dummy payload and fills buffers
    with. *)
Definition chr0 : Z := 48.

Definition tcp_init_connection (conn : tcp_connection) (tx_addr rx_addr : Z)
    (srcMAC_ dstMAC_ srcIP_ dstIP_ : list Z) (srcport_ dstport_ send_size recv_size : Z)
    : option tcp_connection :=
  let dmac := for_ 6 (fun i l => <[Z.to_nat i := arr dstMAC_ i]> l) (dstMAC conn) in
  let smac := for_ 6 (fun i l => <[Z.to_nat i := arr srcMAC_ i]> l) (srcMAC conn) in
  let sip := for_ 4 (fun i l => <[Z.to_nat i := arr srcIP_ i]> l) (srcIP conn) in
  let dip := for_ 4 (fun i l => <[Z.to_nat i := arr dstIP_ i]> l) (dstIP conn) in
  sb ← memset (send_buffer conn) chr0 send_size;
  rb ← memset (recv_buffer conn) chr0 recv_size;
  Some (TcpConnection tx_addr rx_addr dmac smac sip dip srcport_ dstport_ 0x12345678 0x0 CLOSED
          0x1111 sb send_size rb recv_size).

Definition tcp_handle (conn : tcp_connection) : M (Z * tcp_connection) :=
  flags ← rdbuf (fun m => tcp_get_flags m (eth_rx_addr conn));
  seq ← rdbuf (fun m => tcp_get_seqnum m (eth_rx_addr conn));
  rx_dst_port ← rdbuf (fun m => tcp_get_destination_port m (eth_rx_addr conn));
  if rx_dst_port =? srcport conn then
    match status conn with
    | CLOSED =>
        tcp_send conn (RST .| ACK) [chr0] 0;;
        mret (1, conn)
    | LISTEN =>
        if (flags .& SYN) =? SYN then
          tcp_send conn (SYN .| ACK) [chr0] 0;;
          mret (0, set_status SYN_RCVD conn)
        else mret (0, conn)
    | SYN_SENT =>
        if flags =? (SYN .| ACK) then
          s ← rdbuf (fun m => tcp_get_acknum m (eth_rx_addr conn));
          a ← rdbuf (fun m => u32 (tcp_get_seqnum m (eth_rx_addr conn) + 1));
          let conn := set_seq_ack s a conn in
          tcp_send conn ACK [chr0] 0;;
          mret (1, set_status ESTABLISHED conn)
        else if flags =? SYN then
          tcp_send conn (SYN .| ACK) [chr0] 0;;
          mret (0, set_status SYN_RCVD conn)
        else if flags =? (RST .| ACK) then
          mret (0, set_status CLOSED conn)
        else
          tcp_send conn RST [chr0] 0;;
          mret (0, set_status CLOSED conn)
    | SYN_RCVD =>
        if (flags .& ACK) =? ACK then mret (1, set_status ESTABLISHED conn)
        else mret (0, conn)
    | ESTABLISHED =>
        let '(resolved, conn) :=
          if flags =? FIN then (0, set_status CLOSE_WAIT conn) else (1, conn) in
        tcp_send conn ACK [chr0] 0;;
        mret (resolved, conn)
    | FIN_WAIT_1 =>
        if flags =? (FIN .| ACK) then
          tcp_send conn ACK [chr0] 0;;
          mret (0, set_status TIME_WAIT conn)
        else if flags =? FIN then
          tcp_send conn ACK [chr0] 0;;
          mret (0, set_status CLOSING conn)
        else if flags =? ACK then
          tcp_send conn ACK [chr0] 0;;
          mret (0, set_status FIN_WAIT_2 conn)
        else mret (0, conn)
    | FIN_WAIT_2 =>
        if (flags .& FIN) =? FIN then
          tcp_send conn ACK [chr0] 0;;
          mret (0, set_status CLOSING conn)
        else mret (0, conn)
    | CLOSE_WAIT => mret (0, set_status LAST_ACK conn)
    | CLOSING =>
        if flags =? ACK then mret (0, set_status TIME_WAIT conn) else mret (0, conn)
    | TIME_WAIT => mret (1, set_status CLOSED conn)
    | LAST_ACK =>
        if flags =? ACK then mret (1, set_status CLOSED conn) else mret (0, conn)
    end
  else mret (1, conn).

(** [if (eth_mac_receive(conn->eth_rx_addr, 1)) if (mac_packet_type(...) == TCP) return
    tcp_handle(conn); ... return 0], the end of three routines. *)
Definition tcp_await (fuel : nat) (conn : tcp_connection) : M (Z * tcp_connection) :=
  r ← eth_mac_receive fuel (eth_rx_addr conn) 1;
  if negb (r =? 0) then
    type ← rdbuf (fun m => mac_packet_type m (eth_rx_addr conn));
    if bool_decide (type = TCP) then tcp_handle conn else mret (0, conn)
  else mret (0, conn).

Definition tcp_connect (fuel : nat) (conn : tcp_connection) : M (Z * tcp_connection) :=
  r ← tcp_send conn SYN [chr0] 1;
  if negb (r =? 0) then tcp_await fuel (set_status SYN_SENT conn) else mret (0, conn).

Definition tcp_listen (fuel : nat) (conn : tcp_connection) : M (Z * tcp_connection) :=
  r ← tcp_send conn SYN [chr0] 1;
  if negb (r =? 0) then tcp_await fuel (set_status LISTEN conn) else mret (0, conn).

Definition tcp_close (fuel : nat) (conn : tcp_connection) : M (Z * tcp_connection) :=
  match status conn with
  | SYN_RCVD | ESTABLISHED =>
      tcp_send conn FIN [chr0] 0;; tcp_await fuel (set_status FIN_WAIT_1 conn)
  | CLOSE_WAIT =>
      tcp_send conn FIN [chr0] 0;; tcp_await fuel (set_status LAST_ACK conn)
  | FIN_WAIT_1 | FIN_WAIT_2 | CLOSING | LAST_ACK => tcp_await fuel conn
  | TIME_WAIT | CLOSED | LISTEN | SYN_SENT => mret (1, set_status CLOSED conn)
  end.

Definition tcp_push (fuel : nat) (conn : tcp_connection) : M Z :=
  tcp_send conn (PSH .| ACK) (send_buffer conn) (send_buffer_size conn);;
  r ← eth_mac_receive fuel (eth_rx_addr conn) 1;
  if negb (r =? 0) then
    type ← rdbuf (fun m => mac_packet_type m (eth_rx_addr conn));
    if bool_decide (type = TCP) then
      port ← rdbuf (fun m => tcp_get_destination_port m (eth_rx_addr conn));
      flags ← rdbuf (fun m => tcp_get_flags m (eth_rx_addr conn));
      if (port =? srcport conn) && ((flags .& ACK) =? ACK) then mret 1
      else
        tcp_send conn (PSH .| ACK) (send_buffer conn) (send_buffer_size conn);;
        mret 0
    else mret 0
  else mret 0.

Definition tcp_recv (fuel : nat) (conn : tcp_connection) : M (Z * tcp_connection) :=
  r ← eth_mac_receive fuel (eth_rx_addr conn) 1;
  if negb (r =? 0) then
    type ← rdbuf (fun m => mac_packet_type m (eth_rx_addr conn));
    if bool_decide (type = TCP) then
      port ← rdbuf (fun m => tcp_get_destination_port m (eth_rx_addr conn));
      flags ← rdbuf (fun m => tcp_get_flags m (eth_rx_addr conn));
      if (port =? srcport conn) && ((flags .& PSH) =? PSH) then
        o ← rdbuf (fun m => tcp_get_data m (eth_rx_addr conn) (recv_buffer conn)
                              (recv_buffer_size conn));
        d ← lift o;
        let conn := set_recv (snd d) (u16 (fst d)) conn in
        tcp_send conn ACK [chr0] 0;;
        mret (1, conn)
      else mret (0, conn)
    else mret (0, conn)
  else mret (0, conn).

End Connection.

(** ** Lemmas: the segment *)

Lemma halves_port_seq p a b :
  0 <= p < 65536 -> 0 <= a < 256 -> 0 <= b < 256 ->
  let v := (p << 16) .| (a << 8) .| b in
  v / 65536 mod 65536 = p /\ v mod 65536 = a * 256 + b.
Proof.
  intros. unfold v. rewrite !shl_mul by lia. rewrite (lor_add (p * 2 ^ 16) (a * 2 ^ 8) 16) by zdm.
  rewrite (lor_add _ b 8) by zdm. split; zdm.
Qed.

(** The bytes of a 32-bit number. *)
Lemma num_bytes x :
  0 <= x < 0x100000000 ->
  (0 <= x >> 24 < 256 /\ 0 <= (x >> 16) .& 0xFF < 256) /\
  (0 <= (x >> 8) .& 0xFF < 256 /\ 0 <= x .& 0xFF < 256) /\
  (x >> 24) * 256 + ((x >> 16) .& 0xFF) = x / 65536 /\
  ((x >> 8) .& 0xFF) * 256 + (x .& 0xFF) = x mod 65536.
Proof.
  intros. rewrite !land_ff, !shr_div by lia.
  change (2 ^ 24) with 16777216. change (2 ^ 16) with 65536. change (2 ^ 8) with 256.
  repeat split; zdm.
Qed.

(** The header as 16-bit words, with the checksum fields clear. *)
Definition tcp_header (conn : tcp_connection) (flags iplen : Z) : list Z :=
  [arr (dstMAC conn) 0 * 256 + arr (dstMAC conn) 1; arr (dstMAC conn) 2 * 256 + arr (dstMAC conn) 3;
   arr (dstMAC conn) 4 * 256 + arr (dstMAC conn) 5; arr (srcMAC conn) 0 * 256 + arr (srcMAC conn) 1;
   arr (srcMAC conn) 2 * 256 + arr (srcMAC conn) 3; arr (srcMAC conn) 4 * 256 + arr (srcMAC conn) 5;
   0x0800; 0x4500; iplen; tcp_ipv4_id conn; 0x4000; 0x4006; 0;
   arr (srcIP conn) 0 * 256 + arr (srcIP conn) 1; arr (srcIP conn) 2 * 256 + arr (srcIP conn) 3;
   arr (dstIP conn) 0 * 256 + arr (dstIP conn) 1; arr (dstIP conn) 2 * 256 + arr (dstIP conn) 3;
   srcport conn; dstport conn; seqNum conn / 65536; seqNum conn mod 65536;
   ackNum conn / 65536; ackNum conn mod 65536; 80 * 256 + u8 flags; 0x7210; 0; 0].

(** The fields of a connection have the widths of their types. *)
Definition conn_wf (c : tcp_connection) : Prop :=
  (bytes (dstMAC c) /\ bytes (srcMAC c) /\ bytes (srcIP c) /\ bytes (dstIP c)) /\
  (length (dstMAC c) = 6%nat /\ length (srcMAC c) = 6%nat /\ length (srcIP c) = 4%nat /\
   length (dstIP c) = 4%nat) /\
  0 <= srcport c < 65536 /\ 0 <= dstport c < 65536 /\ 0 <= tcp_ipv4_id c < 65536 /\
  0 <= seqNum c < 0x100000000 /\ 0 <= ackNum c < 0x100000000.

Ltac tcp_halves :=
  lazymatch goal with
  | |- context [(_ << 16) .| (_ << 8) .| _] => apply halves_port_seq
  | |- _ => word_halves
  end.

Lemma tcp_header_written conn flags iplen n m w :
  conn_wf conn -> 0 <= iplen < 65536 -> 0 <= eth_tx_addr conn -> eth_tx_addr conn mod 4 = 0 ->
  eth_tx_addr conn + 56 < 0x100000000 -> 0 <= w < 27 ->
  fw (tcp_write_header conn flags (n + 20) iplen n m) (eth_tx_addr conn) (2 * w) =
  arr (tcp_header conn flags iplen) w.
Proof.
  intros ((B1 & B2 & B3 & B4) & _ & Hsp & Hdp & Hid & Hsq & Hak) Hil Ht Ha Hb Hw.
  pose proof (fun i => arr_byte _ i B1) as Bd. pose proof (fun i => arr_byte _ i B2) as Bs.
  pose proof (fun i => arr_byte _ i B3) as Bsi. pose proof (fun i => arr_byte _ i B4) as Bdi.
  destruct (num_bytes _ Hsq) as ([S1 S2] & [S3 S4] & S5 & S6).
  destruct (num_bytes _ Hak) as ([A1 A2] & [A3 A4] & A5 & A6).
  unfold tcp_write_header, tcp_header. cbv zeta. set (tx := eth_tx_addr conn) in *.
  replace (n + 20 - n) with 20 by lia. change ((20 << 2) << 8) with (80 << 8).
  change ((0x72 << 24) .| (0x10 << 16) .| 0x0000) with 0x72100000.
  assert (u8 flags .& 0xFF = u8 flags) as ->.
  { rewrite land_ff. apply Z.mod_small, u8_range. }
  pose proof (u8_range flags) as Hfl.
  rewrite <- S5, <- S6, <- A5, <- A6. clear S5 S6 A5 A6.
  replace (mem_iowr tx) with (mem_iowr (tx + 0)) by (by rewrite Z.add_0_r).
  rewrite !fw_wrw by (lia || zdm).
  assert (exists k, w = Z.of_nat k /\ (k < 27)%nat) as (k & -> & Hk)
    by (exists (Z.to_nat w); lia).
  do 27 (destruct k as [|k]; [eval_eqb; eval_arr; tcp_halves; auto; lia|]). lia.
Qed.

(** ** Lemmas: the checksum *)

(** The accumulation loop of [tcp_compute_checksum]. *)
Lemma tcp_loop m base k n c :
  0 <= n -> 0 <= c -> c + 65535 * n < 4294967296 ->
  for_ n (fun j checksum =>
    u32 (checksum + ((mem_iord_byte m (base + k + 2 * j) << 8)
                     + mem_iord_byte m (base + k + 2 * j + 1)))) c
  = c + zsum (frame_words m base k n).
Proof.
  intros Hn Hc Hb. rewrite <- checksum_loop by done. apply for_ext. intros j s Hj.
  replace (base + (k + 1) + 2 * j) with (base + k + 2 * j + 1) by lia.
  rewrite land_ff, (Z.mod_small (mem_iord_byte m (base + k + 2 * j + 1))) by apply mem_iord_byte_range.
  by rewrite Z.add_assoc.
Qed.

(** The two words of an address. *)
Lemma tcp_pseudo_loop m base k c :
  0 <= c -> c + 131070 < 4294967296 ->
  for_by2 4 (fun i checksum =>
    let hex := u16 ((mem_iord_byte m (base + k + i) << 8) + mem_iord_byte m (base + k + i + 1)) in
    u32 (checksum + hex)) c = c + zsum (frame_words m base k 2).
Proof.
  intros Hc Hb. rewrite <- tcp_loop by lia. unfold for_by2. change ((4 + 1) / 2) with 2.
  apply for_ext. intros j s Hj. cbv zeta. rewrite u16_small; [done|].
  pose proof (mem_iord_byte_range m (base + k + 2 * j)).
  pose proof (mem_iord_byte_range m (base + k + 2 * j + 1)). rewrite shl_mul by lia. lia.
Qed.

Lemma tcp_compute_checksum_eq m base l n :
  20 <= l < 65535 ->
  let p := seg_pad base l m in
  tcp_compute_checksum base l n m = (65535 - oc_norm (seg_rest p base 8 6 l + fw p base 50), p).
Proof.
  intros Hl p. unfold tcp_compute_checksum. cbv zeta.
  replace (base + 34 + l) with (base + l + 34) by lia. fold (seg_pad base l m). fold p.
  pose proof (seg_sum_split 8 6 ltac:(lia) p base l ltac:(lia)) as Hs. unfold seg_sum in Hs.
  change (34 + 2 * 8) with 50 in Hs. rewrite <- Hs. clear Hs.
  pose proof (zsum_nonneg _ (frame_words_range p base 26 2)) as H1.
  pose proof (zsum_nonneg _ (frame_words_range p base 30 2)) as H2.
  pose proof (zsum_nonneg _ (frame_words_range p base 34 (seg_words l))) as H3.
  rewrite frame_words_length in H1, H2, H3 by (unfold seg_words; zdm).
  pose proof (seg_words_range l 8 ltac:(lia) ltac:(lia)) as Hw.
  rewrite (tcp_pseudo_loop p base 26), (tcp_pseudo_loop p base 30) by lia.
  rewrite (u32_small (_ + 6)), (u32_small (_ + l)) by lia. unfold for_by2.
  assert (((if (l .& 0x1) =? 0 then l else u16 (l + 1)) + 1) / 2 = seg_words l) as ->.
  { rewrite land_1. unfold seg_words. destruct (Z.eqb_spec (l mod 2) 0); [done|].
    rewrite u16_small by lia. zdm. }
  rewrite (tcp_loop p base 34) by lia. rewrite finish_checksum_norm by lia.
  match goal with |- context [oc_norm ?x] => pose proof (oc_norm_range x) end.
  rewrite u16_small by lia. do 3 f_equal. change 4 with (2 + 2).
  rewrite frame_words_app, zsum_app by lia. change (26 + 2 * 2) with 30. lia.
Qed.

(** ** Lemmas: the frame *)

Lemma tcp_write_frame_stages conn flags data n l iplen m :
  let tx := eth_tx_addr conn in
  let m1 := tcp_write_header conn flags l iplen n m in
  let m2 := for_ n (fun i m => mem_iowr_byte (tx + 54 + i) (arr data i) m) m1 in
  let m3 := put16 (tx + 24) (ipv4_compute_checksum m2 tx) m2 in
  tcp_write_frame conn flags data n l iplen m =
  let '(c, m4) := tcp_compute_checksum tx l n m3 in put16 (tx + 50) c m4.
Proof.
  intros tx m1 m2 m3. unfold tcp_write_frame. cbv zeta. fold tx. fold m1. fold m2.
  replace (tx + 25) with (tx + 24 + 1) by lia.
  change (mem_iowr_byte (tx + 24 + 1) _ (mem_iowr_byte (tx + 24) _ m2)) with m3.
  destruct (tcp_compute_checksum tx l n m3) as [c m4]. unfold put16.
  by replace (tx + 50 + 1) with (tx + 51) by lia.
Qed.

Section Segment.
Context (conn : tcp_connection) (flags : Z) (data : list Z) (n : Z) (m : buf).
Context (Hwf : conn_wf conn) (Hda : bytes data) (Hn : 0 <= n).
Context (Htx : in_buffer (eth_tx_addr conn) (n + 55)) (Hal : eth_tx_addr conn mod 4 = 0).

Let tx := eth_tx_addr conn.
Let hdr := tcp_header conn flags (n + 40).
Let m1 := tcp_write_header conn flags (n + 20) (n + 40) n m.
Let m2 := for_ n (fun i m => mem_iowr_byte (tx + 54 + i) (arr data i) m) m1.
Let m3 := put16 (tx + 24) (ipv4_compute_checksum m2 tx) m2.
Let f := tcp_write_frame conn flags data n (n + 20) (n + 40) m.

Lemma seg_data_stage k :
  0 <= k < n + 55 ->
  fb m2 tx k = if (54 <=? k) && (k <? 54 + n) then arr data (k - 54) else fb m1 tx k.
Proof.
  intros Hk. destruct Htx as [H1 H2]. fold tx in H1, H2. unfold m2. rewrite write_loop by lia.
  destruct (_ && _); [|done]. apply u8_small. by apply arr_byte.
Qed.

Lemma seg_header_stage w : 0 <= w < 27 -> fw m2 tx (2 * w) = arr hdr w.
Proof.
  intros Hw. destruct Htx as [H1 H2]. unfold hdr.
  rewrite <- (tcp_header_written conn flags (n + 40) n m) by (done || lia).
  fold m1. fold tx. unfold fw. rewrite !seg_data_stage by lia. zif. done.
Qed.

Lemma seg_ip_stage k : 0 <= k < n + 55 -> k <> 24 -> k <> 25 -> fb m3 tx k = fb m2 tx k.
Proof.
  intros ? ? ?. destruct Htx as [Ht1 Ht2]. fold tx in Ht1, Ht2. unfold m3. rewrite fb_put16 by lia. zif. done.
Qed.

Lemma seg_final k : 0 <= k < n + 54 -> k <> 50 -> k <> 51 -> fb f tx k = fb m3 tx k.
Proof.
  intros Hk H1 H2. destruct Htx as [Ht1 Ht2]. fold tx in Ht1, Ht2.
  unfold f. rewrite tcp_write_frame_stages. cbv zeta.
  fold tx. fold m1. fold m2. fold m3. rewrite tcp_compute_checksum_eq by lia.
  rewrite fb_put16 by lia. zif. rewrite fb_pad by lia.
  destruct (Z.eqb_spec (n + 20 + 34) k); [lia|]. by rewrite andb_false_r.
Qed.

Lemma seg_fields w : 0 <= w < 27 -> w <> 12 -> w <> 25 -> fw f tx (2 * w) = arr hdr w.
Proof.
  intros. rewrite <- seg_header_stage by lia. unfold fw.
  rewrite !seg_final, !seg_ip_stage by lia. done.
Qed.

Lemma seg_payload k : 0 <= k < n -> fb f tx (54 + k) = arr data k.
Proof.
  intros. rewrite seg_final, seg_ip_stage, seg_data_stage by lia. zif. f_equal. lia.
Qed.

Lemma seg_ip_verifies : ipv4_verify_checksum f tx = 1.
Proof.
  destruct Htx as [H1 H2]. fold tx in H1, H2. rewrite ipv4_verify_checksum_eq. unfold ip_header.
  rewrite (frame_words_ext f m3) by (intros; apply seg_final; lia). fold (ip_header m3 tx).
  rewrite <- ipv4_verify_checksum_eq. apply ipv4_fill_verifies; [lia..|].
  pose proof (seg_header_stage 12 ltac:(lia)) as E. unfold hdr, tcp_header in E.
  change (fb m2 tx 24 * 256 + fb m2 tx 25 = 0) in E.
  pose proof (fb_range m2 tx 24). pose proof (fb_range m2 tx 25). lia.
Qed.

(** The checksum field is clear when the checksum is computed. *)
Lemma seg_checksum_clear : fw (seg_pad tx (n + 20) m3) tx 50 = 0.
Proof.
  destruct Htx as [H1 H2]. fold tx in H1, H2. unfold fw. rewrite !(fb_pad_low 8) by lia.
  rewrite !seg_ip_stage by lia. exact (seg_header_stage 25 ltac:(lia)).
Qed.

Lemma seg_sum_valid : oc_norm (seg_sum (seg_pad tx (n + 20) f) tx 6 (n + 20)) = 65535.
Proof.
  destruct Htx as [H1 H2]. fold tx in H1, H2. unfold f. rewrite tcp_write_frame_stages. cbv zeta.
  fold tx. fold m1. fold m2. fold m3. rewrite tcp_compute_checksum_eq by lia.
  rewrite seg_checksum_clear, Z.add_0_r.
  exact (seg_fill_sum 8 6 ltac:(lia) ltac:(lia) m3 tx (n + 20) H1 ltac:(lia) ltac:(lia)).
Qed.

End Segment.

(** ** Lemmas: reading a segment *)

Lemma field_add m a : u16 ((mem_iord_byte m a << 8) + mem_iord_byte m (a + 1)) =
  mem_iord_byte m a * 256 + mem_iord_byte m (a + 1).
Proof.
  pose proof (mem_iord_byte_range m a). pose proof (mem_iord_byte_range m (a + 1)).
  rewrite shl_mul, u16_small by lia. done.
Qed.

Lemma tcp_get_ports_eq m base :
  tcp_get_source_port m base = fw m base 34 /\ tcp_get_destination_port m base = fw m base 36.
Proof.
  unfold tcp_get_source_port, tcp_get_destination_port.
  replace (base + 35) with (base + 34 + 1) by lia. replace (base + 37) with (base + 36 + 1) by lia.
  rewrite !field_add. unfold fw, fb. by rewrite !Z.add_assoc.
Qed.

Lemma number_field m base k :
  u32 ((mem_iord_byte m (base + k) << 24) + (mem_iord_byte m (base + (k + 1)) << 16)
       + (mem_iord_byte m (base + (k + 2)) << 8) + mem_iord_byte m (base + (k + 3)))
  = fw m base k * 65536 + fw m base (k + 2).
Proof.
  unfold fw, fb. replace (base + (k + 2 + 1)) with (base + (k + 3)) by lia.
  pose proof (mem_iord_byte_range m (base + k)). pose proof (mem_iord_byte_range m (base + (k + 1))).
  pose proof (mem_iord_byte_range m (base + (k + 2))).
  pose proof (mem_iord_byte_range m (base + (k + 3))).
  rewrite !shl_mul, u32_small by lia. lia.
Qed.

Lemma tcp_get_numbers_eq m base :
  tcp_get_seqnum m base = fw m base 38 * 65536 + fw m base 40 /\
  tcp_get_acknum m base = fw m base 42 * 65536 + fw m base 44.
Proof. split; [exact (number_field m base 38)|exact (number_field m base 42)]. Qed.

(** A segment with the given header, as a receiver reads it. *)
Definition segment_at (m : buf) (base : Z) (hdr : list Z) : Prop :=
  forall w, 0 <= w < 27 -> w <> 12 -> w <> 25 -> fw m base (2 * w) = arr hdr w.

Lemma tcp_decode m base conn flags n :
  segment_at m base (tcp_header conn flags (n + 40)) -> conn_wf conn -> 0 <= n < 65000 ->
  mac_packet_type m base = TCP /\
  tcp_get_source_port m base = srcport conn /\ tcp_get_destination_port m base = dstport conn /\
  tcp_get_seqnum m base = seqNum conn /\ tcp_get_acknum m base = ackNum conn /\
  tcp_get_flags m base = u8 flags /\ tcp_get_header_length m base = 20 /\
  tcp_get_data_length m base = n.
Proof.
  intros Hh (_ & _ & _ & _ & _ & Hsq & Hak) Hn.
  assert (forall w, 0 <= w < 27 -> w <> 12 -> w <> 25 ->
          fw m base (2 * w) = arr (tcp_header conn flags (n + 40)) w) as H by exact Hh.
  pose proof (H 6 ltac:(lia) ltac:(lia) ltac:(lia)) as H12. change (fw m base 12 = 0x0800) in H12.
  pose proof (H 8 ltac:(lia) ltac:(lia) ltac:(lia)) as H16. change (fw m base 16 = n + 40) in H16.
  pose proof (H 11 ltac:(lia) ltac:(lia) ltac:(lia)) as H22. change (fw m base 22 = 0x4006) in H22.
  pose proof (H 23 ltac:(lia) ltac:(lia) ltac:(lia)) as H46.
  change (fb m base 46 * 256 + fb m base 47 = 80 * 256 + u8 flags) in H46.
  pose proof (fb_range m base 46). pose proof (fb_range m base 47). pose proof (u8_range flags).
  assert (tcp_get_header_length m base = 20) as Hhl.
  { unfold tcp_get_header_length. fold (fb m base 46). replace (fb m base 46) with 80 by lia. done. }
  destruct (tcp_get_ports_eq m base) as [-> ->]. destruct (tcp_get_numbers_eq m base) as [-> ->].
  split.
  { rewrite mac_packet_type_classify, H12. unfold fw in H22. change (22 + 1) with 23 in H22.
    assert (fb m base 23 = 6) as ->
      by (pose proof (fb_range m base 22); pose proof (fb_range m base 23); lia). done. }
  split; [exact (H 17 ltac:(lia) ltac:(lia) ltac:(lia))|].
  split; [exact (H 18 ltac:(lia) ltac:(lia) ltac:(lia))|].
  split; [change 38 with (2 * 19); change 40 with (2 * 20); rewrite !H by lia;
          change (seqNum conn / 65536 * 65536 + seqNum conn mod 65536 = seqNum conn); zdm|].
  split; [change 42 with (2 * 21); change 44 with (2 * 22); rewrite !H by lia;
          change (ackNum conn / 65536 * 65536 + ackNum conn mod 65536 = ackNum conn); zdm|].
  split; [unfold tcp_get_flags; fold (fb m base 47); rewrite land_ff;
          replace (fb m base 47) with (u8 flags) by lia; unfold u8; by rewrite !Zmod_mod|].
  split; [done|]. unfold tcp_get_data_length. rewrite ipv4_get_length_eq, H16, Hhl.
  rewrite u16_small; lia.
Qed.

(** Delivery of a segment written by [tcp_send]. *)
Lemma tcp_delivered conn flags data n m m' rx :
  conn_wf conn -> bytes data -> 0 <= n -> in_buffer (eth_tx_addr conn) (n + 55) ->
  eth_tx_addr conn mod 4 = 0 ->
  delivered (tcp_write_frame conn flags data n (n + 20) (n + 40) m) (eth_tx_addr conn) m' rx (n + 54) ->
  segment_at m' rx (tcp_header conn flags (n + 40)).
Proof.
  intros Hwf Hd Hn Htx Hal Hdel w Hw H1 H2.
  rewrite <- (seg_fields conn flags data n m Hwf Hd Hn Htx Hal) by lia.
  unfold fw. rewrite !Hdel by lia. done.
Qed.

Section TcpTheorems.
Context `{Env}.

Lemma tcp_send_run conn flags data n s :
  0 <= n < 65000 ->
  tcp_send conn flags data n s =
  Some (1, nb_done (eth_tx_addr conn) (n + 54)
             (set_buff (tcp_write_frame conn flags data n (n + 20) (n + 40)) s)).
Proof.
  intros Hn. unfold tcp_send. cbv zeta.
  rewrite (u16_small (n + 20)), (u16_small (n + 20 + 20)), (u16_small (n + 20 + 20 + 14)) by lia.
  replace (n + 20 + 20 + 14) with (n + 54) by lia. replace (n + 20 + 20) with (n + 40) by lia.
  rewrite bind_wrbuf. apply eth_mac_send_nb_run.
Qed.

(** TCP round trip: when the bytes of a segment written by [tcp_send]
    reach a receiver, it classifies the frame as TCP, the IP header verifies, the
    segment's checksum is valid in the sense of RFC 793 (which the library itself
    does not check), and the receiver reads back ports, numbers, flags and data. *)
Theorem tcp_segment_roundtrip conn flags data m m' rx d :
  let n := Z.of_nat (length data) in
  conn_wf conn -> bytes data -> in_buffer (eth_tx_addr conn) (n + 55) ->
  eth_tx_addr conn mod 4 = 0 -> in_buffer rx (n + 55) -> length d = length data ->
  delivered (tcp_write_frame conn flags data n (n + 20) (n + 40) m) (eth_tx_addr conn) m' rx (n + 54) ->
  mac_packet_type m' rx = TCP /\ ipv4_verify_checksum m' rx = 1 /\ seg_valid m' rx 6 (n + 20) /\
  tcp_get_source_port m' rx = srcport conn /\ tcp_get_destination_port m' rx = dstport conn /\
  tcp_get_seqnum m' rx = seqNum conn /\ tcp_get_acknum m' rx = ackNum conn /\
  tcp_get_flags m' rx = u8 flags /\ tcp_get_data m' rx d (Z.of_nat (length d)) = Some (n, data).
Proof.
  intros n Hwf Hda Htx Hal Hrx Hd Hdel. assert (0 <= n) as Hn by (unfold n; lia).
  pose proof Htx as [Ht1 Ht2]. pose proof Hrx as [Hr1 Hr2].
  pose proof (tcp_delivered conn flags data n m m' rx Hwf Hda Hn Htx Hal Hdel) as Hs.
  destruct (tcp_decode m' rx conn flags n Hs Hwf ltac:(lia)) as (T1 & T2 & T3 & T4 & T5 & T6 & T7 & T8).
  set (f := tcp_write_frame conn flags data n (n + 20) (n + 40) m) in *.
  split; [done|]. split.
  { rewrite ipv4_verify_checksum_eq. unfold ip_header.
    rewrite (frame_words_ext2 m' f rx (eth_tx_addr conn)) by (intros; apply Hdel; lia).
    fold (ip_header f (eth_tx_addr conn)). rewrite <- ipv4_verify_checksum_eq.
    by apply seg_ip_verifies. }
  split.
  { apply (seg_valid_norm 8 6); [lia..|].
    rewrite (seg_sum_delivered 8 6 ltac:(lia) ltac:(lia) f (eth_tx_addr conn));
      [by apply seg_sum_valid| |lia..]. by replace (34 + (n + 20)) with (n + 54) by lia. }
  do 5 (split; [done|]). unfold tcp_get_data. rewrite T8, T7, fill_spec by done.
  destruct (Z.leb_spec n (Z.of_nat (length d))); [|lia]. cbn [mbind option_bind]. do 2 f_equal.
  rewrite drop_ge, app_nil_r by lia. replace (rx + 34 + 20) with (rx + 54) by lia.
  apply byte_list_eq; [lia|lia|]. intros i Hi. rewrite Hdel by lia.
  by apply (seg_payload conn flags data n m).
Qed.

(** *** The state machine *)

(** What [tcp_handle] does on a segment for the connection's port: the flags of the
    segment it sends, if any, the next state and the result. *)
Definition tcp_reaction (st : tcpstate) (flags : Z) : option Z * tcpstate * Z :=
  match st with
  | CLOSED => (Some (RST .| ACK), CLOSED, 1)
  | LISTEN => if (flags .& SYN) =? SYN then (Some (SYN .| ACK), SYN_RCVD, 0) else (None, LISTEN, 0)
  | SYN_SENT =>
      if flags =? (SYN .| ACK) then (Some ACK, ESTABLISHED, 1)
      else if flags =? SYN then (Some (SYN .| ACK), SYN_RCVD, 0)
      else if flags =? (RST .| ACK) then (None, CLOSED, 0) else (Some RST, CLOSED, 0)
  | SYN_RCVD => if (flags .& ACK) =? ACK then (None, ESTABLISHED, 1) else (None, SYN_RCVD, 0)
  | ESTABLISHED => if flags =? FIN then (Some ACK, CLOSE_WAIT, 0) else (Some ACK, ESTABLISHED, 1)
  | FIN_WAIT_1 =>
      if flags =? (FIN .| ACK) then (Some ACK, TIME_WAIT, 0)
      else if flags =? FIN then (Some ACK, CLOSING, 0)
      else if flags =? ACK then (Some ACK, FIN_WAIT_2, 0) else (None, FIN_WAIT_1, 0)
  | FIN_WAIT_2 => if (flags .& FIN) =? FIN then (Some ACK, CLOSING, 0) else (None, FIN_WAIT_2, 0)
  | CLOSE_WAIT => (None, LAST_ACK, 0)
  | CLOSING => if flags =? ACK then (None, TIME_WAIT, 0) else (None, CLOSING, 0)
  | TIME_WAIT => (None, CLOSED, 1)
  | LAST_ACK => if flags =? ACK then (None, CLOSED, 1) else (None, LAST_ACK, 0)
  end.

(** The connection after the numbers were taken from a SYN+ACK. *)
Definition tcp_sync (m : buf) (conn : tcp_connection) : tcp_connection :=
  match status conn with
  | SYN_SENT =>
      if tcp_get_flags m (eth_rx_addr conn) =? (SYN .| ACK) then
        set_seq_ack (tcp_get_acknum m (eth_rx_addr conn))
          (u32 (tcp_get_seqnum m (eth_rx_addr conn) + 1)) conn
      else conn
  | _ => conn
  end.

(** The state after a segment without data was sent. *)
Definition tcp_sent (conn : tcp_connection) (flags : Z) (s : machine) : machine :=
  nb_done (eth_tx_addr conn) 54 (set_buff (tcp_write_frame conn flags [chr0] 0 20 40) s).

Lemma tcp_send_empty conn flags s : tcp_send conn flags [chr0] 0 s = Some (1, tcp_sent conn flags s).
Proof. exact (tcp_send_run conn flags [chr0] 0 s ltac:(lia)). Qed.

Lemma set_status_same conn : set_status (status conn) conn = conn.
Proof. by destruct conn. Qed.

(** [tcp_handle] always returns, and in terms of the table. *)
Lemma tcp_handle_run conn s :
  tcp_handle conn s =
  if tcp_get_destination_port (buff s) (eth_rx_addr conn) =? srcport conn then
    let '(reply, st, r) := tcp_reaction (status conn) (tcp_get_flags (buff s) (eth_rx_addr conn)) in
    let conn := tcp_sync (buff s) conn in
    Some ((r, set_status st conn),
          match reply with Some fl => tcp_sent conn fl s | None => s end)
  else Some ((1, conn), s).
Proof.
  unfold tcp_handle. rewrite !bind_rdbuf.
  destruct (tcp_get_destination_port (buff s) (eth_rx_addr conn) =? srcport conn); [|reflexivity].
  unfold tcp_reaction, tcp_sync. set (fl := tcp_get_flags (buff s) (eth_rx_addr conn)).
  pose proof (set_status_same conn) as Hsame.
  destruct (status conn) eqn:Est;
    repeat match goal with
    | |- context [if ?a =? ?b then _ else _] => destruct (a =? b)
    end; rewrite ?bind_rdbuf, ?(bind_some _ _ _ _ _ (tcp_send_empty _ _ _)), ?Hsame; reflexivity.
Qed.

Definition has (flags f : Z) : bool := (flags .& f) =? f.

(** RFC 793, "segment arrives": the states a connection may be in after a segment with these
    flags, a sequence number in the window and an acceptable acknowledgement. Where there are two
    it depends on how the connection was opened (a reset in SYN_RCVD), or on whether the
    acknowledgement covers the FIN that was sent. *)
Definition rfc793 (flags : Z) (st : tcpstate) : list tcpstate :=
  let '(rst, syn, ack, fin) := (has flags RST, has flags SYN, has flags ACK, has flags FIN) in
  match st with
  | CLOSED => [CLOSED]
  | LISTEN => if rst || ack then [LISTEN] else if syn then [SYN_RCVD] else [LISTEN]
  | SYN_SENT =>
      if rst then [if ack then CLOSED else SYN_SENT]
      else if syn then [if ack then (if fin then CLOSE_WAIT else ESTABLISHED) else SYN_RCVD]
      else [SYN_SENT]
  | _ =>
      if rst then match st with SYN_RCVD => [LISTEN; CLOSED] | _ => [CLOSED] end
      else if syn then [CLOSED]
      else if negb ack then [st]
      else match st with
           | SYN_RCVD => [if fin then CLOSE_WAIT else ESTABLISHED]
           | ESTABLISHED => [if fin then CLOSE_WAIT else ESTABLISHED]
           | FIN_WAIT_1 => if fin then [TIME_WAIT; CLOSING] else [FIN_WAIT_2; FIN_WAIT_1]
           | FIN_WAIT_2 => [if fin then TIME_WAIT else FIN_WAIT_2]
           | CLOSING => [TIME_WAIT; CLOSING]
           | LAST_ACK => [CLOSED; LAST_ACK]
           | _ => [st]
           end
  end.

(** Where [tcp_handle] goes to other states, and where it stays though RFC 793 does not. *)
Inductive tcp_deviation (flags : Z) : tcpstate -> tcpstate -> Prop :=
| dev_listen : has flags SYN = true -> has flags RST || has flags ACK = true -> tcp_deviation flags LISTEN SYN_RCVD
| dev_abort : flags <> (SYN .| ACK) -> flags <> SYN -> has flags RST && has flags ACK = false ->
    tcp_deviation flags SYN_SENT CLOSED
| dev_accept : has flags ACK = true -> has flags RST || has flags SYN || has flags FIN = true ->
    tcp_deviation flags SYN_RCVD ESTABLISHED
| dev_fin : flags = FIN -> tcp_deviation flags ESTABLISHED CLOSE_WAIT
| dev_fin1 : flags = FIN -> tcp_deviation flags FIN_WAIT_1 CLOSING
| dev_fin2 : has flags FIN = true -> tcp_deviation flags FIN_WAIT_2 CLOSING
| dev_close_wait : tcp_deviation flags CLOSE_WAIT LAST_ACK
| dev_time_wait : has flags RST || has flags SYN = false -> tcp_deviation flags TIME_WAIT CLOSED
| stay_rcvd : has flags ACK = false -> has flags RST || has flags SYN = true -> tcp_deviation flags SYN_RCVD SYN_RCVD
| stay_established : has flags RST || has flags SYN || (has flags ACK && has flags FIN) = true ->
    tcp_deviation flags ESTABLISHED ESTABLISHED
| stay_fin1 : has flags RST || has flags SYN || (has flags ACK && has flags FIN) = true -> flags <> (FIN .| ACK) ->
    tcp_deviation flags FIN_WAIT_1 FIN_WAIT_1
| stay_fin2 : has flags FIN = false -> has flags RST || has flags SYN = true -> tcp_deviation flags FIN_WAIT_2 FIN_WAIT_2
| stay_closing : has flags RST || has flags SYN = true -> tcp_deviation flags CLOSING CLOSING
| stay_last_ack : has flags RST || has flags SYN = true -> tcp_deviation flags LAST_ACK LAST_ACK.

(** Decide the conditions of the code, then those of the RFC. *)
Ltac tcp_cases flags :=
  unfold tcp_reaction; fold (has flags SYN) (has flags ACK) (has flags FIN);
  repeat match goal with |- context [if flags =? ?b then _ else _] => destruct (Z.eqb_spec flags b); [subst flags|] end;
  cbn [fst snd].

Ltac tcp_bits flags :=
  unfold rfc793; destruct (has flags RST) eqn:?, (has flags SYN) eqn:?, (has flags ACK) eqn:?, (has flags FIN) eqn:?;
  try discriminate; cbn.

(** The next state is one of RFC 793, or a deviation. *)
Lemma tcp_reaction_edges st flags :
  let st' := snd (fst (tcp_reaction st flags)) in
  In st' (rfc793 flags st) \/ tcp_deviation flags st st'.
Proof.
  destruct st; tcp_cases flags.
  all: try (left; vm_compute; by auto).
  all: try (right; by constructor).
  all: tcp_bits flags; auto; right.
  all: (eapply dev_listen || eapply dev_abort || eapply dev_accept || eapply dev_fin2 || eapply dev_time_wait ||
        eapply stay_rcvd || eapply stay_established || eapply stay_fin1 || eapply stay_fin2 || eapply stay_closing ||
        eapply stay_last_ack).
  all: repeat match goal with E : has _ _ = _ |- _ => rewrite E; clear E end; done.
Qed.

(** What is listed as a deviation happens, and is none of the states of RFC 793. *)
Lemma tcp_deviation_exact flags st st' :
  tcp_deviation flags st st' -> snd (fst (tcp_reaction st flags)) = st' /\ ~ In st' (rfc793 flags st).
Proof.
  intros D. destruct D; try (subst flags; split; [done|vm_compute; by intuition discriminate]);
    tcp_cases flags; try done; tcp_bits flags; by intuition discriminate.
Qed.

(** How a connection becomes established. *)
Lemma tcp_reaction_established st flags :
  snd (fst (tcp_reaction st flags)) = ESTABLISHED -> st <> ESTABLISHED ->
  (st = SYN_SENT /\ flags = (SYN .| ACK)) \/ (st = SYN_RCVD /\ has flags ACK = true).
Proof.
  intros Hs Hn. unfold tcp_reaction in Hs. destruct st; try done;
    repeat match type of Hs with
    | context [if ?a =? ?b then _ else _] => destruct (Z.eqb_spec a b)
    end; try done; [by left|right]. split; [done|]. unfold has. by apply Z.eqb_eq.
Qed.

(** What [tcp_sync] changes. *)
Lemma tcp_sync_numbers m conn :
  let c := tcp_sync m conn in
  c = set_seq_ack (seqNum c) (ackNum c) conn /\
  (seqNum c = seqNum conn /\ ackNum c = ackNum conn \/
   status conn = SYN_SENT /\
   snd (fst (tcp_reaction (status conn) (tcp_get_flags m (eth_rx_addr conn)))) = ESTABLISHED).
Proof.
  unfold tcp_sync, tcp_reaction. cbv zeta. destruct (status conn) eqn:Es; try (destruct (_ =? (SYN .| ACK)));
    (split; [by destruct conn|by auto]).
Qed.

(** Claim C28. Safety of the state machine. [tcp_handle] always returns. A segment for another port
    changes nothing. A segment for the connection's port, with a sequence number in the window and
    an acceptable acknowledgement (which the code does not check), takes the connection to a state
    to which RFC 793 takes it for those flags, or it is one of the fourteen deviations listed,
    each of which happens and is none of the RFC's: eight other transitions (a SYN with ACK or RST
    is accepted in LISTEN; SYN_SENT is left for CLOSED on anything but SYN, SYN+ACK and RST+ACK;
    SYN_RCVD becomes established by an ACK that carries RST, SYN or FIN; a FIN without ACK takes
    ESTABLISHED to CLOSE_WAIT and FIN_WAIT_1 to CLOSING; FIN_WAIT_2 goes to CLOSING on a FIN;
    CLOSE_WAIT goes to LAST_ACK on any segment, and TIME_WAIT to CLOSED on one without RST and
    SYN) and six states that are kept (RST and SYN are ignored in SYN_RCVD, ESTABLISHED,
    FIN_WAIT_1, FIN_WAIT_2, CLOSING and LAST_ACK; so is FIN+ACK in ESTABLISHED, and in FIN_WAIT_1
    when it carries further flags). A connection becomes established only by a SYN+ACK in SYN_SENT or an ACK in
    SYN_RCVD, and apart from the state only the two sequence numbers change, by a SYN+ACK. *)
Theorem tcp_handle_safety conn s :
  exists r conn' s', tcp_handle conn s = Some ((r, conn'), s') /\
  let flags := tcp_get_flags (buff s) (eth_rx_addr conn) in
  let port := tcp_get_destination_port (buff s) (eth_rx_addr conn) in
  (port <> srcport conn -> r = 1 /\ conn' = conn /\ s' = s) /\
  (port = srcport conn ->
   (In (status conn') (rfc793 flags (status conn)) \/ tcp_deviation flags (status conn) (status conn')) /\
   forall st, tcp_deviation flags (status conn) st ->
     status conn' = st /\ ~ In st (rfc793 flags (status conn))) /\
  (status conn' = ESTABLISHED -> status conn <> ESTABLISHED ->
   (status conn = SYN_SENT /\ flags = (SYN .| ACK)) \/
   (status conn = SYN_RCVD /\ has flags ACK = true)) /\
  conn' = set_status (status conn') (set_seq_ack (seqNum conn') (ackNum conn') conn) /\
  (seqNum conn' = seqNum conn /\ ackNum conn' = ackNum conn \/
   status conn = SYN_SENT /\ status conn' = ESTABLISHED).
Proof.
  rewrite tcp_handle_run. cbv zeta. set (flags := tcp_get_flags (buff s) (eth_rx_addr conn)).
  destruct (Z.eqb_spec (tcp_get_destination_port (buff s) (eth_rx_addr conn)) (srcport conn)) as [E|E].
  2:{ exists 1, conn, s. split; [done|]. split; [done|]. split; [done|]. split; [done|].
      split; [by destruct conn|by left]. }
  pose proof (tcp_reaction_edges (status conn) flags) as He. cbv zeta in He.
  pose proof (tcp_deviation_exact flags (status conn)) as Hd.
  pose proof (tcp_reaction_established (status conn) flags) as Hest.
  destruct (tcp_sync_numbers (buff s) conn) as [Hc Hn]. fold flags in Hn.
  destruct (tcp_reaction (status conn) flags) as [[reply st] r]. cbn [fst snd] in *.
  set (c := tcp_sync (buff s) conn) in *.
  exists r, (set_status st c), (match reply with Some fl => tcp_sent c fl s | None => s end).
  split; [done|]. cbn [status set_status seqNum ackNum]. split; [done|]. split; [by split; [exact He|exact Hd]|].
  split; [done|]. split; [|done]. rewrite Hc at 1. reflexivity.
Qed.

(** What was put on the wire: [len] bytes that agree with the frame [f]. *)
Definition on_wire (s s' : machine) (tx len : Z) (f b : buf) : Prop :=
  (exists b', tx_log (hist s') = TxFrame (u32 tx) 0 b' :: TxFrame (u32 tx) len b :: tx_log (hist s)) /\
  delivered f tx b tx len.

Lemma tcp_sent_on_wire conn flags s :
  dma_avoids (eth_tx_addr conn) 54 ->
  exists b, on_wire s (tcp_sent conn flags s) (eth_tx_addr conn) 54
              (tcp_write_frame conn flags [chr0] 0 20 40 (buff s)) b.
Proof.
  intros Hd. exists (buff (nb_armed (eth_tx_addr conn)
                     (set_buff (tcp_write_frame conn flags [chr0] 0 20 40) s))).
  split; [|intros k Hk; apply (nb_armed_frame _ _ 54); done].
  destruct (tx_log_nb (eth_tx_addr conn) 54
              (set_buff (tcp_write_frame conn flags [chr0] 0 20 40) s)) as [b' E].
  exists b'. exact E.
Qed.

Lemma delivered_trans m1 a1 m2 a2 m3 a3 n :
  delivered m1 a1 m2 a2 n -> delivered m2 a2 m3 a3 n -> delivered m1 a1 m3 a3 n.
Proof. intros D1 D2 k Hk. by rewrite D2, D1. Qed.

(** A connection as the send routines need it. *)
Definition conn_ready (c : tcp_connection) : Prop :=
  conn_wf c /\ in_buffer (eth_tx_addr c) 56 /\ eth_tx_addr c mod 4 = 0.

Lemma chr0_bytes : bytes [chr0].
Proof. unfold chr0. repeat constructor; lia. Qed.

(** The segment [conn] sends with the given flags, when it reaches [m'] at [rx]. *)
Lemma tcp_hear conn flags n m m' rx :
  conn_ready conn -> 0 <= n <= 1 ->
  delivered (tcp_write_frame conn flags [chr0] n (n + 20) (n + 40) m) (eth_tx_addr conn) m' rx (n + 54) ->
  tcp_get_destination_port m' rx = dstport conn /\ tcp_get_flags m' rx = u8 flags /\
  tcp_get_seqnum m' rx = seqNum conn /\ tcp_get_acknum m' rx = ackNum conn.
Proof.
  intros (Hwf & [Ht1 Ht2] & Hal) Hn Hd.
  pose proof (tcp_delivered conn flags [chr0] n m m' rx Hwf chr0_bytes ltac:(lia)
                ltac:(split; lia) Hal Hd) as Hs.
  destruct (tcp_decode m' rx conn flags n Hs Hwf ltac:(lia)) as (_ & _ & ? & ? & ? & ? & _). done.
Qed.

(** Reaction to a heard segment. *)
Lemma tcp_handle_heard conn s flags :
  tcp_get_destination_port (buff s) (eth_rx_addr conn) = srcport conn ->
  tcp_get_flags (buff s) (eth_rx_addr conn) = flags ->
  tcp_handle conn s =
  let '(reply, st, r) := tcp_reaction (status conn) flags in
  let conn := tcp_sync (buff s) conn in
  Some ((r, set_status st conn), match reply with Some fl => tcp_sent conn fl s | None => s end).
Proof. intros Hp <-. rewrite tcp_handle_run, Hp, Z.eqb_refl. reflexivity. Qed.

(** Claim C27. The three-way handshake: when the segments of a client in SYN_SENT and
    a server in LISTEN reach each other, the server answers the SYN with a SYN+ACK,
    the client answers that with an ACK, and both end up ESTABLISHED. The client then
    acknowledges the server's sequence number plus one; its own sequence number
    becomes the server's acknowledgement number, which the server has not set from
    the client's SYN. *)
Theorem tcp_handshake cli srv sS mC :
  conn_ready cli -> conn_ready srv -> status cli = SYN_SENT -> status srv = LISTEN ->
  dstport cli = srcport srv -> dstport srv = srcport cli ->
  dma_avoids (eth_tx_addr cli) 54 -> dma_avoids (eth_tx_addr srv) 54 ->
  delivered (tcp_write_frame cli SYN [chr0] 1 21 41 mC) (eth_tx_addr cli)
    (buff sS) (eth_rx_addr srv) 55 ->
  exists srv' sS' b1, tcp_handle srv sS = Some ((0, srv'), sS') /\ status srv' = SYN_RCVD /\
    on_wire sS sS' (eth_tx_addr srv) 54
      (tcp_write_frame srv (SYN .| ACK) [chr0] 0 20 40 (buff sS)) b1 /\
    forall sC, delivered b1 (eth_tx_addr srv) (buff sC) (eth_rx_addr cli) 54 ->
    exists cli' sC' b2, tcp_handle cli sC = Some ((1, cli'), sC') /\ status cli' = ESTABLISHED /\
      ackNum cli' = u32 (seqNum srv + 1) /\ seqNum cli' = ackNum srv /\
      on_wire sC sC' (eth_tx_addr cli) 54
        (tcp_write_frame cli' ACK [chr0] 0 20 40 (buff sC)) b2 /\
      forall sS2, delivered b2 (eth_tx_addr cli) (buff sS2) (eth_rx_addr srv) 54 ->
      tcp_handle srv' sS2 = Some ((1, set_status ESTABLISHED srv'), sS2).
Proof.
  intros Hc Hs Ec Es Pc Ps Dc Ds Hsyn.
  destruct (tcp_hear cli SYN 1 mC (buff sS) _ Hc ltac:(lia) Hsyn) as (H1 & H2 & _).
  rewrite Pc in H1. rewrite (tcp_handle_heard srv sS _ H1 H2). unfold tcp_sync. rewrite Es.
  destruct (tcp_sent_on_wire srv (SYN .| ACK) sS Ds) as [b1 W1].
  exists (set_status SYN_RCVD srv), (tcp_sent srv (SYN .| ACK) sS), b1.
  split; [reflexivity|]. split; [done|]. split; [exact W1|]. intros sC HsC. destruct W1 as [_ W1].
  destruct (tcp_hear srv (SYN .| ACK) 0 (buff sS) (buff sC) _ Hs ltac:(lia)
              (delivered_trans _ _ _ _ _ _ _ W1 HsC)) as (H3 & H4 & H5 & H6).
  rewrite Ps in H3. rewrite (tcp_handle_heard cli sC _ H3 H4). unfold tcp_sync. rewrite Ec, H4, H5, H6.
  set (cli' := set_seq_ack (ackNum srv) (u32 (seqNum srv + 1)) cli).
  destruct (tcp_sent_on_wire cli' ACK sC Dc) as [b2 W2].
  exists (set_status ESTABLISHED cli'), (tcp_sent cli' ACK sC), b2.
  split; [reflexivity|]. split; [done|]. split; [done|]. split; [done|].
  split; [exact W2|]. intros sS2 HsS2. destruct W2 as [_ W2].
  assert (conn_ready cli') as Hc'.
  { destruct Hc as ((B & L & ? & ? & ? & _) & ? & ?), Hs as ((_ & _ & _ & _ & _ & ? & ?) & _).
    split; [|done]. do 5 (split; [done|]). split; [done|]. apply u32_range. }
  destruct (tcp_hear cli' ACK 0 (buff sC) (buff sS2) _ Hc' ltac:(lia)
              (delivered_trans _ _ _ _ _ _ _ W2 HsS2)) as (H7 & H8 & _).
  change (dstport cli') with (dstport cli) in H7. rewrite Pc in H7.
  rewrite (tcp_handle_heard (set_status SYN_RCVD srv) sS2 _ H7 H8). reflexivity.
Qed.

(** [tcp_get_data] is defined exactly when the data of the segment fits the
    caller's array; the size the caller passes is not looked at. *)
Theorem tcp_get_data_defined_iff m pkt_addr d data_length :
  is_Some (tcp_get_data m pkt_addr d data_length) <->
  tcp_get_data_length m pkt_addr <= Z.of_nat (length d).
Proof.
  unfold tcp_get_data. assert (0 <= tcp_get_data_length m pkt_addr) as Hn by apply u16_range.
  cbv zeta. rewrite fill_spec by done.
  destruct (Z.leb_spec (tcp_get_data_length m pkt_addr) (Z.of_nat (length d))).
  - split; [done|]. intros _. eexists. reflexivity.
  - split; [|lia]. by intros [x Hx].
Qed.

End TcpTheorems.

(** ** Witnesses *)

Definition example_client : tcp_connection :=
  TcpConnection 0x800 0 [2; 0; 0; 0; 0; 1] [2; 0; 0; 0; 0; 2] [10; 0; 0; 2] [10; 0; 0; 1] 4000 80
    0x12345678 0 SYN_SENT 0x1111 [] 0 [] 0.

Definition example_server : tcp_connection :=
  TcpConnection 0x800 0 [2; 0; 0; 0; 0; 2] [2; 0; 0; 0; 0; 1] [10; 0; 0; 1] [10; 0; 0; 2] 80 4000
    0x12345678 0 LISTEN 0x1111 [] 0 [] 0.

Lemma example_client_ready : conn_ready example_client.
Proof.
  split; [|split; [split; cbn; lia|done]]. split; [repeat split; repeat constructor; lia|].
  repeat split; cbn; lia.
Qed.

Lemma example_server_ready : conn_ready example_server.
Proof.
  split; [|split; [split; cbn; lia|done]]. split; [repeat split; repeat constructor; lia|].
  repeat split; cbn; lia.
Qed.

Lemma tcp_segment_roundtrip_witness :
  let m' := tcp_write_frame example_client (PSH .| ACK) [1; 2; 3] 3 23 43 ∅ in
  mac_packet_type m' 0x800 = TCP /\ ipv4_verify_checksum m' 0x800 = 1 /\ seg_valid m' 0x800 6 23 /\
  tcp_get_source_port m' 0x800 = 4000 /\ tcp_get_destination_port m' 0x800 = 80 /\
  tcp_get_seqnum m' 0x800 = 0x12345678 /\ tcp_get_acknum m' 0x800 = 0 /\
  tcp_get_flags m' 0x800 = u8 (PSH .| ACK) /\ tcp_get_data m' 0x800 [0; 0; 0] 3 = Some (3, [1; 2; 3]).
Proof.
  intros m'.
  apply (tcp_segment_roundtrip example_client (PSH .| ACK) [1; 2; 3] ∅ m' 0x800 [0; 0; 0]).
  - apply example_client_ready.
  - repeat constructor; lia.
  - split; cbn; lia.
  - reflexivity.
  - split; cbn; lia.
  - reflexivity.
  - intros k Hk. reflexivity.
Defined.

(** A server that has received the client's SYN. *)
Definition syn_received : machine :=
  set_buff (fun _ => for_ 55 (fun i m => mem_iowr_byte (0 + i)
    (fb (tcp_write_frame example_client SYN [chr0] 1 21 41 ∅) 0x800 i) m) ∅) init_machine.

Lemma tcp_handshake_witness :
  exists srv' sS' b1,
    @tcp_handle quiet_env example_server syn_received = Some ((0, srv'), sS') /\
    status srv' = SYN_RCVD /\
    on_wire syn_received sS' 0x800 54
      (tcp_write_frame example_server (SYN .| ACK) [chr0] 0 20 40 (buff syn_received)) b1 /\
    forall sC, delivered b1 0x800 (buff sC) 0 54 ->
    exists cli' sC' b2,
      @tcp_handle quiet_env example_client sC = Some ((1, cli'), sC') /\ status cli' = ESTABLISHED /\
      ackNum cli' = u32 (0x12345678 + 1) /\ seqNum cli' = 0 /\
      on_wire sC sC' 0x800 54 (tcp_write_frame cli' ACK [chr0] 0 20 40 (buff sC)) b2 /\
      forall sS2, delivered b2 0x800 (buff sS2) 0 54 ->
      @tcp_handle quiet_env srv' sS2 = Some ((1, set_status ESTABLISHED srv'), sS2).
Proof.
  apply (@tcp_handshake quiet_env example_client example_server syn_received ∅
           example_client_ready example_server_ready eq_refl eq_refl eq_refl eq_refl).
  - intros h m k Hk. reflexivity.
  - intros h m k Hk. reflexivity.
  - apply delivered_eval. vm_compute. reflexivity.
Defined.
