(* ===== verification/Tte.v ===== *)
(** * TTEthernet: src/c/ethlib/tte.c

    Clock synchronisation with integration frames, the transmission schedule of the
    virtual links and their transmission queues. The globals of tte.c are grouped in
    records by the part of the protocol they belong to. [arm_clock_timer], which is
    part of the platform's run-time library, is modelled by the list of the times it
    was called with. Registering interrupt handlers and the memory management of
    [tte_stop_ticking] are not modelled. *)

From stdpp Require Import base gmap list numbers.
From S2P Require Import Prelude Machine EthIO Frame MacDriver.
Local Open Scope Z_scope.
Local Open Scope c_scope.

(** ** State *)

Definition CYCLES_PER_UNIT := 8000.

(** Set by [tte_initialize]. *)
Record tte_config := TteConfig {
  TTE_MAX_TRANS_DELAY : Z;
  TTE_COMP_DELAY : Z;
  TTE_PRECISION : Z;
  integration_period : Z;
  cluster_period : Z;
  CT_marker : list Z;
  tte_mac : list Z
}.

(** The synchronised clock, the place in the schedule, and the calls of
    [arm_clock_timer], latest first. *)
Record tte_clock := TteClock {
  integration_cycle : Z;
  tte_current_time : Z;
  timer_time : Z;
  clock_err : Z;
  clock_err_integral : Z;
  schedplace : Z;
  armed : list Z
}.

(** The schedule made by [tte_generate_schedule]. *)
Record tte_plan := TtePlan {
  max_sched : Z;
  sched : list Z;
  VLsched : list Z;
  startTick : Z
}.

(** [struct VL]. *)
Record VL := MkVL {
  max_queue : Z;
  startTime : Z;
  period : Z;
  queue : list Z;
  sizeQueue : list Z;
  addplace : Z;
  rmplace : Z
}.

(** The maxima kept by the routines that log their execution time. *)
Record tte_times := TteTimes {
  tte_receive_log_max_time : Z;
  handle_integration_frame_log_max_time : Z;
  tte_clear_free_rx_buffer_max_time : Z
}.

(** ** Frames *)

Definition is_pcf (m : buf) (addr : Z) : Z :=
  let type_1 := mem_iord_byte m (addr + 12) in
  let type_2 := mem_iord_byte m (addr + 13) in
  if (type_1 =? 0x89) && (type_2 =? 0x1D) then 1 else 0.

(** The loop returns 0 at the first byte that differs. *)
Definition is_tte (cfg : tte_config) (m : buf) (addr : Z) : Z :=
  if forallb (fun i => mem_iord_byte m (addr + i) =? arr (CT_marker cfg) i) (seqZ 0 4) then 1 else 0.

Definition transClk_to_clk (transClk : Z) : Z :=
  u64 ((u64 (transClk * 10) >> 16) * 536871) >> 26.

(** The 64-bit transparent clock and the 32-bit integration cycle of a PCF. *)
Definition pcf_trans_clock (m : buf) (addr : Z) : Z :=
  fold_left (fun t k => u64 ((t << 8) .| mem_iord_byte m (addr + k))) [35; 36; 37; 38; 39; 40; 41]
    (mem_iord_byte m (addr + 34)).

Definition pcf_integration_cycle (m : buf) (addr : Z) : Z :=
  fold_left (fun t k => u32 ((t << 8) .| mem_iord_byte m (addr + k))) [15; 16; 17]
    (mem_iord_byte m (addr + 14)).

Definition tte_prepare_header (cfg : tte_config) (tx_addr : Z) (vl ethType : list Z) (m : buf) : buf :=
  let m := for_ 4 (fun i m => mem_iowr_byte (tx_addr + i) (arr (CT_marker cfg) i) m) m in
  let m := mem_iowr_byte (tx_addr + 4) (arr vl 0) m in
  let m := mem_iowr_byte (tx_addr + 5) (arr vl 1) m in
  let m := for_ 6 (fun j m => let i := 6 + j in mem_iowr_byte (tx_addr + i) (arr (tte_mac cfg) (i - 6)) m) m in
  let m := mem_iowr_byte (tx_addr + 12) (arr ethType 0) m in
  mem_iowr_byte (tx_addr + 13) (arr ethType 1) m.

Definition tte_prepare_data (cfg : tte_config) (tx_addr : Z) (vl data : list Z) (length : Z) (m : buf)
    : buf :=
  let ethType := [((length - 14) >> 8) .& 0xFF; (length - 14) .& 0xFF] in
  let m := tte_prepare_header cfg tx_addr vl ethType m in
  for_ (length - 14) (fun j m => let i := 14 + j in mem_iowr_byte (tx_addr + i) (arr data i) m) m.

Definition tte_prepare_pcf (cfg : tte_config) (addr : Z) (vl : list Z) (type : Z) (m : buf) : buf :=
  let m := tte_prepare_header cfg addr vl [0x89; 0x1D] m in
  let m := for_ 4 (fun j m => mem_iowr_byte (addr + (14 + j)) 0x00 m) m in
  let m := for_ 3 (fun j m => mem_iowr_byte (addr + (18 + j)) 0x00 m) m in
  let m := mem_iowr_byte (addr + 21) 0x02 m in
  let m := mem_iowr_byte (addr + 26) 0x01 m in
  let m := mem_iowr_byte (addr + 27) 0x01 m in
  let m := mem_iowr_byte (addr + 28) type m in
  for_ 8 (fun j m => mem_iowr_byte (addr + (34 + j)) 0x00 m) m.

(** ** Clock synchronisation *)

(** Integers: [tte_current_time] and the points in time are [unsigned long long], the
    delays are [unsigned int], so [2 * TTE_MAX_TRANS_DELAY] wraps at 32 bits. *)
Definition handle_integration_frame (cfg : tte_config) (startTick : Z) (m : buf)
    (addr receive_pit : Z) (c : tte_clock) : Z * tte_clock :=
  let trans_clock := transClk_to_clk (pcf_trans_clock m addr) in
  let cycle := pcf_integration_cycle m addr in
  let permanence_pit := u64 (receive_pit + u64 (TTE_MAX_TRANS_DELAY cfg - trans_clock)) in
  let current :=
    if tte_current_time c =? 0
    then u64 (permanence_pit - u32 (u32 (2 * TTE_MAX_TRANS_DELAY cfg) + TTE_COMP_DELAY cfg))
    else tte_current_time c in
  let sched_rec_pit := u64 (u64 (current + u32 (2 * TTE_MAX_TRANS_DELAY cfg)) + TTE_COMP_DELAY cfg) in
  let err := s64 (u64 (permanence_pit - sched_rec_pit)) in
  if (u64 (sched_rec_pit - TTE_PRECISION cfg) <? permanence_pit)
     && (permanence_pit <? u64 (sched_rec_pit + TTE_PRECISION cfg)) then
    let current := u64 (current + err) in
    let '(timer, place, arms) :=
      if cycle =? 0 then
        let t := u64 (current + u32 (CYCLES_PER_UNIT * startTick)) in (t, 0, t :: armed c)
      else (timer_time c, schedplace c, armed c) in
    let current := u64 (current + integration_period cfg) in
    (1, TteClock cycle current timer (clock_err c) (clock_err_integral c) place arms)
  else
    (0, TteClock cycle 0 (timer_time c) (clock_err c) (clock_err_integral c) (schedplace c) (armed c)).

(** The synchronisation of [handle_integration_frame_log]: a PI controller. *)
Definition integration_frame_pi (cfg : tte_config) (startTick : Z) (m : buf)
    (addr receive_pit : Z) (c : tte_clock) : Z * tte_clock :=
  let trans_clock := transClk_to_clk (pcf_trans_clock m addr) in
  let cycle := pcf_integration_cycle m addr in
  let permanence_pit := u64 (receive_pit + u64 (TTE_MAX_TRANS_DELAY cfg - trans_clock)) in
  let current :=
    if tte_current_time c =? 0
    then u64 (permanence_pit - u32 (u32 (2 * TTE_MAX_TRANS_DELAY cfg) + TTE_COMP_DELAY cfg))
    else tte_current_time c in
  let sched_rec_pit := u64 (u64 (current + u32 (2 * TTE_MAX_TRANS_DELAY cfg)) + TTE_COMP_DELAY cfg) in
  let err := s64 (u64 (permanence_pit - sched_rec_pit)) in
  if (u64 (sched_rec_pit - TTE_PRECISION cfg) <? permanence_pit)
     && (permanence_pit <? u64 (sched_rec_pit + TTE_PRECISION cfg)) then
    let integral := s64 (clock_err_integral c + err) in
    let current := u64 (u64 (current + (s64 (300 * err) >> 10)) + (s64 (700 * integral) >> 10)) in
    let '(timer, place, arms) :=
      if cycle =? 0 then
        let t := u64 (current + u32 (CYCLES_PER_UNIT * startTick)) in (t, 0, t :: armed c)
      else (timer_time c, schedplace c, armed c) in
    let current := u64 (current + integration_period cfg) in
    (1, TteClock cycle current timer err integral place arms)
  else
    (0, TteClock cycle current (timer_time c) err (clock_err_integral c) (schedplace c) (armed c)).

Section Devices.
Context `{Env}.

(** The address of the timer register the measurements read. *)
Context (PATMOS_TIMER_LOCLK : Z).

Definition handle_integration_frame_log (cfg : tte_config) (startTick addr receive_pit : Z)
    (error : list Z) (i : Z) (c : tte_clock) (t : tte_times) : M (Z * list Z * tte_clock * tte_times) :=
  initMeasurement ← io_rd PATMOS_TIMER_LOCLK;
  r ← rdbuf (fun m => integration_frame_pi cfg startTick m addr receive_pit c);
  error ← lift (store error i (clock_err (snd r)));
  now ← io_rd PATMOS_TIMER_LOCLK;
  let diffTemp := u32 (now - initMeasurement) in
  mret (fst r, error, snd r,
        if handle_integration_frame_log_max_time t <? diffTemp
        then TteTimes (tte_receive_log_max_time t) diffTemp (tte_clear_free_rx_buffer_max_time t)
        else t).

(** [continue] in a do-while loop goes to the condition: the rest of the body is never
    executed. *)
Definition tte_wait_for_message (fuel : nat) (receive_point timeout : Z) : M (Z * Z) :=
  (if timeout =? 0 then
     loop fuel (fun _ : unit =>
       v ← eth_iord 0x04; mret (if (v .& 0x4) =? 0 then inl tt else inr tt)) tt
   else
     start_time ← get_cpu_cycles;
     loop fuel (fun _ : unit =>
       v ← eth_iord 0x04; mret (if (v .& 0x4) =? 0 then inl tt else inr tt)) tt);;
  mret (1, receive_point).

Definition tte_clear_free_rx_buffer (addr : Z) (t : tte_times) : M tte_times :=
  initMeasurement ← io_rd PATMOS_TIMER_LOCLK;
  eth_iowr 0x04 0x00000004;;
  cur_data ← eth_iord addr;
  eth_iowr addr (cur_data .| (1 << 15));;
  now ← io_rd PATMOS_TIMER_LOCLK;
  let diffTemp := u32 (now - initMeasurement) in
  mret (if tte_clear_free_rx_buffer_max_time t <? diffTemp
        then TteTimes (tte_receive_log_max_time t) (handle_integration_frame_log_max_time t) diffTemp
        else t).

Definition tte_receive_log (cfg : tte_config) (startTick addr rec_start : Z) (error : list Z) (i : Z)
    (c : tte_clock) (t : tte_times) : M (Z * list Z * tte_clock * tte_times) :=
  initMeasurement ← io_rd PATMOS_TIMER_LOCLK;
  pcf ← rdbuf (fun m => is_pcf m addr);
  type ← rdbuf (fun m => mem_iord_byte m (addr + 28));
  tte ← rdbuf (fun m => is_tte cfg m addr);
  r ← (if negb (pcf =? 0) then
         if type =? 0x2 then
           r ← handle_integration_frame_log cfg startTick addr rec_start error i c t;
           let '(ok, error, c, t) := r in
           mret (if negb (ok =? 0) then 1 else 0, error, c, t)
         else mret (3, error, c, t)
       else if negb (tte =? 0) then mret (2, error, c, t)
       else mret (3, error, c, t));
  let '(ans, error, c, t) := r in
  now ← io_rd PATMOS_TIMER_LOCLK;
  let diffTemp := u32 (now - initMeasurement) in
  mret (ans, error, c,
        if tte_receive_log_max_time t <? diffTemp
        then TteTimes diffTemp (handle_integration_frame_log_max_time t) (tte_clear_free_rx_buffer_max_time t)
        else t).

End Devices.

Definition tte_receive (cfg : tte_config) (startTick : Z) (m : buf) (addr rec_start : Z)
    (c : tte_clock) : Z * tte_clock :=
  if negb (is_pcf m addr =? 0) then
    if mem_iord_byte m (addr + 28) =? 0x2 then
      let '(r, c) := handle_integration_frame cfg startTick m addr rec_start c in
      (if negb (r =? 0) then 1 else 0, c)
    else (3, c)
  else if negb (is_tte cfg m addr =? 0) then (2, c)
  else (3, c).

(** ** Virtual links *)

(** The cast binds tighter than the division. [period] is not 0. *)
Definition tte_init_VL (cluster_period : Z) (i start period : Z) (vls : list VL) : list VL :=
  let max_queue := u8 (u8 cluster_period / period) in
  <[Z.to_nat i := MkVL max_queue start period (replicate (Z.to_nat max_queue) 0)
                    (replicate (Z.to_nat max_queue) 0) 0 0]> vls.

(** [VLarray] is allocated but not initialised: its contents are [garbage]. *)
Definition tte_initialize `{Env} (int_period cl_period : Z) (CT : list Z) (VLcount : Z)
    (max_delay comp_delay precision : Z) (garbage : VL) (marker : list Z)
    : M (tte_config * list VL * Z) :=
  let marker := for_ 4 (fun i l => <[Z.to_nat i := arr CT i]> l) marker in
  macAdd ← get_mac_address;
  let mac := (fun i => (macAdd >> (8 * (5 - i))) .& 0xFF) <$> seqZ 0 6 in
  eth_iowr 0x00 0x0000A423;;
  eth_iowr 0x08 0x00000004;;
  let cfg := TteConfig max_delay comp_delay precision (u32 (int_period * CYCLES_PER_UNIT)) cl_period
               marker mac in
  let VLsize := u8 (VLcount + 1) in
  mret (cfg, tte_init_VL cl_period VLcount int_period int_period
               (replicate (Z.to_nat (VLcount + 1)) garbage), VLsize).

Definition tte_schedule_send (addr size : Z) (v : VL) : Z * VL :=
  if arr (queue v) (addplace v) =? 0 then
    let q := <[Z.to_nat (addplace v) := addr]> (queue v) in
    let sq := <[Z.to_nat (addplace v) := size]> (sizeQueue v) in
    let add := u8 (addplace v + 1) in
    let add := if add =? max_queue v then 0 else add in
    (1, MkVL (max_queue v) (startTime v) (period v) q sq add (rmplace v))
  else (0, v).

Definition tte_send_data `{Env} (fuel : nat) (v : VL) : M VL :=
  let tx_addr := s32 (arr (queue v) (rmplace v)) in
  let q := <[Z.to_nat (rmplace v) := 0]> (queue v) in
  eth_mac_send fuel tx_addr (arr (sizeQueue v) (rmplace v));;
  let rm := u8 (rmplace v + 1) in
  let rm := if rm =? max_queue v then 0 else rm in
  mret (MkVL (max_queue v) (startTime v) (period v) q (sizeQueue v) (addplace v) rm).

(** ** The schedule *)

(** [for (i...) if (times[i] < min) { min = times[i]; VL = i; }] *)
Definition sched_min (times : list Z) (min vl : Z) : Z * Z :=
  for_ (Z.of_nat (length times)) (fun i mv =>
    if arr times i <? fst mv then (arr times i, i) else mv) (min, vl).

(** The local variables of [tte_generate_schedule] in its loop. *)
Record gen_state := GenState {
  g_index : Z;
  g_current : Z;
  g_VLcurrent : list Z;
  g_VL : Z;
  g_sched : list Z;
  g_VLsched : list Z
}.

(** One iteration of [while(1)]; [inr] leaves the loop. The arrays have [max_sched]
    elements, and a write behind their end is undefined. *)
Definition gen_step (cluster_period max_sched : Z) (vls : list VL) (g : gen_state)
    : option (gen_state + gen_state) :=
  let '(min, vl) := sched_min (g_VLcurrent g) (u32 (cluster_period * 2)) (g_VL g) in
  sched ← store (g_sched g) (g_index g) (u32 (min - g_current g));
  VLsched ← (if g_index g <? max_sched - 1 then store (g_VLsched g) (g_index g + 1) vl
             else Some (g_VLsched g));
  v ← vls !! Z.to_nat vl;
  let cur := <[Z.to_nat vl := u32 (arr (g_VLcurrent g) vl + period v)]> (g_VLcurrent g) in
  if cluster_period <=? min then
    Some (inr (GenState (g_index g) min cur vl sched VLsched))
  else Some (inl (GenState (g_index g + 1) min cur vl sched VLsched)).

Fixpoint gen_loop (fuel : nat) (cluster_period max_sched : Z) (vls : list VL) (g : gen_state)
    : option gen_state :=
  match fuel with
  | O => None
  | S fuel =>
      r ← gen_step cluster_period max_sched vls g;
      match r with inl g => gen_loop fuel cluster_period max_sched vls g | inr g => Some g end
  end.

(** Undefined when no link starts before [cluster_period]: then [VL] is used
    uninitialised. The allocated arrays hold [garbage] at first. *)
Definition tte_generate_schedule (fuel : nat) (cluster_period : Z) (vls : list VL) (garbage : Z)
    : option tte_plan :=
  let '(min, vl) := sched_min (startTime <$> vls) cluster_period (-1) in
  let max_sched := foldl (fun a v => u8 (a + max_queue v)) 0 vls in
  if vl =? -1 then None
  else
    v ← vls !! Z.to_nat vl;
    let cur := <[Z.to_nat vl := u32 (arr (startTime <$> vls) vl + period v)]> (startTime <$> vls) in
    VLsched ← store (replicate (Z.to_nat max_sched) garbage) 0 vl;
    g ← gen_loop fuel cluster_period max_sched vls
          (GenState 0 min cur vl (replicate (Z.to_nat max_sched) garbage) VLsched);
    Some (TtePlan max_sched (g_sched g) (g_VLsched g) min).

(** [tte_start_ticking] without the registration of the interrupt handlers. *)
Definition tte_start_ticking (fuel : nat) (cluster_period : Z) (vls : list VL) (garbage : Z)
    (c : tte_clock) : option (tte_plan * tte_clock) :=
  p ← tte_generate_schedule fuel cluster_period vls garbage;
  Some (p, TteClock (integration_cycle c) 0 (timer_time c) (clock_err c) (clock_err_integral c)
             (schedplace c) (armed c)).

(** The timer interrupt, between its prologue and epilogue. *)
Definition tte_clock_tick `{Env} (fuel : nat) (p : tte_plan) (VLsize : Z)
    (c : tte_clock) (vls : list VL) : M (tte_clock * list VL) :=
  let timer := u64 (timer_time c + u32 (CYCLES_PER_UNIT * arr (sched p) (schedplace c))) in
  let i := arr (VLsched p) (schedplace c) in
  let place := u8 (schedplace c + 1) in
  let c :=
    if place <? max_sched p then
      let timer := if arr (VLsched p) place =? u32 (VLsize - 1) then tte_current_time c else timer in
      TteClock (integration_cycle c) (tte_current_time c) timer (clock_err c) (clock_err_integral c)
        place (timer :: armed c)
    else TteClock (integration_cycle c) (tte_current_time c) timer (clock_err c) (clock_err_integral c)
           place (armed c) in
  v ← lift (vls !! Z.to_nat i);
  if 0 <? arr (queue v) (rmplace v) then
    v ← tte_send_data fuel v;
    mret (c, <[Z.to_nat i := v]> vls)
  else mret (c, vls).

(** [send_times] and [send_time_i] are threaded by [tte_clock_tick_log]; the array has
    2000 elements. *)
Definition tte_clock_tick_log `{Env} (fuel : nat) (p : tte_plan) (VLsize : Z) (c : tte_clock)
    (vls : list VL) (send_times : list Z) (send_time_i : Z)
    : M (tte_clock * list VL * (list Z * Z)) :=
  let timer := u64 (timer_time c + u32 (CYCLES_PER_UNIT * arr (sched p) (schedplace c))) in
  let i := arr (VLsched p) (schedplace c) in
  let place := u8 (schedplace c + 1) in
  let c :=
    if place <? max_sched p then
      let timer := if arr (VLsched p) place =? u32 (VLsize - 1) then tte_current_time c else timer in
      TteClock (integration_cycle c) (tte_current_time c) timer (clock_err c) (clock_err_integral c)
        place (timer :: armed c)
    else TteClock (integration_cycle c) (tte_current_time c) timer (clock_err c) (clock_err_integral c)
           place (armed c) in
  v ← lift (vls !! Z.to_nat i);
  if 0 <? arr (queue v) (rmplace v) then
    now ← get_cpu_cycles;
    send_times ← lift (store send_times send_time_i now);
    v ← tte_send_data fuel v;
    mret (c, <[Z.to_nat i := v]> vls, (send_times, send_time_i + 1))
  else mret (c, vls, (send_times, send_time_i)).

(** ** Lemmas and theorems: clock synchronisation *)

(** The conversion of the transparent clock to cycles is the exact division
    the comment approximates, for every delay below 610 us. *)
Theorem transClk_to_clk_exact t :
  0 <= t -> t * 10 / 65536 < 6100805 -> transClk_to_clk t = t * 10 / 65536 / 125.
Proof.
  intros Ht Hx. unfold transClk_to_clk. rewrite !shr_div by lia.
  change (2 ^ 16) with 65536. change (2 ^ 26) with 67108864.
  assert (t * 10 < 65536 * 6100805) by zdm. rewrite (u64_small (t * 10)) by lia.
  assert (0 <= t * 10 / 65536) by zdm. revert H0 Hx. generalize (t * 10 / 65536). intros x H0 Hx.
  rewrite u64_small by lia.
  assert (x = 125 * (x / 125) + x mod 125) by (apply Z.div_mod; lia).
  assert (0 <= x mod 125 < 125) by (apply Z.mod_pos_bound; lia).
  symmetry. apply (Z.div_unique _ _ _ (x * 536871 - 67108864 * (x / 125))); lia.
Qed.

(** The offset between the start of a cycle and the planned reception. *)
Definition rec_offset (cfg : tte_config) : Z := 2 * TTE_MAX_TRANS_DELAY cfg + TTE_COMP_DELAY cfg.

(** When the frame is permanent. *)
Definition permanence (cfg : tte_config) (m : buf) (addr receive_pit : Z) : Z :=
  receive_pit + TTE_MAX_TRANS_DELAY cfg - transClk_to_clk (pcf_trans_clock m addr).

(** The configuration and the points in time are far from the ends of their types. *)
Definition sync_wf (cfg : tte_config) : Prop :=
  0 <= TTE_MAX_TRANS_DELAY cfg /\ 0 <= TTE_COMP_DELAY cfg /\ rec_offset cfg < 0x100000000 /\
  0 < TTE_PRECISION cfg < 0x100000000 /\ 0 <= integration_period cfg < 0x100000000.

Definition pit_wf (cfg : tte_config) (p : Z) : Prop :=
  rec_offset cfg + TTE_PRECISION cfg <= p < 0x4000000000000000.

Definition accepts (cfg : tte_config) (c : tte_clock) (p : Z) : Prop :=
  tte_current_time c = 0 \/ Z.abs (p - (tte_current_time c + rec_offset cfg)) < TTE_PRECISION cfg.

#[global] Instance accepts_dec cfg c p : Decision (accepts cfg c p).
Proof. unfold accepts. apply _. Defined.

(** The clock state is 0 (not synchronised) or a point in time. *)
Definition clock_wf (cfg : tte_config) (c : tte_clock) : Prop :=
  tte_current_time c = 0 \/
  TTE_PRECISION cfg <= tte_current_time c + rec_offset cfg < 0x4000000000000000 /\ 0 <= tte_current_time c.

Lemma handle_integration_frame_eq cfg startTick m addr pit c :
  sync_wf cfg -> clock_wf cfg c -> pit_wf cfg (permanence cfg m addr pit) ->
  let p := permanence cfg m addr pit in
  let cycle := pcf_integration_cycle m addr in
  handle_integration_frame cfg startTick m addr pit c =
  if decide (accepts cfg c p) then
    let current := p - rec_offset cfg in
    let '(timer, place, arms) :=
      if cycle =? 0 then
        let t := u64 (current + u32 (CYCLES_PER_UNIT * startTick)) in (t, 0, t :: armed c)
      else (timer_time c, schedplace c, armed c) in
    (1, TteClock cycle (current + integration_period cfg) timer (clock_err c) (clock_err_integral c)
          place arms)
  else
    (0, TteClock cycle 0 (timer_time c) (clock_err c) (clock_err_integral c) (schedplace c) (armed c)).
Proof.
  intros (Hm & Hc & Ho & Hp & Hi) Hcw Hpw p cycle. unfold rec_offset in Ho.
  unfold handle_integration_frame. cbv zeta. fold cycle.
  rewrite (u32_small (2 * TTE_MAX_TRANS_DELAY cfg)) by lia.
  rewrite (u32_small (_ + TTE_COMP_DELAY cfg)) by lia. fold (rec_offset cfg).
  assert (u64 (pit + u64 (TTE_MAX_TRANS_DELAY cfg - transClk_to_clk (pcf_trans_clock m addr))) = p) as ->.
  { unfold pit_wf, permanence in Hpw. unfold p, permanence, u64.
    rewrite Zplus_mod_idemp_r. rewrite Z.mod_small; unfold rec_offset in *; lia. }
  fold p in Hpw. unfold pit_wf in Hpw.
  set (current := if tte_current_time c =? 0 then _ else _).
  assert (current = if decide (tte_current_time c = 0) then p - rec_offset cfg else tte_current_time c)
    as Ecur.
  { unfold current. destruct (Z.eqb_spec (tte_current_time c) 0) as [E|E];
      destruct (decide (tte_current_time c = 0)); try done. apply u64_small.
    unfold rec_offset in *. lia. }
  clearbody current. unfold clock_wf in Hcw.
  assert (0 <= rec_offset cfg) as Hro by (unfold rec_offset; lia).
  assert (0 <= current /\ TTE_PRECISION cfg <= current + rec_offset cfg < 0x4000000000000000) as [Hc0 Hc1]
    by (rewrite Ecur; case_decide; lia).
  rewrite (u64_small (current + 2 * TTE_MAX_TRANS_DELAY cfg)) by (unfold rec_offset in *; lia).
  replace (current + 2 * TTE_MAX_TRANS_DELAY cfg + TTE_COMP_DELAY cfg) with (current + rec_offset cfg)
    by (unfold rec_offset; lia).
  rewrite (u64_small (current + rec_offset cfg)), (u64_small (_ - TTE_PRECISION cfg)),
    (u64_small (_ + TTE_PRECISION cfg)) by lia.
  assert (u64 (current + s64 (u64 (p - (current + rec_offset cfg)))) = p - rec_offset cfg) as ->.
  { rewrite s64_u64 by lia. rewrite u64_small; lia. }
  rewrite (u64_small (p - rec_offset cfg + integration_period cfg)) by lia.
  destruct (decide (accepts cfg c p)) as [Ha|Ha]; unfold accepts in Ha;
    destruct (Z.ltb_spec (current + rec_offset cfg - TTE_PRECISION cfg) p),
      (Z.ltb_spec p (current + rec_offset cfg + TTE_PRECISION cfg)); cbn [andb];
    try reflexivity; exfalso; revert Ecur;
    destruct (decide (tte_current_time c = 0)); intros; lia.
Qed.

(** Claim C35. Synchronisation through [handle_integration_frame], which judges a frame as it is received
    (the PI controller of [handle_integration_frame_log] is not meant): a node that is
    not synchronised accepts any integration frame, and after an accepted frame it accepts the next
    one exactly when the two are permanent one integration period apart, up to the precision; an
    accepted frame sets the clock by that frame alone, and a rejected one drops the
    synchronisation. Times are below 2^62 and the delays of the configuration below 2^32, and the
    first frame does not set the clock to 0, which means not synchronised. *)
Theorem tte_synchronisation cfg tick m1 a1 pit1 m2 a2 pit2 c :
  sync_wf cfg -> clock_wf cfg c ->
  let p1 := permanence cfg m1 a1 pit1 in let p2 := permanence cfg m2 a2 pit2 in
  pit_wf cfg p1 -> pit_wf cfg p2 -> p1 + integration_period cfg < 0x4000000000000000 ->
  0 < p1 - rec_offset cfg + integration_period cfg ->
  accepts cfg c p1 ->
  let '(r1, c1) := handle_integration_frame cfg tick m1 a1 pit1 c in
  let '(r2, c2) := handle_integration_frame cfg tick m2 a2 pit2 c1 in
  r1 = 1 /\ tte_current_time c1 = p1 - rec_offset cfg + integration_period cfg /\
  if decide (Z.abs (p2 - p1 - integration_period cfg) < TTE_PRECISION cfg)
  then r2 = 1 /\ tte_current_time c2 = p2 - rec_offset cfg + integration_period cfg
  else r2 = 0 /\ tte_current_time c2 = 0.
Proof.
  intros Hcfg Hc p1 p2 Hp1 Hp2 Hp1' Hnz Ha.
  rewrite (handle_integration_frame_eq cfg tick m1 a1 pit1 c) by done. fold p1.
  rewrite decide_True by done. cbv zeta.
  destruct (if pcf_integration_cycle m1 a1 =? 0 then _ else _) as [[t1 pl1] ar1].
  set (c1 := TteClock _ _ _ _ _ _ _).
  assert (tte_current_time c1 = p1 - rec_offset cfg + integration_period cfg) as E1 by done.
  destruct Hcfg as (? & ? & ? & ? & ?).
  rewrite (handle_integration_frame_eq cfg tick m2 a2 pit2 c1); [|done| |done].
  2:{ right. rewrite E1. unfold pit_wf, rec_offset in *. lia. }
  fold p2. destruct (decide (accepts cfg c1 p2)) as [A2|A2]; unfold accepts in A2; rewrite E1 in A2.
  - cbv zeta. destruct (if pcf_integration_cycle m2 a2 =? 0 then _ else _) as [[t2 pl2] ar2].
    rewrite decide_True by lia. done.
  - rewrite decide_False by lia. done.
Qed.

Section WaitTheorems.
Context `{Env}.

Lemma wait_loop_none fuel s :
  (forall h, rxb h = false) ->
  loop fuel (fun _ : unit =>
    v ← eth_iord 0x04; mret (if (v .& 0x4) =? 0 then inl tt else inr tt)) tt s = (None : option (unit * machine)).
Proof.
  intros Hr. revert s. induction fuel as [|fuel IH]; intros s; [done|].
  rewrite (loop_step _ _ _ tt s (access (EvRd INT_SOURCE_ADDR) s)); [apply IH|].
  cbv beta. rewrite bind_eq, eth_iord_run. unfold mret, M_ret. change 0x4 with (2 ^ 2) at 3.
  rewrite land_bit_u32 by lia. change (Z.testbit _ 2) with (rxb (hist s)). by rewrite Hr.
Qed.

(** [tte_wait_for_message] has no timeout and does not report the reception
    point: whatever the timeout is, it returns 1 with the caller's reception point
    unchanged when it returns, and does not return when no frame arrives. *)
Theorem tte_wait_ignores_timeout fuel receive_point timeout s :
  (forall r s', tte_wait_for_message fuel receive_point timeout s = Some (r, s') ->
     r = (1, receive_point)) /\
  ((forall h, rxb h = false) -> tte_wait_for_message fuel receive_point timeout s = None).
Proof.
  unfold tte_wait_for_message. split.
  - intros r s' Hr. apply bind_inv in Hr as (? & ? & _ & Hr). by injection Hr as <- _.
  - intros Hr. rewrite bind_eq. destruct (timeout =? 0); [by rewrite wait_loop_none|].
    rewrite bind_eq. cbn [get_cpu_cycles]. unfold get_cpu_cycles. by rewrite wait_loop_none.
Qed.

End WaitTheorems.

(** The queue of a virtual link has one place per period of the cluster cycle
    exactly as long as the cluster period fits a byte; above, the period is truncated
    before the division. *)
Theorem tte_init_VL_queue cluster start period vls i :
  0 <= cluster -> 0 < period -> (i < length vls)%nat ->
  exists v, tte_init_VL cluster (Z.of_nat i) start period vls !! i = Some v /\
    max_queue v = (cluster mod 256) / period /\
    (cluster < 256 -> max_queue v = cluster / period) /\
    Z.of_nat (length (queue v)) = max_queue v /\ Forall (eq 0) (queue v).
Proof.
  intros Hc Hp Hi. unfold tte_init_VL. rewrite Nat2Z.id.
  eexists. split; [by rewrite list_lookup_insert_eq|]. cbn [max_queue queue].
  assert (u8 (u8 cluster / period) = cluster mod 256 / period) as ->.
  { apply u8_small. pose proof (u8_range cluster). split; [apply Z.div_pos; unfold u8 in *; lia|].
    apply Z.div_lt_upper_bound; [lia|]. unfold u8 in *. nia. }
  split; [done|]. split; [intros; by rewrite Z.mod_small by lia|].
  rewrite length_replicate. split; [|by apply Forall_replicate].
  pose proof (Z.mod_pos_bound cluster 256 ltac:(lia)).
  assert (0 <= cluster mod 256 / period) by (apply Z.div_pos; lia). lia.
Qed.

(** ** Lemmas and theorems: the queue of a virtual link

    The ring buffer of a link implements a bounded FIFO queue of frames: [ring v q]
    says that the link [v] holds the frames [q] (address and size, first to send
    first). *)

Definition slot (v : VL) (j : Z) : Z := (rmplace v + j) mod max_queue v.

Record ring (v : VL) (q : list (Z * Z)) : Prop := {
  ring_size : 0 < max_queue v < 256;
  ring_queue : Z.of_nat (length (queue v)) = max_queue v;
  ring_sizes : Z.of_nat (length (sizeQueue v)) = max_queue v;
  ring_rm : 0 <= rmplace v < max_queue v;
  ring_fits : Z.of_nat (length q) <= max_queue v;
  ring_add : addplace v = slot v (Z.of_nat (length q));
  ring_full : forall j a sz, q !! j = Some (a, sz) ->
    0 < a < 0x80000000 /\ arr (queue v) (slot v (Z.of_nat j)) = a /\
    arr (sizeQueue v) (slot v (Z.of_nat j)) = sz;
  ring_free : forall j, Z.of_nat (length q) <= j < max_queue v -> arr (queue v) (slot v j) = 0
}.

Lemma slot_range v j : 0 < max_queue v -> 0 <= slot v j < max_queue v.
Proof. intros. apply Z.mod_pos_bound. lia. Qed.

Lemma slot_inj v i j :
  0 < max_queue v -> 0 <= i < max_queue v -> 0 <= j < max_queue v -> slot v i = slot v j -> i = j.
Proof.
  unfold slot. intros Hn Hi Hj E. apply (f_equal (fun x => (x - rmplace v) mod max_queue v)) in E.
  rewrite !Zminus_mod_idemp_l in E. rewrite !(Z.add_comm (rmplace v)), !Z.add_simpl_r in E.
  by rewrite !Z.mod_small in E.
Qed.

(** [x++; if (x == n) x = 0;] on a place of the ring. *)
Lemma next_place n x :
  0 < n < 256 -> 0 <= x < n -> (if u8 (x + 1) =? n then 0 else u8 (x + 1)) = (x + 1) mod n.
Proof.
  intros Hn Hx. rewrite u8_small by lia. destruct (Z.eqb_spec (x + 1) n) as [->|].
  - by rewrite Z.mod_same by lia.
  - by rewrite Z.mod_small by lia.
Qed.

Lemma ring_push v q addr size :
  ring v q -> 0 < addr < 0x80000000 -> Z.of_nat (length q) < max_queue v ->
  exists v', tte_schedule_send addr size v = (1, v') /\ ring v' (q ++ [(addr, size)]).
Proof.
  intros [Hn Hq Hs Hr Hf Ha Hfull Hfree] Haddr Hlt.
  unfold tte_schedule_send. rewrite Ha, Hfree by lia. eexists. split; [reflexivity|].
  pose proof (slot_range v (Z.of_nat (length q)) ltac:(lia)) as Hsl.
  rewrite next_place by lia.
  split; cbn [max_queue queue sizeQueue rmplace addplace]; rewrite ?length_insert; try done.
  - rewrite length_app. cbn [length]. lia.
  - unfold slot at 1 2. cbn [max_queue rmplace]. rewrite Zplus_mod_idemp_l, length_app. cbn [length].
    f_equal. lia.
  - intros j a sz Hj. change (slot (MkVL _ _ _ _ _ _ _) ?x) with (slot v x).
    pose proof (slot_range v (Z.of_nat j) ltac:(lia)). rewrite !arr_insert by lia.
    destruct (Z.eqb_spec (slot v (Z.of_nat (length q))) (slot v (Z.of_nat j))) as [E|E].
    + apply lookup_lt_Some in Hj as Hl. rewrite length_app in Hl. cbn [length] in Hl.
      apply slot_inj in E; [|lia..]. apply Nat2Z.inj in E as <-.
      rewrite lookup_app_r, Nat.sub_diag in Hj by lia. by injection Hj as <- <-.
    + apply lookup_app_Some in Hj as [Hj|[Hl Hj]]; [by apply Hfull|].
      apply list_lookup_singleton_Some in Hj as [E0 _]. exfalso. apply E. do 2 f_equal. lia.
  - intros j Hj. rewrite length_app in Hj. cbn [length] in Hj.
    change (slot (MkVL _ _ _ _ _ _ _) ?x) with (slot v x).
    pose proof (slot_range v j ltac:(lia)). rewrite arr_insert by lia.
    destruct (Z.eqb_spec (slot v (Z.of_nat (length q))) (slot v j)) as [E|E]; [|apply Hfree; lia].
    apply slot_inj in E; lia.
Qed.

Lemma ring_reject v q addr size :
  ring v q -> Z.of_nat (length q) = max_queue v -> tte_schedule_send addr size v = (0, v).
Proof.
  intros [Hn Hq Hs Hr Hf Ha Hfull Hfree] Hl. unfold tte_schedule_send. rewrite Ha.
  destruct q as [|[a sz] q]; [cbn in Hl; lia|].
  destruct (Hfull 0%nat a sz eq_refl) as (? & E & _).
  assert (slot v (Z.of_nat (length ((a, sz) :: q))) = slot v (Z.of_nat 0)) as ->.
  { rewrite Hl. unfold slot. rewrite <- Zplus_mod_idemp_r, Z.mod_same by lia. done. }
  rewrite E. by destruct (Z.eqb_spec a 0); [lia|].
Qed.

(** The link after its first frame was taken. *)
Definition ring_popped (v : VL) : VL :=
  MkVL (max_queue v) (startTime v) (period v) (<[Z.to_nat (rmplace v) := 0]> (queue v)) (sizeQueue v)
    (addplace v) ((rmplace v + 1) mod max_queue v).

Lemma ring_pop v a sz q : ring v ((a, sz) :: q) -> ring (ring_popped v) q.
Proof.
  intros [Hn Hq Hs Hr Hf Ha Hfull Hfree]. cbn [length] in Hf.
  assert (forall j, slot (ring_popped v) j = slot v (j + 1)) as Hsl.
  { intros j. unfold slot, ring_popped. cbn [rmplace max_queue]. rewrite Zplus_mod_idemp_l.
    f_equal. lia. }
  assert (slot v 0 = rmplace v) as H0 by (unfold slot; rewrite Z.add_0_r, Z.mod_small; lia).
  split; try setoid_rewrite Hsl; cbn [ring_popped max_queue queue sizeQueue rmplace addplace];
    rewrite ?length_insert; try done.
  - apply Z.mod_pos_bound. lia.
  - lia.
  - rewrite Ha. cbn [length]. f_equal. lia.
  - intros j a' sz' Hj. destruct (Hfull (S j) a' sz' Hj) as (H1 & H2 & H3).
    replace (Z.of_nat j + 1) with (Z.of_nat (S j)) by lia.
    apply lookup_lt_Some in Hj. pose proof (slot_range v (Z.of_nat (S j)) ltac:(lia)).
    rewrite arr_insert by lia. destruct (Z.eqb_spec (rmplace v) (slot v (Z.of_nat (S j)))) as [E|E]; [|done].
    rewrite <- H0 in E. apply slot_inj in E; lia.
  - intros j Hj. pose proof (slot_range v (j + 1) ltac:(lia)). rewrite arr_insert by lia.
    destruct (Z.eqb_spec (rmplace v) (slot v (j + 1))) as [E|E]; [done|].
    destruct (decide (j + 1 = max_queue v)) as [E1|E1].
    + exfalso. apply E. rewrite <- H0, E1. unfold slot.
      rewrite <- (Zplus_mod_idemp_r (max_queue v)), Z.mod_same by lia. done.
    + apply Hfree. cbn [length]. lia.
Qed.

(** Claim C29. Refinement: the transmission queue of a virtual link is a FIFO queue of
    [max_queue] frames. Scheduling a frame at an address other than 0, which marks an empty place,
    appends it, or is refused with 0 and no effect when the queue is full; sending transmits
    exactly the oldest frame and removes it. *)
Theorem tte_queue_fifo `{Env} bound `{!TxLive bound} fuel v q addr size s :
  ring v q -> 0 < addr < 0x80000000 -> (bound + 2 <= fuel)%nat ->
  (if decide (Z.of_nat (length q) < max_queue v)
   then exists v', tte_schedule_send addr size v = (1, v') /\ ring v' (q ++ [(addr, size)])
   else tte_schedule_send addr size v = (0, v)) /\
  match q with
  | [] => True
  | (a, sz) :: q' => exists v' s' b, tte_send_data fuel v s = Some (v', s') /\ ring v' q' /\
      tx_log (hist s') = TxFrame a (u16 sz) b :: tx_log (hist s)
  end.
Proof.
  intros Hv Haddr Hf. pose proof Hv as [Hn Hq Hs Hr Hfit Ha Hfull Hfree]. split.
  - case_decide; [by apply ring_push|]. apply (ring_reject v q); [done|lia].
  - destruct q as [|[a sz] q']; [done|].
    destruct (Hfull 0%nat a sz eq_refl) as (Ha1 & E & Es).
    assert (slot v (Z.of_nat 0) = rmplace v) as H0 by (unfold slot; rewrite Z.add_0_r, Z.mod_small; lia).
    rewrite H0 in E, Es. unfold tte_send_data. cbv zeta. rewrite E, Es, s32_small by lia.
    destruct (eth_mac_send_total fuel a sz s Hf) as (k & _ & Er). rewrite (bind_some _ _ _ _ _ Er).
    exists (ring_popped v), (tx_done k a sz s), (buff (tx_armed a s)).
    split; [by rewrite next_place by lia|]. split; [by apply (ring_pop v a sz)|].
    unfold tx_done. rewrite tx_log_polls, tx_log_started, u32_small by lia. done.
Qed.

(** ** Lemmas and theorems: frames *)

Lemma zero_loop m base off n k :
  0 <= n -> 0 <= off -> 0 <= base -> base + off + n <= 0x100000000 -> 0 <= k -> base + k < 0x100000000 ->
  fb (for_ n (fun j m => mem_iowr_byte (base + (off + j)) 0x00 m) m) base k =
  if (off <=? k) && (k <? off + n) then 0 else fb m base k.
Proof.
  intros. rewrite (for_ext _ (fun j m => mem_iowr_byte (base + off + j) (arr [] j) m)).
  - rewrite write_loop by lia. unfold arr. by destruct (Z.to_nat (k - off)).
  - intros i s Hi. rewrite Z.add_assoc. unfold arr. by destruct (Z.to_nat i).
Qed.

Lemma tte_header_bytes cfg tx vl ty m k :
  in_buffer tx 14 -> 0 <= k -> tx + k < 0x100000000 ->
  fb (tte_prepare_header cfg tx vl ty m) tx k =
  if k <? 4 then u8 (arr (CT_marker cfg) k)
  else if k <? 6 then u8 (arr vl (k - 4))
  else if k <? 12 then u8 (arr (tte_mac cfg) (k - 6))
  else if k <? 14 then u8 (arr ty (k - 12)) else fb m tx k.
Proof.
  intros [H1 H2] Hk Hb. unfold tte_prepare_header. cbv zeta. rewrite !fb_wrb by lia.
  rewrite (for_ext _ (fun j m => mem_iowr_byte (tx + 6 + j) (arr (tte_mac cfg) j) m))
    by (intros i s Hi; rewrite Z.add_assoc; do 2 f_equal; lia).
  rewrite write_loop, !fb_wrb by lia.
  rewrite (for_ext _ (fun j m => mem_iowr_byte (tx + 0 + j) (arr (CT_marker cfg) j) m))
    by (intros i s Hi; by rewrite Z.add_0_r).
  rewrite write_loop by lia. rewrite Z.sub_0_r.
  assert (k < 4 \/ k = 4 \/ k = 5 \/ 6 <= k < 12 \/ k = 12 \/ k = 13 \/ 14 <= k) as Hc by lia.
  destruct Hc as [Hc|[->|[->|[Hc|[->|[->|Hc]]]]]]; zif; try done.
Qed.

(** Round trip of protocol control frames: a frame built by [tte_prepare_pcf]
    is recognised as a PCF and as critical traffic, carries the given type, and is
    read with integration cycle 0 and transparent clock 0. *)
Theorem tte_pcf_roundtrip cfg addr vl type m :
  in_buffer addr 42 -> Forall (fun b => 0 <= b < 256) (CT_marker cfg) -> 0 <= type < 256 ->
  let m' := tte_prepare_pcf cfg addr vl type m in
  is_pcf m' addr = 1 /\ is_tte cfg m' addr = 1 /\ mem_iord_byte m' (addr + 28) = type /\
  pcf_integration_cycle m' addr = 0 /\ pcf_trans_clock m' addr = 0.
Proof.
  intros [H1 H2] Hct Hty m'.
  assert (forall k, 0 <= k < 42 -> fb m' addr k =
    if (34 <=? k) && (k <? 42) then 0 else if k =? 28 then type else if k =? 27 then 1
    else if k =? 26 then 1 else if k =? 21 then 2 else if (18 <=? k) && (k <? 21) then 0
    else if (14 <=? k) && (k <? 18) then 0 else fb (tte_prepare_header cfg addr vl [0x89; 0x1D] m) addr k)
    as Hb.
  { intros k Hk. unfold m', tte_prepare_pcf. cbv zeta. rewrite zero_loop, !fb_wrb, !zero_loop by lia.
    rewrite !(Z.eqb_sym _ k). by rewrite (u8_small type) by lia. }
  assert (forall k, 0 <= k < 42 -> mem_iord_byte m' (addr + k) = fb m' addr k) as Hf by done.
  split; [|split; [|split; [|split]]].
  - unfold is_pcf. cbv zeta. rewrite !Hf, !Hb, !tte_header_bytes by (lia || split; lia). done.
  - unfold is_tte. destruct (forallb _ _) eqn:E; [done|]. exfalso. apply not_true_iff_false in E. apply E.
    apply forallb_forall. intros i Hi%list_elem_of_In%elem_of_seqZ. apply Z.eqb_eq.
    rewrite Hf, Hb by lia. zif. rewrite tte_header_bytes by (lia || split; lia). zif.
    apply u8_small. unfold arr. destruct (nth_in_or_default (Z.to_nat i) (CT_marker cfg) 0) as [Hin| ->]; [|lia].
    rewrite List.Forall_forall in Hct. by apply Hct.
  - rewrite Hf, Hb by lia. done.
  - unfold pcf_integration_cycle. cbn [fold_left]. rewrite !Hf, !Hb by lia. zif. done.
  - unfold pcf_trans_clock. cbn [fold_left]. rewrite !Hf, !Hb by lia. zif. done.
Qed.

(** ** Witnesses *)

Definition example_config : tte_config :=
  TteConfig 0x2A9 0x500 0xBB8 80000 200 [0xAB; 0xAD; 0xBA; 0xBE] [2; 0; 0; 0; 0; 1].

Lemma transClk_to_clk_exact_witness : transClk_to_clk 8192000 = 8192000 * 10 / 65536 / 125.
Proof. apply (transClk_to_clk_exact 8192000); [lia|]. vm_compute. reflexivity. Defined.

Lemma tte_pcf_roundtrip_witness :
  let m' := tte_prepare_pcf example_config 0x800 [15; 160] 2 ∅ in
  is_pcf m' 0x800 = 1 /\ is_tte example_config m' 0x800 = 1 /\ mem_iord_byte m' (0x800 + 28) = 2 /\
  pcf_integration_cycle m' 0x800 = 0 /\ pcf_trans_clock m' 0x800 = 0.
Proof.
  apply (tte_pcf_roundtrip example_config 0x800 [15; 160] 2 ∅);
    [split; lia|repeat constructor; lia|lia].
Defined.

Lemma tte_synchronisation_witness :
  let c := TteClock 0 0 0 0 0 0 [] in
  let '(r1, c1) := handle_integration_frame example_config 8 ∅ 0 100000 c in
  let '(r2, c2) := handle_integration_frame example_config 8 ∅ 0 180100 c1 in
  r1 = 1 /\ tte_current_time c1 = 100000 + 0x2A9 - rec_offset example_config + 80000 /\
  if decide (Z.abs (180100 + 0x2A9 - (100000 + 0x2A9) - 80000) < 0xBB8)
  then r2 = 1 /\ tte_current_time c2 = 180100 + 0x2A9 - rec_offset example_config + 80000
  else r2 = 0 /\ tte_current_time c2 = 0.
Proof.
  intros c. assert (permanence example_config ∅ 0 100000 = 100000 + 0x2A9) as E1 by (vm_compute; reflexivity).
  assert (permanence example_config ∅ 0 180100 = 180100 + 0x2A9) as E2 by (vm_compute; reflexivity).
  assert (rec_offset example_config = 2642) as E3 by reflexivity.
  rewrite <- E1, <- E2.
  apply (tte_synchronisation example_config 8 ∅ 0 100000 ∅ 0 180100 c); rewrite ?E1, ?E2, ?E3;
    unfold sync_wf, clock_wf, pit_wf, accepts; rewrite ?E3; cbn; try lia; by left.
Defined.

Lemma tte_init_VL_queue_witness :
  let v0 := MkVL 0 0 0 [] [] 0 0 in
  exists v, tte_init_VL 300 (Z.of_nat 0) 8 40 [v0] !! 0%nat = Some v /\
    max_queue v = (300 mod 256) / 40 /\ (300 < 256 -> max_queue v = 300 / 40) /\
    Z.of_nat (length (queue v)) = max_queue v /\ Forall (eq 0) (queue v).
Proof. intros v0. apply (tte_init_VL_queue 300 8 40 [v0] 0); [lia|lia|cbn; lia]. Defined.

(** A link with one frame in its queue of two. *)
Definition example_link : VL := MkVL 2 8 40 [0x800; 0] [64; 0] 1 0.

Lemma example_ring : ring example_link [(0x800, 64)].
Proof.
  split; cbn; try lia; try reflexivity.
  - intros [|j] a sz Hj; [|done]. injection Hj as <- <-. split; [lia|done].
  - intros j Hj. assert (j = 1) as -> by lia. reflexivity.
Qed.

Lemma tte_queue_fifo_witness :
  (if decide (Z.of_nat (length [(0x800, 64)]) < max_queue example_link)
   then exists v', tte_schedule_send 0x1000 100 example_link = (1, v') /\
          ring v' ([(0x800, 64)] ++ [(0x1000, 100)])
   else tte_schedule_send 0x1000 100 example_link = (0, example_link)) /\
  exists v' s' b, @tte_send_data quiet_env 2 example_link init_machine = Some (v', s') /\ ring v' [] /\
      tx_log (hist s') = TxFrame 0x800 (u16 64) b :: tx_log (hist init_machine).
Proof.
  apply (@tte_queue_fifo quiet_env 0 quiet_live 2 example_link [(0x800, 64)] 0x1000 100 init_machine
           example_ring); lia.
Defined.
