(* ===== verification/TteSchedule.v ===== *)
(** * The transmission schedule of TTEthernet

    The correctness of [tte_generate_schedule] (src/c/ethlib/tte.c): the two arrays it
    fills describe all releases of all virtual links before the end of the cluster
    period, in the order of time. *)

From stdpp Require Import base gmap list numbers.
From S2P Require Import Prelude Machine Checksum Tte.
Local Open Scope Z_scope.

(** ** Specification *)

(** An event of the schedule: a time and a virtual link. *)
Abbreviation events := (list (Z * Z)).

(** How often link [i] occurs. *)
Definition count (i : Z) (evs : events) : Z := Z.of_nat (length (filter (fun e => e.2 = i) evs)).

Section Spec.
Context (cluster : Z) (vls : list VL).

Definition st (i : Z) : Z := arr (startTime <$> vls) i.
Definition pe (i : Z) : Z := arr (period <$> vls) i.
Definition mq (i : Z) : Z := arr (max_queue <$> vls) i.
Definition links : Z := Z.of_nat (length vls).

(** Links the schedule can be made for: every link starts within the cluster period,
    its queue has a place for each of its releases, and the total number of releases
    fits the [unsigned char] that counts them. *)
Definition sched_wf : Prop :=
  0 < cluster < 0x40000000 /\ 0 < links /\
  (forall i, 0 <= i < links -> 0 <= st i < cluster /\ 0 < pe i <= cluster /\
     cluster <= st i + pe i * mq i) /\
  (forall i, 0 <= i < links -> 0 <= mq i) /\
  zsum (max_queue <$> vls) < 256.

(** Each event is the next release of its link, and all are before the end. *)
Definition releases (evs : events) : Prop :=
  forall j t v, evs !! j = Some (t, v) ->
    0 <= v < links /\ t = st v + pe v * count v (take j evs) /\ t < cluster.

Definition in_order (evs : events) : Prop :=
  forall j t v t' v', evs !! j = Some (t, v) -> evs !! (S j) = Some (t', v') -> t <= t'.

Definition complete (evs : events) : Prop :=
  forall v, 0 <= v < links -> cluster <= st v + pe v * count v evs.

(** The arrays describe the first [k] gaps and the first [k + 1] links of [evs]. *)
Definition encodes (evs : events) (sched VLsched : list Z) : Prop :=
  forall j t v, evs !! j = Some (t, v) ->
    arr VLsched (Z.of_nat j) = v /\
    forall t' v', evs !! (S j) = Some (t', v') -> arr sched (Z.of_nat j) = t' - t.

(** ** Lemmas *)

Lemma count_snoc i evs t v : count i (evs ++ [(t, v)]) = count i evs + (if v =? i then 1 else 0).
Proof.
  unfold count. rewrite list.filter_app, length_app, filter_cons, filter_nil. cbn [snd].
  destruct (Z.eqb_spec v i); case_decide; try done; cbn [length]; lia.
Qed.

Lemma count_nonneg i evs : 0 <= count i evs.
Proof. unfold count. lia. Qed.

Lemma sched_min_spec times m0 v0 :
  let r := sched_min times m0 v0 in
  r.1 <= m0 /\ (forall i, 0 <= i < Z.of_nat (length times) -> r.1 <= arr times i) /\
  (r = (m0, v0) \/ (0 <= r.2 < Z.of_nat (length times) /\ arr times r.2 = r.1 /\ r.1 < m0)).
Proof.
  unfold sched_min. set (n := Z.of_nat (length times)).
  apply (for_ind (fun k r => r.1 <= m0 /\ (forall i, 0 <= i < k -> r.1 <= arr times i) /\
    (r = (m0, v0) \/ (0 <= r.2 < n /\ arr times r.2 = r.1 /\ r.1 < m0)))).
  - lia.
  - split; [done|]. split; [intros; lia|by left].
  - intros k [mn vl] Hk (H1 & H2 & H3). cbn [fst snd] in *.
    destruct (Z.ltb_spec (arr times k) mn); cbn [fst snd].
    + split; [lia|]. split; [|right; lia].
      intros i Hi. destruct (decide (i = k)) as [->|]; [lia|]. specialize (H2 i). lia.
    + split; [done|]. split; [|done]. intros i Hi. destruct (decide (i = k)) as [->|]; [lia|].
      apply H2. lia.
Qed.

(** The sum over the links of how often they occur is the number of events. *)
Lemma zsum_seq_S (f : Z -> Z) n :
  0 <= n -> zsum (f <$> seqZ 0 (n + 1)) = zsum (f <$> seqZ 0 n) + f n.
Proof.
  intros. rewrite seqZ_app, fmap_app by lia. rewrite (seqZ_cons _ 1) by lia.
  apply zsum_app_one.
Qed.

Lemma zsum_seq_le (f g : Z -> Z) n :
  0 <= n -> (forall i, 0 <= i < n -> f i <= g i) -> zsum (f <$> seqZ 0 n) <= zsum (g <$> seqZ 0 n).
Proof.
  intros Hn. pattern n. apply natlike_ind; [done| |done]. intros k Hk IH Hle.
  rewrite <- Z.add_1_r, !zsum_seq_S by lia. specialize (Hle k ltac:(lia)) as Hk'.
  assert (zsum (f <$> seqZ 0 k) <= zsum (g <$> seqZ 0 k)) by (apply IH; intros; apply Hle; lia). lia.
Qed.

Lemma zsum_seq_bump (f : Z -> Z) n x :
  0 <= n -> zsum ((fun i => f i + (if x =? i then 1 else 0)) <$> seqZ 0 n) =
  zsum (f <$> seqZ 0 n) + (if (0 <=? x) && (x <? n) then 1 else 0).
Proof.
  intros Hn. pattern n. apply natlike_ind; [|intros k Hk IH|done].
  - by destruct (Z.leb_spec 0 x), (Z.ltb_spec x 0); try lia.
  - rewrite <- Z.add_1_r, !zsum_seq_S, IH by lia.
    destruct (Z.eqb_spec x k), (Z.leb_spec 0 x), (Z.ltb_spec x k), (Z.ltb_spec x (k + 1)); cbn [andb]; lia.
Qed.

Lemma count_total evs :
  (forall j t v, evs !! j = Some (t, v) -> 0 <= v < links) ->
  zsum ((fun i => count i evs) <$> seqZ 0 links) = Z.of_nat (length evs).
Proof.
  induction evs as [|[t v] evs IH] using rev_ind; intros Hv.
  - assert (forall n, 0 <= n -> zsum ((fun i => count i []) <$> seqZ 0 n) = 0) as E; [|apply E; unfold links; lia].
    intros n Hn. pattern n. apply natlike_ind; [done|intros k Hk IHk|done].
    rewrite <- Z.add_1_r, zsum_seq_S, IHk by lia. done.
  - rewrite length_app. cbn [length].
    rewrite (list_fmap_ext _ (fun i => count i evs + (if v =? i then 1 else 0)))
      by (intros ? ? _; apply count_snoc).
    rewrite zsum_seq_bump, IH by (unfold links; lia || (intros j t' v' Hj; apply (Hv j t');
      by apply lookup_app_l_Some)).
    destruct (Hv (length evs) t v) as [? ?]; [by rewrite lookup_app_r, Nat.sub_diag|]. zif. lia.
Qed.

Lemma zsum_arr l : zsum (arr l <$> seqZ 0 (Z.of_nat (length l))) = zsum l.
Proof.
  f_equal. apply list_eq. intros i. rewrite list_lookup_fmap.
  destruct (l !! i) as [x|] eqn:E.
  - apply lookup_lt_Some in E as Hl.
    assert (seqZ 0 (Z.of_nat (length l)) !! i = Some (Z.of_nat i)) as -> by (apply lookup_seqZ; lia).
    cbn. f_equal. unfold arr. rewrite Nat2Z.id. by apply nth_lookup_Some.
  - apply lookup_ge_None in E. rewrite lookup_ge_None_2; [done|]. rewrite length_seqZ. lia.
Qed.

(** ** The loop *)

Context (Hwf : sched_wf).

Definition total : Z := zsum (max_queue <$> vls).

Lemma releases_app evs e : releases (evs ++ [e]) -> releases evs.
Proof.
  intros Hr j t v Hj. apply lookup_lt_Some in Hj as Hl.
  destruct (Hr j t v ltac:(by apply lookup_app_l_Some)) as (H1 & H2 & H3).
  rewrite take_app_le in H2 by lia. done.
Qed.

(** A link never occurs more often than it has releases. *)
Lemma releases_count evs i :
  releases evs -> 0 <= i < links -> count i evs <= mq i.
Proof.
  destruct Hwf as (_ & _ & Hl & Hq & _).
  induction evs as [|[t v] evs IH] using rev_ind; intros Hr Hi.
  - specialize (Hq i Hi). unfold count. rewrite filter_nil. cbn [length]. lia.
  - rewrite count_snoc. specialize (IH (releases_app _ _ Hr) Hi).
    destruct (Z.eqb_spec v i) as [->|]; [|lia].
    destruct (Hr (length evs) t i) as (_ & E & Ht); [by rewrite lookup_app_r, Nat.sub_diag|].
    rewrite take_app_length in E. destruct (Hl i Hi) as (_ & Hp & Hm). nia.
Qed.

Lemma releases_fit evs : releases evs -> Z.of_nat (length evs) <= total.
Proof.
  intros Hr. rewrite <- count_total by (intros j t v Hj; by destruct (Hr j t v Hj)).
  unfold total. rewrite <- (zsum_arr (max_queue <$> vls)), length_fmap. apply zsum_seq_le; [lia|].
  intros i Hi. by apply releases_count.
Qed.

Record gen_inv (g : gen_state) (evs : events) : Prop := {
  gi_index : 0 <= g_index g;
  gi_len : Z.of_nat (length evs) = g_index g + 1;
  gi_last : exists v, evs !! Z.to_nat (g_index g) = Some (g_current g, v);
  gi_rel : releases evs;
  gi_ord : in_order evs;
  gi_cur_len : length (g_VLcurrent g) = length vls;
  gi_cur : forall i, 0 <= i < links -> arr (g_VLcurrent g) i = st i + pe i * count i evs;
  gi_ge : forall i, 0 <= i < links -> g_current g <= arr (g_VLcurrent g) i < 2 * cluster;
  gi_sched : Z.of_nat (length (g_sched g)) = total;
  gi_VLsched : Z.of_nat (length (g_VLsched g)) = total;
  gi_enc : encodes evs (g_sched g) (g_VLsched g)
}.

Lemma lookup_link i :
  0 <= i < links -> exists v, vls !! Z.to_nat i = Some v /\ period v = pe i.
Proof.
  intros Hi. destruct (lookup_lt_is_Some_2 vls (Z.to_nat i)) as [v Hv]; [unfold links in *; lia|].
  exists v. split; [done|]. unfold pe, arr. symmetry. apply nth_lookup_Some.
  by rewrite list_lookup_fmap, Hv.
Qed.

(** Adding the next release. *)
Lemma releases_snoc evs t v :
  releases evs -> 0 <= v < links -> t = st v + pe v * count v evs -> t < cluster ->
  releases (evs ++ [(t, v)]).
Proof.
  intros Hr Hv Ht Hc j t' v' Hj. apply lookup_app_Some in Hj as [Hj|[Hl Hj]].
  - rewrite take_app_le by (apply lookup_lt_Some in Hj; lia). by apply Hr.
  - apply list_lookup_singleton_Some in Hj as [E [= -> ->]].
    rewrite take_app_ge by lia. assert (j - length evs = 0)%nat as -> by lia.
    rewrite take_0, app_nil_r. done.
Qed.

Lemma in_order_snoc evs t v k t0 v0 :
  in_order evs -> length evs = S k -> evs !! k = Some (t0, v0) -> t0 <= t ->
  in_order (evs ++ [(t, v)]).
Proof.
  intros Ho Hl Hk Ht j a b a' b' Hj Hj'. apply lookup_app_Some in Hj' as [Hj'|[Hl' Hj']].
  - rewrite lookup_app_l in Hj by (apply lookup_lt_Some in Hj'; lia). by apply (Ho j a b a' b').
  - apply list_lookup_singleton_Some in Hj' as [E [= -> ->]].
    assert (j = k) as -> by lia. rewrite lookup_app_l in Hj by lia. congruence.
Qed.

(** The two writes of an iteration. *)
Lemma encodes_step evs sched VLsched sched' VLsched' k t0 v0 t v :
  encodes evs sched VLsched -> length evs = S k -> evs !! k = Some (t0, v0) ->
  (S k < length VLsched)%nat -> (k < length sched)%nat ->
  sched' = <[k := t - t0]> sched -> VLsched' = <[S k := v]> VLsched ->
  encodes (evs ++ [(t, v)]) sched' VLsched'.
Proof.
  intros He Hl Hk Hlv Hls -> ->.
  assert (forall j x l, (j < length l)%nat -> forall i, arr (<[j := x]> l) (Z.of_nat i) =
            if decide (i = j) then x else arr l (Z.of_nat i)) as Hins.
  { intros j x l Hj i. rewrite <- (Nat2Z.id j), arr_insert by lia. rewrite Nat2Z.id.
    destruct (Z.eqb_spec (Z.of_nat j) (Z.of_nat i)); case_decide; lia || done. }
  intros j a b Hj. rewrite !Hins by lia. apply lookup_app_Some in Hj as [Hj|[Hj0 Hj]].
  - apply lookup_lt_Some in Hj as Hjl. rewrite decide_False by lia.
    destruct (He j a b Hj) as [E1 E2]. split; [done|]. intros a' b' Hj'.
    case_decide as E.
    + subst j. rewrite Hk in Hj. injection Hj as <- <-.
      rewrite lookup_app_r in Hj' by lia. rewrite Hl, Nat.sub_diag in Hj'. by injection Hj' as <- <-.
    + rewrite lookup_app_l in Hj' by lia. by apply (E2 a' b').
  - apply list_lookup_singleton_Some in Hj as [E [= -> ->]].
    rewrite decide_True by lia. split; [done|]. intros a' b' Hj'.
    apply lookup_lt_Some in Hj'. rewrite length_app in Hj'. cbn [length] in Hj'. lia.
Qed.

(** Writes behind the described part. *)
Lemma encodes_beyond evs sched VLsched sched' VLsched' k :
  encodes evs sched VLsched -> length evs = S k ->
  (forall i, (i < k)%nat -> arr sched' (Z.of_nat i) = arr sched (Z.of_nat i)) ->
  (forall i, (i <= k)%nat -> arr VLsched' (Z.of_nat i) = arr VLsched (Z.of_nat i)) ->
  encodes evs sched' VLsched'.
Proof.
  intros He Hl H1 H2 j a b Hj. apply lookup_lt_Some in Hj as Hjl. destruct (He j a b Hj) as [E1 E2].
  rewrite H2 by lia. split; [done|]. intros a' b' Hj'. apply lookup_lt_Some in Hj' as Hjl'.
  rewrite H1 by lia. by apply (E2 a' b').
Qed.

Lemma store_some l i x :
  0 <= i < Z.of_nat (length l) -> store l i x = Some (<[Z.to_nat i := x]> l).
Proof. intros Hi. unfold store. by zif. Qed.

(** The next link to be released. *)
Lemma gen_min g evs :
  gen_inv g evs ->
  let '(min, vl) := sched_min (g_VLcurrent g) (u32 (cluster * 2)) (g_VL g) in
  0 <= vl < links /\ min = st vl + pe vl * count vl evs /\ arr (g_VLcurrent g) vl = min /\
  g_current g <= min < 2 * cluster /\
  (forall i, 0 <= i < links -> min <= arr (g_VLcurrent g) i).
Proof.
  intros [Hi0 Hlen Hlast Hrel Hord Hcl Hcur Hge Hsl HVl Henc].
  destruct Hwf as (Hc & Hn & _). rewrite u32_small by lia.
  pose proof (sched_min_spec (g_VLcurrent g) (cluster * 2) (g_VL g)) as (H1 & H2 & H3).
  rewrite Hcl in H2, H3. fold links in H2, H3.
  destruct (sched_min (g_VLcurrent g) (cluster * 2) (g_VL g)) as [mn vl]. cbn [fst snd] in *.
  destruct H3 as [[= -> ->]|(Hv & E & Hlt)].
  - exfalso. specialize (H2 0 ltac:(lia)). specialize (Hge 0 ltac:(lia)). lia.
  - split; [done|]. rewrite <- E at 1. split; [by apply Hcur|]. split; [done|].
    split; [|done]. specialize (Hge vl Hv). lia.
Qed.

Lemma gen_current_nonneg g evs : gen_inv g evs -> 0 <= g_current g.
Proof.
  intros Hg. destruct (gi_last _ _ Hg) as [v0 Hlast]. pose proof Hwf as (_ & _ & Hlk & _).
  destruct (gi_rel _ _ Hg _ _ _ Hlast) as (Hv0 & -> & _). destruct (Hlk v0 Hv0) as (? & ? & _).
  pose proof (count_nonneg v0 (take (Z.to_nat (g_index g)) evs)). nia.
Qed.

(** The state after an iteration that found [(mn, vl)]. *)
Lemma gen_step_run g evs mn vl :
  gen_inv g evs -> sched_min (g_VLcurrent g) (u32 (cluster * 2)) (g_VL g) = (mn, vl) ->
  0 <= vl < links -> arr (g_VLcurrent g) vl = mn -> g_current g <= mn < 2 * cluster ->
  let k := Z.to_nat (g_index g) in
  exists vs, length vs = length (g_VLsched g) /\
    (forall i, (i <= k)%nat -> arr vs (Z.of_nat i) = arr (g_VLsched g) (Z.of_nat i)) /\
    (g_index g < total - 1 -> vs = <[S k := vl]> (g_VLsched g)) /\
    let g' i := GenState i mn (<[Z.to_nat vl := mn + pe vl]> (g_VLcurrent g)) vl
                  (<[k := mn - g_current g]> (g_sched g)) vs in
    gen_step cluster total vls g =
    Some (if cluster <=? mn then inr (g' (g_index g)) else inl (g' (g_index g + 1))).
Proof.
  intros Hg Esm Hv Ecv Hmn k. pose proof (gen_current_nonneg g evs Hg) as Hcur0.
  pose proof (releases_fit evs (gi_rel _ _ Hg)) as Hfit.
  destruct Hg as [Hi0 Hlen _ _ _ Hcl _ _ Hsl HVl _].
  pose proof Hwf as (Hc & Hn & Hlk & _). destruct (Hlk vl Hv) as (Hst & Hpe & _).
  destruct (lookup_link vl Hv) as (v & Ev & Ep).
  unfold gen_step. rewrite Esm. cbv beta iota zeta. rewrite (store_some (g_sched g)) by lia.
  cbn [mbind option_bind]. rewrite (u32_small (mn - g_current g)) by lia. fold k.
  destruct (Z.ltb_spec (g_index g) (total - 1)).
  - rewrite store_some by lia. exists (<[S k := vl]> (g_VLsched g)). rewrite length_insert.
    split; [done|]. split; [|split; [done|]].
    + intros i Hi. rewrite <- (Nat2Z.id (S k)), arr_insert by lia. by zif.
    + cbn [mbind option_bind]. rewrite Ev. cbn [mbind option_bind].
      rewrite Ep, Ecv, (u32_small (mn + pe vl)) by lia.
      replace (Z.to_nat (g_index g + 1)) with (S k) by lia. by destruct (cluster <=? mn).
  - exists (g_VLsched g). split; [done|]. split; [done|]. split; [lia|].
    cbn [mbind option_bind]. rewrite Ev. cbn [mbind option_bind].
    rewrite Ep, Ecv, (u32_small (mn + pe vl)) by lia. by destruct (cluster <=? mn).
Qed.

(** One iteration: the loop is left with a complete schedule, or one release is added. *)
Lemma gen_step_inv g evs :
  gen_inv g evs ->
  (exists g', gen_step cluster total vls g = Some (inr g') /\
     encodes evs (g_sched g') (g_VLsched g') /\ complete evs) \/
  (exists g' e, gen_step cluster total vls g = Some (inl g') /\ gen_inv g' (evs ++ [e])).
Proof.
  intros Hg. pose proof (gen_min g evs Hg) as Hmin.
  destruct (sched_min (g_VLcurrent g) (u32 (cluster * 2)) (g_VL g)) as [mn vl] eqn:Esm.
  destruct Hmin as (Hv & Emn & Ecv & Hmn & Hall).
  destruct (gen_step_run g evs mn vl Hg Esm Hv Ecv Hmn) as (vs & Hvl & Hvs & Hvs' & ->).
  pose proof (releases_fit evs (gi_rel _ _ Hg)) as Hfit.
  destruct Hg as [Hi0 Hlen [v0 Hlast] Hrel Hord Hcl Hcur Hge Hsl HVl Henc].
  pose proof Hwf as (Hc & Hn & Hlk & _). destruct (Hlk vl Hv) as (Hst & Hpe & _).
  set (k := Z.to_nat (g_index g)) in *. assert (length evs = S k) as Hlk' by lia.
  destruct (Z.leb_spec cluster mn) as [Hend|Hend].
  - left. eexists. split; [reflexivity|]. cbn [g_sched g_VLsched]. split.
    + apply (encodes_beyond evs (g_sched g) (g_VLsched g) _ _ k Henc Hlk'); [|done].
      intros i Hi. unfold k. rewrite arr_insert by lia. by zif.
    + intros i Hi. rewrite <- Hcur by done. specialize (Hall i Hi). lia.
  - right. assert (releases (evs ++ [(mn, vl)])) as Hrel' by (by apply releases_snoc).
    pose proof (releases_fit _ Hrel') as Hfit'. rewrite length_app in Hfit'. cbn [length] in Hfit'.
    eexists _, (mn, vl). split; [reflexivity|].
    split; cbn [g_index g_current g_VLcurrent g_sched g_VLsched];
      rewrite ?length_insert, ?length_app, ?Hvl; cbn [length]; try done; try lia.
    + exists vl. rewrite lookup_app_r by lia. by replace (Z.to_nat (g_index g + 1) - length evs)%nat with 0%nat by lia.
    + apply (in_order_snoc evs mn vl k (g_current g) v0); try done. lia.
    + intros i Hi. rewrite count_snoc, arr_insert by (unfold links in *; lia).
      destruct (Z.eqb_spec vl i) as [<-|]; [lia|]. rewrite Hcur by done. lia.
    + intros i Hi. rewrite arr_insert by (unfold links in *; lia). specialize (Hall i Hi).
      specialize (Hge i Hi). destruct (Z.eqb_spec vl i); lia.
    + apply (encodes_step evs (g_sched g) (g_VLsched g) _ _ k (g_current g) v0 mn vl); try done; try lia.
      apply Hvs'. lia.
Qed.

Lemma gen_loop_total fuel g evs :
  gen_inv g evs -> total - Z.of_nat (length evs) < Z.of_nat fuel ->
  exists g' evs', gen_loop fuel cluster total vls g = Some g' /\ evs `prefix_of` evs' /\
    releases evs' /\ in_order evs' /\ complete evs' /\ encodes evs' (g_sched g') (g_VLsched g').
Proof.
  revert g evs. induction fuel as [|fuel IH]; intros g evs Hg Hf.
  - pose proof (releases_fit evs (gi_rel _ _ Hg)). lia.
  - cbn [gen_loop]. destruct (gen_step_inv g evs Hg) as [(g' & E & He & Hc)|(g' & e & E & Hg')];
      rewrite E; cbn [mbind option_bind].
    + exists g', evs. destruct Hg. done.
    + destruct (IH g' (evs ++ [e]) Hg') as (g2 & evs2 & ? & Hp & ?).
      { rewrite length_app. cbn [length]. lia. }
      exists g2, evs2. split; [done|]. split; [|done]. by apply (prefix_app_l evs evs2 [e]).
Qed.

(** ** The start *)

Lemma max_sched_total : foldl (fun a v => u8 (a + max_queue v)) 0 vls = total.
Proof.
  destruct Hwf as (_ & _ & _ & Hq & Ht). unfold total.
  assert (forall l, Forall (fun x => 0 <= x) l -> 0 <= zsum l) as Hpos.
  { induction l as [|x l IH] using rev_ind; intros Hf; [done|].
    apply Forall_app in Hf as [Hf Hx]. rewrite Forall_singleton in Hx.
    rewrite zsum_app_one. specialize (IH Hf). lia. }
  assert (Forall (fun x => 0 <= x) (max_queue <$> vls)) as Hall.
  { apply Forall_lookup. intros i x Hx. apply lookup_lt_Some in Hx as Hl. rewrite length_fmap in Hl.
    specialize (Hq (Z.of_nat i) ltac:(unfold links; lia)). unfold mq, arr in Hq.
    rewrite Nat2Z.id in Hq. by rewrite (nth_lookup_Some _ _ _ _ Hx) in Hq. }
  clear Hq. induction vls as [|v l IH] using rev_ind; [done|].
  rewrite fmap_app in Ht, Hall |- *. rewrite foldl_app. cbn [foldl fmap list_fmap] in *.
  apply Forall_app in Hall as [Hall Hv]. rewrite Forall_singleton in Hv.
  rewrite zsum_app_one in Ht |- *. pose proof (Hpos _ Hall).
  rewrite IH by (done || lia). apply u8_small. lia.
Qed.

Lemma gen_start garbage mn vl :
  sched_min (startTime <$> vls) cluster (-1) = (mn, vl) ->
  0 <= vl < links /\ mn = st vl /\
  gen_inv (GenState 0 mn (<[Z.to_nat vl := mn + pe vl]> (startTime <$> vls)) vl
             (replicate (Z.to_nat total) garbage)
             (<[0%nat := vl]> (replicate (Z.to_nat total) garbage))) [(mn, vl)].
Proof.
  intros Esm. pose proof Hwf as (Hc & Hn & Hlk & Hq & _).
  destruct (sched_min_spec (startTime <$> vls) cluster (-1)) as (H1 & H2 & H3).
  rewrite Esm, length_fmap in *. fold links in H2, H3. cbn [fst snd] in *.
  assert (0 <= vl < links /\ st vl = mn) as [Hv Emn].
  { destruct H3 as [[= -> ->]|(Hv & E & _)]; [|done].
    specialize (H2 0 ltac:(lia)). destruct (Hlk 0 ltac:(lia)) as (? & _). fold (st 0) in H2. lia. }
  split; [done|]. split; [done|]. destruct (Hlk vl Hv) as (Hst & Hpe & _).
  assert (releases [(mn, vl)]) as Hrel.
  { intros [|j] t v Hj; [|done]. injection Hj as <- <-. cbn [take].
    change (count vl []) with 0. split; [done|]. lia. }
  pose proof (releases_fit _ Hrel) as Hfit. cbn [length] in Hfit.
  split; cbn [g_index g_current g_VLcurrent g_sched g_VLsched];
    rewrite ?length_insert, ?length_replicate, ?length_fmap; cbn [length]; try done; try lia.
  - by exists vl.
  - intros i Hi. rewrite arr_insert by (rewrite ?length_fmap; unfold links in *; lia). fold (st i).
    change [(mn, vl)] with ([] ++ [(mn, vl)]). rewrite count_snoc. change (count i []) with 0.
    destruct (Z.eqb_spec vl i) as [<-|]; lia.
  - intros i Hi. rewrite arr_insert by (rewrite ?length_fmap; unfold links in *; lia). fold (st i).
    specialize (H2 i Hi). fold (st i) in H2. destruct (Hlk i Hi) as (? & _).
    destruct (Z.eqb_spec vl i); lia.
  - intros [|j] t v Hj; [|done]. injection Hj as <- <-. split; [|done].
    change 0%nat with (Z.to_nat 0). rewrite arr_insert; [done| |lia].
    rewrite length_replicate. lia.
Qed.

(** Claim C25. The schedule is correct: for links that fit, [tte_generate_schedule]
    returns, and the arrays describe a list of events that starts at [startTick], is
    in the order of time, consists of successive releases [startTime + j * period] of
    the links, all before the end of the cluster period, and misses none of them. *)
Theorem tte_schedule_correct fuel garbage :
  (256 <= fuel)%nat ->
  exists p evs, tte_generate_schedule fuel cluster vls garbage = Some p /\
    (exists v rest, evs = (startTick p, v) :: rest) /\
    max_sched p = total /\ Z.of_nat (length evs) <= max_sched p /\
    in_order evs /\ releases evs /\ complete evs /\ encodes evs (sched p) (VLsched p).
Proof.
  intros Hf. unfold tte_generate_schedule.
  destruct (sched_min (startTime <$> vls) cluster (-1)) as [mn vl] eqn:Esm.
  destruct (gen_start garbage mn vl Esm) as (Hv & Emn & Hg). rewrite max_sched_total.
  pose proof Hwf as (Hc & Hn & Hlk & _ & Ht). fold total in Ht. destruct (Hlk vl Hv) as (Hst & Hpe & _).
  pose proof (releases_fit _ (gi_rel _ _ Hg)) as Hfit. cbn [length] in Hfit.
  destruct (gen_loop_total fuel _ _ Hg) as (g' & evs & E & Hp & Hr & Ho & Hco & He);
    [cbn [length]; lia|].
  destruct (Z.eqb_spec vl (-1)); [lia|]. destruct (lookup_link vl Hv) as (v & Ev & Ep).
  rewrite Ev. cbn [mbind option_bind]. fold (st vl). rewrite <- Emn, Ep, (u32_small (mn + pe vl)) by lia.
  rewrite store_some by (rewrite length_replicate; lia). cbn [mbind option_bind].
  change (Z.to_nat 0) with 0%nat. rewrite E. cbn [mbind option_bind].
  eexists _, evs. split; [reflexivity|]. cbn [startTick max_sched sched VLsched].
  split; [destruct Hp as [rest ->]; by exists vl, rest|].
  split; [done|]. split; [by apply releases_fit|done].
Qed.

End Spec.

(** ** Witness *)

(** The links of the TTE demo: 0.8 ms every 4 ms, 1 ms every 2 ms, and the integration
    frames every 10 ms, in a cluster cycle of 20 ms. *)
Definition demo_links : list VL :=
  [MkVL 5 8 40 [] [] 0 0; MkVL 10 10 20 [] [] 0 0; MkVL 2 100 100 [] [] 0 0].

Lemma demo_wf : sched_wf 200 demo_links.
Proof.
  assert (links demo_links = 3) as E by reflexivity. unfold sched_wf. rewrite E.
  split; [lia|]. split; [lia|]. split; [|split; [|vm_compute; reflexivity]]; intros i Hi;
    assert (i = 0 \/ i = 1 \/ i = 2) as [->|[->| ->]] by lia; vm_compute; repeat split; discriminate.
Qed.

Lemma tte_schedule_correct_witness :
  exists p evs, tte_generate_schedule 256 200 demo_links 0 = Some p /\
    (exists v rest, evs = (startTick p, v) :: rest) /\
    max_sched p = total demo_links /\ Z.of_nat (length evs) <= max_sched p /\
    in_order evs /\ releases 200 demo_links evs /\ complete 200 demo_links evs /\
    encodes evs (sched p) (VLsched p).
Proof. apply (tte_schedule_correct 200 demo_links demo_wf 256 0). lia. Defined.
