(* ===== verification/Ptp.v ===== *)
(** * PTP (IEEE 1588): src/c/ethlib/ptp1588.c and ptp1588.h

    Issuing and handling the messages of the delay request-response mechanism, and
    the correction of the clock. A message is the memory of a [PTPv2Msg]: 56 bytes in
    the target's byte order (big endian) and layout, in which [unsigned long long]
    is aligned to 4 bytes. [get_ptp_usecs], which computes in floating point, and the
    printing routine are not modelled. *)

From stdpp Require Import base gmap list numbers.
From S2P Require Import Prelude Machine EthIO Frame MacDriver Mac Checksum Ipv4 Arp Segment Udp.
Local Open Scope Z_scope.
Local Open Scope c_scope.

(** ** Constants *)

Definition PTP_EVENT_PORT := 319.
Definition PTP_GENERAL_PORT := 320.
Definition PTP_SYNC_MSGTYPE := 0x00.
Definition PTP_FOLLOW_MSGTYPE := 0x08.
Definition PTP_DLYREQ_MSGTYPE := 0x01.
Definition PTP_DLYRPLY_MSGTYPE := 0x09.
Definition PTP_ANNOUNCE_MSGTYPE := 0xb.
Definition PTP_SYNC_CTRL := 0x0.
Definition PTP_FOLLOW_CTRL := 0x2.
Definition PTP_DLYREQ_CTRL := 0x1.
Definition PTP_DLYRPLY_CTRL := 0x3.
Definition FLAG_PTP_UNICAST_MASK := 0x400.
Definition FLAG_PTP_TWO_STEP_MASK := 0x0200.
Definition PTP_BROADCAST_MAC := [0xFF; 0xFF; 0xFF; 0xFF; 0xFF; 0xFF].
Definition SEC_TO_NS := 1000000000.
Definition SEC_TO_USEC := 1000000.
Definition USEC_TO_NS := 1000.
Definition WCET_COMPENSATION := 3 * USEC_TO_NS.
Definition PTP_NS_OFFSET_THRESHOLD := 500000 * USEC_TO_NS.
Definition PTP_MASTER := 0.
Definition PTP_SLAVE := 1.

(** Register offsets. *)
Definition PTP_RXCHAN_TIMESTAMP_NS (base : Z) := u32 (base + 0xE000).
Definition PTP_RXCHAN_TIMESTAMP_SEC (base : Z) := u32 (base + 0xE004).
Definition PTP_RXCHAN_STATUS (base : Z) := u32 (base + 0xE008).
Definition PTP_TXCHAN_TIMESTAMP_NS (base : Z) := u32 (base + 0xE400).
Definition PTP_TXCHAN_TIMESTAMP_SEC (base : Z) := u32 (base + 0xE404).
Definition PTP_TXCHAN_STATUS (base : Z) := u32 (base + 0xE408).
Definition RTC_TIME_NS (base : Z) := u32 (base + 0xE800).
Definition RTC_TIME_SEC (base : Z) := u32 (base + 0xE804).
Definition RTC_ADJUST_OFFSET (base : Z) := u32 (base + 0xE820).

(** ** State *)

(** [PTPv2Msg] as memory, with the offsets of its fields. *)
Abbreviation PTPv2Msg := (list Z).
Definition sizeof_PTPv2Msg := 56%nat.
Definition off_msgType := 0.
Definition off_version := 1.
Definition off_messageLength := 2.
Definition off_flagField := 6.
Definition off_correctionField := 8.
Definition off_portIdentity := 20.
Definition off_portId := 28.
Definition off_sequenceId := 30.
Definition off_controlField := 32.
Definition off_logMessageInterval := 33.
Definition off_seconds := 36.
Definition off_nanoseconds := 40.
Definition off_requestingSourcePort := 44.
Definition off_requestingSourceId := 52.

Definition get16 (msg : PTPv2Msg) (k : Z) : Z := arr msg k * 256 + arr msg (k + 1).
Definition get32 (msg : PTPv2Msg) (k : Z) : Z := get16 msg k * 65536 + get16 msg (k + 2).
Definition set8 (k v : Z) (msg : PTPv2Msg) : PTPv2Msg := <[Z.to_nat k := u8 v]> msg.
Definition set16 (k v : Z) (msg : PTPv2Msg) : PTPv2Msg := set8 (k + 1) v (set8 k (v >> 8) msg).
Definition set32 (k v : Z) (msg : PTPv2Msg) : PTPv2Msg := set16 (k + 2) v (set16 k (v >> 16) msg).
Definition set_bytes (k n : Z) (l : list Z) (msg : PTPv2Msg) : PTPv2Msg :=
  for_ n (fun i msg => set8 (k + i) (arr l i) msg) msg.

(** A pair of a [...Seconds] and a [...Nanoseconds] field. *)
Record PTPv2Time := PtpTime { seconds : Z; nanoseconds : Z }.

Record PTPv2TimeRecord := TimeRecord {
  syncInterval : Z;
  offset : PTPv2Time;
  t1 : PTPv2Time;
  t2 : PTPv2Time;
  delay : PTPv2Time;
  t3 : PTPv2Time;
  t4 : PTPv2Time
}.

Record PTPPortInfo := PortInfo {
  eth_base : Z;
  port_ip : list Z;
  port_mac : list Z;
  clockId : list Z;
  port_id : Z;
  portRole : Z;
  port_syncInterval : Z
}.

(** The globals. *)
Record ptp := Ptp {
  txPTPMsg : PTPv2Msg;
  rxPTPMsg : PTPv2Msg;
  ptpTimeRecord : PTPv2TimeRecord;
  thisPtpPortInfo : PTPPortInfo;
  lastMasterInfo : PTPPortInfo;
  lastSlaveInfo : PTPPortInfo
}.

Definition set_tx (v : PTPv2Msg) (p : ptp) : ptp :=
  Ptp v (rxPTPMsg p) (ptpTimeRecord p) (thisPtpPortInfo p) (lastMasterInfo p) (lastSlaveInfo p).
Definition set_rx (v : PTPv2Msg) (p : ptp) : ptp :=
  Ptp (txPTPMsg p) v (ptpTimeRecord p) (thisPtpPortInfo p) (lastMasterInfo p) (lastSlaveInfo p).
Definition set_record (v : PTPv2TimeRecord) (p : ptp) : ptp :=
  Ptp (txPTPMsg p) (rxPTPMsg p) v (thisPtpPortInfo p) (lastMasterInfo p) (lastSlaveInfo p).
Definition set_master (v : PTPPortInfo) (p : ptp) : ptp :=
  Ptp (txPTPMsg p) (rxPTPMsg p) (ptpTimeRecord p) (thisPtpPortInfo p) v (lastSlaveInfo p).
Definition set_slave (v : PTPPortInfo) (p : ptp) : ptp :=
  Ptp (txPTPMsg p) (rxPTPMsg p) (ptpTimeRecord p) (thisPtpPortInfo p) (lastMasterInfo p) v.

Definition set_t1 (v : PTPv2Time) (r : PTPv2TimeRecord) : PTPv2TimeRecord :=
  TimeRecord (syncInterval r) (offset r) v (t2 r) (delay r) (t3 r) (t4 r).
Definition set_t2 (v : PTPv2Time) (interval : Z) (r : PTPv2TimeRecord) : PTPv2TimeRecord :=
  TimeRecord interval (offset r) (t1 r) v (delay r) (t3 r) (t4 r).
Definition set_t3 (v : PTPv2Time) (r : PTPv2TimeRecord) : PTPv2TimeRecord :=
  TimeRecord (syncInterval r) (offset r) (t1 r) (t2 r) (delay r) v (t4 r).
Definition set_t4 (v : PTPv2Time) (r : PTPv2TimeRecord) : PTPv2TimeRecord :=
  TimeRecord (syncInterval r) (offset r) (t1 r) (t2 r) (delay r) (t3 r) v.
Definition set_results (o d : PTPv2Time) (r : PTPv2TimeRecord) : PTPv2TimeRecord :=
  TimeRecord (syncInterval r) o (t1 r) (t2 r) d (t3 r) (t4 r).

(** [info.ip[0] = source_ip[0]; ... info.mac[5] = source_mac[5];] *)
Definition set_peer (source_ip source_mac : list Z) (i : PTPPortInfo) : PTPPortInfo :=
  PortInfo (eth_base i) (copy_arr 4 source_ip (port_ip i)) (copy_arr 6 source_mac (port_mac i))
    (clockId i) (port_id i) (portRole i) (port_syncInterval i).

(** ** Operations *)

(** The arrays of the new port are written in full. *)
Definition ptpv2_intialize_local_port `{CharType} (eth_base portRole : Z) (mac ip : list Z)
    (portId syncPeriod : Z) : PTPPortInfo :=
  PortInfo eth_base [arr ip 0; arr ip 1; arr ip 2; arr ip 3]
    [arr mac 0; arr mac 1; arr mac 2; arr mac 3; arr mac 4; arr mac 5]
    [arr mac 0; arr mac 1; arr mac 2; 0xff; 0xfe; arr mac 3; arr mac 4; arr mac 5]
    portId (u32 portRole) (to_char syncPeriod).

Definition ptp_calc_offset (t1 t2 delay : Z) : Z := s32 (t2 - t1 - delay).

(** Signed division rounds towards zero. *)
Definition ptp_calc_delay (t1 t2 t3 t4 : Z) : Z := Z.quot (s32 (t2 - t1 + t4 - t3)) 2.

Definition ptp_filter_clockport (sourceId : list Z) (sourcePortId : Z) (matchId : list Z)
    (matchPortId : Z) : Z :=
  let ans := Z.b2z (arr sourceId 0 =? arr matchId 0) in
  let ans := ans .& Z.b2z (arr sourceId 1 =? arr matchId 1) in
  let ans := ans .& Z.b2z (arr sourceId 2 =? arr matchId 2) in
  let ans := ans .& Z.b2z (arr sourceId 3 =? arr matchId 3) in
  let ans := ans .& Z.b2z (arr sourceId 4 =? arr matchId 4) in
  let ans := ans .& Z.b2z (arr sourceId 5 =? arr matchId 5) in
  let ans := ans .& Z.b2z (arr sourceId 6 =? arr matchId 6) in
  let ans := ans .& Z.b2z (arr sourceId 7 =? arr matchId 7) in
  ans .& Z.b2z (sourcePortId =? matchPortId).

(** The four conversions of the parts of [t1] ... [t4] to [int], and the results. *)
Definition ptp_results (r : PTPv2TimeRecord) : PTPv2TimeRecord :=
  let delayNanoseconds := ptp_calc_delay (s32 (nanoseconds (t1 r))) (s32 (nanoseconds (t2 r)))
                            (s32 (nanoseconds (t3 r))) (s32 (nanoseconds (t4 r))) in
  let offsetNanoseconds := ptp_calc_offset (s32 (nanoseconds (t1 r))) (s32 (nanoseconds (t2 r)))
                             delayNanoseconds in
  let delaySeconds := ptp_calc_delay (s32 (seconds (t1 r))) (s32 (seconds (t2 r)))
                        (s32 (seconds (t3 r))) (s32 (seconds (t4 r))) in
  let offsetSeconds := ptp_calc_offset (s32 (seconds (t1 r))) (s32 (seconds (t2 r))) delaySeconds in
  set_results (PtpTime offsetSeconds offsetNanoseconds) (PtpTime delaySeconds delayNanoseconds) r.

Section Devices.
Context `{Env}.

Definition ptp_correct_offset (ptpPortInfo : PTPPortInfo) (r : PTPv2TimeRecord) : M unit :=
  let base := eth_base ptpPortInfo in
  if negb (seconds (offset r) =? 0) then
    s ← io_rd (RTC_TIME_SEC base);
    io_wr (RTC_TIME_SEC base) (u32 (s32 (- seconds (offset r) + s32 s)));;
    n ← io_rd (RTC_TIME_NS base);
    io_wr (RTC_TIME_NS base) (u32 (s32 (- nanoseconds (offset r) + WCET_COMPENSATION + s32 n)))
  else if PTP_NS_OFFSET_THRESHOLD <? Z.abs (nanoseconds (offset r)) then
    n ← io_rd (RTC_TIME_NS base);
    io_wr (RTC_TIME_NS base) (u32 (s32 (- nanoseconds (offset r) + WCET_COMPENSATION + s32 n)))
  else io_wr (RTC_ADJUST_OFFSET base) (u32 (nanoseconds (offset r))).

(** The head of a message: everything [ptpv2_issue_msg] sets before its first switch. *)
Definition ptp_fill_head (port : PTPPortInfo) (seqId msgType : Z) (msg : PTPv2Msg) : PTPv2Msg :=
  let msg := set16 off_sequenceId seqId msg in
  let msg := set8 off_msgType msgType msg in
  let msg := set8 off_version 0x02 msg in
  let msg := set16 off_flagField (get16 msg off_flagField .| FLAG_PTP_TWO_STEP_MASK) msg in
  let msg := set16 off_flagField (get16 msg off_flagField .| FLAG_PTP_UNICAST_MASK) msg in
  let msg := set_bytes off_correctionField 8 (replicate 8 0) msg in
  let msg := set_bytes off_portIdentity 8 (clockId port) msg in
  let msg := set16 off_portId (port_id port) msg in
  set8 off_logMessageInterval (port_syncInterval port) msg.

Definition ptp_set_body (t : PTPv2Time) (msg : PTPv2Msg) : PTPv2Msg :=
  set32 off_nanoseconds (nanoseconds t) (set32 off_seconds (seconds t) msg).

(** The RTC, seconds first. *)
Definition rtc_time (base : Z) : M PTPv2Time :=
  s ← io_rd (RTC_TIME_SEC base);
  n ← io_rd (RTC_TIME_NS base);
  mret (PtpTime s n).

(** The time stamp of a transmission, nanoseconds first; then the flag is cleared. *)
Definition tx_stamp (base : Z) : M PTPv2Time :=
  n ← io_rd (PTP_TXCHAN_TIMESTAMP_NS base);
  s ← io_rd (PTP_TXCHAN_TIMESTAMP_SEC base);
  io_wr (PTP_TXCHAN_STATUS base) 0x1;;
  mret (PtpTime s n).

Definition ptpv2_issue_msg (fuel : nat) (port : PTPPortInfo) (tx_addr rx_addr : Z)
    (destination_mac destination_ip : list Z) (seqId msgType : Z) (p : ptp) : M (Z * ptp) :=
  let msg := ptp_fill_head port seqId msgType (txPTPMsg p) in
  msg ←
    (if msgType =? PTP_SYNC_MSGTYPE then
       let msg := set8 off_controlField PTP_SYNC_CTRL (set16 off_messageLength 44 msg) in
       t ← rtc_time (eth_base port);
       let msg := ptp_set_body t msg in
       udp_send_mac fuel tx_addr rx_addr destination_mac destination_ip PTP_EVENT_PORT PTP_EVENT_PORT
         msg 44 0;;
       mret msg
     else if msgType =? PTP_FOLLOW_MSGTYPE then
       let msg := set8 off_controlField PTP_FOLLOW_CTRL (set16 off_messageLength 44 msg) in
       let msg := ptp_set_body (t1 (ptpTimeRecord p)) msg in
       udp_send_mac fuel tx_addr rx_addr destination_mac destination_ip PTP_GENERAL_PORT PTP_GENERAL_PORT
         msg 44 0;;
       mret msg
     else if msgType =? PTP_DLYREQ_MSGTYPE then
       let msg := set8 off_controlField PTP_DLYREQ_CTRL (set16 off_messageLength 44 msg) in
       t ← rtc_time (eth_base port);
       let msg := ptp_set_body t msg in
       udp_send_mac fuel tx_addr rx_addr destination_mac destination_ip PTP_EVENT_PORT PTP_EVENT_PORT
         msg 44 0;;
       mret msg
     else if msgType =? PTP_DLYRPLY_MSGTYPE then
       let msg := set8 off_controlField PTP_DLYRPLY_CTRL (set16 off_messageLength 54 msg) in
       let msg := set_bytes off_requestingSourcePort 8
                    (take 8 (drop (Z.to_nat off_portIdentity) (rxPTPMsg p))) msg in
       let msg := set16 off_requestingSourceId (get16 (rxPTPMsg p) off_portId) msg in
       let msg := ptp_set_body (t4 (ptpTimeRecord p)) msg in
       udp_send_mac fuel tx_addr rx_addr destination_mac destination_ip PTP_GENERAL_PORT PTP_GENERAL_PORT
         msg 54 0;;
       mret msg
     else mret msg);
  let p := set_tx msg p in
  p ←
    (if msgType =? PTP_SYNC_MSGTYPE then
       t ← tx_stamp (eth_base port);
       mret (set_record (set_t1 t (ptpTimeRecord p)) p)
     else if msgType =? PTP_DLYREQ_MSGTYPE then
       t ← tx_stamp (eth_base port);
       mret (set_record (set_t3 t (ptpTimeRecord p)) p)
     else mret p);
  mret (s32 msgType, p).

(** [-PTP] is -5. *)
Definition ptpv2_handle_msg (port : PTPPortInfo) (tx_addr rx_addr : Z) (source_mac : list Z) (p : ptp)
    : M (Z * ptp) :=
  n ← io_rd (PTP_RXCHAN_TIMESTAMP_NS (eth_base port));
  s ← io_rd (PTP_RXCHAN_TIMESTAMP_SEC (eth_base port));
  io_wr (PTP_RXCHAN_STATUS (eth_base (thisPtpPortInfo p))) 0x1;;
  let timestamp := PtpTime s n in
  source_ip ← rdbuf (fun m => ipv4_get_source_ip m rx_addr);
  o ← rdbuf (fun m => udp_get_data m rx_addr (rxPTPMsg p) (udp_get_data_length m rx_addr));
  d ← lift o;
  let rx := snd d in
  let p := set_rx rx p in
  let r := ptpTimeRecord p in
  let msgType := arr rx off_msgType in
  let body := PtpTime (get32 rx off_seconds) (get32 rx off_nanoseconds) in
  if msgType =? PTP_SYNC_MSGTYPE then
    let r := set_t2 timestamp (arr rx off_logMessageInterval) r in
    if negb ((get16 rx off_flagField .& FLAG_PTP_TWO_STEP_MASK) =? FLAG_PTP_TWO_STEP_MASK) then
      mret (PTP_SYNC_MSGTYPE,
            set_record (set_t1 body r) (set_master (set_peer source_ip source_mac (lastMasterInfo p)) p))
    else mret (PTP_SYNC_MSGTYPE, set_record r p)
  else if msgType =? PTP_FOLLOW_MSGTYPE then
    mret (PTP_FOLLOW_MSGTYPE,
          set_record (set_t1 body r) (set_master (set_peer source_ip source_mac (lastMasterInfo p)) p))
  else if msgType =? PTP_DLYREQ_MSGTYPE then
    mret (PTP_DLYREQ_MSGTYPE,
          set_record (set_t4 timestamp r) (set_slave (set_peer source_ip source_mac (lastSlaveInfo p)) p))
  else if msgType =? PTP_DLYRPLY_MSGTYPE then
    let r := ptp_results (set_t4 body r) in
    ptp_correct_offset port r;;
    mret (PTP_DLYRPLY_MSGTYPE, set_record r p)
  else mret (- eth_protocol_value PTP, p).

Definition ptpv2_process_received (fuel : nat) (ptpPortInfo : PTPPortInfo) (tx_addr rx_addr : Z) (p : ptp)
    : M (Z * ptp) :=
  let this := thisPtpPortInfo p in
  let issue type ip (p : ptp) :=
    ptpv2_issue_msg fuel this tx_addr rx_addr PTP_BROADCAST_MAC ip
      (get16 (rxPTPMsg p) off_sequenceId) type p in
  if portRole ptpPortInfo =? PTP_MASTER then
    h ← ptpv2_handle_msg this tx_addr rx_addr PTP_BROADCAST_MAC p;
    let '(msgType, p) := h in
    let msgType := s16 msgType in
    if msgType =? PTP_DLYREQ_MSGTYPE then
      r ← issue PTP_DLYRPLY_MSGTYPE (port_ip (lastSlaveInfo p)) p;
      mret (msgType, snd r)
    else mret (msgType, p)
  else if portRole ptpPortInfo =? PTP_SLAVE then
    h ← ptpv2_handle_msg this tx_addr rx_addr PTP_BROADCAST_MAC p;
    let '(msgType, p) := h in
    let msgType := s16 msgType in
    if msgType =? PTP_SYNC_MSGTYPE then
      if negb ((get16 (rxPTPMsg p) off_flagField .& FLAG_PTP_TWO_STEP_MASK) =? FLAG_PTP_TWO_STEP_MASK) then
        r ← issue PTP_DLYREQ_MSGTYPE (port_ip (lastMasterInfo p)) p;
        mret (msgType, snd r)
      else mret (msgType, p)
    else if msgType =? PTP_FOLLOW_MSGTYPE then
      r ← issue PTP_DLYREQ_MSGTYPE (port_ip (lastMasterInfo p)) p;
      mret (msgType, snd r)
    else mret (msgType, p)
  else mret (-1, p).

(** ** Time stamps as numbers *)

Definition get_ptp_nanos (eth_base : Z) : M Z :=
  s ← io_rd (RTC_TIME_SEC eth_base);
  n ← io_rd (RTC_TIME_NS eth_base);
  mret (u64 (SEC_TO_NS * s + n)).

Definition get_ptp_secs (eth_base : Z) : M Z := io_rd (RTC_TIME_SEC eth_base).

Definition get_rx_timestamp_nanos (eth_base : Z) : M Z :=
  s ← io_rd (PTP_RXCHAN_TIMESTAMP_SEC eth_base);
  n ← io_rd (PTP_RXCHAN_TIMESTAMP_NS eth_base);
  mret (u64 (SEC_TO_NS * s + n)).

Definition get_tx_timestamp_nanos (eth_base : Z) : M Z :=
  s ← io_rd (PTP_TXCHAN_TIMESTAMP_SEC eth_base);
  n ← io_rd (PTP_TXCHAN_TIMESTAMP_NS eth_base);
  mret (u64 (SEC_TO_NS * s + n)).

(** [(unsigned long long) NS_TO_USEC] converts 0.001 to 0. *)
Definition ull_NS_TO_USEC := 0.

Definition get_rx_timestamp_usecs (eth_base : Z) : M Z :=
  s ← io_rd (PTP_RXCHAN_TIMESTAMP_SEC eth_base);
  n ← io_rd (PTP_RXCHAN_TIMESTAMP_NS eth_base);
  mret (u64 (SEC_TO_USEC * s + ull_NS_TO_USEC * n)).

Definition get_tx_timestamp_usecs (eth_base : Z) : M Z :=
  s ← io_rd (PTP_TXCHAN_TIMESTAMP_SEC eth_base);
  n ← io_rd (PTP_TXCHAN_TIMESTAMP_NS eth_base);
  mret (u64 (SEC_TO_USEC * s + ull_NS_TO_USEC * n)).

End Devices.

(** ** Lemmas: the memory of a message *)

Definition msg_wf (msg : PTPv2Msg) : Prop := length msg = sizeof_PTPv2Msg /\ bytes msg.

Lemma bytes_insert l i v : bytes l -> 0 <= v < 256 -> bytes (<[i := v]> l).
Proof.
  intros Hl Hv. apply Forall_lookup. intros j x Hj. destruct (decide (i = j)) as [->|Hne].
  - destruct (decide (j < length l)%nat) as [Hlt|Hge].
    + rewrite list_lookup_insert_eq in Hj by done. congruence.
    + rewrite list_insert_ge in Hj by lia. apply lookup_lt_Some in Hj. lia.
  - rewrite list_lookup_insert_ne in Hj by done. unfold bytes in Hl. rewrite Forall_lookup in Hl. by apply (Hl j).
Qed.

Lemma set8_wf k v msg : msg_wf msg -> msg_wf (set8 k v msg).
Proof.
  intros [Hl Hb]. split; [unfold set8; by rewrite length_insert|].
  apply bytes_insert; auto with cword.
Qed.

Lemma set16_wf k v msg : msg_wf msg -> msg_wf (set16 k v msg).
Proof. intros. by do 2 apply set8_wf. Qed.

Lemma set32_wf k v msg : msg_wf msg -> msg_wf (set32 k v msg).
Proof. intros. by do 2 apply set16_wf. Qed.

Lemma set_bytes_wf k n l msg : 0 <= n -> msg_wf msg -> msg_wf (set_bytes k n l msg).
Proof.
  intros Hn Hm. apply (for_ind (fun _ m => msg_wf m)); [done|done|]. intros. by apply set8_wf.
Qed.

Create HintDb msg.
#[export] Hint Resolve set8_wf set16_wf set32_wf set_bytes_wf : msg.

Lemma arr_set8 msg k v j :
  length msg = sizeof_PTPv2Msg -> 0 <= k < 56 -> 0 <= j ->
  arr (set8 k v msg) j = if k =? j then u8 v else arr msg j.
Proof. intros Hl Hk Hj. unfold set8. apply arr_insert; [|done]. rewrite Hl. unfold sizeof_PTPv2Msg. lia. Qed.

Lemma arr_set16 msg k v j :
  length msg = sizeof_PTPv2Msg -> 0 <= k < 55 -> 0 <= j ->
  arr (set16 k v msg) j = if k + 1 =? j then u8 v else if k =? j then u8 (v >> 8) else arr msg j.
Proof.
  intros Hl Hk Hj. unfold set16. rewrite !arr_set8 by (try lia; unfold set8; by rewrite ?length_insert).
  done.
Qed.

Lemma set16_length k v msg : length (set16 k v msg) = length msg.
Proof. unfold set16, set8. by rewrite !length_insert. Qed.

Lemma set32_length k v msg : length (set32 k v msg) = length msg.
Proof. unfold set32. by rewrite !set16_length. Qed.

(** Reading back a 32-bit field, over or beside the field written. *)
Lemma get32_set32 msg k v j :
  length msg = sizeof_PTPv2Msg -> 0 <= k -> k + 3 < 56 -> 0 <= j -> 0 <= v < 0x100000000 ->
  j = k \/ j + 4 <= k \/ k + 4 <= j ->
  get32 (set32 k v msg) j = if k =? j then v else get32 msg j.
Proof.
  intros Hl Hk Hk2 Hj Hv Hd. unfold get32, get16, set32.
  rewrite !arr_set16 by (rewrite ?set16_length; done || lia). rewrite !shr_div by lia.
  change (2 ^ 16) with 65536. change (2 ^ 8) with 256. unfold u8.
  destruct (Z.eqb_spec k j) as [<-|Hne].
  - zif. zdm.
  - zif. done.
Qed.

Lemma ptp_set_body_eq t msg :
  length msg = sizeof_PTPv2Msg -> 0 <= seconds t < 0x100000000 -> 0 <= nanoseconds t < 0x100000000 ->
  get32 (ptp_set_body t msg) off_seconds = seconds t /\
  get32 (ptp_set_body t msg) off_nanoseconds = nanoseconds t /\
  arr (ptp_set_body t msg) off_msgType = arr msg off_msgType.
Proof.
  intros Hl Hs Hn. unfold ptp_set_body, off_seconds, off_nanoseconds, off_msgType.
  rewrite !get32_set32 by (rewrite ?set32_length; done || lia). cbn [Z.eqb Pos.eqb].
  split; [done|]. split; [done|].
  unfold set32. rewrite !arr_set16 by (rewrite ?set16_length; done || lia). by zif.
Qed.

Lemma ptp_fill_head_wf port seqId msgType msg : msg_wf msg -> msg_wf (ptp_fill_head port seqId msgType msg).
Proof.
  intros. unfold ptp_fill_head. cbv zeta. repeat first [apply set8_wf|apply set16_wf|apply set_bytes_wf];
    try lia; done.
Qed.

Lemma set_bytes_other k n l msg j :
  0 <= n -> length msg = sizeof_PTPv2Msg -> 0 <= k -> k + n <= 56 -> 0 <= j -> j < k \/ k + n <= j ->
  arr (set_bytes k n l msg) j = arr msg j.
Proof.
  intros Hn Hl Hk Hk2 Hj Hd. unfold set_bytes.
  apply (for_ind (fun _ m => length m = sizeof_PTPv2Msg /\ arr m j = arr msg j)); [done|done|].
  intros i m Hi [Hlm E]. split; [unfold set8; by rewrite length_insert|].
  rewrite arr_set8 by (done || lia). by zif.
Qed.

(** The type of a message survives the rest of its head. *)
Lemma ptp_fill_head_type port seqId msgType msg :
  msg_wf msg -> arr (ptp_fill_head port seqId msgType msg) off_msgType = u8 msgType.
Proof.
  intros [Hl _]. unfold ptp_fill_head. cbv zeta.
  assert (forall m k v, length m = sizeof_PTPv2Msg -> length (set8 k v m) = sizeof_PTPv2Msg) as H8
    by (intros; unfold set8; by rewrite length_insert).
  assert (forall m k v, length m = sizeof_PTPv2Msg -> length (set16 k v m) = sizeof_PTPv2Msg) as H16
    by (intros; by rewrite set16_length).
  assert (forall m k n l, 0 <= n -> length m = sizeof_PTPv2Msg ->
    length (set_bytes k n l m) = sizeof_PTPv2Msg) as HB.
  { intros m k n l Hn Hm. apply (for_ind (fun _ m => length m = sizeof_PTPv2Msg)); auto. }
  unfold off_msgType, off_version, off_flagField, off_correctionField, off_portIdentity, off_portId,
    off_sequenceId, off_logMessageInterval.
  repeat first [rewrite arr_set8 by (lia || auto 12 with lia) | rewrite arr_set16 by (lia || auto 12 with lia)
               | rewrite set_bytes_other by (lia || auto 12 with lia)]; eval_eqb; done.
Qed.

(** ** Theorems: offset and delay *)

Definition in_second (t : PTPv2Time) : Prop := 0 <= seconds t < 0x7FFFFFFF /\ 0 <= nanoseconds t < SEC_TO_NS.

(** Claim C36. With a symmetric path delay [d] and clocks [o] nanoseconds and a whole
    number of seconds apart, the computed offset and delay are exact, when the
    master's two time stamps are in one second and the slave's two are. *)
Theorem ptp_results_exact r d o :
  in_second (t1 r) -> in_second (t2 r) -> in_second (t3 r) -> in_second (t4 r) ->
  seconds (t4 r) = seconds (t1 r) -> seconds (t3 r) = seconds (t2 r) ->
  nanoseconds (t2 r) = nanoseconds (t1 r) + d + o ->
  nanoseconds (t4 r) = nanoseconds (t3 r) + d - o ->
  offset (ptp_results r) = PtpTime (seconds (t2 r) - seconds (t1 r)) o /\
  delay (ptp_results r) = PtpTime 0 d.
Proof.
  intros [A1 B1] [A2 B2] [A3 B3] [A4 B4] E14 E23 En2 En4. unfold SEC_TO_NS in *.
  unfold ptp_results. cbv zeta. cbn [offset delay set_results].
  rewrite !(s32_small (nanoseconds _)), !(s32_small (seconds _)) by lia.
  assert (ptp_calc_delay (nanoseconds (t1 r)) (nanoseconds (t2 r)) (nanoseconds (t3 r))
            (nanoseconds (t4 r)) = d) as ->.
  { unfold ptp_calc_delay. rewrite s32_small by lia.
    replace (_ - _ + _ - _) with (d * 2) by lia. by rewrite Z.quot_mul by lia. }
  assert (ptp_calc_delay (seconds (t1 r)) (seconds (t2 r)) (seconds (t3 r)) (seconds (t4 r)) = 0) as ->.
  { unfold ptp_calc_delay. rewrite E14, E23, s32_small by lia.
    by replace (_ - _ + _ - _) with 0 by lia. }
  unfold ptp_calc_offset. rewrite !s32_small by lia. split; [|done]. f_equal; lia.
Qed.

(** At the start of a second the result is wrong by half a second: for two
    clocks that agree, a path delay [d] and a Sync that leaves [a] nanoseconds before
    the second starts and arrives after it, the computed offset is one second minus
    half a second instead of 0. *)
Theorem ptp_results_second_boundary r s x a d :
  0 <= s < 0x7FFFFFFE -> 0 < a <= d -> d < 100000000 -> 0 <= x < 100000000 ->
  t1 r = PtpTime s (SEC_TO_NS - a) -> t2 r = PtpTime (s + 1) (d - a) ->
  t3 r = PtpTime (s + 1) x -> t4 r = PtpTime (s + 1) (x + d) ->
  offset (ptp_results r) = PtpTime 1 (-500000000).
Proof.
  intros Hs Ha Hd Hx E1 E2 E3 E4. unfold ptp_results. cbv zeta. cbn [offset set_results].
  rewrite E1, E2, E3, E4. cbn [seconds nanoseconds]. unfold SEC_TO_NS in *.
  rewrite !(s32_small s), !(s32_small (s + 1)), !(s32_small (1000000000 - a)), !(s32_small (d - a)),
    !(s32_small x), !(s32_small (x + d)) by lia.
  unfold ptp_calc_delay, ptp_calc_offset.
  rewrite (s32_small (d - a - (1000000000 - a) + (x + d) - x)), (s32_small (s + 1 - s + (s + 1) - (s + 1)))
    by lia.
  replace (d - a - (1000000000 - a) + (x + d) - x) with ((d - 500000000) * 2) by lia.
  replace (s + 1 - s + (s + 1) - (s + 1)) with 1 by lia.
  rewrite Z.quot_mul by lia. change (1 ÷ 2) with 0. rewrite !s32_small by lia. f_equal; lia.
Qed.

(** ** Theorems: messages *)

Section MessageTheorems.
Context `{Env}.

(** The accesses at the start of [ptpv2_handle_msg]. *)
Definition rx_stamped (port this : PTPPortInfo) (s : machine) : machine :=
  let s := access (EvRd (PTP_RXCHAN_TIMESTAMP_NS (eth_base port))) s in
  let s := access (EvRd (PTP_RXCHAN_TIMESTAMP_SEC (eth_base port))) s in
  access (EvWr (PTP_RXCHAN_STATUS (eth_base this)) 1 (buff s)) s.

(** [ptpv2_handle_msg] is defined only when the payload of the datagram fits
    the 56 bytes of the message it is copied to: the length of the datagram is not
    checked. *)
Theorem ptp_handle_overflow port tx rx mac p s :
  length (rxPTPMsg p) = sizeof_PTPv2Msg ->
  let m := buff (rx_stamped port (thisPtpPortInfo p) s) in
  is_Some (ptpv2_handle_msg port tx rx mac p s) <-> udp_get_data_length m rx <= 56.
Proof.
  intros Hl m. unfold ptpv2_handle_msg. rewrite !bind_io_rd, bind_io_wr, !bind_rdbuf.
  set (t := access (EvWr _ _ _) _). change (buff t) with m.
  unfold udp_get_data. assert (0 <= udp_get_data_length m rx) as Hn by apply u16_range.
  rewrite fill_spec by done. rewrite Hl. change (Z.of_nat sizeof_PTPv2Msg) with 56.
  destruct (Z.leb_spec (udp_get_data_length m rx) 56).
  - split; [done|]. intros _. cbn [mbind option_bind]. rewrite bind_lift. cbv zeta.
    repeat match goal with |- context [if ?b then _ else _] => destruct b end;
      try (eexists; reflexivity).
    all: rewrite bind_eq; unfold ptp_correct_offset; cbv zeta;
      repeat match goal with |- context [if ?b then _ else _] => destruct b end;
      rewrite ?bind_io_rd, ?bind_io_wr; eexists; reflexivity.
  - split; [|lia]. intros [x Hx]. done.
Qed.

(** A follow-up message as it is transmitted. *)
Definition follow_up (port : PTPPortInfo) (seqId : Z) (p : ptp) : PTPv2Msg :=
  ptp_set_body (t1 (ptpTimeRecord p))
    (set8 off_controlField PTP_FOLLOW_CTRL (set16 off_messageLength 44
       (ptp_fill_head port seqId PTP_FOLLOW_MSGTYPE (txPTPMsg p)))).

Lemma follow_up_wf port seqId p : msg_wf (txPTPMsg p) -> msg_wf (follow_up port seqId p).
Proof.
  intros Hm. unfold follow_up, ptp_set_body.
  auto 8 using ptp_fill_head_wf with msg.
Qed.

Lemma follow_up_fields port seqId p :
  msg_wf (txPTPMsg p) ->
  0 <= seconds (t1 (ptpTimeRecord p)) < 0x100000000 ->
  0 <= nanoseconds (t1 (ptpTimeRecord p)) < 0x100000000 ->
  get32 (follow_up port seqId p) off_seconds = seconds (t1 (ptpTimeRecord p)) /\
  get32 (follow_up port seqId p) off_nanoseconds = nanoseconds (t1 (ptpTimeRecord p)) /\
  arr (follow_up port seqId p) off_msgType = PTP_FOLLOW_MSGTYPE.
Proof.
  intros Hm Hs Hn. unfold follow_up. set (h := ptp_fill_head _ _ _ _).
  assert (msg_wf h) as Hh by (by apply ptp_fill_head_wf).
  assert (msg_wf (set8 off_controlField PTP_FOLLOW_CTRL (set16 off_messageLength 44 h))) as Hw
    by auto with msg.
  destruct (ptp_set_body_eq (t1 (ptpTimeRecord p)) _ (proj1 Hw) Hs Hn) as (-> & -> & ->).
  split; [done|]. split; [done|]. destruct Hh as [Hl Hb].
  rewrite arr_set8, arr_set16 by (rewrite ?set16_length; done || (unfold off_controlField, off_messageLength, off_msgType; lia)).
  unfold off_controlField, off_messageLength. change off_msgType with 0. eval_eqb.
  by apply ptp_fill_head_type.
Qed.

(** A datagram with a message of 44 bytes overwrites the start of the message memory. *)
Lemma overlay_arr (f : Z -> Z) l n j :
  0 <= j < n -> arr ((f <$> seqZ 0 n) ++ l) j = f j.
Proof.
  intros Hj. unfold arr. apply nth_lookup_Some.
  rewrite lookup_app_l by (rewrite length_fmap, length_seqZ; lia). rewrite list_lookup_fmap.
  assert (seqZ 0 n !! Z.to_nat j = Some j) as -> by (apply lookup_seqZ; lia). done.
Qed.

(** The payload of a delivered datagram of 44 bytes. *)
Lemma ptp_payload tx dmac smac sip dip port id msg m m' rx old :
  msg_wf msg -> length old = sizeof_PTPv2Msg ->
  bytes dmac -> bytes smac -> bytes sip -> bytes dip -> 0 <= port < 65536 -> 0 <= id < 65536 ->
  in_buffer tx 87 -> tx mod 4 = 0 -> in_buffer rx 87 -> rx mod 4 = 0 ->
  delivered (udp_write_frame tx dmac smac sip dip port port id (44 + 28) (44 + 8) msg 44 m) tx m' rx 86 ->
  udp_get_data_length m' rx = 44 /\
  exists rxm, udp_get_data m' rx old 44 = Some (1, rxm) /\
    forall j, 0 <= j < 44 -> arr rxm j = arr msg j.
Proof.
  intros [Hml Hmb] Hrl B1 B2 B3 B4 Hp Hid Htx Hal Hrx Hra Hft.
  pose proof (frame_fields tx dmac smac sip dip port port id msg 44 m B1 B2 B3 B4 Hmb Hp Hp Hid
    ltac:(lia) Htx Hal) as HfT. cbv zeta in HfT.
  set (f := udp_write_frame _ _ _ _ _ _ _ _ _ _ _ _ _) in *.
  assert (header_at m' rx (udp_header dmac smac sip dip port port id (44 + 28) (44 + 8))) as Hh.
  { intros w Hw H1 H2. rewrite <- HfT by lia. unfold fw. rewrite !Hft by lia. done. }
  destruct Hrx as [Hr1 Hr2].
  destruct (udp_decode_numbers _ _ _ _ _ _ _ _ _ _ _ Hh Hr1 Hra ltac:(lia)) as (_ & _ & _ & _ & Hpl).
  split; [unfold udp_get_data_length; by rewrite Hpl|].
  unfold udp_get_data. rewrite fill_spec by lia. rewrite Hrl.
  change (44 <=? Z.of_nat sizeof_PTPv2Msg) with true. cbn [mbind option_bind].
  eexists. split; [reflexivity|]. intros j Hj. rewrite overlay_arr by lia.
  rewrite <- (frame_payload tx dmac smac sip dip port port id msg 44 m) by (done || lia).
  fold f. rewrite <- Hft by lia. unfold fb. by rewrite Z.add_assoc.
Qed.

(** Issuing a Follow_Up. *)
Lemma ptp_issue_follow_up fuel port tx rx dmac dip seqId p s s' :
  udp_send_mac fuel tx rx dmac dip PTP_GENERAL_PORT PTP_GENERAL_PORT (follow_up port seqId p) 44 0 s
    = Some (1, s') ->
  ptpv2_issue_msg fuel port tx rx dmac dip seqId PTP_FOLLOW_MSGTYPE p s
    = Some ((PTP_FOLLOW_MSGTYPE, set_tx (follow_up port seqId p) p), s').
Proof.
  intros E. unfold ptpv2_issue_msg. cbv zeta. change (PTP_FOLLOW_MSGTYPE =? PTP_SYNC_MSGTYPE) with false.
  change (PTP_FOLLOW_MSGTYPE =? PTP_FOLLOW_MSGTYPE) with true.
  change (PTP_FOLLOW_MSGTYPE =? PTP_DLYREQ_MSGTYPE) with false. cbv iota.
  fold (follow_up port seqId p).
  rewrite bind_eq, (bind_some _ _ _ _ _ E). unfold mret at 1, M_ret at 1. cbv beta iota.
  rewrite bind_mret. reflexivity.
Qed.

(** The precise origin time reaches the slave: a Follow_Up the master issues
    is transmitted in one frame, and a slave that handles a frame with these bytes
    takes over the master's [t1] and returns the message type. *)
Theorem ptp_follow_up_delivers bound `{!TxLive bound} fuel port tx rx dmac dip seqId p s :
  (bound + 2 <= fuel)%nat -> msg_wf (txPTPMsg p) ->
  0 <= seconds (t1 (ptpTimeRecord p)) < 0x100000000 ->
  0 <= nanoseconds (t1 (ptpTimeRecord p)) < 0x100000000 ->
  bytes dmac -> bytes (my_mac s) -> bytes (my_ip s) -> bytes dip -> 0 <= ipv4_id s < 65536 ->
  in_buffer tx 87 -> tx mod 4 = 0 -> dma_avoids tx 86 ->
  exists p' s' b,
    ptpv2_issue_msg fuel port tx rx dmac dip seqId PTP_FOLLOW_MSGTYPE p s
      = Some ((PTP_FOLLOW_MSGTYPE, p'), s') /\
    tx_log (hist s') = TxFrame (u32 tx) 86 b :: tx_log (hist s) /\
    forall port2 tx2 rx2 mac p2 s2,
      length (rxPTPMsg p2) = sizeof_PTPv2Msg -> in_buffer rx2 87 -> rx2 mod 4 = 0 ->
      delivered b tx (buff s2) rx2 86 -> dma_avoids rx2 86 ->
      exists p2' s2', ptpv2_handle_msg port2 tx2 rx2 mac p2 s2 = Some ((PTP_FOLLOW_MSGTYPE, p2'), s2') /\
        t1 (ptpTimeRecord p2') = t1 (ptpTimeRecord p).
Proof.
  intros Hf Hm Hs Hn B1 B2 B3 B4 Hid Htx Hal Hdma.
  destruct (follow_up_fields port seqId p Hm Hs Hn) as (F1 & F2 & F3).
  pose proof (follow_up_wf port seqId p Hm) as Hw.
  destruct (udp_send_mac_run bound fuel tx rx dmac dip PTP_GENERAL_PORT PTP_GENERAL_PORT
    (follow_up port seqId p) 44 0 s) as (s' & b & E & Hlog & Hdel & _); [done || lia..|].
  eexists _, s', b. split; [by apply ptp_issue_follow_up|]. split; [exact Hlog|].
  intros port2 tx2 rx2 mac p2 s2 Hrl Hrx Hra Hd2 Hav.
  unfold ptpv2_handle_msg. rewrite !bind_io_rd, bind_io_wr, !bind_rdbuf.
  set (t := access (EvWr _ _ _) _).
  destruct (ptp_payload tx dmac (my_mac s) (my_ip s) dip PTP_GENERAL_PORT (ipv4_id s)
    (follow_up port seqId p) (buff s) (buff t) rx2 (rxPTPMsg p2)) as (El & rxm & Er & Harr);
    try done; try (unfold PTP_GENERAL_PORT; lia).
  { intros k Hk. unfold t. cbn [buff access]. rewrite !Hav, Hd2, Hdel by done. done. }
  rewrite El, Er, bind_lift. cbn [snd]. cbv zeta.
  assert (arr rxm off_msgType = PTP_FOLLOW_MSGTYPE) as ->
    by (rewrite Harr by (unfold off_msgType; lia); done).
  eexists _, t. split; [reflexivity|]. cbn [ptpTimeRecord set_record t1 set_t1].
  assert (forall k, 0 <= k -> k + 3 < 44 -> get32 rxm k = get32 (follow_up port seqId p) k) as Hg
    by (intros k Hk Hk2; unfold get32, get16; by rewrite !Harr by lia).
  rewrite !Hg, F1, F2 by (unfold off_seconds, off_nanoseconds; lia).
  by destruct (t1 (ptpTimeRecord p)).
Qed.

End MessageTheorems.

(** ** Witnesses *)

Definition example_port : PTPPortInfo :=
  PortInfo 0 [10; 0; 0; 1] [2; 0; 0; 0; 0; 1] [2; 0; 0; 0xff; 0xfe; 0; 0; 1] 1 PTP_MASTER 0.

Definition example_record : PTPv2TimeRecord :=
  TimeRecord 0 (PtpTime 0 0) (PtpTime 7 1000) (PtpTime 9 1250) (PtpTime 0 0) (PtpTime 9 3000)
    (PtpTime 7 3150).

Definition example_ptp : ptp :=
  Ptp (replicate 56 0) (replicate 56 0) example_record example_port example_port example_port.

Lemma ptp_results_exact_witness :
  offset (ptp_results example_record) = PtpTime (9 - 7) 50 /\
  delay (ptp_results example_record) = PtpTime 0 200.
Proof.
  apply (ptp_results_exact example_record 200 50); unfold in_second, SEC_TO_NS; cbn; lia.
Defined.

Lemma ptp_results_second_boundary_witness :
  offset (ptp_results (TimeRecord 0 (PtpTime 0 0) (PtpTime 7 999999900) (PtpTime 8 100)
    (PtpTime 0 0) (PtpTime 8 5000) (PtpTime 8 5200))) = PtpTime 1 (-500000000).
Proof.
  apply (ptp_results_second_boundary _ 7 5000 100 200); try lia; reflexivity.
Defined.

Lemma ptp_handle_overflow_witness :
  let m := buff (@rx_stamped quiet_env example_port example_port init_machine) in
  is_Some (@ptpv2_handle_msg quiet_env example_port 0x800 0 PTP_BROADCAST_MAC example_ptp init_machine)
  <-> udp_get_data_length m 0 <= 56.
Proof.
  apply (@ptp_handle_overflow quiet_env example_port 0x800 0 PTP_BROADCAST_MAC example_ptp init_machine).
  reflexivity.
Defined.

Lemma ptp_follow_up_delivers_witness :
  exists p' s' b,
    @ptpv2_issue_msg quiet_env 2 example_port 0x800 0 PTP_BROADCAST_MAC [10; 0; 0; 2] 5 PTP_FOLLOW_MSGTYPE
      example_ptp init_machine = Some ((PTP_FOLLOW_MSGTYPE, p'), s') /\
    tx_log (hist s') = TxFrame (u32 0x800) 86 b :: tx_log (hist init_machine) /\
    forall port2 tx2 rx2 mac p2 s2,
      length (rxPTPMsg p2) = sizeof_PTPv2Msg -> in_buffer rx2 87 -> rx2 mod 4 = 0 ->
      delivered b 0x800 (buff s2) rx2 86 -> @dma_avoids quiet_env rx2 86 ->
      exists p2' s2', @ptpv2_handle_msg quiet_env port2 tx2 rx2 mac p2 s2
                        = Some ((PTP_FOLLOW_MSGTYPE, p2'), s2') /\
        t1 (ptpTimeRecord p2') = PtpTime 7 1000.
Proof.
  apply (@ptp_follow_up_delivers quiet_env 0 quiet_live 2 example_port 0x800 0 PTP_BROADCAST_MAC
           [10; 0; 0; 2] 5 example_ptp init_machine).
  all: try (cbn; lia). all: try (repeat constructor; cbn; lia).
  all: try (split; cbn; lia). all: intros h m k Hk; reflexivity.
Defined.
