(* ===== verification/Uart.v ===== *)
(** * The byte channel of the boot loader, and the UART

    [download()] of src/c/bootloader/download.c reads and acknowledges through
    [get_byte] and [put_byte], which stand for the UART, for the LZSS decoder on top
    of it, or for the Ethernet controller. The interface is the class [ByteDev]; what
    a client may rely on is [ByteDevSpec]: the device is "at" a list of bytes it is
    going to deliver and a list of bytes it has sent. The UART is the first instance. *)

From stdpp Require Import base gmap list numbers.
From Stdlib Require Import ZArith Lia.
From S2P Require Import Prelude.

Local Open Scope Z_scope.
Local Open Scope c_scope.

(** ** The interface *)

(** [None]: a polling loop ran out of fuel, or no byte ever arrives. *)
Class ByteDev (D : Type) := {
  get_byte : D -> option (Z * D);
  put_byte : Z -> D -> option D
}.

(** [dev_at bs out d]: device [d] delivers [bs] next and has sent [out] so far. *)
Class ByteDevSpec (D : Type) `{ByteDev D} := {
  dev_at : list Z -> list Z -> D -> Prop;
  get_byte_spec b bs out d :
    dev_at (b :: bs) out d -> exists d', get_byte d = Some (b, d') /\ dev_at bs out d';
  put_byte_spec c bs out d :
    dev_at bs out d -> exists d', put_byte c d = Some d' /\ dev_at bs (out ++ [u8 c]) d'
}.

(** Calling [get_byte] repeatedly. *)
Fixpoint get_bytes `{ByteDev D} (n : nat) (d : D) : option (list Z * D) :=
  match n with
  | O => Some ([], d)
  | S n => '(b, d) ← get_byte d; '(bs, d) ← get_bytes n d; Some (b :: bs, d)
  end.

Lemma get_bytes_spec `{ByteDevSpec D} bs rest out d :
  dev_at (bs ++ rest) out d ->
  exists d', get_bytes (length bs) d = Some (bs, d') /\ dev_at rest out d'.
Proof.
  revert d. induction bs as [|b bs IH]; intros d Hd; [by eexists|].
  destruct (get_byte_spec _ _ _ _ Hd) as (d1 & E1 & Hd1). destruct (IH _ Hd1) as (d2 & E2 & Hd2).
  exists d2. split; [|done]. cbn [get_bytes length]. rewrite E1. cbn [mbind option_bind]. by rewrite E2.
Qed.

(** ** The UART *)

(** The line: received bytes, each with the number of polls of the status register
    that see no data before it has arrived; for the bytes still to be sent the
    number of polls that see the transmitter busy; and the bytes sent. *)
Record uart := Uart {
  uart_rx : list (nat * Z);
  uart_busy : list nat;
  uart_tx : list Z
}.

Definition rx_ready (u : uart) : bool :=
  match uart_rx u with (O, _) :: _ => true | _ => false end.

Definition tx_ready (u : uart) : bool :=
  match uart_busy u with S _ :: _ => false | _ => true end.

(** Reading [UART_STATUS]: bit 0 says that the transmitter is ready, bit 1 that a
    byte has arrived; time passes with every read. *)
Definition UART_STATUS (u : uart) : Z * uart :=
  ((if tx_ready u then 1 else 0) .| (if rx_ready u then 2 else 0),
   Uart (match uart_rx u with (S n, b) :: r => (n, b) :: r | r => r end)
        (match uart_busy u with S n :: r => n :: r | r => r end)
        (uart_tx u)).

(** Reading [UART_DATA] takes the byte that has arrived. *)
Definition UART_DATA (u : uart) : option (Z * uart) :=
  match uart_rx u with
  | (O, b) :: r => Some (b, Uart r (uart_busy u) (uart_tx u))
  | _ => None
  end.

(** Writing [UART_DATA] sends a byte. *)
Definition UART_DATA_write (c : Z) (u : uart) : uart :=
  Uart (uart_rx u) (tail (uart_busy u)) (uart_tx u ++ [c]).

Fixpoint uart_read (fuel : nat) (u : uart) : option (Z * uart) :=
  match fuel with
  | O => None
  | S fuel =>
      let '(status, u') := UART_STATUS u in
      if status .& 0x02 =? 0 then uart_read fuel u'   (* wait for data *)
      else UART_DATA u'
  end.

Fixpoint uart_write (fuel : nat) (c : Z) (u : uart) : option uart :=
  match fuel with
  | O => None
  | S fuel =>
      let '(status, u') := UART_STATUS u in
      if status .& 0x01 =? 0 then uart_write fuel c u'   (* wait until UART is ready *)
      else Some (UART_DATA_write (u8 c) u')
  end.

(** ** The UART keeps the promise of the interface *)

Lemma status_rx u : (fst (UART_STATUS u) .& 2 =? 0) = negb (rx_ready u).
Proof. unfold UART_STATUS. cbn [fst]. by destruct (tx_ready u), (rx_ready u). Qed.

Lemma status_tx u : (fst (UART_STATUS u) .& 1 =? 0) = negb (tx_ready u).
Proof. unfold UART_STATUS. cbn [fst]. by destruct (tx_ready u), (rx_ready u). Qed.

(** Every byte arrives, and the transmitter is ready, within [fuel] polls. *)
Definition uart_at (fuel : nat) (bs out : list Z) (u : uart) : Prop :=
  snd <$> uart_rx u = bs /\ uart_tx u = out /\
  Forall (fun p => p.1 < fuel)%nat (uart_rx u) /\ Forall (fun n => n < fuel)%nat (uart_busy u).

(** One poll moves the device in time only. *)
Lemma uart_at_poll fuel bs out u : uart_at fuel bs out u -> uart_at fuel bs out (snd (UART_STATUS u)).
Proof.
  intros (<- & <- & Hr & Hb). destruct u as [rx busy tx]. cbn in *.
  repeat split; cbn [uart_rx uart_busy uart_tx].
  - destruct rx as [|[[|n] b] r]; done.
  - destruct rx as [|[[|n] b] r]; [done..|]. inversion Hr; subst. constructor; cbn in *; [lia|done].
  - destruct busy as [|[|n] r]; [done..|]. inversion Hb; subst. constructor; [lia|done].
Qed.

Lemma uart_read_at k fuel n b r busy out :
  (n < k)%nat -> uart_at fuel (b :: (snd <$> r)) out (Uart ((n, b) :: r) busy out) ->
  exists u', uart_read k (Uart ((n, b) :: r) busy out) = Some (b, u') /\
             uart_at fuel (snd <$> r) out u'.
Proof.
  revert n busy. induction k as [|k IH]; intros n busy Hn Hat; [lia|].
  pose proof (uart_at_poll _ _ _ _ Hat) as Hp. cbn [uart_read].
  rewrite (surjective_pairing (UART_STATUS _)), status_rx.
  destruct n as [|n]; cbn [rx_ready uart_rx negb].
  - eexists. split; [done|]. destruct Hp as (_ & _ & Hr & Hb). cbn in *.
    inversion Hr; subst. by repeat split.
  - apply IH; [lia|]. exact Hp.
Qed.

Lemma uart_write_at k fuel c bs out u :
  (match uart_busy u with n :: _ => n < k | [] => 0 < k end)%nat -> uart_at fuel bs out u ->
  exists u', uart_write k c u = Some u' /\ uart_at fuel bs (out ++ [u8 c]) u'.
Proof.
  revert u. induction k as [|k IH]; intros u Hn Hat; [destruct (uart_busy u); lia|].
  pose proof (uart_at_poll _ _ _ _ Hat) as Hp. cbn [uart_write].
  rewrite (surjective_pairing (UART_STATUS _)), status_tx.
  destruct (tx_ready u) eqn:E; cbn [negb].
  - eexists. split; [done|]. destruct Hp as (Hs & Ht & Hr & Hb).
    unfold UART_DATA_write. repeat split; cbn [uart_rx uart_tx uart_busy]; [done| |done|].
    + by rewrite Ht.
    + destruct (uart_busy (snd (UART_STATUS u))); [done|]. by inversion Hb.
  - apply IH; [|done]. destruct u as [rx [|[|m] bz] tx]; cbn in *; [done..|lia].
Qed.

Lemma uart_read_spec fuel b bs out u :
  uart_at (S fuel) (b :: bs) out u ->
  exists u', uart_read (S fuel) u = Some (b, u') /\ uart_at (S fuel) bs out u'.
Proof.
  intros Hat. destruct u as [[|[n b'] r] busy tx]; [by destruct Hat|].
  destruct Hat as (Hs & Ht & Hr & Hb). cbn in Hs, Ht. simplify_eq.
  apply (uart_read_at (S fuel) (S fuel)); [|by repeat split].
  by inversion Hr.
Qed.

Lemma uart_write_spec fuel c bs out u :
  uart_at (S fuel) bs out u ->
  exists u', uart_write (S fuel) c u = Some u' /\ uart_at (S fuel) bs (out ++ [u8 c]) u'.
Proof.
  intros Hat. apply (uart_write_at (S fuel) (S fuel)); [|done].
  destruct Hat as (_ & _ & _ & Hb). destruct (uart_busy u); [lia|]. by inversion Hb.
Qed.

#[global] Instance uart_dev (fuel : nat) : ByteDev uart :=
  {| get_byte := uart_read fuel; put_byte := uart_write fuel |}.

(** With fuel for the longest wait, the UART delivers and sends. *)
#[global] Instance uart_dev_spec (fuel : nat) : @ByteDevSpec uart (uart_dev (S fuel)) :=
  @Build_ByteDevSpec uart (uart_dev (S fuel)) (uart_at (S fuel))
    (uart_read_spec fuel) (uart_write_spec fuel).
