(* ===== verification/Crc32.v ===== *)
(** * The CRC of the boot loader's packets

    The bitwise CRC-32 of src/c/bootloader/download.c (reflected, polynomial
    0xEDB88320) and what it detects: one step is linear and injective on 32-bit
    values, so two packets of the same length that differ within four consecutive
    bytes never have the same checksum. *)

From stdpp Require Import base gmap list numbers.
From Stdlib Require Import ZArith Lia.
From S2P Require Import Prelude.

Local Open Scope Z_scope.
Local Open Scope c_scope.

(** ** The computation *)

Definition poly : Z := 0xEDB88320.

(** One iteration of the inner loop. *)
Definition crc_bit (calculated_crc : Z) : Z :=
  if calculated_crc .& 1 >? 0 then (calculated_crc >> 1) .^ poly else calculated_crc >> 1.

(** [calculated_crc = calculated_crc ^ data; for (i = 0; i < 8; ++i) ...] *)
Definition crc_byte (calculated_crc data : Z) : Z :=
  for_ 8 (fun _ c => crc_bit c) (calculated_crc .^ data).

(** The checksum of a packet, as the sender computes it. *)
Definition crc32 (bs : list Z) : Z := (fold_left crc_byte bs 0xFFFFFFFF) .^ 0xFFFFFFFF.

(** The check value of CRC-32: the checksum of the characters 1 to 9. *)
Example crc32_check : crc32 [49; 50; 51; 52; 53; 54; 55; 56; 57] = 0xCBF43926.
Proof. vm_compute. reflexivity. Qed.

(** ** One step: range, linearity, injectivity *)

Lemma lxor_range32 a b :
  0 <= a < 0x100000000 -> 0 <= b < 0x100000000 -> 0 <= a .^ b < 0x100000000.
Proof.
  intros Ha Hb. split; [apply Z.lxor_nonneg; lia|].
  destruct (Z.eq_dec (a .^ b) 0) as [->|Hne]; [lia|].
  assert (0 <= a .^ b) by (apply Z.lxor_nonneg; lia).
  change 0x100000000 with (2 ^ 32). apply Z.log2_lt_pow2; [lia|].
  eapply Z.le_lt_trans; [apply Z.log2_lxor; lia|].
  assert (forall x, 0 <= x < 0x100000000 -> Z.log2 x < 32) as Hl.
  { intros x Hx. destruct (Z.eq_dec x 0) as [->|]; [done|].
    apply Z.log2_lt_pow2; [lia|]. change (2 ^ 32) with 0x100000000. lia. }
  apply Z.max_lub_lt; auto.
Qed.

Lemma odd_test c : (c .& 1 >? 0) = Z.odd c.
Proof.
  rewrite land_1, Zmod_odd. by destruct (Z.odd c).
Qed.

Lemma crc_bit_range c : 0 <= c < 0x100000000 -> 0 <= crc_bit c < 0x100000000.
Proof.
  intros Hc. unfold crc_bit.
  assert (0 <= c >> 1 < 0x100000000) by (rewrite shr_div by lia; zdm).
  destruct (_ >? 0); [apply lxor_range32; [done|unfold poly; lia]|done].
Qed.

(** A value shifted in above the lowest bit just passes through a step. *)
Lemma crc_bit_shl c z : crc_bit (c .^ (z << 1)) = crc_bit c .^ z.
Proof.
  unfold crc_bit. rewrite !odd_test, <- !Z.bit0_odd, Z.lxor_spec, Z.shiftl_spec_low by lia.
  rewrite xorb_false_r, Z.shiftr_lxor.
  rewrite (Z.shiftr_shiftl_l z 1 1), Z.sub_diag, Z.shiftl_0_r by lia.
  destruct (Z.testbit c 0); [|done].
  rewrite !Z.lxor_assoc, (Z.lxor_comm z). done.
Qed.

Lemma crc_bit_inj a b :
  0 <= a < 0x100000000 -> 0 <= b < 0x100000000 -> crc_bit a = crc_bit b -> a = b.
Proof.
  intros Ha Hb E.
  assert (forall x, 0 <= x < 0x100000000 -> Z.testbit (crc_bit x) 31 = Z.odd x) as Htop.
  { intros x Hx. unfold crc_bit. rewrite odd_test.
    assert (Z.testbit (x >> 1) 31 = false) as H0.
    { rewrite Z.shiftr_spec by lia. change (31 + 1) with 32.
      rewrite Z.testbit_false by lia. by rewrite Z.div_small by (change (2 ^ 32) with 0x100000000; lia). }
    destruct (Z.odd x); [|done]. by rewrite Z.lxor_spec, H0. }
  pose proof (f_equal (fun x => Z.testbit x 31) E) as E31. cbv beta in E31. rewrite !Htop in E31 by done.
  assert (a >> 1 = b >> 1) as Es.
  { unfold crc_bit in E. rewrite !odd_test, E31 in E. destruct (Z.odd b); [|done].
    apply (f_equal (fun x => x .^ poly)) in E. rewrite !Z.lxor_assoc, !Z.lxor_nilpotent, !Z.lxor_0_r in E.
    done. }
  rewrite !shr_div in Es by lia. change (2 ^ 1) with 2 in Es.
  rewrite (Z_div_mod_eq_full a 2), (Z_div_mod_eq_full b 2), Es.
  rewrite !Zmod_odd, E31. done.
Qed.

(** ** Runs of steps *)

Abbreviation crc_bits n c := (Nat.iter n crc_bit c).

Lemma crc_bits_S n c : crc_bits (S n) c = crc_bit (crc_bits n c).
Proof. done. Qed.

Lemma crc_byte_bits c d : crc_byte c d = crc_bits 8 (c .^ d).
Proof. reflexivity. Qed.

Lemma crc_bits_range n c : 0 <= c < 0x100000000 -> 0 <= crc_bits n c < 0x100000000.
Proof. intros Hc. induction n; [done|]. rewrite crc_bits_S. by apply crc_bit_range. Qed.

Lemma crc_bits_inj n a b :
  0 <= a < 0x100000000 -> 0 <= b < 0x100000000 -> crc_bits n a = crc_bits n b -> a = b.
Proof.
  intros Ha Hb. induction n as [|n IH]; [done|]. intros E.
  apply IH, crc_bit_inj; [by apply crc_bits_range..|done].
Qed.

Lemma crc_bits_shl n c z : crc_bits n (c .^ (z << Z.of_nat n)) = crc_bits n c .^ z.
Proof.
  revert z. induction n as [|n IH]; intros z; [by rewrite Z.shiftl_0_r|].
  rewrite Nat2Z.inj_succ, <- Z.add_1_l, <- Z.shiftl_shiftl by lia.
  rewrite !crc_bits_S, IH. apply crc_bit_shl.
Qed.

(** The bytes of a run, first byte lowest. *)
Fixpoint le_word (bs : list Z) : Z :=
  match bs with [] => 0 | d :: bs => d .^ (le_word bs << 8) end.

(** Processing bytes is shifting out the bits of their word. *)
Lemma crc_bytes_bits bs c : fold_left crc_byte bs c = crc_bits (8 * length bs) (c .^ le_word bs).
Proof.
  revert c. induction bs as [|d bs IH]; intros c; [by rewrite Z.lxor_0_r|].
  cbn [fold_left le_word length]. rewrite IH, crc_byte_bits.
  rewrite <- (crc_bits_shl 8). change (Z.of_nat 8) with 8.
  rewrite <- Z.lxor_assoc.
  replace (8 * S (length bs))%nat with (8 * length bs + 8)%nat by lia.
  by rewrite Nat.iter_add.
Qed.

Abbreviation byte_range := (fun d => 0 <= d < 256).

Lemma land_shl_byte w d : 0 <= d < 256 -> (w << 8) .& d = 0.
Proof.
  intros Hd. apply Z.bits_inj'. intros i Hi. rewrite Z.land_spec, Z.bits_0.
  destruct (Z.lt_ge_cases i 8); [by rewrite Z.shiftl_spec_low|].
  rewrite <- (Z.mod_small d (2 ^ 8)) by (cbn; lia).
  rewrite Z.mod_pow2_bits_high by lia. apply andb_false_r.
Qed.

Lemma le_word_cons d bs : 0 <= d < 256 -> le_word (d :: bs) = le_word bs * 256 + d.
Proof.
  intros Hd. cbn [le_word]. rewrite Z.lxor_comm, Z.lxor_lor by (by apply land_shl_byte).
  rewrite lor_shl by lia. done.
Qed.

Lemma le_word_range bs : Forall byte_range bs -> 0 <= le_word bs < 2 ^ (8 * Z.of_nat (length bs)).
Proof.
  induction 1 as [|d bs Hd _ IH]; [cbn; lia|]. rewrite le_word_cons by done. cbn [length].
  replace (8 * Z.of_nat (S (length bs))) with (8 * Z.of_nat (length bs) + 8) by lia.
  rewrite Z.pow_add_r by lia. change (2 ^ 8) with 256. nia.
Qed.

Lemma le_word_inj bs bs' :
  Forall byte_range bs -> Forall byte_range bs' -> length bs = length bs' ->
  le_word bs = le_word bs' -> bs = bs'.
Proof.
  intros H. revert bs'. induction H as [|d bs Hd _ IH]; intros [|d' bs'] H' Hl E; try done.
  inversion_clear H' as [|? ? Hd' Hbs']. rewrite !le_word_cons in E by done.
  assert (d = d') as -> by lia. f_equal. apply IH; [done|by injection Hl|lia].
Qed.

(** ** Error detection *)

Lemma crc_bytes_range bs c :
  Forall byte_range bs -> 0 <= c < 0x100000000 -> 0 <= fold_left crc_byte bs c < 0x100000000.
Proof.
  intros H. revert c. induction H as [|d bs Hd _ IH]; intros c Hc; [done|].
  cbn [fold_left]. apply IH. rewrite crc_byte_bits. apply crc_bits_range, lxor_range32; lia.
Qed.

Lemma crc_bytes_inj bs a b :
  Forall byte_range bs -> 0 <= a < 0x100000000 -> 0 <= b < 0x100000000 ->
  fold_left crc_byte bs a = fold_left crc_byte bs b -> a = b.
Proof.
  intros H. revert a b. induction H as [|d bs Hd _ IH]; intros a b Ha Hb E; [done|].
  cbn [fold_left] in E. rewrite !crc_byte_bits in E.
  apply IH in E; [|apply crc_bits_range, lxor_range32; lia..].
  apply crc_bits_inj in E; [|apply lxor_range32; lia..].
  apply (f_equal (fun x => x .^ d)) in E. by rewrite !Z.lxor_assoc, !Z.lxor_nilpotent, !Z.lxor_0_r in E.
Qed.

(** Every error within four consecutive bytes changes the checksum. *)
Lemma crc32_burst pre x x' post :
  Forall byte_range (pre ++ x ++ post) -> Forall byte_range x' ->
  length x = length x' -> (length x <= 4)%nat -> x <> x' ->
  crc32 (pre ++ x ++ post) <> crc32 (pre ++ x' ++ post).
Proof.
  rewrite !Forall_app. intros (Hpre & Hx & Hpost) Hx' Hl H4 Hne E. apply Hne.
  unfold crc32 in E. apply (f_equal (fun c => c .^ 0xFFFFFFFF)) in E.
  rewrite !Z.lxor_assoc, !Z.lxor_nilpotent, !Z.lxor_0_r, !fold_left_app in E.
  assert (0 <= fold_left crc_byte pre 0xFFFFFFFF < 0x100000000) as Hc
    by (apply crc_bytes_range; [done|lia]).
  apply crc_bytes_inj in E; [|assumption|apply crc_bytes_range; assumption..].
  set (c := fold_left crc_byte pre 0xFFFFFFFF) in *. clearbody c.
  rewrite !crc_bytes_bits, Hl in E.
  assert (forall y, Forall byte_range y -> (length y <= 4)%nat -> 0 <= le_word y < 0x100000000) as Hr.
  { intros y Hy H. pose proof (le_word_range y Hy).
    assert (2 ^ (8 * Z.of_nat (length y)) <= 2 ^ 32) by (apply Z.pow_le_mono_r; lia).
    change (2 ^ 32) with 0x100000000 in *. lia. }
  pose proof (Hr x Hx H4). pose proof (Hr x' Hx' ltac:(lia)).
  apply crc_bits_inj in E; [|by apply lxor_range32..].
  apply le_word_inj; [done..|].
  apply (f_equal (fun w => c .^ w)) in E.
  by rewrite <- !Z.lxor_assoc, !Z.lxor_nilpotent, !Z.lxor_0_l in E.
Qed.
