(* ===== verification/Download.v ===== *)
(** * Downloading an application

    [download()] of src/c/bootloader/download.c, over any byte channel that keeps the
    promise of [ByteDevSpec]: packets with a CRC, inside of them a stream of program
    sections that is written to main memory word by word.

    The variables of the function are in two records: [sect] for the section
    parser, [packet] for the packet framing. Main memory is a map from word indices
    ([MEM + i]) to words.

    The sender's side is specified by [packet_bytes] and [payload], the format that
    src/tools/java/src/patserdow/{Main,Transmitter}.java produce. *)

From stdpp Require Import base gmap list numbers.
From Stdlib Require Import ZArith Lia.
From S2P Require Import Prelude Uart Crc32.

Local Open Scope Z_scope.
Local Open Scope c_scope.

(** ** State *)

(** [enum state]; the code increments and compares the state as a number. *)
Definition STATE_ENTRYPOINT : Z := 0.
Definition STATE_SECTION_NUMBER : Z := 1.
Definition STATE_SECTION_FILESIZE : Z := 2.
Definition STATE_SECTION_OFFSET : Z := 3.
Definition STATE_SECTION_MEMSIZE : Z := 4.
Definition STATE_SECTION_DATA : Z := 5.

Record sect := Sect {
  entrypoint : Z;
  section_number : Z;
  section_count : Z;
  section_filesize : Z;
  section_offset : Z;
  section_memsize : Z;
  section_byte_count : Z;
  integer : Z;
  current_state : Z
}.

Record packet := Packet {
  packet_byte_count : Z;
  packet_size : Z;
  calculated_crc : Z;
  received_crc : Z
}.

Definition sect_init : sect := Sect 0 0xFFFFFFFF 0 0 0 0 0 0 STATE_ENTRYPOINT.
Definition packet_init : packet := Packet 0 0 0 0xFFFFFFFF.

Definition CRC_LENGTH : Z := 4.

Abbreviation memory := (gmap Z Z).

(** ** The section parser *)

(** [integer |= data << ((3-(section_byte_count%4))*8); section_byte_count++;] *)
Definition collect (data : Z) (p : sect) : sect :=
  Sect (entrypoint p) (section_number p) (section_count p) (section_filesize p)
    (section_offset p) (section_memsize p)
    (u32 (section_byte_count p + 1))
    (integer p .| u32 (data << ((3 - section_byte_count p mod 4) * 8)))
    (current_state p).

(** The [switch] on a complete field, the reset of the count and [current_state++]. *)
Definition store_field (p : sect) : sect :=
  let st := current_state p in
  Sect (if st =? STATE_ENTRYPOINT then integer p else entrypoint p)
    (if st =? STATE_SECTION_NUMBER then integer p else section_number p)
    (section_count p)
    (if st =? STATE_SECTION_FILESIZE then integer p else section_filesize p)
    (if st =? STATE_SECTION_OFFSET then integer p else section_offset p)
    (if st =? STATE_SECTION_MEMSIZE then integer p else section_memsize p)
    0 (integer p) (st + 1).

(** [while (section_byte_count < section_memsize) { ... }]; it does not end when
    the 32-bit count can never reach [section_memsize]. *)
Fixpoint zero_fill (fuel : nat) (offset memsize count : Z) (m : memory) : option memory :=
  match fuel with
  | O => None
  | S fuel =>
      if count <? memsize
      then zero_fill fuel offset memsize (u32 (count + 4)) (<[u32 (offset + count) / 4 := 0]> m)
      else Some m
  end.

(** "Values for next segment". *)
Definition next_section (p : sect) : sect :=
  Sect (entrypoint p) (section_number p) (u32 (section_count p + 1)) (section_filesize p)
    (section_offset p) (section_memsize p) 0 (integer p) STATE_SECTION_FILESIZE.

Definition clear_integer (p : sect) : sect :=
  if section_byte_count p mod 4 =? 0
  then Sect (entrypoint p) (section_number p) (section_count p) (section_filesize p)
         (section_offset p) (section_memsize p) (section_byte_count p) 0 (current_state p)
  else p.

(** One byte of packet data, from [integer |= ...] to [integer = 0]. *)
Definition section_byte (fuel : nat) (data : Z) (p : sect) (m : memory) : option (sect * memory) :=
  let p := collect data p in
  let '(p, m) :=
    if current_state p <? STATE_SECTION_DATA
    then ((if section_byte_count p =? 4 then store_field p else p), m)
    else (p, <[u32 (section_offset p + section_byte_count p - 1) / 4 := integer p]> m) in
  if (current_state p =? STATE_SECTION_DATA) && (section_byte_count p =? section_filesize p)
  then m' ← zero_fill fuel (section_offset p) (section_memsize p)
              (u32 (section_byte_count p + 3) .& u32 (~~ 3)) m;
       Some (clear_integer (next_section p), m')
  else Some (clear_integer p, m).

(** ** The packet layer *)

(** The state of the loop, and how it is left. *)
Inductive dl_result :=
| Again (p : sect) (k : packet) (m : memory)
| Return (ep : Z) (m : memory).

(** One iteration of [for (;;)] after [data = get_byte()]: the new state, and the
    byte to be sent with [put_byte], if any. *)
Definition download_step (fuel : nat) (data : Z) (p : sect) (k : packet) (m : memory)
  : option (dl_result * option Z) :=
  if packet_size k =? 0
  then Some (Again p (Packet 0 data 0xFFFFFFFF 0) m, None)
  else
    r ← (if packet_byte_count k <? CRC_LENGTH
         then Some (p, m, Packet (packet_byte_count k) (packet_size k) (calculated_crc k)
                             (u32 (received_crc k << 8) .| data))
         else if packet_byte_count k <? u32 (packet_size k + CRC_LENGTH)
         then pm ← section_byte fuel data p m;
              Some (pm, Packet (packet_byte_count k) (packet_size k)
                          (crc_byte (calculated_crc k) data) (received_crc k))
         else Some (p, m, k));
    let '(p, m, k) := r : sect * memory * packet in
    let count := u32 (packet_byte_count k + 1) in
    if count =? u32 (packet_size k + CRC_LENGTH)
    then
      let crc := calculated_crc k .^ 0xFFFFFFFF in
      Some (if negb (crc =? received_crc k) then Return 0 m
            else if section_count p =? section_number p then Return (entrypoint p) m
            else Again p (Packet count 0 crc (received_crc k)) m,
            Some crc)
    else Some (Again p (Packet count (packet_size k) (calculated_crc k) (received_crc k)) m, None).

Section Download.
Context `{HD : ByteDev D}.

(** The loop, at most [n] bytes of it; [fuel] is for the zero fill. *)
Fixpoint download_loop (n fuel : nat) (p : sect) (k : packet) (m : memory) (d : D)
  : option (Z * memory * D) :=
  match n with
  | O => None
  | S n =>
      '(data, d) ← get_byte d;
      '(r, ack) ← download_step fuel data p k m;
      d ← match ack with Some c => put_byte c d | None => Some d end;
      match r with
      | Again p k m => download_loop n fuel p k m d
      | Return ep m => Some (ep, m, d)
      end
  end.

(** The device is initialised ([decompress_init], [ethmac_init]) before. *)
Definition download (n fuel : nat) (m : memory) (d : D) : option (Z * memory * D) :=
  download_loop n fuel sect_init packet_init m d.

End Download.

(** ** What the sender transmits *)

Definition be32 (w : Z) : list Z :=
  [(w >> 24) .& 0xFF; (w >> 16) .& 0xFF; (w >> 8) .& 0xFF; w .& 0xFF].

Record section := Section_ { sec_offset : Z; sec_memsize : Z; sec_data : list Z }.

Definition section_bytes (s : section) : list Z :=
  be32 (Z.of_nat (length (sec_data s))) ++ be32 (sec_offset s) ++ be32 (sec_memsize s) ++ sec_data s.

Definition payload (ep : Z) (ss : list section) : list Z :=
  be32 ep ++ be32 (Z.of_nat (length ss)) ++ concat (section_bytes <$> ss).

Definition packet_bytes (c : list Z) : list Z :=
  Z.of_nat (length c) :: be32 (crc32 c) ++ c.

(** ** What memory then holds *)

(** Big-endian words, the last one filled up with zeros. *)
Fixpoint words_be (bs : list Z) : list Z :=
  match bs with
  | a :: b :: c :: d :: r => ((a << 24) .| (b << 16) .| (c << 8) .| d) :: words_be r
  | [a; b; c] => [(a << 24) .| (b << 16) .| (c << 8)]
  | [a; b] => [(a << 24) .| (b << 16)]
  | [a] => [a << 24]
  | [] => []
  end.

(** Words at consecutive indices. *)
Fixpoint place (i : Z) (ws : list Z) (m : memory) : memory :=
  match ws with [] => m | w :: ws => place (i + 1) ws (<[i := w]> m) end.

(** The number of words of [n] bytes. *)
Definition nwords (n : Z) : Z := (n + 3) / 4.

Definition load_section (m : memory) (s : section) : memory :=
  let n := nwords (Z.of_nat (length (sec_data s))) in
  place (sec_offset s / 4)
    (words_be (sec_data s) ++ replicate (Z.to_nat (nwords (sec_memsize s) - n)) 0) m.

Definition load_image (ss : list section) (m : memory) : memory := fold_left load_section ss m.

(** A byte of main memory (Patmos is big-endian). *)
Definition mem_byte (m : memory) (a : Z) : Z :=
  (default 0 (m !! (a / 4)) >> (8 * (3 - a mod 4))) .& 0xFF.

(** ** The parser on whole fields and sections *)

(** The parser on a run of bytes. *)
Fixpoint parse (fuel : nat) (bs : list Z) (p : sect) (m : memory) : option (sect * memory) :=
  match bs with
  | [] => Some (p, m)
  | b :: bs => '(p, m) ← section_byte fuel b p m; parse fuel bs p m
  end.

Definition complete (p : sect) : bool := section_count p =? section_number p.

(** The same, as long as the transmission is not complete. *)
Fixpoint parse_open (fuel : nat) (bs : list Z) (p : sect) (m : memory) : option (sect * memory) :=
  match bs with
  | [] => Some (p, m)
  | b :: bs =>
      if complete p then None
      else '(p, m) ← section_byte fuel b p m; parse_open fuel bs p m
  end.

Lemma parse_open_app fuel bs bs' p m :
  parse_open fuel (bs ++ bs') p m =
  ('(p, m) ← parse_open fuel bs p m; parse_open fuel bs' p m).
Proof.
  revert p m. induction bs as [|b bs IH]; intros p m; [done|].
  cbn [parse_open app]. destruct (complete p); [done|].
  destruct (section_byte fuel b p m) as [[p' m']|]; [|done]. cbn [mbind option_bind]. apply IH.
Qed.

Lemma parse_open_parse fuel bs p m r : parse_open fuel bs p m = Some r -> parse fuel bs p m = Some r.
Proof.
  revert p m. induction bs as [|b bs IH]; intros p m; [done|].
  cbn [parse_open parse]. destruct (complete p); [done|].
  destruct (section_byte fuel b p m) as [[p' m']|]; [|done]. cbn [mbind option_bind]. apply IH.
Qed.

Lemma parse_open_cons fuel b bs ep n c fs off ms bc i st m p' m' :
  c <> n -> section_byte fuel b (Sect ep n c fs off ms bc i st) m = Some (p', m') ->
  parse_open fuel (b :: bs) (Sect ep n c fs off ms bc i st) m = parse_open fuel bs p' m'.
Proof.
  intros Hc E. cbn [parse_open]. unfold complete. cbn [section_count section_number].
  destruct (Z.eqb_spec c n); [done|]. by rewrite E.
Qed.

Lemma u32_shl d j : 0 <= d < 256 -> 0 <= j < 4 -> u32 (d << ((3 - j) * 8)) = d << ((3 - j) * 8).
Proof.
  intros Hd Hj. apply u32_small. rewrite shl_mul by lia.
  assert (j = 0 \/ j = 1 \/ j = 2 \/ j = 3) as [-> | [-> | [-> | ->]]] by lia; cbn; lia.
Qed.

(** A byte of a field that is not its last one. *)
Lemma field_byte fuel d ep n c fs off ms j i st m :
  0 <= d < 256 -> 0 <= j < 3 -> st < 5 ->
  section_byte fuel d (Sect ep n c fs off ms j i st) m =
  Some (Sect ep n c fs off ms (j + 1) (i .| (d << ((3 - j) * 8))) st, m).
Proof.
  intros Hd Hj Hst. unfold section_byte, collect, clear_integer, STATE_SECTION_DATA.
  cbn [section_byte_count current_state entrypoint section_number section_count
       section_filesize section_offset section_memsize integer].
  rewrite (Z.mod_small j) by lia. rewrite (u32_small (j + 1)), u32_shl by lia.
  zif. cbn [section_byte_count current_state]. zif.
  rewrite (Z.mod_small (j + 1)) by lia. zif. done.
Qed.

(** The last byte of a field other than the last one of the section header. *)
Lemma field_last fuel d ep n c fs off ms i st m :
  0 <= d < 256 -> st < 4 ->
  section_byte fuel d (Sect ep n c fs off ms 3 i st) m =
  Some (clear_integer (store_field (Sect ep n c fs off ms 4 (i .| d) st)), m).
Proof.
  intros Hd Hst. unfold section_byte, collect.
  cbn [section_byte_count current_state entrypoint section_number section_count
       section_filesize section_offset section_memsize integer].
  change (3 mod 4) with 3. rewrite u32_shl by lia. change ((3 - 3) * 8) with 0. rewrite Z.shiftl_0_r.
  change (u32 (3 + 1)) with 4. unfold STATE_SECTION_DATA. zif.
  unfold store_field at 1. cbn [current_state]. zif. done.
Qed.

(** The last byte of the section header; an empty section is complete at once. *)
Lemma memsize_last fuel d ep n c fs off ms i m :
  0 <= d < 256 -> 0 <= c < 0xFFFFFFFF ->
  section_byte fuel d (Sect ep n c fs off ms 3 i 4) m =
  if 0 =? fs
  then m' ← zero_fill fuel off (i .| d) 0 m; Some (Sect ep n (c + 1) fs off (i .| d) 0 0 2, m')
  else Some (Sect ep n c fs off (i .| d) 0 0 5, m).
Proof.
  intros Hd Hc. unfold section_byte, collect.
  cbn [section_byte_count current_state entrypoint section_number section_count
       section_filesize section_offset section_memsize integer].
  change (3 mod 4) with 3. rewrite u32_shl by lia. change ((3 - 3) * 8) with 0. rewrite Z.shiftl_0_r.
  change (u32 (3 + 1)) with 4. change (4 <? STATE_SECTION_DATA) with true. change (4 =? 4) with true. cbv iota.
  change (store_field (Sect ep n c fs off ms 4 (i .| d) 4))
    with (Sect ep n c fs off (i .| d) 0 (i .| d) 5).
  cbn [section_byte_count current_state entrypoint section_number section_count
       section_filesize section_offset section_memsize integer].
  change (5 =? STATE_SECTION_DATA) with true. cbn [andb].
  change (u32 (0 + 3) .& u32 (~~ 3)) with 0. destruct (0 =? fs); [|done].
  destruct (zero_fill _ _ _ _ _); [|done]. cbn [mbind option_bind].
  unfold next_section, clear_integer. cbn -[u32]. by rewrite u32_small by lia.
Qed.

(** A byte of section data. *)
Lemma data_byte fuel d ep n c fs off ms q j i m :
  0 <= d < 256 -> 0 <= j < 4 -> 0 <= q -> off mod 4 = 0 -> 0 <= off ->
  off + 4 * q + j < 0x100000000 -> 4 * q + 4 < 0x100000000 -> 0 <= c < 0xFFFFFFFF ->
  section_byte fuel d (Sect ep n c fs off ms (4 * q + j) i 5) m =
  let i' := i .| (d << ((3 - j) * 8)) in
  let m' := <[off / 4 + q := i']> m in
  if 4 * q + j + 1 =? fs
  then m'' ← zero_fill fuel off ms (4 * (q + 1)) m';
       Some (Sect ep n (c + 1) fs off ms 0 0 2, m'')
  else Some (Sect ep n c fs off ms (4 * q + j + 1) (if j =? 3 then 0 else i') 5, m').
Proof.
  intros Hd Hj Hq Ho Ho0 Hw Hq4 Hc. unfold section_byte, collect, next_section, clear_integer.
  cbn [section_byte_count current_state entrypoint section_number section_count
       section_filesize section_offset section_memsize integer].
  replace ((4 * q + j) mod 4) with j by zdm. rewrite u32_shl by lia.
  rewrite (u32_small (4 * q + j + 1)) by lia.
  change (5 <? STATE_SECTION_DATA) with false. cbv iota.
  cbn [section_byte_count current_state entrypoint section_number section_count
       section_filesize section_offset section_memsize integer].
  change (5 =? STATE_SECTION_DATA) with true. cbn [andb].
  replace (u32 (off + (4 * q + j + 1) - 1) / 4) with (off / 4 + q)
    by (rewrite u32_small by lia; zdm).
  destruct (Z.eqb_spec (4 * q + j + 1) fs).
  - rewrite land_u32_mask by apply u32_range. rewrite land_lnot_sub, land_3.
    rewrite (u32_small (_ + 3)) by lia.
    replace (4 * q + j + 1 + 3 - (4 * q + j + 1 + 3) mod 4) with (4 * (q + 1)) by zdm.
    destruct (zero_fill _ _ _ _ _); [|done]. cbn [mbind option_bind].
    change (0 mod 4 =? 0) with true. by rewrite (u32_small (c + 1)) by lia.
  - destruct (Z.eqb_spec j 3).
    + replace ((4 * q + j + 1) mod 4) with 0 by zdm. done.
    + by destruct (Z.eqb_spec ((4 * q + j + 1) mod 4) 0); [zdm|].
Qed.

(** ** Words and fields *)

Lemma be32_bytes w : Forall byte_range (be32 w).
Proof. repeat constructor; rewrite ?land_ff; apply Z.mod_pos_bound; lia. Qed.

Lemma be32_word w a b c d :
  0 <= w < 0x100000000 -> be32 w = [a; b; c; d] ->
  0 .| (a << 24) .| (b << 16) .| (c << 8) .| d = w.
Proof.
  intros Hw E. injection E as <- <- <- <-. rewrite Z.lor_0_l.
  rewrite word_of_bytes by (rewrite ?land_ff; apply Z.mod_pos_bound; lia).
  rewrite !land_ff, !shr_div by lia. cbn. zdm.
Qed.

(** Consume one byte with the given lemma on [section_byte]. *)
Ltac pstep lem :=
  erewrite parse_open_cons; [|assumption|apply lem; first [assumption|lia]]; cbn [Z.add Pos.add Pos.succ].

(** Shifting in the bytes of a word, first byte first. *)
Lemma crc_shift_in a b c d :
  0 <= a < 256 -> 0 <= b < 256 -> 0 <= c < 256 -> 0 <= d < 256 ->
  u32 ((u32 ((u32 ((u32 (0 << 8) .| a) << 8) .| b) << 8) .| c) << 8) .| d =
  0 .| (a << 24) .| (b << 16) .| (c << 8) .| d.
Proof.
  intros Ha Hb Hc Hd. rewrite (Z.lor_0_l (a << 24)), word_of_bytes by lia.
  change (u32 (0 << 8)) with 0. rewrite Z.lor_0_l.
  rewrite (u32_small (a << 8)) by (rewrite shl_mul by lia; lia). rewrite lor_shl by lia.
  rewrite (u32_small ((_ + b) << 8)) by (rewrite shl_mul by lia; lia). rewrite lor_shl by lia.
  rewrite (u32_small ((_ + c) << 8)) by (rewrite shl_mul by lia; lia). rewrite lor_shl by lia. lia.
Qed.

(** A whole field of the header, but for the section's memory size. *)
Lemma parse_field fuel w r ep n c fs off ms st m :
  0 <= w < 0x100000000 -> c <> n -> st < 4 ->
  parse_open fuel (be32 w ++ r) (Sect ep n c fs off ms 0 0 st) m =
  parse_open fuel r (clear_integer (store_field (Sect ep n c fs off ms 4 w st))) m.
Proof.
  intros Hw Hc Hst. pose proof (be32_bytes w) as Hb. pose proof (be32_word w _ _ _ _ Hw eq_refl) as Hval.
  unfold be32 in *. cbn [app].
  rewrite !Forall_cons_iff in Hb. destruct Hb as (? & ? & ? & ? & _).
  pstep (field_byte fuel ((w >> 24) .& 255) ep n c fs off ms 0).
  pstep (field_byte fuel ((w >> 16) .& 255) ep n c fs off ms 1).
  pstep (field_byte fuel ((w >> 8) .& 255) ep n c fs off ms 2).
  pstep (field_last fuel (w .& 255) ep n c fs off ms). do 5 f_equal. exact Hval.
Qed.

Lemma parse_memsize fuel w r ep n c fs off ms m :
  0 <= w < 0x100000000 -> c <> n -> 0 <= c < 0xFFFFFFFF ->
  parse_open fuel (be32 w ++ r) (Sect ep n c fs off ms 0 0 4) m =
  '(p, m) ← (if 0 =? fs
             then m' ← zero_fill fuel off w 0 m; Some (Sect ep n (c + 1) fs off w 0 0 2, m')
             else Some (Sect ep n c fs off w 0 0 5, m));
  parse_open fuel r p m.
Proof.
  intros Hw Hc Hc' . pose proof (be32_bytes w) as Hb. pose proof (be32_word w _ _ _ _ Hw eq_refl) as Hval.
  unfold be32 in *. cbn [app]. rewrite !Forall_cons_iff in Hb. destruct Hb as (? & ? & ? & ? & _).
  pstep (field_byte fuel ((w >> 24) .& 255) ep n c fs off ms 0).
  pstep (field_byte fuel ((w >> 16) .& 255) ep n c fs off ms 1).
  pstep (field_byte fuel ((w >> 8) .& 255) ep n c fs off ms 2).
  cbn [parse_open]. unfold complete. cbn [section_count section_number].
  destruct (Z.eqb_spec c n); [done|]. rewrite memsize_last by done.
  change ((3 - 0) * 8) with 24. change ((3 - 1) * 8) with 16. change ((3 - 2) * 8) with 8.
  by rewrite Hval.
Qed.

(** ** Placing words *)

Lemma place_app i ws ws' m : place i (ws ++ ws') m = place (i + Z.of_nat (length ws)) ws' (place i ws m).
Proof.
  revert i m. induction ws as [|w ws IH]; intros i m; [by rewrite Z.add_0_r|].
  cbn [place app]. rewrite IH. f_equal. cbn [length]. lia.
Qed.

Lemma place_lookup i ws m j :
  place i ws m !! j =
  if (i <=? j) && (j <? i + Z.of_nat (length ws)) then Some (arr ws (j - i)) else m !! j.
Proof.
  revert i m. induction ws as [|w ws IH]; intros i m.
  { cbn [place length]. destruct (Z.leb_spec i j), (Z.ltb_spec j (i + Z.of_nat 0)); cbn; try done; lia. }
  cbn [place]. rewrite IH. destruct (Z.eq_dec i j) as [->|Hne].
  - zif. rewrite lookup_insert_eq. cbn [length].
    destruct (Z.ltb_spec j (j + Z.of_nat (S (length ws)))); [|lia]. by rewrite Z.sub_diag.
  - rewrite lookup_insert_ne by done. cbn [length].
    destruct (Z.leb_spec i j), (Z.leb_spec (i + 1) j); try lia; cbn [andb]; [|done].
    replace (i + 1 + Z.of_nat (length ws)) with (i + Z.of_nat (S (length ws))) by lia.
    destruct (_ <? _); [|done]. unfold arr. f_equal.
    replace (Z.to_nat (j - i)) with (S (Z.to_nat (j - (i + 1)))) by lia. done.
Qed.

Lemma zero_fill_place fuel off ms q m :
  off mod 4 = 0 -> 0 <= off -> 0 <= q -> off + ms <= 0x100000000 -> ms <= 0xFFFFFFFC ->
  (Z.to_nat (nwords ms - q) < fuel)%nat ->
  zero_fill fuel off ms (4 * q) m =
  Some (place (off / 4 + q) (replicate (Z.to_nat (nwords ms - q)) 0) m).
Proof.
  intros Ho Ho0 Hq Hos Hms. unfold nwords. revert q Hq m.
  induction fuel as [|fuel IH]; intros q Hq m Hf; [lia|]. cbn [zero_fill].
  destruct (Z.ltb_spec (4 * q) ms).
  - rewrite (u32_small (4 * q + 4)) by lia. replace (4 * q + 4) with (4 * (q + 1)) by lia.
    rewrite IH by zdm. rewrite (u32_small (off + 4 * q)) by lia.
    replace ((off + 4 * q) / 4) with (off / 4 + q) by zdm.
    replace (Z.to_nat ((ms + 3) / 4 - q)) with (S (Z.to_nat ((ms + 3) / 4 - (q + 1)))) by zdm.
    cbn [replicate place]. by rewrite Z.add_assoc.
  - by replace (Z.to_nat ((ms + 3) / 4 - q)) with O by zdm.
Qed.

Lemma words_be_length bs : Z.of_nat (length (words_be bs)) = nwords (Z.of_nat (length bs)).
Proof.
  unfold nwords. assert (forall n bs, (length bs <= n)%nat ->
    Z.of_nat (length (words_be bs)) = (Z.of_nat (length bs) + 3) / 4) as H; [|by eapply H].
  clear. induction n as [|n IH]; intros bs Hn.
  { destruct bs; [done|cbn in Hn; lia]. }
  destruct bs as [|a [|b [|c [|d r]]]]; [done..|].
  cbn [words_be length] in *. rewrite !Nat2Z.inj_succ, IH by lia. zdm.
Qed.

(** ** Section data *)

(** A byte of data that does not end the section, and one that does. *)
Lemma parse_data_byte fuel d r ep n c fs off ms q j i m :
  0 <= d < 256 -> 0 <= j < 4 -> 0 <= q -> off mod 4 = 0 -> 0 <= off ->
  off + fs <= 0x100000000 -> fs <= 0xFFFFFFFC -> 0 <= c < 0xFFFFFFFF -> c <> n ->
  4 * q + j + 1 < fs ->
  parse_open fuel (d :: r) (Sect ep n c fs off ms (4 * q + j) i 5) m =
  parse_open fuel r
    (Sect ep n c fs off ms (4 * q + j + 1) (if j =? 3 then 0 else i .| (d << ((3 - j) * 8))) 5)
    (<[off / 4 + q := i .| (d << ((3 - j) * 8))]> m).
Proof.
  intros. apply parse_open_cons; [done|]. rewrite data_byte by lia. cbv zeta.
  by destruct (Z.eqb_spec (4 * q + j + 1) fs); [lia|].
Qed.

Lemma parse_data_last fuel d r ep n c fs off ms q j i m :
  0 <= d < 256 -> 0 <= j < 4 -> 0 <= q -> off mod 4 = 0 -> 0 <= off ->
  off + fs <= 0x100000000 -> fs <= 0xFFFFFFFC -> 0 <= c < 0xFFFFFFFF -> c <> n ->
  fs = 4 * q + j + 1 ->
  parse_open fuel (d :: r) (Sect ep n c fs off ms (4 * q + j) i 5) m =
  m ← zero_fill fuel off ms (4 * (q + 1)) (<[off / 4 + q := i .| (d << ((3 - j) * 8))]> m);
  parse_open fuel r (Sect ep n (c + 1) fs off ms 0 0 2) m.
Proof.
  intros. cbn [parse_open]. unfold complete. cbn [section_count section_number].
  destruct (Z.eqb_spec c n); [done|]. rewrite data_byte by lia. cbv zeta.
  destruct (Z.eqb_spec (4 * q + j + 1) fs); [|lia]. by destruct (zero_fill _ _ _ _ _).
Qed.

Ltac data_step l q j := rewrite (l _ _ _ _ _ _ _ _ _ q j) by (assumption || lia).

(** All the data of a section. *)
Lemma parse_data fuel bs r ep n c fs off ms q m :
  off mod 4 = 0 -> 0 <= off -> off + fs <= 0x100000000 -> fs <= 0xFFFFFFFC ->
  0 <= c < 0xFFFFFFFF -> c <> n -> 0 <= q -> Forall byte_range bs -> bs <> [] ->
  fs = 4 * q + Z.of_nat (length bs) ->
  parse_open fuel (bs ++ r) (Sect ep n c fs off ms (4 * q) 0 5) m =
  m ← zero_fill fuel off ms (4 * (q + nwords (Z.of_nat (length bs))))
        (place (off / 4 + q) (words_be bs) m);
  parse_open fuel r (Sect ep n (c + 1) fs off ms 0 0 2) m.
Proof.
  intros Ho Ho0 Hos Hfs Hc Hcn. revert q m.
  assert (forall k bs, (length bs <= k)%nat -> forall q m,
    0 <= q -> Forall byte_range bs -> bs <> [] -> fs = 4 * q + Z.of_nat (length bs) ->
    parse_open fuel (bs ++ r) (Sect ep n c fs off ms (4 * q) 0 5) m =
    m ← zero_fill fuel off ms (4 * (q + nwords (Z.of_nat (length bs))))
        (place (off / 4 + q) (words_be bs) m);
    parse_open fuel r (Sect ep n (c + 1) fs off ms 0 0 2) m) as IH; [|by eapply IH].
  clear bs. induction k as [|k IH]; intros bs Hk q m Hq Hbs Hne Hl.
  { destruct bs; [done|cbn in Hk; lia]. }
  rewrite <- (Z.add_0_r (4 * q)).
  destruct bs as [|a [|b [|c0 [|d bs]]]]; [done|..];
    rewrite ?Forall_cons_iff in Hbs; cbn [length] in Hl, Hk; cbn [app].
  - destruct Hbs as (? & _). data_step parse_data_last q 0. done.
  - destruct Hbs as (? & ? & _). data_step parse_data_byte q 0.
    rewrite <- Z.add_assoc. data_step parse_data_last q 1. cbn [Z.eqb].
    rewrite insert_insert_eq. done.
  - destruct Hbs as (? & ? & ? & _). data_step parse_data_byte q 0.
    rewrite <- Z.add_assoc. data_step parse_data_byte q 1.
    rewrite <- Z.add_assoc. data_step parse_data_last q 2. cbn [Z.eqb].
    rewrite !insert_insert_eq. done.
  - destruct Hbs as (? & ? & ? & ? & Hbs). data_step parse_data_byte q 0.
    rewrite <- Z.add_assoc. data_step parse_data_byte q 1.
    rewrite <- Z.add_assoc. data_step parse_data_byte q 2.
    rewrite <- Z.add_assoc. cbn [Z.eqb]. destruct bs as [|e bs]; cbn [length] in Hl.
    + data_step parse_data_last q 3. rewrite !insert_insert_eq. done.
    + data_step parse_data_byte q 3. rewrite !insert_insert_eq.
      change (3 =? 3) with true. cbv iota.
      replace (4 * q + 3 + 1) with (4 * (q + 1)) by lia.
      rewrite IH; [|cbn [length] in *; lia|lia|done|done|cbn [length] in *; lia].
      cbn [words_be place]. rewrite Z.add_assoc.
      replace (q + 1 + nwords (Z.of_nat (length (e :: bs)))) with
        (q + nwords (Z.of_nat (length (a :: b :: c0 :: d :: e :: bs)))) by
        (unfold nwords; cbn [length]; zdm).
      done.
Qed.

(** ** Sections and the payload *)

(** What the sender guarantees of a section: word-aligned, within the address
    space. *)
Definition section_wf (s : section) : Prop :=
  Forall byte_range (sec_data s) /\
  0 <= sec_offset s /\ sec_offset s mod 4 = 0 /\
  Z.of_nat (length (sec_data s)) <= 0xFFFFFFFC /\
  0 <= sec_memsize s <= 0xFFFFFFFC /\
  sec_offset s + Z.of_nat (length (sec_data s)) <= 0x100000000 /\
  sec_offset s + sec_memsize s <= 0x100000000 /\ sec_offset s < 0x100000000.

(** Enough fuel for the zero fill of a section. *)
Definition section_fuel (fuel : nat) (s : section) : Prop :=
  (Z.to_nat (nwords (sec_memsize s)) < fuel)%nat.

Lemma parse_section fuel s r ep n c fs off ms m :
  section_wf s -> section_fuel fuel s -> 0 <= c < 0xFFFFFFFF -> c <> n ->
  parse_open fuel (section_bytes s ++ r) (Sect ep n c fs off ms 0 0 2) m =
  parse_open fuel r
    (Sect ep n (c + 1) (Z.of_nat (length (sec_data s))) (sec_offset s) (sec_memsize s) 0 0 2)
    (load_section m s).
Proof.
  intros (Hb & Ho0 & Ho & Hl & Hms & Hol & Hom & Ho1) Hf Hc Hcn. unfold section_bytes.
  rewrite <- !app_assoc.
  rewrite (parse_field _ _ _ _ _ _ _ _ _ 2) by lia.
  change (clear_integer (store_field _)) with (Sect ep n c (Z.of_nat (length (sec_data s))) off ms 0 0 3).
  rewrite (parse_field _ _ _ _ _ _ _ _ _ 3) by lia.
  change (clear_integer (store_field _)) with
    (Sect ep n c (Z.of_nat (length (sec_data s))) (sec_offset s) ms 0 0 4).
  rewrite parse_memsize by lia. unfold load_section, section_fuel in *.
  destruct (Z.eqb_spec 0 (Z.of_nat (length (sec_data s)))).
  - destruct (sec_data s); [|done]. cbn [length words_be app]. change (nwords (Z.of_nat 0)) with 0.
    rewrite (zero_fill_place _ _ _ 0) by lia. cbn [mbind option_bind].
    by rewrite Z.add_0_r.
  - cbn [mbind option_bind]. rewrite (parse_data _ _ _ _ _ _ _ _ _ 0); try done; try lia.
    2:{ intros E0. by rewrite E0 in *. }
    assert (0 <= nwords (Z.of_nat (length (sec_data s)))) by (unfold nwords; zdm).
    rewrite zero_fill_place by lia. cbn [mbind option_bind].
    by rewrite place_app, words_be_length, Z.add_0_l, Z.add_0_r.
Qed.

Lemma parse_sections fuel ss ep n c fs off ms m :
  Forall section_wf ss -> Forall (section_fuel fuel) ss ->
  0 <= c -> n = c + Z.of_nat (length ss) -> n <= 0xFFFFFFFF ->
  exists fs' off' ms',
    parse_open fuel (concat (section_bytes <$> ss)) (Sect ep n c fs off ms 0 0 2) m =
    Some (Sect ep n n fs' off' ms' 0 0 2, load_image ss m).
Proof.
  intros Hwf Hfu. revert c fs off ms m.
  induction ss as [|s ss IH]; intros c fs off ms m Hc Hn Hn'.
  { exists fs, off, ms. cbn in *. by rewrite Hn, Z.add_0_r. }
  inversion_clear Hwf as [|? ? Hs Hss]. inversion_clear Hfu as [|? ? Fs Fss].
  cbn [length] in Hn. cbn [fmap list_fmap concat load_image fold_left].
  rewrite parse_section by (done || lia). apply IH; [done..|lia|lia|lia].
Qed.

Lemma parse_payload fuel ep ss m :
  0 <= ep < 0x100000000 -> Z.of_nat (length ss) < 0xFFFFFFFF ->
  Forall section_wf ss -> Forall (section_fuel fuel) ss ->
  exists fs off ms,
    parse_open fuel (payload ep ss) sect_init m =
    Some (Sect ep (Z.of_nat (length ss)) (Z.of_nat (length ss)) fs off ms 0 0 2, load_image ss m).
Proof.
  intros Hep Hl Hwf Hf. unfold payload, sect_init.
  rewrite (parse_field _ _ _ _ _ _ _ _ _ STATE_ENTRYPOINT) by (done || lia).
  change (clear_integer (store_field _)) with (Sect ep 0xFFFFFFFF 0 0 0 0 0 0 1).
  rewrite (parse_field _ _ _ _ _ _ _ _ _ 1) by lia.
  change (clear_integer (store_field _)) with (Sect ep (Z.of_nat (length ss)) 0 0 0 0 0 0 2).
  apply parse_sections; [done..|lia|lia|lia].
Qed.

(** ** The bytes of a loaded image *)

Lemma arr_cons x l i : 0 < i -> arr (x :: l) i = arr l (i - 1).
Proof. intros Hi. unfold arr. by replace (Z.to_nat i) with (S (Z.to_nat (i - 1))) by lia. Qed.

Lemma word_byte a b c d j :
  0 <= a < 256 -> 0 <= b < 256 -> 0 <= c < 256 -> 0 <= d < 256 -> 0 <= j < 4 ->
  (((a << 24) .| (b << 16) .| (c << 8) .| d) >> (8 * (3 - j))) .& 0xFF = arr [a; b; c; d] j.
Proof.
  intros Ha Hb Hc Hd Hj. rewrite word_of_bytes, land_ff, shr_div by lia.
  assert (j = 0 \/ j = 1 \/ j = 2 \/ j = 3) as [-> | [-> | [-> | ->]]] by lia.
  - change (arr _ _) with a. change (2 ^ (8 * (3 - 0))) with 0x1000000. zdm.
  - change (arr _ _) with b. change (2 ^ (8 * (3 - 1))) with 0x10000. zdm.
  - change (arr _ _) with c. change (2 ^ (8 * (3 - 2))) with 0x100. zdm.
  - change (arr _ _) with d. change (2 ^ (8 * (3 - 3))) with 1. zdm.
Qed.

Lemma arr_nil i : arr [] i = 0.
Proof. unfold arr. by destruct (Z.to_nat i). Qed.

Lemma arr_zeros l k i : arr (l ++ replicate k 0) i = arr l i.
Proof.
  unfold arr. destruct (decide (Z.to_nat i < length l)%nat).
  - by rewrite app_nth1.
  - rewrite app_nth2, (nth_overflow l) by lia. rewrite nth_lookup.
    destruct (replicate k 0 !! _) eqn:E; [|done]. by apply lookup_replicate in E as [-> _].
Qed.

(** Zeros that fill up the last word change nothing. *)
Lemma words_be_pad bs : exists k m, words_be bs = words_be (bs ++ replicate k 0) /\
  length (bs ++ replicate k 0) = (4 * m)%nat.
Proof.
  assert (forall n bs, (length bs <= n)%nat -> exists k m,
    words_be bs = words_be (bs ++ replicate k 0) /\ length (bs ++ replicate k 0) = (4 * m)%nat)
    as H; [|by eapply H].
  clear. induction n as [|n IH]; intros bs Hn.
  { exists O, O. by destruct bs; [|cbn in Hn; lia]. }
  destruct bs as [|a [|b [|c [|d r]]]]; [by exists O, O|..].
  - exists 3%nat, 1%nat. cbn [words_be app replicate]. by rewrite !Z.lor_0_r.
  - exists 2%nat, 1%nat. cbn [words_be app replicate]. by rewrite !Z.lor_0_r.
  - exists 1%nat, 1%nat. cbn [words_be app replicate]. by rewrite !Z.lor_0_r.
  - destruct (IH r) as (k & m & E & L); [cbn in Hn; lia|].
    exists k, (S m). cbn [words_be app length]. rewrite E, L. split; [done|lia].
Qed.

Lemma words_be_byte4 m bs i :
  length bs = (4 * m)%nat -> Forall byte_range bs -> 0 <= i ->
  (arr (words_be bs) (i / 4) >> (8 * (3 - i mod 4))) .& 0xFF = arr bs i.
Proof.
  revert bs i. induction m as [|m IH]; intros bs i Hl Hb Hi.
  { destruct bs; [|done]. by rewrite !arr_nil, Z.shiftr_0_l. }
  destruct bs as [|a [|b [|c [|d r]]]]; try (cbn in Hl; lia).
  rewrite !Forall_cons_iff in Hb. destruct Hb as (? & ? & ? & ? & Hb). cbn [words_be].
  destruct (Z.lt_ge_cases i 4).
  - rewrite Z.div_small, Z.mod_small by lia. change (arr (?x :: _) 0) with x.
    rewrite word_byte by lia.
    assert (i = 0 \/ i = 1 \/ i = 2 \/ i = 3) as [-> | [-> | [-> | ->]]] by lia; done.
  - rewrite !(arr_cons _ _ i), !(arr_cons _ _ (i - 1)), !(arr_cons _ _ (i - 1 - 1)),
      !(arr_cons _ _ (i - 1 - 1 - 1)) by lia.
    rewrite arr_cons by zdm. replace (i - 1 - 1 - 1 - 1) with (i - 4) by lia.
    rewrite <- (IH r) by (cbn [length] in Hl; done || lia).
    replace ((i - 4) / 4) with (i / 4 - 1) by zdm. by replace ((i - 4) mod 4) with (i mod 4) by zdm.
Qed.

(** The bytes of the words are the data, followed by zeros. *)
Lemma words_be_byte bs i :
  Forall byte_range bs -> 0 <= i ->
  (arr (words_be bs) (i / 4) >> (8 * (3 - i mod 4))) .& 0xFF = arr bs i.
Proof.
  intros Hb Hi. destruct (words_be_pad bs) as (k & m & E & L). rewrite E.
  rewrite (words_be_byte4 m); [apply arr_zeros|done| |done].
  apply Forall_app. split; [done|]. apply Forall_replicate. lia.
Qed.

(** The number of words a section occupies. *)
Definition sec_words (s : section) : Z :=
  Z.max (nwords (Z.of_nat (length (sec_data s)))) (nwords (sec_memsize s)).

Lemma load_section_lookup m s j :
  section_wf s ->
  load_section m s !! j =
  if (sec_offset s / 4 <=? j) && (j <? sec_offset s / 4 + sec_words s)
  then Some (arr (words_be (sec_data s)) (j - sec_offset s / 4)) else m !! j.
Proof.
  intros Hs. unfold load_section. rewrite place_lookup, length_app, length_replicate.
  rewrite arr_zeros, Nat2Z.inj_add, words_be_length.
  replace (nwords _ + Z.of_nat _) with (sec_words s) by (unfold sec_words; lia). done.
Qed.

Lemma load_section_byte m s i :
  section_wf s -> 0 <= i < Z.max (Z.of_nat (length (sec_data s))) (sec_memsize s) ->
  mem_byte (load_section m s) (sec_offset s + i) = arr (sec_data s) i.
Proof.
  intros Hs Hi. pose proof Hs as (Hb & Ho0 & Ho & _ & Hms & _). unfold mem_byte.
  rewrite load_section_lookup by done.
  replace ((sec_offset s + i) / 4) with (sec_offset s / 4 + i / 4) by zdm.
  replace ((sec_offset s + i) mod 4) with (i mod 4) by zdm.
  assert (0 <= i / 4 < sec_words s) by (unfold sec_words, nwords; zdm). zif.
  replace (_ + i / 4 - _) with (i / 4) by lia. cbn [default]. apply words_be_byte; [done|lia].
Qed.

(** Sections that share no word. *)
Definition sec_disjoint (s t : section) : Prop :=
  sec_offset s / 4 + sec_words s <= sec_offset t / 4 \/
  sec_offset t / 4 + sec_words t <= sec_offset s / 4.

Lemma load_image_keeps ss m s i :
  Forall section_wf ss -> section_wf s -> Forall (sec_disjoint s) ss ->
  0 <= i < Z.max (Z.of_nat (length (sec_data s))) (sec_memsize s) ->
  mem_byte (load_image ss m) (sec_offset s + i) = mem_byte m (sec_offset s + i).
Proof.
  intros Hwf Hs Hd Hi. revert m. induction Hd as [|t ss Ht _ IH]; intros m; [done|].
  inversion_clear Hwf as [|? ? Wt Wss]. cbn [load_image fold_left]. fold (load_image ss (load_section m t)).
  rewrite IH by done. unfold mem_byte. rewrite load_section_lookup by done.
  destruct Hs as (_ & Ho0 & Ho & _ & Hms & _).
  assert (0 <= i / 4 < sec_words s) by (unfold sec_words, nwords; zdm).
  replace ((sec_offset s + i) / 4) with (sec_offset s / 4 + i / 4) by zdm.
  destruct (_ && _) eqn:E; [|done]. apply andb_true_iff in E as [E1%Z.leb_le E2%Z.ltb_lt].
  destruct Ht; lia.
Qed.

(** Every byte of every section is in memory: its data, then zeros. *)
Lemma load_image_bytes ss m s i :
  Forall section_wf ss -> ForallOrdPairs sec_disjoint ss -> In s ss ->
  0 <= i < Z.max (Z.of_nat (length (sec_data s))) (sec_memsize s) ->
  mem_byte (load_image ss m) (sec_offset s + i) = arr (sec_data s) i.
Proof.
  intros Hwf Hd Hin Hi. revert m. induction Hd as [|t ss Ht _ IH]; intros m; [done|].
  inversion_clear Hwf as [|? ? Wt Wss]. cbn [load_image fold_left]. fold (load_image ss (load_section m t)).
  destruct Hin as [->|Hin]; [|by apply IH].
  rewrite load_image_keeps by done. by apply load_section_byte.
Qed.

(** ** Packets *)

Section Loop.
Context `{HS : ByteDevSpec D}.

(** One iteration, for a device that delivers [b]. *)
Lemma loop_again n fuel b bs out p k m d p' k' m' :
  dev_at (b :: bs) out d ->
  download_step fuel b p k m = Some (Again p' k' m', None) ->
  exists d', dev_at bs out d' /\
    download_loop (S n) fuel p k m d = download_loop n fuel p' k' m' d'.
Proof.
  intros Hd Hs. destruct (get_byte_spec _ _ _ _ Hd) as (d' & Eg & Hd').
  exists d'. split; [done|]. cbn [download_loop]. rewrite Eg. cbn [mbind option_bind]. by rewrite Hs.
Qed.

(** What ends a packet: the acknowledgement, and one of the three outcomes. *)
Definition packet_end (n fuel : nat) (crc rcv size : Z) (p : sect) (m : memory) (d : D)
  : option (Z * memory * D) :=
  if negb (crc =? rcv) then Some (0, m, d)
  else if complete p then Some (entrypoint p, m, d)
  else download_loop n fuel p (Packet (size + 4) 0 crc rcv) m d.

Lemma packet_data n fuel c bs out p m i crc rcv size d :
  c <> [] -> 0 <= i -> size = i + Z.of_nat (length c) -> size < 256 -> dev_at (c ++ bs) out d ->
  let crc' := fold_left crc_byte c crc .^ 0xFFFFFFFF in
  match parse fuel c p m with
  | None => download_loop (length c + n) fuel p (Packet (4 + i) size crc rcv) m d = None
  | Some (p', m') => exists d', dev_at bs (out ++ [u8 crc']) d' /\
      download_loop (length c + n) fuel p (Packet (4 + i) size crc rcv) m d =
      packet_end n fuel crc' rcv size p' m' d'
  end.
Proof.
  intros Hne Hi Hsz Hsz' Hd. cbv zeta. revert p m i crc d Hne Hi Hsz Hd.
  induction c as [|b c IH]; intros p m i crc d Hne Hi Hsz Hd; [done|]. clear Hne.
  cbn [length app Nat.add parse fold_left] in *.
  assert (download_step fuel b p (Packet (4 + i) size crc rcv) m =
    '(p, m) ← section_byte fuel b p m;
    let crc := crc_byte crc b in
    if 5 + i =? size + 4
    then let crc := crc .^ 0xFFFFFFFF in
         Some (if negb (crc =? rcv) then Return 0 m
               else if complete p then Return (entrypoint p) m
               else Again p (Packet (size + 4) 0 crc rcv) m, Some crc)
    else Some (Again p (Packet (4 + (i + 1)) size crc rcv) m, None)) as Hs.
  { unfold download_step, CRC_LENGTH. cbn [packet_size packet_byte_count calculated_crc received_crc].
    rewrite (u32_small (size + 4)) by lia. zif.
    destruct (section_byte fuel b p m) as [[p1 m1]|]; [|done].
    cbn [mbind option_bind packet_size packet_byte_count calculated_crc received_crc].
    rewrite (u32_small (4 + i + 1)), (u32_small (size + 4)) by lia. replace (4 + i + 1) with (5 + i) by lia.
    replace (4 + (i + 1)) with (5 + i) by lia.
    destruct (Z.eqb_spec (5 + i) (size + 4)) as [E|]; [|done]. by rewrite E. }
  destruct (section_byte fuel b p m) as [[p1 m1]|] eqn:Eb; cbn [mbind option_bind] in *.
  2:{ destruct (get_byte_spec _ _ _ _ Hd) as (d' & Eg & _). cbn [download_loop]. rewrite Eg.
      cbn [mbind option_bind]. by rewrite Hs. }
  destruct c as [|b' c].
  - cbn [length parse fold_left] in *. rewrite (proj2 (Z.eqb_eq (5 + i) (size + 4))) in Hs by lia.
    destruct (get_byte_spec _ _ _ _ Hd) as (d1 & Eg & Hd1).
    destruct (put_byte_spec (crc_byte crc b .^ 0xFFFFFFFF) _ _ _ Hd1) as (d2 & Ep & Hd2).
    exists d2. split; [done|]. cbn [download_loop Nat.add]. rewrite Eg. cbn [mbind option_bind].
    rewrite Hs. cbn [mbind option_bind]. rewrite Ep. cbn [mbind option_bind]. unfold packet_end.
    destruct (negb _); [done|]. by destruct (complete p1).
  - rewrite (proj2 (Z.eqb_neq (5 + i) (size + 4))) in Hs by (cbn [length] in Hsz; lia).
    destruct (loop_again (length (b' :: c) + n) _ _ _ _ _ _ _ _ _ _ _ Hd Hs) as (d' & Hd' & El).
    specialize (IH p1 m1 (i + 1) (crc_byte crc b) d' ltac:(done) ltac:(lia) ltac:(lia) Hd').
    rewrite El. exact IH.
Qed.

(** A byte of the checksum field. *)
Lemma crc_again n fuel b bs out p m size j r d :
  0 <= b < 256 -> 0 <= j < 4 -> 0 < size < 256 -> dev_at (b :: bs) out d ->
  exists d', dev_at bs out d' /\
    download_loop (S n) fuel p (Packet j size 0xFFFFFFFF r) m d =
    download_loop n fuel p (Packet (j + 1) size 0xFFFFFFFF (u32 (r << 8) .| b)) m d'.
Proof.
  intros Hb Hj Hs Hd. apply (loop_again _ _ b); [done|]. unfold download_step, CRC_LENGTH.
  cbn [packet_size packet_byte_count calculated_crc received_crc]. zif.
  cbn [mbind option_bind packet_size packet_byte_count calculated_crc received_crc].
  rewrite (u32_small (j + 1)), (u32_small (size + 4)) by lia. by zif.
Qed.

(** A packet: its size, the checksum [rcv], its data. *)
Lemma packet_run n fuel rcv c bs out p k m d :
  c <> [] -> (length c <= 255)%nat -> 0 <= rcv < 0x100000000 -> packet_size k = 0 ->
  dev_at (Z.of_nat (length c) :: be32 rcv ++ c ++ bs) out d ->
  match parse fuel c p m with
  | None => download_loop (5 + length c + n) fuel p k m d = None
  | Some (p', m') => exists d', dev_at bs (out ++ [u8 (crc32 c)]) d' /\
      download_loop (5 + length c + n) fuel p k m d =
      packet_end n fuel (crc32 c) rcv (Z.of_nat (length c)) p' m' d'
  end.
Proof.
  intros Hne Hl Hr Hk Hd. change (5 + length c + n)%nat with (S (S (S (S (S (length c + n))))))%nat.
  pose proof (be32_word rcv _ _ _ _ Hr eq_refl) as Hval.
  pose proof (be32_bytes rcv) as Hb. unfold be32 in *. cbn [app] in Hd.
  assert (0 < Z.of_nat (length c)) by (destruct c; [done|cbn [length]; lia]).
  destruct (loop_again (S (S (S (S (length c + n))))) fuel _ _ _ p k m _ p (Packet 0 (Z.of_nat (length c)) 0xFFFFFFFF 0) m Hd)
    as (d1 & Hd1 & ->).
  { unfold download_step. by rewrite Hk. }
  rewrite !Forall_cons_iff in Hb. destruct Hb as (Ba & Bb & Bc & Bd & _).
  destruct (crc_again (S (S (S (length c + n)))) fuel _ _ _ p m (Z.of_nat (length c)) 0 0 _ Ba ltac:(lia) ltac:(lia) Hd1)
    as (d2 & Hd2 & ->).
  destruct (crc_again (S (S (length c + n))) fuel _ _ _ p m (Z.of_nat (length c)) (0 + 1)
              (u32 (0 << 8) .| (rcv >> 24 .& 255)) _ Bb ltac:(lia) ltac:(lia) Hd2) as (d3 & Hd3 & ->).
  edestruct (crc_again (S (length c + n)) fuel) as (d4 & Hd4 & E4); [exact Bc| | |exact Hd3|rewrite E4]; [lia..|].
  edestruct (crc_again (length c + n) fuel) as (d5 & Hd5 & E5); [exact Bd| | |exact Hd4|rewrite E5]; [lia..|].
  set (r := u32 (_ << 8) .| _). assert (r = rcv) as ->.
  { subst r. rewrite <- Hval at 5. by apply crc_shift_in. }
  apply (packet_data n fuel c bs out p m 0 0xFFFFFFFF rcv); [done|lia|lia|lia|done].
Qed.

(** A chunk of the payload that fits into a packet. *)
Definition chunk_wf (c : list Z) : Prop := c <> [] /\ (length c <= 255)%nat /\ Forall byte_range c.

Lemma crc32_range c : Forall byte_range c -> 0 <= crc32 c < 0x100000000.
Proof. intros Hc. apply lxor_range32; [|lia]. apply crc_bytes_range; [done|lia]. Qed.

(** The packets of a payload that completes with its last byte. *)
Lemma packets_run n fuel cs bs out p k m d p' m' :
  cs <> [] -> Forall chunk_wf cs -> packet_size k = 0 ->
  parse_open fuel (concat cs) p m = Some (p', m') -> complete p' = true ->
  dev_at (concat (packet_bytes <$> cs) ++ bs) out d ->
  exists d', dev_at bs (out ++ (u8 ∘ crc32 <$> cs)) d' /\
    download_loop (length (concat (packet_bytes <$> cs)) + n) fuel p k m d = Some (entrypoint p', m', d').
Proof.
  intros Hne Hwf. revert p k m d out Hne. induction Hwf as [|c cs (Hc & Hl & Hb) Hwf IH];
    intros p k m d out Hne Hk Hp Hcomp Hd; [done|]. clear Hne.
  cbn [fmap list_fmap concat] in *. rewrite <- app_assoc in Hd. rewrite length_app.
  unfold packet_bytes at 1 in Hd. cbn [app] in Hd. rewrite <- app_assoc in Hd.
  replace (length (packet_bytes c) + length (concat (packet_bytes <$> cs)) + n)%nat
    with (5 + length c + (length (concat (packet_bytes <$> cs)) + n))%nat by (cbn [packet_bytes length app be32]; lia).
  rewrite parse_open_app in Hp.
  destruct (parse_open fuel c p m) as [[p1 m1]|] eqn:E1; [|done]. cbn [mbind option_bind] in Hp.
  pose proof (packet_run (length (concat (packet_bytes <$> cs)) + n) fuel (crc32 c) c _ out p k m d
    Hc Hl (crc32_range _ Hb) Hk Hd) as Hrun.
  rewrite (parse_open_parse _ _ _ _ _ E1) in Hrun. destruct Hrun as (d1 & Hd1 & ->).
  unfold packet_end. rewrite Z.eqb_refl. cbn [negb].
  destruct cs as [|c' cs].
  { cbn in Hp. injection Hp as -> ->. rewrite Hcomp. by exists d1. }
  assert (complete p1 = false) as ->.
  { inversion_clear Hwf as [|? ? (Hc' & _) _]. destruct c' as [|b c']; [done|].
    cbn [concat app parse_open] in Hp. by destruct (complete p1). }
  destruct (IH p1 (Packet (Z.of_nat (length c) + 4) 0 (crc32 c) (crc32 c)) m1 d1 (out ++ [u8 (crc32 c)])
    ltac:(done) eq_refl Hp Hcomp Hd1) as (d' & Hd' & E).
  exists d'. split; [|exact E]. by rewrite <- app_assoc in Hd'.
Qed.

(** The image is loaded into memory. *)
Lemma download_image n fuel ep ss cs rest out m d :
  0 <= ep < 0x100000000 -> Z.of_nat (length ss) < 0xFFFFFFFF ->
  Forall section_wf ss -> Forall (section_fuel fuel) ss ->
  Forall chunk_wf cs -> concat cs = payload ep ss ->
  (length (concat (packet_bytes <$> cs)) <= n)%nat ->
  dev_at (concat (packet_bytes <$> cs) ++ rest) out d ->
  exists d', download n fuel m d = Some (ep, load_image ss m, d') /\
             dev_at rest (out ++ (u8 ∘ crc32 <$> cs)) d'.
Proof.
  intros Hep Hns Hwf Hfu Hcs Hcat Hn Hd.
  destruct (parse_payload fuel ep ss m Hep Hns Hwf Hfu) as (fs & off & ms & Hp). rewrite <- Hcat in Hp.
  destruct (packets_run (n - length (concat (packet_bytes <$> cs))) fuel cs rest out sect_init packet_init
    m d _ _ ltac:(by intros ->) Hcs eq_refl Hp (Z.eqb_refl _) Hd) as (d' & Hd' & E).
  replace (_ + (n - _))%nat with n in E by lia. by exists d'.
Qed.

(** Claim C2. Downloading an image: when the channel delivers the payload of an image
    (entry point, number of sections, sections) cut into packets in any way,
    [download] returns the entry point after exactly these bytes, has acknowledged
    each packet with the low byte of its checksum, and main memory holds every
    section: its data at its offset, then zeros up to its memory size. *)
Theorem download_loads_image n fuel ep ss cs rest out m d :
  0 <= ep < 0x100000000 -> Z.of_nat (length ss) < 0xFFFFFFFF ->
  Forall section_wf ss -> ForallOrdPairs sec_disjoint ss -> Forall (section_fuel fuel) ss ->
  Forall chunk_wf cs -> concat cs = payload ep ss ->
  (length (concat (packet_bytes <$> cs)) <= n)%nat ->
  dev_at (concat (packet_bytes <$> cs) ++ rest) out d ->
  exists m' d',
    download n fuel m d = Some (ep, m', d') /\
    dev_at rest (out ++ (u8 ∘ crc32 <$> cs)) d' /\
    forall s, In s ss ->
      forall i, 0 <= i < Z.max (Z.of_nat (length (sec_data s))) (sec_memsize s) ->
      mem_byte m' (sec_offset s + i) = arr (sec_data s) i.
Proof.
  intros Hep Hns Hwf Hdis Hfu Hcs Hcat Hn Hd.
  destruct (download_image n fuel ep ss cs rest out m d) as (d' & E & Hd'); [done..|].
  exists (load_image ss m), d'. split; [done|]. split; [done|].
  intros s Hs i Hi. by apply load_image_bytes.
Qed.

(** Claim C24. Error detection: whatever state the section parser is in, a packet in which up to
    four consecutive data bytes were changed is acknowledged with its own checksum and
    rejected: [download] returns NULL as soon as the packet is complete (unless the
    zero fill of a section it closes does not end, [parse] being [None]). *)
Theorem download_rejects_corruption n fuel pre x x' post rest out p k m d :
  x <> x' -> length x = length x' -> (length x <= 4)%nat ->
  chunk_wf (pre ++ x ++ post) -> Forall byte_range x' -> packet_size k = 0 ->
  dev_at (Z.of_nat (length (pre ++ x ++ post)) :: be32 (crc32 (pre ++ x ++ post)) ++
            (pre ++ x' ++ post) ++ rest) out d ->
  match parse fuel (pre ++ x' ++ post) p m with
  | Some (_, m') => exists d',
      dev_at rest (out ++ [u8 (crc32 (pre ++ x' ++ post))]) d' /\
      download_loop (5 + length (pre ++ x ++ post) + n) fuel p k m d = Some (0, m', d')
  | None => download_loop (5 + length (pre ++ x ++ post) + n) fuel p k m d = None
  end.
Proof.
  intros Hne Hlen H4 (_ & Hl & Hb) Hx' Hk Hd.
  pose proof (crc32_burst pre x x' post Hb Hx' Hlen H4 Hne) as Hcrc.
  assert (length (pre ++ x ++ post) = length (pre ++ x' ++ post)) as El
    by (rewrite !length_app, Hlen; done).
  assert (pre ++ x' ++ post <> []) as Hc.
  { intros E. apply app_eq_nil in E as [_ [-> _]%app_eq_nil]. by destruct x. }
  rewrite El in *.
  pose proof (packet_run n fuel _ (pre ++ x' ++ post) rest out p k m d Hc ltac:(lia)
    (crc32_range _ Hb) Hk Hd) as Hrun.
  destruct (parse fuel _ p m) as [[p' m']|]; [|done].
  destruct Hrun as (d' & Hd' & ->). exists d'. split; [done|]. unfold packet_end.
  rewrite (proj2 (Z.eqb_neq _ _)) by done. done.
Qed.

End Loop.

(** ** Witnesses: an image over a UART *)

Definition demo_sections : list section :=
  [Section_ 0x1000 12 [1; 2; 3; 4; 5]; Section_ 0x2000 8 []].

Definition demo_chunks : list (list Z) :=
  [firstn 9 (payload 0x1000 demo_sections); skipn 9 (payload 0x1000 demo_sections)].

(** Every byte arrives after one poll; the transmitter is busy for two polls. *)
Definition demo_uart (bs : list Z) : uart := Uart (pair 1%nat <$> bs) [2%nat; 2%nat] [].

Lemma demo_uart_at bs : uart_at 3 bs [] (demo_uart bs).
Proof.
  repeat split; cbn.
  - induction bs; cbn; congruence.
  - induction bs; cbn; constructor; cbn; auto.
  - repeat constructor.
Qed.

Lemma download_loads_image_witness :
  exists m' d',
    @download uart (uart_dev 3) 100 5 ∅ (demo_uart (concat (packet_bytes <$> demo_chunks) ++ [99]))
      = Some (0x1000, m', d') /\
    uart_at 3 [99] ([] ++ (u8 ∘ crc32 <$> demo_chunks)) d' /\
    forall s, In s demo_sections ->
      forall i, 0 <= i < Z.max (Z.of_nat (length (sec_data s))) (sec_memsize s) ->
      mem_byte m' (sec_offset s + i) = arr (sec_data s) i.
Proof.
  apply (@download_loads_image uart (uart_dev 3) (uart_dev_spec 2)).
  - lia.
  - cbn. lia.
  - repeat constructor; cbn; lia.
  - constructor; [|by repeat constructor]. constructor; [left; vm_compute; discriminate|constructor].
  - repeat constructor; vm_compute; lia.
  - repeat constructor; try discriminate; vm_compute; try discriminate; lia.
  - vm_compute. reflexivity.
  - vm_compute. lia.
  - apply demo_uart_at.
Defined.

Lemma download_rejects_corruption_witness :
  exists m' d',
    @download_loop uart (uart_dev 3) 20 5 sect_init packet_init ∅
      (demo_uart (4 :: be32 (crc32 [0; 0; 16; 0]) ++ [0; 0; 17; 0] ++ [])) = Some (0, m', d').
Proof.
  assert (H := @download_rejects_corruption uart (uart_dev 3) (uart_dev_spec 2) 11 5 [0; 0] [16] [17] [0] [] []
    sect_init packet_init ∅ (demo_uart (4 :: be32 (crc32 [0; 0; 16; 0]) ++ [0; 0; 17; 0] ++ []))
    ltac:(discriminate) eq_refl ltac:(cbn; lia)
    ltac:(repeat split; [discriminate|cbn; lia|repeat constructor; lia])
    ltac:(repeat constructor; lia) eq_refl (demo_uart_at _)).
  destruct H as (d' & _ & H). eexists _, d'. exact H.
Defined.
