(* ===== verification/Decompress.v ===== *)
(** * The LZSS decoder of the boot loader

    [decompress_init] and [decompress_get_byte] of src/c/bootloader/decompress.c: a 1 KiB
    ring buffer that is decoded into one token at a time and read out byte by byte,
    on top of the UART.

    The specification is a sliding-window decoder on the whole history of the
    output: a token is a literal or says how many bytes to copy from how far back.
    The encoding of tokens is the one of
    src/tools/java/src/patserdow/CompressionOutputStream.java (encode, flushBuffer);
    which matches the compressor finds is its own business. The decoder is shown to
    be a byte channel in the sense of [ByteDevSpec], so that everything proved of
    [download] holds for compressed downloads. *)

From stdpp Require Import base gmap list numbers.
From Stdlib Require Import ZArith Lia.
From S2P Require Import Prelude Uart Crc32 Download.

Local Open Scope Z_scope.
Local Open Scope c_scope.

(** ** The decoder *)

Definition INDEX_BITS : Z := 10.
Definition LENGTH_BITS : Z := 16 - INDEX_BITS.
Definition THRESHOLD : Z := 2.
Definition N : Z := 1 << INDEX_BITS.
Definition F : Z := (1 << LENGTH_BITS) + THRESHOLD.

Record lzss := Lzss {
  text_buf : list Z;
  write_pos : Z;
  read_pos : Z;
  flags : Z;
  line : uart
}.

(** The static variables before [decompress_init]. *)
Definition lzss_static (u : uart) : lzss := Lzss (replicate (Z.to_nat N) 0) 0 0 0 u.

(** [for (write_pos = 0; write_pos < N - F; write_pos++) text_buf[write_pos] = ' ';] *)
Definition decompress_init (s : lzss) : lzss :=
  Lzss (for_ (N - F) (fun i b => <[Z.to_nat i := 32]> b) (text_buf s)) (N - F) (N - F) 0 (line s).

(** [text_buf[write_pos++] = c; write_pos &= (N - 1);] *)
Definition put_text (c : Z) (bw : list Z * Z) : list Z * Z :=
  (<[Z.to_nat (snd bw) := u8 c]> (fst bw), (snd bw + 1) .& (N - 1)).

(** [for (int k = i; k <= i + j; k++) { c = text_buf[k & (N - 1)]; ... }] *)
Definition copy_match (i j : Z) (bw : list Z * Z) : list Z * Z :=
  for_ (j + 1) (fun t bw => put_text (arr (fst bw) ((i + t) .& (N - 1))) bw) bw.

(** The body of [if (read_pos == write_pos)]. *)
Definition decompress_token (fuel : nat) (s : lzss) : option lzss :=
  let flags1 := flags s >> 1 in
  '(fl, u) ← (if flags1 .& 0x100 =? 0
              then '(c, u) ← uart_read fuel (line s); Some (u32 (c .| 0xFF00), u)
              else Some (flags1, line s));
  if negb (fl .& 1 =? 0)
  then '(c, u) ← uart_read fuel u;
       let '(b, w) := put_text c (text_buf s, write_pos s) in
       Some (Lzss b w (read_pos s) fl u)
  else '(i, u) ← uart_read fuel u;
       '(j, u) ← uart_read fuel u;
       let i := i .| ((j .& (0xff << LENGTH_BITS) .& 0xff) << (8 - LENGTH_BITS)) in
       let j := (j .& ((1 << LENGTH_BITS) - 1)) + THRESHOLD in
       let '(b, w) := copy_match i j (text_buf s, write_pos s) in
       Some (Lzss b w (read_pos s) fl u).

Definition decompress_get_byte (fuel : nat) (s : lzss) : option (Z * lzss) :=
  s ← (if read_pos s =? write_pos s then decompress_token fuel s else Some s);
  Some (arr (text_buf s) (read_pos s),
        Lzss (text_buf s) (write_pos s) ((read_pos s + 1) .& (N - 1)) (flags s) (line s)).

(** ** The specification *)

Inductive token :=
| Lit (b : Z)
| Match (pos len : Z).

Definition token_wf (t : token) : Prop :=
  match t with
  | Lit b => 0 <= b < 256
  | Match pos len => 0 <= pos < 1024 /\ 3 <= len <= 66
  end.

Definition is_lit (t : token) : bool := match t with Lit _ => true | Match _ _ => false end.

(** The bytes of a token. *)
Definition unit_bytes (t : token) : list Z :=
  match t with
  | Lit b => [b]
  | Match pos len =>
      [pos .& 0xff; ((pos >> (8 - LENGTH_BITS)) .& (0xff << LENGTH_BITS) .& 0xff) .| (len - (THRESHOLD + 1))]
  end.

(** Up to eight tokens behind a byte of flags, lowest bit first. *)
Fixpoint flag_byte (g : list token) : Z :=
  match g with [] => 0 | t :: g => 2 * flag_byte g + (if is_lit t then 1 else 0) end.

Definition group_bytes (g : list token) : list Z := flag_byte g :: concat (unit_bytes <$> g).

Definition encode (gs : list (list token)) : list Z := concat (group_bytes <$> gs).

(** Every group is full, but the last one. *)
Fixpoint groups_wf (gs : list (list token)) : Prop :=
  match gs with
  | [] => True
  | g :: gs =>
      g <> [] /\ (length g <= 8)%nat /\ Forall token_wf g /\
      (gs <> [] -> length g = 8%nat) /\ groups_wf gs
  end.

(** What precedes the output: the ring buffer after [decompress_init]. *)
Definition hist0 : list Z := replicate 66 0 ++ replicate 958 32.

Abbreviation len h := (Z.of_nat (length h)).

(** Copy [n] bytes from [dist] back. *)
Fixpoint copy_back (dist : Z) (n : nat) (h : list Z) : list Z :=
  match n with
  | O => h
  | S n => let h := copy_back dist n h in h ++ [arr h (len h - dist)]
  end.

(** How far back position [pos] of the ring lies: 1 to 1024. *)
Definition distance (h : list Z) (pos : Z) : Z := (len h - 66 - pos - 1) mod 1024 + 1.

Definition expand (h : list Z) (t : token) : list Z :=
  match t with
  | Lit b => h ++ [b]
  | Match pos n => copy_back (distance h pos) (Z.to_nat n) h
  end.

(** The history after decoding tokens, and the text they stand for. *)
Definition decode (h : list Z) (ts : list token) : list Z := fold_left expand ts h.
Definition text (ts : list token) : list Z := drop 1024 (decode hist0 ts).

(** ** The ring buffer holds the end of the history *)

Definition wpos (n : Z) : Z := (n - 66) mod 1024.

Record ring_inv (h b : list Z) : Prop := {
  ring_len : length b = 1024%nat;
  ring_hist : 1024 <= len h;
  ring_bytes : Forall byte_range h;
  ring_read i : len h - 1024 <= i < len h -> arr b (wpos i) = arr h i
}.

Lemma land_1023 x : x .& (N - 1) = x mod 1024.
Proof. exact (Z.land_ones x 10 ltac:(lia)). Qed.

Lemma arr_snoc h c i : 0 <= i <= len h -> arr (h ++ [c]) i = if i =? len h then c else arr h i.
Proof.
  intros Hi. unfold arr. destruct (Z.eqb_spec i (len h)) as [->|].
  - rewrite Nat2Z.id, app_nth2, Nat.sub_diag by lia. done.
  - rewrite app_nth1 by lia. done.
Qed.

Lemma arr_byte_range h i : Forall byte_range h -> 0 <= arr h i < 256.
Proof.
  intros Hh. unfold arr. destruct (decide (Z.to_nat i < length h)%nat) as [Hi|].
  - apply (Forall_nth byte_range); [done|lia].
  - rewrite nth_overflow by lia. lia.
Qed.

Lemma ring_put h b c :
  ring_inv h b -> 0 <= c < 256 ->
  let '(b', w') := put_text c (b, wpos (len h)) in
  ring_inv (h ++ [c]) b' /\ w' = wpos (len (h ++ [c])).
Proof.
  intros [Hl Hh Hb Hr] Hc. unfold put_text. cbn [fst snd]. rewrite land_1023, u8_small by lia.
  rewrite length_app. cbn [length]. split; [|unfold wpos; zdm].
  split.
  - by rewrite length_insert.
  - rewrite length_app. lia.
  - apply Forall_app. split; [done|]. constructor; [done|constructor].
  - rewrite length_app. cbn [length]. intros i Hi.
    rewrite arr_insert by (unfold wpos; zdm). rewrite arr_snoc by lia.
    destruct (Z.eqb_spec i (len h)) as [->|].
    + by rewrite Z.eqb_refl.
    + destruct (Z.eqb_spec (wpos (len h)) (wpos i)); [unfold wpos in *; zdm|]. apply Hr. lia.
Qed.

Lemma copy_back_length dist n h : length (copy_back dist n h) = (length h + n)%nat.
Proof. induction n as [|n IH]; cbn [copy_back]; [lia|]. rewrite length_app, IH. cbn [length]. lia. Qed.

Lemma ring_copy h b i j :
  ring_inv h b -> 0 <= j ->
  let '(b', w') := copy_match i j (b, wpos (len h)) in
  let h' := copy_back (distance h i) (Z.to_nat (j + 1)) h in
  ring_inv h' b' /\ w' = wpos (len h').
Proof.
  intros Hring Hj. unfold copy_match.
  apply (for_ind (fun t '(b', w') =>
    let h' := copy_back (distance h i) (Z.to_nat t) h in ring_inv h' b' /\ w' = wpos (len h'))).
  - lia.
  - done.
  - intros t [b' w'] Ht [Hr ->]. cbn [fst].
    replace (Z.to_nat (t + 1)) with (S (Z.to_nat t)) by lia. cbn [copy_back].
    set (h' := copy_back (distance h i) (Z.to_nat t) h) in *.
    assert (len h' = len h + t) as El by (unfold h'; rewrite copy_back_length; lia).
    assert (1 <= distance h i <= 1024) by (unfold distance; zdm).
    replace (arr b' ((i + t) .& (N - 1))) with (arr h' (len h' - distance h i)).
    + apply ring_put; [done|]. apply arr_byte_range, Hr.
    + rewrite <- (ring_read _ _ Hr) by lia. rewrite land_1023. f_equal.
      rewrite El. unfold wpos, distance. zdm.
Qed.

(** ** The encoding of a match *)

Lemma match_index pos :
  0 <= pos < 1024 -> (pos >> (8 - LENGTH_BITS)) .& (0xff << LENGTH_BITS) .& 0xff = pos / 256 * 64.
Proof.
  intros Hp.
  assert (forallb (fun p => ((p >> (8 - LENGTH_BITS)) .& (0xff << LENGTH_BITS) .& 0xff) =? p / 256 * 64)
            (seqZ 0 1024) = true) as H by (vm_compute; reflexivity).
  rewrite forallb_forall in H. apply Z.eqb_eq, H, list_elem_of_In, elem_of_seqZ. lia.
Qed.

Lemma match_decode j :
  0 <= j < 256 ->
  (j .& (0xff << LENGTH_BITS) .& 0xff) << (8 - LENGTH_BITS) = j / 64 * 256 /\
  j .& ((1 << LENGTH_BITS) - 1) = j mod 64.
Proof.
  intros Hj. split.
  - assert (forallb (fun j => ((j .& (0xff << LENGTH_BITS) .& 0xff) << (8 - LENGTH_BITS)) =? j / 64 * 256)
              (seqZ 0 256) = true) as H by (vm_compute; reflexivity).
    rewrite forallb_forall in H. apply Z.eqb_eq, H, list_elem_of_In, elem_of_seqZ. lia.
  - exact (Z.land_ones j 6 ltac:(lia)).
Qed.

(** The decoder recovers position and length of a match. *)
Lemma match_roundtrip pos n b1 b2 :
  token_wf (Match pos n) -> unit_bytes (Match pos n) = [b1; b2] ->
  b1 .| ((b2 .& (0xff << LENGTH_BITS) .& 0xff) << (8 - LENGTH_BITS)) = pos /\
  (b2 .& ((1 << LENGTH_BITS) - 1)) + THRESHOLD = n - 1 /\ 0 <= b1 < 256 /\ 0 <= b2 < 256.
Proof.
  intros [Hp Hn] E. cbn [unit_bytes] in E. injection E as <- <-.
  rewrite match_index by done. unfold THRESHOLD.
  rewrite (lor_add _ (n - (2 + 1)) 6) by (try lia; change (2 ^ 6) with 64; zdm).
  destruct (match_decode (pos / 256 * 64 + (n - (2 + 1)))) as [-> ->]; [zdm|].
  rewrite land_ff, Z.lor_comm, (lor_add _ (pos mod 256) 8) by (try lia; change (2 ^ 8) with 256; zdm).
  repeat split; zdm.
Qed.

(** ** The flags *)

(** [rem] are the tokens of the current group still to come: their flags are in
    place, each with a counter bit; behind the last one of a full group the
    counter is used up. *)
Definition flags_inv (rem : list token) (more : bool) (fl : Z) : Prop :=
  0 <= fl /\
  (forall k, (k < length rem)%nat ->
    Z.testbit fl (Z.of_nat k + 1) = is_lit (nth k rem (Lit 0)) /\ Z.testbit fl (Z.of_nat k + 9) = true) /\
  (more = true -> Z.testbit fl (len rem + 9) = false).

Lemma land_flag_bit fl k : 0 <= k -> (fl .& (1 << k) =? 0) = negb (Z.testbit fl k).
Proof.
  intros Hk. rewrite Z.shiftl_1_l. destruct (Z.testbit fl k) eqn:E; cbn [negb].
  - apply Z.eqb_neq. intros H0. apply (f_equal (fun x => Z.testbit x k)) in H0.
    rewrite Z.land_spec, E, Z.pow2_bits_true, Z.bits_0 in H0 by lia. done.
  - apply Z.eqb_eq. apply Z.bits_inj'. intros i Hi. rewrite Z.land_spec, Z.bits_0, Z.pow2_bits_eqb by lia.
    destruct (Z.eqb_spec k i) as [<-|]; [by rewrite E|apply andb_false_r].
Qed.

Lemma flag_byte_range g : 0 <= flag_byte g < 2 ^ len g.
Proof.
  induction g as [|t g IH]; [cbn; lia|]. cbn [flag_byte length].
  rewrite Nat2Z.inj_succ, Z.pow_succ_r by lia. destruct (is_lit t); lia.
Qed.

Lemma flag_byte_bit g k : (k < length g)%nat -> Z.testbit (flag_byte g) (Z.of_nat k) = is_lit (nth k g (Lit 0)).
Proof.
  revert k. induction g as [|t g IH]; intros k Hk; [cbn in Hk; lia|]. cbn [flag_byte].
  destruct k as [|k]; cbn [nth].
  - change (Z.of_nat 0) with 0. destruct (is_lit t); [apply Z.testbit_odd_0|].
    rewrite Z.add_0_r. apply Z.testbit_even_0.
  - rewrite Nat2Z.inj_succ. rewrite <- IH by (cbn in Hk; lia).
    destruct (is_lit t); [apply Z.testbit_odd_succ; lia|].
    rewrite Z.add_0_r. apply Z.testbit_even_succ. lia.
Qed.

Lemma flags_next t rem more fl :
  flags_inv (t :: rem) more fl ->
  Z.testbit (fl >> 1) 0 = is_lit t /\ Z.testbit (fl >> 1) 8 = true /\ flags_inv rem more (fl >> 1).
Proof.
  intros (H0 & Hk & Hm). destruct (Hk O) as [H1 H9]; [cbn; lia|].
  rewrite !Z.shiftr_spec by lia. repeat split; [done|done|by apply Z.shiftr_nonneg|..].
  - rewrite Z.shiftr_spec by lia. destruct (Hk (S k)) as [E _]; [cbn; lia|].
    by replace (Z.of_nat k + 1 + 1) with (Z.of_nat (S k) + 1) by lia.
  - rewrite Z.shiftr_spec by lia. destruct (Hk (S k)) as [_ E]; [cbn; lia|].
    by replace (Z.of_nat k + 9 + 1) with (Z.of_nat (S k) + 9) by lia.
  - intros Hmore. rewrite Z.shiftr_spec by lia. rewrite <- (Hm Hmore). f_equal. cbn [length]. lia.
Qed.

Lemma flags_spent fl : flags_inv [] true fl -> Z.testbit (fl >> 1) 8 = false.
Proof. intros (_ & _ & Hm). rewrite Z.shiftr_spec by lia. by apply Hm. Qed.

(** The flags of a new group. *)
Lemma flags_fresh t g more :
  (length (t :: g) <= 8)%nat -> (more = true -> length (t :: g) = 8%nat) ->
  let fl := u32 (flag_byte (t :: g) .| 0xFF00) in
  Z.testbit fl 0 = is_lit t /\ flags_inv g more fl.
Proof.
  intros Hl Hm. cbv zeta. pose proof (flag_byte_range (t :: g)) as Hr.
  assert (flag_byte (t :: g) < 256) as H8.
  { assert (2 ^ len (t :: g) <= 2 ^ 8) by (apply Z.pow_le_mono_r; lia). change (2 ^ 8) with 256 in *. lia. }
  assert (flag_byte (t :: g) .| 0xFF00 = 0xFF00 + flag_byte (t :: g)) as E
    by (rewrite Z.lor_comm, (lor_add _ _ 8); [done|lia|done|change (2 ^ 8) with 256; lia]).
  assert (u32 (flag_byte (t :: g) .| 0xFF00) = flag_byte (t :: g) .| 0xFF00) as -> by (apply u32_small; lia).
  assert (forall k, 8 <= k -> Z.testbit (flag_byte (t :: g)) k = false) as Hhi.
  { intros k Hk. rewrite <- (Z.mod_small (flag_byte (t :: g)) (2 ^ 8)) by (change (2 ^ 8) with 256; lia).
    apply Z.mod_pow2_bits_high. lia. }
  assert (forall k, 0 <= k < 8 -> Z.testbit 0xFF00 k = false) as Hlo.
  { intros k Hk. rewrite <- (Z.mod_pow2_bits_low _ 8) by lia. apply Z.bits_0. }
  split.
  - rewrite Z.lor_spec, Hlo, orb_false_r by lia. apply (flag_byte_bit (t :: g) 0). cbn. lia.
  - split; [|split].
    + apply Z.lor_nonneg. lia.
    + intros k Hk. cbn [length] in Hl. rewrite !Z.lor_spec. split.
      * rewrite Hlo, orb_false_r by lia. replace (Z.of_nat k + 1) with (Z.of_nat (S k)) by lia.
        rewrite flag_byte_bit by (cbn; lia). done.
      * rewrite Hhi by lia. cbn [orb].
        assert (forallb (fun i => Z.testbit 0xFF00 i) (seqZ 8 8) = true) as H by reflexivity.
        rewrite forallb_forall in H. apply H, list_elem_of_In, elem_of_seqZ. lia.
    + intros Hmore. specialize (Hm Hmore). cbn [length] in Hm. rewrite Z.lor_spec, Hhi by lia.
      replace (len g + 9) with 16 by lia. done.
Qed.

(** ** Decoding a token *)

Definition stream (rem : list token) (gs : list (list token)) : list Z :=
  concat (unit_bytes <$> rem) ++ encode gs.

(** The tokens the decoder is going to see: the rest of the group, further groups. *)
Record tokens_at (fuel : nat) (rem : list token) (gs : list (list token)) (out : list Z) (s : lzss) : Prop := {
  at_flags : flags_inv rem (match gs with [] => false | _ => true end) (flags s);
  at_rem : Forall token_wf rem;
  at_groups : groups_wf gs;
  at_line : uart_at fuel (stream rem gs) out (line s)
}.

(** The next token, and what remains. *)
Definition next_token (rem : list token) (gs : list (list token)) : option (token * list token * list (list token)) :=
  match rem, gs with
  | t :: rem, _ => Some (t, rem, gs)
  | [], (t :: rem) :: gs => Some (t, rem, gs)
  | [], _ => None
  end.

(** The first part of [decompress_token]: the flag of the next token. *)
Lemma flags_step fuel rem gs out s t rem' gs' :
  tokens_at (S fuel) rem gs out s -> next_token rem gs = Some (t, rem', gs') ->
  exists fl u,
    (if (flags s >> 1) .& 0x100 =? 0
     then '(c, u) ← uart_read (S fuel) (line s); Some (u32 (c .| 0xFF00), u)
     else Some (flags s >> 1, line s)) = Some (fl, u) /\
    Z.testbit fl 0 = is_lit t /\ token_wf t /\
    flags_inv rem' (match gs' with [] => false | _ => true end) fl /\
    Forall token_wf rem' /\ groups_wf gs' /\
    uart_at (S fuel) (unit_bytes t ++ stream rem' gs') out u.
Proof.
  intros [Hf Hr Hg Hl] Hn. change 0x100 with (1 << 8). rewrite land_flag_bit by lia.
  destruct rem as [|t0 rem0].
  - destruct gs as [|[|t0 g0] gs0]; [done..|]. cbn in Hn. simplify_eq.
    rewrite (flags_spent _ Hf). cbn [negb]. cbn [groups_wf] in Hg. destruct Hg as (_ & Hlen & Htok & Hfull & Hg).
    unfold stream in Hl. cbn [fmap list_fmap concat app] in Hl.
    change (encode ((t :: rem') :: gs')) with (group_bytes (t :: rem') ++ encode gs') in Hl.
    unfold group_bytes in Hl. cbn [app] in Hl.
    destruct (uart_read_spec _ _ _ _ _ Hl) as (u & Eg & Hu).
    eexists _, u. rewrite Eg. cbn [mbind option_bind]. split; [done|].
    destruct (flags_fresh t rem' (match gs' with [] => false | _ => true end) Hlen) as [E1 E2].
    { intros E. apply Hfull. by destruct gs'. }
    inversion_clear Htok as [|? ? Ht Hrem]. repeat (split; [done|]).
    unfold stream. cbn [fmap list_fmap concat] in Hu. by rewrite <- app_assoc in Hu.
  - cbn in Hn. simplify_eq. destruct (flags_next _ _ _ _ Hf) as (E0 & E8 & Hf'). rewrite E8. cbn [negb].
    eexists _, _. split; [done|]. inversion_clear Hr as [|? ? Ht Hrem]. repeat (split; [done|]).
    unfold stream in *. cbn [fmap list_fmap concat] in Hl. by rewrite <- app_assoc in Hl.
Qed.

Lemma token_step fuel h rem gs out s t rem' gs' :
  tokens_at (S fuel) rem gs out s -> next_token rem gs = Some (t, rem', gs') ->
  ring_inv h (text_buf s) -> write_pos s = wpos (len h) ->
  exists s', decompress_token (S fuel) s = Some s' /\ tokens_at (S fuel) rem' gs' out s' /\
    ring_inv (expand h t) (text_buf s') /\ write_pos s' = wpos (len (expand h t)) /\
    read_pos s' = read_pos s.
Proof.
  intros Hat Hn Hring Hw. destruct (flags_step _ _ _ _ _ _ _ _ Hat Hn)
    as (fl & u & E & E0 & Ht & Hf & Hrem & Hg & Hu).
  unfold decompress_token. rewrite E. cbn [mbind option_bind].
  rewrite (land_flag_bit fl 0 ltac:(lia) : (fl .& 1 =? 0) = _), E0, negb_involutive.
  destruct t as [b|pos n]; cbn [is_lit].
  - destruct (uart_read_spec _ _ _ _ _ Hu) as (u1 & Eg & Hu1). rewrite Eg. cbn [mbind option_bind].
    rewrite Hw. pose proof (ring_put h _ b Hring Ht) as Hput.
    destruct (put_text b (text_buf s, wpos (len h))) as [b' w']. destruct Hput as [Hr' ->].
    eexists. split; [done|]. split; [by constructor|]. by repeat (split; [done|]).
  - destruct (unit_bytes (Match pos n)) as [|b1 [|b2 [|? ?]]] eqn:Eu; [done..| |done].
    destruct (match_roundtrip _ _ _ _ Ht Eu) as (Ei & Ej & _).
    destruct (uart_read_spec _ _ _ _ _ Hu) as (u1 & Eg & Hu1). rewrite Eg. cbn [mbind option_bind].
    destruct (uart_read_spec _ _ _ _ _ Hu1) as (u2 & Eg2 & Hu2). rewrite Eg2. cbn [mbind option_bind].
    cbv zeta. rewrite Ei, Ej, Hw. destruct Ht as [_ Hlen].
    pose proof (ring_copy h (text_buf s) pos (n - 1) Hring ltac:(lia)) as Hc.
    destruct (copy_match pos (n - 1) _) as [b' w']. cbv zeta in Hc.
    replace (n - 1 + 1) with n in Hc by lia. destruct Hc as [Hr' ->].
    eexists. split; [done|]. split; [by constructor|]. by repeat (split; [done|]).
Qed.

(** ** The decoder is a byte channel *)

Lemma expand_app h t : token_wf t -> exists l, expand h t = h ++ l /\ (1 <= length l <= 66)%nat.
Proof.
  destruct t as [b|pos n]; intros Ht; cbn [expand].
  - exists [b]. cbn. split; [done|lia].
  - destruct Ht as [_ Hn].
    assert (forall m, exists l, copy_back (distance h pos) m h = h ++ l /\ length l = m) as H.
    { induction m as [|m (l & E & El)]; [by exists []; rewrite app_nil_r|]. cbn [copy_back]. rewrite E.
      eexists. rewrite <- app_assoc. split; [done|]. rewrite length_app, El. cbn. lia. }
    destruct (H (Z.to_nat n)) as (l & E & El). exists l. split; [done|lia].
Qed.

Lemma decode_app h ts : Forall token_wf ts -> exists l, decode h ts = h ++ l.
Proof.
  intros Hts. revert h. induction Hts as [|t ts Ht _ IH]; intros h; [exists []; by rewrite app_nil_r|].
  unfold decode. cbn [fold_left]. destruct (expand_app h t Ht) as (l & -> & _).
  destruct (IH (h ++ l)) as (l' & E). unfold decode in E. rewrite E, <- app_assoc. by eexists.
Qed.

(** [n] bytes of the history have been decoded but not read yet. *)
Definition lzss_at (fuel : nat) (bs out : list Z) (s : lzss) : Prop :=
  exists h rem gs n,
    tokens_at fuel rem gs out s /\ ring_inv h (text_buf s) /\ write_pos s = wpos (len h) /\
    (n <= 66)%nat /\ read_pos s = wpos (len h - Z.of_nat n) /\
    bs = drop (length h - n) (decode h (rem ++ concat gs)).

(** Reading a byte that has been decoded. *)
Lemma lzss_pop fuel h rem gs n b bs out s :
  tokens_at fuel rem gs out s -> ring_inv h (text_buf s) -> write_pos s = wpos (len h) ->
  (0 < n <= 66)%nat -> read_pos s = wpos (len h - Z.of_nat n) ->
  b :: bs = drop (length h - n) (decode h (rem ++ concat gs)) -> Forall token_wf (concat gs) ->
  arr (text_buf s) (read_pos s) = b /\
  lzss_at fuel bs out
    (Lzss (text_buf s) (write_pos s) ((read_pos s + 1) .& (N - 1)) (flags s) (line s)).
Proof.
  intros Hat Hr Hw Hn Hrd Hbs Hgs. pose proof (ring_hist _ _ Hr) as Hh. split.
  - rewrite Hrd, (ring_read _ _ Hr) by lia.
    destruct (decode_app h (rem ++ concat gs)) as (l & E); [apply Forall_app; split; [apply Hat|done]|].
    rewrite E in Hbs. rewrite drop_app_le in Hbs by lia.
    unfold arr. replace (Z.to_nat (len h - Z.of_nat n)) with (length h - n)%nat by lia.
    destruct (lookup_lt_is_Some_2 h (length h - n)) as [x Hx]; [lia|].
    rewrite (drop_S _ _ _ Hx) in Hbs. cbn [app] in Hbs. injection Hbs as -> _. by apply nth_lookup_Some.
  - exists h, rem, gs, (n - 1)%nat. destruct Hat. split; [by constructor|]. cbn [text_buf write_pos read_pos].
    split; [done|]. split; [done|]. split; [lia|]. split.
    + rewrite land_1023, Hrd. unfold wpos. zdm.
    + replace (length h - (n - 1))%nat with (S (length h - n)) by lia.
      change (S (length h - n)) with (1 + (length h - n))%nat.
      rewrite <- skipn_skipn, <- Hbs. done.
Qed.

Lemma groups_tokens gs : groups_wf gs -> Forall token_wf (concat gs).
Proof.
  induction gs as [|g gs IH]; cbn [groups_wf concat]; [constructor|].
  intros (_ & _ & Hg & _ & Hgs). apply Forall_app. auto.
Qed.

Lemma next_token_concat rem gs t rem' gs' :
  next_token rem gs = Some (t, rem', gs') -> rem ++ concat gs = t :: rem' ++ concat gs'.
Proof. destruct rem as [|? ?], gs as [|[|? ?] ?]; cbn; intros; simplify_eq; done. Qed.

Lemma lzss_get_spec fuel b bs out s :
  lzss_at (S fuel) (b :: bs) out s ->
  exists s', decompress_get_byte (S fuel) s = Some (b, s') /\ lzss_at (S fuel) bs out s'.
Proof.
  intros (h & rem & gs & n & Hat & Hr & Hw & Hn & Hrd & Hbs). unfold decompress_get_byte.
  destruct n as [|n].
  - rewrite Z.sub_0_r in Hrd. rewrite Hrd, Hw, Z.eqb_refl.
    destruct (next_token rem gs) as [[[t rem'] gs']|] eqn:Hnext.
    2:{ destruct rem; [|done]. destruct gs as [|[|t g] gs]; [|by destruct (at_groups _ _ _ _ _ Hat)|done].
        rewrite Nat.sub_0_r in Hbs. cbn in Hbs. by rewrite drop_all in Hbs. }
    destruct (token_step _ _ _ _ _ _ _ _ _ Hat Hnext Hr Hw) as (s' & E & Hat' & Hr' & Hw' & Hrd').
    rewrite E. cbn [mbind option_bind]. rewrite (next_token_concat _ _ _ _ _ Hnext) in Hbs.
    assert (token_wf t) as Ht by (by destruct (flags_step _ _ _ _ _ _ _ _ Hat Hnext) as (? & ? & _ & _ & ? & _)).
    destruct (expand_app h t Ht) as (l & El & Hlen).
    assert (length (expand h t) = (length h + length l)%nat) as Hlh by (rewrite El, length_app; lia).
    destruct (lzss_pop (S fuel) (expand h t) rem' gs' (length l) b bs out s') as [Eb Hat'']; try done.
    + rewrite Hrd', Hrd. unfold wpos. f_equal. lia.
    + rewrite Hlh. replace (length h + length l - length l)%nat with (length h - 0)%nat by lia. exact Hbs.
    + apply groups_tokens, Hat'.
    + rewrite Eb. by eexists.
  - assert ((read_pos s =? write_pos s) = false) as ->.
    { apply Z.eqb_neq. rewrite Hrd, Hw. pose proof (ring_hist _ _ Hr). unfold wpos. zdm. }
    cbn [mbind option_bind].
    destruct (lzss_pop _ h rem gs (S n) b bs out s Hat Hr Hw ltac:(lia) Hrd Hbs) as [-> Hat'];
      [apply groups_tokens, Hat|]. by eexists.
Qed.

Lemma lzss_put_spec fuel c bs out s :
  lzss_at (S fuel) bs out s ->
  exists s', (u ← uart_write (S fuel) c (line s);
              Some (Lzss (text_buf s) (write_pos s) (read_pos s) (flags s) u)) = Some s' /\
             lzss_at (S fuel) bs (out ++ [u8 c]) s'.
Proof.
  intros (h & rem & gs & n & [Hf Hrem Hg Hl] & Hr & Hw & Hn & Hrd & Hbs).
  destruct (uart_write_spec _ c _ _ _ Hl) as (u & E & Hu). rewrite E.
  eexists. split; [done|]. exists h, rem, gs, n. split; [by constructor|].
  by repeat (split; [done|]).
Qed.

(** [get_byte] and [put_byte] of download.c with [COMPRESSION]. *)
#[global] Instance lzss_dev (fuel : nat) : ByteDev lzss :=
  {| get_byte := decompress_get_byte fuel;
     put_byte c s :=
       u ← uart_write fuel c (line s);
       Some (Lzss (text_buf s) (write_pos s) (read_pos s) (flags s) u) |}.

#[global] Instance lzss_dev_spec (fuel : nat) : @ByteDevSpec lzss (lzss_dev (S fuel)) :=
  @Build_ByteDevSpec lzss (lzss_dev (S fuel)) (lzss_at (S fuel))
    (lzss_get_spec fuel) (lzss_put_spec fuel).

(** ** After [decompress_init] *)

Lemma init_text u : text_buf (decompress_init (lzss_static u)) = replicate 958 32 ++ replicate 66 0.
Proof. vm_compute. reflexivity. Qed.

Lemma init_ring u : ring_inv hist0 (text_buf (decompress_init (lzss_static u))).
Proof.
  rewrite init_text. split.
  - reflexivity.
  - vm_compute. discriminate.
  - apply Forall_app. split; apply Forall_replicate; lia.
  - intros i Hi. change (len hist0) with 1024 in Hi.
    assert (forallb (fun i => arr (replicate 958 32 ++ replicate 66 0) (wpos i) =? arr hist0 i)
              (seqZ 0 1024) = true) as H by (vm_compute; reflexivity).
    rewrite forallb_forall in H. apply Z.eqb_eq, (H i), list_elem_of_In, elem_of_seqZ. lia.
Qed.

Lemma init_lzss_at fuel gs out u :
  groups_wf gs -> uart_at fuel (encode gs) out u ->
  lzss_at fuel (text (concat gs)) out (decompress_init (lzss_static u)).
Proof.
  intros Hg Hu. exists hist0, [], gs, O.
  split; [|split; [apply init_ring|]].
  2:{ split; [reflexivity|]. split; [lia|]. split; [reflexivity|]. reflexivity. }
  constructor; [|constructor|done|done].
  split; [done|]. split; [intros k Hk; cbn in Hk; lia|]. intros _. apply Z.bits_0.
Qed.

(** Claim C23. The decoder is right: on the encoding of any sequence of tokens (groups of
    eight behind their flags), calling [decompress_get_byte] repeatedly after
    [decompress_init] returns, byte for byte, the text the tokens stand for in the
    sliding-window specification, however slowly the bytes arrive at the UART. *)
Theorem decompress_decodes fuel gs out u :
  groups_wf gs -> uart_at (S fuel) (encode gs) out u ->
  exists s', @get_bytes lzss (lzss_dev (S fuel)) (length (text (concat gs)))
               (decompress_init (lzss_static u)) = Some (text (concat gs), s').
Proof.
  intros Hg Hu. pose proof (init_lzss_at _ _ _ _ Hg Hu) as Hat. rewrite <- (app_nil_r (text _)) in Hat.
  destruct (@get_bytes_spec lzss _ (lzss_dev_spec fuel) _ _ _ _ Hat) as (s' & E & _). by exists s'.
Qed.

(** Claim C30. A compressed download: when the UART delivers the compressed form of the
    packets of an image, [download] with [COMPRESSION] returns the image's entry point,
    and main memory holds every section. *)
Theorem compressed_download_loads_image n ufuel fuel gs ep ss cs rest out m u :
  0 <= ep < 0x100000000 -> Z.of_nat (length ss) < 0xFFFFFFFF ->
  Forall section_wf ss -> ForallOrdPairs sec_disjoint ss -> Forall (section_fuel fuel) ss ->
  Forall chunk_wf cs -> concat cs = payload ep ss ->
  (length (concat (packet_bytes <$> cs)) <= n)%nat ->
  groups_wf gs -> text (concat gs) = concat (packet_bytes <$> cs) ++ rest ->
  uart_at (S ufuel) (encode gs) out u ->
  exists m' d',
    @download lzss (lzss_dev (S ufuel)) n fuel m (decompress_init (lzss_static u)) = Some (ep, m', d') /\
    forall s, In s ss ->
      forall i, 0 <= i < Z.max (Z.of_nat (length (sec_data s))) (sec_memsize s) ->
      mem_byte m' (sec_offset s + i) = arr (sec_data s) i.
Proof.
  intros Hep Hns Hwf Hdis Hfu Hcs Hcat Hn Hg Ht Hu.
  pose proof (init_lzss_at _ _ _ _ Hg Hu) as Hat. rewrite Ht in Hat.
  destruct (@download_image lzss _ (lzss_dev_spec ufuel) n fuel ep ss cs rest out m _ Hep Hns Hwf Hfu Hcs Hcat Hn Hat)
    as (d' & E & _).
  exists (load_image ss m), d'. split; [done|]. intros s Hs i Hi. by apply load_image_bytes.
Qed.

(** ** Witnesses *)

(** "ab", then "ababa" as an overlapping match, then a match of initial spaces. *)
Definition demo_groups : list (list token) := [[Lit 97; Lit 98; Match 958 5; Match 0 3]].

Lemma decompress_decodes_witness :
  exists s', @get_bytes lzss (lzss_dev 3) 10 (decompress_init (lzss_static (demo_uart (encode demo_groups))))
             = Some ([97; 98; 97; 98; 97; 98; 97; 32; 32; 32], s').
Proof.
  assert (text (concat demo_groups) = [97; 98; 97; 98; 97; 98; 97; 32; 32; 32]) as E by (vm_compute; reflexivity).
  rewrite <- E. change 10%nat with (length [97; 98; 97; 98; 97; 98; 97; 32; 32; 32]). rewrite <- E.
  apply (decompress_decodes 2 demo_groups []).
  - split; [discriminate|]. split; [cbn; lia|]. split; [|split; [intros H; by destruct H|exact I]].
    repeat (apply Forall_cons; [cbn; lia|]). constructor.
  - apply demo_uart_at.
Defined.

(** The demo image, compressed with literals only. *)
Fixpoint literal_groups (n : nat) (bs : list Z) : list (list token) :=
  match n with
  | O => []
  | S n => match bs with [] => [] | _ => (Lit <$> firstn 8 bs) :: literal_groups n (skipn 8 bs) end
  end.

Definition demo_packets : list Z := concat (packet_bytes <$> demo_chunks).

Lemma compressed_download_loads_image_witness :
  exists m' d',
    @download lzss (lzss_dev 3) 100 5 ∅
      (decompress_init (lzss_static (demo_uart (encode (literal_groups 100 demo_packets)))))
      = Some (0x1000, m', d') /\
    forall s, In s demo_sections ->
      forall i, 0 <= i < Z.max (Z.of_nat (length (sec_data s))) (sec_memsize s) ->
      mem_byte m' (sec_offset s + i) = arr (sec_data s) i.
Proof.
  apply (compressed_download_loads_image 100 2 5 (literal_groups 100 demo_packets) 0x1000 demo_sections
           demo_chunks [] []).
  - lia.
  - cbn. lia.
  - repeat constructor; cbn; lia.
  - constructor; [|by repeat constructor]. constructor; [left; vm_compute; discriminate|constructor].
  - repeat constructor; vm_compute; lia.
  - repeat constructor; try discriminate; vm_compute; try discriminate; lia.
  - vm_compute. reflexivity.
  - vm_compute. lia.
  - vm_compute literal_groups. cbn [groups_wf]. repeat split; try done; try (cbn; lia);
      repeat (apply Forall_cons; [cbn; lia|]); constructor.
  - vm_compute. reflexivity.
  - apply demo_uart_at.
Defined.
