(* ===== verification/EthBoot.v ===== *)
(** * Downloading over Ethernet

    src/c/bootloader/ethmac.c: the byte channel of the boot loader over UDP, on top of the
    Ethernet library. Its static variables are the record [ethmac]; the library's
    state is the machine. *)

From stdpp Require Import base gmap list numbers.
From Stdlib Require Import ZArith Lia.
From S2P Require Import Prelude Machine EthIO MacDriver Mac Ipv4 Arp Udp.

Local Open Scope Z_scope.
Local Open Scope c_scope.

Definition RX_ADDR : Z := 0x000.
Definition TX_ADDR : Z := 0x800.
Definition ARP_ADDR : Z := 0xc00.
Definition TARGET_PORT : Z := 8888.
Definition HOST_PORT : Z := 8889.

Record ethmac := Ethmac { available : Z; read_offset : Z; host_ip : list Z }.

Section EthMac.
Context `{Env}.

Definition ethmac_init (e : ethmac) : M ethmac :=
  eth_mac_initialize;;
  modify (fun s => set_arp_table (arp_table_init (arp_table s)) s);;
  modify (set_my_mac [0x00; 0xFF; 0xEE; 0xF0; 0xDA; 0x42]);;
  modify (set_my_ip [192; 168; 24; 50]);;
  mret (Ethmac 0 0 (host_ip e)).

(** One iteration of [while (!available)]. *)
Definition ethmac_poll (fuel : nat) (e : ethmac) : M (ethmac + ethmac) :=
  if negb (available e =? 0) then mret (inr e) else
  eth_mac_receive fuel RX_ADDR 0;;
  packet_type ← rdbuf (fun m => eth_protocol_value (mac_packet_type m RX_ADDR));
  e ← (if packet_type =? 2 then
         sp ← rdbuf (fun m => udp_get_source_port m RX_ADDR);
         dp ← rdbuf (fun m => udp_get_destination_port m RX_ADDR);
         if (sp =? HOST_PORT) && (dp =? TARGET_PORT) then
           n ← rdbuf (fun m => udp_get_data_length m RX_ADDR);
           ip ← rdbuf (fun m => ipv4_get_source_ip m RX_ADDR);
           mret (Ethmac n 0 ip)
         else mret e
       else mret e);
  (if packet_type =? 3 then arp_process_received fuel RX_ADDR TX_ADDR;; mret tt else mret tt);;
  mret (inl e).

Definition ethmac_get_byte (fuel : nat) (e : ethmac) : M (Z * ethmac) :=
  e ← loop fuel (ethmac_poll fuel) e;
  c ← rdbuf (fun m => mem_iord_byte m (RX_ADDR + 42 + read_offset e));
  mret (c, Ethmac (available e - 1) (read_offset e + 1) (host_ip e)).

Definition ethmac_put_byte (fuel : nat) (c : Z) (e : ethmac) : M unit :=
  udp_send fuel TX_ADDR ARP_ADDR (host_ip e) TARGET_PORT HOST_PORT [u8 c] 1 10000;;
  mret tt.

(** ** What the channel accepts *)

(** A byte that is left from a packet is returned at once. *)
Lemma ethmac_get_byte_available fuel e s :
  available e <> 0 ->
  ethmac_get_byte (S fuel) e s =
  Some ((mem_iord_byte (buff s) (RX_ADDR + 42 + read_offset e),
         Ethmac (available e - 1) (read_offset e + 1) (host_ip e)), s).
Proof.
  intros Ha. unfold ethmac_get_byte.
  rewrite (bind_some _ _ _ e s); [by rewrite bind_rdbuf|]. apply loop_exit.
  unfold ethmac_poll. by rewrite (proj2 (Z.eqb_neq _ _) Ha).
Qed.

(** What an iteration leaves: nothing accepted, or an ICMP frame. *)
Definition accepted (e : ethmac) (s : machine) : Prop :=
  available e <> 0 ->
  mac_packet_type (buff s) RX_ADDR = ICMP /\
  udp_get_source_port (buff s) RX_ADDR = HOST_PORT /\
  udp_get_destination_port (buff s) RX_ADDR = TARGET_PORT.

Lemma ethmac_poll_accepted fuel e s r s' :
  accepted e s -> ethmac_poll fuel e s = Some (r, s') ->
  match r with inl e' => accepted e' s' | inr e' => available e' <> 0 /\ accepted e' s' end.
Proof.
  intros Hacc. unfold ethmac_poll. destruct (Z.eqb_spec (available e) 0) as [E0|E0]; cbn [negb].
  2:{ intros [= <- <-]. done. }
  intros Hrun. apply bind_inv in Hrun as (x & s1 & _ & Hrun). rewrite bind_rdbuf in Hrun.
  destruct (mac_packet_type (buff s1) RX_ADDR) eqn:Et; cbn [eth_protocol_value] in Hrun;
    repeat match type of Hrun with context [if ?a =? ?b then _ else _] =>
      let v := eval vm_compute in (a =? b) in change (a =? b) with v in Hrun; cbv iota in Hrun end;
    rewrite ?bind_mret in Hrun;
    try (injection Hrun as <- <-; by intros Hn).
  - rewrite bind_eq, !bind_rdbuf in Hrun.
    destruct ((udp_get_source_port (buff s1) RX_ADDR =? HOST_PORT) &&
              (udp_get_destination_port (buff s1) RX_ADDR =? TARGET_PORT)) eqn:Ep.
    + rewrite !bind_rdbuf in Hrun. cbn in Hrun. injection Hrun as <- <-.
      apply andb_true_iff in Ep as [E1%Z.eqb_eq E2%Z.eqb_eq]. by intros _.
    + cbn in Hrun. injection Hrun as <- <-. by intros Hn.
  - apply bind_inv in Hrun as (y & s2 & _ & Hrun). injection Hrun as <- <-. by intros Hn.
Qed.

(** [ethmac_get_byte] compares the packet type with 2 and 3, which are ICMP and
    UDP in [enum eth_protocol]: when no byte is left, it returns only after a frame
    that is an ICMP packet (with the port numbers where a UDP header would have
    them), never on a UDP packet. *)
Theorem ethmac_get_byte_only_icmp fuel e s c e' s' :
  available e = 0 -> ethmac_get_byte fuel e s = Some ((c, e'), s') ->
  mac_packet_type (buff s') RX_ADDR = ICMP /\
  udp_get_source_port (buff s') RX_ADDR = HOST_PORT /\
  udp_get_destination_port (buff s') RX_ADDR = TARGET_PORT /\
  c = mem_iord_byte (buff s') (RX_ADDR + 42 + (read_offset e' - 1)).
Proof.
  intros Ha Hrun. unfold ethmac_get_byte in Hrun.
  apply bind_inv in Hrun as (e1 & s1 & Hloop & Hrun). rewrite bind_rdbuf in Hrun.
  injection Hrun as <- <- <-. cbn [read_offset].
  assert (available e1 <> 0 /\ accepted e1 s1) as [Hn Hacc].
  { apply (loop_inv accepted (fun e s => available e <> 0 /\ accepted e s) fuel (ethmac_poll fuel) e s);
      [| |by intros Hn|done].
    - intros x t x' t' HI E. apply (ethmac_poll_accepted fuel x t _ _ HI E).
    - intros x t a t' HI E. apply (ethmac_poll_accepted fuel x t _ _ HI E). }
  destruct (Hacc Hn) as (E1 & E2 & E3). repeat (split; [done|]).
  by replace (read_offset e1 + 1 - 1) with (read_offset e1) by lia.
Qed.

End EthMac.

(** ** Witness: an ICMP packet with the right numbers at the place of the ports *)

Definition icmp_machine : machine :=
  set_buff (fun m => fold_left (fun m kv => mem_iowr_byte kv.1 kv.2 m)
    [(12, 0x08); (13, 0x00); (23, 0x01); (34, 0x22); (35, 0xB9); (36, 0x22); (37, 0xB8);
     (38, 0); (39, 9); (42, 7)] m) init_machine.

Lemma ethmac_get_byte_only_icmp_witness :
  exists c e' s', @ethmac_get_byte busy_env 5 (Ethmac 0 0 [0; 0; 0; 0]) icmp_machine = Some ((c, e'), s') /\
    mac_packet_type (buff s') RX_ADDR = ICMP.
Proof.
  destruct (@ethmac_get_byte busy_env 5 (Ethmac 0 0 [0; 0; 0; 0]) icmp_machine) as [[[c e'] s']|] eqn:E;
    [|vm_compute in E; discriminate].
  exists c, e', s'. split; [done|].
  exact (proj1 (@ethmac_get_byte_only_icmp busy_env 5 (Ethmac 0 0 [0; 0; 0; 0]) icmp_machine c e' s' eq_refl E)).
Defined.
