(* ===== verification/Bootloader.v ===== *)
(** * The boot handshake of the cores

    [main] of src/c/bootloader/bootloader.c: all cores run it at the same time and meet
    through [boot_info] in uncached shared memory. The model is a transition system:
    the master (core 0) and the slaves (cores 1 to [cpucnt - 1]) each have a program
    counter, and a step executes one access to the shared variables of one core, in
    any interleaving; the initial delay is no step of its own because a core may be
    delayed everywhere. The entry point is read twice, for the check and for the call.
    The result of [download()] and of the application is any value (download.c is the
    component [Download]). Only the four writes that
    clear a slave's entry are one step: no other access of the loader depends on the
    last three. The copy to the I-SPM, the cache control and the memory mode are
    local to a core and left out.

    The values of the [STATUS_] constants are in the C library's machine/boot.h; only
    their being different matters. *)

From stdpp Require Import base gmap list numbers.
From Stdlib Require Import ZArith Lia.
From S2P Require Import Prelude.

Local Open Scope Z_scope.
Local Open Scope c_scope.

(** ** State *)

Inductive status := STATUS_NULL | STATUS_BOOT | STATUS_INIT | STATUS_INITDONE | STATUS_RETURN.

#[global] Instance status_eq_dec : EqDecision status.
Proof. solve_decision. Defined.

Record slave_info := SlaveInfo {
  sl_status : status;
  return_val : Z;
  param : Z;
  funcpoint : Z
}.

(** Where the master is; the loops carry their index. *)
Inductive master_pc :=
| MStart                (* boot_info->master.status = STATUS_NULL *)
| MEntry                (* boot_info->master.entrypoint = NULL *)
| MClear (i : nat)      (* clear slave[i] *)
| MBoot (k : nat)       (* the k-th write of STATUS_BOOT *)
| MDownload             (* entrypoint = download() *)
| MInit                 (* notify slaves that they can call _start() *)
| MWaitInit (i : nat)   (* while (slave[i].status != STATUS_INIT) *)
| MCall                 (* if (master.entrypoint != NULL) *)
| MEnter                (* the call reads master.entrypoint again *)
| MRun (ep : Z)         (* in the application, at the address [ep] *)
| MRet (r : Z)          (* slave[0].return_val = retval *)
| MCheckRet (i : nat) (r : Z)   (* if (slave[i].status != STATUS_NULL) *)
| MWaitRet (i : nat) (r : Z)    (* while (slave[i].status != STATUS_RETURN) *)
| MPrint (r : Z)        (* exit magic and return code *)
| MReturn               (* master.status = STATUS_RETURN *)
| MWaitLeave (i : nat). (* while (slave[i].status == STATUS_RETURN) *)

Inductive slave_pc :=
| SStart | SEntry | SClear
| SBoot                 (* make sure the own status is visible *)
| SCheckBoot            (* while (master.status != STATUS_BOOT) *)
| SWaitInit             (* while (master.status != STATUS_INIT) *)
| SAck                  (* acknowledge reception of start status *)
| SCall                 (* if (master.entrypoint != NULL) *)
| SEnter                (* the call reads master.entrypoint again *)
| SRun (ep : Z)         (* in the application, at the address [ep] *)
| SRet (r : Z)
| SReturn               (* notify master that application has returned *)
| SCheckReturn          (* while (master.status != STATUS_RETURN) *)
| SLeave.               (* slave[cpuid].status = STATUS_NULL *)

Record boot := Boot {
  m_status : status;
  m_entry : Z;
  info : nat -> slave_info;
  m_pc : master_pc;
  s_pc : nat -> slave_pc;
  output : list Z;
  downloaded : Z          (* ghost: what the last [download()] returned *)
}.

Definition upd {A} (f : nat -> A) (i : nat) (a : A) : nat -> A :=
  fun j => if Nat.eqb i j then a else f j.

Definition set_slave_status (v : status) (s : slave_info) : slave_info :=
  SlaveInfo v (return_val s) (param s) (funcpoint s).
Definition set_return (v : Z) (s : slave_info) : slave_info :=
  SlaveInfo (sl_status s) v (param s) (funcpoint s).
Definition cleared : slave_info := SlaveInfo STATUS_NULL (-1) 0 0.

(** ** Steps *)

Section Cores.
Context (cpucnt : nat).

(** The next value of a loop [for (i = 1; i < get_cpucnt(); i++)]. *)
Definition for_slaves (i : nat) (body : nat -> master_pc) (done : master_pc) : master_pc :=
  if Nat.ltb i cpucnt then body i else done.

(** A step of the master; [v] is the result of the download or of the application. *)
Definition master_step (v : Z) (b : boot) : boot :=
  let '(Boot st ep inf pc sp out dl) := b in
  let goto pc := Boot st ep inf pc sp out dl in
  match pc with
  | MStart => Boot STATUS_NULL ep inf MEntry sp out dl
  | MEntry => Boot st 0 inf (for_slaves 0 MClear (MBoot 0)) sp out dl
  | MClear i => Boot st ep (upd inf i cleared) (for_slaves (S i) MClear (MBoot 0)) sp out dl
  | MBoot k => Boot STATUS_BOOT ep inf (if Nat.ltb (S k) 0x10 then MBoot (S k) else MDownload) sp out dl
  | MDownload => Boot st v inf MInit sp out v
  | MInit => Boot STATUS_INIT ep inf (for_slaves 1 MWaitInit MCall) sp out dl
  | MWaitInit i =>
      if decide (sl_status (inf i) <> STATUS_INIT) then b
      else goto (for_slaves (S i) MWaitInit MCall)
  | MCall => goto (if ep =? 0 then for_slaves 1 (fun i => MCheckRet i (-1)) (MPrint (-1)) else MEnter)
  | MEnter => goto (MRun ep)
  | MRun _ => goto (MRet v)
  | MRet r => Boot st ep (upd inf 0 (set_return r (inf 0%nat)))
                (for_slaves 1 (fun i => MCheckRet i r) (MPrint r)) sp out dl
  | MCheckRet i r =>
      goto (if decide (sl_status (inf i) <> STATUS_NULL) then MWaitRet i r
            else for_slaves (S i) (fun i => MCheckRet i r) (MPrint r))
  | MWaitRet i r =>
      if decide (sl_status (inf i) <> STATUS_RETURN) then b
      else goto (for_slaves (S i) (fun i => MCheckRet i r) (MPrint r))
  | MPrint r => Boot st ep inf MReturn sp (out ++ [0; 120; r .& 0xff]) dl
  | MReturn => Boot STATUS_RETURN ep inf (for_slaves 1 MWaitLeave MStart) sp out dl
  | MWaitLeave i =>
      if decide (sl_status (inf i) = STATUS_RETURN) then b
      else goto (for_slaves (S i) MWaitLeave MStart)
  end.

(** A step of slave [j]. *)
Definition slave_step (j : nat) (v : Z) (b : boot) : boot :=
  let '(Boot st ep inf pc sp out dl) := b in
  let goto p := Boot st ep inf pc (upd sp j p) out dl in
  let own f p := Boot st ep (upd inf j (f (inf j))) pc (upd sp j p) out dl in
  match sp j with
  | SStart => Boot STATUS_NULL ep inf pc (upd sp j SEntry) out dl
  | SEntry => Boot st 0 inf pc (upd sp j SClear) out dl
  | SClear => own (fun _ => cleared) SBoot
  | SBoot => own (set_slave_status STATUS_BOOT) SCheckBoot
  | SCheckBoot => goto (if decide (st <> STATUS_BOOT) then SBoot else SWaitInit)
  | SWaitInit => if decide (st <> STATUS_INIT) then b else goto SAck
  | SAck => own (set_slave_status STATUS_INIT) SCall
  | SCall => goto (if ep =? 0 then SReturn else SEnter)
  | SEnter => goto (SRun ep)
  | SRun _ => goto (SRet v)
  | SRet r => own (set_return r) SReturn
  | SReturn => own (set_slave_status STATUS_RETURN) SCheckReturn
  | SCheckReturn => goto (if decide (st <> STATUS_RETURN) then SReturn else SLeave)
  | SLeave => own (set_slave_status STATUS_NULL) SStart
  end.

Inductive boot_step : boot -> boot -> Prop :=
| step_master v b : boot_step b (master_step v b)
| step_slave j v b : (1 <= j < cpucnt)%nat -> boot_step b (slave_step j v b).

(** After power-on: every core at its start, anything in memory. *)
Definition boot_init (b : boot) : Prop := m_pc b = MStart /\ forall j, s_pc b j = SStart.

Inductive reachable : boot -> Prop :=
| reach_init b : boot_init b -> reachable b
| reach_step b b' : reachable b -> boot_step b b' -> reachable b'.

(** ** Where the master can be, seen from a slave *)

(** The master has not passed slave [j] when it waits for its start. *)
Definition before_init (j : nat) (pc : master_pc) : Prop :=
  match pc with
  | MBoot k => (0 < k)%nat
  | MDownload | MInit => True
  | MWaitInit i => (i <= j)%nat
  | _ => False
  end.

(** The master has notified, and has not passed [j]. *)
Definition notified (j : nat) (pc : master_pc) : Prop :=
  match pc with MWaitInit i => (i <= j)%nat | _ => False end.

(** ... or has not yet seen that [j]'s application returned. *)
Definition running (j : nat) (pc : master_pc) : Prop :=
  match pc with
  | MWaitInit _ | MCall | MEnter | MRun _ | MRet _ => True
  | MCheckRet i _ | MWaitRet i _ => (i <= j)%nat
  | _ => False
  end.

(** ... or has not yet seen that [j] has left. *)
Definition returned (j : nat) (pc : master_pc) : Prop :=
  match pc with
  | MWaitInit _ | MCall | MEnter | MRun _ | MRet _ | MCheckRet _ _ | MWaitRet _ _ | MPrint _ | MReturn => True
  | MWaitLeave i => (i <= j)%nat
  | _ => False
  end.

(** Slave [j] is at the beginning: the master has not passed it, or waits for others
    to leave. *)
Definition early (j : nat) (pc : master_pc) : Prop :=
  match pc with
  | MStart | MEntry | MClear _ | MBoot _ | MDownload | MInit | MWaitLeave _ => True
  | MWaitInit i => (i <= j)%nat
  | _ => False
  end.

(** The master has not cleared slave [j]'s entry in this round. *)
Definition uncleared (j : nat) (pc : master_pc) : Prop :=
  match pc with MStart | MEntry => True | MClear i => (i <= j)%nat | _ => False end.

Definition after_download (pc : master_pc) : Prop :=
  match pc with
  | MInit | MWaitInit _ | MCall | MEnter | MRun _ | MRet _ | MCheckRet _ _ | MWaitRet _ _ | MPrint _
  | MReturn | MWaitLeave _ => True
  | _ => False
  end.

(** ** The invariant *)

Definition slave_inv (j : nat) (b : boot) : Prop :=
  let st := sl_status (info b j) in
  let pc := m_pc b in
  match s_pc b j with
  | SStart | SEntry | SClear => early j pc /\ (uncleared j pc \/ st = STATUS_NULL \/ st = STATUS_BOOT)
  | SBoot | SCheckBoot => early j pc /\ (st = STATUS_NULL \/ st = STATUS_BOOT)
  | SWaitInit => before_init j pc /\ (st = STATUS_NULL \/ st = STATUS_BOOT)
  | SAck => notified j pc /\ (st = STATUS_NULL \/ st = STATUS_BOOT)
  | SCall | SRet _ => running j pc /\ st = STATUS_INIT
  | SEnter => running j pc /\ st = STATUS_INIT /\ (m_entry b <> 0 \/ (2 < cpucnt)%nat)
  | SRun ep => running j pc /\ st = STATUS_INIT /\ (ep <> 0 \/ (2 < cpucnt)%nat) /\ (ep = 0 \/ ep = downloaded b)
  | SReturn => (running j pc /\ st = STATUS_INIT) \/ (returned j pc /\ st = STATUS_RETURN)
  | SCheckReturn => returned j pc /\ st = STATUS_RETURN
  | SLeave => match pc with MWaitLeave i => (i <= j)%nat | _ => False end /\ st = STATUS_RETURN
  end.

(** What the shared status says about the master, once a core has started. *)
Definition status_inv (b : boot) : Prop :=
  (m_pc b = MStart /\ forall j, (1 <= j < cpucnt)%nat -> s_pc b j = SStart) \/
  match m_status b with
  | STATUS_NULL => True
  | STATUS_BOOT => match m_pc b with MBoot k => (0 < k)%nat | MDownload | MInit => True | _ => False end
  | STATUS_INIT =>
      match m_pc b with
      | MWaitInit _ | MCall | MEnter | MRun _ | MRet _ | MCheckRet _ _ | MWaitRet _ _ | MPrint _ | MReturn => True
      | _ => False
      end
  | STATUS_INITDONE => False
  | STATUS_RETURN => match m_pc b with MWaitLeave _ | MStart => True | _ => False end
  end.

Record boot_inv (b : boot) : Prop := {
  inv_status : status_inv b;
  inv_slave j : (1 <= j < cpucnt)%nat -> slave_inv j b;
  inv_entry : after_download (m_pc b) -> m_entry b = 0 \/ m_entry b = downloaded b;
  inv_run : match m_pc b with
            | MEnter => m_entry b <> 0
            | MRun ep => ep <> 0 /\ ep = downloaded b
            | _ => True
            end
}.

(** ** The invariant holds *)

Lemma upd_eq {A} (f : nat -> A) i a : upd f i a i = a.
Proof. unfold upd. by rewrite Nat.eqb_refl. Qed.

Lemma upd_ne {A} (f : nat -> A) i j a : i <> j -> upd f i a j = f j.
Proof. unfold upd. intros H. by destruct (Nat.eqb_spec i j). Qed.

(** Decide the guards of a step. *)
Ltac guards :=
  unfold for_slaves in *;
  repeat match goal with
  | |- context [Nat.ltb ?a ?b] => destruct (Nat.ltb_spec a b)
  | |- context [decide ?P] => destruct (decide P)
  | |- context [?a =? 0] => destruct (Z.eqb_spec a 0)
  end.

Ltac boot_auto :=
  cbn [m_status m_entry info m_pc s_pc output downloaded early before_init notified running returned
       uncleared after_download] in *;
  intuition (try lia; try congruence; subst; eauto).

Lemma init_inv b : boot_init b -> boot_inv b.
Proof.
  intros [Hm Hs]. split.
  - left. auto.
  - intros j _. unfold slave_inv. rewrite Hs, Hm. cbn. auto.
  - rewrite Hm. done.
  - by rewrite Hm.
Qed.

Lemma master_status v b : boot_inv b -> status_inv (master_step v b).
Proof.
  intros [Hst _ _ _]. destruct b as [st ep inf pc sp out dl]. unfold status_inv in *.
  destruct pc; cbn [master_step m_status m_pc s_pc info] in *; guards;
    destruct st; boot_auto; try discriminate.
Qed.

(** The master's steps, seen by slave [j]. *)
Lemma master_slave v b j : (1 <= j < cpucnt)%nat -> boot_inv b -> slave_inv j (master_step v b).
Proof.
  intros Hj [_ Hsl _ _]. specialize (Hsl j Hj). destruct b as [st ep inf pc sp out dl].
  unfold slave_inv in *. cbn [info m_pc s_pc downloaded] in Hsl.
  destruct pc as [| |i|k| | |i| | |e|r|i r|i r|r| |i]; cbn [master_step]; guards;
    cbn [info m_pc s_pc downloaded]; try exact Hsl;
    try (destruct (decide (i = j)) as [->|]; [rewrite ?upd_eq|rewrite ?upd_ne by done]);
    try (rewrite upd_ne by lia);
    destruct (sp j); boot_auto.
Qed.

Lemma master_inv v b : boot_inv b -> boot_inv (master_step v b).
Proof.
  intros Hinv. split; [by apply master_status|intros j Hj; by apply master_slave|..].
  all: destruct Hinv as [_ _ Hen Hrun]; destruct b as [st ep inf pc sp out dl].
  all: destruct pc; cbn [master_step]; guards; boot_auto.
Qed.

Lemma slave_own j v b : (1 <= j < cpucnt)%nat -> boot_inv b -> slave_inv j (slave_step j v b).
Proof.
  intros Hj [Hst Hsl Hen _]. specialize (Hsl j Hj). destruct b as [st ep inf pc sp out dl].
  unfold slave_inv in Hsl. cbn [info m_pc s_pc downloaded m_entry] in Hsl, Hen.
  assert (sp j <> SStart -> match st with
    | STATUS_NULL => True
    | STATUS_BOOT => match pc with MBoot k => (0 < k)%nat | MDownload | MInit => True | _ => False end
    | STATUS_INIT =>
        match pc with
        | MWaitInit _ | MCall | MEnter | MRun _ | MRet _ | MCheckRet _ _ | MWaitRet _ _ | MPrint _ | MReturn => True
        | _ => False
        end
    | STATUS_INITDONE => False
    | STATUS_RETURN => match pc with MWaitLeave _ | MStart => True | _ => False end
    end) as Hs.
  { destruct Hst as [[_ H]|H]; [|done]. intros Hne. destruct Hne. by apply H. }
  clear Hst. unfold slave_inv, slave_step.
  destruct (sp j) eqn:E; guards; cbn [info m_pc s_pc downloaded]; rewrite ?upd_eq;
    cbn [sl_status set_slave_status set_return cleared]; rewrite ?E;
    destruct pc; boot_auto; try discriminate; destruct st; boot_auto; try discriminate.
Qed.

Lemma slave_other i j v b :
  (1 <= i < cpucnt)%nat -> (1 <= j < cpucnt)%nat -> i <> j -> slave_inv i b -> slave_inv i (slave_step j v b).
Proof.
  intros Bi Bj Hne Hi. destruct b as [st ep inf pc sp out dl]. unfold slave_inv, slave_step in *.
  destruct (sp j) eqn:E; guards; cbn [info m_pc s_pc m_entry downloaded] in *;
    rewrite ?upd_ne by done; try done.
  destruct (sp i); intuition lia.
Qed.

Lemma slave_status j v b : (1 <= j < cpucnt)%nat -> boot_inv b -> status_inv (slave_step j v b).
Proof.
  intros Hj [Hst _ _ _]. destruct b as [st ep inf pc sp out dl]. right.
  unfold status_inv, slave_step in *. cbn [m_status m_pc s_pc] in *.
  destruct Hst as [[_ H]|H]; [rewrite (H j Hj); done|].
  destruct (sp j) eqn:E; guards; cbn [m_status m_pc s_pc]; done.
Qed.

Lemma slave_step_pc j v b : m_pc (slave_step j v b) = m_pc b /\ downloaded (slave_step j v b) = downloaded b /\
  (m_entry (slave_step j v b) = m_entry b \/ m_entry (slave_step j v b) = 0).
Proof.
  destruct b as [st ep inf pc sp out dl]. unfold slave_step. destruct (sp j); guards; cbn; auto.
Qed.

(** When the master calls the entry point no slave is at its start. *)
Lemma slave_keeps_entry j v b :
  slave_inv j b -> m_pc b = MEnter -> m_entry (slave_step j v b) = m_entry b.
Proof.
  intros Hi Em. destruct b as [st ep inf pc sp out dl]. unfold slave_inv, slave_step in *. cbn [m_pc s_pc] in *. subst pc.
  destruct (sp j); guards; cbn in *; tauto.
Qed.

Lemma boot_step_inv b b' : boot_inv b -> boot_step b b' -> boot_inv b'.
Proof.
  intros Hinv Hstep. destruct Hstep as [v b|j v b Hj]; [by apply master_inv|].
  destruct (slave_step_pc j v b) as (Epc & Edl & Een). split.
  - by apply slave_status.
  - intros i Hi. destruct (decide (i = j)) as [->|Hne]; [by apply slave_own|].
    apply slave_other; [done..|]. by apply Hinv.
  - rewrite Epc, Edl. intros H. destruct Een as [->| ->]; [by apply Hinv|by left].
  - rewrite Epc, Edl. pose proof (slave_keeps_entry j v b (inv_slave _ Hinv j Hj)) as He.
    pose proof (inv_run _ Hinv) as Hr. destruct (m_pc b); rewrite ?He; done.
Qed.

Lemma reachable_inv b : reachable b -> boot_inv b.
Proof. induction 1; [by apply init_inv|by eapply boot_step_inv]. Qed.

End Cores.

(** ** Properties *)

(** Claim C19. Safety of the handshake, in every interleaving of the accesses of the cores and from
    any contents of memory. The master enters the application only at a non-null entry point that
    is the result of the last download. A slave enters it only when that download is complete, at
    its result or at NULL, and at NULL only if there are more than two cores: the entry point is
    read a second time for the call, and a slave that starts late may have stored NULL since the
    check ([boot_can_call_null]). Neither a download nor the printing of the exit code happens
    while a slave is in the application. *)
Theorem boot_safety cpucnt b :
  reachable cpucnt b ->
  (forall ep, m_pc b = MRun ep -> ep <> 0 /\ ep = downloaded b) /\
  (forall j ep, (1 <= j < cpucnt)%nat -> s_pc b j = SRun ep ->
     after_download (m_pc b) /\ (ep = 0 \/ ep = downloaded b) /\ (ep = 0 -> (2 < cpucnt)%nat)) /\
  ((m_pc b = MDownload \/ exists r, m_pc b = MPrint r) ->
     forall j ep, (1 <= j < cpucnt)%nat -> s_pc b j <> SRun ep).
Proof.
  intros Hr. destruct (reachable_inv _ _ Hr) as [_ Hsl _ Hrun]. split; [|split].
  - intros ep E. by rewrite E in Hrun.
  - intros j ep Hj E. specialize (Hsl j Hj). unfold slave_inv in Hsl. rewrite E in Hsl.
    destruct Hsl as (Hpc & _ & Hne & Hep). split; [by destruct (m_pc b)|]. split; [done|]. by destruct Hne.
  - intros Hm j ep Hj E. specialize (Hsl j Hj). unfold slave_inv in Hsl. rewrite E in Hsl.
    destruct Hsl as (Hpc & _). by destruct Hm as [Em|[r Em]]; rewrite Em in Hpc.
Qed.

(** Running a schedule: core numbers with the results of downloads and applications. *)
Definition run_step (cpucnt : nat) (b : boot) (c : nat * Z) : boot :=
  match c with (O, v) => master_step cpucnt v b | (j, v) => slave_step j v b end.

Definition run_schedule (cpucnt : nat) (cs : list (nat * Z)) (b : boot) : boot :=
  fold_left (run_step cpucnt) cs b.

Lemma run_schedule_reachable cpucnt cs b :
  Forall (fun c => c.1 < cpucnt)%nat cs -> reachable cpucnt b -> reachable cpucnt (run_schedule cpucnt cs b).
Proof.
  intros Hcs. revert b. induction Hcs as [|[[|j] v] cs Hc _ IH]; intros b Hb; [done|..];
    apply IH, (reach_step _ b); try done; constructor; cbn in Hc; lia.
Qed.

(** Power-on with leftovers of a previous run in memory. *)
Definition power_on : boot :=
  Boot STATUS_INIT 77 (fun _ => SlaveInfo STATUS_RETURN 0 0 0) MStart (fun _ => SStart) [] 0.

Lemma power_on_reachable cpucnt : reachable cpucnt power_on.
Proof. apply reach_init. by split. Qed.

(** Two slaves start, the master downloads an image with entry point 64 and the
    slaves enter it. *)
Definition start_schedule : list (nat * Z) :=
  replicate 4 (1%nat, 0) ++ replicate 4 (2%nat, 0) ++ replicate 6 (0%nat, 0) ++
  [(1%nat, 0); (2%nat, 0)] ++ replicate 15 (0%nat, 0) ++ [(0%nat, 64); (0%nat, 0)] ++
  replicate 4 (1%nat, 0) ++ replicate 4 (2%nat, 0).

Lemma boot_safety_witness :
  let b := run_schedule 3 start_schedule power_on in
  s_pc b 1%nat = SRun 64 /\ s_pc b 2%nat = SRun 64 /\
  after_download (m_pc b) /\ (64 = 0 \/ 64 = downloaded b).
Proof.
  intros b. assert (s_pc b 1%nat = SRun 64) as E by (vm_compute; reflexivity).
  split; [exact E|]. split; [vm_compute; reflexivity|].
  assert (reachable 3 b) as Hr.
  { apply run_schedule_reachable; [|apply power_on_reachable]. repeat (apply Forall_cons; [cbn; lia|]). constructor. }
  destruct (boot_safety 3 b Hr) as (_ & H & _). destruct (H 1%nat 64 ltac:(lia) E) as (H1 & H2 & _). by split.
Defined.

(** Slave 1 is late: it has stored [STATUS_NULL] and is about to store NULL as the entry point. The
    others start; slave 2 finds the entry point 64, slave 1 stores NULL, slave 2 calls it. *)
Definition null_schedule : list (nat * Z) :=
  [(1%nat, 0)] ++ replicate 4 (2%nat, 0) ++ replicate 6 (0%nat, 0) ++ [(2%nat, 0)] ++
  replicate 15 (0%nat, 0) ++ [(0%nat, 64); (0%nat, 0)] ++ replicate 3 (2%nat, 0) ++ [(1%nat, 0); (2%nat, 0)].

(** The check of the entry point does not protect the call: with two slaves one can call NULL,
    after a download that succeeded. *)
Theorem boot_can_call_null :
  exists b, reachable 3 b /\ downloaded b = 64 /\ s_pc b 2%nat = SRun 0.
Proof.
  exists (run_schedule 3 null_schedule power_on). split; [|split; vm_compute; reflexivity].
  apply run_schedule_reachable; [|apply power_on_reachable]. repeat (apply Forall_cons; [cbn; lia|]). constructor.
Qed.

(** The applications return, the master says so; slave 1 sees it and starts over,
    before slave 2 has looked. *)
Definition race_schedule : list (nat * Z) :=
  start_schedule ++ replicate 2 (0%nat, 0) ++ replicate 3 (1%nat, 0) ++ replicate 3 (2%nat, 0) ++
  replicate 10 (0%nat, 0) ++
  replicate 3 (1%nat, 0) ++ [(0%nat, 0)].

Inductive steps (cpucnt : nat) (b : boot) : boot -> Prop :=
| steps_refl : steps cpucnt b b
| steps_step b1 b2 : steps cpucnt b b1 -> boot_step cpucnt b1 b2 -> steps cpucnt b b2.

(** The master waits for slave 2 to leave, slave 2 for the status that slave 1 has
    overwritten, and slave 1 for the master to boot. *)
Definition locked (b : boot) : Prop :=
  m_status b = STATUS_NULL /\ m_pc b = MWaitLeave 2 /\ sl_status (info b 2%nat) = STATUS_RETURN /\
  (s_pc b 2%nat = SReturn \/ s_pc b 2%nat = SCheckReturn) /\
  (s_pc b 1%nat = SEntry \/ s_pc b 1%nat = SClear \/ s_pc b 1%nat = SBoot \/ s_pc b 1%nat = SCheckBoot).

Lemma locked_step b b' : locked b -> boot_step 3 b b' -> locked b'.
Proof.
  intros (Hst & Hm & Hi & Hs2 & Hs1) Hstep. destruct Hstep as [v b|j v b Hj];
    destruct b as [st ep inf pc sp out dl]; unfold locked in *; cbn in *; subst.
  - by rewrite Hi.
  - assert (j = 1 \/ j = 2)%nat as [->| ->] by lia; unfold slave_step.
    + destruct Hs1 as [E|[E|[E|E]]]; rewrite E; cbn; auto 10.
    + destruct Hs2 as [E|E]; rewrite E; cbn; auto 10.
Qed.

(** The download fails; the slave acknowledges the start and, with no application to
    run, reports its return before the master has looked for the acknowledgement. *)
Definition failed_schedule : list (nat * Z) :=
  replicate 4 (1%nat, 0) ++ replicate 5 (0%nat, 0) ++ [(1%nat, 0)] ++ replicate 17 (0%nat, 0) ++
  replicate 4 (1%nat, 0).

Definition locked_start (b : boot) : Prop :=
  m_status b = STATUS_INIT /\ m_pc b = MWaitInit 1 /\ sl_status (info b 1%nat) = STATUS_RETURN /\
  (s_pc b 1%nat = SReturn \/ s_pc b 1%nat = SCheckReturn).

Lemma locked_start_step b b' : locked_start b -> boot_step 2 b b' -> locked_start b'.
Proof.
  intros (Hst & Hm & Hi & Hs) Hstep. destruct Hstep as [v b|j v b Hj];
    destruct b as [st ep inf pc sp out dl]; unfold locked_start in *; cbn in *; subst.
  - by rewrite Hi.
  - assert (j = 1)%nat as -> by lia. unfold slave_step. destruct Hs as [E|E]; rewrite E; cbn; auto 10.
Qed.

(** The handshake can lock up. With one slave, there is an execution in which the
    download fails and the master waits for the slave's [STATUS_INIT] forever, because
    the slave has already replaced it with [STATUS_RETURN]. With two slaves, there is
    one in which the master waits forever for a slave to leave: the other one,
    starting over, wrote [STATUS_NULL] over the master's [STATUS_RETURN] before it was read
    (only the delay at the start of [main] stands against this one). *)
Theorem boot_can_lock_up :
  (exists b, reachable 2 b /\ downloaded b = 0 /\ forall b', steps 2 b b' -> m_pc b' = MWaitInit 1) /\
  (exists b, reachable 3 b /\ downloaded b = 64 /\ forall b', steps 3 b b' -> m_pc b' = MWaitLeave 2).
Proof.
  split.
  - exists (run_schedule 2 failed_schedule power_on). split; [|split; [vm_compute; reflexivity|]].
    + apply run_schedule_reachable; [|apply power_on_reachable].
      repeat (apply Forall_cons; [cbn; lia|]). constructor.
    + intros b' Hs. assert (locked_start b') as H; [|apply H].
      induction Hs as [|b1 b2 _ IH Hstep]; [|by eapply locked_start_step].
      unfold locked_start. vm_compute. auto 10.
  - exists (run_schedule 3 race_schedule power_on). split; [|split; [vm_compute; reflexivity|]].
    + apply run_schedule_reachable; [|apply power_on_reachable].
      repeat (apply Forall_cons; [cbn; lia|]). constructor.
    + intros b' Hs. assert (locked b') as H; [|apply H].
      induction Hs as [|b1 b2 _ IH Hstep]; [|by eapply locked_step].
      unfold locked. vm_compute. auto 10.
Qed.
