(* ===== verification/CoreThread.v ===== *)
(** * Core threads

    src/c/libcorethread/corethread.c: a program on one core starts functions on other cores and
    waits for their results, through [boot_info] in uncached shared memory. The cores are
    interleaved in any way, one access to the shared memory at a time, as in Bootloader.

    The other side of the protocol is [corethread_worker], which each of the other cores runs.
    The file has it as a comment at its beginning (the start-up code of the C library took its
    place), and this is the text that is modelled. The waits of ten microseconds are no steps of
    their own because a core may be delayed everywhere.

    What is proved: the calls return what they would return if each thread ran at once, and each
    thread that was created runs once, with its argument; and that a program of calls can get
    stuck in [corethread_create], in two ways, and in no other place or way. *)

From stdpp Require Import base list numbers.
From Stdlib Require Import ZArith Lia.
From S2P Require Import Prelude Bootloader.

Local Open Scope Z_scope.

(** ** State *)

Definition EAGAIN : Z := 1.

(** The calls of a program, and what they return: the code, and for a join the value. *)
Inductive call := Create (core : nat) (f a : Z) | Join (core : nat).
Definition reply : Type := Z * option Z.

Definition set_param (a : Z) (s : slave_info) : slave_info :=
  SlaveInfo (sl_status s) (return_val s) a (funcpoint s).
Definition set_funcpoint (f : Z) (s : slave_info) : slave_info :=
  SlaveInfo (sl_status s) (return_val s) (param s) f.

(** Where the program is, on the master core. *)
Inductive caller_pc :=
| CIdle                           (* between two calls *)
| CStatus (j : nat) (f a : Z)     (* slave[core_id].status != STATUS_INITDONE *)
| CFunc (j : nat) (f a : Z)       (* slave[core_id].funcpoint == NULL *)
| CParam (j : nat) (f a : Z)      (* slave[core_id].param = arg *)
| CSetFunc (j : nat) (f a : Z)    (* slave[core_id].funcpoint = start_routine *)
| CWait (j : nat) (f a : Z)       (* while (slave[core_id].status != STATUS_INITDONE) *)
| JWait (j : nat)                 (* while (slave[core_id].status != STATUS_RETURN) *)
| JRead (j : nat)                 (* *retval = slave[core_id].return_val *)
| JClear (j : nat) (v : Z)        (* slave[core_id].funcpoint = NULL *)
| CReturned.                      (* the program has returned *)

Inductive worker_pc :=
| WInit                           (* slave[id].status = STATUS_RETURN *)
| WCheck                          (* while (master.status != STATUS_RETURN) *)
| WFunc                           (* if (slave[id].funcpoint != NULL) *)
| WRead                           (* funcpoint = slave[id].funcpoint *)
| WRet (f : Z)                    (* slave[id].return_val = -1 *)
| WAck (f : Z)                    (* slave[id].status = STATUS_INITDONE *)
| WArg (f : Z)                    (* the argument slave[id].param *)
| WRun (f a : Z)                  (* in the function *)
| WExitValue (v : Z)              (* corethread_exit: slave[id].return_val = retval *)
| WExitStatus                     (* corethread_exit: slave[id].status = STATUS_RETURN *)
| WDone                           (* slave[id].status = STATUS_RETURN *)
| WSpin                           (* while (slave[id].funcpoint != NULL) *)
| WLeave                          (* after the loop: slave[id].status = STATUS_RETURN *)
| WEnd.                           (* exit(0) *)

#[global] Instance worker_pc_eq_dec : EqDecision worker_pc.
Proof. solve_decision. Defined.

Record sys := Sys {
  master_status : status;
  slaves : nat -> slave_info;
  caller : caller_pc;
  worker : nat -> worker_pc;
  todo : list call;                   (* the calls that are left *)
  history : list (call * reply);      (* the calls that have returned *)
  ran : nat -> list (Z * Z)           (* ghost: the functions a core has run, with their arguments *)
}.

Section Threads.

(** What a function does with its argument, as far as it is seen here: it calls [corethread_exit]
    with a value as the last thing, or it does not. *)
Context (runs : Z -> Z -> option Z).

(** ** Steps *)

(** [corethread_create] and [corethread_join], one call after the other. When the program has
    returned, the boot loader sets the status of the master. *)
Definition caller_step (s : sys) : sys :=
  let '(Sys ms inf pc wp cs hist rn) := s in
  let goto pc := Sys ms inf pc wp cs hist rn in
  let write j f pc := Sys ms (upd inf j (f (inf j))) pc wp cs hist rn in
  let answer c r := Sys ms inf CIdle wp cs (hist ++ [(c, r)]) rn in
  match pc with
  | CIdle =>
      match cs with
      | [] => Sys STATUS_RETURN inf CReturned wp cs hist rn
      | Create j f a :: cs => Sys ms inf (CStatus j f a) wp cs hist rn
      | Join j :: cs => Sys ms inf (JWait j) wp cs hist rn
      end
  | CStatus j f a =>
      if decide (sl_status (inf j) <> STATUS_INITDONE) then goto (CFunc j f a)
      else answer (Create j f a) (EAGAIN, None)
  | CFunc j f a =>
      if funcpoint (inf j) =? 0 then goto (CParam j f a) else answer (Create j f a) (EAGAIN, None)
  | CParam j f a => write j (set_param a) (CSetFunc j f a)
  | CSetFunc j f a => write j (set_funcpoint f) (CWait j f a)
  | CWait j f a =>
      if decide (sl_status (inf j) <> STATUS_INITDONE) then s else answer (Create j f a) (0, None)
  | JWait j => if decide (sl_status (inf j) <> STATUS_RETURN) then s else goto (JRead j)
  | JRead j => goto (JClear j (return_val (inf j)))
  | JClear j v =>
      Sys ms (upd inf j (set_funcpoint 0 (inf j))) CIdle wp cs (hist ++ [(Join j, (0, Some v))]) rn
  | CReturned => s
  end.

(** [corethread_worker] on core [j], with [corethread_exit]. *)
Definition worker_step (j : nat) (s : sys) : sys :=
  let '(Sys ms inf pc wp cs hist rn) := s in
  let goto w := Sys ms inf pc (upd wp j w) cs hist rn in
  let write f w := Sys ms (upd inf j (f (inf j))) pc (upd wp j w) cs hist rn in
  match wp j with
  | WInit => write (set_slave_status STATUS_RETURN) WCheck
  | WCheck => goto (if decide (ms <> STATUS_RETURN) then WFunc else WLeave)
  | WFunc => goto (if funcpoint (inf j) =? 0 then WCheck else WRead)
  | WRead => goto (WRet (funcpoint (inf j)))
  | WRet f => write (set_return (-1)) (WAck f)
  | WAck f => write (set_slave_status STATUS_INITDONE) (WArg f)
  | WArg f =>
      let a := param (inf j) in
      Sys ms inf pc (upd wp j (WRun f a)) cs hist (upd rn j (rn j ++ [(f, a)]))
  | WRun f a => goto (match runs f a with Some v => WExitValue v | None => WDone end)
  | WExitValue v => write (set_return v) WExitStatus
  | WExitStatus => write (set_slave_status STATUS_RETURN) WDone
  | WDone => write (set_slave_status STATUS_RETURN) WSpin
  | WSpin => goto (if funcpoint (inf j) =? 0 then WCheck else WSpin)
  | WLeave => write (set_slave_status STATUS_RETURN) WEnd
  | WEnd => s
  end.

Inductive step (s : sys) : sys -> Prop :=
| step_caller : step s (caller_step s)
| step_worker j : step s (worker_step j s).

Inductive leads_to (s : sys) : sys -> Prop :=
| leads_refl : leads_to s s
| leads_step s1 s2 : step s s1 -> leads_to s1 s2 -> leads_to s s2.

(** ** The calls as a sequence *)

(** A core is free, with the value of its last thread, or busy with a thread. *)
Inductive thread := Free (v : Z) | Busy (f a : Z).

(** The value of a thread: -1 when it does not call [corethread_exit]. *)
Definition thread_value (f a : Z) : Z := default (-1) (runs f a).

Definition value (t : thread) : Z := match t with Free v => v | Busy f a => thread_value f a end.

Definition spec_call (ts : nat -> thread) (c : call) : (nat -> thread) * reply :=
  match c with
  | Create j f a =>
      match ts j with
      | Free _ => (upd ts j (Busy f a), (0, None))
      | Busy _ _ => (ts, (EAGAIN, None))
      end
  | Join j => (upd ts j (Free (value (ts j))), (0, Some (value (ts j))))
  end.

Fixpoint spec_calls (ts : nat -> thread) (cs : list call) : (nat -> thread) * list reply :=
  match cs with
  | [] => (ts, [])
  | c :: cs =>
      let '(ts1, r) := spec_call ts c in
      let '(ts2, rs) := spec_calls ts1 cs in (ts2, r :: rs)
  end.

(** The threads that were created on a core. *)
Definition created_by (j : nat) (c : call * reply) : list (Z * Z) :=
  match c with
  | (Create k f a, (r, _)) => if decide (k = j) then if r =? 0 then [(f, a)] else [] else []
  | _ => []
  end.
Definition created (j : nat) (hist : list (call * reply)) : list (Z * Z) := hist ≫= created_by j.

(** A program of calls; the cores are as the boot loader leaves them, or already in the worker's
    loop. *)
Definition start (v0 : nat -> Z) (cs : list call) (s : sys) : Prop :=
  master_status s <> STATUS_RETURN /\ caller s = CIdle /\ todo s = cs /\ history s = [] /\
  forall j, ran s j = [] /\ funcpoint (slaves s j) = 0 /\ return_val (slaves s j) = v0 j /\
    match worker s j with
    | WInit => sl_status (slaves s j) <> STATUS_INITDONE
    | WCheck | WFunc => sl_status (slaves s j) = STATUS_RETURN
    | _ => False
    end.

(** Functions are no null pointers. *)
Definition valid_call (c : call) : Prop := match c with Create _ f _ => f <> 0 | Join _ => True end.

(** ** The invariant *)

(** The caller, seen from core [j]: between two calls when it is at another core. *)
Definition core_of (pc : caller_pc) : option nat :=
  match pc with
  | CStatus j _ _ | CFunc j _ _ | CParam j _ _ | CSetFunc j _ _ | CWait j _ _ | JWait j | JRead j | JClear j _ => Some j
  | CIdle | CReturned => None
  end.
Definition seen (j : nat) (pc : caller_pc) : caller_pc := if decide (core_of pc = Some j) then pc else CIdle.

(** The thread that is in the entry of the core. *)
Definition requested (pc : caller_pc) (t : thread) : list (Z * Z) :=
  match pc, t with
  | CWait _ f a, _ => [(f, a)]
  | _, Busy f a => [(f, a)]
  | _, Free _ => []
  end.

Definition is_free (t : thread) : Prop := exists v, t = Free v.

Definition caller_ok (pc : caller_pc) (i : slave_info) (t : thread) : Prop :=
  match pc with
  | CIdle | JWait _ | CReturned => True
  | CStatus _ f _ | CFunc _ f _ => f <> 0
  | CParam _ f _ => f <> 0 /\ is_free t
  | CSetFunc _ f a => f <> 0 /\ is_free t /\ param i = a
  | CWait _ f _ => is_free t
  | JRead _ => sl_status i = STATUS_RETURN
  | JClear _ v => sl_status i = STATUS_RETURN /\ v = value t
  end.

Definition entry_ok (pc : caller_pc) (i : slave_info) (t : thread) : Prop :=
  match requested pc t with
  | (f, a) :: _ => funcpoint i = f /\ param i = a /\ f <> 0
  | [] => funcpoint i = 0
  end.

(** What was created, with what [corethread_create] waits for. *)
Definition issued (pc : caller_pc) (cr : list (Z * Z)) : list (Z * Z) :=
  cr ++ match pc with CWait _ f a => [(f, a)] | _ => [] end.

(** The worker has not looked at the entry since its last thread. *)
Definition late (pc : caller_pc) (i : slave_info) (t : thread) (cr rn : list (Z * Z)) : Prop :=
  sl_status i = STATUS_RETURN /\
  match pc with
  | CWait _ f a => issued pc cr = rn \/ issued pc cr = rn ++ [(f, a)]
  | _ => return_val i = value t /\ issued pc cr = rn
  end.

Definition worker_ok (pc : caller_pc) (w : worker_pc) (i : slave_info) (t : thread) (cr rn : list (Z * Z)) : Prop :=
  let waiting := issued pc cr = rn ++ requested pc t in
  let running f a := sl_status i = STATUS_INITDONE /\ requested pc t = [(f, a)] /\ issued pc cr = rn in
  match w with
  | WInit => sl_status i <> STATUS_INITDONE /\ is_free t /\ return_val i = value t /\ waiting
  | WCheck | WFunc | WLeave | WEnd =>
      sl_status i = STATUS_RETURN /\ is_free t /\ return_val i = value t /\ waiting
  | WRead => sl_status i = STATUS_RETURN /\ (exists j f a, pc = CWait j f a) /\ waiting
  | WRet f => sl_status i = STATUS_RETURN /\ (exists j a, pc = CWait j f a) /\ waiting
  | WAck f => sl_status i = STATUS_RETURN /\ (exists j a, pc = CWait j f a) /\ return_val i = -1 /\ waiting
  | WArg f =>
      sl_status i = STATUS_INITDONE /\ (exists a, requested pc t = [(f, a)]) /\ return_val i = -1 /\ waiting
  | WRun f a => running f a /\ return_val i = -1
  | WExitValue v => exists f a, running f a /\ runs f a = Some v
  | WExitStatus => exists f a, running f a /\ return_val i = thread_value f a
  | WDone => (exists f a, running f a /\ return_val i = thread_value f a) \/ late pc i t cr rn
  | WSpin => late pc i t cr rn
  end.

Definition core_inv (pc : caller_pc) (w : worker_pc) (i : slave_info) (t : thread) (cr rn : list (Z * Z)) : Prop :=
  caller_ok pc i t /\ entry_ok pc i t /\ worker_ok pc w i t cr rn.

(** A step of the worker keeps the invariant of its core. *)
Definition worker_next (ms : status) (w : worker_pc) (i : slave_info) (rn : list (Z * Z)) :
    worker_pc * slave_info * list (Z * Z) :=
  match w with
  | WInit => (WCheck, set_slave_status STATUS_RETURN i, rn)
  | WCheck => (if decide (ms <> STATUS_RETURN) then WFunc else WLeave, i, rn)
  | WFunc => (if funcpoint i =? 0 then WCheck else WRead, i, rn)
  | WRead => (WRet (funcpoint i), i, rn)
  | WRet f => (WAck f, set_return (-1) i, rn)
  | WAck f => (WArg f, set_slave_status STATUS_INITDONE i, rn)
  | WArg f => (WRun f (param i), i, rn ++ [(f, param i)])
  | WRun f a => (match runs f a with Some v => WExitValue v | None => WDone end, i, rn)
  | WExitValue v => (WExitStatus, set_return v i, rn)
  | WExitStatus => (WDone, set_slave_status STATUS_RETURN i, rn)
  | WDone => (WSpin, set_slave_status STATUS_RETURN i, rn)
  | WSpin => (if funcpoint i =? 0 then WCheck else WSpin, i, rn)
  | WLeave => (WEnd, set_slave_status STATUS_RETURN i, rn)
  | WEnd => (WEnd, i, rn)
  end.

(** Evaluate the conditions at a known place of the caller and of the worker. *)
Ltac core_simpl :=
  unfold core_inv, worker_ok, caller_ok, entry_ok, late, issued, is_free in *;
  cbn [requested value sl_status return_val param funcpoint set_slave_status set_return set_param set_funcpoint] in *;
  destruct_and?; destruct_or?;
  repeat match goal with H : exists _, _ |- _ => destruct H end;
  destruct_and?; simplify_eq; rewrite ?app_nil_r in *.

Lemma thread_value_exit f a v : runs f a = Some v -> v = thread_value f a.
Proof. unfold thread_value. by intros ->. Qed.

Lemma thread_value_none f a i : runs f a = None -> return_val i = -1 -> return_val i = thread_value f a.
Proof. unfold thread_value. by intros -> ->. Qed.

Ltac core_done :=
  rewrite ?app_nil_r; split_and?; try done; try congruence;
  first [solve [eauto 10 using thread_value_exit]|left; do 2 eexists; split_and?; eauto using thread_value_none].

Lemma worker_next_inv pc w i t cr rn ms :
  core_inv pc w i t cr rn ->
  let '(w', i', rn') := worker_next ms w i rn in core_inv pc w' i' t cr rn'.
Proof.
  intros Inv.
  destruct w; cbn [worker_next].
  all: try (destruct (decide (ms <> STATUS_RETURN))).
  all: try (destruct (Z.eqb_spec (funcpoint i) 0)).
  all: try (destruct (runs f a) eqn:Hr).
  all: destruct pc, t; core_simpl.
  all: core_done.
Qed.

(** A step of the caller at a core, with what it does to the state of the calls. *)
Definition caller_next (pc : caller_pc) (i : slave_info) (t : thread) (cr : list (Z * Z)) :
    caller_pc * slave_info * thread * list (Z * Z) :=
  match pc with
  | CStatus j f a => (if decide (sl_status i <> STATUS_INITDONE) then CFunc j f a else CIdle, i, t, cr)
  | CFunc j f a => (if funcpoint i =? 0 then CParam j f a else CIdle, i, t, cr)
  | CParam j f a => (CSetFunc j f a, set_param a i, t, cr)
  | CSetFunc j f a => (CWait j f a, set_funcpoint f i, t, cr)
  | CWait j f a =>
      if decide (sl_status i <> STATUS_INITDONE) then (pc, i, t, cr) else (CIdle, i, Busy f a, cr ++ [(f, a)])
  | JWait j => (if decide (sl_status i <> STATUS_RETURN) then pc else JRead j, i, t, cr)
  | JRead j => (JClear j (return_val i), i, t, cr)
  | JClear j v => (CIdle, set_funcpoint 0 i, Free v, cr)
  | CIdle | CReturned => (pc, i, t, cr)
  end.

Lemma caller_next_inv pc w i t cr rn :
  core_inv pc w i t cr rn ->
  let '(pc', i', t', cr') := caller_next pc i t cr in core_inv pc' w i' t' cr' rn.
Proof.
  intros Inv.
  destruct pc; cbn [caller_next].
  all: try match goal with |- context [decide ?P] => destruct (decide P) as [?|?%dec_stable] end.
  all: try (destruct (Z.eqb_spec (funcpoint i) 0)).
  all: destruct w, t; core_simpl.
  all: core_done.
Qed.

(** What the caller reads tells it the state of the thread. *)
Lemma reads_busy pc w i t cr rn :
  core_inv pc w i t cr rn -> sl_status i = STATUS_INITDONE -> (forall j f a, pc <> CWait j f a) ->
  exists f a, t = Busy f a.
Proof.
  intros Inv E N. destruct t as [v|f a]; [|eauto]. exfalso.
  destruct pc; try (by eapply N); destruct w; core_simpl; congruence.
Qed.

Lemma reads_funcpoint j f a w i t cr rn :
  core_inv (CFunc j f a) w i t cr rn ->
  if funcpoint i =? 0 then is_free t else exists g b, t = Busy g b.
Proof. intros (_ & E & _). unfold is_free. destruct t; cbn in E; zif; destruct_and?; eauto; lia. Qed.

(** ** The invariant of the system *)

Definition pending (pc : caller_pc) : list call :=
  match pc with
  | CStatus j f a | CFunc j f a | CParam j f a | CSetFunc j f a | CWait j f a => [Create j f a]
  | JWait j | JRead j | JClear j _ => [Join j]
  | CIdle | CReturned => []
  end.

Definition call_core (c : call) : nat := match c with Create j _ _ | Join j => j end.

(** The threads after the calls that have returned. *)
Definition threads (ts0 : nat -> thread) (s : sys) : nat -> thread := fst (spec_calls ts0 (map fst (history s))).

Record inv (ts0 : nat -> thread) (cs0 : list call) (s : sys) : Prop := {
  inv_master : master_status s = STATUS_RETURN -> caller s = CReturned;
  inv_leave j : worker s j = WLeave \/ worker s j = WEnd -> caller s = CReturned;
  inv_returned : caller s = CReturned -> todo s = [];
  inv_calls : map fst (history s) ++ pending (caller s) ++ todo s = cs0;
  inv_replies : snd (spec_calls ts0 (map fst (history s))) = map snd (history s);
  inv_core j : core_inv (seen j (caller s)) (worker s j) (slaves s j) (threads ts0 s j) (created j (history s)) (ran s j)
}.

Lemma spec_calls_snoc ts cs c :
  spec_calls ts (cs ++ [c]) =
  let '(ts1, rs) := spec_calls ts cs in let '(ts2, r) := spec_call ts1 c in (ts2, rs ++ [r]).
Proof.
  revert ts. induction cs as [|c' cs IH]; intros ts; cbn [spec_calls app].
  - by destruct (spec_call ts c).
  - destruct (spec_call ts c') as [ts1 r1]. rewrite IH. destruct (spec_calls ts1 cs) as [ts2 rs].
    by destruct (spec_call ts2 c).
Qed.

Lemma seen_self j pc : core_of pc = Some j -> seen j pc = pc.
Proof. intros E. unfold seen. by rewrite decide_True. Qed.

Lemma seen_other j k pc : core_of pc = Some j -> j <> k -> seen k pc = CIdle.
Proof. intros E N. unfold seen. rewrite decide_False; [done|congruence]. Qed.

Lemma created_snoc j hist x : created j (hist ++ [x]) = created j hist ++ created_by j x.
Proof. unfold created. rewrite bind_app. cbn. by rewrite app_nil_r. Qed.

Lemma created_other j c r : call_core c <> j -> created_by j (c, r) = [].
Proof. destruct c, r; cbn; intros; [by rewrite decide_False|done]. Qed.

Section Inv.
Context (ts0 : nat -> thread) (cs0 : list call).

(** A step of the caller within a call. *)
Lemma inv_move s pc' j inf' :
  inv ts0 cs0 s -> (forall k, j <> k -> inf' k = slaves s k) -> core_of (caller s) = Some j -> core_of pc' = Some j -> pending pc' = pending (caller s) ->
  core_inv pc' (worker s j) (inf' j) (threads ts0 s j) (created j (history s)) (ran s j) ->
  inv ts0 cs0 (Sys (master_status s) inf' pc' (worker s) (todo s) (history s) (ran s)).
Proof.
  intros I Hi Ej Ej' Ep Ic. destruct I as [Im Il Ir Ia Is Io]. split; cbn; try done.
  - intros E. apply Im in E. by rewrite E in Ej.
  - intros k E. apply Il in E. by rewrite E in Ej.
  - intros ->. done.
  - by rewrite Ep.
  - intros k. destruct (decide (j = k)) as [<-|N].
    + rewrite seen_self by done. exact Ic.
    + rewrite Hi, (seen_other j) by done. specialize (Io k). by rewrite (seen_other j) in Io.
Qed.

(** A call returns. *)
Lemma inv_answer s j c r ts' inf' :
  inv ts0 cs0 s -> (forall k, j <> k -> inf' k = slaves s k) -> core_of (caller s) = Some j -> pending (caller s) = [c] -> call_core c = j ->
  spec_call (threads ts0 s) c = (ts', r) ->
  core_inv CIdle (worker s j) (inf' j) (ts' j) (created j (history s ++ [(c, r)])) (ran s j) ->
  inv ts0 cs0 (Sys (master_status s) inf' CIdle (worker s) (todo s) (history s ++ [(c, r)]) (ran s)).
Proof.
  intros I Hi Ej Ep Ec Es Ic. destruct I as [Im Il Ir Ia Is Io].
  assert (T : spec_calls ts0 (map fst (history s ++ [(c, r)])) = (ts', map snd (history s ++ [(c, r)]))).
  { rewrite !map_app. cbn [map fst snd]. rewrite spec_calls_snoc. unfold threads in Es. rewrite <- Is.
    destruct (spec_calls ts0 (map fst (history s))) as [ts1 rs]. cbn in *. by rewrite Es. }
  split; cbn [master_status slaves caller worker todo history ran].
  - intros E. apply Im in E. by rewrite E in Ej.
  - intros k E. apply Il in E. by rewrite E in Ej.
  - done.
  - rewrite <- Ia, Ep, map_app. cbn [map fst pending app]. by rewrite <- app_assoc.
  - by rewrite T.
  - intros k. unfold threads. cbn [history]. rewrite T. cbn [fst]. destruct (decide (j = k)) as [<-|N].
    + exact Ic.
    + rewrite Hi by done. specialize (Io k). rewrite (seen_other j) in Io by done.
      rewrite created_snoc, created_other, app_nil_r by congruence.
      replace (ts' k) with (threads ts0 s k); [exact Io|].
      destruct c as [j' f a|j']; cbn in Ec, Es; subst j'; [destruct (threads ts0 s j)|]; simplify_eq; by rewrite ?upd_ne.
Qed.

Lemma caller_core s j :
  inv ts0 cs0 s -> core_of (caller s) = Some j ->
  core_inv (caller s) (worker s j) (slaves s j) (threads ts0 s j) (created j (history s)) (ran s j).
Proof. intros I E. pose proof (inv_core _ _ _ I j) as H. by rewrite seen_self in H. Qed.

(** What a reply adds to the threads of the core. *)
Lemma created_answer j hist c r : created j (hist ++ [(c, r)]) =
  created j hist ++ match c with Create k f a => if decide (k = j) then if fst r =? 0 then [(f, a)] else [] else [] | Join _ => [] end.
Proof. rewrite created_snoc. by destruct c, r. Qed.

Lemma inv_again s j f a inf' : 
  inv ts0 cs0 s -> (forall k, inf' k = slaves s k) -> core_of (caller s) = Some j -> pending (caller s) = [Create j f a] ->
  (exists g b, threads ts0 s j = Busy g b) ->
  core_inv CIdle (worker s j) (slaves s j) (threads ts0 s j) (created j (history s)) (ran s j) ->
  inv ts0 cs0 (Sys (master_status s) inf' CIdle (worker s) (todo s) (history s ++ [(Create j f a, (EAGAIN, None))]) (ran s)).
Proof.
  intros I Hi Ej Ep (g & b & B) Ic.
  eapply (inv_answer s j); [done|auto|done|done|done|cbn [spec_call]; rewrite B; reflexivity|].
  rewrite created_answer, decide_True by done. cbn. by rewrite app_nil_r, Hi.
Qed.

Lemma starts_core pc w i t cr rn :
  core_inv CIdle w i t cr rn -> match pc with CStatus _ f _ => f <> 0 | JWait _ => True | _ => False end ->
  core_inv pc w i t cr rn.
Proof.
  intros (_ & He & Hw) V. destruct pc; try done; split; try done; (split; [done|]).
  all: destruct w; try exact Hw; cbn in Hw; destruct_and?; by repeat match goal with H : exists _, _ |- _ => destruct H end.
Qed.

(** The caller starts a call, or is at the end. *)
Lemma caller_starts s :
  inv ts0 cs0 s -> Forall valid_call cs0 -> core_of (caller s) = None -> inv ts0 cs0 (caller_step s).
Proof.
  intros I V Ej. destruct s as [ms inf pc wp cs hist rn]. pose proof I as [Im Il Ir Ia Is Io].
  cbn [caller master_status slaves worker todo history ran] in *.
  destruct pc; try done; cbn [caller_step].
  assert (Le : forall k, ~ (wp k = WLeave \/ wp k = WEnd)) by (intros k E; by specialize (Il k E)).
  destruct cs as [|[j f a|j] cs]; split; cbn [caller master_status slaves worker todo history ran]; try done.
  all: try (intros E; by specialize (Im E)).
  all: try (intros k E; by destruct (Le k)).
  all: intros k; specialize (Io k); unfold seen in *; cbn [core_of] in *; try exact Io.
  all: rewrite decide_False in Io by done; case_decide; [|exact Io].
  all: apply starts_core; [done|try done].
  rewrite <- Ia in V. apply Forall_app in V as [_ V]. by apply Forall_inv in V.
Qed.

Lemma caller_step_inv s : inv ts0 cs0 s -> Forall valid_call cs0 -> inv ts0 cs0 (caller_step s).
Proof.
  intros I V. destruct (core_of (caller s)) as [j|] eqn:Ej.
  - pose proof (caller_core s j I Ej) as Ic. pose proof (caller_next_inv _ _ _ _ _ _ Ic) as N.
    destruct s as [ms inf pc wp cs hist rn]. cbn [caller master_status slaves worker todo history ran] in *.
    destruct pc; cbn in Ej; simplify_eq; cbn [caller_next caller_step] in *.
    + destruct (decide (sl_status (inf j) <> STATUS_INITDONE)) as [|Q%dec_stable].
      * by apply (inv_move _ (CFunc j f a) j inf I).
      * apply (inv_again _ j f a inf I); try done. by eapply reads_busy.
    + pose proof (reads_funcpoint _ _ _ _ _ _ _ _ Ic) as Q. destruct (funcpoint (inf j) =? 0).
      * by apply (inv_move _ (CParam j f a) j inf I).
      * by apply (inv_again _ j f a inf I).
    + apply (inv_move _ (CSetFunc j f a) j _ I); try done; [intros; by rewrite upd_ne|by rewrite upd_eq].
    + apply (inv_move _ (CWait j f a) j _ I); try done; [intros; by rewrite upd_ne|by rewrite upd_eq].
    + destruct (decide (sl_status (inf j) <> STATUS_INITDONE)) as [|Q%dec_stable]; [done|].
      destruct Ic as ([v Fr] & _).
      eapply (inv_answer (Sys ms inf (CWait j f a) wp cs hist rn) j (Create j f a) (0, None) _ inf I); try done;
        [cbn [spec_call]; rewrite Fr; reflexivity|].
      cbn [worker slaves history ran]. by rewrite upd_eq, created_answer, decide_True.
    + destruct (decide (sl_status (inf j) <> STATUS_RETURN)); [done|]. by apply (inv_move _ (JRead j) j inf I).
    + by apply (inv_move _ (JClear j (return_val (inf j))) j inf I).
    + destruct Ic as ([_ Ev] & _).
      eapply (inv_answer (Sys ms inf (JClear j v) wp cs hist rn) j (Join j) (0, Some v) _ _ I); try done;
        [intros; by rewrite upd_ne|cbn [spec_call]; by rewrite <- Ev|].
      cbn [worker slaves history ran]. by rewrite !upd_eq, created_answer, app_nil_r.
  - by apply caller_starts.
Qed.

Lemma worker_step_next j s :
  let '(w, i, rn) := worker_next (master_status s) (worker s j) (slaves s j) (ran s j) in
  let s' := worker_step j s in
  master_status s' = master_status s /\ caller s' = caller s /\ todo s' = todo s /\ history s' = history s /\
  worker s' j = w /\ slaves s' j = i /\ ran s' j = rn /\
  forall k, j <> k -> worker s' k = worker s k /\ slaves s' k = slaves s k /\ ran s' k = ran s k.
Proof.
  destruct s as [ms inf pc wp cs hist rn]. cbn [caller master_status slaves worker todo history ran].
  destruct (wp j) eqn:E; cbn [worker_next worker_step]; unfold worker_step; rewrite E; cbn.
  all: rewrite ?upd_eq; split_and?; try done; intros k N; rewrite ?upd_ne by done; done.
Qed.

Lemma worker_leaves ms w i rn w' i' rn' :
  worker_next ms w i rn = (w', i', rn') -> w' = WLeave \/ w' = WEnd ->
  ms = STATUS_RETURN \/ w = WLeave \/ w = WEnd.
Proof.
  intros E L. destruct w; cbn in E; auto.
  all: try destruct (decide (ms <> STATUS_RETURN)) as [|?%dec_stable]; auto.
  all: repeat case_match; simplify_eq; by destruct L.
Qed.

Lemma worker_step_inv j s : inv ts0 cs0 s -> inv ts0 cs0 (worker_step j s).
Proof.
  intros I. pose proof (worker_step_next j s) as N. pose proof I as [Im Il Ir Ia Is Io].
  pose proof (worker_next_inv _ _ _ _ _ _ (master_status s) (Io j)) as Q.
  destruct (worker_next _ _ _ _) as [[w i] rn] eqn:En. destruct N as (Em & Ec & Et & Eh & Ew & Ei & Er & Eo).
  split; rewrite ?Em, ?Ec, ?Et, ?Eh; try done.
  - intros k. destruct (decide (j = k)) as [<-|Ne].
    + rewrite Ew. intros L. destruct (worker_leaves _ _ _ _ _ _ _ En L) as [E|E]; [by apply Im|by apply (Il j)].
    + destruct (Eo k Ne) as (-> & _). apply Il.
  - intros k. unfold threads. rewrite Eh. destruct (decide (j = k)) as [<-|Ne].
    + by rewrite Ew, Ei, Er.
    + destruct (Eo k Ne) as (-> & -> & ->). apply Io.
Qed.

Lemma leads_to_inv s s' : Forall valid_call cs0 -> inv ts0 cs0 s -> leads_to s s' -> inv ts0 cs0 s'.
Proof.
  intros V I L. induction L as [|s s1 s2 St _ IH]; [done|]. apply IH.
  destruct St; [by apply caller_step_inv|by apply worker_step_inv].
Qed.

End Inv.

Lemma sys_start_inv v0 cs s : start v0 cs s -> inv (fun j => Free (v0 j)) cs s.
Proof.
  intros (Hm & Hc & Ht & Hh & Hs). split; rewrite ?Hc, ?Ht, ?Hh; try done.
  - intros j E. destruct (Hs j) as (_ & _ & _ & W). by destruct E as [E|E]; rewrite E in W.
  - intros j. destruct (Hs j) as (Er & Ef & Ev & W). unfold threads. rewrite Hh, Er. split; [done|]. split; [done|].
    destruct (worker s j); try done; cbn; unfold is_free; eauto.
Qed.

(** ** Progress *)

(** The caller waits for an acknowledgement that does not come: the worker has not looked at the
    entry between two threads, or the thread has ended before the caller looked. *)
Definition missed_at (pc : caller_pc) (w : worker_pc) (i : slave_info) : Prop :=
  (exists j f a, pc = CWait j f a) /\ (w = WDone \/ w = WSpin) /\ sl_status i = STATUS_RETURN.

Definition missed (s : sys) : Prop :=
  exists j, core_of (caller s) = Some j /\ missed_at (caller s) (worker s j) (slaves s j).

(** The caller and the worker of its core, alone. *)
Definition local : Type := caller_pc * worker_pc * slave_info.

Definition local_step (who : bool) (x : local) : local :=
  let '(pc, w, i) := x in
  if who then let '(pc, i, _, _) := caller_next pc i (Free 0) [] in (pc, w, i)
  else let '(w, i, _) := worker_next STATUS_NULL w i [] in (pc, w, i).

(** The call can return. *)
Inductive can_return : local -> Prop :=
| can_now w i : can_return (CIdle, w, i)
| can_later who x : core_of (fst (fst x)) <> None -> can_return (local_step who x) -> can_return x.

Ltac by_caller := apply (can_later true); [done|]; cbn [local_step caller_next].
Ltac by_worker := apply (can_later false); [done|]; cbn [local_step worker_next].

Lemma can_clear j v w i : can_return (JClear j v, w, i).
Proof. by_caller. constructor. Qed.

Lemma can_read j w i : sl_status i = STATUS_RETURN -> can_return (JWait j, w, i).
Proof. intros E. by_caller. rewrite decide_False by auto. by_caller. apply can_clear. Qed.

Lemma can_join j w i t cr rn :
  core_inv (JWait j) w i t cr rn -> can_return (JWait j, w, i).
Proof.
  intros Inv. destruct (decide (sl_status i = STATUS_RETURN)) as [E|N]; [by apply can_read|].
  assert (X : forall i', can_return (JWait j, WDone, i')) by (intros; by_worker; by apply can_read).
  assert (Y : forall i', can_return (JWait j, WExitStatus, i')) by (intros; by_worker; by apply can_read).
  assert (R : forall f a i', can_return (JWait j, WRun f a, i')).
  { intros. by_worker. destruct (runs f a); [by_worker; apply Y|apply X]. }
  destruct w; try (by destruct Inv as (_ & _ & ? & _)); try done.
  - by_worker. by apply can_read.
  - by_worker. apply R.
  - by_worker. apply Y.
Qed.

Lemma can_ack j f a w i : sl_status i = STATUS_INITDONE -> can_return (CWait j f a, w, i).
Proof. intros E. by_caller. rewrite decide_False by (rewrite E; auto). constructor. Qed.

Lemma can_take j f a i : funcpoint i <> 0 -> can_return (CWait j f a, WFunc, i).
Proof. intros N. by_worker. zif. do 3 by_worker. by apply can_ack. Qed.

Lemma can_wait j f a w i t cr rn :
  core_inv (CWait j f a) w i t cr rn -> w <> WLeave -> w <> WEnd -> ~ missed_at (CWait j f a) w i ->
  can_return (CWait j f a, w, i).
Proof.
  intros (_ & (Ef & _ & N) & Inv) N1 N2 M.
  assert (L : sl_status i = STATUS_RETURN -> w <> WDone /\ w <> WSpin).
  { intros E. split; intros ->; apply M; split; eauto 10. }
  destruct w; cbn in Inv; destruct_and?; try (by apply can_ack).
  - do 2 by_worker. apply can_take. cbn. by rewrite Ef.
  - by_worker. apply can_take. by rewrite Ef.
  - apply can_take. by rewrite Ef.
  - do 3 by_worker. by apply can_ack.
  - do 2 by_worker. by apply can_ack.
  - by_worker. by apply can_ack.
  - destruct Inv as (g & b & (E & _) & _). by apply can_ack.
  - destruct Inv as (g & b & (E & _) & _). by apply can_ack.
  - destruct Inv as [(g & b & (E & _) & _)|[E _]]; [by apply can_ack|]. by destruct (L E).
  - destruct Inv as [E _]. by destruct (L E).
Qed.

(** Before it calls, the caller gives the worker the time to look at the entry. *)
Lemma can_set j f a w i t cr rn :
  core_inv (CSetFunc j f a) w i t cr rn -> w <> WLeave -> w <> WEnd -> can_return (CSetFunc j f a, w, i).
Proof.
  intros Inv N1 N2.
  assert (Set_ : forall w' i', core_inv (CSetFunc j f a) w' i' t cr rn -> w' <> WLeave -> w' <> WEnd ->
    w' <> WDone -> w' <> WSpin -> can_return (CSetFunc j f a, w', i')).
  { intros w' i' Inv' M1 M2 M3 M4. apply caller_next_inv in Inv' as Inv2. by_caller.
    eapply can_wait; [exact Inv2|done|done|]. intros (_ & [?|?] & _); done. }
  assert (Spin : forall i', core_inv (CSetFunc j f a) WSpin i' t cr rn -> can_return (CSetFunc j f a, WSpin, i')).
  { intros i' Inv'. apply (worker_next_inv _ _ _ _ _ _ STATUS_NULL) in Inv' as Inv2. cbn [worker_next] in Inv2.
    destruct Inv' as ((_ & [v ->] & _) & Ef & _). cbn in Ef. rewrite Ef in Inv2. cbn in Inv2.
    by_worker. rewrite Ef. by apply Set_. }
  destruct (decide (w = WSpin)) as [->|]; [by apply Spin|].
  destruct (decide (w = WDone)) as [->|]; [|by apply Set_].
  apply (worker_next_inv _ _ _ _ _ _ STATUS_NULL) in Inv. by_worker. by apply Spin.
Qed.

Lemma local_completes pc w i t cr rn :
  core_inv pc w i t cr rn -> core_of pc <> None -> w <> WLeave -> w <> WEnd -> ~ missed_at pc w i ->
  can_return (pc, w, i).
Proof.
  intros Inv Ne N1 N2 M.
  assert (Param : forall j f a i', core_inv (CParam j f a) w i' t cr rn -> can_return (CParam j f a, w, i')).
  { intros j f a i' Inv'. apply caller_next_inv in Inv'. cbn [caller_next] in Inv'. by_caller. by eapply can_set. }
  assert (Func : forall j f a i', core_inv (CFunc j f a) w i' t cr rn -> can_return (CFunc j f a, w, i')).
  { intros j f a i' Inv'. apply caller_next_inv in Inv'. cbn [caller_next] in Inv'. by_caller.
    destruct (funcpoint i' =? 0); [by apply Param|constructor]. }
  destruct pc; try done.
  - apply caller_next_inv in Inv. cbn [caller_next] in Inv. by_caller.
    destruct (decide (sl_status i <> STATUS_INITDONE)); [by apply Func|constructor].
  - by apply Func.
  - by apply Param.
  - by eapply can_set.
  - by eapply can_wait.
  - by eapply can_join.
  - by_caller. apply can_clear.
  - apply can_clear.
Qed.

Lemma caller_step_local s j :
  core_of (caller s) = Some j ->
  let '(pc, i, _, _) := caller_next (caller s) (slaves s j) (Free 0) [] in
  let s' := caller_step s in
  caller s' = pc /\ worker s' = worker s /\ slaves s' j = i /\ todo s' = todo s /\
  master_status s' = master_status s /\ (core_of pc = Some j \/ pc = CIdle).
Proof.
  intros Ej. destruct s as [ms inf pc wp cs hist rn]. cbn [caller slaves worker todo master_status] in *.
  destruct pc; cbn in Ej; simplify_eq; cbn [caller_next caller_step].
  all: repeat case_decide; try destruct (funcpoint (inf j) =? 0); cbn; rewrite ?upd_eq; auto 10.
Qed.

Lemma worker_next_ms ms w i rn :
  ms <> STATUS_RETURN -> fst (worker_next ms w i rn) = fst (worker_next STATUS_NULL w i []).
Proof. intros N. destruct w; try done. cbn. by rewrite !decide_True. Qed.

(** A local run is a run of the system. *)
Lemma local_runs x :
  can_return x -> forall s j, (caller s, worker s j, slaves s j) = x -> core_of (caller s) = Some j ->
  master_status s <> STATUS_RETURN ->
  exists s', leads_to s s' /\ caller s' = CIdle /\ todo s' = todo s.
Proof.
  induction 1 as [w i|who x Ne _ IH]; intros s j E Ej Em; [injection E as E _ _; by rewrite E in Ej|].
  subst x. destruct who; cbn [local_step] in IH.
  - pose proof (caller_step_local s j Ej) as St. revert IH. destruct (caller_next _ _ _ _) as [[[pc i] ?] ?]. intros IH.
    destruct St as (Ec & Ew & Ei & Et & Es & [Ej'|Eid]).
    + destruct (IH (caller_step s) j) as (s' & L & C & T); [by rewrite Ec, Ew, Ei|by rewrite Ec|by rewrite Es|].
      exists s'. split; [eapply leads_step; [apply step_caller|exact L]|]. by rewrite T.
    + exists (caller_step s). split; [eapply leads_step; [apply step_caller|apply leads_refl]|]. by rewrite Ec.
  - pose proof (worker_step_next j s) as St. pose proof (worker_next_ms _ (worker s j) (slaves s j) (ran s j) Em) as Q.
    destruct (worker_next (master_status s) _ _ _) as [[w i] rn]. revert IH Q.
    destruct (worker_next STATUS_NULL _ _ _) as [[w0 i0] ?]. cbn. intros IH Q. simplify_eq.
    destruct St as (Es & Ec & Et & _ & Ew & Ei & _).
    destruct (IH (worker_step j s) j) as (s' & L & C & T); [by rewrite Ec, Ew, Ei|by rewrite Ec|by rewrite Es|].
    exists s'. split; [eapply leads_step; [apply (step_worker s j)|exact L]|]. by rewrite T.
Qed.

Lemma call_completes ts0 cs0 s j :
  inv ts0 cs0 s -> core_of (caller s) = Some j -> ~ missed s ->
  exists s', leads_to s s' /\ caller s' = CIdle /\ todo s' = todo s.
Proof.
  intros I Ej M. assert (NR : caller s <> CReturned) by (intros E; by rewrite E in Ej).
  eapply local_runs; [|reflexivity|exact Ej|by intros E%(inv_master _ _ _ I)].
  eapply local_completes; [by apply (caller_core ts0 cs0)|by rewrite Ej| | |].
  - intros E. apply NR, (inv_leave _ _ _ I j). auto.
  - intros E. apply NR, (inv_leave _ _ _ I j). auto.
  - intros Mi. apply M. by exists j.
Qed.

Lemma leads_to_trans s1 s2 s3 : leads_to s1 s2 -> leads_to s2 s3 -> leads_to s1 s3.
Proof. induction 1; [done|]. intros L. econstructor; eauto. Qed.

Lemma calls_complete ts0 cs0 s :
  Forall valid_call cs0 -> inv ts0 cs0 s -> ~ missed s ->
  exists s', leads_to s s' /\ map fst (history s') = cs0.
Proof.
  intros V I M.
  assert (X : forall n s, length (todo s) = n -> inv ts0 cs0 s -> caller s = CIdle ->
    exists s', leads_to s s' /\ map fst (history s') = cs0).
  { clear s I M. induction n as [|n IH]; intros s En I Ec.
    - exists s. split; [apply leads_refl|]. rewrite <- (inv_calls _ _ _ I), Ec. apply nil_length_inv in En.
      rewrite En. cbn. by rewrite app_nil_r.
    - destruct (todo s) as [|c cs] eqn:Et; [done|]. pose proof (caller_step_inv ts0 cs0 s I V) as I1.
      assert (S1 : core_of (caller (caller_step s)) = Some (call_core c) /\ todo (caller_step s) = cs /\
        forall j f a, caller (caller_step s) <> CWait j f a).
      { destruct s as [ms inf pc wp cs' hist rn]. cbn in Et, Ec. subst. by destruct c. }
      destruct S1 as (E1 & T1 & W1).
      destruct (call_completes ts0 cs0 _ _ I1 E1) as (s2 & L2 & C2 & T2).
      { intros (j & _ & (k & f & a & E) & _). by apply (W1 k f a). }
      destruct (IH s2) as (s3 & L3 & H3); [rewrite T2, T1; cbn in En; lia|by eapply leads_to_inv|done|].
      exists s3. split; [|done]. eapply leads_step; [apply step_caller|]. by eapply leads_to_trans. }
  destruct (core_of (caller s)) as [j|] eqn:Ej.
  - destruct (call_completes ts0 cs0 s j I Ej M) as (s1 & L1 & C1 & _).
    destruct (X _ s1 eq_refl) as (s2 & L2 & H2); [by eapply leads_to_inv|done|].
    exists s2. split; [by eapply leads_to_trans|done].
  - destruct (caller s) eqn:Ec; try done; [by eapply X|].
    exists s. split; [apply leads_refl|]. rewrite <- (inv_calls _ _ _ I), Ec, (inv_returned _ _ _ I Ec).
    cbn. by rewrite app_nil_r.
Qed.

(** A missed acknowledgement stays missed. *)
Lemma missed_step ts0 cs0 s s' : inv ts0 cs0 s -> missed s -> step s s' -> missed s' /\ history s' = history s /\ caller s' = caller s.
Proof.
  intros I (j & Ej & (k & f & a & Ec) & W & St) S. rewrite Ec in Ej. cbn in Ej. simplify_eq.
  assert (Nf : funcpoint (slaves s j) <> 0).
  { pose proof (inv_core _ _ _ I j) as (_ & E & _). rewrite Ec, seen_self in E by done. cbn in E. by destruct E as (-> & _ & ?). }
  unfold missed, missed_at. destruct S as [|i].
  - assert (caller_step s = s) as ->; [|split; [|done]; exists j; rewrite Ec; split; [done|]; split; [eauto|done]].
    destruct s as [ms inf pc wp cs hist rn]. cbn in *. subst. by rewrite decide_True by (rewrite St; done).
  - pose proof (worker_step_next i s) as N. destruct (decide (i = j)) as [->|Ne].
    + destruct (worker_next _ _ _ _) as [[w' i'] rn'] eqn:En. destruct N as (_ & Ec' & _ & Eh & Ew & Ei & _ & _).
      split; [|done]. exists j. rewrite Ec', Ec, Ew, Ei. split; [done|]. split; [eauto|].
      destruct W as [W|W]; rewrite W in En; cbn [worker_next] in En;
        rewrite ?(proj2 (Z.eqb_neq _ _) Nf) in En; injection En as <- <- _; auto.
    + destruct (worker_next _ _ _ _) as [[w' i'] rn']. destruct N as (_ & Ec' & _ & Eh & _ & _ & _ & Eo).
      destruct (Eo j Ne) as (Ew & Ei & _). split; [|done]. exists j. rewrite Ec', Ec, Ew, Ei. eauto 10.
Qed.

Lemma missed_forever ts0 cs0 s s' :
  Forall valid_call cs0 -> inv ts0 cs0 s -> missed s -> leads_to s s' -> history s' = history s /\ caller s' = caller s.
Proof.
  intros V I M L. induction L as [|s s1 s2 St _ IH]; [done|].
  destruct (missed_step ts0 cs0 s s1 I M St) as (M1 & Eh & Ec). rewrite <- Eh, <- Ec. apply IH; [|done].
  destruct St; [by apply caller_step_inv|by apply worker_step_inv].
Qed.

(** Between two calls, a core whose threads are joined has run all of them. *)
Lemma idle_ran j w i v cr rn : core_inv (seen j CIdle) w i (Free v) cr rn -> rn = cr.
Proof.
  unfold seen. cbn [core_of]. rewrite decide_False by done. intros Inv.
  destruct w; core_simpl; done.
Qed.

End Threads.

(** ** Properties *)

(** Claim C20. Core threads. In every interleaving, the calls that have returned gave the replies
    that they give when each thread runs at once: a create is refused exactly while the core has
    a thread that is not joined, and a join returns the value of the thread that was created last.
    Between two calls, a core whose threads are all joined has run what was created on it, in
    order, each thread once and with its argument. All calls can return from any state unless the
    caller has missed an acknowledgement, and then none ever returns again. *)
Theorem corethread_calls runs v0 cs s0 s :
  start v0 cs s0 -> Forall valid_call cs -> leads_to runs s0 s ->
  snd (spec_calls runs (fun j => Free (v0 j)) (map fst (history s))) = map snd (history s) /\
  map fst (history s) ++ pending (caller s) ++ todo s = cs /\
  (forall j, caller s = CIdle -> is_free (threads runs (fun j => Free (v0 j)) s j) -> ran s j = created j (history s)) /\
  (~ missed s -> exists s', leads_to runs s s' /\ map fst (history s') = cs) /\
  (missed s -> forall s', leads_to runs s s' -> history s' = history s /\ caller s' = caller s).
Proof.
  intros St V L. pose proof (leads_to_inv runs _ _ _ _ V (sys_start_inv runs _ _ _ St) L) as I.
  split; [apply I|]. split; [apply I|]. split; [|split].
  - intros j Ec [v Fr]. pose proof (inv_core _ _ _ _ I j) as C. rewrite Ec, Fr in C. by eapply idle_ran.
  - intros M. by eapply calls_complete.
  - intros M s' L'. by eapply missed_forever.
Qed.

(** *** Examples *)

(** A schedule: the caller, or the worker of a core. *)
Definition run_one (runs : Z -> Z -> option Z) (s : sys) (who : option nat) : sys :=
  match who with None => caller_step s | Some j => worker_step runs j s end.
Definition run_all (runs : Z -> Z -> option Z) (ws : list (option nat)) (s : sys) : sys :=
  fold_left (run_one runs) ws s.

Lemma run_all_leads runs ws s : leads_to runs s (run_all runs ws s).
Proof.
  revert s. induction ws as [|w ws IH]; intros s; [apply leads_refl|].
  apply (leads_step runs s (run_one runs s w)); [|apply IH]. destruct w; constructor.
Qed.

(** Function 64 returns the double of its argument; the others do not call [corethread_exit]. *)
Definition demo_runs (f a : Z) : option Z := if f =? 64 then Some (2 * a) else None.

Definition demo_start (cs : list call) : sys :=
  Sys STATUS_INIT (fun _ => SlaveInfo STATUS_INIT 0 0 0) CIdle (fun _ => WInit) cs [] (fun _ => []).

Lemma demo_starts cs : start (fun _ => 0) cs (demo_start cs).
Proof. by repeat split. Qed.

Definition times (n : nat) (who : option nat) : list (option nat) := replicate n who.

(** One core runs a thread, a second create on it is refused, then it is joined. *)
Definition demo_calls : list call := [Create 1 64 21; Create 1 64 5; Join 1; Create 2 80 1].
Definition demo_schedule : list (option nat) :=
  times 5 (Some 1%nat) ++ times 5 None ++ times 6 (Some 1%nat) ++ times 4 None ++ times 4 (Some 1%nat) ++ times 3 None.

Lemma corethread_calls_witness :
  let s := run_all demo_runs demo_schedule (demo_start demo_calls) in
  map snd (history s) = [(0, None); (EAGAIN, None); (0, Some 42)] /\ ran s 1%nat = [(64, 21)] /\
  exists s', leads_to demo_runs s s' /\ map fst (history s') = demo_calls.
Proof.
  intros s. destruct (corethread_calls demo_runs (fun _ => 0) demo_calls (demo_start demo_calls) s) as (E & _ & R & P & _).
  - apply demo_starts.
  - repeat constructor; done.
  - apply run_all_leads.
  - split; [rewrite <- E; vm_compute; reflexivity|]. split.
    + rewrite R; [vm_compute; reflexivity|vm_compute; reflexivity|]. exists 42. vm_compute. reflexivity.
    + apply P. intros (j & Ej & _). vm_compute in Ej. discriminate.
Defined.

(** A caller that has missed an acknowledgement stays where it is. *)
Lemma stuck runs v0 cs s0 ws s' :
  start v0 cs s0 -> Forall valid_call cs -> missed (run_all runs ws s0) -> leads_to runs (run_all runs ws s0) s' ->
  history s' = history (run_all runs ws s0).
Proof.
  intros St V M L. pose proof (leads_to_inv runs _ _ _ _ V (sys_start_inv runs _ _ _ St) (run_all_leads runs ws s0)) as I.
  by destruct (missed_forever runs _ _ _ _ V I M L).
Qed.

(** The thread ends before the caller looks. *)
Definition fast_thread : list (option nat) := times 6 None ++ times 12 (Some 1%nat).

(** The caller joins and creates before the worker looks. *)
Definition fast_caller : list (option nat) :=
  times 6 None ++ times 6 (Some 1%nat) ++ [None] ++ times 4 (Some 1%nat) ++ times 10 None ++ [Some 1%nat].

Ltac missed_now :=
  exists 1%nat; split; [vm_compute; reflexivity|]; split; [do 3 eexists; vm_compute; reflexivity|];
  split; [first [by left; vm_compute|by right; vm_compute]|vm_compute; reflexivity].

(** [corethread_create] can wait forever: on a thread that has already ended, and on a core that
    has not seen the join before the next create. *)
Theorem corethread_create_hangs :
  (forall s, leads_to demo_runs (run_all demo_runs fast_thread (demo_start [Create 1 64 21])) s -> history s = []) /\
  (forall s, leads_to demo_runs (run_all demo_runs fast_caller (demo_start [Create 1 64 21; Join 1; Create 1 64 5])) s ->
     map snd (history s) = [(0, None); (0, Some 42)]).
Proof.
  split; intros s L; erewrite (stuck _ (fun _ => 0)); try exact L; try apply demo_starts; try (by repeat constructor);
    first [vm_compute; reflexivity|missed_now].
Qed.
