(* ===== verification/TaskList.v ===== *)
(** * The linked task lists of the minimal schedulers

    src/c/apps/ttscheduling/tt_minimal_scheduler.c and
    src/c/apps/rmscheduling/rm_minimal_scheduler.c keep their tasks in singly linked
    lists of heap-allocated nodes; but for the names of types and the key of an
    insertion their list routines are the same text. The model is at the level of
    pointers: a heap of nodes, address 0 is NULL, following a pointer outside of the
    heap is undefined ([None]). The specification is a list of tasks; the routines
    are shown to refine insertion into, and removal from, that list.

    [malloc] is the C library's: a parameter that returns an address which is not in
    use. *)

From stdpp Require Import base gmap list numbers.
From Stdlib Require Import ZArith Lia.
From S2P Require Import Prelude.

Local Open Scope Z_scope.

(** ** Nodes and schedules *)

Section TaskList.
Context {T : Type}.

(** [struct rm_task_node]. *)
Record node := Node { task : T; next : Z }.

Abbreviation heap := (gmap Z node).

(** [MinimalTTSchedule], [MinimalRMSchedule]; the function [get_time] is a parameter
    of the routines that call it. *)
Record schedule := Schedule {
  hyper_period : Z;
  start_time : Z;
  task_count : Z;
  head : Z;
  tail : Z
}.

Definition set_count (n : Z) (s : schedule) : schedule :=
  Schedule (hyper_period s) (start_time s) n (head s) (tail s).
Definition set_head (a : Z) (s : schedule) : schedule :=
  Schedule (hyper_period s) (start_time s) (task_count s) a (tail s).
Definition set_tail (a : Z) (s : schedule) : schedule :=
  Schedule (hyper_period s) (start_time s) (task_count s) (head s) a.

(** [a->next = v] *)
Definition set_next (a v : Z) (h : heap) : option heap :=
  n ← h !! a; Some (<[a := Node (task n) v]> h).

Section Malloc.
Context (malloc : heap -> Z).

(** [create_tttasknode], [create_rmtasknode]. *)
Definition create_tasknode (t : T) (h : heap) : Z * heap :=
  let temp := malloc h in (temp, <[temp := Node t 0]> h).

(** [ttschedule_enqueue], [rmschedule_enqueue]. *)
Definition schedule_enqueue (t : T) (s : schedule) (h : heap) : option (schedule * heap) :=
  let '(temp, h) := create_tasknode t h in
  let s := set_count (u32 (task_count s + 1)) s in
  if tail s =? 0 then Some (set_head temp (set_tail temp s), h)
  else h ← set_next (tail s) temp h; Some (set_tail temp s, h).

End Malloc.

(** ** Insertion and removal *)

Section Key.
Context (key : T -> Z).

(** "Locate the node before the point of insertion". *)
Fixpoint locate (fuel : nat) (h : heap) (k current : Z) : option Z :=
  match fuel with
  | O => None
  | S fuel =>
      n ← h !! current;
      if next n =? 0 then Some current
      else
        n' ← h !! next n;
        if key (task n') <? k then locate fuel h k (next n) else Some current
  end.

(** [ttschedule_sortedinsert_*], [rmschedule_sortedinsert_*]. *)
Definition sortedinsert (fuel : nat) (new_node : Z) (s : schedule) (h : heap)
  : option (schedule * heap) :=
  n ← h !! new_node;
  let k := key (task n) in
  front ← (if head s =? 0 then Some true
           else hd ← h !! head s; Some (k <=? key (task hd)));
  '(s, h) ←
    (if front : bool
     then h ← set_next new_node (head s) h; Some (set_head new_node s, h)
     else
       current ← locate fuel h k (head s);
       c ← h !! current;
       h ← set_next new_node (next c) h;
       h ← set_next current new_node h;
       Some (s, h));
  Some (set_count (u32 (task_count s + 1)) s, h).

End Key.

(** [ttschedule_dequeue], [rmschedule_dequeue]: the node removed, or NULL. *)
Definition schedule_dequeue (s : schedule) (h : heap) : option (Z * schedule) :=
  if head s =? 0 then Some (0, s)
  else
    n ← h !! head s;
    let dequeued_tasknode := head s in
    let s := set_head (next n) s in
    let s := if head s =? 0 then set_tail 0 s else s in
    Some (dequeued_tasknode, set_count (u32 (task_count s - 1)) s).

(** ** Lists of nodes *)

(** From [a], the nodes of [l] in order, and then NULL. *)
Fixpoint is_list (h : heap) (a : Z) (l : list (Z * T)) : Prop :=
  match l with
  | [] => a = 0
  | (x, t) :: l => a = x /\ x <> 0 /\ exists nx, h !! x = Some (Node t nx) /\ is_list h nx l
  end.

(** What the insertion is to do. *)
Fixpoint insert_at (key : T -> Z) (xt : Z * T) (l : list (Z * T)) : list (Z * T) :=
  match l with
  | [] => [xt]
  | yu :: l' => if key (snd xt) <=? key (snd yu) then xt :: l else yu :: insert_at key xt l'
  end.

Lemma is_list_frame h h' a l :
  (forall x, In x (fst <$> l) -> h' !! x = h !! x) -> is_list h a l -> is_list h' a l.
Proof.
  revert a. induction l as [|[x t] l IH]; intros a Hf; [done|].
  intros (-> & Hx & nx & Hn & Hl). split; [done|]. split; [done|]. exists nx.
  rewrite Hf by (by left). split; [done|]. apply IH; [|done]. intros y Hy. apply Hf. by right.
Qed.

Lemma is_list_insert h a l x n :
  ~ In x (fst <$> l) -> is_list h a l -> is_list (<[x := n]> h) a l.
Proof.
  intros Hx. apply is_list_frame. intros y Hy. apply lookup_insert_ne. by intros ->.
Qed.

(** [locate] stops in front of the place of insertion: from a node whose key is too
    small, it returns the last node of the run of such nodes, and linking the new
    node behind it is the insertion. *)
Lemma locate_spec key fuel h k cur t l :
  is_list h cur ((cur, t) :: l) -> NoDup (fst <$> (cur, t) :: l) -> (length l < fuel)%nat ->
  exists c tc nc pre post,
    locate key fuel h k cur = Some c /\ h !! c = Some (Node tc nc) /\
    (cur, t) :: l = pre ++ (c, tc) :: post /\ is_list h nc post /\
    (forall x u, key u = k -> insert_at key (x, u) l = drop 1 (pre ++ (c, tc) :: (x, u) :: post)).
Proof.
  revert cur t l. induction fuel as [|fuel IH]; intros cur t l Hl Hnd Hf; [lia|].
  destruct Hl as (_ & Hc0 & nx & Hcur & Hl). cbn [locate]. rewrite Hcur. cbn [mbind option_bind next].
  destruct l as [|[y u] l].
  - cbn in Hl. subst nx. cbn [Z.eqb]. exists cur, t, 0, [], []. repeat (split; [done|]). done.
  - destruct Hl as (-> & Hy0 & ny & Hy & Hl). rewrite (proj2 (Z.eqb_neq y 0)) by done.
    rewrite Hy. cbn [mbind option_bind task]. destruct (Z.ltb_spec (key u) k).
    + destruct (IH y u l) as (c & tc & nc & pre & post & E & Hc & Ep & Hp & Hins).
      * split; [done|]. split; [done|]. by exists ny.
      * cbn in Hnd. by inversion Hnd.
      * cbn [length] in Hf. lia.
      * exists c, tc, nc, ((cur, t) :: pre), post. rewrite E. split; [done|]. split; [done|]. split; [by rewrite Ep|]. split; [done|].
        intros x v Ek. cbn [insert_at snd]. rewrite Ek. zif. rewrite (Hins x v Ek).
        destruct pre as [|p pre]; cbn in Ep |- *; by simplify_eq.
    + exists cur, t, y, [], ((y, u) :: l). split; [done|]. split; [done|]. split; [done|].
      split; [split; [done|]; split; [done|]; by exists ny|].
      intros x v Ek. cbn [insert_at snd app drop]. rewrite Ek. by zif.
Qed.

Lemma insert_at_fst key xt l : Permutation (fst <$> insert_at key xt l) (fst xt :: (fst <$> l)).
Proof.
  induction l as [|yu l IH]; [done|]. cbn [insert_at]. destruct (_ <=? _); [done|].
  cbn [fmap list_fmap]. rewrite IH. apply Permutation_swap.
Qed.

(** The nodes behind a node that is relinked. *)
Lemma is_list_app h a pre c tc nc post :
  is_list h a (pre ++ (c, tc) :: post) -> h !! c = Some (Node tc nc) -> is_list h nc post.
Proof.
  revert a. induction pre as [|[x t] pre IH]; intros a Hl Hc.
  - destruct Hl as (_ & _ & nx & Hn & Hl). rewrite Hn in Hc. by injection Hc as <-.
  - destruct Hl as (_ & _ & nx & _ & Hl). by eapply IH.
Qed.

Lemma is_list_relink h a pre c tc x u post :
  is_list h a (pre ++ (c, tc) :: post) -> NoDup (fst <$> pre ++ (c, tc) :: post) ->
  x <> 0 -> ~ In x (fst <$> pre ++ (c, tc) :: post) ->
  forall nc, h !! c = Some (Node tc nc) ->
  is_list (<[c := Node tc x]> (<[x := Node u nc]> h)) a (pre ++ (c, tc) :: (x, u) :: post).
Proof.
  intros Hl Hnd Hx Hin nc Hc. revert a Hl. rewrite fmap_app in *. cbn [fmap list_fmap fst] in *.
  induction pre as [|[y v] pre IH]; intros a Hl.
  - cbn [app] in *. pose proof (is_list_app h a [] c tc nc post Hl Hc) as Hpost.
    destruct Hl as (-> & Hc0 & _). cbn in Hnd, Hin. apply list.NoDup_cons in Hnd as [Hcp _].
    split; [done|]. split; [done|]. exists x. rewrite lookup_insert_eq. split; [done|].
    split; [done|]. split; [done|]. exists nc. rewrite lookup_insert_ne by (intros ->; auto).
    rewrite lookup_insert_eq. split; [done|].
    apply is_list_insert; [by rewrite <- list_elem_of_In|]. apply is_list_insert; [auto|done].
  - cbn [app fmap list_fmap fst] in *. destruct Hl as (-> & Hy & ny & Hn & Hl).
    apply list.NoDup_cons in Hnd as [Hyp Hnd].
    split; [done|]. split; [done|]. exists ny.
    rewrite lookup_insert_ne by (intros ->; apply Hyp, elem_of_app; right; left).
    rewrite lookup_insert_ne by (intros ->; apply Hin; by left).
    split; [done|]. apply IH; [done| |done]. intros H. apply Hin. by right.
Qed.

(** Sorted insertion of a node refines insertion into the list. *)
Lemma sortedinsert_spec key fuel x t nx s h l :
  is_list h (head s) l -> NoDup (fst <$> l) -> x <> 0 -> ~ In x (fst <$> l) ->
  h !! x = Some (Node t nx) -> (length l <= fuel)%nat ->
  exists a h', sortedinsert key fuel x s h =
      Some (set_count (u32 (task_count s + 1)) (set_head a s), h') /\
    is_list h' a (insert_at key (x, t) l) /\ NoDup (fst <$> insert_at key (x, t) l) /\
    (forall y, y <> x -> ~ In y (fst <$> l) -> h' !! y = h !! y).
Proof.
  intros Hl Hnd Hx Hin Hn Hf.
  assert (NoDup (fst <$> insert_at key (x, t) l)) as Hnd'.
  { rewrite insert_at_fst. apply list.NoDup_cons. split; [by rewrite list_elem_of_In|done]. }
  unfold sortedinsert. rewrite Hn. cbn [mbind option_bind task].
  assert (forall l', l' = l -> insert_at key (x, t) l' = (x, t) :: l' ->
    exists a h', ('(s, h) ← (h ← set_next x (head s) h; Some (set_head x s, h));
                  Some (set_count (u32 (task_count s + 1)) s, h)) =
      Some (set_count (u32 (task_count s + 1)) (set_head a s), h') /\
    is_list h' a (insert_at key (x, t) l') /\ NoDup (fst <$> insert_at key (x, t) l') /\
    (forall y, y <> x -> ~ In y (fst <$> l') -> h' !! y = h !! y)) as Hfront.
  { intros l' -> E. unfold set_next. rewrite Hn. cbn [mbind option_bind task].
    eexists x, _. split; [done|]. split; [|split; [done|]].
    - rewrite E. split; [done|]. split; [done|]. exists (head s). rewrite lookup_insert_eq.
      split; [done|]. by apply is_list_insert.
    - intros y Hy _. by rewrite lookup_insert_ne. }
  destruct l as [|[y u] l].
  { cbn in Hl. rewrite Hl, Z.eqb_refl. cbn [mbind option_bind]. rewrite <- Hl. by apply Hfront. }
  pose proof Hl as (Ey & Hy0 & ny & Hy & Hrest). rewrite Ey, (proj2 (Z.eqb_neq y 0)) by done.
  rewrite Hy. cbn [mbind option_bind task]. destruct (Z.leb_spec (key t) (key u)) as [Hle|Hlt].
  { rewrite Ey in Hfront. apply Hfront; [done|]. cbn [insert_at snd]. by zif. }
  destruct (locate_spec key fuel h (key t) y u l) as (c & tc & nc & pre & post & E & Hc & Ep & Hp & Hins);
    [by rewrite Ey in Hl|done|cbn [length] in Hf; lia|].
  rewrite E. cbn [mbind option_bind]. rewrite Hc. cbn [mbind option_bind next].
  rewrite Ep in Hl, Hnd, Hin.
  assert (c <> x) as Hcx.
  { intros ->. apply Hin. rewrite fmap_app. apply in_or_app. right. by left. }
  unfold set_next. rewrite Hn. cbn [mbind option_bind task].
  rewrite lookup_insert_ne by done. rewrite Hc. cbn [mbind option_bind task].
  exists (head s), (<[c := Node tc x]> (<[x := Node t nc]> h)). split; [by destruct s|].
  assert (insert_at key (x, t) ((y, u) :: l) = pre ++ (c, tc) :: (x, t) :: post) as Eins.
  { cbn [insert_at snd]. zif. rewrite (Hins x t eq_refl).
    destruct pre as [|p pre]; cbn in Ep |- *; by simplify_eq. }
  split; [|split; [done|]].
  - rewrite Eins, Ey. rewrite Ey in Hl. by apply is_list_relink.
  - intros z Hzx Hz. rewrite lookup_insert_ne; [by rewrite lookup_insert_ne|].
    intros ->. apply Hz. rewrite Ep, fmap_app. apply in_or_app. right. by left.
Qed.

(** Removal takes the first node. *)
Lemma dequeue_spec s h x t l :
  is_list h (head s) ((x, t) :: l) ->
  exists s', schedule_dequeue s h = Some (x, s') /\ is_list h (head s') l /\
    task_count s' = u32 (task_count s - 1) /\ hyper_period s' = hyper_period s /\
    start_time s' = start_time s.
Proof.
  intros (Ex & Hx & nx & Hn & Hl). unfold schedule_dequeue. rewrite Ex, (proj2 (Z.eqb_neq x 0)) by done.
  rewrite Hn. cbn [mbind option_bind next]. eexists. split; [done|].
  cbn [head set_head]. destruct (nx =? 0); done.
Qed.

End TaskList.

Arguments node : clear implicits.
