(* ===== verification/Sched.v ===== *)
(** * The minimal time-triggered and rate-monotonic schedulers

    src/c/apps/ttscheduling/tt_minimal_scheduler.c and
    src/c/apps/rmscheduling/rm_minimal_scheduler.c on the task lists of [TaskList].
    A task's function is not modelled but recorded: the dispatchers return the task
    they ran. [get_time] is a list of the values successive calls return. The release
    times of a time-triggered task, an array the task points to, are part of the
    task (no two tasks share one). *)

From stdpp Require Import base gmap list numbers.
From Stdlib Require Import ZArith Lia Sorted.
From S2P Require Import Prelude TaskList.

Local Open Scope Z_scope.

(** ** Tasks *)

Module TT.

(** [MinimalTTTask]. *)
Record MinimalTTTask := TTTask {
  id : Z;
  period : Z;
  release_times : list Z;
  deadline : Z;
  wcet : Z;
  release_inst : Z;
  nr_releases : Z;
  delta_sum : Z;
  last_release_time : Z;
  exec_count : Z
}.

(** The fields [deadline] and [wcet] keep their values. *)
Definition init_minimal_tttask (newTask : MinimalTTTask) (id period : Z) (release_times : list Z)
    (nr_releases : Z) : MinimalTTTask :=
  TTTask id period release_times (deadline newTask) (wcet newTask) 0 nr_releases 0 0 0.

Definition init_minimal_ttschedule (hyperperiod num_tasks : Z) : schedule :=
  Schedule hyperperiod 0 num_tasks 0 0.

Definition create_tttasknode := @create_tasknode MinimalTTTask.
Definition ttschedule_enqueue := @schedule_enqueue MinimalTTTask.
Definition ttschedule_dequeue := @schedule_dequeue MinimalTTTask.

Definition ttschedule_sortedinsert_period := sortedinsert period.

(** [task.release_times[task.release_inst]] *)
Definition release (t : MinimalTTTask) : Z := arr (release_times t) (release_inst t).

Definition ttschedule_sortedinsert_release := sortedinsert release.

(** What the dispatcher does to the task it has run. *)
Definition tt_executed (hyper current_time : Z) (t : MinimalTTTask) : MinimalTTTask :=
  TTTask (id t) (period t)
    (<[Z.to_nat (release_inst t) := u64 (release t + hyper)]> (release_times t))
    (deadline t) (wcet t)
    (u32 (release_inst t + 1) mod nr_releases t)
    (nr_releases t)
    (u64 (delta_sum t + (if last_release_time t =? 0 then period t
                         else u64 (current_time - last_release_time t))))
    current_time
    (u32 (exec_count t + 1)).

End TT.

Module RM.

Inductive TaskState := ELECTED | BLOCKED | READY | PASSIVE | NONEXIST.

(** [MinimalRMTask]. *)
Record MinimalRMTask := RMTask {
  state : TaskState;
  id : Z;
  period : Z;
  deadline : Z;
  wcet : Z;
  earliest_release : Z;
  release_time : Z;
  delta_sum : Z;
  last_release_time : Z;
  exec_count : Z;
  overruns : Z
}.

(** The field [earliest_release] keeps its value. *)
Definition init_minimal_rmtask (new_task : MinimalRMTask) (id period deadline wcet earliest_release : Z)
    : MinimalRMTask :=
  RMTask READY id period deadline wcet (RM.earliest_release new_task) earliest_release 0 0 0 0.

Definition create_rmtasknode := @create_tasknode MinimalRMTask.

Definition init_minimal_rmschedule (hyperperiod num_tasks : Z) : schedule :=
  Schedule hyperperiod 0 0 0 0.

Definition rmschedule_enqueue := @schedule_enqueue MinimalRMTask.
Definition rmschedule_sortedinsert_period := sortedinsert period.
Definition rmschedule_sortedinsert_deadline := sortedinsert deadline.
Definition rmschedule_sortedinsert_release := sortedinsert release_time.
Definition rmschedule_dequeue := @schedule_dequeue MinimalRMTask.

(** What the scheduler does to the task it has run, but for [state], which is
    [ELECTED] only while the task runs; [end_time] is what [get_time()] shows after the
    task. *)
Definition rm_executed (start end_time current_time : Z) (t : MinimalRMTask) : MinimalRMTask :=
  let count := u32 (exec_count t + 1) in
  RMTask READY (id t) (period t) (deadline t) (wcet t) (earliest_release t)
    (u64 (current_time + period t))
    (u64 (delta_sum t + (if last_release_time t =? 0 then period t
                         else u64 (current_time - last_release_time t))))
    current_time count
    (u16 (overruns t +
          (if u64 (count * period t + deadline t) <? u64 (u64 (end_time - start) - current_time)
           then 1 else 0))).

End RM.

(** ** The dispatcher *)

Section Dispatch.
Context {T : Type} (key : T -> Z).

(** [while (node_itr != NULL)]: the first node whose release time has come. *)
Fixpoint find_ready (fuel : nat) (now : Z) (h : gmap Z (node T)) (node_itr : Z) : option Z :=
  match fuel with
  | O => None
  | S fuel =>
      if node_itr =? 0 then Some 0
      else n ← h !! node_itr;
           if key (task n) <=? now then Some node_itr else find_ready fuel now h (next n)
  end.

(** One call: run the first ready task, update it, move the head of the list to its
    place. Returns the task that was run, if any (1 or 0 in the code). *)
Definition dispatch (fuel : nat) (now : Z) (upd : T -> T) (s : schedule) (h : gmap Z (node T))
  : option (option T * schedule * gmap Z (node T)) :=
  node_itr ← find_ready fuel now h (head s);
  if node_itr =? 0 then Some (None, s, h)
  else
    n ← h !! node_itr;
    let h := <[node_itr := Node (upd (task n)) (next n)]> h in
    '(exec_task, s) ← schedule_dequeue s h;
    '(s, h) ← sortedinsert key fuel exec_task s h;
    Some (Some (task n), s, h).

End Dispatch.

Module TTLoop.
Import TT.

Definition tt_minimal_dispatcher (fuel : nat) (current_time : Z) (s : schedule)
    (h : gmap Z (node MinimalTTTask)) :=
  dispatch release fuel current_time (tt_executed (hyper_period s) current_time) s h.

(** [while (infinite || current_time < noLoops*hyper_period)]; the log is the number of
    executed tasks in the code, here the tasks with the times they were run at. *)
Fixpoint schedule_loop (fuel : nat) (noLoops : Z) (infinite : bool) (start : Z) (times : list Z)
    (current_time : Z) (s : schedule) (h : gmap Z (node MinimalTTTask)) (log : list (Z * MinimalTTTask))
    : option (list (Z * MinimalTTTask) * schedule * gmap Z (node MinimalTTTask)) :=
  if infinite || (current_time <? u64 (noLoops * hyper_period s)) then
    '(r, s, h) ← tt_minimal_dispatcher fuel current_time s h;
    let log := match r with Some t => log ++ [(current_time, t)] | None => log end in
    match times with
    | [] => None
    | t :: times => schedule_loop fuel noLoops infinite start times (u64 (t - start)) s h log
    end
  else Some (log, s, h).

Definition tt_minimal_schedule_loop (fuel : nat) (noLoops : Z) (infinite : bool) (times : list Z)
    (s : schedule) (h : gmap Z (node MinimalTTTask)) :=
  match times with
  | start :: t :: times => schedule_loop fuel noLoops infinite start times (u64 (t - start)) s h []
  | _ => None
  end.

End TTLoop.

Module RMLoop.
Import RM.

(** [now0] and [now1] are the values of [get_time()] before and after the task. *)
Definition minimal_rm_scheduler (fuel : nat) (now0 now1 : Z) (s : schedule)
    (h : gmap Z (node MinimalRMTask)) :=
  let current_time := u64 (now0 - start_time s) in
  dispatch release_time fuel current_time (rm_executed (start_time s) now1 current_time) s h.

(** The periods in the order of the list. *)
Fixpoint periods (fuel : nat) (h : gmap Z (node MinimalRMTask)) (node_itr : Z) : option (list Z) :=
  match fuel with
  | O => None
  | S fuel =>
      if node_itr =? 0 then Some []
      else n ← h !! node_itr; ps ← periods fuel h (next n); Some (period (task n) :: ps)
  end.

(** One pass of the inner loop: the length of the run of periods that divide. *)
Definition lcm_pass (ps : list Z) (lcm found : Z) : Z :=
  fold_left (fun found p => if lcm mod p =? 0 then u32 (found + 1) else 0) ps found.

(** [while (1)] *)
Fixpoint lcm_loop (fuel : nat) (ps : list Z) (count step lcm found : Z) : option Z :=
  match fuel with
  | O => None
  | S fuel =>
      let found := lcm_pass ps lcm found in
      if found =? count then Some lcm else lcm_loop fuel ps count step (u64 (lcm + step)) found
  end.

Definition calc_hyperperiod (fuel : nat) (step : Z) (s : schedule) (h : gmap Z (node MinimalRMTask))
    : option Z :=
  ps ← periods fuel h (head s);
  let lcm := fold_left (fun lcm p => if lcm <? p then p else lcm) ps 0 in
  lcm_loop fuel ps (task_count s) step lcm 0.

End RMLoop.

(** ** The dispatcher on lists of tasks *)

Section DispatchSpec.
Context {T : Type} (key : T -> Z).

Abbreviation tasks l := (snd <$> (l : list (Z * T))).

(** The place of the first ready task. *)
Fixpoint split_ready (now : Z) (l : list (Z * T)) : option (list (Z * T) * (Z * T) * list (Z * T)) :=
  match l with
  | [] => None
  | xt :: l =>
      if key (snd xt) <=? now then Some ([], xt, l)
      else '(pre, yu, post) ← split_ready now l; Some (xt :: pre, yu, post)
  end.

Lemma split_ready_spec now l :
  match split_ready now l with
  | None => Forall (fun xt => now < key (snd xt)) l
  | Some (pre, xt, post) =>
      l = pre ++ xt :: post /\ key (snd xt) <= now /\ Forall (fun xt => now < key (snd xt)) pre
  end.
Proof.
  induction l as [|xt l IH]; cbn [split_ready]; [constructor|].
  destruct (Z.leb_spec (key (snd xt)) now); [by repeat split|].
  destruct (split_ready now l) as [[[pre yu] post]|]; cbn [mbind option_bind].
  - destruct IH as (-> & Hk & Hp). repeat split; [done|]. by constructor.
  - by constructor.
Qed.

Lemma find_ready_spec fuel now h a l :
  is_list h a l -> (length l < fuel)%nat ->
  find_ready key fuel now h a =
  Some (match split_ready now l with Some (_, xt, _) => fst xt | None => 0 end).
Proof.
  revert a l. induction fuel as [|fuel IH]; intros a l Hl Hf; [lia|]. cbn [find_ready].
  destruct l as [|[x t] l].
  - cbn in Hl. subst a. done.
  - destruct Hl as (-> & Hx & nx & Hn & Hl). rewrite (proj2 (Z.eqb_neq x 0)) by done.
    rewrite Hn. cbn [mbind option_bind task next split_ready snd].
    destruct (key t <=? now); [done|]. rewrite (IH nx l Hl) by (cbn [length] in Hf; lia).
    by destruct (split_ready now l) as [[[pre yu] post]|].
Qed.

(** Updating a task in place. *)
Lemma is_list_update (h : gmap Z (node T)) a pre x t post t' nx :
  is_list h a (pre ++ (x, t) :: post) -> NoDup (fst <$> pre ++ (x, t) :: post) ->
  h !! x = Some (Node t nx) -> is_list (<[x := Node t' nx]> h) a (pre ++ (x, t') :: post).
Proof.
  revert a. induction pre as [|[y u] pre IH]; intros a Hl Hnd Hx; cbn [app fmap list_fmap fst] in *.
  - destruct Hl as (-> & Hx0 & nx' & Hx' & Hl). rewrite Hx in Hx'. injection Hx' as <-.
    apply list.NoDup_cons in Hnd as [Hin _]. split; [done|]. split; [done|]. exists nx.
    rewrite lookup_insert_eq. split; [done|]. apply is_list_insert; [by rewrite <- list_elem_of_In|done].
  - destruct Hl as (-> & Hy & ny & Hny & Hl). apply list.NoDup_cons in Hnd as [Hin Hnd].
    split; [done|]. split; [done|]. exists ny. rewrite lookup_insert_ne.
    + split; [done|]. by apply IH.
    + intros ->. apply Hin. rewrite fmap_app. apply elem_of_app. right. left.
Qed.

Lemma is_list_lookup (h : gmap Z (node T)) a l x t :
  is_list h a l -> In (x, t) l -> x <> 0 /\ exists nx, h !! x = Some (Node t nx).
Proof.
  revert a. induction l as [|[y u] l IH]; intros a Hl Hin; [done|].
  destruct Hl as (-> & Hy & ny & Hny & Hl). destruct Hin as [[= -> ->]|Hin]; [eauto|by eapply IH].
Qed.

(** What a call does to the list. *)
Definition dispatched (now : Z) (upd : T -> T) (l : list (Z * T)) : option T * list (Z * T) :=
  match split_ready now l with
  | None => (None, l)
  | Some (pre, (x, t), post) =>
      match pre ++ (x, upd t) :: post with
      | [] => (None, [])
      | hd :: tl => (Some t, insert_at key hd tl)
      end
  end.

(** The schedule and the heap hold the tasks of [l]. *)
Definition holds (s : schedule) (h : gmap Z (node T)) (l : list (Z * T)) : Prop :=
  is_list h (head s) l /\ NoDup (fst <$> l).

(** The pointer code refines the list function. *)
Lemma dispatch_refines fuel now upd s h l :
  holds s h l -> (length l < fuel)%nat ->
  exists s' h', dispatch key fuel now upd s h = Some (fst (dispatched now upd l), s', h') /\
    holds s' h' (snd (dispatched now upd l)) /\
    hyper_period s' = hyper_period s /\ start_time s' = start_time s.
Proof.
  intros [Hl Hnd] Hf. unfold dispatch, dispatched. rewrite (find_ready_spec _ _ _ _ l) by done.
  cbn [mbind option_bind]. pose proof (split_ready_spec now l) as Hsp.
  destruct (split_ready now l) as [[[pre [x t]] post]|]; cbn [fst].
  2:{ exists s, h. by repeat split. }
  destruct Hsp as (El & _ & _).
  destruct (is_list_lookup h (head s) l x t Hl) as (Hx & nx & Hn).
  { rewrite El. apply in_or_app. right. by left. }
  rewrite (proj2 (Z.eqb_neq x 0)) by done. rewrite Hn. cbn [mbind option_bind task next].
  rewrite El in Hl, Hnd, Hf. pose proof (is_list_update _ _ _ _ _ _ (upd t) nx Hl Hnd Hn) as Hl'.
  assert (fst <$> pre ++ (x, t) :: post = fst <$> pre ++ (x, upd t) :: post) as Ef by (by rewrite !fmap_app).
  rewrite Ef in Hnd.
  assert (length (pre ++ (x, t) :: post) = length (pre ++ (x, upd t) :: post)) as Elen
    by (by rewrite !length_app). rewrite Elen in Hf.
  destruct (pre ++ (x, upd t) :: post) as [|[y u] rest] eqn:Erest; [by destruct pre|].
  set (h1 := <[x := Node (upd t) nx]> h) in *.
  destruct (dequeue_spec s h1 y u rest Hl') as (s1 & Ed & Hl1 & _ & Ehp & Est).
  rewrite Ed. cbn [mbind option_bind].
  destruct Hl' as (_ & Hy & ny & Hny & _). cbn [fmap list_fmap fst] in Hnd.
  apply list.NoDup_cons in Hnd as [Hyin Hnd].
  destruct (sortedinsert_spec key fuel y u ny s1 h1 rest) as (a & h2 & Ei & Hl2 & Hnd2 & _);
    [done|done|done|by rewrite <- list_elem_of_In|done|cbn [length] in Hf; lia|].
  rewrite Ei. cbn [mbind option_bind fst snd]. eexists _, h2. split; [done|]. by repeat split.
Qed.

(** Every other task is still there, and nothing else. *)
Lemma insert_at_perm (xt : Z * T) l : Permutation (insert_at key xt l) (xt :: l).
Proof.
  induction l as [|yu l IH]; [done|]. cbn [insert_at]. destruct (_ <=? _); [done|].
  rewrite IH. apply Permutation_swap.
Qed.

Lemma dispatched_perm now upd l pre xt post :
  split_ready now l = Some (pre, xt, post) ->
  fst (dispatched now upd l) = Some (snd xt) /\
  Permutation (snd (dispatched now upd l)) ((fst xt, upd (snd xt)) :: pre ++ post).
Proof.
  intros E. unfold dispatched. rewrite E. destruct xt as [x t]. cbn [fst snd].
  destruct (pre ++ (x, upd t) :: post) as [|hd tl] eqn:Er; [by destruct pre|]. cbn [fst snd].
  split; [done|]. rewrite insert_at_perm, <- Er. symmetry. apply Permutation_middle.
Qed.

(** A list in the order of the keys. *)
Definition ordered (l : list (Z * T)) : Prop := StronglySorted (fun a b => key (snd a) <= key (snd b)) l.

Lemma insert_at_ordered xt l : ordered l -> ordered (insert_at key xt l).
Proof.
  unfold ordered. induction 1 as [|yu l Hs IH Hall]; cbn [insert_at]; [by repeat constructor|].
  destruct (Z.leb_spec (key (snd xt)) (key (snd yu))).
  - constructor; [by constructor|]. constructor; [done|].
    eapply Forall_impl; [|exact Hall]. cbn. intros. lia.
  - constructor; [done|]. rewrite (insert_at_perm xt l). constructor; [lia|done].
Qed.

(** In an ordered list the dispatcher looks at the head only, and keeps the order. *)
Lemma dispatched_ordered now upd l :
  ordered l ->
  ordered (snd (dispatched now upd l)) /\
  match l with
  | [] => fst (dispatched now upd l) = None
  | xt :: tl =>
      if key (snd xt) <=? now
      then dispatched now upd l = (Some (snd xt), insert_at key (fst xt, upd (snd xt)) tl)
      else dispatched now upd l = (None, l)
  end.
Proof.
  intros Ho. unfold dispatched. destruct l as [|[x t] tl]; [done|]. cbn [split_ready snd fst].
  inversion Ho as [|? ? Ht Hall]; subst. destruct (Z.leb_spec (key t) now).
  - cbn [app snd]. split; [by apply insert_at_ordered|done].
  - pose proof (split_ready_spec now tl) as Hs.
    destruct (split_ready now tl) as [[[pre [y u]] post]|]; cbn [mbind option_bind].
    + destruct Hs as (-> & Hk & _). rewrite Forall_app in Hall. destruct Hall as [_ Hall].
      inversion Hall; subst. cbn in *. lia.
    + done.
Qed.

End DispatchSpec.

(** ** The time-triggered schedule *)

Module TTSpec.
Import TT TTLoop.

(** The [k]-th release of a task: its table, repeated every hyper-period. *)
Definition nominal (hyper : Z) (t0 : MinimalTTTask) (k : Z) : Z :=
  let n := nr_releases t0 in arr (release_times t0) (k mod n) + hyper * (k / n).

(** How often slot [i] of a table of [n] slots has been used in [k] executions. *)
Definition slot_uses (k n i : Z) : Z := k / n + (if i <? k mod n then 1 else 0).

Lemma slot_uses_next k n i :
  0 < n -> 0 <= k -> 0 <= i < n ->
  slot_uses (k + 1) n i = slot_uses k n i + (if i =? k mod n then 1 else 0).
Proof.
  intros Hn Hk Hi. unfold slot_uses.
  pose proof (Z.mod_pos_bound k n Hn). pose proof (Z_div_mod_eq_full k n).
  destruct (Z.eq_dec (k mod n + 1) n) as [E|E].
  - assert ((k + 1) / n = k / n + 1 /\ (k + 1) mod n = 0) as [-> ->].
    { split; [symmetry; apply (Z.div_unique_pos _ _ _ 0); nia|].
      symmetry. apply (Z.mod_unique_pos _ _ (k / n + 1)); nia. }
    destruct (Z.ltb_spec i 0), (Z.ltb_spec i (k mod n)), (Z.eqb_spec i (k mod n)); lia.
  - assert ((k + 1) / n = k / n /\ (k + 1) mod n = k mod n + 1) as [-> ->].
    { split; [symmetry; apply (Z.div_unique_pos _ _ _ (k mod n + 1)); nia|].
      symmetry. apply (Z.mod_unique_pos _ _ (k / n)); nia. }
    destruct (Z.ltb_spec i (k mod n + 1)), (Z.ltb_spec i (k mod n)), (Z.eqb_spec i (k mod n)); lia.
Qed.

Lemma mod_next k n : 0 < n -> 0 <= k -> (k mod n + 1) mod n = (k + 1) mod n.
Proof. intros. rewrite Z.add_mod_idemp_l by lia. done. Qed.

(** [t] is [t0] after [k] executions. *)
Record after (hyper : Z) (t0 : MinimalTTTask) (k : Z) (t : MinimalTTTask) : Prop := {
  after_id : id t = id t0;
  after_nr : nr_releases t = nr_releases t0;
  after_inst : release_inst t = k mod nr_releases t0;
  after_count : exec_count t = k;
  after_len : Z.of_nat (length (release_times t)) = nr_releases t0;
  after_times i : 0 <= i < nr_releases t0 ->
    arr (release_times t) i = arr (release_times t0) i + hyper * slot_uses k (nr_releases t0) i
}.

Lemma after_release hyper t0 k t :
  0 < nr_releases t0 -> after hyper t0 k t -> release t = nominal hyper t0 k.
Proof.
  intros Hn Ht. pose proof (Z.mod_pos_bound k _ Hn). unfold release, nominal.
  rewrite (after_inst _ _ _ _ Ht), (after_times _ _ _ _ Ht) by done.
  unfold slot_uses. zif. by rewrite Z.add_0_r.
Qed.

Lemma after_executed hyper now t0 k t :
  0 < nr_releases t0 <= 0xFFFFFFFF -> 0 <= k < 0xFFFFFFFF -> after hyper t0 k t ->
  0 <= nominal hyper t0 k + hyper < 0x10000000000000000 ->
  after hyper t0 (k + 1) (tt_executed hyper now t).
Proof.
  intros Hn Hk Ht Hb. pose proof (Z.mod_pos_bound k (nr_releases t0) ltac:(lia)) as Hm.
  pose proof (after_release _ _ _ _ (proj1 Hn) Ht) as Hr. destruct Ht as [E1 E2 E3 E4 E5 E6].
  constructor; cbn [tt_executed id nr_releases release_inst exec_count release_times].
  - done.
  - done.
  - rewrite E2, E3, u32_small by lia. apply mod_next; lia.
  - rewrite E4, u32_small by lia. done.
  - by rewrite length_insert.
  - intros i Hi. rewrite E3, arr_insert by lia. rewrite Hr, u64_small by lia.
    rewrite slot_uses_next by lia. unfold nominal in *.
    destruct (Z.eqb_spec (k mod nr_releases t0) i) as [<-|Hne].
    + rewrite Z.eqb_refl. unfold slot_uses. zif. lia.
    + rewrite (proj2 (Z.eqb_neq i _)) by congruence. rewrite E6 by done. f_equal. lia.
Qed.

(** How often the task with number [i] was run. *)
Definition runs (i : Z) (log : list (Z * MinimalTTTask)) : Z :=
  Z.of_nat (length (filter (fun nt => id (snd nt) = i) log)).

Lemma runs_snoc i log now t :
  runs i (log ++ [(now, t)]) = runs i log + (if i =? id t then 1 else 0).
Proof.
  unfold runs. rewrite list.filter_app, length_app, Nat2Z.inj_add. f_equal.
  destruct (Z.eqb_spec i (id t)) as [->|Hne].
  - rewrite filter_cons_True by done. done.
  - rewrite filter_cons_False by (cbn; congruence). done.
Qed.

(** The release of [t0] that is next after the executions of the log. *)
Definition upcoming (hyper : Z) (log : list (Z * MinimalTTTask)) (t0 : MinimalTTTask) : Z :=
  nominal hyper t0 (runs (id t0) log).

(** What the schedule prescribes when the dispatcher is called at the times [times] until [end_]:
    a call at which the next release of some task has come runs a task whose next release is the
    earliest, in the state its executions in the log have left; a call at which none has come runs
    nothing. From the executions [log] this leads to [log']. *)
Inductive tt_run (hyper : Z) (ts : list MinimalTTTask) (end_ : Z)
  : list Z -> list (Z * MinimalTTTask) -> list (Z * MinimalTTTask) -> Prop :=
| run_end now times log : end_ <= now -> tt_run hyper ts end_ (now :: times) log log
| run_idle now times log log' :
    now < end_ -> (forall t1, In t1 ts -> now < upcoming hyper log t1) ->
    tt_run hyper ts end_ times log log' -> tt_run hyper ts end_ (now :: times) log log'
| run_task now times log log' t0 t :
    now < end_ -> In t0 ts -> upcoming hyper log t0 <= now ->
    (forall t1, In t1 ts -> upcoming hyper log t0 <= upcoming hyper log t1) ->
    after hyper t0 (runs (id t0) log) t ->
    tt_run hyper ts end_ times (log ++ [(now, t)]) log' -> tt_run hyper ts end_ (now :: times) log log'.

(** The tasks of the list are those of [ts], each as often run as the log says. *)
Definition tasks_ok (hyper : Z) (ts : list MinimalTTTask) (log : list (Z * MinimalTTTask))
    (l : list (Z * MinimalTTTask)) : Prop :=
  Permutation (id <$> (snd <$> l)) (id <$> ts) /\
  forall t, In t (snd <$> l) -> exists t0, In t0 ts /\ after hyper t0 (runs (id t0) log) t.

(** A task set as [init_minimal_tttask] makes it. *)
Definition taskset_wf (ts : list MinimalTTTask) : Prop :=
  NoDup (id <$> ts) /\
  Forall (fun t => 0 < nr_releases t <= 0xFFFFFFFF /\ Z.of_nat (length (release_times t)) = nr_releases t /\
                   release_inst t = 0 /\ exec_count t = 0 /\
                   Forall (fun r => 0 <= r) (release_times t)) ts.

(** Enough room in 64 bits for [m] releases. *)
Definition no_overflow (hyper : Z) (ts : list MinimalTTTask) (m : Z) : Prop :=
  forall t0, In t0 ts -> forall k, 0 <= k < m -> 0 <= nominal hyper t0 k + hyper < 0x10000000000000000.

Lemma runs_range i log : 0 <= runs i log <= Z.of_nat (length log).
Proof. unfold runs. pose proof (list.length_filter (fun nt => id (snd nt) = i) log). lia. Qed.

Lemma nodup_id ts t0 t1 : NoDup (id <$> ts) -> In t0 ts -> In t1 ts -> id t0 = id t1 -> t0 = t1.
Proof.
  induction ts as [|t ts IH]; [done|]. cbn [fmap list_fmap]. intros Hnd H0 H1 E.
  apply list.NoDup_cons in Hnd as [Hin Hnd]. rewrite list_elem_of_In in Hin.
  destruct H0 as [->|H0], H1 as [->|H1]; [done|..|by apply IH];
    destruct Hin; [rewrite E|rewrite <- E]; by apply in_map.
Qed.

(** In the list, every task of the task set can be found. *)
Lemma tasks_ok_find hyper ts log l t1 :
  NoDup (id <$> ts) -> tasks_ok hyper ts log l -> In t1 ts ->
  exists t, In t (snd <$> l) /\ after hyper t1 (runs (id t1) log) t.
Proof.
  intros Hnd [Hp Ht] H1. assert (In (id t1) (id <$> (snd <$> l))) as Hin.
  { rewrite <- list_elem_of_In, Hp, list_elem_of_In. by apply in_map. }
  apply in_map_iff in Hin as (t & E & Hin). exists t. split; [done|].
  destruct (Ht t Hin) as (t0 & H0 & Ha).
  by rewrite (nodup_id ts t1 t0) by (done || by rewrite <- E, (after_id _ _ _ _ Ha)).
Qed.

Section Step.
Context (hyper : Z) (ts : list MinimalTTTask) (m : Z).
Context (Hwf : taskset_wf ts) (Hov : no_overflow hyper ts m) (Hm : m <= 0xFFFFFFFF).

Lemma taskset_nr t0 : In t0 ts -> 0 < nr_releases t0 <= 0xFFFFFFFF.
Proof. destruct Hwf as [_ Hall]. intros H0. rewrite List.Forall_forall in Hall. by apply Hall. Qed.

(** The release of the head is the earliest that is next. *)
Lemma head_upcoming x t tl log :
  tasks_ok hyper ts log ((x, t) :: tl) -> ordered release ((x, t) :: tl) ->
  exists t0, In t0 ts /\ after hyper t0 (runs (id t0) log) t /\ upcoming hyper log t0 = release t /\
    forall t1, In t1 ts -> release t <= upcoming hyper log t1.
Proof.
  intros Htasks Hord. pose proof Htasks as [_ Hall]. destruct (Hall t) as (t0 & H0 & Ha); [by left|].
  exists t0. split; [done|]. split; [done|]. split; [by rewrite (after_release _ _ _ _ (proj1 (taskset_nr t0 H0)) Ha)|].
  intros t1 H1. destruct (tasks_ok_find hyper ts log _ t1 (proj1 Hwf) Htasks H1) as (u & Hu & Hau).
  unfold upcoming. rewrite <- (after_release _ _ _ _ (proj1 (taskset_nr t1 H1)) Hau).
  destruct Hu as [<-|Hu]; [cbn; lia|]. inversion Hord as [|? ? _ Hmin]; subst.
  apply in_map_iff in Hu as ([y u'] & <- & Hin). rewrite List.Forall_forall in Hmin.
  apply (Hmin _ Hin).
Qed.

(** Running the head keeps the tasks right. *)
Lemma tasks_step now x t tl log :
  tasks_ok hyper ts log ((x, t) :: tl) -> Z.of_nat (length log) < m ->
  tasks_ok hyper ts (log ++ [(now, t)]) (insert_at release (x, tt_executed hyper now t) tl).
Proof.
  intros [Hp Hall] Hlen. assert (Permutation (snd <$> insert_at release (x, tt_executed hyper now t) tl)
    (tt_executed hyper now t :: (snd <$> tl))) as Hperm.
  { rewrite (fmap_Permutation snd _ _ (insert_at_perm release (x, tt_executed hyper now t) tl)). done. }
  split.
  - rewrite (fmap_Permutation id _ _ Hperm). exact Hp.
  - intros u Hu. rewrite <- list_elem_of_In, Hperm, list_elem_of_In in Hu.
    cbn [fmap list_fmap snd] in Hp, Hall. destruct Hu as [<-|Hu].
    + destruct (Hall t) as (t0 & H0 & Ha); [by left|]. exists t0. split; [done|].
      rewrite runs_snoc, (after_id _ _ _ _ Ha), Z.eqb_refl.
      pose proof (runs_range (id t0) log). apply after_executed; [by apply taskset_nr|lia|done|].
      apply Hov; [done|lia].
    + destruct (Hall u) as (t1 & H1 & Ha); [by right|]. exists t1. split; [done|].
      rewrite runs_snoc. assert (id t1 <> id t) as Hne.
      { assert (NoDup (id t :: (id <$> (snd <$> tl)))) as Hnd by (rewrite Hp; apply Hwf).
        apply list.NoDup_cons in Hnd as [Hin _]. rewrite list_elem_of_In in Hin.
        intros E. apply Hin. rewrite <- E, <- (after_id _ _ _ _ Ha). by apply in_map. }
      rewrite (proj2 (Z.eqb_neq _ _)) by done. by rewrite Z.add_0_r.
Qed.

(** One call of the dispatcher runs what the schedule prescribes. *)
Lemma dispatcher_step fuel now s h l log :
  holds s h l -> (length l < fuel)%nat -> hyper_period s = hyper -> ordered release l ->
  tasks_ok hyper ts log l -> Z.of_nat (length log) < m ->
  exists r s' h' l', tt_minimal_dispatcher fuel now s h = Some (r, s', h') /\
    holds s' h' l' /\ (length l' < fuel)%nat /\ hyper_period s' = hyper /\ ordered release l' /\
    let log1 := match r with Some t => log ++ [(now, t)] | None => log end in
    tasks_ok hyper ts log1 l' /\
    forall end_ times log', now < end_ -> tt_run hyper ts end_ times log1 log' ->
      tt_run hyper ts end_ (now :: times) log log'.
Proof.
  intros Hh Hf Ehp Hord Htasks Hlen. unfold tt_minimal_dispatcher. rewrite Ehp.
  destruct (dispatch_refines release fuel now (tt_executed hyper now) s h l Hh Hf)
    as (s' & h' & E & Hh' & Ehp' & _). rewrite E.
  destruct (dispatched_ordered release now (tt_executed hyper now) l Hord) as [Hord' Hcase].
  eexists _, s', h', _. split; [done|]. split; [done|].
  destruct l as [|[x t] tl].
  - unfold dispatched in *. cbn in *. repeat (split; [done || congruence|]). intros end_ times log' Hend Hrun.
    apply run_idle; [done| |done]. intros t1 H1.
    destruct (tasks_ok_find hyper ts log [] t1 (proj1 Hwf) Htasks H1) as (u & [] & _).
  - destruct (head_upcoming x t tl log Htasks Hord) as (t0 & H0 & Ha & Eu & Hmin).
    cbn [snd fst] in Hcase. destruct (Z.leb_spec (release t) now) as [Hr|Hr]; rewrite Hcase in *; cbn [fst snd].
    + split; [by rewrite (Permutation_length (insert_at_perm _ _ _))|].
      split; [congruence|]. split; [done|]. split; [by apply tasks_step|].
      intros end_ times log' Hend Hrun. eapply run_task; [done|exact H0|lia|by rewrite Eu|exact Ha|exact Hrun].
    + repeat (split; [done || congruence|]). intros end_ times log' Hend Hrun.
      apply run_idle; [done| |done]. intros t1 H1. specialize (Hmin t1 H1). lia.
Qed.

Lemma schedule_loop_ok fuel noLoops start times now s h l log :
  holds s h l -> (length l < fuel)%nat -> hyper_period s = hyper -> ordered release l ->
  tasks_ok hyper ts log l -> Z.of_nat (length log + length times) < m ->
  let calls := now :: ((fun t => u64 (t - start)) <$> times) in
  (exists t, In t calls /\ u64 (noLoops * hyper) <= t) ->
  exists log' s' h', schedule_loop fuel noLoops false start times now s h log = Some (log', s', h') /\
    tt_run hyper ts (u64 (noLoops * hyper)) calls log log'.
Proof.
  revert now s h l log. induction times as [|t times IH];
    intros now s h l log Hh Hf Ehp Hord Htasks Hm' calls Hend; subst calls; cbn [schedule_loop orb]; rewrite Ehp;
    (destruct (Z.ltb_spec now (u64 (noLoops * hyper))) as [Hlt|];
      [|exists log, s, h; split; [reflexivity|by apply run_end]]).
  - destruct Hend as (t & [<-|[]] & Ht). lia.
  - destruct (dispatcher_step fuel now s h l log Hh Hf Ehp Hord Htasks)
      as (r & s' & h' & l' & E & Hh' & Hf' & Ehp' & Hord' & Htasks' & Hrun); [cbn [length] in Hm'; lia|].
    rewrite E. cbn [mbind option_bind].
    edestruct (IH (u64 (t - start)) s' h' l') as (log' & s2 & h2 & E2 & Hrun2);
      [done|done|done|done|exact Htasks'|destruct r; rewrite ?length_app; cbn [length] in *; lia| |].
    + destruct Hend as (t' & [<-|Hin] & Ht'); [lia|]. by exists t'.
    + exists log', s2, h2. split; [exact E2|]. cbn [fmap list_fmap]. by apply Hrun.
Qed.

End Step.

(** Claim C26. The time-triggered schedule. For a task set in the order of the first releases, and
    counters and times that do not overflow, [tt_minimal_schedule_loop] returns once [get_time]
    shows the end of the last hyper-period, and every call of the dispatcher did what the
    schedule prescribes: if the next release of some task (its table, repeated every
    hyper-period) had come, it ran a task whose next release was the earliest of all; if none had
    come it ran nothing. So every task runs for its releases one after the other, at the first call
    that no earlier release of any task precedes, and never before its time. *)
Theorem tt_schedule_correct fuel noLoops start t1 times s h l :
  let ts := snd <$> l in let hyper := hyper_period s in
  let calls := (fun t => u64 (t - start)) <$> t1 :: times in
  holds s h l -> (length l < fuel)%nat -> ordered release l -> taskset_wf ts ->
  Z.of_nat (length times) < 0xFFFFFFFE -> no_overflow hyper ts (Z.of_nat (length times) + 1) ->
  (exists now, In now calls /\ u64 (noLoops * hyper) <= now) ->
  exists log s' h',
    tt_minimal_schedule_loop fuel noLoops false (start :: t1 :: times) s h = Some (log, s', h') /\
    tt_run hyper ts (u64 (noLoops * hyper)) calls [] log.
Proof.
  intros ts hyper calls Hh Hf Hord Hwf Hlen Hov Hend. unfold tt_minimal_schedule_loop.
  apply (schedule_loop_ok hyper ts _ Hwf Hov ltac:(lia) fuel noLoops start times _ s h l []); try done.
  - split; [done|]. intros u Hu. exists u. split; [done|]. destruct Hwf as [_ Hall].
    rewrite List.Forall_forall in Hall. destruct (Hall u Hu) as (Hn & Hl & Hi & Hc & _).
    constructor; [done|done|by rewrite Hi, Z.mod_0_l by lia|done|done|].
    intros i Hi'. unfold slot_uses, runs. cbn [filter length]. cbn. rewrite Z.div_0_l, Z.mod_0_l by lia. zif. lia.
  - cbn [length]. lia.
Qed.

End TTSpec.

(** ** The rate-monotonic scheduler *)

Module RMSpec.
Import RM RMLoop.

(** Claim C37. The rate-monotonic scheduler on a list in the order of release times: when the
    head's release has not come, nothing happens; otherwise the head, the task with
    the earliest release, is run, its next release is one period from now, and the
    list is again in order with the same tasks. *)
Theorem rm_scheduler_correct fuel now0 now1 s h l :
  holds s h l -> (length l < fuel)%nat -> ordered release_time l ->
  let now := u64 (now0 - start_time s) in
  exists r s' h' l', minimal_rm_scheduler fuel now0 now1 s h = Some (r, s', h') /\
    holds s' h' l' /\ ordered release_time l' /\
    match r with
    | None => l' = l /\ Forall (fun xt => now < release_time (snd xt)) l
    | Some t => exists x tl, l = (x, t) :: tl /\ release_time t <= now /\
        Forall (fun yu => release_time t <= release_time (snd yu)) tl /\
        exists t', Permutation l' ((x, t') :: tl) /\ id t' = id t /\ period t' = period t /\
          release_time t' = u64 (now + period t) /\ state t' = READY /\
          last_release_time t' = now /\ exec_count t' = u32 (exec_count t + 1)
    end.
Proof.
  intros Hh Hf Hord now. unfold minimal_rm_scheduler. fold now.
  destruct (dispatch_refines release_time fuel now (rm_executed (start_time s) now1 now) s h l Hh Hf)
    as (s' & h' & E & Hh' & _). rewrite E.
  destruct (dispatched_ordered release_time now (rm_executed (start_time s) now1 now) l Hord) as [Hord' Hcase].
  eexists _, s', h', _. split; [done|]. split; [done|]. split; [done|].
  destruct l as [|[x t] tl]; [by split|]. inversion Hord as [|? ? Hs Hall]; subst.
  cbn [snd fst] in *. destruct (Z.leb_spec (release_time t) now) as [Hr|Hr]; rewrite Hcase; cbn [fst snd].
  - exists x, tl. split; [done|]. split; [done|]. split; [done|].
    exists (rm_executed (start_time s) now1 now t). split; [apply insert_at_perm|]. done.
  - split; [done|]. constructor; [done|]. eapply Forall_impl; [|exact Hall]. cbn. intros. lia.
Qed.

(** *** The hyper-period *)

(** Candidate number [j] of the search. *)
Definition candidate (ps : list Z) (step : Z) (j : nat) : Z :=
  fold_left (fun lcm p => if lcm <? p then p else lcm) ps 0 + Z.of_nat j * step.

Definition divides_all (ps : list Z) (c : Z) : bool := forallb (fun p => c mod p =? 0) ps.

Definition last_divides (ps : list Z) (c : Z) : bool := c mod last ps 1 =? 0.

(** When the search stops: at a common multiple, but only if the last period of the
    list did not divide the candidate before. *)
Definition accepted_at (ps : list Z) (step : Z) (j : nat) : bool :=
  divides_all ps (candidate ps step j) &&
  match j with O => true | S i => negb (last_divides ps (candidate ps step i)) end.

(** A pass adds the number of periods if all divide; otherwise what remains is
    smaller, and not 0 iff the last period divides. *)
Lemma lcm_pass_spec ps c f :
  ps <> [] -> 0 <= f -> f + Z.of_nat (length ps) < 0x100000000 ->
  0 <= lcm_pass ps c f <= f + Z.of_nat (length ps) /\
  (if divides_all ps c then lcm_pass ps c f = f + Z.of_nat (length ps)
   else lcm_pass ps c f < Z.of_nat (length ps)) /\
  (0 < lcm_pass ps c f <-> last_divides ps c = true).
Proof.
  unfold lcm_pass, divides_all, last_divides. intros Hne Hf Hb.
  induction ps as [|p ps IH] using rev_ind; [done|]. clear Hne.
  rewrite fold_left_app, forallb_app, last_last, length_app in *. cbn [fold_left forallb length] in *.
  rewrite andb_true_r.
  destruct (decide (ps = [])) as [->|Hps].
  { cbn [fold_left forallb andb length Nat.add] in *.
    destruct (c mod p =? 0); [rewrite u32_small by lia|]; repeat split; try lia; try done. }
  destruct IH as (Hr & Hd & _); [done|lia|].
  set (g := fold_left _ ps f) in *.
  destruct (c mod p =? 0).
  - rewrite andb_true_r. rewrite u32_small by lia. repeat split; try lia; try done.
    destruct (forallb _ ps); lia.
  - rewrite andb_false_r. repeat split; try lia; try done.
Qed.

Lemma lcm_loop_spec ps step fuel j f :
  ps <> [] -> 0 <= step -> 0 <= candidate ps step 0 -> 0 <= f <= Z.of_nat (length ps * j) ->
  Z.of_nat (length ps * (j + fuel)) < 0x100000000 ->
  candidate ps step (j + fuel) < 0x10000000000000000 ->
  (0 < f <-> match j with O => false | S i => last_divides ps (candidate ps step i) end = true) ->
  let run := lcm_loop fuel ps (Z.of_nat (length ps)) step (candidate ps step j) f in
  (forall d, (d < fuel)%nat -> accepted_at ps step (j + d) = true ->
     (forall i, (i < d)%nat -> accepted_at ps step (j + i) = false) ->
     run = Some (candidate ps step (j + d))) /\
  ((forall i, (i < fuel)%nat -> accepted_at ps step (j + i) = false) -> run = None).
Proof.
  intros Hne Hs Hc0. revert j f. induction fuel as [|fuel IH]; intros j f Hf Hb Hov Hinv; [split; [lia|done]|].
  cbv zeta. cbn [lcm_loop].
  destruct (lcm_pass_spec ps (candidate ps step j) f) as (Hr & Hd & Hl); [done|lia|nia|].
  assert ((lcm_pass ps (candidate ps step j) f =? Z.of_nat (length ps)) = accepted_at ps step j) as ->.
  { unfold accepted_at. destruct (divides_all ps (candidate ps step j)); cbn [andb].
    - rewrite Hd. destruct j as [|i].
      + assert (f = 0) as -> by lia. apply Z.eqb_refl.
      + destruct (last_divides ps (candidate ps step i)) eqn:E; cbn [negb].
        * apply Z.eqb_neq. assert (0 < f) by (by apply Hinv). lia.
        * apply Z.eqb_eq. assert (~ 0 < f) by (intros H; by apply Hinv in H). lia.
    - apply Z.eqb_neq. lia. }
  assert (u64 (candidate ps step j + step) = candidate ps step (S j)) as ->.
  { unfold candidate in *. rewrite u64_small; lia. }
  destruct (accepted_at ps step j) eqn:Ea.
  - split.
    + intros [|d] Hlt Hacc Hno; [by rewrite Nat.add_0_r|].
      specialize (Hno O ltac:(lia)). rewrite Nat.add_0_r in Hno. congruence.
    + intros Hno. specialize (Hno O ltac:(lia)). rewrite Nat.add_0_r in Hno. congruence.
  - destruct (IH (S j) (lcm_pass ps (candidate ps step j) f)) as [H1 H2]; [nia|nia| |exact Hl|].
    { by replace (S j + fuel)%nat with (j + S fuel)%nat by lia. }
    split.
    + intros [|d] Hlt Hacc Hno; [rewrite Nat.add_0_r in Hacc; congruence|].
      replace (j + S d)%nat with (S j + d)%nat in * by lia. apply H1; [lia|done|].
      intros i Hi. specialize (Hno (S i) ltac:(lia)). by replace (j + S i)%nat with (S j + i)%nat in Hno by lia.
    + intros Hno. apply H2. intros i Hi. specialize (Hno (S i) ltac:(lia)).
      by replace (j + S i)%nat with (S j + i)%nat in Hno by lia.
Qed.

Lemma periods_spec fuel h a (l : list (Z * MinimalRMTask)) :
  is_list h a l -> (length l < fuel)%nat -> periods fuel h a = Some ((fun xt => period (snd xt)) <$> l).
Proof.
  revert a l. induction fuel as [|fuel IH]; intros a l Hl Hf; [lia|]. cbn [periods].
  destruct l as [|[x t] l]; [cbn in Hl; by subst|].
  destruct Hl as (-> & Hx & nx & Hn & Hl). rewrite (proj2 (Z.eqb_neq x 0)) by done.
  rewrite Hn. cbn [mbind option_bind task next]. rewrite (IH nx l Hl) by (cbn [length] in Hf; lia). done.
Qed.

Lemma max_nonneg ps c : 0 <= c -> 0 <= fold_left (fun lcm p => if lcm <? p then p else lcm) ps c.
Proof.
  revert c. induction ps as [|p ps IH]; intros c Hc; [done|]. cbn [fold_left]. apply IH.
  destruct (Z.ltb_spec c p); lia.
Qed.

(** The search of [calc_hyperperiod]: the result is the first candidate (largest
    period plus multiples of the step) that is a common multiple of all periods and
    whose predecessor is not a multiple of the last period of the list. The second
    condition, an artefact of a counter that is not reset between passes, makes the
    search miss common multiples: when the last period divides both the step and the
    largest period and the latter is not a common multiple itself, the search never
    ends (here: for every number of passes within 64 bits). *)
Theorem calc_hyperperiod_search fuel step s h l :
  let ps := (fun xt => period (snd xt)) <$> l in
  is_list h (head s) l -> l <> [] -> (length l < fuel)%nat -> task_count s = Z.of_nat (length l) ->
  0 <= step -> Z.of_nat (length l * fuel) < 0x100000000 -> candidate ps step fuel < 0x10000000000000000 ->
  (forall j, (j < fuel)%nat -> accepted_at ps step j = true ->
     (forall i, (i < j)%nat -> accepted_at ps step i = false) ->
     calc_hyperperiod fuel step s h = Some (candidate ps step j) /\
     Forall (fun p => candidate ps step j mod p = 0) ps) /\
  (divides_all ps (candidate ps step 0) = false ->
   0 < last ps 1 -> (last ps 1 | step) -> (last ps 1 | candidate ps step 0) ->
   calc_hyperperiod fuel step s h = None).
Proof.
  intros ps Hl Hne Hf Hcnt Hs Hb Hov. assert (length ps = length l) as El by apply length_fmap.
  assert (ps <> []) as Hps by (by destruct l).
  unfold calc_hyperperiod. rewrite (periods_spec fuel h (head s) l Hl Hf). fold ps. cbn [mbind option_bind].
  rewrite Hcnt, <- El.
  destruct (lcm_loop_spec ps step fuel 0 0) as [H1 H2]; cbn [Nat.add]; rewrite ?El; try done; try lia.
  { unfold candidate. pose proof (max_nonneg ps 0). lia. }
  unfold candidate at 1 in H1. unfold candidate at 1 in H2. rewrite Z.mul_0_l, Z.add_0_r, <- El in *.
  cbn [Nat.add] in *. split.
  - intros j Hj Hacc Hno. split; [by apply H1|].
    unfold accepted_at in Hacc. apply andb_true_iff in Hacc as [Hd _]. unfold divides_all in Hd.
    rewrite forallb_forall in Hd. apply List.Forall_forall. intros p Hp. by apply Z.eqb_eq, Hd.
  - intros Hd0 Hpos Hstep Hmax. apply H2. intros [|i] _; unfold accepted_at; [by rewrite Hd0|].
    assert (last_divides ps (candidate ps step i) = true) as ->; [|apply andb_false_r].
    apply Z.eqb_eq, Z.mod_divide; [lia|]. unfold candidate in *. rewrite Z.mul_0_l, Z.add_0_r in Hmax.
    apply Z.divide_add_r; [done|]. by apply Z.divide_mul_r.
Qed.

End RMSpec.

(** ** Witnesses *)

Module SchedExamples.
Import TT RM TTLoop RMLoop TTSpec RMSpec.

Definition tt_demo (i p : Z) (rel : list Z) : MinimalTTTask :=
  TT.init_minimal_tttask (TTTask 0 0 [] 0 0 0 0 0 0 0) i p rel (Z.of_nat (length rel)).

Definition tt_demo_heap : gmap Z (node MinimalTTTask) :=
  <[16 := Node (tt_demo 1 50 [0; 50]) 32]> (<[32 := Node (tt_demo 2 100 [20]) 0]> ∅).

Definition tt_demo_list : list (Z * MinimalTTTask) := [(16, tt_demo 1 50 [0; 50]); (32, tt_demo 2 100 [20])].

Lemma demo_overflow : no_overflow 100 (snd <$> tt_demo_list) 7.
Proof.
  intros t Ht k Hk. assert (k ∈ seqZ 0 7) as Hin by (apply elem_of_seqZ; lia).
  assert (forallb (fun t => forallb (fun k => (0 <=? nominal 100 t k + 100) &&
    (nominal 100 t k + 100 <? 0x10000000000000000)) (seqZ 0 7)) (snd <$> tt_demo_list) = true) as H
    by (vm_compute; reflexivity).
  rewrite forallb_forall in H. specialize (H t Ht). rewrite forallb_forall in H.
  specialize (H k (proj1 (list_elem_of_In _ _) Hin)). lia.
Qed.

Lemma tt_schedule_correct_witness :
  exists log s' h',
    tt_minimal_schedule_loop 5 1 false [1000; 1001; 1010; 1025; 1060; 1099; 1105; 1110]
      (Schedule 100 0 2 16 0) tt_demo_heap = Some (log, s', h') /\
    tt_run 100 (snd <$> tt_demo_list) 100 [1; 10; 25; 60; 99; 105; 110] [] log.
Proof.
  apply (tt_schedule_correct 5 1 1000 1001 [1010; 1025; 1060; 1099; 1105; 1110] (Schedule 100 0 2 16 0)
           tt_demo_heap tt_demo_list).
  - split; [|apply (bool_decide_unpack _); vm_compute; exact I].
    split; [done|]. split; [done|]. exists 32. split; [done|]. split; [done|]. split; [done|].
    exists 0. split; done.
  - cbn. lia.
  - repeat constructor; vm_compute; discriminate.
  - split; [apply (bool_decide_unpack _); vm_compute; exact I|]. repeat constructor; cbn; lia.
  - cbn. lia.
  - exact demo_overflow.
  - exists 105. split; [vm_compute; auto 10|]. vm_compute. discriminate.
Defined.

Definition rm_demo (i p r : Z) : MinimalRMTask :=
  init_minimal_rmtask (RMTask READY 0 0 0 0 0 0 0 0 0 0) i p p 0 r.

Definition rm_demo_heap (p1 p2 p3 : Z) : gmap Z (node MinimalRMTask) :=
  <[16 := Node (rm_demo 1 p1 0) 32]> (<[32 := Node (rm_demo 2 p2 0) 48]>
    (<[48 := Node (rm_demo 3 p3 10) 0]> ∅)).

Definition rm_demo_list (p1 p2 p3 : Z) : list (Z * MinimalRMTask) :=
  [(16, rm_demo 1 p1 0); (32, rm_demo 2 p2 0); (48, rm_demo 3 p3 10)].

Lemma rm_demo_is_list p1 p2 p3 : is_list (rm_demo_heap p1 p2 p3) 16 (rm_demo_list p1 p2 p3).
Proof.
  split; [done|]. split; [done|]. exists 32. split; [done|]. split; [done|]. split; [done|].
  exists 48. split; [done|]. split; [done|]. split; [done|]. exists 0. split; done.
Qed.

Lemma rm_scheduler_correct_witness :
  exists r s' h' l', minimal_rm_scheduler 5 7 9 (Schedule 100 5 3 16 0) (rm_demo_heap 4 8 16) = Some (r, s', h') /\
    holds s' h' l' /\ ordered release_time l'.
Proof.
  destruct (rm_scheduler_correct 5 7 9 (Schedule 100 5 3 16 0) (rm_demo_heap 4 8 16) (rm_demo_list 4 8 16))
    as (r & s' & h' & l' & E & Hh & Ho & _).
  - split; [apply rm_demo_is_list|apply (bool_decide_unpack _); vm_compute; exact I].
  - cbn. lia.
  - repeat constructor; vm_compute; discriminate.
  - by exists r, s', h', l'.
Defined.

(** The periods 3000, 2000 and 1000 in this order: 6000 is missed. *)
Lemma calc_hyperperiod_search_witness :
  calc_hyperperiod 20 1000 (Schedule 0 0 3 16 0) (rm_demo_heap 3000 2000 1000) = None.
Proof.
  apply (calc_hyperperiod_search 20 1000 (Schedule 0 0 3 16 0) (rm_demo_heap 3000 2000 1000)
           (rm_demo_list 3000 2000 1000)); try reflexivity; try lia; try (cbn; lia); try discriminate.
  - apply rm_demo_is_list.
  - exists 3. reflexivity.
Defined.

End SchedExamples.
