(* ===== verification/Noc.v ===== *)
(** * The network-on-chip driver (src/c/libnoc)

    The cores of the platform have a local communication scratchpad (SPM) each and exchange
    data by DMA through the Argo network: a core sets up an entry of its DMA table, and its
    network interface copies the block into the SPM of the other core while the program
    goes on.

    Programs are modelled at the granularity at which they interfere: the type [prog] has
    one constructor for each access to the SPM or to a register of the network interface,
    and a step of a core executes one access. The routines of noc.c are programs in this
    monad. A step of the network moves one word of an active transfer, or ends the
    transfer after its last word. This is what doc/noc/programming_exercise.tex documents:
    the block is moved from the local to the remote SPM, and when all packets have been
    transferred the interface resets the active bit. That the words arrive in order is what
    the flag behind a message relies on (mp_internal.h, [FLAG_SIZE]).

    The addresses of the devices are in the C library (machine/patmos.h); the base of the
    SPM is a parameter. The model has the two ends of a channel, two cores. *)

From stdpp Require Import base list numbers.
From Stdlib Require Import ZArith Lia.
From S2P Require Import Prelude.

Local Open Scope Z_scope.
Local Open Scope c_scope.

(** ** Programs *)

Inductive prog (A : Type) : Type :=
| Ret (a : A)
| Load (a : Z) (k : Z -> prog A)            (* read a word of the local SPM *)
| Store (a v : Z) (k : prog A)              (* write a word of the local SPM *)
| IoLoad (bank i : Z) (k : Z -> prog A)     (* read a register of the interface *)
| IoStore (bank i v : Z) (k : prog A)       (* write a register *)
| Usecs (k : Z -> prog A)                   (* [get_cpu_usecs()] *)
| Loop {S : Type} (s : S) (body : S -> prog (bool * S)) (k : S -> prog A).
                                            (* run [body] on the local variables while it says so *)

Arguments Ret {_} _.
Arguments Load {_} _ _.
Arguments Store {_} _ _ _.
Arguments IoLoad {_} _ _ _.
Arguments IoStore {_} _ _ _ _.
Arguments Usecs {_} _.
Arguments Loop {_ _} _ _ _.

Fixpoint prog_bind_ {A B} (f : A -> prog B) (p : prog A) : prog B :=
  match p with
  | Ret a => f a
  | Load a k => Load a (fun v => prog_bind_ f (k v))
  | Store a v k => Store a v (prog_bind_ f k)
  | IoLoad b i k => IoLoad b i (fun v => prog_bind_ f (k v))
  | IoStore b i v k => IoStore b i v (prog_bind_ f k)
  | Usecs k => Usecs (fun v => prog_bind_ f (k v))
  | Loop s body k => Loop s body (fun v => prog_bind_ f (k v))
  end.

#[export] Instance prog_ret : MRet prog := @Ret.
#[export] Instance prog_bind : MBind prog := @prog_bind_.

Definition load (a : Z) : prog Z := Load a Ret.
Definition store_spm (a v : Z) : prog unit := Store a v (Ret tt).
Definition io_rd (b i : Z) : prog Z := IoLoad b i Ret.
Definition io_wr (b i v : Z) : prog unit := IoStore b i v (Ret tt).
Definition get_cpu_usecs : prog Z := Usecs Ret.

(** [while (b);] *)
Definition spin (b : prog bool) : prog unit :=
  Loop 0 (fun _ => c ← b; Ret (c, 0)) (fun _ => Ret tt).

(** [for (i = lo; i < lo + n; i++) body], the body changing a local variable. *)
Fixpoint for_prog {A} (n : nat) (i : Z) (body : Z -> A -> prog A) (a : A) : prog A :=
  match n with
  | O => Ret a
  | S n => a' ← body i a; for_prog n (i + 1) body a'
  end.

(** ** Cores and their network interfaces *)

(** The registers, by bank and word index. *)
Definition DMA_BANK := 0.
Definition SCHED_BANK := 1.
Definition TDM_BANK := 2.
Definition MC_BANK := 3.
Definition IRQ_BANK := 4.

Record ni := NI {
  spm : Z -> Z;       (* the words of the SPM, by address *)
  io : Z -> Z -> Z;   (* the registers *)
  moved : Z           (* words the active transfer has moved *)
}.

(** The two ends of the channel. *)
Abbreviation world := (bool -> ni).

Definition put (f : Z -> Z) (a v : Z) : Z -> Z := fun x => if x =? a then v else f x.
Definition set_ni (w : world) (s : bool) (c : ni) : world :=
  fun b => if Bool.eqb b s then c else w b.

Class Platform := {
  NOC_SPM_BASE : Z;         (** address of the SPM *)
  core_id : bool -> Z       (** [get_cpuid()] of the two cores *)
}.

Definition NOC_ACTIVE_BIT := 0x80000000.
Definition NOC_PTR_WIDTH := 14.

Section Steps.
Context `{Platform}.

(** The two words of the DMA entry of side [s] for the other side. *)
Definition entry0 (s : bool) : Z := core_id (negb s) << 1.
Definition entry1 (s : bool) : Z := (core_id (negb s) << 1) + 1.

Definition ptr_field (x : Z) : Z := x .& 0x3FFF.
Definition size_field (x : Z) : Z := (x >> NOC_PTR_WIDTH) .& 0xFFFF.

(** One access of side [s]; [t] is what the timer shows. Writing the second word of the
    entry starts a transfer. *)
Definition access {A} (s : bool) (t : Z) (p : prog A) (w : world) : prog A * world :=
  match p with
  | Ret a => (Ret a, w)
  | Load a k => (k (spm (w s) a), w)
  | Store a v k => (k, set_ni w s (NI (put (spm (w s)) a v) (io (w s)) (moved (w s))))
  | IoLoad b i k => (k (io (w s) b i), w)
  | IoStore b i v k =>
      (k, set_ni w s (NI (spm (w s))
            (fun b' => if b' =? b then put (io (w s) b) i v else io (w s) b')
            (if (b =? DMA_BANK) && (i =? entry1 s) then 0 else moved (w s))))
  | Usecs k => (k t, w)
  | Loop x body k =>
      (r ← body x; let '(go, y) := r in if go : bool then Loop y body k else k y, w)
  end.

(** One step of the interface of side [s]. *)
Definition network (s : bool) (w : world) : world :=
  let c := w s in
  let w1 := io c DMA_BANK (entry1 s) in
  if w1 .& NOC_ACTIVE_BIT =? 0 then w
  else if moved c <? size_field w1 then
    let src := NOC_SPM_BASE + 4 * (ptr_field w1 + moved c) in
    let dst := NOC_SPM_BASE + 4 * (ptr_field (io c DMA_BANK (entry0 s)) + moved c) in
    let d := w (negb s) in
    set_ni (set_ni w s (NI (spm c) (io c) (moved c + 1)))
      (negb s) (NI (put (spm d) dst (spm c src)) (io d) (moved d))
  else
    set_ni w s (NI (spm c)
      (fun b => if b =? DMA_BANK then put (io c b) (entry1 s) (w1 - NOC_ACTIVE_BIT) else io c b)
      (moved c)).

(** *** Interleavings *)

Inductive choice :=
| Run (s : bool) (t : Z)    (* an access of core [s] *)
| Net (s : bool).           (* a step of its interface *)

Record config {A : Type} := Config { code : bool -> prog A; mem : world }.
Arguments config : clear implicits.

Definition do_choice {A} (c : choice) (x : config A) : config A :=
  match c with
  | Run s t =>
      let '(p, w) := access s t (code x s) (mem x) in
      Config _ (fun b => if Bool.eqb b s then p else code x b) w
  | Net s => Config _ (code x) (network s (mem x))
  end.

Definition run_choices {A} (cs : list choice) (x : config A) : config A :=
  foldl (fun x c => do_choice c x) x cs.

(** A core that runs alone, for at most [fuel] accesses. *)
Fixpoint exec {A} (fuel : nat) (s : bool) (p : prog A) (w : world) : option (A * world) :=
  match p, fuel with
  | Ret a, _ => Some (a, w)
  | _, O => None
  | _, S n => let '(p', w') := access s 0 p w in exec n s p' w'
  end.

End Steps.

Arguments config : clear implicits.
Arguments Config {_} _ _.

(** ** The driver (noc.c)

    The variant without [TRAP], in which the [noc_] routines call their [k_noc_]
    counterparts. *)

Definition DATA_PKT_TYPE := 0.
Definition CONFIG_PKT_TYPE := 1.
Definition DATA_IRQ_PKT_TYPE := 2.
Definition IRQ_PKT_TYPE := 3.

(** [while (reg != value);] after writing it, on the master only. *)
Definition k_noc_sched_set (get_cpuid NOC_MASTER config : Z) : prog unit :=
  if get_cpuid =? NOC_MASTER then
    io_wr MC_BANK 0 config;; spin (v ← io_rd MC_BANK 0; Ret (negb (v =? config)))
  else Ret tt.

Definition k_noc_state_set (get_cpuid NOC_MASTER state : Z) : prog unit :=
  if get_cpuid =? NOC_MASTER then
    io_wr TDM_BANK 4 state;; spin (v ← io_rd TDM_BANK 4; Ret (negb (v =? state)))
  else Ret tt.

Definition k_noc_fifo_read (irq_type : Z) : prog Z := io_rd IRQ_BANK irq_type.

Definition k_noc_dma_done (dma_id : Z) : prog Z :=
  status ← io_rd DMA_BANK ((dma_id << 1) + 1);
  Ret (if negb (status .& NOC_ACTIVE_BIT =? 0) then 0 else 1).

Definition k_noc_dma_clear (dma_id : Z) : prog unit :=
  io_wr DMA_BANK ((dma_id << 1) + 1) 0;;
  io_wr DMA_BANK (dma_id << 1) 0.

Definition k_noc_dma_write (dma_id write_ptr read_ptr size pkt_type : Z) : prog Z :=
  done ← k_noc_dma_done dma_id;
  if done =? 0 then Ret 0
  else if 3 <? pkt_type then Ret 0
  else
    io_wr DMA_BANK (dma_id << 1) (u32 ((pkt_type << NOC_PTR_WIDTH) .| write_ptr));;
    io_wr DMA_BANK ((dma_id << 1) + 1)
      (u32 (NOC_ACTIVE_BIT .| (size << NOC_PTR_WIDTH) .| read_ptr));;
    Ret 1.

Definition noc_dma_write (dma_id write_ptr read_ptr size pkt_type : Z) : prog Z :=
  k_noc_dma_write dma_id write_ptr read_ptr size pkt_type.
Definition noc_dma_done (dma_id : Z) : prog Z := k_noc_dma_done dma_id.
Definition noc_dma_clear (dma_id : Z) : prog unit := k_noc_dma_clear dma_id.
Definition noc_sched_set (get_cpuid NOC_MASTER config : Z) : prog unit :=
  k_noc_sched_set get_cpuid NOC_MASTER config.
Definition noc_state_set (get_cpuid NOC_MASTER state : Z) : prog unit :=
  k_noc_state_set get_cpuid NOC_MASTER state.
Definition noc_fifo_irq_read : prog Z := k_noc_fifo_read 0.
Definition noc_fifo_data_read : prog Z := k_noc_fifo_read 1.
Definition noc_enable (get_cpuid NOC_MASTER : Z) : prog unit :=
  noc_state_set get_cpuid NOC_MASTER 1.
Definition noc_disable (get_cpuid NOC_MASTER : Z) : prog unit :=
  noc_state_set get_cpuid NOC_MASTER 0.

(** [W(X)]: bytes to words; the parameters of [noc_dma_write] are [unsigned short]. *)
Definition W (x : Z) : Z := u32 (x + 3) / 4.

Section Transfers.
Context `{Platform}.

Definition noc_conf (dma_id dst src size : Z) : prog Z :=
  let wp := u32 (dst - NOC_SPM_BASE) in
  let rp := u32 (src - NOC_SPM_BASE) in
  noc_dma_write dma_id (u16 (W wp)) (u16 (W rp)) (u16 (W size)) CONFIG_PKT_TYPE.

Definition noc_irq (dma_id dst src : Z) : prog Z :=
  let wp := u32 (dst - NOC_SPM_BASE) in
  let rp := u32 (src - NOC_SPM_BASE) in
  noc_dma_write dma_id (u16 (W wp)) (u16 (W rp)) 1 IRQ_PKT_TYPE.

Definition noc_nbwrite (dma_id dst src size irq_enable : Z) : prog Z :=
  let send pkt_type :=
    let wp := u32 (dst - NOC_SPM_BASE) in
    let rp := u32 (src - NOC_SPM_BASE) in
    noc_dma_write dma_id (u16 (W wp)) (u16 (W rp)) (u16 (W size)) pkt_type in
  if irq_enable =? 1 then send DATA_IRQ_PKT_TYPE
  else if irq_enable =? 0 then send DATA_PKT_TYPE
  else Ret 0.

Definition noc_write (dma_id dst src size irq_enable : Z) : prog unit :=
  spin (r ← noc_nbwrite dma_id dst src size irq_enable; Ret (r =? 0)).

(** *** Sets of cores (coreset.h, with the default [CORESET_SIZE] 32) *)

Abbreviation coreset_t := Z.
Definition coreset_clearall : coreset_t := 0.
Definition coreset_add (core : Z) (set : coreset_t) : coreset_t :=
  set .| u32 (1 << (core mod 32)).
Definition coreset_remove (core : Z) (set : coreset_t) : coreset_t :=
  set .& u32 (~~ (1 << (core mod 32))).
Definition coreset_contains (core : Z) (set : coreset_t) : Z :=
  set .& u32 (1 << (core mod 32)).
Definition coreset_empty (set : coreset_t) : Z := if negb (set =? 0) then 0 else 1.

(** Multicast: try every receiver that has not been served, until all have been. The local
    variable of the loop is [sent]. *)
Definition noc_multisend (cnt : Z) (dma_id dst : list Z) (src size irq_enable : Z) : prog unit :=
  Loop coreset_clearall
    (fun sent =>
       r ← for_prog (Z.to_nat cnt) 0 (fun i '(done, sent) =>
             if coreset_contains (arr dma_id i) sent =? 0 then
               ok ← noc_nbwrite (arr dma_id i) (arr dst i) src size irq_enable;
               if negb (ok =? 0) then Ret (done, coreset_add (arr dma_id i) sent)
               else Ret (0, sent)
             else Ret (done, sent)) (1, sent);
       let '(done, sent) := r in Ret (done =? 0, sent))
    (fun _ => Ret tt).

Definition noc_multisend_cs (NOC_CORES cpuid : Z) (receivers : coreset_t) (dst : list Z)
    (offset src size irq_enable : Z) : prog unit :=
  for_prog (Z.to_nat NOC_CORES) 0 (fun i index =>
    if negb (coreset_contains i receivers =? 0) then
      (if negb (i =? cpuid) then noc_write i (u32 (arr dst index + offset)) src size irq_enable
       else Ret tt);;
      Ret (index + 1)
    else Ret index) 0;;
  Ret tt.

Definition noc_wait_dma (NOC_CORES get_cpuid : Z) (receivers : coreset_t) : prog unit :=
  for_prog (Z.to_nat NOC_CORES) 0 (fun i _ =>
    if negb (coreset_contains i receivers =? 0) then
      if negb (i =? get_cpuid) then spin (d ← noc_dma_done i; Ret (d =? 0)) else Ret tt
    else Ret tt) tt.

End Transfers.

(** ** Facts on transfers *)

Lemma put_eq f a v : put f a v a = v.
Proof. unfold put. by rewrite Z.eqb_refl. Qed.

Lemma put_ne f a v x : x <> a -> put f a v x = f x.
Proof. intros. unfold put. by rewrite (proj2 (Z.eqb_neq _ _)). Qed.

Lemma set_ni_eq w s c : set_ni w s c s = c.
Proof. unfold set_ni. by rewrite Bool.eqb_reflx. Qed.

Lemma set_ni_ne w s c : set_ni w s c (negb s) = w (negb s).
Proof. unfold set_ni. by destruct s. Qed.

Lemma set_ni_neg w s c : set_ni w (negb s) c s = w s.
Proof. unfold set_ni. by destruct s. Qed.

(** The state of the two cores after an update. *)
Create Rewrite HintDb noc.
#[export] Hint Rewrite put_eq set_ni_eq set_ni_ne set_ni_neg : noc.

(** The words of a DMA entry set up by [k_noc_dma_write] describe the transfer. *)
Lemma entry_write_ptr pkt k :
  0 <= pkt <= 3 -> 0 <= k < 0x4000 ->
  ptr_field (u32 ((pkt << NOC_PTR_WIDTH) .| k)) = k.
Proof.
  intros. unfold ptr_field, NOC_PTR_WIDTH. rewrite lor_shl by lia.
  rewrite (Z.land_ones _ 14) by lia. zdm.
Qed.

Lemma entry_read size k :
  0 <= size < 0x10000 -> 0 <= k < 0x4000 ->
  u32 (NOC_ACTIVE_BIT .| (size << NOC_PTR_WIDTH) .| k) = 0x80000000 + size * 0x4000 + k.
Proof.
  intros. unfold NOC_ACTIVE_BIT, NOC_PTR_WIDTH.
  rewrite (lor_add _ (size << 14) 31), (lor_add _ k 14); rewrite ?shl_mul by lia;
    try zdm.
Qed.

Lemma active_bit x : 0 <= x < 0x100000000 -> x .& NOC_ACTIVE_BIT = (x / 0x80000000) * 0x80000000.
Proof.
  intros. unfold NOC_ACTIVE_BIT. change 0x80000000 with (1 << 31) at 1.
  apply Z.bits_inj'. intros i Hi. change 0x80000000 with (2 ^ 31).
  rewrite <- Z.shiftl_mul_pow2, <- Z.shiftr_div_pow2 by lia.
  rewrite Z.land_spec. destruct (Z.lt_ge_cases i 31).
  - rewrite !Z.shiftl_spec_low by lia. apply andb_false_r.
  - rewrite !Z.shiftl_spec, Z.shiftr_spec by lia. replace (i - 31 + 31) with i by lia.
    destruct (Z.eq_dec i 31) as [->|]; [apply andb_true_r|].
    rewrite <- (Z.mod_small x (2 ^ 32)), Z.mod_pow2_bits_high by lia. done.
Qed.

Section Entry.
Context (size k : Z) (Hs : 0 <= size < 0x10000) (Hk : 0 <= k < 0x4000).
Let e := 0x80000000 + size * 0x4000 + k.

Lemma entry_active : e .& NOC_ACTIVE_BIT <> 0.
Proof using Hs Hk. unfold e. rewrite active_bit by lia. zdm. Qed.

Lemma entry_done : (e - NOC_ACTIVE_BIT) .& NOC_ACTIVE_BIT = 0.
Proof using Hs Hk. unfold e. rewrite active_bit; unfold NOC_ACTIVE_BIT; zdm. Qed.

Lemma entry_size : size_field e = size.
Proof using Hs Hk.
  unfold e. unfold size_field, NOC_PTR_WIDTH. rewrite shr_div, land_ffff by lia. zdm.
Qed.

Lemma entry_read_ptr : ptr_field e = k.
Proof using Hs Hk. unfold e. unfold ptr_field. rewrite (Z.land_ones _ 14) by lia. zdm. Qed.

End Entry.

(** [W] of the offset of a word of the SPM. *)
Lemma word_offset `{Platform} k :
  0 <= k < 0x4000 -> u16 (W (u32 (NOC_SPM_BASE + 4 * k - NOC_SPM_BASE))) = k.
Proof.
  intros. replace (NOC_SPM_BASE + 4 * k - NOC_SPM_BASE) with (4 * k) by lia. unfold W. zdm.
Qed.

(** ** The network as it is seen by the proofs *)

Definition idle (v : Z) : bool := v .& NOC_ACTIVE_BIT =? 0.

(** What is left of a loop after it was entered. *)
Definition unroll {S A} (x : S) (body : S -> prog (bool * S)) (k : S -> prog A) : prog A :=
  r ← body x; let '(go, y) := r in if go : bool then Loop y body k else k y.

Section Network.
Context `{Platform}.

(** The DMA entry of side [s] describes a transfer of [n] words from word [src] of its SPM
    to word [dst] of the other. *)
Definition transfer (s : bool) (dst src n : Z) (c : ni) : Prop :=
  ptr_field (io c DMA_BANK (entry0 s)) = dst /\
  io c DMA_BANK (entry1 s) = 0x80000000 + n * 0x4000 + src /\
  0 <= src < 0x4000 /\ 0 <= n < 0x10000.

Lemma transfer_active s dst src n c :
  transfer s dst src n c -> idle (io c DMA_BANK (entry1 s)) = false.
Proof. intros (_&->&Hs&Hn). by apply Z.eqb_neq, entry_active. Qed.

Lemma network_idle s w : idle (io (w s) DMA_BANK (entry1 s)) = true -> network s w = w.
Proof. unfold idle, network. by intros ->. Qed.

Lemma network_move s dst src n w :
  transfer s dst src n (w s) -> moved (w s) < n ->
  let m := moved (w s) in
  let w' := network s w in
  (spm (w' s) = spm (w s) /\ io (w' s) = io (w s) /\ moved (w' s) = m + 1) /\
  spm (w' (negb s)) = put (spm (w (negb s))) (NOC_SPM_BASE + 4 * (dst + m))
                        (spm (w s) (NOC_SPM_BASE + 4 * (src + m))) /\
  io (w' (negb s)) = io (w (negb s)) /\ moved (w' (negb s)) = moved (w (negb s)).
Proof.
  intros Ht Hm. pose proof (transfer_active _ _ _ _ _ Ht) as Hi. destruct Ht as (E0&E1&Hs&Hn).
  unfold idle in Hi. unfold network. rewrite Hi, E0, E1, entry_size, entry_read_ptr by done.
  rewrite (proj2 (Z.ltb_lt _ _)) by done. cbv iota zeta.
  autorewrite with noc. done.
Qed.

Lemma network_end s dst src n w :
  transfer s dst src n (w s) -> moved (w s) = n ->
  let w' := network s w in
  (spm (w' s) = spm (w s) /\ idle (io (w' s) DMA_BANK (entry1 s)) = true /\
   io (w' s) DMA_BANK (entry0 s) = io (w s) DMA_BANK (entry0 s)) /\
  w' (negb s) = w (negb s).
Proof.
  intros Ht Hm. pose proof (transfer_active _ _ _ _ _ Ht) as Hi. destruct Ht as (E0&E1&Hs&Hn).
  unfold idle in Hi. unfold network. rewrite Hi, E1, Hm, entry_size by done.
  rewrite Z.ltb_irrefl. cbv iota zeta. autorewrite with noc. cbn [spm io].
  rewrite Z.eqb_refl, put_eq. split; [|done]. split; [done|]. split.
  - unfold idle. by rewrite entry_done.
  - rewrite put_ne; [done|]. unfold entry0, entry1. lia.
Qed.

End Network.

(** ** Words of the scratchpad by their index *)

Section Words.
Context `{Platform}.

Definition word_addr (k : Z) : Z := NOC_SPM_BASE + 4 * k.

Lemma word_addr_inj x y : word_addr x = word_addr y -> x = y.
Proof. unfold word_addr. lia. Qed.

Lemma put_word f k v x :
  put f (word_addr k) v (word_addr x) = if x =? k then v else f (word_addr x).
Proof.
  unfold put. destruct (Z.eqb_spec x k) as [->|Hne]; [by rewrite Z.eqb_refl|].
  rewrite (proj2 (Z.eqb_neq _ _)); [done|]. by intros ?%word_addr_inj.
Qed.

Lemma put_word_ne f k v x : x <> k -> put f (word_addr k) v (word_addr x) = f (word_addr x).
Proof. intros. by rewrite put_word, (proj2 (Z.eqb_neq _ _)). Qed.

(** The first [n] words of [ws] are in memory from word [k] on. *)
Definition stored (m : Z -> Z) (k : Z) (ws : list Z) (n : nat) : Prop :=
  forall j, (j < n)%nat -> m (word_addr (k + Z.of_nat j)) = nth j ws 0.

Lemma stored_put m k ws n x v :
  stored m k ws n -> (forall j, (j < n)%nat -> k + Z.of_nat j <> x) ->
  stored (put m (word_addr x) v) k ws n.
Proof. intros Hm Hx j Hj. rewrite put_word_ne by auto. by apply Hm. Qed.

Lemma stored_snoc m k ws n :
  stored m k ws n -> stored (put m (word_addr (k + Z.of_nat n)) (nth n ws 0)) k ws (S n).
Proof.
  intros Hm j Hj. rewrite put_word. destruct (Z.eqb_spec (k + Z.of_nat j) (k + Z.of_nat n)).
  - by replace j with n by lia.
  - apply Hm. lia.
Qed.

End Words.
