(* ===== verification/Lock.v ===== *)
(** * The lock between two cores (src/c/libmp/lock.c)

    Lamport's bakery algorithm for two cores whose only means of communication is writing
    into each other's scratchpad through the network: each side keeps its [entering] flag
    and its [number] and posts copies of them to the other side by DMA.

    [acquire_lock] and [release_lock] are programs of [Noc]. The two cores use the lock in an
    endless loop and are interleaved with each other and with their network interfaces in
    any way, one access at a time. The proof abstracts such a configuration to an automaton
    with one program point for each access ([side]); [core_follows] and [sim_step] show that
    the automaton follows the program, and mutual exclusion is an invariant of the automaton.
    The program points are those of the two routines between any two pieces of user code, so
    that components that use the lock can build on them ([LockUser], [Sampling]). *)

From stdpp Require Import base list numbers.
From Stdlib Require Import ZArith Lia.
From S2P Require Import Prelude Noc.

Local Open Scope Z_scope.
Local Open Scope c_scope.

(** ** The code *)

(** [LOCK_T]: the four words that the program and the network use are in the SPM at
    [lock_addr]; the two fields that are set during initialisation are fields here. *)
Record LOCK_T := Lock {
  lock_addr : Z;
  remote_ptr : Z;
  remote_cpuid : Z
}.

Definition remote_entering (a : Z) : Z := a.
Definition remote_number (a : Z) : Z := a + 4.
Definition local_entering (a : Z) : Z := a + 8.
Definition local_number (a : Z) : Z := a + 12.

(** [initialize_lock], given the block [mp_alloc] returned. *)
Definition initialize_lock (addr remote : Z) : prog LOCK_T :=
  store_spm (remote_entering addr) 0;;
  store_spm (remote_number addr) 0;;
  store_spm (local_entering addr) 0;;
  store_spm (local_number addr) 0;;
  Ret (Lock addr 0 remote).

Section Code.
Context `{Platform}.

Definition acquire_lock (id : Z) (lock : LOCK_T) : prog unit :=
  let remote := remote_cpuid lock in
  let a := lock_addr lock in
  store_spm (local_entering a) 1;;
  noc_write remote (remote_entering (remote_ptr lock)) (local_entering a) 4 0;;
  spin (d ← noc_dma_done remote; Ret (d =? 0));;
  r ← load (remote_number a);
  let n := u32 (r + 1) in
  store_spm (local_number a) n;;
  noc_write remote (remote_number (remote_ptr lock)) (local_number a) 4 0;;
  spin (d ← noc_dma_done remote; Ret (d =? 0));;
  store_spm (local_entering a) 0;;
  noc_write remote (remote_entering (remote_ptr lock)) (local_entering a) 4 0;;
  spin (e ← load (remote_entering a); Ret (e =? 1));;
  m ← load (remote_number a);
  Loop m (fun m =>
      if negb (m =? 0) && ((m <? n) || ((m =? n) && (remote <? id))) then
        m' ← load (remote_number a); Ret (true, m')
      else Ret (false, m))
    (fun _ => Ret tt).

Definition release_lock (lock : LOCK_T) : prog unit :=
  let a := lock_addr lock in
  store_spm (local_number a) 0;;
  noc_write (remote_cpuid lock) (remote_number (remote_ptr lock)) (local_number a) 4 0;;
  spin (d ← noc_dma_done (remote_cpuid lock); Ret (d =? 0)).

(** The use of the lock: again and again. The critical section is a step of its own, reading
    the timer, which the lock does not do. *)
Definition lock_user (id : Z) (lock : LOCK_T) : prog unit :=
  Loop 0 (fun _ =>
      acquire_lock id lock;;
      get_cpu_usecs;;
      release_lock lock;;
      Ret (true, 0))
    (fun _ => Ret tt).

End Code.

Definition in_critical {A} (p : prog A) : Prop :=
  match p with Usecs _ => True | _ => False end.

(** ** The automaton *)

(** The four transfers: entering := 1, number, entering := 0, number := 0. *)
Inductive xfer := X1 | X2 | X3 | X4.

Inductive wr_at := WH | WR | WS0 | WS1.

(** Program points; [n] is the own ticket. *)
Inductive pc :=
| User | Ent
| Wr (x : xfer) (p : wr_at) (n : Z)     (* in [noc_write] *)
| WaitH (x : xfer) (n : Z) | WaitR (x : xfer) (n : Z)    (* waiting for the DMA *)
| RdN | SetN (n : Z) | Ent0 (n : Z)
| SpinEH (n : Z) | SpinER (n : Z)
| RdM (n : Z) | SpinMH (m n : Z) | SpinMR (n : Z)
| CS | SetN0.

(** The transfer of a side: none, of its number or flag, or one its user has started. *)
Inductive chan := Idle | Posted (num : bool) | Moved (num : bool) | Busy.

(** One side: where it is, its flag and number, the copies of them on the other side, and
    its transfer. *)
Record side := Side {
  at_ : pc;
  el : Z; nl : Z;
  er : Z; nr : Z;
  ch : chan
}.

Definition is_num (x : xfer) : bool := match x with X2 | X4 => true | _ => false end.

Definition after_write (x : xfer) (n : Z) : pc :=
  match x with X3 => SpinEH n | _ => WaitH x n end.

Definition after_wait (x : xfer) (n : Z) : pc :=
  match x with X1 => RdN | X2 => Ent0 n | _ => User end.

(** The condition to wait for the other side. *)
Definition must_wait (id remote m n : Z) : bool :=
  negb (m =? 0) && ((m <? n) || ((m =? n) && (remote <? id))).

(** A step of the program of side [x], which sees the copies of side [y], and a step of its
    network interface. *)
Definition core_step (id remote : Z) (x y : side) : side :=
  let goto q := Side q (el x) (nl x) (er x) (nr x) (ch x) in
  match at_ x with
  | User => goto Ent
  | Ent => Side (Wr X1 WH 0) 1 (nl x) (er x) (nr x) (ch x)
  | Wr t WH n => goto (Wr t WR n)
  | Wr t WR n => goto (Wr t (match ch x with Idle => WS0 | _ => WH end) n)
  | Wr t WS0 n => goto (Wr t WS1 n)
  | Wr t WS1 n => Side (after_write t n) (el x) (nl x) (er x) (nr x) (Posted (is_num t))
  | WaitH t n => goto (WaitR t n)
  | WaitR t n => goto (match ch x with Idle => after_wait t n | _ => WaitH t n end)
  | RdN => goto (SetN (u32 (nr y + 1)))
  | SetN n => Side (Wr X2 WH n) (el x) n (er x) (nr x) (ch x)
  | Ent0 n => Side (Wr X3 WH n) 0 (nl x) (er x) (nr x) (ch x)
  | SpinEH n => goto (SpinER n)
  | SpinER n => goto (if er y =? 1 then SpinEH n else RdM n)
  | RdM n => goto (SpinMH (nr y) n)
  | SpinMH m n => goto (if must_wait id remote m n then SpinMR n else CS)
  | SpinMR n => goto (SpinMH (nr y) n)
  | CS => goto SetN0
  | SetN0 => Side (Wr X4 WH 0) (el x) 0 (er x) (nr x) (ch x)
  end.

Definition net_step (x : side) : side :=
  let '(Side p el nl er nr ch) := x in
  match ch with
  | Idle => x
  | Posted true => Side p el nl er nl (Moved true)
  | Posted false => Side p el nl el nr (Moved false)
  | Moved _ => Side p el nl er nr Idle
  | Busy => x
  end.

(** ** The invariant *)

Definition flag_in_flight (x : side) : Prop :=
  el x = 0 /\ match ch x with
             | Idle | Moved false | Busy => er x = 0
             | Posted false => er x = 1
             | _ => False
             end.

(** What holds of a side at its program point. *)
Definition side_ok (x : side) : Prop :=
  0 <= nr x /\
  match at_ x with
  | User | Ent => (ch x = Idle \/ ch x = Busy) /\ er x = 0 /\ nr x = 0
  | Wr X1 (WH | WR) _ => (ch x = Idle \/ ch x = Busy) /\ el x = 1 /\ er x = 0 /\ nr x = 0
  | Wr X1 _ _ => ch x = Idle /\ el x = 1 /\ er x = 0 /\ nr x = 0
  | WaitH X1 _ | WaitR X1 _ =>
      el x = 1 /\ nr x = 0 /\
      match ch x with
      | Idle | Moved false => er x = 1 | Posted false => er x = 0 | _ => False end
  | RdN => ch x = Idle /\ er x = 1 /\ nr x = 0
  | SetN n => ch x = Idle /\ er x = 1 /\ nr x = 0 /\ 0 <= n
  | Wr X2 _ n => ch x = Idle /\ er x = 1 /\ nr x = 0 /\ nl x = n /\ 0 <= n
  | WaitH X2 n | WaitR X2 n =>
      er x = 1 /\ nl x = n /\ 0 <= n /\
      match ch x with
      | Idle | Moved true => nr x = n | Posted true => nr x = 0 | _ => False end
  | Ent0 n => ch x = Idle /\ er x = 1 /\ nl x = n /\ nr x = n /\ 0 <= n
  | Wr X3 _ n => ch x = Idle /\ el x = 0 /\ er x = 1 /\ nl x = n /\ nr x = n /\ 0 <= n
  | SpinEH n | SpinER n | RdM n | SpinMH _ n | SpinMR n =>
      flag_in_flight x /\ nl x = n /\ nr x = n /\ 0 <= n
  | CS | SetN0 => flag_in_flight x /\ nr x = nl x /\ 0 <= nl x
  | Wr X4 (WH | WR) _ => flag_in_flight x /\ nl x = 0
  | Wr X4 _ _ => ch x = Idle /\ er x = 0 /\ nl x = 0
  | WaitH X4 _ | WaitR X4 _ =>
      er x = 0 /\ nl x = 0 /\
      match ch x with
      | Idle | Moved true => nr x = 0 | Posted true => True | _ => False end
  | WaitH X3 _ | WaitR X3 _ => False
  end.

(** The ticket of a side that has drawn one. *)
Definition ticket (x : side) : option Z :=
  match at_ x with
  | SetN n | Wr X2 _ n | WaitH X2 n | WaitR X2 n | Ent0 n | Wr X3 _ n
  | SpinEH n | SpinER n | RdM n | SpinMH _ n | SpinMR n => Some n
  | CS | SetN0 => Some (nl x)
  | _ => None
  end.

Definition drawn (x : side) : Prop := forall n, ticket x = Some n -> 0 < n.

(** [x] has seen that [y] was not drawing a ticket. *)
Definition past_entering (x : side) : bool :=
  match at_ x with RdM _ | SpinMH _ _ | SpinMR _ | CS | SetN0 => true | _ => false end.

(** [y] has drawn a ticket that may not be visible yet. *)
Definition hidden_ticket (y : side) : option Z :=
  match at_ y with SetN n | Wr X2 _ n | WaitH X2 n | WaitR X2 n => Some n | _ => None end.

(** [x] has seen that it is its turn. *)
Definition its_turn (id remote : Z) (x : side) : bool :=
  match at_ x with
  | CS | SetN0 => true
  | SpinMH m n => negb (must_wait id remote m n)
  | _ => false
  end.

Definition before (id remote n m : Z) : Prop := n < m \/ (n = m /\ id < remote).

Definition order_ok (id remote : Z) (x y : side) : Prop :=
  (past_entering x = true -> forall m, hidden_ticket y = Some m -> nl x < m) /\
  (its_turn id remote x = true -> forall m, ticket y = Some m -> before id remote (nl x) m).

Definition inv (id remote : Z) (x y : side) : Prop :=
  (side_ok x /\ drawn x) /\ (side_ok y /\ drawn y) /\
  order_ok id remote x y /\ order_ok remote id y x.

Lemma inv_sym id remote x y : inv id remote x y -> inv remote id y x.
Proof. unfold inv. tauto. Qed.

(** The numbers do not overflow. *)
Definition no_overflow (x : side) : Prop := nr x < 0xFFFFFFFF.

Lemma core_side_ok id remote x y :
  side_ok x -> side_ok y -> side_ok (core_step id remote x y).
Proof.
  intros Hx [Hy _]. pose proof (u32_range (nr y + 1)).
  destruct x as [p e_ n_ e' n' c]; unfold side_ok, flag_in_flight in *; cbn in *.
  destruct p as [| |[] [] ?|[]|[]| | | | | | | | | |], c as [|[]|[]|]; cbn in *;
    try (destruct (must_wait _ _ _ _)); try (destruct (er y =? 1)); cbn in *; intuition lia.
Qed.

Lemma net_side_ok x : side_ok x -> side_ok (net_step x).
Proof.
  destruct x as [p e_ n_ e' n' c]; unfold side_ok, flag_in_flight; cbn.
  destruct p as [| |[] [] ?|[]|[]| | | | | | | | | |], c as [|[]|[]|]; cbn; intuition (try congruence; lia).
Qed.

Lemma core_drawn id remote x y :
  side_ok x -> side_ok y -> no_overflow y -> drawn x -> drawn (core_step id remote x y).
Proof.
  intros Hx [Hy _] Ho Hd. unfold no_overflow in Ho.
  assert (0 < u32 (nr y + 1)) by (rewrite u32_small; lia).
  unfold drawn, side_ok in *. destruct x as [p e_ n_ e' n' c]; cbn in *.
  destruct p as [| |[] [] ?|[]|[]| | | | | | | | | |]; cbn in *; intros k Hk;
    try (destruct c); try (destruct (er y =? 1)); try (destruct (must_wait _ _ _ _));
    cbn in *; simplify_eq; auto; intuition (subst; auto).
Qed.

(** When [x] reads the number of [y] and need not wait, it is before [y]. *)
Lemma turn_seen id remote x y n :
  id <> remote -> side_ok y -> drawn y -> nl x = n ->
  (forall m, hidden_ticket y = Some m -> n < m) ->
  must_wait id remote (nr y) n = false ->
  forall m, ticket y = Some m -> before id remote n m.
Proof.
  intros Hid Hy Hd _ Hh Hw m Hm. unfold before. pose proof (Hd m Hm) as H0.
  destruct (hidden_ticket y) as [m'|] eqn:E.
  - specialize (Hh _ eq_refl). left.
    destruct y as [[| |[] [] ?|[]|[]| | | | | | | | | |] ? ? ? ? ?]; cbn in *; simplify_eq; done.
  - assert (nr y = m) as E1.
    { clear H0. destruct y as [[| |[] [] ?|[]|[]| | | | | | | | | |] ? ? ? ? ?]; unfold side_ok in Hy; cbn in *; simplify_eq;
        intuition congruence. }
    subst m. unfold must_wait in Hw.
    destruct (Z.eqb_spec (nr y) 0), (Z.ltb_spec (nr y) n), (Z.eqb_spec (nr y) n),
      (Z.ltb_spec remote id); cbn in Hw; try done; lia.
Qed.

Lemma past_nl x : side_ok x -> past_entering x = true -> nr x = nl x.
Proof.
  destruct x as [[] ? ? ? ? ?]; unfold side_ok; cbn; try done; intuition congruence.
Qed.

Lemma turn_past id remote x : its_turn id remote x = true -> past_entering x = true.
Proof. by destruct x as [[] ? ? ? ? ?]. Qed.

Lemma core_order_own id remote x y :
  id <> remote -> side_ok x -> side_ok y -> drawn y -> order_ok id remote x y ->
  order_ok id remote (core_step id remote x y) y.
Proof.
  intros Hid Hx Hy Hd [H1 H2].
  assert (forall n, must_wait id remote (nr y) n = false -> past_entering x = true -> nl x = n ->
            forall m, ticket y = Some m -> before id remote n m) as Hturn.
  { intros n Hw Hp Hn. eapply turn_seen; eauto. subst n. auto. }
  destruct x as [p e_ n_ e' n' c]; unfold order_ok, side_ok in *; cbn in *.
  destruct p as [| |[] [] ?|[]|[]| | | | | | | | | |]; cbn in *;
    try (split; [done|done]); try (destruct c; split; done); try (split; [by auto|by auto]).
  - destruct (Z.eqb_spec (er y) 1) as [|He]; (split; [|done]); [done|].
    intros _ m Hm. exfalso. destruct y as [[| |[] [] ?|[]|[]| | | | | | | | | |] ? ? ? ? ?]; cbn in *; simplify_eq;
      intuition congruence.
  - split; [by auto|]. intros Hw%negb_true_iff. destruct Hx as (_&_&->&_). by apply Hturn.
  - destruct (must_wait id remote m n) eqn:Hw; cbn in *; split; auto; done.
  - split; [by auto|]. intros Hw%negb_true_iff. destruct Hx as (_&_&->&_). by apply Hturn.
Qed.

Lemma core_order_other id remote x y :
  side_ok x -> side_ok y -> no_overflow y -> order_ok remote id y x ->
  order_ok remote id y (core_step id remote x y).
Proof.
  intros Hx Hy Ho [H1 H2]. unfold no_overflow in Ho.
  assert (past_entering y = true -> u32 (nr y + 1) = nl y + 1) as Hn.
  { intros Hp. rewrite <- (past_nl y) by done. apply u32_small. destruct Hy. lia. }
  split; [intros Hp; specialize (H1 Hp); specialize (Hn Hp)
         |intros Ht; specialize (Hn (turn_past _ _ _ Ht)); specialize (H2 Ht); clear H1];
  destruct x as [p e_ n_ e' n' c]; unfold side_ok, before in *; cbn in *;
  destruct p as [| |[] [] ?|[]|[]| | | | | | | | | |]; cbn in *; intros k Hk;
    try (destruct c); try (destruct (er y =? 1)); try (destruct (must_wait _ _ _ _));
    cbn in *; simplify_eq; auto; try lia; intuition (subst; auto; try lia).
Qed.

Lemma core_inv id remote x y :
  id <> remote -> no_overflow y -> inv id remote x y -> inv id remote (core_step id remote x y) y.
Proof.
  intros Hid Ho ([Hx Hdx]&[Hy Hdy]&H1&H2).
  split; [split; [by apply core_side_ok|by apply core_drawn]|]. split; [done|].
  split; [by apply core_order_own|by apply core_order_other].
Qed.

Lemma net_at x : at_ (net_step x) = at_ x.
Proof. by destruct x as [? ? ? ? ? [|[]| |]]. Qed.

Lemma net_nl x : nl (net_step x) = nl x.
Proof. by destruct x as [? ? ? ? ? [|[]| |]]. Qed.

Lemma net_inv id remote x y : inv id remote x y -> inv id remote (net_step x) y.
Proof.
  intros ([Hx Hdx]&Hy&H1&H2). split; [split; [by apply net_side_ok|]|split; [done|]];
    revert Hdx H1 H2; unfold drawn, order_ok, past_entering, hidden_ticket, its_turn, ticket; rewrite net_at, net_nl; done.
Qed.

Lemma inv_mutex id remote x y :
  inv id remote x y -> id <> remote -> ~ (at_ x = CS /\ at_ y = CS).
Proof.
  intros (_&_&[_ H1]&[_ H2]) Hid [Ex Ey].
  unfold its_turn, ticket in *. rewrite Ex, Ey in *.
  specialize (H1 eq_refl _ eq_refl). specialize (H2 eq_refl _ eq_refl).
  unfold before in *. lia.
Qed.

(** ** The automaton follows the program *)

(** The rest of the program from each point of the two routines, where the user goes on with
    [k_in] when it has the lock and with [k_out] when it has released it. *)
Section Points.
Context `{Platform} {A : Type} (id : Z) (L : LOCK_T) (k_in k_out : prog A).

Let a := lock_addr L.
Let remote := remote_cpuid L.
Let rp := remote_ptr L.

Definition dst_of (f : bool) : Z := if f then remote_number rp else remote_entering rp.
Definition src_of (f : bool) : Z := if f then local_number a else local_entering a.

Definition word0 (f : bool) : Z :=
  u32 ((DATA_PKT_TYPE << NOC_PTR_WIDTH) .| u16 (W (u32 (dst_of f - NOC_SPM_BASE)))).
Definition word1 (f : bool) : Z :=
  u32 (NOC_ACTIVE_BIT .| (u16 (W 4) << NOC_PTR_WIDTH) .| u16 (W (u32 (src_of f - NOC_SPM_BASE)))).

Definition write_body (f : bool) (_ : Z) : prog (bool * Z) :=
  c ← (r ← noc_nbwrite remote (dst_of f) (src_of f) 4 0; Ret (r =? 0)); Ret (c, 0).
Definition wait_body (_ : Z) : prog (bool * Z) :=
  c ← (d ← noc_dma_done remote; Ret (d =? 0)); Ret (c, 0).
Definition entering_body (_ : Z) : prog (bool * Z) :=
  c ← (e ← load (remote_entering a); Ret (e =? 1)); Ret (c, 0).
Definition turn_body (n m : Z) : prog (bool * Z) :=
  if must_wait id remote m n then m' ← load (remote_number a); Ret (true, m')
  else Ret (false, m).

(** Last point first. *)
Definition t_wait4 : prog A := Loop 0 wait_body (fun _ => k_out).
Definition t_write4 : prog A := Loop 0 (write_body true) (fun _ => t_wait4).
Definition t_release : prog A := Store (local_number a) 0 t_write4.
Definition t_turn (n m : Z) : prog A := Loop m (turn_body n) (fun _ => k_in).
Definition t_number (n : Z) : prog A := Load (remote_number a) (t_turn n).
Definition t_entering (n : Z) : prog A := Loop 0 entering_body (fun _ => t_number n).
Definition t_write3 (n : Z) : prog A := Loop 0 (write_body false) (fun _ => t_entering n).
Definition t_enter0 (n : Z) : prog A := Store (local_entering a) 0 (t_write3 n).
Definition t_wait2 (n : Z) : prog A := Loop 0 wait_body (fun _ => t_enter0 n).
Definition t_write2 (n : Z) : prog A := Loop 0 (write_body true) (fun _ => t_wait2 n).
Definition t_set (n : Z) : prog A := Store (local_number a) n (t_write2 n).
Definition t_draw : prog A := Load (remote_number a) (fun r => t_set (u32 (r + 1))).
Definition t_wait1 : prog A := Loop 0 wait_body (fun _ => t_draw).
Definition t_write1 : prog A := Loop 0 (write_body false) (fun _ => t_wait1).
Definition t_enter : prog A := Store (local_entering a) 1 t_write1.

(** The point after a transfer was started, and after it has ended. *)
Definition after_post (x : xfer) (n : Z) : prog A :=
  match x with X1 => t_wait1 | X2 => t_wait2 n | X3 => t_entering n | X4 => t_wait4 end.
Definition after_done (x : xfer) (n : Z) : prog A :=
  match x with X1 => t_draw | X2 => t_enter0 n | X3 => k_out | X4 => k_out end.

Definition code_of (p : pc) : prog A :=
  match p with
  | User => k_out
  | Ent => t_enter
  | Wr x WH n => Loop 0 (write_body (is_num x)) (fun _ => after_post x n)
  | Wr x WR n => unroll 0 (write_body (is_num x)) (fun _ => after_post x n)
  | Wr x WS0 n =>
      IoStore DMA_BANK (remote << 1) (word0 (is_num x))
        (IoStore DMA_BANK ((remote << 1) + 1) (word1 (is_num x)) (after_post x n))
  | Wr x WS1 n => IoStore DMA_BANK ((remote << 1) + 1) (word1 (is_num x)) (after_post x n)
  | WaitH x n => Loop 0 wait_body (fun _ => after_done x n)
  | WaitR x n => unroll 0 wait_body (fun _ => after_done x n)
  | RdN => t_draw
  | SetN n => t_set n
  | Ent0 n => t_enter0 n
  | SpinEH n => t_entering n
  | SpinER n => unroll 0 entering_body (fun _ => t_number n)
  | RdM n => t_number n
  | SpinMH m n => t_turn n m
  | SpinMR n => Load (remote_number a) (t_turn n)
  | CS => k_in
  | SetN0 => t_release
  end.

(** Reading the status of the DMA entry at the two kinds of points. *)
Lemma write_status x n : exists k,
  code_of (Wr x WR n) = IoLoad DMA_BANK ((remote << 1) + 1) k /\
  forall v, k v = code_of (Wr x (if idle v then WS0 else WH) n).
Proof.
  eexists. split; [reflexivity|]. intros v. unfold idle. cbv beta.
  destruct (v .& NOC_ACTIVE_BIT =? 0); destruct x; reflexivity.
Qed.

Lemma wait_status x n : exists k,
  code_of (WaitR x n) = IoLoad DMA_BANK ((remote << 1) + 1) k /\
  forall v, k v = if idle v then after_done x n else code_of (WaitH x n).
Proof.
  eexists. split; [reflexivity|]. intros v. unfold idle. cbv beta.
  destruct (v .& NOC_ACTIVE_BIT =? 0); destruct x; reflexivity.
Qed.

Lemma entering_status n : exists k,
  code_of (SpinER n) = Load (remote_entering a) k /\
  forall v, k v = code_of (if v =? 1 then SpinEH n else RdM n).
Proof. eexists. split; [reflexivity|]. intros v. cbn. destruct (v =? 1); reflexivity. Qed.

Lemma turn_status m n :
  unroll m (turn_body n) (fun _ => k_in) =
  code_of (if must_wait id remote m n then SpinMR n else CS).
Proof. unfold unroll, turn_body. destruct (must_wait id remote m n); reflexivity. Qed.

Lemma acquire_points : (acquire_lock id L;; k_in) = t_enter.
Proof. reflexivity. Qed.

Lemma release_points : (release_lock L;; k_out) = t_release.
Proof. reflexivity. Qed.

End Points.

(** The two locks are set up ([initialize_lock] and [mp_init_ports]): they are in the SPM,
    and each knows the other. *)
Class Locks `{Platform} := {
  lk : bool -> LOCK_T;
  slot : bool -> Z;
  lk_addr : forall s, lock_addr (lk s) = NOC_SPM_BASE + 4 * slot s;
  lk_slot : forall s, 0 <= slot s /\ slot s + 4 <= 0x4000;
  lk_remote : forall s, remote_ptr (lk s) = lock_addr (lk (negb s));
  lk_cpuid : forall s, remote_cpuid (lk s) = core_id (negb s);
  lk_ids : core_id true <> core_id false
}.

Section Simulation.
Context `{Locks}.

Definition w_slot (s f : bool) : Z := slot (negb s) + (if f then 1 else 0).
Definition r_slot (s f : bool) : Z := slot s + (if f then 3 else 2).

Lemma dst_slot s f : dst_of (lk s) f = NOC_SPM_BASE + 4 * w_slot s f.
Proof.
  unfold dst_of, w_slot, remote_number, remote_entering. rewrite lk_remote, lk_addr.
  destruct f; lia.
Qed.

Lemma src_slot s f : src_of (lk s) f = NOC_SPM_BASE + 4 * r_slot s f.
Proof.
  unfold src_of, r_slot, local_number, local_entering. rewrite lk_addr. destruct f; lia.
Qed.

Lemma word0_ptr s f : ptr_field (word0 (lk s) f) = w_slot s f.
Proof.
  unfold word0. rewrite dst_slot, word_offset.
  - apply entry_write_ptr; [unfold DATA_PKT_TYPE; lia|].
    unfold w_slot. pose proof (lk_slot (negb s)). destruct f; lia.
  - unfold w_slot. pose proof (lk_slot (negb s)). destruct f; lia.
Qed.

Lemma word1_value s f : word1 (lk s) f = 0x80000000 + 1 * 0x4000 + r_slot s f.
Proof.
  unfold word1. rewrite src_slot, word_offset.
  2:{ unfold r_slot. pose proof (lk_slot s). destruct f; lia. }
  change (u16 (W 4)) with 1. rewrite entry_read; [lia|lia|].
  unfold r_slot. pose proof (lk_slot s). destruct f; lia.
Qed.

Lemma r_slot_range s f : 0 <= r_slot s f < 0x4000.
Proof. unfold r_slot. pose proof (lk_slot s). destruct f; lia. Qed.

Lemma posted_transfer s f c :
  io c DMA_BANK (entry0 s) = word0 (lk s) f /\ io c DMA_BANK (entry1 s) = word1 (lk s) f ->
  transfer s (w_slot s f) (r_slot s f) 1 c.
Proof.
  intros [E0 E1]. unfold transfer. rewrite E0, E1, word0_ptr, word1_value.
  repeat (split; [done|]). split; [apply r_slot_range|lia].
Qed.

Definition posted (s f : bool) (c : ni) : Prop :=
  io c DMA_BANK (entry0 s) = word0 (lk s) f /\ io c DMA_BANK (entry1 s) = word1 (lk s) f.

(** The memory of the two cores is what the view [z] of side [s] says. *)
Definition mem_ok (s : bool) (z : side) (w : world) : Prop :=
  let a := lock_addr (lk s) in
  let b := lock_addr (lk (negb s)) in
  (spm (w s) (local_entering a) = el z /\ spm (w s) (local_number a) = nl z) /\
  (spm (w (negb s)) (remote_entering b) = er z /\ spm (w (negb s)) (remote_number b) = nr z) /\
  match ch z with
  | Idle => idle (io (w s) DMA_BANK (entry1 s)) = true
  | Posted f => posted s f (w s) /\ moved (w s) = 0
  | Moved f => posted s f (w s) /\ moved (w s) = 1
  | Busy => idle (io (w s) DMA_BANK (entry1 s)) = false
  end /\
  match at_ z with
  | Wr x WS1 _ => io (w s) DMA_BANK (entry0 s) = word0 (lk s) (is_num x)
  | _ => True
  end.

(** It speaks of the words of the locks and the DMA entry of side [s] only. *)
Lemma mem_frame s z w w' :
  let a := lock_addr (lk s) in
  let b := lock_addr (lk (negb s)) in
  mem_ok s z w ->
  spm (w' s) (local_entering a) = spm (w s) (local_entering a) ->
  spm (w' s) (local_number a) = spm (w s) (local_number a) ->
  spm (w' (negb s)) (remote_entering b) = spm (w (negb s)) (remote_entering b) ->
  spm (w' (negb s)) (remote_number b) = spm (w (negb s)) (remote_number b) ->
  io (w' s) = io (w s) -> moved (w' s) = moved (w s) ->
  mem_ok s z w'.
Proof. unfold mem_ok, posted. by intros ? -> -> -> -> -> ->. Qed.

(** What a read of the status shows. *)
Lemma status_idle s z w :
  mem_ok s z w ->
  idle (io (w s) DMA_BANK (entry1 s)) = match ch z with Idle => true | _ => false end.
Proof.
  intros (_&_&Hc&_). destruct (ch z); [done|..|done]; by eapply transfer_active, (posted_transfer s num), Hc.
Qed.

Lemma entry_eq s : core_id (negb s) << 1 = entry0 s.
Proof. done. Qed.

(** The word of a transfer moves. *)
Lemma posted_move s f w :
  posted s f (w s) -> moved (w s) = 0 ->
  let w' := network s w in
  (spm (w' s) = spm (w s) /\ io (w' s) = io (w s) /\ moved (w' s) = 1) /\
  spm (w' (negb s)) = put (spm (w (negb s))) (dst_of (lk s) f) (spm (w s) (src_of (lk s) f)) /\
  io (w' (negb s)) = io (w (negb s)) /\ moved (w' (negb s)) = moved (w (negb s)).
Proof.
  intros Hq Hm. pose proof (network_move s _ _ _ w (posted_transfer s f _ Hq)) as Hn.
  cbv zeta in Hn. rewrite Hm, !Z.add_0_r, <- dst_slot, <- src_slot in Hn. apply Hn. lia.
Qed.

(** The fields of a lock are different words. *)
Ltac fields :=
  repeat first [rewrite put_eq | rewrite put_ne by (unfold remote_entering, remote_number, local_entering, local_number; lia)].

Lemma dst_field s f :
  dst_of (lk s) f = if f then remote_number (lock_addr (lk (negb s)))
                    else remote_entering (lock_addr (lk (negb s))).
Proof. unfold dst_of. by rewrite lk_remote. Qed.

Lemma net_mem_own s z w : ch z <> Busy -> mem_ok s z w -> mem_ok s (net_step z) (network s w).
Proof.
  destruct z as [p e n e' n' c]. intros Hb (Hl&Hr&Hc&Hp). unfold mem_ok in *. cbn in Hb, Hl, Hr, Hc, Hp.
  destruct c as [|f|f|]; cbn [net_step]; [..|done].
  - by rewrite network_idle.
  - destruct Hc as [Hq Hm]. destruct (posted_move s f w Hq Hm) as ((E1&E2&E3)&E4&E5&E6).
    unfold posted in *. rewrite E1, E2, E3, E4, dst_field. destruct Hl, Hr.
    destruct f; cbn; fields; done.
  - destruct Hc as [Hq Hm]. destruct (network_end s _ _ _ w (posted_transfer s f _ Hq) Hm) as ((E1&E2&E3)&E4).
    destruct f; cbn; rewrite E1, E4, E3; done.
Qed.

(** The other side does not notice, but for the copies in its SPM. *)
Lemma net_mem_other s z z' w :
  ch z <> Busy -> mem_ok s z w -> mem_ok (negb s) z' w -> mem_ok (negb s) z' (network s w).
Proof.
  destruct z as [p e n e' n' c]. intros Hb (Hl&Hr&Hc&Hp). unfold mem_ok. rewrite !negb_involutive.
  cbn in Hb, Hl, Hr, Hc, Hp. intros H'.
  destruct c as [|f|f|]; [..|done].
  - by rewrite network_idle.
  - destruct Hc as [Hq Hm]. destruct (posted_move s f w Hq Hm) as ((E1&E2&E3)&E4&E5&E6).
    unfold posted in *. rewrite E1, E4, E5, E6, dst_field. destruct f; fields; exact H'.
  - destruct Hc as [Hq Hm]. destruct (network_end s _ _ _ w (posted_transfer s f _ Hq) Hm) as ((E1&E2&E3)&E4).
    unfold posted in *. rewrite E1, E4. exact H'.
Qed.

(** A store of side [s] into one of its own words, and a write of its DMA entry. *)
Lemma store_other s z w c :
  mem_ok (negb s) z w ->
  spm c (remote_entering (lock_addr (lk s))) = spm (w s) (remote_entering (lock_addr (lk s))) ->
  spm c (remote_number (lock_addr (lk s))) = spm (w s) (remote_number (lock_addr (lk s))) ->
  mem_ok (negb s) z (set_ni w s c).
Proof.
  unfold mem_ok. rewrite !negb_involutive, set_ni_ne, set_ni_eq. by intros ? -> ->.
Qed.

(** A step that changes only the program point. *)
Lemma mem_goto s z w q :
  mem_ok s z w -> match q with Wr _ WS1 _ => False | _ => True end ->
  mem_ok s (Side q (el z) (nl z) (er z) (nr z) (ch z)) w.
Proof.
  intros (?&?&?&_) Hq. repeat (split; [done|]). cbn. by destruct q as [| |? [] ?| | | | | | | | | | | |].
Qed.

Section Routines.
Context {A : Type} (k_in k_out : prog A).

Definition follows (s : bool) (z y : side) (pw : prog A * world) : Prop :=
  let z' := core_step (core_id s) (core_id (negb s)) z y in
  pw.1 = code_of (core_id s) (lk s) k_in k_out (at_ z') /\ mem_ok s z' pw.2 /\ mem_ok (negb s) y pw.2.

(** The steps that read. *)
Lemma core_reads s t z y w :
  mem_ok s z w -> mem_ok (negb s) y w ->
  match at_ z with
  | User | CS | Ent | Wr _ WS0 _ | Wr _ WS1 _ | SetN _ | Ent0 _ | SetN0 => False
  | WaitH x _ | WaitR x _ => x <> X3
  | _ => True
  end ->
  follows s z y (access s t (code_of (core_id s) (lk s) k_in k_out (at_ z)) w).
Proof.
  intros Hz Hy Hp. pose proof (status_idle _ _ _ Hz) as Hi.
  assert (spm (w s) (remote_entering (lock_addr (lk s))) = er y /\
          spm (w s) (remote_number (lock_addr (lk s))) = nr y) as [He Hn].
  { destruct Hy as (_&Hr&_). by rewrite !negb_involutive in Hr. }
  unfold follows, core_step. set (id := core_id s) in *.
  destruct (at_ z) as [| |x [] k|x k|x k| |k|k|k|k|k|m k|k| |]; try done.
  - split; [reflexivity|]. split; [|done]. by apply mem_goto.
  - destruct (write_status id (lk s) k_in k_out x k) as (f&->&Hf). cbn [access fst snd]. rewrite Hf.
    rewrite lk_cpuid. fold (entry1 s). rewrite Hi. split; [by destruct (ch z)|].
    split; [|done]. apply mem_goto; [done|]. by destruct (ch z).
  - split; [by destruct x|]. split; [|done]. by apply mem_goto.
  - destruct (wait_status id (lk s) k_in k_out x k) as (f&->&Hf). cbn [access fst snd]. rewrite Hf.
    rewrite lk_cpuid. fold (entry1 s). rewrite Hi. split; [destruct (ch z), x; done|].
    split; [|done]. apply mem_goto; [done|]. by destruct (ch z), x.
  - cbn [access fst snd code_of t_draw]. rewrite Hn. split; [reflexivity|].
    split; [|done]. by apply mem_goto.
  - split; [reflexivity|]. split; [|done]. by apply mem_goto.
  - destruct (entering_status id (lk s) k_in k_out k) as (f&->&Hf). cbn [access fst snd]. rewrite Hf, He.
    split; [done|]. split; [|done]. apply mem_goto; [done|]. by destruct (er y =? 1).
  - cbn [access fst snd code_of t_number]. rewrite Hn. split; [reflexivity|].
    split; [|done]. by apply mem_goto.
  - cbn [access fst snd code_of t_turn]. fold (unroll m (turn_body id (lk s) k) (fun _ => k_in)).
    rewrite (turn_status id (lk s) k_in k_out), lk_cpuid. split; [done|]. split; [|done]. apply mem_goto; [done|].
    by destruct (must_wait _ _ _ _).
  - cbn [access fst snd code_of]. rewrite Hn. split; [reflexivity|].
    split; [|done]. by apply mem_goto.
Qed.

(** The steps that write the SPM or start a transfer. *)
Lemma core_writes s t z y w :
  mem_ok s z w -> mem_ok (negb s) y w ->
  match at_ z with
  | Wr _ WS0 _ | Wr _ WS1 _ => ch z = Idle
  | Ent | SetN _ | Ent0 _ | SetN0 => True
  | _ => False
  end ->
  follows s z y (access s t (code_of (core_id s) (lk s) k_in k_out (at_ z)) w).
Proof.
  intros Hz Hy Hp. unfold follows, core_step. set (id := core_id s) in *.
  destruct Hz as (Hl&Hr&Hc&Hq). destruct Hl, Hr.
  destruct (at_ z) as [| |x [] k|x k|x k| |k|k|k|k|k|m k|k| |]; try done;
    (split; [by try destruct x|]);
    cbn [code_of access fst snd t_enter t_set t_enter0 t_release];
    (split; [|apply store_other; [done| |]; cbn [spm]; fields; done]);
    unfold mem_ok; autorewrite with noc; cbn [spm io moved at_ el nl er nr ch]; fields.
  all: try (repeat (split; [done|]); done).
  - rewrite Hp in *. repeat (split; [done|]). rewrite Z.eqb_refl, lk_cpuid, entry_eq.
    split; [|by rewrite put_eq]. rewrite put_ne by (unfold entry0, entry1; lia). done.
  - repeat (split; [done|]). unfold posted. cbn [io]. rewrite !Z.eqb_refl, lk_cpuid.
    fold (entry1 s). rewrite put_eq, put_ne, Z.eqb_refl by (unfold entry0, entry1; lia).
    by destruct x.
Qed.

Lemma core_follows s t z y w :
  at_ z <> User -> at_ z <> CS -> mem_ok s z w -> mem_ok (negb s) y w -> side_ok z ->
  follows s z y (access s t (code_of (core_id s) (lk s) k_in k_out (at_ z)) w).
Proof.
  intros Hu Hc Hz Hy [_ Hok].
  destruct (at_ z) as [| |x [] k|x k|x k| |k|k|k|k|k|m k|k| |] eqn:E; rewrite <- E; try done;
    first [apply core_reads; [done|done|]; rewrite E; try done; by destruct x
          |apply core_writes; [done|done|]; rewrite E; try done; destruct x; apply Hok].
Qed.

End Routines.

(** *** The simulation *)

Definition updb {A} (f : bool -> A) (s : bool) (a : A) : bool -> A :=
  fun b => if Bool.eqb b s then a else f b.

Definition sides (v : bool -> side) (c : choice) : bool -> side :=
  match c with
  | Run s _ => updb v s (core_step (core_id s) (core_id (negb s)) (v s) (v (negb s)))
  | Net s => updb v s (net_step (v s))
  end.

(** The user of the lock in its critical section, and all its points. *)
Definition critical (s : bool) : prog unit :=
  Usecs (fun _ => t_release (lk s) (lock_user (core_id s) (lk s))).
Definition user_code (s : bool) (p : pc) : prog unit :=
  code_of (core_id s) (lk s) (critical s) (lock_user (core_id s) (lk s)) p.

Definition sim (x : config unit) (v : bool -> side) : Prop :=
  forall s, code x s = user_code s (at_ (v s)) /\ mem_ok s (v s) (mem x) /\ ch (v s) <> Busy.

Lemma user_follows s t z y w :
  mem_ok s z w -> mem_ok (negb s) y w -> side_ok z ->
  follows (critical s) (lock_user (core_id s) (lk s)) s z y (access s t (user_code s (at_ z)) w).
Proof.
  intros Hz Hy Hok. unfold user_code.
  destruct (at_ z) eqn:E; rewrite <- E; try (apply core_follows; [by rewrite E..|done|done|done]).
  all: unfold follows, core_step; rewrite E; split; [reflexivity|]; split; [|done]; by apply mem_goto.
Qed.

Lemma core_busy id remote x y : ch x <> Busy -> ch (core_step id remote x y) <> Busy.
Proof. by destruct x as [[| |? []| | | | | | | | | | | |] ? ? ? ? []]. Qed.

Lemma net_busy x : ch x <> Busy -> ch (net_step x) <> Busy.
Proof. by destruct x as [? ? ? ? ? [|[]|[]|]]. Qed.

Lemma sim_step x v c :
  sim x v -> (forall s, side_ok (v s)) -> sim (do_choice c x) (sides v c).
Proof.
  intros Hs Hok. destruct c as [s t|s]; cbn [do_choice sides].
  - destruct (Hs s) as (Hc&Hm1&Hb), (Hs (negb s)) as (Hc'&Hm2&Hb').
    pose proof (user_follows s t (v s) (v (negb s)) (mem x) Hm1 Hm2 (Hok s)) as Hf.
    rewrite <- Hc in Hf. destruct (access s t (code x s) (mem x)) as [p w].
    destruct Hf as (Hp&Hm&Ho). cbn [fst snd] in *.
    intros b. unfold updb. cbn [code mem]. destruct (Bool.eqb_spec b s) as [->|Hne].
    + split; [done|]. split; [done|]. by apply core_busy.
    + assert (b = negb s) as -> by (by destruct b, s). done.
  - intros b. unfold updb. cbn [code mem]. destruct (Bool.eqb_spec b s) as [->|Hne].
    + rewrite net_at. split; [apply Hs|]. split; [apply net_mem_own; apply Hs|apply net_busy, Hs].
    + assert (b = negb s) as -> by (by destruct b, s). split; [apply Hs|].
      split; [eapply net_mem_other; apply Hs|apply Hs].
Qed.

(** ** Mutual exclusion *)

(** The words the sides compute their next numbers from can be incremented. *)
Definition numbers_ok (w : world) : Prop :=
  forall s, spm (w s) (remote_number (lock_addr (lk s))) < 0xFFFFFFFF.

(** The executions from [x0] in which the numbers have not overflowed. *)
Inductive reachable (x0 : config unit) : config unit -> Prop :=
| reach_init : reachable x0 x0
| reach_step x c : reachable x0 x -> numbers_ok (mem x) -> reachable x0 (do_choice c x).

(** Both locks have been initialised, no transfer is active, and both cores start to use the
    lock. *)
Definition lock_start (x : config unit) : Prop :=
  (exists w w' r r',
     exec 4 true (initialize_lock (lock_addr (lk true)) r) w = Some (Lock (lock_addr (lk true)) 0 r, w') /\
     exec 4 false (initialize_lock (lock_addr (lk false)) r') w' =
       Some (Lock (lock_addr (lk false)) 0 r', mem x)) /\
  (forall s, idle (io (mem x s) DMA_BANK (entry1 s)) = true) /\
  (forall s, code x s = lock_user (core_id s) (lk s)).

Definition start_side (x : config unit) (s : bool) : side :=
  Side User (spm (mem x s) (local_entering (lock_addr (lk s))))
    (spm (mem x s) (local_number (lock_addr (lk s)))) 0 0 Idle.

Lemma start_zero x s :
  lock_start x ->
  spm (mem x s) (remote_entering (lock_addr (lk s))) = 0 /\
  spm (mem x s) (remote_number (lock_addr (lk s))) = 0.
Proof.
  intros ((w&w'&r&r'&E1&E2)&_). cbn in E1, E2. injection E1 as <-. injection E2 as <-.
  destruct s; cbn; fields; done.
Qed.

Lemma start_sim x : lock_start x -> sim x (start_side x).
Proof.
  intros Hs. pose proof (fun s => start_zero x s Hs) as Hz. destruct Hs as (_&Hi&Hc). intros s.
  split; [apply Hc|]. split; [|done]. unfold mem_ok. cbn.
  destruct (Hz (negb s)) as [-> ->]. repeat (split; [done|]). done.
Qed.

Lemma start_inv x id remote : inv id remote (start_side x true) (start_side x false).
Proof. unfold inv, side_ok, drawn, order_ok, start_side; cbn. intuition (try discriminate; lia). Qed.

Lemma numbers_side x v s : sim x v -> numbers_ok (mem x) -> no_overflow (v s).
Proof.
  intros Hs Hn. unfold no_overflow. destruct (Hs s) as [_ [(_&[_ <-]&_) _]]. apply Hn.
Qed.

Lemma sides_inv x v c :
  sim x v -> numbers_ok (mem x) ->
  inv (core_id true) (core_id false) (v true) (v false) ->
  inv (core_id true) (core_id false) (sides v c true) (sides v c false).
Proof.
  intros Hs Hn Hv. pose proof lk_ids as Hid.
  destruct c as [[] t|[]]; cbn.
  - apply core_inv; [done|by eapply numbers_side|done].
  - apply inv_sym, core_inv; [done|by eapply numbers_side|by apply inv_sym].
  - by apply net_inv.
  - by apply inv_sym, net_inv, inv_sym.
Qed.

Lemma reachable_sim x0 x :
  lock_start x0 -> reachable x0 x ->
  exists v, sim x v /\ inv (core_id true) (core_id false) (v true) (v false).
Proof.
  intros Hst. induction 1 as [|x c _ (v&Hs&Hv) Hn].
  - exists (start_side x0). split; [by apply start_sim|apply start_inv].
  - exists (sides v c). split; [|by eapply sides_inv].
    apply sim_step; [done|]. intros []; apply Hv.
Qed.

Lemma critical_point s p : in_critical (user_code s p) -> p = CS.
Proof. by destruct p as [| |[] []| | | | | | | | | | | |]. Qed.

(** Claim C3. Mutual exclusion: two cores that use the lock, interleaved with each other and
    with the network in any way, are never in the critical section at the same time, as long
    as the numbers they draw do not overflow. *)
Theorem lock_mutual_exclusion x0 x :
  lock_start x0 -> reachable x0 x ->
  ~ (in_critical (code x true) /\ in_critical (code x false)).
Proof.
  intros Hst Hr [Ht Hf]. destruct (reachable_sim x0 x Hst Hr) as (v&Hs&Hv).
  rewrite (proj1 (Hs true)) in Ht. rewrite (proj1 (Hs false)) in Hf.
  apply (inv_mutex _ _ _ _ Hv lk_ids). split; by eapply critical_point.
Qed.

(** ** Overflow *)

(** Steps of one side, [true] for the program and [false] for the network. *)
Definition solo (id remote : Z) (y : side) (cs : list bool) (x : side) : side :=
  foldl (fun x (c : bool) => if c then core_step id remote x y else net_step x) x cs.

Definition solo_choice (s c : bool) : choice := if c then Run s 0 else Net s.

Lemma solo_sides s cs v :
  foldl sides v (solo_choice s <$> cs) s =
    solo (core_id s) (core_id (negb s)) (v (negb s)) cs (v s) /\
  foldl sides v (solo_choice s <$> cs) (negb s) = v (negb s).
Proof.
  revert v. induction cs as [|c cs IH]; intros v; [done|].
  assert (forall z, updb v s z (negb s) = v (negb s)) as Hu by (intros; by destruct s).
  assert (forall z, updb v s z s = z) as He by (intros; by destruct s).
  cbn [fmap list_fmap foldl]. destruct (IH (sides v (solo_choice s c))) as [-> ->].
  destruct c; cbn [sides solo_choice]; by rewrite Hu, He.
Qed.

Lemma sides_ok v c : (forall s, side_ok (v s)) -> forall s, side_ok (sides v c s).
Proof.
  intros Hv s. destruct c as [b t|b]; cbn; unfold updb; destruct (Bool.eqb_spec s b); subst; auto.
  - by apply core_side_ok.
  - by apply net_side_ok.
Qed.

Lemma run_sim cs x v :
  sim x v -> (forall s, side_ok (v s)) -> sim (run_choices cs x) (foldl sides v cs).
Proof.
  revert x v. induction cs as [|c cs IH]; intros x v Hs Hv; [done|].
  apply IH; [by apply sim_step|by apply sides_ok].
Qed.

(** One side goes through [acquire_lock] up to where it sees the other side's number, or
    through [release_lock]. *)
Definition acquire_run : list bool :=
  replicate 6 true ++ [false; false] ++ replicate 8 true ++ [false; false] ++
  replicate 7 true ++ [false; false] ++ replicate 4 true.
Definition release_run : list bool := replicate 6 true ++ [false; false; true; true].

Definition holder (k : Z) : side := Side CS 0 k 0 k Idle.
Definition rests (x : side) : Prop := exists e n, x = Side User e n 0 0 Idle.

Lemma acquire_solo id remote y e n :
  er y = 0 ->
  solo id remote y acquire_run (Side User e n 0 0 Idle) =
  let k := u32 (nr y + 1) in
  Side (if must_wait id remote (nr y) k then SpinMR k else CS) 0 k 0 k Idle.
Proof.
  intros He. unfold solo, acquire_run. cbn -[u32 must_wait Z.eqb]. rewrite He. reflexivity.
Qed.

(** *** Entries to the critical section *)

Definition is_critical {A} (p : prog A) : bool := match p with Usecs _ => true | _ => false end.

(** How many cores enter the critical section from one state to the next, given which are in it. *)
Definition enters (f g : bool -> bool) : Z :=
  Z.b2z (negb (f true) && g true) + Z.b2z (negb (f false) && g false).

(** The number of entries in an execution, and that no state of it has both cores in. *)
Fixpoint entries (cs : list choice) (x : config unit) : Z :=
  match cs with
  | [] => 0
  | c :: cs =>
      enters (fun s => is_critical (code x s)) (fun s => is_critical (code (do_choice c x) s)) +
      entries cs (do_choice c x)
  end.

Fixpoint exclusive (cs : list choice) (x : config unit) : bool :=
  negb (is_critical (code x true) && is_critical (code x false)) &&
  match cs with [] => true | c :: cs => exclusive cs (do_choice c x) end.

(** The same for the automaton ... *)
Definition in_cs (x : side) : bool := match at_ x with CS => true | _ => false end.

Fixpoint entries_of (cs : list choice) (v : bool -> side) : Z :=
  match cs with
  | [] => 0
  | c :: cs => enters (fun s => in_cs (v s)) (fun s => in_cs (sides v c s)) + entries_of cs (sides v c)
  end.

Fixpoint exclusive_of (cs : list choice) (v : bool -> side) : bool :=
  negb (in_cs (v true) && in_cs (v false)) &&
  match cs with [] => true | c :: cs => exclusive_of cs (sides v c) end.

Lemma sim_critical x v s : sim x v -> is_critical (code x s) = in_cs (v s).
Proof.
  intros Hs. rewrite (proj1 (Hs s)). unfold in_cs. by destruct (at_ (v s)) as [| |[] []| | | | | | | | | | | |].
Qed.

Lemma run_entries cs : forall x v, sim x v -> (forall s, side_ok (v s)) ->
  entries cs x = entries_of cs v /\ exclusive cs x = exclusive_of cs v.
Proof.
  induction cs as [|c cs IH]; intros x v Hs Hok; cbn [entries entries_of exclusive exclusive_of];
    rewrite !(sim_critical _ _ _ Hs); [done|].
  pose proof (sim_step x v c Hs Hok) as Hs'. destruct (IH _ _ Hs' (sides_ok v c Hok)) as [-> ->].
  unfold enters. by rewrite !(sim_critical _ _ _ Hs), !(sim_critical _ _ _ Hs').
Qed.

Lemma entries_app cs cs' v : entries_of (cs ++ cs') v = entries_of cs v + entries_of cs' (foldl sides v cs).
Proof. revert v. induction cs as [|c cs IH]; intros v; [done|]. cbn [app entries_of foldl]. rewrite IH. lia. Qed.

Lemma exclusive_app cs cs' v :
  exclusive_of cs v = true -> exclusive_of cs' (foldl sides v cs) = true -> exclusive_of (cs ++ cs') v = true.
Proof.
  revert v. induction cs as [|c cs IH]; intros v; cbn [app exclusive_of foldl]; [done|].
  intros [-> Hx]%andb_prop Hc. by apply IH.
Qed.

(** ... and for the steps of one side. *)
Fixpoint solo_entries (id remote : Z) (y : side) (cs : list bool) (x : side) : Z :=
  match cs with
  | [] => 0
  | c :: cs =>
      let x' := if c : bool then core_step id remote x y else net_step x in
      Z.b2z (negb (in_cs x) && in_cs x') + solo_entries id remote y cs x'
  end.

Fixpoint stays_out (id remote : Z) (y : side) (cs : list bool) (x : side) : bool :=
  negb (in_cs x) &&
  match cs with
  | [] => true
  | c :: cs => stays_out id remote y cs (if c : bool then core_step id remote x y else net_step x)
  end.

Lemma solo_entries_of s cs : forall v,
  entries_of (solo_choice s <$> cs) v = solo_entries (core_id s) (core_id (negb s)) (v (negb s)) cs (v s) /\
  (in_cs (v (negb s)) = false \/ stays_out (core_id s) (core_id (negb s)) (v (negb s)) cs (v s) = true ->
   exclusive_of (solo_choice s <$> cs) v = true).
Proof.
  assert (forall z z' : bool, negb z && z = false) as Hb by (by intros []).
  induction cs as [|c cs IH]; intros v; cbn [fmap list_fmap entries_of solo_entries exclusive_of stays_out].
  - split; [done|]. intros [E|E]; destruct s; cbn [negb] in E;
      rewrite ?E, ?andb_false_r; try done; rewrite andb_true_r in E; apply negb_true_iff in E; by rewrite E, ?andb_false_r.
  - set (z := if c then core_step _ _ (v s) _ else net_step (v s)).
    assert (sides v (solo_choice s c) = updb v s z) as Es by (by destruct c). rewrite Es.
    assert (updb v s z s = z /\ updb v s z (negb s) = v (negb s)) as [E1 E2] by (by destruct s).
    destruct (IH (updb v s z)) as [I1 I2]. rewrite E1, E2 in I1, I2. rewrite I1. split.
    + f_equal. unfold enters. destruct s; cbn [negb] in E2; rewrite E1, E2; destruct (in_cs (v _)), (in_cs z); cbn;
        by destruct (in_cs (v _)).
    + intros E. rewrite I2, andb_true_r by (destruct E as [E|[_ E]%andb_prop]; [by left|by right]).
      destruct E as [E|[E _]%andb_prop]; [|apply negb_true_iff in E]; destruct s; cbn [negb] in E; rewrite E, ?andb_false_r; done.
Qed.

(** *** The run that overflows *)

Lemma run_choices_app {A} cs cs' (x : config A) : run_choices (cs ++ cs') x = run_choices cs' (run_choices cs x).
Proof. apply foldl_app. Qed.

Lemma acquire_entries id remote y e n :
  er y = 0 ->
  let w := must_wait id remote (nr y) (u32 (nr y + 1)) in
  solo_entries id remote y acquire_run (Side User e n 0 0 Idle) = Z.b2z (negb w) /\
  stays_out id remote y acquire_run (Side User e n 0 0 Idle) = w.
Proof.
  destruct y as [p el_ nl_ er_ nr_ ch_]. intros He. cbn in He. subst er_. cbn [nr].
  split; cbv -[u32 must_wait Z.add]; by destruct (must_wait _ _ _ _).
Qed.

(** With [s] in the critical section under number [k], the other side gets in line and then,
    after [s] has left, in. *)
Lemma contended_round s k v :
  0 < k < 0xFFFFFFFF -> v s = holder k -> rests (v (negb s)) ->
  exists cs, rests (foldl sides v cs s) /\ foldl sides v cs (negb s) = holder (k + 1) /\
    entries_of cs v = 1 /\ exclusive_of cs v = true.
Proof.
  intros Hk Hs (e&n&Ho).
  exists ((solo_choice (negb s) <$> acquire_run) ++ (solo_choice s <$> release_run) ++
          (solo_choice (negb s) <$> [true; true])).
  rewrite !foldl_app, !entries_app.
  destruct (solo_sides (negb s) acquire_run v) as [E1 E2].
  destruct (solo_entries_of (negb s) acquire_run v) as [C1 X1]. rewrite negb_involutive, Hs, Ho in *.
  set (v1 := foldl sides v (_ <$> acquire_run)) in *. rewrite acquire_solo in E1 by done.
  destruct (acquire_entries (core_id (negb s)) (core_id s) (holder k) e n eq_refl) as [C0 X0]. rewrite C0, X0 in *.
  cbn [nr holder] in *. rewrite u32_small in * by lia.
  assert (must_wait (core_id (negb s)) (core_id s) k (k + 1) = true) as Hw.
  { unfold must_wait. rewrite (proj2 (Z.eqb_neq k 0)), (proj2 (Z.ltb_lt k (k + 1))) by lia. done. }
  rewrite Hw in *.
  destruct (solo_sides s release_run v1) as [E3 E4]. destruct (solo_entries_of s release_run v1) as [C2 X2].
  rewrite E1, E2 in *. set (v2 := foldl sides v1 (_ <$> release_run)) in *.
  destruct (solo_sides (negb s) [true; true] v2) as [E5 E6].
  destruct (solo_entries_of (negb s) [true; true] v2) as [C3 X3]. rewrite negb_involutive, E3, E4 in *.
  split; [rewrite E6; by eexists _, _|]. split; [by rewrite E5|]. split; [by rewrite C1, C2, C3|].
  apply exclusive_app; [by apply X1; right|]. fold v1. apply exclusive_app; [by apply X2; left|]. by apply X3; left.
Qed.

Lemma contended_rounds v k :
  (forall s, rests (v s)) -> 0 <= k < 0xFFFFFFFF ->
  exists cs s, foldl sides v cs s = holder (k + 1) /\ rests (foldl sides v cs (negb s)) /\
    entries_of cs v = k + 1 /\ exclusive_of cs v = true.
Proof.
  intros Hv [Hk Hle]. revert k Hk Hle. refine (natlike_ind _ _ _).
  - intros _. exists (solo_choice true <$> acquire_run), true.
    destruct (solo_sides true acquire_run v) as [-> ->]. destruct (solo_entries_of true acquire_run v) as [-> X].
    destruct (Hv true) as (e&n&E0), (Hv false) as (e'&n'&E). cbn [negb] in *. rewrite E0, E in *.
    rewrite acquire_solo by done. split; [done|]. split; [by eexists _, _|]. split; [|by apply X; left].
    by rewrite (proj1 (acquire_entries _ _ (Side User e' n' 0 0 Idle) e n eq_refl)).
  - intros k Hk IH Hle. destruct IH as (cs&s&Hs&Ho&Hc&Hx); [lia|].
    destruct (contended_round s (k + 1) (foldl sides v cs)) as (cs'&Hs'&Ho'&Hc'&Hx'); [lia|done|done|].
    exists (cs ++ cs'), (negb s). rewrite foldl_app, negb_involutive, Ho', entries_app, Hc, Hc'.
    split; [f_equal; lia|]. split; [done|]. split; [lia|]. by apply exclusive_app.
Qed.

(** Claim C38. The lock fails when a number overflows. From the start there is an execution in which
    cores that always contend enter the critical section 2^32 - 1 times, never both at once, after
    which one of them is in it under the number 2^32 - 1; then the other, while the first takes no
    step, goes through [acquire_lock] with the number 0, to which 2^32 wraps, and is in the critical
    section too. *)
Theorem lock_number_overflow x0 :
  lock_start x0 ->
  exists cs s, let o := negb s in
    let x1 := run_choices cs x0 in let x2 := run_choices (solo_choice o <$> acquire_run) x1 in
    (entries cs x0 = 0xFFFFFFFF /\ exclusive cs x0 = true) /\
    (in_critical (code x1 s) /\ spm (mem x1 s) (local_number (lock_addr (lk s))) = 0xFFFFFFFF /\
     code x1 o = lock_user (core_id o) (lk o)) /\
    in_critical (code x2 s) /\
    in_critical (code x2 o) /\ spm (mem x2 o) (local_number (lock_addr (lk o))) = 0.
Proof.
  intros Hst. pose proof (start_sim x0 Hst) as Hs.
  destruct (contended_rounds (start_side x0) 0xFFFFFFFE) as (cs&s&Hh&(e&n&Hr)&Hc&Hx); [|lia|].
  { intros s. by eexists _, _. }
  exists cs, s. cbv zeta.
  assert (forall b, side_ok (start_side x0 b)) as Hok by (intros b; unfold side_ok; cbn; auto with zarith).
  destruct (run_entries cs x0 _ Hs Hok) as [-> ->]. split; [by split|].
  pose proof (run_sim cs x0 _ Hs Hok) as H1.
  pose proof (run_sim (cs ++ (solo_choice (negb s) <$> acquire_run)) x0 _ Hs Hok) as H2.
  rewrite run_choices_app, foldl_app in H2.
  destruct (solo_sides (negb s) acquire_run (foldl sides (start_side x0) cs)) as [E1 E2].
  rewrite negb_involutive, Hh, Hr in *. rewrite acquire_solo in E1 by done.
  split; [|split].
  - rewrite (proj1 (H1 s)), (proj1 (H1 (negb s))), Hh, Hr. split; [done|]. split; [|done].
    destruct (H1 s) as (_&[[_ ->] _]&_). by rewrite Hh.
  - rewrite (proj1 (H2 s)), E2. done.
  - rewrite (proj1 (H2 (negb s))), E1. split; [done|].
    destruct (H2 (negb s)) as (_&[[_ ->] _]&_). by rewrite E1.
Qed.

End Simulation.

(** ** An example *)

#[local] Instance demo_platform : Platform := {|
  NOC_SPM_BASE := 0xE8000000;
  core_id := fun s => if s then 1 else 0
|}.

#[local, refine] Instance demo_locks : Locks := {|
  lk := fun s => Lock (0xE8000000 + 4 * 16) (0xE8000000 + 4 * 16) (if s then 0 else 1);
  slot := fun _ => 16
|}.
Proof. all: try (intros []; cbn; lia). cbn. lia. Defined.

Definition demo_ni : ni := NI (fun _ => 7) (fun _ _ => 0) 0.

Definition demo_start : config unit :=
  Config (fun s => lock_user (core_id s) (lk s))
    (match exec 4 true (initialize_lock (lock_addr (lk true)) 0) (fun _ => demo_ni) with
     | Some (_, w) =>
         match exec 4 false (initialize_lock (lock_addr (lk false)) 0) w with
         | Some (_, w) => w | None => w end
     | None => fun _ => demo_ni end).

Lemma demo_lock_start : lock_start demo_start.
Proof.
  split; [|split].
  - eexists (fun _ => demo_ni), _, 0, 0. split; reflexivity.
  - intros []; reflexivity.
  - intros []; reflexivity.
Qed.

(** The executions the example follows stay below the overflow. *)
Fixpoint numbers_stay (cs : list choice) (x : config unit) : bool :=
  match cs with
  | [] => true
  | c :: cs =>
      (spm (mem x true) (remote_number (lock_addr (lk true))) <? 0xFFFFFFFF) &&
      (spm (mem x false) (remote_number (lock_addr (lk false))) <? 0xFFFFFFFF) &&
      numbers_stay cs (do_choice c x)
  end.

Lemma run_reachable x0 cs x :
  reachable x0 x -> numbers_stay cs x = true -> reachable x0 (run_choices cs x).
Proof.
  revert x. induction cs as [|c cs IH]; intros x Hx Hn; [done|].
  cbn in Hn. apply andb_prop in Hn as [[H1 H2]%andb_prop Hn].
  apply IH; [|done]. apply reach_step; [done|]. intros []; by apply Z.ltb_lt.
Qed.

Definition demo_run : list choice :=
  (solo_choice true <$> acquire_run) ++ (solo_choice false <$> acquire_run).

Lemma lock_mutual_exclusion_witness :
  in_critical (code (run_choices demo_run demo_start) true) /\
  ~ in_critical (code (run_choices demo_run demo_start) false).
Proof.
  assert (in_critical (code (run_choices demo_run demo_start) true)) as Ht by (vm_compute; exact I).
  split; [exact Ht|]. intros Hf.
  apply (lock_mutual_exclusion demo_start (run_choices demo_run demo_start) demo_lock_start).
  - apply run_reachable; [apply reach_init|vm_compute; reflexivity].
  - split; assumption.
Defined.

Lemma lock_number_overflow_witness :
  exists cs s, let o := negb s in
    let x1 := run_choices cs demo_start in let x2 := run_choices (solo_choice o <$> acquire_run) x1 in
    (entries cs demo_start = 0xFFFFFFFF /\ exclusive cs demo_start = true) /\
    (in_critical (code x1 s) /\ spm (mem x1 s) (local_number (lock_addr (lk s))) = 0xFFFFFFFF /\
     code x1 o = lock_user (core_id o) (lk o)) /\
    in_critical (code x2 s) /\
    in_critical (code x2 o) /\ spm (mem x2 o) (local_number (lock_addr (lk o))) = 0.
Proof. exact (lock_number_overflow demo_start demo_lock_start). Defined.
