(* ===== verification/LockUser.v ===== *)
(** * Users of the lock

    What a component that uses the lock of [Lock] needs to know of it: a user that starts
    transfers of its own keeps the invariant of the lock, the numbers grow by at most one
    with each acquisition, and the lock is free of deadlocks: with no transfer under way,
    a core that has to wait waits for one that need not. *)

From stdpp Require Import base list numbers.
From Stdlib Require Import ZArith Lia.
From S2P Require Import Prelude Noc Lock.

Local Open Scope Z_scope.
Local Open Scope c_scope.

(** ** Transfers of the user *)

Definition with_ch (x : side) (c : chan) : side := Side (at_ x) (el x) (nl x) (er x) (nr x) c.
Definition goto (x : side) (p : pc) : side := Side p (el x) (nl x) (er x) (nr x) (ch x).

(** The user has the processor. *)
Definition user_runs (p : pc) : bool := match p with User | CS => true | _ => false end.

(** It starts a transfer, or a transfer of its own ends. *)
Lemma inv_with_ch id remote x y c :
  inv id remote x y -> user_runs (at_ x) = true ->
  (ch x = Idle /\ c = Busy) \/ (ch x = Busy /\ c = Idle) ->
  inv id remote (with_ch x c) y.
Proof.
  intros ([Hx Hd]&Hy&H1&H2) Hu Hc. split; [split; [|done]|split; [done|split; done]].
  destruct x as [[] ? ? ? ? ?]; try done; unfold side_ok, flag_in_flight in *; cbn in *;
    destruct Hc as [[-> ->]|[-> ->]]; intuition done.
Qed.

(** It enters one of the routines. *)
Definition call (p : pc) : pc := match p with User => Ent | _ => SetN0 end.

Lemma core_call id remote x y :
  user_runs (at_ x) = true -> core_step id remote x y = goto x (call (at_ x)).
Proof. by destruct x as [[] ? ? ? ? ?]. Qed.

(** The two routines. *)
Definition acquiring (p : pc) : bool :=
  match p with
  | User | CS | SetN0 | Wr X4 _ _ | WaitH X4 _ | WaitR X4 _ => false
  | _ => true
  end.
Definition releasing (p : pc) : bool :=
  match p with SetN0 | Wr X4 _ _ | WaitH X4 _ | WaitR X4 _ => true | _ => false end.

(** The side has drawn its number in this round. *)
Definition after_draw (p : pc) : bool :=
  match p with
  | User | Ent | Wr X1 _ _ | WaitH X1 _ | WaitR X1 _ | RdN => false
  | _ => true
  end.

(** The points a side of the lock goes through. *)
Lemma acquire_next id remote x y :
  side_ok x -> acquiring (at_ x) = true ->
  let x' := core_step id remote x y in
  (at_ x' = CS \/ acquiring (at_ x') = true) /\
  (after_draw (at_ x) = true -> after_draw (at_ x') = true) /\
  (at_ x = RdN -> after_draw (at_ x') = true).
Proof.
  intros [_ Hx] Ha. destruct x as [p e_ n_ e' n' c]; cbn in *.
  destruct p as [| |[] [] ?|[]|[]| | | | | | | | | |], c; cbn in *; try done;
    try (destruct (er y =? 1)); try (destruct (must_wait _ _ _ _)); cbn; auto 6;
    (split; [auto|split; [auto|discriminate]]).
Qed.

Lemma release_next id remote x y :
  side_ok x -> releasing (at_ x) = true -> ch x <> Busy ->
  let x' := core_step id remote x y in
  (at_ x' = User /\ ch x' = Idle) \/ releasing (at_ x') = true.
Proof.
  intros [_ Hx] Ha Hb. destruct x as [p e_ n_ e' n' c]; cbn in *.
  destruct p as [| |[] [] ?|[]|[]| | | | | | | | | |], c; cbn in *; try done; auto.
Qed.

(** ** Numbers *)

Definition numbers_le (M : Z) (x : side) : Prop :=
  nr x <= M /\ forall n, ticket x = Some n -> n <= M.

Lemma numbers_weaken M M' x : M <= M' -> numbers_le M x -> numbers_le M' x.
Proof. intros HM [H1 H2]. split; [lia|]. intros n Hn. specialize (H2 n Hn). lia. Qed.

Lemma core_numbers id remote M M' x y :
  side_ok x -> numbers_le M x -> M <= M' -> (at_ x = RdN -> u32 (nr y + 1) <= M') ->
  numbers_le M' (core_step id remote x y).
Proof.
  intros [H0 Hx] [H1 H2] HM Hr. unfold numbers_le, ticket in *.
  destruct x as [p e_ n_ e' n' c]; cbn in *.
  destruct p as [| |[] [] ?|[]|[]| | | | | | | | | |]; cbn in *;
    try (destruct c); try (destruct (er y =? 1)); try (destruct (must_wait _ _ _ _));
    cbn in *; (split; [lia|intros k Hk; simplify_eq]);
    try (specialize (H2 _ eq_refl)); try (specialize (Hr eq_refl)); intuition lia.
Qed.

Lemma net_numbers M x : side_ok x -> 0 <= M -> numbers_le M x -> numbers_le M (net_step x).
Proof.
  intros [H0 Hx] HM [H1 H2]. unfold numbers_le, ticket in *.
  destruct x as [p e_ n_ e' n' c]; destruct c as [|[]|[]|]; cbn in *; try done.
  split; [|done].
  destruct p as [| |[] [] ?|[]|[]| | | | | | | | | |]; unfold flag_in_flight in *; cbn in *;
    try (specialize (H2 _ eq_refl)); intuition (try congruence; lia).
Qed.

Lemma numbers_no_overflow M x : M < 0xFFFFFFFF -> numbers_le M x -> no_overflow x.
Proof. unfold no_overflow. intros ? [? _]. lia. Qed.

(** A step in the lock, when [M] numbers have been drawn before and [M'] after it. *)
Lemma lock_step_ok id remote M M' x y :
  id <> remote -> inv id remote x y -> numbers_le M x -> numbers_le M y ->
  0 <= M < 0xFFFFFFFF -> M <= M' -> (at_ x = RdN -> M + 1 <= M') ->
  let x' := core_step id remote x y in
  inv id remote x' y /\ numbers_le M' x' /\ numbers_le M' y.
Proof.
  intros Hid Hi Hx Hy HM Hle Hr. pose proof Hi as ([Hok _]&[[Hy0 _] _]&_). cbv zeta.
  split; [apply core_inv; [done|by eapply numbers_no_overflow; [apply HM|]|done]|].
  split; [|by eapply numbers_weaken]. eapply core_numbers; [done|done|done|].
  intros E. specialize (Hr E). destruct Hy. rewrite u32_small; lia.
Qed.

(** The user calls one of the routines. *)
Lemma call_ok id remote M x y :
  id <> remote -> inv id remote x y -> numbers_le M x -> numbers_le M y -> M < 0xFFFFFFFF ->
  user_runs (at_ x) = true ->
  inv id remote (goto x (call (at_ x))) y /\ numbers_le M (goto x (call (at_ x))).
Proof.
  intros Hid Hi Hx Hy HM Hu. split.
  - rewrite <- (core_call id remote x y Hu). apply core_inv; [done|by eapply numbers_no_overflow|done].
  - revert Hx. unfold numbers_le, goto, ticket. by destruct (at_ x).
Qed.

(** ** Freedom of deadlock *)

Definition wr_rank (p : wr_at) : nat := match p with WH => 3 | WR => 2 | WS0 => 1 | WS1 => 0 end.

(** How far a side is from the critical section and from the end of [release_lock]. *)
Definition lock_rank (id remote : Z) (x : side) : nat :=
  match at_ x with
  | User => 0
  | Ent => 40
  | Wr X1 p _ => 36 + wr_rank p | WaitH X1 _ => 35 | WaitR X1 _ => 34
  | RdN => 33 | SetN _ => 32
  | Wr X2 p _ => 28 + wr_rank p | WaitH X2 _ => 27 | WaitR X2 _ => 26
  | Ent0 _ => 25
  | Wr X3 p _ => 21 + wr_rank p | WaitH X3 _ | WaitR X3 _ => 0
  | SpinEH _ => 20 | SpinER _ => 19
  | RdM _ => 18
  | SpinMH m n => if must_wait id remote m n then 17 else 15
  | SpinMR _ => 16
  | CS => 14
  | SetN0 => 13
  | Wr X4 p _ => 9 + wr_rank p | WaitH X4 _ => 8 | WaitR X4 _ => 7
  end.

(** [x] waits for [y]. *)
Definition blocked (id remote : Z) (x y : side) : bool :=
  match at_ x with
  | SpinEH _ | SpinER _ => er y =? 1
  | SpinMR n => must_wait id remote (nr y) n
  | SpinMH m n => must_wait id remote m n && must_wait id remote (nr y) n
  | _ => false
  end.

Lemma lock_progress id remote x y :
  side_ok x -> ch x = Idle -> user_runs (at_ x) = false -> blocked id remote x y = false ->
  (lock_rank id remote (core_step id remote x y) < lock_rank id remote x)%nat.
Proof.
  intros [_ Hx] Hc Hu Hb. unfold blocked, lock_rank in *.
  destruct x as [p e_ n_ e' n' c]; cbn in *; subst c.
  destruct p as [| |[] [] ?|[]|[]| | | | | | |m n| | |]; cbn in *; try done; try lia;
    try rewrite Hb; cbn; try lia.
  - destruct (must_wait id remote (nr y) n); lia.
  - destruct (must_wait id remote m n) eqn:E; cbn in *; lia.
Qed.

(** Waiting for another is asymmetric. *)
Lemma must_wait_asym id remote m n :
  id <> remote -> must_wait id remote m n = true -> must_wait remote id n m = false.
Proof.
  intros Hid. unfold must_wait.
  destruct (Z.eqb_spec m 0), (Z.eqb_spec n 0), (Z.ltb_spec m n), (Z.ltb_spec n m), (Z.eqb_spec m n),
    (Z.eqb_spec n m), (Z.ltb_spec remote id), (Z.ltb_spec id remote); cbn; try done; lia.
Qed.

Lemma must_wait_zero id remote n : must_wait id remote 0 n = false.
Proof. done. Qed.

Lemma blocked_once id remote x y :
  id <> remote -> inv id remote x y -> ch x = Idle -> ch y = Idle ->
  blocked id remote x y = true -> blocked remote id y x = false /\ at_ y <> User.
Proof.
  intros Hid ([[_ Hx] _]&[[_ Hy] _]&_) Ex Ey Hb. unfold blocked, flag_in_flight in *.
  destruct x as [p e_ n_ e' n' c], y as [p2 e2 n2 e2' n2' c2]; cbn in *; subst c c2.
  destruct p; cbn in *; try done; try match type of Hb with must_wait _ _ _ _ && _ = true => apply andb_prop in Hb as [_ Hb] end;
    try (apply Z.eqb_eq in Hb); unfold flag_in_flight in Hx; cbn in Hx; destruct Hx as ([_ Hx]&<-&->&_);
    destruct p2 as [| |[] [] ?|[]|[]| | | | | | | | | |]; cbn in *; unfold flag_in_flight in *; cbn in *;
    try (destruct Hy as ([_ Hy]&<-&->&_)); try (split; [done|done]);
    try (exfalso; lia); try (split; [|done]); subst; try done.
  all: first [destruct Hy as (_&_&->); by rewrite must_wait_zero in Hb
             |by rewrite (must_wait_asym id remote n2 n_), ?andb_false_r].
Qed.

(** ** The memory *)

Section Memory.
Context `{Locks}.

(** The steps of a user: the words of the locks stay, and the DMA entry is idle or busy with
    a transfer of the user. *)
Lemma mem_client s z c w w' :
  let a := lock_addr (lk s) in
  let b := lock_addr (lk (negb s)) in
  mem_ok s z w -> user_runs (at_ z) = true ->
  spm (w' s) (local_entering a) = spm (w s) (local_entering a) ->
  spm (w' s) (local_number a) = spm (w s) (local_number a) ->
  spm (w' (negb s)) (remote_entering b) = spm (w (negb s)) (remote_entering b) ->
  spm (w' (negb s)) (remote_number b) = spm (w (negb s)) (remote_number b) ->
  idle (io (w' s) DMA_BANK (entry1 s)) = (match c with Idle => true | _ => false end) ->
  c = Idle \/ c = Busy -> mem_ok s (with_ch z c) w'.
Proof.
  intros a b (Hl&Hr&_) Hu E1 E2 E3 E4 Hi Hc. unfold mem_ok, with_ch. cbn [at_ el nl er nr ch].
  fold a b. rewrite E1, E2, E3, E4. split; [done|]. split; [done|].
  split; [by destruct Hc; subst c|by destruct (at_ z)].
Qed.

Lemma mem_call s z w : mem_ok s z w -> user_runs (at_ z) = true -> mem_ok s (goto z (call (at_ z))) w.
Proof.
  intros (Hl&Hr&Hc&_) Hu. unfold mem_ok, goto. cbn [at_ el nl er nr ch].
  repeat (split; [done|]). by destruct (at_ z).
Qed.

(** The words of the lock of side [s]. *)
Definition lock_word (s : bool) (k : Z) : Prop := slot s <= k < slot s + 4.

Lemma lock_fields s :
  let a := lock_addr (lk s) in
  remote_entering a = word_addr (slot s) /\ remote_number a = word_addr (slot s + 1) /\
  local_entering a = word_addr (slot s + 2) /\ local_number a = word_addr (slot s + 3).
Proof.
  cbv zeta. rewrite lk_addr. unfold remote_entering, remote_number, local_entering, local_number, word_addr. lia.
Qed.

(** A world that differs in other words only. *)
Lemma mem_keep s z w w' :
  mem_ok s z w ->
  (forall b k, lock_word b k -> spm (w' b) (word_addr k) = spm (w b) (word_addr k)) ->
  io (w' s) = io (w s) -> moved (w' s) = moved (w s) -> mem_ok s z w'.
Proof.
  intros Hm Hk Hi Hv. destruct (lock_fields s) as (E1&E2&E3&E4), (lock_fields (negb s)) as (F1&F2&F3&F4).
  unfold lock_word in Hk.
  eapply mem_frame; [done|rewrite E3; apply Hk; lia|rewrite E4; apply Hk; lia|
    rewrite F1; apply Hk; lia|rewrite F2; apply Hk; lia|done|done].
Qed.

(** What the routines of the lock change. *)
Lemma lock_frame {A} (k_in k_out : prog A) s t p w :
  user_runs p = false ->
  let w' := snd (access s t (code_of (core_id s) (lk s) k_in k_out p) w) in
  w' (negb s) = w (negb s) /\
  forall k, ~ lock_word s k -> spm (w' s) (word_addr k) = spm (w s) (word_addr k).
Proof.
  intros Hu. destruct (lock_fields s) as (E1&E2&E3&E4).
  destruct p as [| |x [] n|x n|x n| | | | | | | | | |]; try done;
    cbn [code_of access snd fst t_enter t_set t_enter0 t_release];
    try (split; [apply set_ni_ne|]; intros k Hk; rewrite set_ni_eq; cbn [spm]; unfold lock_word in Hk;
         rewrite ?E3, ?E4, ?put_word_ne by lia; done);
    try (split; [done|]; intros; done).
Qed.

(** And its transfers. *)
Lemma net_frame s z w :
  mem_ok s z w -> ch z <> Busy ->
  let w' := network s w in
  spm (w' s) = spm (w s) /\ io (w' (negb s)) = io (w (negb s)) /\
  moved (w' (negb s)) = moved (w (negb s)) /\
  forall k, ~ lock_word (negb s) k -> spm (w' (negb s)) (word_addr k) = spm (w (negb s)) (word_addr k).
Proof.
  intros (_&_&Hc&_) Hb. cbv zeta. destruct (lock_fields (negb s)) as (E1&E2&_).
  destruct (ch z) as [|f|f|]; [| | |done].
  - by rewrite network_idle.
  - destruct Hc as [Hq Hm]. destruct (posted_move s f w Hq Hm) as ((F1&F2&F3)&F4&F5&F6).
    repeat (split; [done|]). intros k Hk. unfold lock_word in Hk.
    rewrite F4, dst_field, E1, E2. destruct f; rewrite put_word_ne by lia; done.
  - destruct Hc as [Hq Hm]. destruct (network_end s _ _ _ w (posted_transfer s f _ Hq) Hm) as ((F1&F2&F3)&F4).
    by rewrite F4.
Qed.

End Memory.
