(* ===== verification/Queuing.v ===== *)
(** * Queuing ports (src/c/libmp/queuing.c)

    A channel from a source to a sink core with a ring of [num_buf] buffers in the sink's
    scratchpad. The source fills a local buffer, and [mp_nbsend] posts it with a flag behind
    it into the next buffer of the ring; the sink looks at the flag, takes the message, and
    acknowledges it by posting its count of messages back ([mp_ack]), which gives the buffer
    free. The model runs the two ends concurrently, interleaved with the network as in
    [Noc]. *)

From stdpp Require Import base list numbers.
From Stdlib Require Import ZArith Lia.
From S2P Require Import Prelude Noc.

Local Open Scope Z_scope.
Local Open Scope c_scope.

(** ** The code *)

Definition FLAG_VALID := 0xFFFFFFFF.
Definition FLAG_INVALID := 0.
Definition WALIGN (x : Z) : Z := u32 (x + 3) .& u32 (~~ 3).
Definition FLAG_SIZE := WALIGN 4.
Definition NUM_WRITE_BUF := 2.

(** [qpd_t]; the fields of the two ends, a union in the source, are both present. The
    counters and buffers the ends share through the network are in the SPM, at the addresses
    in the descriptor. *)
Record qpd_t := Qpd {
  remote : Z;
  recv_addr : Z;
  send_recv_count : Z;
  buf_size : Z;
  num_buf : Z;
  write_buf : Z;
  shadow_write_buf : Z;
  send_count : Z;
  send_ptr : Z;
  read_buf : Z;
  recv_count : Z;
  recv_ptr : Z
}.

(** [utils.c]: the sizes of the blocks of the two ends. *)
Definition mp_send_alloc_size (q : qpd_t) : Z :=
  u32 (u32 (u32 (buf_size q + FLAG_SIZE) * NUM_WRITE_BUF) + WALIGN 4).
Definition mp_recv_alloc_size (q : qpd_t) : Z :=
  u32 (u32 (u32 (buf_size q + FLAG_SIZE) * num_buf q) + WALIGN 4).

Section Code.
Context `{Platform}.

(** The next position in the ring. *)
Definition next_ptr (q : qpd_t) (p : Z) : Z :=
  if p =? u32 (num_buf q - 1) then 0 else u32 (p + 1).

Definition mp_nbsend (q : qpd_t) : prog (Z * qpd_t) :=
  let rmt_addr_offset := u32 (u32 (buf_size q + FLAG_SIZE) * send_ptr q) in
  let calc_rmt_addr := u32 (recv_addr q + rmt_addr_offset) in
  store_spm (u32 (write_buf q + buf_size q)) FLAG_VALID;;
  c ← load (send_recv_count q);
  if u32 (send_count q - c) =? num_buf q then Ret (0, q)
  else
    r ← noc_nbwrite (remote q) calc_rmt_addr (write_buf q) (u32 (buf_size q + FLAG_SIZE)) 1;
    if r =? 0 then Ret (0, q)
    else Ret (1, Qpd (remote q) (recv_addr q) (send_recv_count q) (buf_size q) (num_buf q)
                   (shadow_write_buf q) (write_buf q) (u32 (send_count q + 1))
                   (next_ptr q (send_ptr q)) (read_buf q) (recv_count q) (recv_ptr q)).

(** [time_usecs == 0 || get_cpu_usecs() < timeout] *)
Definition in_time (time_usecs timeout : Z) : prog bool :=
  if time_usecs =? 0 then Ret true else now ← get_cpu_usecs; Ret (now <? timeout).

(** [while (retval == 0 && (time_usecs == 0 || get_cpu_usecs() < timeout)) retval = f();]
    on the descriptor. *)
Definition retry_body {A} (time_usecs timeout : Z) (f : A -> prog (Z * A))
    (s : Z * A) : prog (bool * (Z * A)) :=
  let '(retval, a) := s in
  if retval =? 0 then
    go ← in_time time_usecs timeout;
    if go : bool then r ← f a; Ret (true, r) else Ret (false, (retval, a))
  else Ret (false, (retval, a)).

Definition retry {A} (time_usecs timeout : Z) (f : A -> prog (Z * A)) (a : A) : prog (Z * A) :=
  Loop (0, a) (retry_body time_usecs timeout f) Ret.

Definition mp_send (q : qpd_t) (time_usecs : Z) : prog (Z * qpd_t) :=
  now ← get_cpu_usecs;
  let timeout := u64 (now + time_usecs) in
  retry time_usecs timeout mp_nbsend q.

Definition mp_nbrecv (q : qpd_t) : prog (Z * qpd_t) :=
  let locl_addr_offset := u32 (u32 (buf_size q + FLAG_SIZE) * recv_ptr q) in
  let calc_locl_addr := u32 (recv_addr q + locl_addr_offset) in
  let recv_flag := u32 (calc_locl_addr + buf_size q) in
  f ← load recv_flag;
  if f =? FLAG_INVALID then Ret (0, q)
  else
    store_spm recv_flag FLAG_INVALID;;
    Ret (1, Qpd (remote q) (recv_addr q) (send_recv_count q) (buf_size q) (num_buf q)
              (write_buf q) (shadow_write_buf q) (send_count q) (send_ptr q)
              calc_locl_addr (recv_count q) (next_ptr q (recv_ptr q))).

Definition mp_recv (q : qpd_t) (time_usecs : Z) : prog (Z * qpd_t) :=
  now ← get_cpu_usecs;
  let timeout := u64 (now + time_usecs) in
  retry time_usecs timeout mp_nbrecv q.

Definition mp_nback (q : qpd_t) : prog Z :=
  done ← noc_dma_done (remote q);
  if done =? 0 then Ret 0
  else
    c ← load (recv_count q);
    store_spm (recv_count q) (u32 (c + 1));;
    success ← noc_nbwrite (remote q) (send_recv_count q) (recv_count q) 4 1;
    if success =? 0 then
      c ← load (recv_count q); store_spm (recv_count q) (u32 (c - 1));; Ret success
    else Ret success.

Definition mp_ack_n (q : qpd_t) (time_usecs num_acks : Z) : prog Z :=
  now ← get_cpu_usecs;
  let timeout := u64 (now + time_usecs) in
  d ← retry time_usecs timeout (fun u : unit => d ← noc_dma_done (remote q); Ret (d, u)) tt;
  if fst d =? 0 then Ret (fst d)
  else
    c ← load (recv_count q);
    store_spm (recv_count q) (u32 (c + num_acks));;
    r ← retry time_usecs timeout (fun u : unit =>
          r ← noc_nbwrite (remote q) (send_recv_count q) (recv_count q) 4 1; Ret (r, u)) tt;
    if fst r =? 0 then
      c ← load (recv_count q); store_spm (recv_count q) (u32 (c - num_acks));; Ret (fst r)
    else Ret (fst r).

Definition mp_ack (q : qpd_t) (time_usecs : Z) : prog Z := mp_ack_n q time_usecs 1.

(** ** The users of a channel *)

(** The source: for every message, write its words to [write_buf] and send, waiting for
    room as long as it takes. *)
Fixpoint fill_words (a : Z) (ws : list Z) : prog unit :=
  match ws with
  | [] => Ret tt
  | x :: ws => Store a x (fill_words (a + 4) ws)
  end.

Fixpoint source (q : qpd_t) (msgs : list (list Z)) : prog (list (list Z)) :=
  match msgs with
  | [] => Ret []
  | m :: msgs =>
      fill_words (write_buf q) m;;
      r ← mp_send q 0;
      source (snd r) msgs
  end.

(** The sink: [n] times, wait for a message, read its words from [read_buf] and acknowledge
    it. It returns what it has read. *)
Fixpoint read_words (n : nat) (a : Z) (ws : list Z) : prog (list Z) :=
  match n with
  | O => Ret ws
  | S n => Load a (fun x => read_words n (a + 4) (ws ++ [x]))
  end.

Fixpoint sink (n : nat) (len : nat) (q : qpd_t) (got : list (list Z)) : prog (list (list Z)) :=
  match n with
  | O => Ret got
  | S n =>
      r ← mp_recv q 0;
      m ← read_words len (read_buf (snd r)) [];
      mp_ack (snd r) 0;;
      sink n len (snd r) (got ++ [m])
  end.

End Code.

(** ** The channel *)

(** Where the blocks of the two ends are, as word indices of the SPMs, the length of the
    messages in words, the number of buffers, and the messages. *)
Class Channel `{Platform} := {
  ks : Z; kr : Z;
  B : nat; N : Z;
  msgs : list (list Z);
  s_unused : Z * Z * Z;         (** the sink's fields in the descriptor of the source *)
  r_unused : Z * Z * Z * Z;     (** and the other way round *)
  ch_base : 0 <= NOC_SPM_BASE /\ NOC_SPM_BASE + 0x10000 <= 0x100000000;
  ch_N : 1 <= N;
  ch_ks : 0 <= ks /\ ks + 2 * (Z.of_nat B + 1) + 1 <= 0x4000;
  ch_kr : 0 <= kr /\ kr + N * (Z.of_nat B + 1) + 1 <= 0x4000;
  ch_msgs : Forall (fun m => length m = B) msgs
}.

Section Points.
Context `{Channel}.

(** The length of a buffer with its flag, in words. *)
Definition L : Z := Z.of_nat B + 1.

(** The words of the local buffers, of the buffers of the ring, and the counters. *)
Definition wbuf (i : nat) : Z := ks + (Z.of_nat i mod 2) * L.
Definition ring (i : nat) : Z := kr + (Z.of_nat i mod N) * L.
Definition k_count : Z := ks + 2 * L.
Definition k_recv : Z := kr + N * L.

(** The descriptors of the two ends after [i] messages. *)
Definition sq (i : nat) : qpd_t :=
  Qpd (core_id false) (word_addr kr) (word_addr k_count) (4 * Z.of_nat B) N
    (word_addr (wbuf i)) (word_addr (wbuf (S i))) (u32 (Z.of_nat i)) (Z.of_nat i mod N)
    s_unused.1.1 s_unused.1.2 s_unused.2.

Definition rq (i : nat) : qpd_t :=
  Qpd (core_id true) (word_addr kr) (word_addr k_count) (4 * Z.of_nat B) N
    r_unused.1.1.1 r_unused.1.1.2 r_unused.1.2 r_unused.2 (match i with O => word_addr kr | S i => word_addr (ring i) end)
    (word_addr k_recv) (Z.of_nat i mod N).

Definition msg (i : nat) : list Z := nth i msgs [].

Inductive spc :=
| SFill (j : nat) | STime
| SLoop (t : Z) | SFlag (t : Z) | SCount (t : Z) | SStat (t : Z) | SS0 (t : Z) | SS1 (t : Z)
| SExit (t : Z) | SDone.

Inductive rpc :=
| RTime | RLoop (t : Z) | RFlag (t : Z) | RClear (t : Z) | RExit (t : Z)
| RRead (j : nat)
| ATime | ALoop (t : Z) | AStat (t : Z) | AExit (t : Z) | ALoad (t : Z) | AStore (c t : Z)
| BLoop (t : Z) | BStat (t : Z) | BS0 (t : Z) | BS1 (t : Z) | BExit (t : Z) | RDone.

(** A loop of [retry] without a time limit, and what is left of it when its routine has
    [p] left. *)
Definition trying {A C} (t : Z) (f : A -> prog (Z * A)) (k : Z * A -> prog C) (p : prog (Z * A)) : prog C :=
  x ← (r ← p; Ret (true, r));
  let '(go, y) := x in if go : bool then Loop y (retry_body 0 t f) k else k y.

Lemma retry_enter {A C} s u t (f : A -> prog (Z * A)) a (k : Z * A -> prog C) w :
  access s u (Loop (0, a) (retry_body 0 t f) k) w = (trying t f k (f a), w).
Proof. reflexivity. Qed.

Lemma retry_leave {A C} s u t (f : A -> prog (Z * A)) a (k : Z * A -> prog C) w :
  access s u (Loop (1, a) (retry_body 0 t f) k) w = (k (1, a), w).
Proof. reflexivity. Qed.

(** *** The source *)

Definition send_post (q : qpd_t) : prog (Z * qpd_t) :=
  r ← noc_nbwrite (remote q) (u32 (recv_addr q + u32 (u32 (buf_size q + FLAG_SIZE) * send_ptr q)))
        (write_buf q) (u32 (buf_size q + FLAG_SIZE)) 1;
  if r =? 0 then Ret (0, q)
  else Ret (1, Qpd (remote q) (recv_addr q) (send_recv_count q) (buf_size q) (num_buf q)
                 (shadow_write_buf q) (write_buf q) (u32 (send_count q + 1))
                 (next_ptr q (send_ptr q)) (read_buf q) (recv_count q) (recv_ptr q)).

Definition send_tail (q : qpd_t) : prog (Z * qpd_t) :=
  c ← load (send_recv_count q);
  if u32 (send_count q - c) =? num_buf q then Ret (0, q) else send_post q.

Definition after_send (i : nat) (r : Z * qpd_t) : prog (list (list Z)) :=
  source (snd r) (drop i msgs).

Definition s_loop (i : nat) (t : Z) : prog (list (list Z)) :=
  Loop (0, sq i) (retry_body 0 t mp_nbsend) (after_send (S i)).
Definition s_exit (i : nat) (t : Z) : prog (list (list Z)) :=
  Loop (1, sq i) (retry_body 0 t mp_nbsend) (after_send i).

Definition s_word0 (i : nat) : Z :=
  u32 ((DATA_IRQ_PKT_TYPE << NOC_PTR_WIDTH) .|
       u16 (W (u32 (u32 (word_addr kr + u32 (u32 (4 * Z.of_nat B + FLAG_SIZE) * (Z.of_nat i mod N)))
                    - NOC_SPM_BASE)))).
Definition s_word1 (i : nat) : Z :=
  u32 (NOC_ACTIVE_BIT .| (u16 (W (u32 (4 * Z.of_nat B + FLAG_SIZE))) << NOC_PTR_WIDTH) .|
       u16 (W (u32 (word_addr (wbuf i) - NOC_SPM_BASE)))).

Definition code_s (i : nat) (p : spc) : prog (list (list Z)) :=
  let try := trying (C := list (list Z)) in
  match p with
  | SFill j =>
      fill_words (word_addr (wbuf i) + 4 * Z.of_nat j) (drop j (msg i));;
      r ← mp_send (sq i) 0; after_send (S i) r
  | STime => r ← mp_send (sq i) 0; after_send (S i) r
  | SLoop t => s_loop i t
  | SFlag t => try t mp_nbsend (after_send (S i)) (mp_nbsend (sq i))
  | SCount t => try t mp_nbsend (after_send (S i)) (send_tail (sq i))
  | SStat t => try t mp_nbsend (after_send (S i)) (send_post (sq i))
  | SS0 t => IoStore DMA_BANK (entry0 true) (s_word0 i)
               (IoStore DMA_BANK (entry1 true) (s_word1 i) (s_exit (S i) t))
  | SS1 t => IoStore DMA_BANK (entry1 true) (s_word1 i) (s_exit (S i) t)
  | SExit t => s_exit i t
  | SDone => Ret []
  end.

Lemma next_ptr_mod q i :
  num_buf q = N -> next_ptr q (Z.of_nat i mod N) = Z.of_nat (S i) mod N.
Proof.
  intros E. unfold next_ptr. rewrite E. pose proof ch_N. pose proof ch_kr.
  assert (0 < N <= 0x4000) as [HN HN'] by nia. pose proof (Z.mod_pos_bound (Z.of_nat i) N HN).
  rewrite u32_small by lia. rewrite (u32_small (_ mod _ + 1)) by lia.
  pose proof (Z.div_mod (Z.of_nat i) N) as Hd.
  destruct (Z.eqb_spec (Z.of_nat i mod N) (N - 1)).
  - apply Z.mod_unique with (Z.of_nat i / N + 1); lia.
  - apply Z.mod_unique with (Z.of_nat i / N); lia.
Qed.

Lemma wbuf_alternates i : wbuf (S (S i)) = wbuf i.
Proof.
  unfold wbuf. replace (Z.of_nat (S (S i))) with (Z.of_nat i + 1 * 2) by lia.
  by rewrite Z_mod_plus_full.
Qed.

Lemma sq_next i :
  Qpd (core_id false) (word_addr kr) (word_addr k_count) (4 * Z.of_nat B) N
    (word_addr (wbuf (S i))) (word_addr (wbuf i)) (u32 (u32 (Z.of_nat i) + 1))
    (next_ptr (sq i) (Z.of_nat i mod N)) s_unused.1.1 s_unused.1.2 s_unused.2 = sq (S i).
Proof.
  unfold sq. rewrite next_ptr_mod, wbuf_alternates by done. f_equal.
  unfold u32. rewrite Zplus_mod_idemp_l. f_equal. lia.
Qed.

Lemma send_flag i t :
  code_s i (SFlag t) =
  Store (u32 (word_addr (wbuf i) + 4 * Z.of_nat B)) FLAG_VALID (code_s i (SCount t)).
Proof. reflexivity. Qed.

Lemma send_room i t : exists k,
  code_s i (SCount t) = Load (word_addr k_count) k /\
  forall v, k v = code_s i (if u32 (u32 (Z.of_nat i) - v) =? N then SLoop t else SStat t).
Proof.
  eexists. split; [reflexivity|]. intros v. cbn -[u32 Z.eqb send_post retry_body].
  destruct (u32 (u32 (Z.of_nat i) - v) =? N); reflexivity.
Qed.

Lemma send_status i t : exists k,
  code_s i (SStat t) = IoLoad DMA_BANK (entry1 true) k /\
  forall v, k v = code_s i (if idle v then SS0 t else SLoop t).
Proof.
  eexists. split; [reflexivity|]. intros v. unfold idle. cbv beta.
  destruct (v .& NOC_ACTIVE_BIT =? 0); [|reflexivity].
  cbn [code_s]. unfold s_exit. rewrite <- (sq_next i). reflexivity.
Qed.

(** The program of the source from its start, or from the end of a send. *)
Definition s_start (i : nat) : spc :=
  if decide (i < length msgs)%nat then (match B with O => STime | S _ => SFill 0 end) else SDone.

Lemma msg_length i : (i < length msgs)%nat -> length (msg i) = B.
Proof.
  intros Hi. apply (proj1 (List.Forall_forall _ _) ch_msgs), nth_In, Hi.
Qed.

Lemma msg_lookup i : (i < length msgs)%nat -> msgs !! i = Some (msg i).
Proof. intros Hi. destruct (nth_lookup_or_length msgs i []); [done|lia]. Qed.

Lemma source_start i : source (sq i) (drop i msgs) = code_s i (s_start i).
Proof.
  unfold s_start. destruct (decide (i < length msgs)%nat) as [Hi|Hi].
  - rewrite (drop_S msgs (msg i) i).
    2:{ by apply msg_lookup. }
    pose proof (msg_length i Hi) as Hl. cbn [source].
    destruct B as [|n] eqn:EB.
    + by rewrite (nil_length_inv _ Hl).
    + cbn [code_s]. rewrite Z.mul_0_r, Z.add_0_r. reflexivity.
  - by rewrite drop_ge by lia.
Qed.

(** *** The sink *)

Lemma ring_range i : kr <= ring i /\ ring i + L <= k_recv.
Proof.
  pose proof ch_N. assert (0 < N) as HN by lia. pose proof (Z.mod_pos_bound (Z.of_nat i) N HN).
  unfold ring, k_recv, L. nia.
Qed.

Lemma wbuf_range i : ks <= wbuf i /\ wbuf i + L <= k_count.
Proof.
  pose proof (Z.mod_pos_bound (Z.of_nat i) 2 ltac:(lia)). unfold wbuf, k_count, L. nia.
Qed.

Lemma k_recv_range : 0 <= kr /\ k_recv < 0x4000.
Proof. pose proof ch_kr. unfold k_recv, L. lia. Qed.

Lemma k_count_range : 0 <= ks /\ k_count < 0x4000.
Proof. pose proof ch_ks. unfold k_count, L. lia. Qed.

Lemma buf_bytes : u32 (4 * Z.of_nat B + FLAG_SIZE) = 4 * L.
Proof.
  change FLAG_SIZE with 4. pose proof ch_ks. unfold L. rewrite u32_small; lia.
Qed.

Lemma ring_addr i :
  u32 (word_addr kr + u32 (u32 (4 * Z.of_nat B + FLAG_SIZE) * (Z.of_nat i mod N))) =
  word_addr (ring i).
Proof.
  rewrite buf_bytes. pose proof (ring_range i) as Hr. pose proof k_recv_range.
  assert (0 < L) by (unfold L; lia).
  pose proof ch_base. unfold word_addr, ring in *. rewrite (u32_small (4 * L * _)).
  - rewrite u32_small; lia.
  - assert (0 <= (Z.of_nat i mod N) * L) by lia. lia.
Qed.

Definition flag_addr (i : nat) : Z := word_addr (ring i + Z.of_nat B).

Lemma flag_address i :
  u32 (u32 (word_addr kr + u32 (u32 (4 * Z.of_nat B + FLAG_SIZE) * (Z.of_nat i mod N)))
       + 4 * Z.of_nat B) = flag_addr i.
Proof.
  rewrite ring_addr. pose proof (ring_range i) as Hr. pose proof k_recv_range.
  pose proof ch_base. unfold flag_addr, word_addr, L in *. rewrite u32_small; lia.
Qed.

Definition after_recv (i : nat) (r : Z * qpd_t) : prog (list (list Z)) :=
  m ← read_words B (read_buf (snd r)) [];
  mp_ack (snd r) 0;;
  sink (length msgs - S i) B (snd r) (take i msgs ++ [m]).

Definition r_loop (i : nat) (x t : Z) (q : qpd_t) : prog (list (list Z)) :=
  Loop (x, q) (retry_body 0 t mp_nbrecv) (after_recv i).

Definition rest (i : nat) : prog (list (list Z)) :=
  sink (length msgs - i) B (rq i) (take i msgs).

Definition ask_done (u : unit) : prog (Z * unit) := d ← noc_dma_done (core_id true); Ret (d, u).
Definition post_count (u : unit) : prog (Z * unit) :=
  r ← noc_nbwrite (core_id true) (word_addr k_count) (word_addr k_recv) 4 1; Ret (r, u).

Definition ack_end (r : Z * unit) : prog Z :=
  if fst r =? 0 then
    c ← load (word_addr k_recv); store_spm (word_addr k_recv) (u32 (c - 1));; Ret (fst r)
  else Ret (fst r).
Definition ack_count (t : Z) : prog Z :=
  c ← load (word_addr k_recv);
  store_spm (word_addr k_recv) (u32 (c + 1));;
  r ← retry 0 t post_count tt; ack_end r.
Definition ack_done (t : Z) (d : Z * unit) : prog Z :=
  if fst d =? 0 then Ret (fst d) else ack_count t.

Definition a_loop (i : nat) (x t : Z) : prog (list (list Z)) :=
  Loop (x, tt) (retry_body 0 t ask_done) (fun d => ack_done t d;; rest i).
Definition b_loop (i : nat) (x t : Z) : prog (list (list Z)) :=
  Loop (x, tt) (retry_body 0 t post_count) (fun r => ack_end r;; rest i).

Definition r_word0 : Z :=
  u32 ((DATA_IRQ_PKT_TYPE << NOC_PTR_WIDTH) .| u16 (W (u32 (word_addr k_count - NOC_SPM_BASE)))).
Definition r_word1 : Z :=
  u32 (NOC_ACTIVE_BIT .| (u16 (W 4) << NOC_PTR_WIDTH) .| u16 (W (u32 (word_addr k_recv - NOC_SPM_BASE)))).

Definition code_r (i : nat) (p : rpc) : prog (list (list Z)) :=
  match p with
  | RTime => r ← mp_recv (rq i) 0; after_recv i r
  | RLoop t => r_loop i 0 t (rq i)
  | RFlag t => trying t mp_nbrecv (after_recv i) (mp_nbrecv (rq i))
  | RClear t => Store (flag_addr i) FLAG_INVALID (r_loop i 1 t (rq (S i)))
  | RExit t => r_loop (pred i) 1 t (rq i)
  | RRead j =>
      m ← read_words (B - j) (word_addr (ring (pred i)) + 4 * Z.of_nat j) (take j (msg (pred i)));
      mp_ack (rq i) 0;;
      sink (length msgs - i) B (rq i) (take (pred i) msgs ++ [m])
  | ATime => mp_ack (rq i) 0;; rest i
  | ALoop t => a_loop i 0 t
  | AStat t => trying t ask_done (fun d => ack_done t d;; rest i) (ask_done tt)
  | AExit t => a_loop i 1 t
  | ALoad t => ack_count t;; rest i
  | AStore c t => Store (word_addr k_recv) (u32 (c + 1)) (b_loop i 0 t)
  | BLoop t => b_loop i 0 t
  | BStat t => trying t post_count (fun r => ack_end r;; rest i) (post_count tt)
  | BS0 t => IoStore DMA_BANK (entry0 false) r_word0
               (IoStore DMA_BANK (entry1 false) r_word1 (b_loop i 1 t))
  | BS1 t => IoStore DMA_BANK (entry1 false) r_word1 (b_loop i 1 t)
  | BExit t => b_loop i 1 t
  | RDone => Ret (take i msgs)
  end.

Lemma rq_next i :
  Qpd (core_id true) (word_addr kr) (word_addr k_count) (4 * Z.of_nat B) N
    r_unused.1.1.1 r_unused.1.1.2 r_unused.1.2 r_unused.2
    (u32 (word_addr kr + u32 (u32 (4 * Z.of_nat B + FLAG_SIZE) * (Z.of_nat i mod N))))
    (word_addr k_recv) (next_ptr (rq i) (Z.of_nat i mod N)) = rq (S i).
Proof. rewrite ring_addr, next_ptr_mod by done. done. Qed.

Lemma recv_flag i t : exists k,
  code_r i (RFlag t) = Load (flag_addr i) k /\
  forall v, k v = code_r i (if v =? FLAG_INVALID then RLoop t else RClear t).
Proof.
  rewrite <- (flag_address i). eexists. split; [reflexivity|]. intros v. cbv beta.
  destruct (v =? FLAG_INVALID) eqn:E.
  - cbn -[Z.eqb u32 retry_body after_recv]. rewrite E. reflexivity.
  - cbn [code_r]. rewrite <- (rq_next i), <- flag_address. cbn -[Z.eqb u32 retry_body after_recv].
    rewrite E. reflexivity.
Qed.

Lemma ack_status i t : exists k,
  code_r i (AStat t) = IoLoad DMA_BANK (entry1 false) k /\
  forall v, k v = code_r i (if idle v then AExit t else ALoop t).
Proof.
  eexists. split; [reflexivity|]. intros v. unfold idle. cbv beta.
  destruct (v .& NOC_ACTIVE_BIT =? 0); reflexivity.
Qed.

Lemma post_status i t : exists k,
  code_r i (BStat t) = IoLoad DMA_BANK (entry1 false) k /\
  forall v, k v = code_r i (if idle v then BS0 t else BLoop t).
Proof.
  eexists. split; [reflexivity|]. intros v. unfold idle. cbv beta.
  destruct (v .& NOC_ACTIVE_BIT =? 0); reflexivity.
Qed.

Definition r_start (i : nat) : rpc := if decide (i < length msgs)%nat then RTime else RDone.

Lemma rest_start i : rest i = code_r i (r_start i).
Proof.
  unfold rest, r_start. destruct (decide (i < length msgs)%nat).
  - replace (length msgs - i)%nat with (S (length msgs - S i)) by lia. reflexivity.
  - by replace (length msgs - i)%nat with O by lia.
Qed.

End Points.

(** ** The automaton of a channel *)

Inductive ack_state := AckIdle | AckPosted | AckMoved.

(** How many messages have been posted, taken and acknowledged, what the source knows of the
    acknowledgements, where the programs are, and the two transfers. *)
Record qst := Q {
  si : nat; sp : spc;
  ri : nat; rp : rpc;
  sch : option Z;      (* the words moved of the message in transfer *)
  ach : ack_state;
  kk : nat; cc : nat
}.

Section Automaton.
Context `{Channel}.

(** The messages that have arrived with their flags. *)
Definition complete (a : qst) : nat :=
  match sch a with Some m => if m <? L then pred (si a) else si a | None => si a end.

Definition s_goto (a : qst) (p : spc) : qst :=
  Q (si a) p (ri a) (rp a) (sch a) (ach a) (kk a) (cc a).
Definition r_goto (a : qst) (p : rpc) : qst :=
  Q (si a) (sp a) (ri a) p (sch a) (ach a) (kk a) (cc a).

Definition s_step (t : Z) (a : qst) : qst :=
  match sp a with
  | SFill j => s_goto a (if decide (S j < B)%nat then SFill (S j) else STime)
  | STime => s_goto a (SLoop (u64 (t + 0)))
  | SLoop u => s_goto a (SFlag u)
  | SFlag u => s_goto a (SCount u)
  | SCount u => s_goto a (if Z.of_nat (si a - cc a) =? N then SLoop u else SStat u)
  | SStat u => s_goto a (match sch a with None => SS0 u | Some _ => SLoop u end)
  | SS0 u => s_goto a (SS1 u)
  | SS1 u => Q (S (si a)) (SExit u) (ri a) (rp a) (Some 0) (ach a) (kk a) (cc a)
  | SExit _ => s_goto a (s_start (si a))
  | SDone => a
  end.

Definition r_step (t : Z) (a : qst) : qst :=
  match rp a with
  | RTime => r_goto a (RLoop (u64 (t + 0)))
  | RLoop u => r_goto a (RFlag u)
  | RFlag u => r_goto a (if decide (ri a < complete a)%nat then RClear u else RLoop u)
  | RClear u => Q (si a) (sp a) (S (ri a)) (RExit u) (sch a) (ach a) (kk a) (cc a)
  | RExit _ => r_goto a (match B with O => ATime | S _ => RRead 0 end)
  | RRead j => r_goto a (if decide (S j < B)%nat then RRead (S j) else ATime)
  | ATime => r_goto a (ALoop (u64 (t + 0)))
  | ALoop u => r_goto a (AStat u)
  | AStat u => r_goto a (match ach a with AckIdle => AExit u | _ => ALoop u end)
  | AExit u => r_goto a (ALoad u)
  | ALoad u => r_goto a (AStore (u32 (Z.of_nat (kk a))) u)
  | AStore _ u => Q (si a) (sp a) (ri a) (BLoop u) (sch a) (ach a) (S (kk a)) (cc a)
  | BLoop u => r_goto a (BStat u)
  | BStat u => r_goto a (match ach a with AckIdle => BS0 u | _ => BLoop u end)
  | BS0 u => r_goto a (BS1 u)
  | BS1 u => Q (si a) (sp a) (ri a) (BExit u) (sch a) AckPosted (kk a) (cc a)
  | BExit _ => r_goto a (r_start (ri a))
  | RDone => a
  end.

Definition net_s (a : qst) : qst :=
  Q (si a) (sp a) (ri a) (rp a)
    (match sch a with Some m => if m <? L then Some (m + 1) else None | None => None end)
    (ach a) (kk a) (cc a).

Definition net_r (a : qst) : qst :=
  match ach a with
  | AckIdle => a
  | AckPosted => Q (si a) (sp a) (ri a) (rp a) (sch a) AckMoved (kk a) (kk a)
  | AckMoved => Q (si a) (sp a) (ri a) (rp a) (sch a) AckIdle (kk a) (cc a)
  end.

Definition q_step (a : qst) (c : choice) : qst :=
  match c with
  | Run true t => s_step t a
  | Run false t => r_step t a
  | Net true => net_s a
  | Net false => net_r a
  end.

(** *** The counters *)

Definition settling (a : qst) : Prop :=
  match ach a with AckPosted => S (cc a) = kk a | _ => cc a = kk a end.

Definition sink_ok (a : qst) : Prop :=
  match rp a with
  | RTime | RLoop _ | RFlag _ => kk a = ri a /\ settling a /\ (ri a < length msgs)%nat
  | RClear _ => kk a = ri a /\ settling a /\ (ri a < complete a)%nat
  | RExit _ | ATime | ALoop _ | AStat _ => S (kk a) = ri a /\ settling a
  | RRead j => S (kk a) = ri a /\ settling a /\ (j < B)%nat
  | AExit _ | ALoad _ => S (kk a) = ri a /\ ach a = AckIdle /\ cc a = kk a
  | AStore c _ => S (kk a) = ri a /\ ach a = AckIdle /\ cc a = kk a /\ c = u32 (Z.of_nat (kk a))
  | BLoop _ | BStat _ | BS0 _ | BS1 _ => kk a = ri a /\ ach a = AckIdle /\ S (cc a) = kk a
  | BExit _ => kk a = ri a /\ settling a
  | RDone => kk a = ri a /\ settling a /\ ri a = length msgs
  end.

Definition source_ok (a : qst) : Prop :=
  match sp a with
  | SFill j => (si a < length msgs)%nat /\ (j < B)%nat
  | STime | SLoop _ | SFlag _ | SCount _ => (si a < length msgs)%nat
  | SStat _ => (si a < length msgs)%nat /\ Z.of_nat (si a) < Z.of_nat (cc a) + N
  | SS0 _ | SS1 _ =>
      (si a < length msgs)%nat /\ Z.of_nat (si a) < Z.of_nat (cc a) + N /\ sch a = None
  | SExit _ => True
  | SDone => si a = length msgs
  end.

Definition counters_ok (a : qst) : Prop :=
  ((cc a <= kk a)%nat /\ (kk a <= ri a)%nat /\ (ri a <= complete a)%nat /\
   (complete a <= si a)%nat /\ (si a <= length msgs)%nat /\
   Z.of_nat (si a) <= Z.of_nat (cc a) + N /\
   match sch a with Some m => 0 <= m <= L /\ (0 < si a)%nat | None => True end) /\
  sink_ok a /\ source_ok a.

Lemma complete_eq a :
  complete a = match sch a with Some m => if m <? L then pred (si a) else si a | None => si a end.
Proof. done. Qed.

Lemma L_pos : 0 < L.
Proof. unfold L. lia. Qed.

(** A step of one program that changes only its program point. *)
Lemma counters_s_goto a p :
  counters_ok a -> source_ok (s_goto a p) -> counters_ok (s_goto a p).
Proof. intros (?&?&?) ?. done. Qed.

Lemma counters_r_goto a p :
  counters_ok a -> sink_ok (r_goto a p) -> counters_ok (r_goto a p).
Proof. intros (?&?&?) ?. done. Qed.

Lemma s_counters t a : counters_ok a -> counters_ok (s_step t a).
Proof.
  intros Ha. pose proof Ha as (Hc&Hr&Hs). unfold s_step, source_ok in *.
  destruct (sp a) eqn:E; try (apply counters_s_goto; [done|]; unfold source_ok; cbn; by try case_decide).
  - apply counters_s_goto; [done|]. unfold source_ok. cbn. case_decide; [split; [apply Hs|done]|apply Hs].
  - apply counters_s_goto; [done|]. unfold source_ok. cbn.
    destruct (Z.eqb_spec (Z.of_nat (si a - cc a)) N); [done|]. split; [done|]. lia.
  - apply counters_s_goto; [done|]. unfold source_ok. cbn. destruct (sch a); intuition.
  - destruct Hs as (Hl&Hw&Hn). unfold counters_ok, sink_ok, source_ok, complete in *.
    cbn. rewrite Hn in *. pose proof L_pos. rewrite (proj2 (Z.ltb_lt 0 L)) by done.
    split; [|done]. cbn. lia.
  - apply counters_s_goto; [done|]. unfold source_ok, s_start. cbn.
    case_decide; [destruct B; cbn; try split; lia|]. lia.
  - done.
Qed.

Lemma r_counters t a : counters_ok a -> counters_ok (r_step t a).
Proof.
  intros Ha. pose proof Ha as (Hc&Hr&Hs). unfold r_step, sink_ok, settling in *.
  destruct (rp a) eqn:E;
    try (apply counters_r_goto; [done|]; unfold sink_ok, settling; cbn; intuition done).
  - apply counters_r_goto; [done|]. unfold sink_ok. cbn. case_decide; [|done].
    destruct Hr as (?&?&?). done.
  - unfold counters_ok, sink_ok, source_ok, complete, settling in *. cbn in *.
    destruct Hr as (?&?&?). split; [|split; [split; [lia|done]|done]].
    destruct (sch a) as [m|]; [destruct (m <? L)|]; lia.
  - apply counters_r_goto; [done|]. unfold sink_ok, settling. cbn. destruct B eqn:EB; [done|].
    destruct Hr. split; [done|]. split; [done|lia].
  - apply counters_r_goto; [done|]. unfold sink_ok, settling. cbn. case_decide; intuition done.
  - apply counters_r_goto; [done|]. unfold sink_ok, settling. cbn.
    destruct (ach a); intuition done.
  - unfold counters_ok, sink_ok, source_ok, complete, settling in *. cbn in *.
    destruct Hr as (?&?&?&?). split; [destruct (sch a) as [m|]; [destruct (m <? L)|]; lia|].
    split; [|done]. split; [lia|]. split; [done|lia].
  - apply counters_r_goto; [done|]. unfold sink_ok, settling. cbn.
    destruct (ach a); intuition done.
  - unfold counters_ok, sink_ok, source_ok, complete, settling in *. cbn in *. intuition done.
  - apply counters_r_goto; [done|]. unfold sink_ok, settling, r_start. cbn.
    destruct Hr. case_decide; (split; [done|]); (split; [done|]); [done|].
    assert (complete a <= length msgs)%nat by lia. lia.
  - done.
Qed.

Lemma net_s_counters a : counters_ok a -> counters_ok (net_s a).
Proof.
  intros (Hc&Hr&Hs). unfold net_s, counters_ok, sink_ok, source_ok, complete, settling in *. cbn in *.
  destruct (sch a) as [m|] eqn:Es; [|done].
  destruct (Z.ltb_spec m L).
  - destruct (Z.ltb_spec (m + 1) L); (split; [lia|]; split; [|destruct (sp a); intuition done]);
      destruct (rp a); intuition lia.
  - split; [lia|]. split; [done|]. destruct (sp a); intuition done.
Qed.

Lemma net_r_counters a : counters_ok a -> counters_ok (net_r a).
Proof.
  intros (Hc&Hr&Hs). unfold net_r, counters_ok, sink_ok, source_ok, complete, settling in *.
  destruct (ach a) eqn:Ea; [by rewrite Ea|..]; cbn in *;
    (split; [destruct (sch a) as [m|]; [destruct (m <? L)|]; lia|]);
    split; [destruct (rp a); intuition (try done; lia)|destruct (sp a); intuition lia
           |destruct (rp a); intuition (try done; lia)|done].
Qed.

Lemma q_counters a c : counters_ok a -> counters_ok (q_step a c).
Proof.
  destruct c as [[] t|[]]; cbn [q_step]; auto using s_counters, r_counters, net_s_counters, net_r_counters.
Qed.

End Automaton.

(** ** The memory of a channel *)

Section Memory.
Context `{Channel}.

Definition word (i j : nat) : Z := nth j (msg i) 0.

Definition holds (m : Z -> Z) (k : Z) (i n : nat) : Prop := stored m k (msg i) n.

(** The buffer the source fills. *)
Definition cur_ok (a : qst) (m : Z -> Z) : Prop :=
  match sp a with
  | SFill j => holds m (wbuf (si a)) (si a) j
  | STime | SLoop _ | SFlag _ => holds m (wbuf (si a)) (si a) B
  | SCount _ | SStat _ | SS0 _ | SS1 _ =>
      holds m (wbuf (si a)) (si a) B /\ m (word_addr (wbuf (si a) + Z.of_nat B)) = FLAG_VALID
  | SExit _ | SDone => True
  end.

(** The message in transfer. *)
Definition out_ok (a : qst) (c : ni) : Prop :=
  match sch a with
  | None => idle (io c DMA_BANK (entry1 true)) = true
  | Some m =>
      let i := pred (si a) in
      holds (spm c) (wbuf i) i B /\ spm c (word_addr (wbuf i + Z.of_nat B)) = FLAG_VALID /\
      transfer true (ring i) (wbuf i) L c /\ moved c = m
  end /\
  match sp a with
  | SS1 _ => ptr_field (io c DMA_BANK (entry0 true)) = ring (si a)
  | _ => True
  end.

(** The acknowledgement in transfer. *)
Definition ack_ok (a : qst) (d : ni) : Prop :=
  match ach a with
  | AckIdle => idle (io d DMA_BANK (entry1 false)) = true
  | AckPosted => transfer false k_count k_recv 1 d /\ moved d = 0
  | AckMoved => transfer false k_count k_recv 1 d /\ moved d = 1
  end /\
  match rp a with
  | BS1 _ => ptr_field (io d DMA_BANK (entry0 false)) = k_count
  | _ => True
  end.

(** The last [N] messages are in the ring, the one in transfer as far as it has moved. *)
Definition data_ok (a : qst) (m : Z -> Z) : Prop :=
  forall i n, (i < si a)%nat -> Z.of_nat (si a) <= Z.of_nat i + N -> (n <= B)%nat ->
    (S i = si a -> match sch a with Some v => Z.of_nat n <= v | None => True end) ->
    holds m (ring i) i n.

(** The flags of exactly the messages that have arrived and not been taken are set. *)
Definition flags_ok (a : qst) (m : Z -> Z) : Prop :=
  (forall i, (ri a <= i < complete a)%nat -> m (flag_addr i) = FLAG_VALID) /\
  (forall i, (forall i', (ri a <= i' < complete a)%nat ->
                Z.of_nat i' mod N <> Z.of_nat i mod N) -> m (flag_addr i) = FLAG_INVALID).

Definition mem_ok (a : qst) (w : world) : Prop :=
  let c := w true in let d := w false in
  (spm c (word_addr k_count) = u32 (Z.of_nat (cc a)) /\
   spm d (word_addr k_recv) = u32 (Z.of_nat (kk a))) /\
  cur_ok a (spm c) /\ out_ok a c /\ ack_ok a d /\ data_ok a (spm d) /\ flags_ok a (spm d).

(** *** Different words *)


Lemma block_inj s s' j j' :
  0 <= j < L -> 0 <= j' < L -> s * L + j = s' * L + j' -> s = s' /\ j = j'.
Proof.
  intros Hj Hj' E. destruct (Z.lt_trichotomy s s') as [Hs|[->|Hs]]; [|lia|].
  - assert ((s + 1) * L <= s' * L) by (apply Z.mul_le_mono_nonneg_r; lia). lia.
  - assert ((s' + 1) * L <= s * L) by (apply Z.mul_le_mono_nonneg_r; lia). lia.
Qed.

Lemma wbuf_ne i j j' :
  0 <= j < L -> 0 <= j' < L -> wbuf i + j <> wbuf (S i) + j'.
Proof.
  intros Hj Hj' E. unfold wbuf in E.
  destruct (block_inj (Z.of_nat i mod 2) (Z.of_nat (S i) mod 2) j j') as [E' _]; [done|done|lia|].
  zdm.
Qed.

Lemma ring_inj i i' j j' :
  0 <= j < L -> 0 <= j' < L -> ring i + j = ring i' + j' ->
  Z.of_nat i mod N = Z.of_nat i' mod N /\ j = j'.
Proof. intros Hj Hj' E. unfold ring in E. apply block_inj; [done|done|lia]. Qed.

Lemma mod_ne i i' :
  i <> i' -> Z.of_nat i < Z.of_nat i' + N -> Z.of_nat i' < Z.of_nat i + N ->
  Z.of_nat i mod N <> Z.of_nat i' mod N.
Proof.
  intros Hne H1 H2 E. pose proof ch_N.
  assert (N <> 0) as HN by lia.
  pose proof (Z.div_mod (Z.of_nat i) N HN). pose proof (Z.div_mod (Z.of_nat i') N HN).
  set (d := Z.of_nat i / N - Z.of_nat i' / N).
  assert (Z.of_nat i - Z.of_nat i' = N * d) by (unfold d; lia). clearbody d.
  destruct (Z.lt_trichotomy d 0) as [Hd|[->|Hd]]; nia.
Qed.

Lemma flag_addr_mod i i' : Z.of_nat i mod N = Z.of_nat i' mod N -> flag_addr i = flag_addr i'.
Proof. intros E. unfold flag_addr, ring. by rewrite E. Qed.

Lemma holds_put m k i n x v :
  holds m k i n -> (forall j, (j < n)%nat -> k + Z.of_nat j <> x) ->
  holds (put m (word_addr x) v) k i n.
Proof. apply stored_put. Qed.

Lemma holds_snoc m k i n :
  holds m k i n -> holds (put m (word_addr (k + Z.of_nat n)) (word i n)) k i (S n).
Proof. apply stored_snoc. Qed.

(** *** Steps of the source *)

Definition s_follows (t : Z) (a : qst) (r : prog (list (list Z)) * world) : Prop :=
  let a' := s_step t a in r.1 = code_s (si a') (sp a') /\ mem_ok a' r.2.

Lemma s_goto_mem a w p :
  mem_ok a w -> cur_ok (s_goto a p) (spm (w true)) ->
  match p with SS1 _ => False | _ => True end -> mem_ok (s_goto a p) w.
Proof.
  intros (Hn&Hc&[Ho _]&Hm) Hc' Hp. split; [done|]. split; [done|]. split; [|done].
  split; [done|]. by destruct p.
Qed.

Lemma wbuf_count i j : 0 <= j < L -> wbuf i + j <> k_count.
Proof. pose proof (wbuf_range i). lia. Qed.

(** A store into the buffer that is being filled. *)
Lemma out_store a c j v :
  counters_ok a -> 0 <= j < L -> out_ok a c ->
  out_ok a (NI (put (spm c) (word_addr (wbuf (si a) + j)) v) (io c) (moved c)).
Proof.
  intros Ha Hj [Ho Hp]. split; [|done]. destruct (sch a) as [m|] eqn:Es; [|done].
  destruct Ho as (H1&H2&H3&H4). destruct Ha as ((_&_&_&_&_&_&Hs)&_). rewrite Es in Hs.
  assert (si a = S (pred (si a))) as Ei by lia. revert H1 H2 H3. generalize (pred (si a)) as i, Ei.
  clear Ei. intros i Ei H1 H2 H3. cbn [spm]. rewrite Ei.
  split; [|split; [|done]].
  - apply holds_put; [done|]. intros j' Hj'. apply wbuf_ne; unfold L in *; lia.
  - rewrite put_word, (proj2 (Z.eqb_neq _ _)); [done|]. apply wbuf_ne; unfold L in *; lia.
Qed.

Lemma store_mem a w p j v :
  counters_ok a -> mem_ok a w -> 0 <= j < L ->
  let m := put (spm (w true)) (word_addr (wbuf (si a) + j)) v in
  cur_ok (s_goto a p) m -> match p with SS1 _ => False | _ => True end ->
  mem_ok (s_goto a p) (set_ni w true (NI m (io (w true)) (moved (w true)))).
Proof.
  intros Ha (Hn&Hc&Ho&Hm) Hj m Hc' Hp. unfold mem_ok.
  change false with (negb true). autorewrite with noc. cbn [negb].
  split.
  { cbn [spm]. unfold m. rewrite put_word, (proj2 (Z.eqb_neq _ _)); [done|].
    intros E. symmetry in E. revert E. by apply wbuf_count. }
  split; [done|]. split; [|done].
  destruct (out_store a (w true) j v Ha Hj Ho) as [Ho' _]. split; [done|]. by destruct p.
Qed.

Lemma room_test a w :
  counters_ok a -> mem_ok a w ->
  (u32 (u32 (Z.of_nat (si a)) - spm (w true) (word_addr k_count)) =? N) =
  (Z.of_nat (si a - cc a) =? N).
Proof.
  intros ((H1&H2&H3&H4&H5&H6&_)&_) ((->&_)&_). f_equal.
  pose proof ch_N. pose proof ch_kr. assert (N <= 0x4000) by nia.
  unfold u32. rewrite Zminus_mod_idemp_l, Zminus_mod_idemp_r.
  rewrite Z.mod_small by lia. lia.
Qed.

Lemma send_idle a w :
  mem_ok a w ->
  idle (io (w true) DMA_BANK (entry1 true)) = match sch a with None => true | Some _ => false end.
Proof.
  intros (_&_&[Ho _]&_). destruct (sch a); [|done]. destruct Ho as (_&_&Ht&_).
  by eapply transfer_active.
Qed.

Lemma s_word0_ptr i : ptr_field (s_word0 i) = ring i.
Proof.
  unfold s_word0. rewrite ring_addr. pose proof (ring_range i). pose proof k_recv_range.
  assert (0 <= ring i < 0x4000) by (pose proof L_pos; lia).
  unfold word_addr. rewrite word_offset by done.
  apply entry_write_ptr; [unfold DATA_IRQ_PKT_TYPE; lia|done].
Qed.

Lemma s_word1_value i :
  s_word1 i = 0x80000000 + L * 0x4000 + wbuf i /\ 0 <= wbuf i < 0x4000 /\ 0 <= L < 0x10000.
Proof.
  pose proof (wbuf_range i). pose proof k_count_range. pose proof L_pos.
  assert (0 <= wbuf i < 0x4000) by lia. assert (0 <= L < 0x10000) by lia.
  split; [|done]. unfold s_word1. rewrite buf_bytes.
  unfold word_addr. rewrite word_offset by done.
  replace (u16 (W (4 * L))) with L by (unfold W; zdm). by rewrite entry_read.
Qed.

Lemma s_posts t u a w :
  counters_ok a -> mem_ok a w -> sp a = SS0 u \/ sp a = SS1 u ->
  s_follows t a (access true t (code_s (si a) (sp a)) w).
Proof.
  intros (Hc&_&Hs) (Hn&Hcur&[Ho Hp]&Ha&Hd&Hf) Hsp. unfold source_ok, cur_ok in *.
  unfold s_follows, s_step. pose proof L_pos.
  destruct Hsp as [E|E]; rewrite E in *; cbn [code_s access fst snd]; destruct Hs as (Hl&Hr&Hi);
    (split; [reflexivity|]); unfold mem_ok; rewrite set_ni_eq; change false with (negb true);
    rewrite set_ni_ne; cbn [negb spm]; rewrite Hi in Ho.
  - split; [done|]. split; [done|]. split; [|done]. split; cbn [sch sp s_goto io].
    + rewrite Hi, Z.eqb_refl, put_ne; [done|]. unfold entry0, entry1. lia.
    + rewrite Z.eqb_refl, put_eq. apply s_word0_ptr.
  - split; [done|]. split; [done|]. split; [|split; [done|split]].
    + destruct Hcur as [Hw1 Hw2]. split; [|done]. cbn [sch si pred spm moved].
      split; [done|]. split; [done|]. rewrite !Z.eqb_refl. split; [|done].
      unfold transfer. cbn [io]. rewrite Z.eqb_refl, put_eq.
      destruct (s_word1_value (si a)) as (->&?&?).
      rewrite put_ne by (unfold entry0, entry1; lia). done.
    + intros i n Hi' Hw Hn' Hv. cbn [si sch] in *. destruct (decide (i = si a)) as [->|Hne].
      * specialize (Hv eq_refl). assert (n = O) as -> by lia. intros j Hj. lia.
      * apply Hd; [lia|lia|done|]. by rewrite Hi.
    + unfold flags_ok, complete in *. cbn [si sch ri]. rewrite Hi in Hf.
      by rewrite (proj2 (Z.ltb_lt 0 L)).
Qed.

Lemma fill_point i j :
  (i < length msgs)%nat -> (j < B)%nat ->
  code_s i (SFill j) =
  Store (word_addr (wbuf i + Z.of_nat j)) (word i j)
    (code_s i (if decide (S j < B)%nat then SFill (S j) else STime)).
Proof.
  intros Hi Hj. pose proof (msg_length i Hi) as Hl. cbn [code_s].
  rewrite (drop_S (msg i) (word i j) j).
  2:{ unfold word. destruct (nth_lookup_or_length (msg i) j 0); [done|lia]. }
  replace (word_addr (wbuf i) + 4 * Z.of_nat j) with (word_addr (wbuf i + Z.of_nat j))
    by (unfold word_addr; lia).
  change (fill_words ?x (?y :: ?l)) with (Store x y (fill_words (x + 4) l)).
  case_decide.
  - cbn [code_s].
    replace (word_addr (wbuf i + Z.of_nat j) + 4) with (word_addr (wbuf i) + 4 * Z.of_nat (S j))
      by (unfold word_addr; lia). reflexivity.
  - rewrite (drop_ge (msg i)) by lia. reflexivity.
Qed.

Lemma flag_word_addr i :
  u32 (word_addr (wbuf i) + 4 * Z.of_nat B) = word_addr (wbuf i + Z.of_nat B).
Proof.
  pose proof (wbuf_range i). pose proof k_count_range. pose proof ch_base.
  unfold word_addr, L in *. rewrite u32_small; lia.
Qed.

Lemma start_cur a m : counters_ok a -> cur_ok (s_goto a (s_start (si a))) m.
Proof.
  intros Ha. unfold cur_ok, s_start. cbn. case_decide; [|done].
  destruct B eqn:EB; cbn; intros j Hj; lia.
Qed.

Lemma s_code_follows t a w :
  counters_ok a -> mem_ok a w -> s_follows t a (access true t (code_s (si a) (sp a)) w).
Proof.
  intros Ha Hm. pose proof Ha as (_&_&Hs). pose proof Hm as (_&Hc&_). pose proof L_pos.
  destruct (sp a) as [j| |u|u|u|u|u|u|u|] eqn:E; rewrite <- ?E;
    try solve [eapply s_posts; [done|done|eauto]]; unfold s_follows, s_step, source_ok, cur_ok in *;
    rewrite E in *.
  - destruct Hs as [Hl Hj]. rewrite fill_point by done. cbn [access fst snd].
    split; [reflexivity|]. apply store_mem; [done|done|unfold L; lia| |by case_decide].
    case_decide; cbn; [by apply holds_snoc|].
    replace B with (S j) at 1 by lia. by apply holds_snoc.
  - split; [reflexivity|]. by apply s_goto_mem.
  - split; [reflexivity|]. by apply s_goto_mem.
  - rewrite send_flag, flag_word_addr. cbn [access fst snd]. split; [reflexivity|].
    apply store_mem; [done|done|unfold L; lia| |done]. split.
    + apply holds_put; [done|]. intros j Hj. cbn. lia.
    + cbn. by rewrite put_word, Z.eqb_refl.
  - destruct (send_room (si a) u) as (k&->&Hk). cbn [access fst snd].
    rewrite Hk, room_test by done. split; [done|]. apply s_goto_mem; [done| |by destruct (_ =? N)].
    unfold cur_ok. cbn. destruct (_ =? N); [apply Hc|done].
  - destruct (send_status (si a) u) as (k&->&Hk). cbn [access fst snd].
    rewrite Hk, (send_idle a) by done. split; [by destruct (sch a)|].
    apply s_goto_mem; [done| |by destruct (sch a)].
    unfold cur_ok. cbn. destruct (sch a); [apply Hc|done].
  - cbn [code_s]. unfold s_exit. rewrite retry_leave. cbn [fst snd].
    split; [apply source_start|]. apply s_goto_mem; [done|by apply start_cur|].
    unfold s_start. case_decide; [by destruct B|done].
  - split; [by rewrite E|done].
Qed.

(** *** Steps of the sink *)

Definition r_follows (t : Z) (a : qst) (r : prog (list (list Z)) * world) : Prop :=
  let a' := r_step t a in r.1 = code_r (ri a') (rp a') /\ mem_ok a' r.2.

Lemma r_goto_mem a w p :
  mem_ok a w -> match p with BS1 _ => False | _ => True end -> mem_ok (r_goto a p) w.
Proof.
  intros (Hn&Hc&Ho&[Ha _]&Hm) Hp. split; [done|]. split; [done|]. split; [done|].
  split; [|done]. split; [done|]. by destruct p.
Qed.

Lemma flag_test a w :
  mem_ok a w ->
  (spm (w false) (flag_addr (ri a)) =? FLAG_INVALID) =
  negb (bool_decide (ri a < complete a)%nat).
Proof.
  intros (_&_&_&_&_&[Hv Hi]). case_bool_decide.
  - by rewrite Hv by lia.
  - rewrite Hi; [done|]. lia.
Qed.

Lemma ring_recv i j : 0 <= j < L -> ring i + j <> k_recv.
Proof. pose proof (ring_range i). lia. Qed.

Lemma flag_ring i : flag_addr i = word_addr (ring i + Z.of_nat B).
Proof. done. Qed.

(** Taking the message clears its flag and no other. *)
Lemma clear_mem t u a w :
  counters_ok a -> mem_ok a w -> rp a = RClear u ->
  r_follows t a (access false t (code_r (ri a) (rp a)) w).
Proof.
  intros (Hc&Hs&_) (Hn&Hcur&Ho&[Ha Hp]&Hd&[Hv Hi]) E. unfold r_follows, r_step, sink_ok in *.
  rewrite E in *. cbn [code_r access fst snd]. split; [reflexivity|].
  destruct Hs as (_&_&Hlt). unfold mem_ok. rewrite set_ni_eq. change true with (negb false).
  rewrite set_ni_ne. cbn [negb spm]. rewrite flag_ring.
  split; [split; [apply Hn|]|].
  { rewrite put_word, (proj2 (Z.eqb_neq _ _)); [apply Hn|].
    intros Ek. symmetry in Ek. revert Ek. apply ring_recv. unfold L. lia. }
  split; [done|]. split; [done|]. split; [done|]. split; [|split].
  - intros i n H1 H2 H3 H4. apply holds_put; [by apply Hd|]. intros j Hj Ek.
    apply ring_inj in Ek; unfold L; lia.
  - cbn [ri complete sch si]. change (complete _) with (complete a). intros i Hi'.
    rewrite flag_ring, put_word, (proj2 (Z.eqb_neq _ _)).
    + apply Hv. lia.
    + intros Ek. apply ring_inj in Ek as [Ek _]; [|unfold L; lia..].
      revert Ek. apply mod_ne; lia.
  - cbn [ri]. change (complete _) with (complete a). intros i Hi'.
    rewrite flag_ring, put_word. destruct (Z.eqb_spec (ring i + Z.of_nat B) (ring (ri a) + Z.of_nat B)); [done|].
    apply Hi. intros i' Hr Ek. destruct (decide (i' = ri a)) as [->|Hne].
    + apply n. unfold ring. rewrite Ek. done.
    + apply (Hi' i'); [lia|done].
Qed.

Lemma read_point i j :
  (0 < i <= length msgs)%nat -> (j < B)%nat -> exists k,
  code_r i (RRead j) = Load (word_addr (ring (pred i) + Z.of_nat j)) k /\
  k (word (pred i) j) = code_r i (if decide (S j < B)%nat then RRead (S j) else ATime).
Proof.
  intros Hi Hj. assert (pred i < length msgs)%nat as Hp by lia.
  pose proof (msg_length _ Hp) as Hl. cbn [code_r].
  replace (B - j)%nat with (S (B - S j)) by lia.
  replace (word_addr (ring (pred i)) + 4 * Z.of_nat j) with (word_addr (ring (pred i) + Z.of_nat j))
    by (unfold word_addr; lia).
  eexists. split; [reflexivity|]. cbv beta.
  assert (take j (msg (pred i)) ++ [word (pred i) j] = take (S j) (msg (pred i))) as ->.
  { symmetry. apply take_S_r. unfold word.
    destruct (nth_lookup_or_length (msg (pred i)) j 0); [done|lia]. }
  case_decide.
  - cbn [code_r]. replace (word_addr (ring (pred i) + Z.of_nat j) + 4)
      with (word_addr (ring (pred i)) + 4 * Z.of_nat (S j)) by (unfold word_addr; lia). reflexivity.
  - replace (B - S j)%nat with O by lia. cbn [code_r]. unfold rest.
    rewrite (take_ge (msg (pred i))) by lia. cbn [read_words].
    assert (take (pred i) msgs ++ [msg (pred i)] = take i msgs) as E.
    { replace i with (S (pred i)) at 3 by lia. symmetry. by apply take_S_r, msg_lookup. }
    rewrite <- E. reflexivity.
Qed.

Lemma recv_exit i :
  (i < length msgs)%nat ->
  after_recv i (1, rq (S i)) = code_r (S i) (match B with O => ATime | S _ => RRead 0 end).
Proof.
  intros Hi. pose proof (msg_length i Hi) as Hl. pose proof (msg_lookup i Hi) as Hm.
  unfold after_recv. destruct B as [|n] eqn:EB.
  - cbn [code_r]. unfold rest. rewrite EB, (take_S_r _ _ _ Hm), (nil_length_inv _ Hl). reflexivity.
  - cbn [code_r pred snd]. rewrite Z.mul_0_r, Z.add_0_r, EB. reflexivity.
Qed.

Lemma ack_idle a w :
  mem_ok a w ->
  idle (io (w false) DMA_BANK (entry1 false)) = match ach a with AckIdle => true | _ => false end.
Proof.
  intros (_&_&_&[Ho _]&_). destruct (ach a); [done|..]; destruct Ho as [Ht _];
    by eapply transfer_active.
Qed.

Lemma r_word_values :
  ptr_field r_word0 = k_count /\ r_word1 = 0x80000000 + 1 * 0x4000 + k_recv /\
  0 <= k_recv < 0x4000.
Proof.
  pose proof k_recv_range. pose proof k_count_range. pose proof L_pos.
  pose proof (ring_range 0). pose proof (wbuf_range 0).
  assert (0 <= k_recv < 0x4000) by lia. assert (0 <= k_count < 0x4000) by lia.
  unfold r_word0, r_word1, word_addr. rewrite !word_offset by done.
  change (u16 (W 4)) with 1. rewrite entry_write_ptr, entry_read; [done|lia|done| |done].
  unfold DATA_IRQ_PKT_TYPE. lia.
Qed.

(** Counting and posting the acknowledgement. *)
Lemma ack_mem t a w :
  counters_ok a -> mem_ok a w ->
  match rp a with AStore _ _ | BS0 _ | BS1 _ => True | _ => False end ->
  r_follows t a (access false t (code_r (ri a) (rp a)) w).
Proof.
  intros (Hc&Hs&_) (Hn&Hcur&Ho&[Ha Hp]&Hd&[Hv Hi]) Hrp. unfold r_follows, r_step, sink_ok in *.
  destruct r_word_values as (W0&W1&W2).
  destruct (rp a) as [| | | | | | | | | | |c u| | |u|u| |] eqn:E; try done;
    cbn [code_r access fst snd]; (split; [reflexivity|]);
    unfold mem_ok; rewrite set_ni_eq; change true with (negb false);
    rewrite set_ni_ne; cbn [negb spm].
  - destruct Hs as (_&Hi'&_&->). split; [split; [apply Hn|]|].
    { rewrite put_eq. cbn [kk]. unfold u32. rewrite Zplus_mod_idemp_l. f_equal. lia. }
    split; [done|]. split; [done|]. split; [done|]. split; [|split].
    + intros i n H1 H2 H3 H4. apply holds_put; [by apply Hd|]. intros j Hj.
      apply ring_recv. unfold L. lia.
    + intros i Hi''. rewrite flag_ring, put_word, (proj2 (Z.eqb_neq _ _)); [by apply Hv|].
      apply ring_recv. unfold L. lia.
    + intros i Hi''. rewrite flag_ring, put_word, (proj2 (Z.eqb_neq _ _)); [by apply Hi|].
      apply ring_recv. unfold L. lia.
  - destruct Hs as (_&Hi'&_). split; [done|]. split; [done|]. split; [done|]. split; [|done].
    rewrite Hi' in Ha. split; cbn [ach rp r_goto io].
    + rewrite Hi', Z.eqb_refl, put_ne; [done|]. unfold entry0, entry1. lia.
    + by rewrite Z.eqb_refl, put_eq.
  - destruct Hs as (_&Hi'&_). split; [done|]. split; [done|]. split; [done|]. split; [|done].
    split; [|done]. cbn [ach moved]. rewrite !Z.eqb_refl. split; [|done].
    unfold transfer. cbn [io]. rewrite Z.eqb_refl, put_eq.
    rewrite put_ne by (unfold entry0, entry1; lia). done.
Qed.

Lemma r_code_follows t a w :
  counters_ok a -> mem_ok a w -> r_follows t a (access false t (code_r (ri a) (rp a)) w).
Proof.
  intros Ha Hm. pose proof Ha as (Hc&Hs&_). pose proof Hm as ([_ Hk]&_&_&_&Hd&_).
  destruct (rp a) as [|u|u|u|u|j| |u|u|u|u|c u|u|u|u|u|u|] eqn:E; rewrite <- ?E;
    try solve [eapply clear_mem; [done|done|eauto] | apply ack_mem; [done|done|by rewrite E]];
    unfold r_follows, r_step, sink_ok in *; rewrite E in *;
    try solve [split; [reflexivity|]; by apply r_goto_mem].
  - destruct (recv_flag (ri a) u) as (k&->&Hk'). cbn [access fst snd].
    rewrite Hk', (flag_test a) by done. case_bool_decide; (case_decide; [|done]) || case_decide;
      try done; (split; [done|]; by apply r_goto_mem).
  - destruct (ri a) as [|r] eqn:Er; [lia|]. split; [|apply r_goto_mem; [done|by destruct B]].
    cbn [r_goto ri rp code_r pred]. rewrite Er. unfold r_loop. rewrite retry_leave. cbn [fst snd].
    apply recv_exit. lia.
  - destruct Hs as (Hk1&_&Hj). destruct (read_point (ri a) j) as (k&->&Hk'); [lia|done|].
    cbn [access fst snd]. split; [|apply r_goto_mem; [done|by case_decide]].
    cbn [r_goto ri rp]. rewrite <- Hk'. f_equal.
    apply (Hd (pred (ri a)) (S j)); [lia|lia|lia| |lia]. unfold complete in Hc.
    destruct (sch a) as [v|]; [|done]. intros Hsi. destruct (Z.ltb_spec v L); [lia|unfold L in *; lia].
  - destruct (ack_status (ri a) u) as (k&->&Hk'). cbn [access fst snd].
    rewrite Hk', (ack_idle a) by done. split; [by destruct (ach a)|].
    apply r_goto_mem; [done|by destruct (ach a)].
  - split; [|by apply r_goto_mem].
    change (access false t (code_r (ri a) (ALoad u)) w).1
      with (code_r (ri a) (AStore (spm (w false) (word_addr k_recv)) u)). by rewrite Hk.
  - destruct (post_status (ri a) u) as (k&->&Hk'). cbn [access fst snd].
    rewrite Hk', (ack_idle a) by done. split; [by destruct (ach a)|].
    apply r_goto_mem; [done|by destruct (ach a)].
  - split; [|apply r_goto_mem; [done|unfold r_start; by case_decide]].
    cbn [code_r]. unfold b_loop. rewrite retry_leave. apply rest_start.
  - split; [by rewrite E|done].
Qed.

(** *** Steps of the network *)

(** The next word of a message arrives: data of the message, or its flag. *)
Lemma ring_move a m v :
  counters_ok a -> sch a = Some v -> v < L -> data_ok a m -> flags_ok a m ->
  let i := pred (si a) in
  let x := if v <? Z.of_nat B then word i (Z.to_nat v) else FLAG_VALID in
  let m' := put m (word_addr (ring i + v)) x in
  data_ok (net_s a) m' /\ flags_ok (net_s a) m'.
Proof.
  intros (Hc&_) Es Hv Hd [Hf Hf'] i x m'. unfold complete in Hc. rewrite Es in Hc.
  rewrite (proj2 (Z.ltb_lt v L)) in Hc by done. destruct Hc as (H1&H2&H3&H4&H5&H6&H7&H8).
  assert (si a = S i) as Ei by (unfold i; lia). unfold data_ok, flags_ok, complete in *.
  cbn [net_s si ri sch]. rewrite Es, Ei in *. rewrite (proj2 (Z.ltb_lt v L)) in Hf, Hf' by done.
  rewrite (proj2 (Z.ltb_lt v L)) by done. cbn [pred] in *.
  split.
  - intros k n Hk Hw Hn Hlast. destruct (decide (k = i)) as [->|Hne].
    + specialize (Hlast eq_refl). destruct (Z.le_gt_cases (Z.of_nat n) v).
      * apply holds_put; [apply Hd; auto|]. intros j Hj. lia.
      * assert (Z.of_nat n = v + 1) as En by lia. destruct n as [|n]; [lia|].
        unfold m', x. rewrite (proj2 (Z.ltb_lt v _)) by lia.
        replace v with (Z.of_nat n) by lia. rewrite Nat2Z.id. apply holds_snoc, Hd; auto; lia.
    + apply holds_put; [apply Hd; [lia|lia|done|lia]|]. intros j Hj Ek.
      apply ring_inj in Ek as [Ek _]; [|unfold L in *; lia..]. revert Ek. apply mod_ne; lia.
  - destruct (Z.ltb_spec (v + 1) L) as [Hlt|Hge].
    + assert (forall k, m' (flag_addr k) = m (flag_addr k)) as Em.
      { intros k. unfold m'. rewrite flag_ring, put_word, (proj2 (Z.eqb_neq _ _)); [done|].
        intros Ek. apply ring_inj in Ek; unfold L in *; lia. }
      split; intros k Hk; rewrite Em; [by apply Hf|by apply Hf'].
    + assert (v = Z.of_nat B) as Ev by (unfold L in *; lia).
      assert (x = FLAG_VALID) as Ex by (unfold x; by rewrite Ev, Z.ltb_irrefl).
      split; intros k Hk; unfold m'; rewrite flag_ring, put_word, Ev, Ex.
      * destruct (Z.eqb_spec (ring k + Z.of_nat B) (ring i + Z.of_nat B)) as [|Hne]; [done|].
        apply Hf. destruct (decide (k = i)) as [->|]; [done|]. lia.
      * rewrite (proj2 (Z.eqb_neq _ _)).
        -- apply Hf'. intros k' Hk'. apply Hk. lia.
        -- intros Ek. apply ring_inj in Ek as [Ek _]; [|unfold L; lia..].
           apply (Hk i); [lia|done].
Qed.

Lemma net_s_mem a w : counters_ok a -> mem_ok a w -> mem_ok (net_s a) (network true w).
Proof.
  intros Ha (Hn&Hcur&[Ho Hp]&Hack&Hd&Hf).
  destruct (sch a) as [v|] eqn:Es.
  - destruct Ho as (Hw&Hfl&Ht&Hm).
    pose proof Ha as (Hc&_). rewrite Es in Hc. destruct Hc as (_&_&_&_&_&_&Hv&_).
    destruct (Z.lt_ge_cases v L) as [Hlt|Hge].
    + destruct (network_move true _ _ _ w Ht) as ((E1&E2&E3)&E4&E5&E6); [by rewrite Hm|].
      cbn [negb] in *. rewrite Hm in *.
      replace (spm (w true) (NOC_SPM_BASE + 4 * (wbuf (pred (si a)) + v)))
        with (if v <? Z.of_nat B then word (pred (si a)) (Z.to_nat v) else FLAG_VALID) in E4.
      2:{ fold (word_addr (wbuf (pred (si a)) + v)). destruct (Z.ltb_spec v (Z.of_nat B)).
          - unfold word. rewrite <- (Hw (Z.to_nat v)), Z2Nat.id by lia. done.
          - replace v with (Z.of_nat B) by (unfold L in *; lia). done. }
      destruct (ring_move a (spm (w false)) v Ha Es Hlt Hd Hf) as [Hd' Hf'].
      fold (word_addr (ring (pred (si a)) + v)) in E4. rewrite <- E4 in Hd', Hf'.
      unfold mem_ok. split; [split|].
      { rewrite E1. apply Hn. }
      { rewrite E4, put_word, (proj2 (Z.eqb_neq _ _)); [apply Hn|].
        intros Ek. symmetry in Ek. revert Ek. apply ring_recv. lia. }
      split; [by rewrite E1|]. split; [|split; [|done]].
      * split; [|by rewrite E2]. cbn [net_s sch]. rewrite Es, (proj2 (Z.ltb_lt _ _)) by done.
        unfold transfer in *. by rewrite E1, E2, E3.
      * unfold ack_ok, transfer in *. by rewrite E5, E6.
    + assert (v = L) as -> by lia.
      destruct (network_end true _ _ _ w Ht Hm) as ((E1&E2&E3)&E4). cbn [negb] in *.
      unfold mem_ok. rewrite E1, E4. split; [done|]. split; [done|].
      split; [|split; [done|split]].
      * split; [|by rewrite E3]. cbn [net_s sch]. by rewrite Es, Z.ltb_irrefl.
      * intros k n H1 H2 H3 _. apply Hd; [done|done|done|]. rewrite Es. unfold L. lia.
      * unfold flags_ok, complete in *. cbn [net_s sch si ri]. rewrite Es, Z.ltb_irrefl in *. done.
  - rewrite network_idle by done. unfold mem_ok. repeat (split; [done|]).
    unfold cur_ok, out_ok, ack_ok, data_ok, flags_ok, complete in *. cbn [net_s sch si sp ri rp ach].
    rewrite Es in *. repeat (split; [done|]). done.
Qed.

Lemma net_r_mem a w : counters_ok a -> mem_ok a w -> mem_ok (net_r a) (network false w).
Proof.
  intros Ha (Hn&Hcur&Ho&[Hack Hp]&Hd&Hf). unfold net_r.
  destruct (ach a) eqn:Ea.
  - rewrite network_idle by done. unfold mem_ok, ack_ok. rewrite Ea. repeat (split; [done|]). done.
  - destruct Hack as [Ht Hm].
    destruct (network_move false _ _ _ w Ht) as ((E1&E2&E3)&E4&E5&E6); [by rewrite Hm|].
    cbn [negb] in *. rewrite Hm, !Z.add_0_r in *. fold (word_addr k_count) (word_addr k_recv) in E4.
    rewrite (proj2 Hn) in E4. unfold mem_ok. rewrite E1, E4.
    split; [split; [by rewrite put_eq|apply Hn]|].
    assert (forall i n, (n <= B)%nat -> forall k, holds (spm (w true)) (wbuf i) k n ->
              holds (put (spm (w true)) (word_addr k_count) (u32 (Z.of_nat (kk a)))) (wbuf i) k n) as Hh.
    { intros i n Hle k Hk. apply holds_put; [done|]. intros j Hj. apply wbuf_count. unfold L. lia. }
    assert (forall i, put (spm (w true)) (word_addr k_count) (u32 (Z.of_nat (kk a)))
                        (word_addr (wbuf i + Z.of_nat B)) = spm (w true) (word_addr (wbuf i + Z.of_nat B))) as Hg.
    { intros i. rewrite put_word, (proj2 (Z.eqb_neq _ _)); [done|]. apply wbuf_count. unfold L. lia. }
    split; [|split; [|split; [|done]]].
    + destruct Ha as (_&_&Hs). unfold cur_ok, source_ok in *. cbn [sp si] in *.
      destruct (sp a); rewrite ?Hg; try apply Hh; try done; try lia;
        (split; [apply Hh; [done|apply Hcur]|apply Hcur]).
    + unfold out_ok, transfer in *. cbn [sch sp si] in *. rewrite E5, E6, E4.
      destruct Ho as [Ho Ho']. split; [|done]. destruct (sch a); [|done].
      rewrite Hg. split; [apply Hh; [done|apply Ho]|apply Ho].
    + split; [|by rewrite E2]. cbn [ach]. unfold transfer in *. by rewrite E2, E3.
  - destruct Hack as [Ht Hm].
    destruct (network_end false _ _ _ w Ht Hm) as ((E1&E2&E3)&E4). cbn [negb] in *.
    unfold mem_ok. rewrite E1, E4. repeat (split; [done|]). split; [|done].
    split; [done|]. cbn [rp]. by rewrite E3.
Qed.

End Memory.

(** ** Delivery *)

Section Delivery.
Context `{Channel}.

Definition q_sim (x : config (list (list Z))) (a : qst) : Prop :=
  code x true = code_s (si a) (sp a) /\ code x false = code_r (ri a) (rp a) /\
  mem_ok a (mem x) /\ counters_ok a.

Lemma q_sim_step x a c : q_sim x a -> q_sim (do_choice c x) (q_step a c).
Proof.
  intros (Hs&Hr&Hm&Ha). pose proof (q_counters a c Ha) as Ha'.
  destruct c as [[] t|[]]; cbn [do_choice q_step] in *.
  - pose proof (s_code_follows t a (mem x) Ha Hm) as Hf. rewrite <- Hs in Hf.
    destruct (access true t (code x true) (mem x)) as [p w]. destruct Hf as [Hp Hw].
    split; [done|]. split; [|done]. cbn [code Bool.eqb]. rewrite Hr.
    unfold s_step. by destruct (sp a).
  - pose proof (r_code_follows t a (mem x) Ha Hm) as Hf. rewrite <- Hr in Hf.
    destruct (access false t (code x false) (mem x)) as [p w]. destruct Hf as [Hp Hw].
    split; [|split; done]. cbn [code Bool.eqb]. rewrite Hs. unfold r_step. by destruct (rp a).
  - split; [done|]. split; [done|]. split; [by apply net_s_mem|done].
  - split; [|split; [|split; [by apply net_r_mem|done]]]; cbn [code];
      [rewrite Hs|rewrite Hr]; unfold net_r; by destruct (ach a).
Qed.

Lemma q_sim_run cs x a : q_sim x a -> q_sim (run_choices cs x) (foldl q_step a cs).
Proof.
  revert x a. induction cs as [|c cs IH]; intros x a Ha; [done|]. apply IH. by apply q_sim_step.
Qed.

(** Both ports have been created: the counters and the flags are clear, no transfer is
    active, and the two users start. *)
Definition channel_start (x : config (list (list Z))) : Prop :=
  (spm (mem x true) (word_addr k_count) = 0 /\ spm (mem x false) (word_addr k_recv) = 0) /\
  (forall i, spm (mem x false) (flag_addr i) = FLAG_INVALID) /\
  (forall s, idle (io (mem x s) DMA_BANK (entry1 s)) = true) /\
  code x true = source (sq 0) msgs /\
  code x false = sink (length msgs) B (rq 0) [].

Definition q_init : qst := Q 0 (s_start 0) 0 (r_start 0) None AckIdle 0 0.

Lemma start_q_sim x : channel_start x -> q_sim x q_init.
Proof.
  intros ((Hc&Hk)&Hf&Hi&Hs&Hr). pose proof ch_N. unfold q_init. split; [|split; [|split]].
  - rewrite Hs. apply (source_start 0).
  - rewrite Hr. cbn [ri rp]. rewrite <- rest_start. unfold rest. by rewrite Nat.sub_0_r.
  - unfold mem_ok. cbn [si sp ri rp sch ach kk cc].
    split; [by rewrite Hc, Hk|]. split; [|split; [|split; [|split]]].
    + unfold cur_ok, s_start. cbn. case_decide; [|done]. destruct B; cbn; intros j Hj; lia.
    + split; [apply Hi|]. cbn. unfold s_start. case_decide; [by destruct B|done].
    + split; [apply Hi|]. cbn. unfold r_start. by case_decide.
    + intros i n Hlt. cbn in Hlt. lia.
    + split; [cbn; lia|]. intros i _. apply Hf.
  - unfold counters_ok, sink_ok, source_ok, complete, settling, s_start, r_start. cbn.
    split; [lia|]. case_decide as Hlt; [|lia]. split; [done|]. destruct B; cbn; lia.
Qed.

(** *** Progress *)

Definition s_rank (p : spc) : nat :=
  match p with
  | SExit _ => B + 20 | SFill j => (B - j) + 12 | STime => 8
  | SLoop _ => 7 | SFlag _ => 6 | SCount _ => 5 | SStat _ => 4 | SS0 _ => 3 | SS1 _ => 2
  | SDone => 0
  end.

Definition r_rank (p : rpc) : nat :=
  match p with
  | RExit _ => B + 30 | RRead j => (B - j) + 20
  | ATime => 19 | ALoop _ => 18 | AStat _ => 17 | AExit _ => 16 | ALoad _ => 15 | AStore _ _ => 14
  | BLoop _ => 13 | BStat _ => 12 | BS0 _ => 11 | BS1 _ => 10 | BExit _ => 5
  | RTime => 4 | RLoop _ => 3 | RFlag _ => 2 | RClear _ => 1 | RDone => 0
  end.

(** The work that is left. *)
Definition work (a : qst) : nat :=
  (length msgs - si a) * (3 * (B + 20)) + s_rank (sp a) +
  match sch a with None => 0 | Some m => Z.to_nat (L - m) + 1 end +
  (length msgs - ri a) * (B + 40) + r_rank (rp a) +
  match ach a with AckIdle => 0 | AckMoved => 1 | AckPosted => 2 end.

Definition finished (a : qst) : Prop := sp a = SDone /\ rp a = RDone.

(** The sink has nothing to do: it waits for a message, or is done. *)
Definition sink_waits (a : qst) : bool :=
  match rp a with
  | RLoop _ | RFlag _ => negb (bool_decide (ri a < complete a)%nat)
  | RDone => true
  | _ => false
  end.

(** The choice that makes progress. *)
Definition next (a : qst) : choice :=
  match sch a, ach a with
  | Some _, _ => Net true
  | None, AckPosted | None, AckMoved => Net false
  | None, AckIdle => if sink_waits a then Run true 0 else Run false 0
  end.

(** Linear arithmetic with the products as unknowns. *)
Ltac rank_lia :=
  repeat match goal with |- context [((?x - ?y) * ?z)%nat] => generalize ((x - y) * z)%nat; intros ? end; lia.

Lemma source_progress a :
  counters_ok a -> ~ finished a -> sch a = None -> ach a = AckIdle -> sink_waits a = true ->
  (work (s_step 0 a) < work a)%nat.
Proof.
  intros (Hc&Hr&Hs) Hf Es Ea Hw. unfold finished, sink_waits in *.
  assert (si a = cc a /\ (sp a <> SDone \/ rp a <> RDone)) as [Ei Hn].
  { unfold sink_ok, settling, complete in *. rewrite Es, Ea in *.
    destruct (rp a); try done; try (apply negb_true_iff, bool_decide_eq_false in Hw);
      (split; [lia|]); destruct (sp a); intuition congruence. }
  assert (sp a <> SDone) as Hsd.
  { intros E. unfold sink_ok, source_ok, complete in *. rewrite E, Es, Ea in *.
    destruct (rp a); try done; try (apply negb_true_iff, bool_decide_eq_false in Hw); try lia.
    by destruct Hn. }
  pose proof ch_N. unfold work, s_step, source_ok in *.
  destruct (sp a) as [j| |u|u|u|u|u|u|u|] eqn:Ep; cbn [s_goto si sp ri rp sch ach s_rank];
    rewrite ?Es, ?Ea, ?Ep; cbn [s_rank]; try rank_lia.
  - destruct (decide (S j < B)%nat); cbn [s_rank]; rank_lia.
  - rewrite (proj2 (Z.eqb_neq _ _)) by lia. cbn [s_rank]. rank_lia.
  - pose proof L_pos. unfold L. rewrite Z.sub_0_r.
    replace (length msgs - si a)%nat with (S (length msgs - S (si a))) by lia.
    rewrite (Nat.mul_succ_l (length msgs - S (si a))). rank_lia.
  - unfold s_start. destruct (decide (si a < length msgs)%nat); [destruct B eqn:EB; cbn [s_rank]; rank_lia|cbn [s_rank]; rank_lia].
  - done.
Qed.

Lemma sink_progress a :
  counters_ok a -> ach a = AckIdle -> sink_waits a = false ->
  (work (r_step 0 a) < work a)%nat.
Proof.
  intros (Hc&Hr&Hs) Ea Hw. unfold sink_waits, sink_ok, work, r_step in *.
  destruct (rp a) as [|u|u|u|u|j| |u|u|u|u|c u|u|u|u|u|u|] eqn:Ep;
    cbn [r_goto si sp ri rp sch ach r_rank]; rewrite ?Ea, ?Ep; cbn [r_rank]; try rank_lia.
  - apply negb_false_iff, bool_decide_eq_true in Hw. destruct (decide (ri a < complete a)%nat); [|done]. cbn [r_rank]. rank_lia.
  - assert (ri a < length msgs)%nat by lia.
    replace (length msgs - ri a)%nat with (S (length msgs - S (ri a))) by lia.
    rewrite (Nat.mul_succ_l (length msgs - S (ri a))). rank_lia.
  - destruct B eqn:EB; cbn [r_rank]; rank_lia.
  - destruct (decide (S j < B)%nat); cbn [r_rank]; rank_lia.
  - unfold r_start. destruct (decide (ri a < length msgs)%nat); cbn [r_rank]; rank_lia.
Qed.

Lemma next_progress a :
  counters_ok a -> ~ finished a -> (work (q_step a (next a)) < work a)%nat.
Proof.
  intros Ha Hf. unfold next. destruct (sch a) as [m|] eqn:Es.
  - unfold work. cbn [q_step net_s si sp ri rp sch ach]. rewrite Es.
    destruct Ha as (Hc&_). rewrite Es in Hc. destruct (Z.ltb_spec m L); rank_lia.
  - destruct (ach a) eqn:Ea.
    + destruct (sink_waits a) eqn:Ew; cbn [q_step]; [by apply source_progress|by apply sink_progress].
    + cbn [q_step]. unfold work, net_r. rewrite Ea. cbn [si sp ri rp sch ach]. rank_lia.
    + cbn [q_step]. unfold work, net_r. rewrite Ea. cbn [si sp ri rp sch ach]. rank_lia.
Qed.

Lemma can_finish a : counters_ok a -> exists cs, finished (foldl q_step a cs).
Proof.
  remember (work a) as n eqn:En. revert a En.
  induction (lt_wf n) as [n _ IH]. intros a -> Ha.
  assert (finished a \/ ~ finished a) as [Hf|Hf].
  { unfold finished. destruct (sp a), (rp a); (left; split; done) || (right; intuition congruence). }
  - by exists [].
  - destruct (IH (work (q_step a (next a)))) with (a := q_step a (next a)) as [cs Hcs];
      [by apply next_progress|done|by apply q_counters|]. by exists (next a :: cs).
Qed.

Lemma delivers x0 cs :
  channel_start x0 ->
  (exists cs', let x := run_choices (cs ++ cs') x0 in
     code x true = Ret [] /\ code x false = Ret msgs) /\
  (forall r, code (run_choices cs x0) false = Ret r -> r = msgs).
Proof.
  intros Hst. pose proof (q_sim_run cs x0 q_init (start_q_sim x0 Hst)) as Hq.
  set (a := foldl q_step q_init cs) in *. split.
  - destruct (can_finish a) as [cs' [Hs Hr]]; [apply Hq|]. exists cs'.
    unfold run_choices in *. rewrite foldl_app. cbv zeta.
    destruct (q_sim_run cs' _ a Hq) as (Es&Er&_&Hc). unfold run_choices in *.
    rewrite Es, Er, Hs, Hr. split; [done|]. cbn [code_r]. f_equal.
    destruct Hc as (_&Hk&_). unfold sink_ok in Hk. rewrite Hr in Hk.
    destruct Hk as (_&_&->). by rewrite take_ge.
  - intros r Er. destruct Hq as (_&E&_&Hc). rewrite Er in E.
    destruct (rp a) as [|u|u|u|u|j| |u|u|u|u|c u|u|u|u|u|u|] eqn:Ep; try discriminate E.
    + destruct Hc as (Hn&Hk&_). unfold sink_ok in Hk. rewrite Ep in Hk.
      destruct (read_point (ri a) j) as (k&Ek&_); [lia|lia|]. rewrite Ek in E. discriminate E.
    + injection E as ->. destruct Hc as (_&Hk&_). unfold sink_ok in Hk. rewrite Ep in Hk.
      destruct Hk as (_&_&->). by rewrite take_ge.
Qed.

(** Claim C8. A queuing port delivers all messages, unchanged and in order: wherever the
    execution of source and sink has got to, in whatever interleaving with each other and
    the network, it can be continued until both are finished (there is no deadlock), and
    whenever the sink has finished it has received exactly the messages of the source. *)
Theorem queue_delivers x0 cs :
  channel_start x0 ->
  (exists cs', let x := run_choices (cs ++ cs') x0 in
     code x true = Ret [] /\ code x false = Ret msgs) /\
  (forall r, code (run_choices cs x0) false = Ret r -> r = msgs).
Proof. apply delivers. Qed.

End Delivery.

(** ** An example *)

#[local] Instance queue_platform : Platform := {|
  NOC_SPM_BASE := 0xE8000000;
  core_id := fun s => if s then 1 else 0
|}.

#[local, refine] Instance demo_channel : Channel := {|
  ks := 10; kr := 20; B := 2; N := 2;
  msgs := [[1; 2]; [3; 4]; [5; 6]];
  s_unused := (0, 0, 0); r_unused := (0, 0, 0, 0)
|}.
Proof. all: cbn; try lia. repeat constructor. Defined.

Definition demo_queue : config (list (list Z)) :=
  Config (fun s : bool => if s then source (sq 0) msgs else sink (length msgs) B (rq 0) [])
    (fun _ => NI (fun _ => 0) (fun _ _ => 0) 0).

Lemma queue_delivers_witness :
  exists cs, code (run_choices cs demo_queue) true = Ret [] /\
    code (run_choices cs demo_queue) false = Ret [[1; 2]; [3; 4]; [5; 6]].
Proof.
  destruct (queue_delivers demo_queue []) as [[cs Hcs] _]; [|exists cs; exact Hcs].
  split; [split; reflexivity|]. split; [intros i; reflexivity|].
  split; [intros []; reflexivity|split; reflexivity].
Defined.
