(* ===== verification/Ports.v ===== *)
(** * Setting up the network and the ports

    What runs before messages are exchanged: finding the size of the scratchpads by their
    wrap-around ([find_mem_size] of libnoc/noc.c, [test_spm_size] of libmp/utils.c), loading
    the TDM schedules into the network interface ([k_noc_sched_load]), the allocator of the
    scratchpads ([mp_alloc]), and the creation of queuing ports ([mp_create_qport],
    [mp_init_ports]). The last theorem composes it with [Queuing]: ports that have been
    created deliver. *)

From stdpp Require Import base list numbers.
From Stdlib Require Import ZArith Lia.
From S2P Require Import Prelude Noc Lock Queuing.

Local Open Scope Z_scope.
Local Open Scope c_scope.

(** ** The size of a memory *)

(** A memory of [size] words behind an interface that ignores the higher address bits. *)
Section MemSize.
Context (size : Z).

Definition wr (m : Z -> Z) (i v : Z) : Z -> Z := put m (i mod size) v.
Definition rd (m : Z -> Z) (i : Z) : Z := m (i mod size).

Definition magic := 0xFFEEDDCC.

(** The loop: double the distance [i] until a write at distance [i] shows at distance 0. The
    two routines differ in the value they return when the memory fails ([-1] and [-2]). *)
Fixpoint probe (fail : Z) (n : nat) (init i : Z) (m : Z -> Z) : Z * (Z -> Z) :=
  match n with
  | O => (-1, wr m 0 init)
  | S n =>
      let tmp := rd m i in
      let m := wr m i 0 in
      if rd m 0 =? 0 then
        let m := wr m i tmp in
        (i << 2, wr m 0 init)
      else
        let i := i << 1 in
        if negb (rd m 0 =? magic) then
          let m := wr m i tmp in
          (fail, wr m 0 init)
        else probe fail n init i (wr m i tmp)
  end.

Definition find_mem_size (m : Z -> Z) : Z * (Z -> Z) :=
  let init := rd m 0 in probe (-1) 28 init 2 (wr m 0 magic).

Definition test_spm_size (m : Z -> Z) : Z * (Z -> Z) :=
  let init := rd m 0 in probe (-2) 28 init 2 (wr m 0 magic).

End MemSize.

(** What the probing leaves of a memory: the first word is restored, the words at the powers
    of two are not. *)
Definition probed (k : nat) (m : Z -> Z) (a : Z) : Z :=
  if existsb (fun j => a =? 2 ^ Z.of_nat j) (seq 1 (k - 1)) then 0 else m a.

Section ProbeProof.
Context (k : nat).
Let size := 2 ^ Z.of_nat k.

Lemma pow_small j : (j < k)%nat -> 2 ^ Z.of_nat j mod size = 2 ^ Z.of_nat j.
Proof.
  intros. apply Z.mod_small. split; [apply Z.pow_nonneg; lia|]. apply Z.pow_lt_mono_r; lia.
Qed.

Lemma size_pos : 0 < size.
Proof. apply Z.pow_pos_nonneg; lia. Qed.

(** From distance [2 ^ j] on: [j < k], or the distance is the size and the next write shows. *)
Lemma probe_loop fail init d : forall j m n,
  (d + j = k)%nat -> (d < n)%nat -> (d <> 0%nat -> m 0 = magic) ->
  fst (probe size fail n init (2 ^ Z.of_nat j) m) = 4 * size /\
  forall a, 0 <= a < size ->
    snd (probe size fail n init (2 ^ Z.of_nat j) m) a =
    if a =? 0 then init
    else if existsb (fun i => a =? 2 ^ Z.of_nat i) (seq j d) then 0 else m a.
Proof.
  pose proof size_pos as Hpos.
  induction d as [|d IH]; intros j m [|n] Hj Hn Hm; try lia; cbn [probe].
  - replace j with k by lia. fold size. unfold rd, wr.
    rewrite Z_mod_same_full, Zmod_0_l, put_eq. rewrite Z.eqb_refl. cbn [fst snd].
    split; [rewrite shl_mul; lia|]. intros a Ha. cbn. unfold put.
    by destruct (Z.eqb_spec a 0).
  - assert (2 ^ Z.of_nat j <> 0) as Hp by (pose proof (Z.pow_pos_nonneg 2 (Z.of_nat j)); lia).
    unfold rd, wr. rewrite Zmod_0_l, (pow_small j), put_ne, Hm by lia.
    change (magic =? 0) with false. rewrite Z.eqb_refl. cbn [negb]. cbv iota zeta.
    replace (2 ^ Z.of_nat j << 1) with (2 ^ Z.of_nat (S j))
      by (rewrite shl_mul, Nat2Z.inj_succ, Z.pow_succ_r by lia; lia).
    set (m' := put (put m (2 ^ Z.of_nat j) 0) (2 ^ Z.of_nat (S j) mod size) (m (2 ^ Z.of_nat j))).
    destruct (IH (S j) m' n) as [E1 E2]; [lia|lia| |].
    { intros Hd. unfold m'. rewrite pow_small, !put_ne; [by apply Hm|lia| |lia].
      pose proof (Z.pow_pos_nonneg 2 (Z.of_nat (S j))); lia. }
    split; [done|]. intros a Ha. rewrite E2 by done. cbn [seq existsb].
    destruct (Z.eqb_spec a 0) as [|Ha0]; [done|].
    destruct (existsb _ (seq (S j) d)) eqn:Ex; [by rewrite orb_true_r|]. rewrite orb_false_r.
    unfold m'. rewrite put_ne.
    + unfold put. by destruct (a =? 2 ^ Z.of_nat j).
    + destruct (decide (d = 0%nat)) as [->|Hd].
      * replace (S j) with k by lia. fold size. by rewrite Z_mod_same_full.
      * rewrite pow_small by lia. intros ->.
        assert (existsb (fun i => 2 ^ Z.of_nat (S j) =? 2 ^ Z.of_nat i) (seq (S j) d) = true); [|congruence].
        apply existsb_exists. exists (S j). split; [apply in_seq; lia|apply Z.eqb_refl].
Qed.

Lemma probe_spec fail m n :
  (1 <= k)%nat -> (k <= n)%nat ->
  let '(r, m') := probe size fail n (rd size m 0) 2 (wr size m 0 magic) in
  r = 4 * size /\ forall a, 0 <= a < size -> m' a = probed k m a.
Proof.
  intros Hk Hn. change 2 with (2 ^ Z.of_nat 1). pose proof size_pos as Hpos.
  destruct (probe_loop fail (rd size m 0) (k - 1) 1 (wr size m 0 magic) n) as [E1 E2]; [lia|lia| |].
  { intros _. unfold wr. by rewrite Zmod_0_l, put_eq. }
  destruct (probe _ _ _ _ _ _) as [r m']. split; [done|]. intros a Ha.
  cbn [snd] in E2. rewrite E2 by done. unfold rd, wr, probed. rewrite Zmod_0_l.
  destruct (Z.eqb_spec a 0) as [->|Hne]; [|by rewrite put_ne].
  destruct (existsb _ _) eqn:Ex; [|done]. apply existsb_exists in Ex as (i&_&Hi).
  apply Z.eqb_eq in Hi. pose proof (Z.pow_pos_nonneg 2 (Z.of_nat i)). lia.
Qed.

End ProbeProof.

Lemma find_size k m :
  (1 <= k <= 28)%nat -> let size := 2 ^ Z.of_nat k in
  fst (find_mem_size size m) = 4 * size /\
  forall a, 0 <= a < size -> snd (find_mem_size size m) a = probed k m a.
Proof.
  intros Hk. cbv zeta. pose proof (probe_spec k (-1) m 28) as H1. unfold find_mem_size. cbv zeta.
  destruct (probe _ (-1) _ _ _ _) as [r1 m1]. apply H1; lia.
Qed.

Lemma test_size k m :
  (1 <= k <= 28)%nat -> let size := 2 ^ Z.of_nat k in
  fst (test_spm_size size m) = 4 * size /\
  forall a, 0 <= a < size -> snd (test_spm_size size m) a = probed k m a.
Proof.
  intros Hk. cbv zeta. pose proof (probe_spec k (-2) m 28) as H1. unfold test_spm_size. cbv zeta.
  destruct (probe _ (-2) _ _ _ _) as [r1 m1]. apply H1; lia.
Qed.

(** The size of a memory of [2 ^ k] words is found, by both routines, for every [k]
    from 1 to 28; the contents are not restored: the words at the powers of two are
    overwritten with 0, because the distance is doubled before the word is written back. *)
Theorem mem_size_found k m :
  (1 <= k <= 28)%nat ->
  let size := 2 ^ Z.of_nat k in
  (fst (find_mem_size size m) = 4 * size /\
   forall a, 0 <= a < size -> snd (find_mem_size size m) a = probed k m a) /\
  (fst (test_spm_size size m) = 4 * size /\
   forall a, 0 <= a < size -> snd (test_spm_size size m) a = probed k m a).
Proof.
  intros Hk. split; [by apply find_size|by apply test_size].
Qed.

Lemma mem_size_found_witness :
  fst (find_mem_size 16 (fun a => a + 1)) = 64 /\
  snd (find_mem_size 16 (fun a => a + 1)) 4 = 0 /\ snd (find_mem_size 16 (fun a => a + 1)) 5 = 6.
Proof.
  assert (1 <= 4 <= 28)%nat as Hk by lia.
  destruct (mem_size_found 4 (fun a => a + 1) Hk) as [[H1 H2] _].
  split; [exact H1|]. split; [apply (H2 4)|apply (H2 5)]; cbn; lia.
Defined.

(** ** Loading the schedules *)

(** The generated configuration of the network (noc_init.c) is a parameter. *)
Record noc_schedules := NocSchedules {
  NOC_CORES : Z;
  NOC_CONFS : nat;
  NOC_TABLES : Z;
  NOC_SCHEDULE_ENTRIES : Z;
  noc_init_array : list Z
}.

Section SchedLoad.
Context (c : noc_schedules) (get_cpuid size : Z).

Definition schedule_idx (j : Z) : Z :=
  u32 (u32 (j * NOC_CORES c * NOC_TABLES c * NOC_SCHEDULE_ENTRIES c) +
       u32 (get_cpuid * NOC_TABLES c * NOC_SCHEDULE_ENTRIES c)).

Definition schedule_entries (j : Z) : Z := u16 (arr (noc_init_array c) (schedule_idx j)).

(** The loop over the configurations, [n] of them left; [sched] is the schedule table of
    [size] words and [mc] the mode change table. *)
Fixpoint load_confs (table_size : Z) (n : nat) (j base : Z) (sched mc : Z -> Z)
    : Z * (Z -> Z) * (Z -> Z) :=
  match n with
  | O => (1, sched, mc)
  | S n =>
      let entries := schedule_entries j in
      if u32 (base + entries) >=? table_size then (0, sched, mc)
      else
        let sched := for_ entries (fun i m =>
            wr size m (base + i) (arr (noc_init_array c) (u32 (schedule_idx j + i + 1)))) sched in
        let mc := put mc (2 + j) (u32 (((entries + base) << 16) .| base)) in
        load_confs table_size n (j + 1) (u32 (base + entries)) sched mc
  end.

Definition k_noc_sched_load (sched mc : Z -> Z) : Z * (Z -> Z) * (Z -> Z) :=
  let '(schedule_table_size, sched) := find_mem_size size sched in
  load_confs (u32 schedule_table_size) (NOC_CONFS c) 0 0 sched mc.

(** The words in front of configuration [j]. *)
Fixpoint conf_base (n : nat) : Z :=
  match n with O => 0 | S n => conf_base n + schedule_entries (Z.of_nat n) end.

Lemma conf_base_mono n m : (n <= m)%nat -> 0 <= conf_base n <= conf_base m.
Proof.
  induction 1 as [|m _ IH]; cbn.
  - split; [|lia]. induction n; cbn; [lia|]. pose proof (u16_range (arr (noc_init_array c) (schedule_idx (Z.of_nat n)))).
    unfold schedule_entries. lia.
  - pose proof (u16_range (arr (noc_init_array c) (schedule_idx (Z.of_nat m)))).
    unfold schedule_entries. lia.
Qed.

Lemma load_entries e base f m :
  0 <= e -> 0 <= base -> base + e <= size ->
  forall a, 0 <= a < size ->
    for_ e (fun i m => wr size m (base + i) (f i)) m a =
    if (base <=? a) && (a <? base + e) then f (a - base) else m a.
Proof.
  intros He Hb Hs a Ha.
  apply (for_ind (fun n m' => m' a = if (base <=? a) && (a <? base + n) then f (a - base) else m a));
    [done| |].
  - destruct (Z.leb_spec base a), (Z.ltb_spec a (base + 0)); cbn; try done; lia.
  - intros i m' Hi Hm'. unfold wr. rewrite Z.mod_small by lia. unfold put.
    destruct (Z.eqb_spec a (base + i)) as [->|Hne].
    + rewrite (proj2 (Z.leb_le _ _)), (proj2 (Z.ltb_lt _ _)) by lia. cbn. f_equal. lia.
    + rewrite Hm'. destruct (Z.leb_spec base a), (Z.ltb_spec a (base + i)),
        (Z.ltb_spec a (base + (i + 1))); cbn; try done; lia.
Qed.

(** The tables hold the schedules of the first [n] configurations. *)
Definition loaded (n : nat) (sched mc : Z -> Z) : Prop :=
  (forall j i, (j < n)%nat -> 0 <= i < schedule_entries (Z.of_nat j) ->
     sched (conf_base j + i) = arr (noc_init_array c) (u32 (schedule_idx (Z.of_nat j) + i + 1))) /\
  (forall j, (j < n)%nat ->
     mc (2 + Z.of_nat j) = u32 ((conf_base (S j) << 16) .| conf_base j)).

Lemma load_confs_spec T n : forall j sched mc,
  0 <= T < 0x100000000 -> conf_base (j + n) < 0x100000000 -> conf_base j < T \/ j = O ->
  let '(r, sched', mc') := load_confs T n (Z.of_nat j) (conf_base j) sched mc in
  (r = 1 <-> n = O \/ conf_base (j + n) < T) /\ (r = 0 \/ r = 1) /\
  (r = 1 -> conf_base (j + n) <= size -> loaded j sched mc -> loaded (j + n) sched' mc').
Proof.
  induction n as [|n IH]; intros j sched mc HT Hb Hj; cbn [load_confs].
  - split; [tauto|]. split; [auto|]. rewrite Nat.add_0_r. auto.
  - set (e := schedule_entries (Z.of_nat j)).
    assert (conf_base j + e = conf_base (S j)) as Ee by done.
    assert (0 <= e) as He by (apply u16_range).
    pose proof (conf_base_mono j (S j) ltac:(lia)).
    pose proof (conf_base_mono (S j) (j + S n) ltac:(lia)).
    rewrite Ee, u32_small by lia. rewrite Z.geb_leb.
    destruct (Z.leb_spec T (conf_base (S j))).
    + split; [|split; [auto|done]]. split; [done|]. intros [|]; [done|]. lia.
    + set (sched1 := for_ e _ sched). set (mc1 := put mc _ _).
      specialize (IH (S j) sched1 mc1 HT). rewrite Nat.add_succ_r in *.
      cbn [Nat.add] in IH. replace (Z.of_nat (S j)) with (Z.of_nat j + 1) in IH by lia.
      specialize (IH Hb (or_introl H1)).
      destruct (load_confs T n (Z.of_nat j + 1) (conf_base (S j)) sched1 mc1) as [[r s'] m'].
      destruct IH as (I1&I2&I3). split; [|split; [done|]].
      * rewrite I1. split; [|intros [|]; [done|auto]]. intros [->|]; [right; by rewrite Nat.add_0_r|auto].
      * intros Hr Hs [L1 L2]. apply I3; [done|done|]. split.
        -- intros j' i Hj' Hi. pose proof (conf_base_mono (S j') j) as Hm.
           unfold sched1. rewrite load_entries.
           ++ destruct (decide (j' = j)) as [->|Hne].
              ** rewrite (proj2 (Z.leb_le _ _)), (proj2 (Z.ltb_lt _ _)) by (unfold e; lia).
                 cbn [andb]. f_equal. f_equal. lia.
              ** specialize (Hm ltac:(lia)). cbn [conf_base] in Hm.
                 rewrite (proj2 (Z.leb_gt _ _)) by lia. cbn [andb]. apply L1; lia.
           ++ done.
           ++ lia.
           ++ lia.
           ++ pose proof (conf_base_mono j' (S j') ltac:(lia)).
              pose proof (conf_base_mono (S j') (S (j + n)) ltac:(lia)).
              cbn [conf_base] in *. lia.
        -- intros j' Hj'. unfold mc1, put. destruct (Z.eqb_spec (2 + Z.of_nat j') (2 + Z.of_nat j)).
           ++ replace j' with j by lia. rewrite (Z.add_comm e), Ee. done.
           ++ apply L2. lia.
Qed.

End SchedLoad.

Lemma sched_table_bytes k : (1 <= k <= 28)%nat -> u32 (4 * 2 ^ Z.of_nat k) = 4 * 2 ^ Z.of_nat k.
Proof.
  intros Hk. apply u32_small. pose proof (Z.pow_pos_nonneg 2 (Z.of_nat k)).
  pose proof (Z.pow_le_mono_r 2 (Z.of_nat k) 28). lia.
Qed.

(** Loading the schedules of the network: with a schedule table of [2 ^ k] words,
    [k_noc_sched_load] succeeds exactly when the schedules of all configurations have less
    than four times as many words (it compares a number of words with a size in bytes), and
    when they fit the table, the table holds the schedules one after the other and the mode
    change table the start and end of each. *)
Theorem sched_load_spec c cpuid k sched mc :
  (1 <= k <= 28)%nat -> (1 <= NOC_CONFS c)%nat ->
  let size := 2 ^ Z.of_nat k in
  let total := conf_base c cpuid (NOC_CONFS c) in
  total < 0x100000000 ->
  let '(r, sched', mc') := k_noc_sched_load c cpuid size sched mc in
  (r = 1 <-> total < 4 * size) /\ (r = 0 \/ r = 1) /\
  (r = 1 -> total <= size -> loaded c cpuid (NOC_CONFS c) sched' mc').
Proof.
  intros Hk Hn size total Ht. destruct (find_size k sched Hk) as [E _].
  unfold k_noc_sched_load. fold size in E. destruct (find_mem_size size sched) as [b sched1].
  cbn [fst] in E. subst b. unfold size. rewrite sched_table_bytes by done. fold size.
  pose proof (u32_range (4 * size)) as Hr. unfold size in Hr. rewrite sched_table_bytes in Hr by done.
  fold size in Hr.
  pose proof (load_confs_spec c cpuid size (4 * size) (NOC_CONFS c) 0 sched1 mc) as Hl.
  cbn [conf_base Nat.add] in Hl. change (Z.of_nat 0) with 0 in Hl.
  destruct (load_confs c cpuid size (4 * size) (NOC_CONFS c) 0 0 sched1 mc) as [[r s'] m'].
  destruct Hl as (H1&H2&H3); [lia|done|by right|]. split; [|split; [done|]].
  - rewrite H1. split; [intros [|]; [lia|done]|auto].
  - intros E Hs. apply H3; [done|done|]. split; intros; lia.
Qed.

Definition demo_init : noc_schedules := NocSchedules 2 2 1 4 [2; 11; 12; 0; 9; 9; 9; 9; 1; 13; 0; 0; 9; 9; 9; 9].

Lemma sched_load_spec_witness :
  let '(r, sched, mc) := k_noc_sched_load demo_init 0 16 (fun _ => 0) (fun _ => 0) in
  r = 1 /\ sched 0 = 11 /\ sched 1 = 12 /\ sched 2 = 13 /\ mc 3 = 0x30002.
Proof.
  pose proof (sched_load_spec demo_init 0 4 (fun _ => 0) (fun _ => 0) ltac:(lia) ltac:(cbn; lia)) as H.
  cbv zeta in H. change (2 ^ Z.of_nat 4) with 16 in H.
  specialize (H ltac:(vm_compute; reflexivity)).
  destruct (k_noc_sched_load demo_init 0 16 (fun _ => 0) (fun _ => 0)) as [[r s] m].
  destruct H as (H1&_&H3). assert (r = 1) as Hr by (apply H1; vm_compute; reflexivity).
  destruct (H3 Hr ltac:(vm_compute; discriminate)) as [L1 L2].
  split; [exact Hr|]. split; [apply (L1 O 0); [cbn; lia|vm_compute; intuition discriminate]|].
  split; [apply (L1 O 1); [cbn; lia|vm_compute; intuition discriminate]|].
  split; [apply (L1 1%nat 0); [cbn; lia|vm_compute; intuition discriminate]|].
  apply (L2 1%nat). cbn. lia.
Defined.

(** ** The allocator and the channels (mp.c) *)

Definition MAX_CHANNELS := 256.
Definition BARRIER_SIZE := WALIGN 4.
Definition BARRIER_INITIALIZED := 0.
Definition sizeof_qpd_t := 40.

Definition sizeof_spd_t := 40.
Definition sizeof_LOCK_T := 24.

Inductive direction_t := SOURCE | SINK.
Inductive port_t := SAMPLING | QUEUING.

(** [spd_t]; the words [newest] of the sink and [next] of the source, which the network
    reads and writes, are in the SPM, at offsets 32 and 36 of the descriptor. *)
Record spd_t := Spd {
  s_remote : Z;
  remote_spd : Z;
  read_bufs : Z;
  read_shm_buf : Z;
  sample_size : Z;
  lock : Z
}.

(** [chan_info_t]; 0 is the null pointer. The descriptors of both kinds of ports share the
    pointers [src_ptr] and [sink_ptr] (a union in the source). *)
Record chan_info_t := ChanInfo {
  port_type : port_t;
  src_id : Z; sink_id : Z;
  src_addr : Z; sink_addr : Z;
  src_lock : Z; sink_lock : Z;
  src_ptr : Z; sink_ptr : Z
}.

(** The state of the library: the allocation pointers and sizes of the scratchpads, the
    channels in shared memory, and in the scratchpads the descriptors, the locks and the
    words the network uses. *)
Record mp_state := MpState {
  spm_alloc : bool -> Z;
  spm_size : bool -> Z;
  chan_info : Z -> chan_info_t;
  qpds : bool -> Z -> qpd_t;
  spds : bool -> Z -> spd_t;
  locks : bool -> Z -> LOCK_T;
  smem : world
}.

(** [f[s][p] = a] *)
Definition upd2 {A} (f : bool -> Z -> A) (s : bool) (p : Z) (a : A) : bool -> Z -> A :=
  fun b x => if Bool.eqb b s && (x =? p) then a else f b x.

Section Mp.
Context `{Platform} `{CharType}.

Definition set_alloc (st : mp_state) (s : bool) (a : Z) : mp_state :=
  MpState (updb (spm_alloc st) s a) (spm_size st) (chan_info st) (qpds st) (spds st) (locks st) (smem st).
Definition set_size (st : mp_state) (s : bool) (n : Z) : mp_state :=
  MpState (spm_alloc st) (updb (spm_size st) s n) (chan_info st) (qpds st) (spds st) (locks st) (smem st).
Definition set_chans (st : mp_state) (f : Z -> chan_info_t) : mp_state :=
  MpState (spm_alloc st) (spm_size st) f (qpds st) (spds st) (locks st) (smem st).
Definition set_chan (st : mp_state) (c : Z) (i : chan_info_t) : mp_state :=
  set_chans st (fun x => if x =? c then i else chan_info st x).
Definition set_qpd (st : mp_state) (s : bool) (p : Z) (q : qpd_t) : mp_state :=
  MpState (spm_alloc st) (spm_size st) (chan_info st) (upd2 (qpds st) s p q) (spds st) (locks st) (smem st).
Definition set_spd (st : mp_state) (s : bool) (p : Z) (q : spd_t) : mp_state :=
  MpState (spm_alloc st) (spm_size st) (chan_info st) (qpds st) (upd2 (spds st) s p q) (locks st) (smem st).
Definition set_lock (st : mp_state) (s : bool) (p : Z) (l : LOCK_T) : mp_state :=
  MpState (spm_alloc st) (spm_size st) (chan_info st) (qpds st) (spds st) (upd2 (locks st) s p l) (smem st).
Definition set_mem (st : mp_state) (w : world) : mp_state :=
  MpState (spm_alloc st) (spm_size st) (chan_info st) (qpds st) (spds st) (locks st) w.
Definition set_word (st : mp_state) (s : bool) (a v : Z) : mp_state :=
  set_mem st (set_ni (smem st) s (NI (put (spm (smem st s)) a v) (io (smem st s)) (moved (smem st s)))).

(** The limit is an address computed from a pointer to words: [spm_size] is scaled by 4. *)
Definition mp_alloc (s : bool) (size : Z) (st : mp_state) : Z * mp_state :=
  let w_size := WALIGN size in
  let mem_ptr := spm_alloc st s in
  let new_addr := u32 (mem_ptr + w_size) in
  if new_addr <? NOC_SPM_BASE then (0, st)
  else if u32 (NOC_SPM_BASE + 4 * spm_size st s) <? new_addr then (0, st)
  else (mem_ptr, set_alloc st s new_addr).

Definition no_chan (i : chan_info_t) : chan_info_t :=
  ChanInfo (port_type i) (-1) (-1) 0 0 (src_lock i) (sink_lock i) 0 0.

(** [mp_init] on core [s], given the result of [test_spm_size]; [None] is [abort()]. *)
Definition mp_init (s : bool) (spm_size_found : Z) (st : mp_state) : option mp_state :=
  let st :=
    if core_id s =? 0 then
      set_chans st (fun i => if (0 <=? i) && (i <? MAX_CHANNELS) then no_chan (chan_info st i)
                             else chan_info st i)
    else st in
  if spm_size_found =? -1 then None
  else if spm_size_found =? -2 then None
  else
    let st := set_size st s (u32 spm_size_found) in
    let st := set_alloc st s NOC_SPM_BASE in
    let '(spm_zero, st) := mp_alloc s BARRIER_SIZE st in
    Some (set_word st s spm_zero BARRIER_INITIALIZED).

(** *** Queuing ports (queuing.c) *)

(** The fields of a descriptor that are set for both directions. *)
Definition new_qpd (q : qpd_t) (msg_size num_buf : Z) : qpd_t :=
  Qpd (remote q) (recv_addr q) (send_recv_count q) (WALIGN msg_size) num_buf
    (write_buf q) (shadow_write_buf q) (send_count q) (send_ptr q)
    (read_buf q) (recv_count q) (recv_ptr q).

Definition create_source (s : bool) (chan_id qpd_ptr : Z) (q : qpd_t) (st : mp_state) : Z * mp_state :=
  let '(send_addr, st) := mp_alloc s (mp_send_alloc_size q) st in
  if send_addr =? 0 then (0, st)
  else
    let src := u32 (send_addr + u32 (u32 (buf_size q + FLAG_SIZE) * NUM_WRITE_BUF)) in
    let i := chan_info st chan_id in
    let st := set_chan st chan_id
                (ChanInfo (port_type i) (to_char (core_id s)) (sink_id i) src (sink_addr i)
                   (src_lock i) (sink_lock i) qpd_ptr (sink_ptr i)) in
    let st := set_word st s src 0 in
    (qpd_ptr, set_qpd st s qpd_ptr
       (Qpd (remote q) (recv_addr q) src (buf_size q) (num_buf q)
          send_addr (u32 (send_addr + u32 (buf_size q + FLAG_SIZE))) 0 0
          (read_buf q) (recv_count q) (recv_ptr q))).

Definition create_sink (s : bool) (chan_id qpd_ptr : Z) (q : qpd_t) (st : mp_state) : Z * mp_state :=
  let '(addr, st) := mp_alloc s (mp_recv_alloc_size q) st in
  let with_addr rbuf cnt ptr :=
    Qpd (remote q) addr (send_recv_count q) (buf_size q) (num_buf q) (write_buf q)
      (shadow_write_buf q) (send_count q) (send_ptr q) rbuf cnt ptr in
  let i := chan_info st chan_id in
  let st := set_chan st chan_id
              (ChanInfo (port_type i) (src_id i) (to_char (core_id s)) (src_addr i) addr
                 (src_lock i) (sink_lock i) (src_ptr i) qpd_ptr) in
  if addr =? 0 then
    (0, set_qpd st s qpd_ptr (with_addr (read_buf q) (recv_count q) (recv_ptr q)))
  else
    let cnt := u32 (addr + u32 (u32 (buf_size q + FLAG_SIZE) * num_buf q)) in
    let st := set_word st s cnt 0 in
    let st := for_ (num_buf q) (fun k st =>
        set_word st s (u32 (u32 (addr + u32 (u32 (buf_size q + FLAG_SIZE) * k)) + buf_size q)) 0) st in
    (qpd_ptr, set_qpd st s qpd_ptr (with_addr addr cnt 0)).

Definition mp_create_qport (s : bool) (chan_id : Z) (direction_type : direction_t)
    (msg_size num_buf : Z) (st : mp_state) : Z * mp_state :=
  if chan_id >=? MAX_CHANNELS then (0, st)
  else
    let '(qpd_ptr, st) := mp_alloc s sizeof_qpd_t st in
    if qpd_ptr =? 0 then (0, st)
    else
      let q := new_qpd (qpds st s qpd_ptr) msg_size num_buf in
      let st := set_qpd st s qpd_ptr q in
      let i := chan_info st chan_id in
      let st := set_chan st chan_id
                  (ChanInfo QUEUING (src_id i) (sink_id i) (src_addr i) (sink_addr i)
                     (src_lock i) (sink_lock i) (src_ptr i) (sink_ptr i)) in
      match direction_type with
      | SOURCE => create_source s chan_id qpd_ptr q st
      | SINK => create_sink s chan_id qpd_ptr q st
      end.

(** *** Sampling ports (sampling.c, with the default [IMPL], [DOUBLE_NOC]) *)

(** [initialize_lock], with its allocation; it does not test the pointer. *)
Definition lock_create (s : bool) (remote : Z) (st : mp_state) : Z * mp_state :=
  let '(l, st) := mp_alloc s sizeof_LOCK_T st in
  match exec 4 s (initialize_lock l remote) (smem st) with
  | Some (lk, w) => (l, set_lock (set_mem st w) s l lk)
  | None => (l, st)
  end.

Definition newest_word (spd : Z) : Z := spd + 32.
Definition next_word (spd : Z) : Z := spd + 36.

Definition mp_create_sport (s : bool) (chan_id : Z) (direction_type : direction_t)
    (size : Z) (st : mp_state) : Z * mp_state :=
  if chan_id >=? MAX_CHANNELS then (0, st)
  else
    let '(p, st) := mp_alloc s sizeof_spd_t st in
    if p =? 0 then (0, st)
    else
      let '(l, st) := lock_create s 0 st in
      let d := spds st s p in
      let d := Spd (s_remote d) (remote_spd d) (read_bufs d) (read_shm_buf d) (WALIGN size) l in
      let st := set_spd st s p d in
      if l =? 0 then (0, st)
      else
        let i := chan_info st chan_id in
        match direction_type with
        | SOURCE =>
            let st := set_word st s (next_word p) 0 in
            (p, set_chan st chan_id
                  (ChanInfo SAMPLING (to_char (core_id s)) (sink_id i) (src_addr i) (sink_addr i)
                     l (sink_lock i) p (sink_ptr i)))
        | SINK =>
            let '(bufs, st) := mp_alloc s (u32 (WALIGN size * 2)) st in
            let st := set_spd st s p (Spd (s_remote d) (remote_spd d) bufs (read_shm_buf d) (sample_size d) l) in
            let st := set_word st s (newest_word p) 0xFFFFFFFF in
            let chan sink := ChanInfo SAMPLING (src_id i) sink (src_addr i) bufs (src_lock i) l (src_ptr i) p in
            if bufs =? 0 then (0, set_chan st chan_id (chan (sink_id i)))
            else (p, set_chan st chan_id (chan (to_char (core_id s))))
        end.

(** *** Connecting the ports (mp.c) *)

(** One channel of [mp_init_ports] on core [s]; [None]: it waits for the other side. *)
Definition init_port (s : bool) (chan_id : Z) (st : mp_state) : option mp_state :=
  let i := chan_info st chan_id in
  if src_id i =? core_id s then
    if sink_id i =? -1 then None
    else Some match port_type i with
    | QUEUING =>
        let q := qpds st s (src_ptr i) in
        set_qpd st s (src_ptr i)
          (Qpd (to_char (sink_id i)) (sink_addr i) (send_recv_count q) (buf_size q) (num_buf q)
             (write_buf q) (shadow_write_buf q) (send_count q) (send_ptr q)
             (read_buf q) (recv_count q) (recv_ptr q))
    | SAMPLING =>
        let d := spds st s (src_ptr i) in
        let st := set_lock st s (lock d)
                    (Lock (lock_addr (locks st s (lock d))) (sink_lock i) (u8 (sink_id i))) in
        set_spd st s (src_ptr i)
          (Spd (to_char (sink_id i)) (sink_ptr i) (sink_addr i) (read_shm_buf d) (sample_size d) (lock d))
    end
  else if sink_id i =? core_id s then
    if src_id i =? -1 then None
    else Some match port_type i with
    | QUEUING =>
        let q := qpds st s (sink_ptr i) in
        set_qpd st s (sink_ptr i)
          (Qpd (to_char (src_id i)) (recv_addr q) (src_addr i) (buf_size q) (num_buf q)
             (write_buf q) (shadow_write_buf q) (send_count q) (send_ptr q)
             (read_buf q) (recv_count q) (recv_ptr q))
    | SAMPLING =>
        let d := spds st s (sink_ptr i) in
        let st := set_lock st s (lock d)
                    (Lock (lock_addr (locks st s (lock d))) (src_lock i) (u8 (src_id i))) in
        set_spd st s (sink_ptr i)
          (Spd (to_char (src_id i)) (src_ptr i) (read_bufs d) (src_addr i) (sample_size d) (lock d))
    end
  else Some st.

Definition mp_init_ports (s : bool) (st : mp_state) : option (Z * mp_state) :=
  st ← for_ MAX_CHANNELS (fun c o => st ← o; init_port s c st) (Some st);
  Some (1, st).

End Mp.

(** ** The allocator hands out blocks of its own *)

Lemma walign x : 0 <= x <= 0xFFFFFFFC -> WALIGN x = 4 * ((x + 3) / 4).
Proof.
  intros. unfold WALIGN. rewrite (u32_small (x + 3)) by lia.
  rewrite land_u32_mask, land_lnot_sub, land_3 by lia. zdm.
Qed.

Section Alloc.
Context `{Platform}.

Lemma mp_alloc_ok s size st k :
  spm_alloc st s = NOC_SPM_BASE + 4 * k -> 0 <= k -> 0 <= size <= 0xFFFFFFFC ->
  let n := (size + 3) / 4 in
  4 * (k + n) <= 4 * spm_size st s ->
  0 <= NOC_SPM_BASE /\ NOC_SPM_BASE + 4 * spm_size st s < 0x100000000 ->
  mp_alloc s size st = (NOC_SPM_BASE + 4 * k, set_alloc st s (NOC_SPM_BASE + 4 * (k + n))).
Proof.
  intros Ea Hk Hs n Hr Hb. unfold mp_alloc. rewrite Ea, walign by done. fold n.
  assert (0 <= n) by (apply Z.div_pos; lia).
  autorewrite with cword.
  rewrite (proj2 (Z.ltb_ge _ _)), (proj2 (Z.ltb_ge _ _)) by lia. do 2 f_equal. lia.
Qed.

(** A request succeeds exactly when it fits below the limit. *)
Lemma mp_alloc_cases s n st :
  let limit := NOC_SPM_BASE + 4 * spm_size st s in
  0 < NOC_SPM_BASE <= spm_alloc st s -> spm_alloc st s <= limit < 0x100000000 ->
  spm_alloc st s mod 4 = 0 ->
  0 <= n <= NOC_SPM_BASE -> n <= 0xFFFFFFFC ->
  mp_alloc s n st =
  if spm_alloc st s + WALIGN n <=? limit
  then (spm_alloc st s, set_alloc st s (spm_alloc st s + WALIGN n)) else (0, st).
Proof.
  intros limit Hb Hl Hm Hn Hn'. assert (spm_alloc st s <= 0xFFFFFFFC) by zdm. unfold mp_alloc. rewrite walign by lia. fold limit.
  assert (0 <= (n + 3) / 4 /\ 4 * ((n + 3) / 4) <= n + 3) by zdm.
  rewrite (u32_small limit) by lia.
  destruct (Z.le_gt_cases 0x100000000 (spm_alloc st s + 4 * ((n + 3) / 4))) as [Hov|Hno].
  - replace (u32 _) with (spm_alloc st s + 4 * ((n + 3) / 4) - 0x100000000) by zdm.
    rewrite (proj2 (Z.ltb_lt _ _)), (proj2 (Z.leb_gt _ _)) by lia. done.
  - rewrite u32_small, (proj2 (Z.ltb_ge _ _)) by lia.
    destruct (Z.ltb_spec limit (spm_alloc st s + 4 * ((n + 3) / 4)));
      [rewrite (proj2 (Z.leb_gt _ _)) by lia|rewrite (proj2 (Z.leb_le _ _)) by lia]; done.
Qed.

(** The blocks a sequence of requests gets, as address and size; requests that fail get
    none. *)
Fixpoint allocate (s : bool) (sizes : list Z) (st : mp_state) : list (Z * Z) * mp_state :=
  match sizes with
  | [] => ([], st)
  | n :: sizes =>
      let '(p, st) := mp_alloc s n st in
      let '(bs, st) := allocate s sizes st in
      (if p =? 0 then bs else (p, n) :: bs, st)
  end.

(** Blocks in the order of their addresses, from [a] up to [z], that do not overlap. *)
Fixpoint blocks_in (a z : Z) (bs : list (Z * Z)) : Prop :=
  match bs with
  | [] => a <= z
  | (p, n) :: bs => a <= p /\ p mod 4 = 0 /\ blocks_in (p + n) z bs
  end.

Lemma blocks_in_weaken a a' z bs : a' <= a -> blocks_in a z bs -> blocks_in a' z bs.
Proof. destruct bs as [|[p n] bs]; cbn; [lia|]. intros ? (?&?&?). split; [lia|done]. Qed.

(** The allocator: every block it returns is aligned to words and disjoint from all
    blocks it returned before, and they are above the start of the scratchpad; but the limit
    it observes is four times the size of the scratchpad, because [spm_size] is added to a
    pointer to words: a request succeeds exactly when it fits below that limit. *)
Theorem mp_alloc_blocks s sizes st :
  0 < NOC_SPM_BASE -> NOC_SPM_BASE <= spm_alloc st s ->
  spm_alloc st s mod 4 = 0 -> 0 <= spm_size st s ->
  spm_alloc st s <= NOC_SPM_BASE + 4 * spm_size st s < 0x100000000 ->
  Forall (fun n => 0 <= n <= NOC_SPM_BASE /\ n <= 0xFFFFFFFC) sizes ->
  let '(bs, st') := allocate s sizes st in
  blocks_in (spm_alloc st s) (NOC_SPM_BASE + 4 * spm_size st s) bs /\
  (forall n, 0 <= n <= NOC_SPM_BASE -> n <= 0xFFFFFFFC ->
     (fst (mp_alloc s n st') <> 0 <->
      spm_alloc st' s + WALIGN n <= NOC_SPM_BASE + 4 * spm_size st s)).
Proof.
  intros Hb. revert st. induction sizes as [|n sizes IH]; intros st Ha Hm Hs Hl Hf; cbn [allocate].
  - split; [cbn; lia|]. intros n Hn Hn'. rewrite mp_alloc_cases by lia.
    destruct (Z.leb_spec (spm_alloc st s + WALIGN n) (NOC_SPM_BASE + 4 * spm_size st s)); cbn; lia.
  - apply Forall_cons_iff in Hf as [[Hn Hn'] Hf]. rewrite mp_alloc_cases by lia.
    assert (n <= WALIGN n /\ WALIGN n mod 4 = 0) as [Hw1 Hw2] by (rewrite walign by lia; zdm).
    destruct (Z.leb_spec (spm_alloc st s + WALIGN n) (NOC_SPM_BASE + 4 * spm_size st s)) as [Hle|Hgt].
    + set (st1 := set_alloc st s (spm_alloc st s + WALIGN n)).
      assert (spm_alloc st1 s = spm_alloc st s + WALIGN n) as E1
        by (cbn; unfold updb; by rewrite Bool.eqb_reflx).
      assert (spm_size st1 s = spm_size st s) as E2 by done.
      specialize (IH st1). rewrite E1, E2 in IH.
      destruct (allocate s sizes st1) as [bs st'].
      destruct IH as [I1 I2]; [lia|zdm|lia|lia|done|].
      rewrite (proj2 (Z.eqb_neq _ _)) by lia. split; [|done]. cbn. split; [lia|]. split; [done|].
      eapply blocks_in_weaken; [|done]. lia.
    + specialize (IH st Ha Hm Hs Hl Hf). by destruct (allocate s sizes st) as [bs st'].
Qed.

End Alloc.

(** ** Created ports deliver *)

(** A loop that clears words. *)
Lemma clear_words s n f st :
  0 <= n ->
  let st' := for_ n (fun k st => set_word st s (f k) 0) st in
  (spm_alloc st' = spm_alloc st /\ spm_size st' = spm_size st /\ chan_info st' = chan_info st /\
   qpds st' = qpds st) /\
  smem st' (negb s) = smem st (negb s) /\
  (io (smem st' s) = io (smem st s) /\ moved (smem st' s) = moved (smem st s)) /\
  (forall k, 0 <= k < n -> spm (smem st' s) (f k) = 0) /\
  (forall a, spm (smem st s) a = 0 -> spm (smem st' s) a = 0).
Proof.
  intros Hn. cbv zeta.
  apply (for_ind (fun n st' =>
    (spm_alloc st' = spm_alloc st /\ spm_size st' = spm_size st /\ chan_info st' = chan_info st /\
     qpds st' = qpds st) /\
    smem st' (negb s) = smem st (negb s) /\
    (io (smem st' s) = io (smem st s) /\ moved (smem st' s) = moved (smem st s)) /\
    (forall k, 0 <= k < n -> spm (smem st' s) (f k) = 0) /\
    (forall a, spm (smem st s) a = 0 -> spm (smem st' s) a = 0))); [done| |].
  - repeat (split; [done|]). split; [lia|done].
  - intros i st' Hi (H1&H2&H3&H4&H5). cbn. autorewrite with noc. cbn.
    split; [done|]. split; [done|]. split; [done|]. split.
    + intros k Hk. unfold put. destruct (Z.eqb_spec (f k) (f i)) as [|Hne]; [done|].
      apply H4. destruct (Z.eq_dec k i) as [->|]; [done|lia].
    + intros a Ha. unfold put. destruct (a =? f i); [done|]. by apply H5.
Qed.

Section Created.
Context `{Platform} `{CharType}.
Context (st : mp_state) (c msg_size nb : Z) (k : bool -> Z).

(** The length of a message with its flag in words, and the sizes of the two blocks. *)
Definition len : Z := (msg_size + 3) / 4.
Definition n_src : Z := 2 * (len + 1) + 1.
Definition n_snk : Z := nb * (len + 1) + 1.

(** The library has been initialised and no port has been created; both ends have room for
    a descriptor and their block. *)
Record ready : Prop := {
  rd_base : 0 < NOC_SPM_BASE /\ NOC_SPM_BASE + 0x10000 <= 0x100000000;
  rd_ids : forall s, 0 <= core_id s < 128;
  rd_diff : core_id true <> core_id false;
  rd_chan : 0 <= c < MAX_CHANNELS;
  rd_free : forall i, 0 <= i < MAX_CHANNELS ->
              src_id (chan_info st i) = -1 /\ sink_id (chan_info st i) = -1;
  rd_alloc : forall s, spm_alloc st s = NOC_SPM_BASE + 4 * k s /\ 0 <= k s;
  rd_size : forall s, 0 <= spm_size st s /\ NOC_SPM_BASE + 4 * spm_size st s < 0x100000000;
  rd_room : forall s, k s + 10 + (if s then n_src else n_snk) <= spm_size st s / 4 <= 0x4000;
  rd_msg : 0 <= msg_size;
  rd_buf : 1 <= nb;
  rd_dma : forall s, idle (io (smem st s) DMA_BANK (entry1 s)) = true
}.

Context (R : ready).

Lemma len_nonneg : 0 <= len.
Proof using R. destruct R. apply Z.div_pos; lia. Qed.

Lemma msg_words : WALIGN msg_size = 4 * len.
Proof using R.
  destruct R. pose proof (rd_room0 true) as Hr. cbn in Hr. pose proof (rd_alloc0 true).
  apply walign. unfold n_src, len in *. zdm.
Qed.

Lemma small_char s : to_char (core_id s) = core_id s.
Proof using R.
  destruct R as [_ Hi]. specialize (Hi s). unfold to_char. destruct char_signed; zdm.
Qed.

(** The blocks of the two ends. *)
Definition ptr (s : bool) : Z := NOC_SPM_BASE + 4 * k s.
Definition block (s : bool) : Z := NOC_SPM_BASE + 4 * (k s + 10).

Lemma alloc_desc s st' :
  spm_alloc st' s = spm_alloc st s -> spm_size st' s = spm_size st s ->
  mp_alloc s sizeof_qpd_t st' = (ptr s, set_alloc st' s (block s)).
Proof using R.
  intros Ea Es. destruct R. destruct (rd_alloc0 s) as [E1 E2]. pose proof (rd_room0 s) as Hr.
  pose proof (rd_size0 s). pose proof len_nonneg.
  assert (0 <= (if s then n_src else n_snk)) by (unfold n_src, n_snk; destruct s; nia).
  unfold ptr, block. change 10 with ((sizeof_qpd_t + 3) / 4). apply mp_alloc_ok.
  - by rewrite Ea.
  - done.
  - unfold sizeof_qpd_t. lia.
  - rewrite Es. change ((sizeof_qpd_t + 3) / 4) with 10. zdm.
  - rewrite Es. lia.
Qed.

Lemma alloc_block s st' n :
  spm_alloc st' s = block s -> spm_size st' s = spm_size st s ->
  n = (if s then n_src else n_snk) ->
  mp_alloc s (4 * n) st' = (block s, set_alloc st' s (NOC_SPM_BASE + 4 * (k s + 10 + n))).
Proof using R.
  intros Ea Es ->. destruct R. destruct (rd_alloc0 s) as [E1 E2]. pose proof (rd_room0 s) as Hr.
  pose proof (rd_size0 s). pose proof len_nonneg. set (n := if s then n_src else n_snk) in *.
  assert (0 <= n) by (unfold n, n_src, n_snk; destruct s; nia).
  assert ((4 * n + 3) / 4 = n) as En by zdm.
  unfold block. rewrite <- En at 2. apply mp_alloc_ok.
  - by rewrite Ea.
  - lia.
  - zdm.
  - rewrite Es, En. zdm.
  - rewrite Es. lia.
Qed.

(** The counters of the two ends. *)
Definition src_count : Z := NOC_SPM_BASE + 4 * (k true + 10 + 2 * (len + 1)).
Definition snk_count : Z := NOC_SPM_BASE + 4 * (k false + 10 + nb * (len + 1)).

Lemma room_facts :
  0 <= len /\ 4 * len + 4 < 0x10000 /\ 0 <= k true /\ 0 <= k false /\ 1 <= nb /\
  k true + 10 + 2 * (len + 1) < 0x4000 /\ k false + 10 + nb * (len + 1) < 0x4000.
Proof using R.
  pose proof len_nonneg. destruct R. pose proof (rd_room0 true) as Ht. pose proof (rd_room0 false) as Hf.
  cbn in Ht, Hf. unfold n_src, n_snk in *. pose proof (rd_alloc0 true). pose proof (rd_alloc0 false).
  lia.
Qed.

Lemma buf_bytes_ok : u32 (4 * len + FLAG_SIZE) = 4 * (len + 1).
Proof using R. pose proof room_facts. change FLAG_SIZE with 4. rewrite u32_small; lia. Qed.

Lemma send_size q : buf_size q = 4 * len -> mp_send_alloc_size q = 4 * n_src.
Proof using R.
  intros E. pose proof room_facts. unfold mp_send_alloc_size, NUM_WRITE_BUF, n_src.
  rewrite E, buf_bytes_ok. change (WALIGN 4) with 4. rewrite (u32_small (_ * 2)), u32_small; lia.
Qed.

Lemma ring_bytes i : 0 <= i <= nb -> u32 (4 * (len + 1) * i) = 4 * (i * (len + 1)) /\
  0 <= i * (len + 1) <= nb * (len + 1).
Proof using R.
  intros Hi. pose proof room_facts.
  assert (0 <= i * (len + 1) <= nb * (len + 1))
    by (split; [apply Z.mul_nonneg_nonneg; lia|apply Z.mul_le_mono_nonneg_r; lia]).
  split; [|done]. rewrite u32_small; lia.
Qed.

Lemma recv_size q : buf_size q = 4 * len -> num_buf q = nb -> mp_recv_alloc_size q = 4 * n_snk.
Proof using R.
  intros E En. pose proof room_facts. unfold mp_recv_alloc_size, n_snk.
  rewrite E, En, buf_bytes_ok. change (WALIGN 4) with 4.
  rewrite (proj1 (ring_bytes nb ltac:(lia))), u32_small; lia.
Qed.

Definition src_chan (i : chan_info_t) : chan_info_t :=
  ChanInfo QUEUING (core_id true) (sink_id i) src_count (sink_addr i) (src_lock i) (sink_lock i)
    (ptr true) (sink_ptr i).

Definition src_desc (q : qpd_t) : qpd_t :=
  Qpd (remote q) (recv_addr q) src_count (4 * len) nb (block true) (block true + 4 * (len + 1)) 0 0
    (read_buf q) (recv_count q) (recv_ptr q).

Lemma base_range x : 0 <= x < 0x4000 -> u32 (NOC_SPM_BASE + 4 * x) = NOC_SPM_BASE + 4 * x.
Proof using R. intros. destruct R. apply u32_small. lia. Qed.

Lemma created_source : exists st1,
  mp_create_qport true c SOURCE msg_size nb st = (ptr true, st1) /\
  (forall s, spm_size st1 s = spm_size st s) /\ spm_alloc st1 false = spm_alloc st false /\
  chan_info st1 c = src_chan (chan_info st c) /\
  (forall i, i <> c -> chan_info st1 i = chan_info st i) /\
  qpds st1 true (ptr true) = src_desc (qpds st true (ptr true)) /\ qpds st1 false = qpds st false /\
  smem st1 false = smem st false /\
  smem st1 true = NI (put (spm (smem st true)) src_count 0) (io (smem st true)) (moved (smem st true)).
Proof using R.
  pose proof room_facts as Hr. pose proof (rd_chan R) as Hc. pose proof (rd_base R) as Hb.
  unfold mp_create_qport. rewrite Z.geb_leb, (proj2 (Z.leb_gt _ _)) by lia.
  rewrite alloc_desc by done. rewrite (proj2 (Z.eqb_neq (ptr true) 0)) by (unfold ptr; lia).
  cbv zeta. unfold create_source. rewrite send_size by (cbn; by rewrite msg_words).
  rewrite (alloc_block true); [|done|done|done]. cbn [spm_alloc set_chan set_chans set_qpd set_alloc].
  rewrite (proj2 (Z.eqb_neq (block true) 0)) by (unfold block; lia). cbv zeta.
  cbn [new_qpd buf_size num_buf remote recv_addr read_buf recv_count recv_ptr].
  rewrite msg_words, buf_bytes_ok. unfold NUM_WRITE_BUF. rewrite (u32_small (_ * 2)) by lia.
  assert (u32 (block true + 4 * (len + 1) * 2) = src_count) as ->.
  { unfold block, src_count. replace (NOC_SPM_BASE + 4 * (k true + 10) + 4 * (len + 1) * 2)
      with (NOC_SPM_BASE + 4 * (k true + 10 + 2 * (len + 1))) by lia. apply base_range. lia. }
  assert (u32 (block true + 4 * (len + 1)) = block true + 4 * (len + 1)) as ->.
  { unfold block. replace (NOC_SPM_BASE + 4 * (k true + 10) + 4 * (len + 1))
      with (NOC_SPM_BASE + 4 * (k true + 10 + (len + 1))) by lia. apply base_range. lia. }
  eexists. split; [reflexivity|]. rewrite small_char.
  split; [done|]. split; [done|].
  split; [cbn; rewrite !Z.eqb_refl; done|].
  split; [intros i Hi; cbn; rewrite (proj2 (Z.eqb_neq i c)) by done; done|].
  split; [cbn; unfold upd2; cbn; rewrite !Z.eqb_refl; done|].
  split; [done|]. split; done.
Qed.

Definition snk_chan (i : chan_info_t) : chan_info_t :=
  ChanInfo QUEUING (src_id i) (core_id false) (src_addr i) (block false) (src_lock i) (sink_lock i)
    (src_ptr i) (ptr false).

Definition snk_desc (q : qpd_t) : qpd_t :=
  Qpd (remote q) (block false) (send_recv_count q) (4 * len) nb (write_buf q) (shadow_write_buf q)
    (send_count q) (send_ptr q) (block false) snk_count 0.

Definition snk_flag (i : Z) : Z := NOC_SPM_BASE + 4 * (k false + 10 + i * (len + 1) + len).

Lemma flag_offset i :
  0 <= i < nb -> u32 (u32 (block false + u32 (4 * (len + 1) * i)) + 4 * len) = snk_flag i.
Proof using R.
  intros Hi. pose proof room_facts. destruct (ring_bytes i) as [-> _]; [lia|].
  assert ((i + 1) * (len + 1) <= nb * (len + 1)) by (apply Z.mul_le_mono_nonneg_r; lia).
  assert (0 <= i * (len + 1)) by (apply Z.mul_nonneg_nonneg; lia).
  unfold block, snk_flag.
  replace (NOC_SPM_BASE + 4 * (k false + 10) + 4 * (i * (len + 1)))
    with (NOC_SPM_BASE + 4 * (k false + 10 + i * (len + 1))) by lia.
  rewrite base_range by lia.
  replace (NOC_SPM_BASE + 4 * (k false + 10 + i * (len + 1)) + 4 * len)
    with (NOC_SPM_BASE + 4 * (k false + 10 + i * (len + 1) + len)) by lia.
  apply base_range. lia.
Qed.

Lemma created_sink st1 :
  (forall s, spm_size st1 s = spm_size st s) -> spm_alloc st1 false = spm_alloc st false ->
  exists st2,
  mp_create_qport false c SINK msg_size nb st1 = (ptr false, st2) /\
  chan_info st2 c = snk_chan (chan_info st1 c) /\
  (forall i, i <> c -> chan_info st2 i = chan_info st1 i) /\
  qpds st2 false (ptr false) = snk_desc (qpds st1 false (ptr false)) /\ qpds st2 true = qpds st1 true /\
  smem st2 true = smem st1 true /\ io (smem st2 false) = io (smem st1 false) /\
  spm (smem st2 false) snk_count = 0 /\
  (forall i, 0 <= i < nb -> spm (smem st2 false) (snk_flag i) = 0).
Proof using R.
  intros Es Ea. pose proof room_facts as Hr. pose proof (rd_chan R) as Hc. pose proof (rd_base R) as Hb.
  unfold mp_create_qport. rewrite Z.geb_leb, (proj2 (Z.leb_gt _ _)) by lia.
  rewrite alloc_desc by done. rewrite (proj2 (Z.eqb_neq (ptr false) 0)) by (unfold ptr; lia).
  cbv zeta. unfold create_sink. rewrite recv_size by (cbn; rewrite ?msg_words; done).
  rewrite (alloc_block false); [|done|by cbn; rewrite Es|done].
  rewrite (proj2 (Z.eqb_neq (block false) 0)) by (unfold block; lia). cbv zeta.
  cbn [new_qpd buf_size num_buf remote send_recv_count write_buf shadow_write_buf send_count send_ptr].
  rewrite msg_words, buf_bytes_ok. rewrite (proj1 (ring_bytes nb ltac:(lia))).
  assert (u32 (block false + 4 * (nb * (len + 1))) = snk_count) as ->.
  { unfold block, snk_count. replace (NOC_SPM_BASE + 4 * (k false + 10) + 4 * (nb * (len + 1)))
      with (NOC_SPM_BASE + 4 * (k false + 10 + nb * (len + 1))) by lia. apply base_range. lia. }
  match goal with |- context [for_ nb (fun k st => set_word st false (@?f k) 0) ?st0] =>
    destruct (clear_words false nb f st0) as ((_&_&F3&F4)&F5&(F6&_)&F7&F8); [lia|];
    set (st' := for_ nb (fun k st => set_word st false (f k) 0) st0) in * end.
  eexists. split; [reflexivity|]. rewrite small_char in F3.
  split; [cbn; rewrite F3; cbn; rewrite !Z.eqb_refl; done|].
  split; [intros i Hi; cbn; rewrite F3; cbn; rewrite (proj2 (Z.eqb_neq i c)) by done; done|].
  split; [cbn; unfold upd2; cbn; rewrite !Z.eqb_refl; done|].
  split; [cbn; rewrite F4; done|].
  split; [exact F5|]. split; [cbn; rewrite F6; done|].
  split; [cbn; apply F8; cbn; apply put_eq|].
  intros i Hi. cbn. rewrite <- flag_offset by done. by apply F7.
Qed.

(** Connecting the ports touches the one channel. *)
Lemma init_ports_one s st1 st2 :
  (forall i, 0 <= i < MAX_CHANNELS -> i <> c ->
     src_id (chan_info st1 i) <> core_id s /\ sink_id (chan_info st1 i) <> core_id s) ->
  init_port s c st1 = Some st2 -> chan_info st2 = chan_info st1 ->
  mp_init_ports s st1 = Some (1, st2).
Proof using R.
  intros Ho Hi Ec. pose proof (rd_chan R) as Hc. unfold mp_init_ports.
  assert (for_ MAX_CHANNELS (fun c o => st ← o; init_port s c st) (Some st1) =
          Some (if MAX_CHANNELS <=? c then st1 else st2)) as ->.
  - apply (for_ind (fun n o => o = Some (if n <=? c then st1 else st2))); [unfold MAX_CHANNELS; lia| |].
    + by rewrite (proj2 (Z.leb_le 0 c)) by lia.
    + intros i o Hi' ->. cbn [mbind option_bind].
      destruct (Z.eq_dec i c) as [->|Hne].
      * rewrite Z.leb_refl, (proj2 (Z.leb_gt (c + 1) c)) by lia. done.
      * assert ((if i + 1 <=? c then st1 else st2) = (if i <=? c then st1 else st2)) as ->.
        { destruct (Z.leb_spec (i + 1) c), (Z.leb_spec i c); done || lia. }
        destruct (Ho i Hi' Hne) as [H1 H2]. unfold init_port.
        assert (chan_info (if i <=? c then st1 else st2) = chan_info st1) as -> by (by destruct (i <=? c)).
        by rewrite (proj2 (Z.eqb_neq _ _) H1), (proj2 (Z.eqb_neq _ _) H2).
  - rewrite (proj2 (Z.leb_gt _ _)) by lia. done.
Qed.

(** The channel the created ports form. *)
Definition created_channel (ms : list (list Z)) (Hm : Forall (fun m => length m = Z.to_nat len) ms) :
  Channel.
Proof using R st c msg_size nb k.
  refine {| ks := k true + 10; kr := k false + 10; B := Z.to_nat len; N := nb; msgs := ms;
    s_unused := (let q := qpds st true (ptr true) in (read_buf q, recv_count q, recv_ptr q));
    r_unused := (let q := qpds st false (ptr false) in
                 (write_buf q, shadow_write_buf q, send_count q, send_ptr q)) |}; 
    pose proof room_facts; pose proof (rd_base R); rewrite ?Z2Nat.id by lia; try lia; assumption.
Defined.

Context (ms : list (list Z)) (Hm : Forall (fun m => length m = Z.to_nat len) ms).

#[local] Instance the_channel : Channel := created_channel ms Hm.

Lemma channel_B : Z.of_nat B = len.
Proof using R. pose proof room_facts. cbn. lia. Qed.

Lemma channel_L : L = len + 1.
Proof using R. unfold L. by rewrite channel_B. Qed.

Lemma channel_counts : word_addr k_count = src_count /\ word_addr k_recv = snk_count.
Proof using R. unfold k_count, k_recv. rewrite channel_L. done. Qed.

Lemma channel_flag i : flag_addr i = snk_flag (Z.of_nat i mod nb).
Proof using R. unfold flag_addr, ring. rewrite channel_L, channel_B. done. Qed.

(** The descriptors after the ports have been connected. *)
Lemma source_connected q :
  read_buf q = read_buf (qpds st true (ptr true)) -> recv_count q = recv_count (qpds st true (ptr true)) ->
  recv_ptr q = recv_ptr (qpds st true (ptr true)) ->
  Qpd (core_id false) (block false) src_count (4 * len) nb (block true) (block true + 4 * (len + 1)) 0 0
    (read_buf q) (recv_count q) (recv_ptr q) = sq 0.
Proof using R.
  intros -> -> ->. unfold sq. rewrite channel_B, (proj1 channel_counts).
  unfold wbuf. rewrite channel_L. change (Z.of_nat 0 mod 2) with 0. change (Z.of_nat 1 mod 2) with 1.
  assert (word_addr (ks + 0 * (len + 1)) = block true) as -> by (unfold word_addr, block; cbn; lia).
  assert (word_addr (ks + 1 * (len + 1)) = block true + 4 * (len + 1)) as ->
    by (unfold word_addr, block; cbn; lia).
  done.
Qed.

Lemma sink_connected q :
  write_buf q = write_buf (qpds st false (ptr false)) ->
  shadow_write_buf q = shadow_write_buf (qpds st false (ptr false)) ->
  send_count q = send_count (qpds st false (ptr false)) -> send_ptr q = send_ptr (qpds st false (ptr false)) ->
  Qpd (core_id true) (block false) src_count (4 * len) nb (write_buf q) (shadow_write_buf q) (send_count q)
    (send_ptr q) (block false) snk_count 0 = rq 0.
Proof using R.
  intros -> -> -> ->. unfold rq. by rewrite channel_B, (proj1 channel_counts), (proj2 channel_counts).
Qed.

(** With the descriptors in place and the counters and flags clear, the channel starts. *)
Lemma created_start w qs qr :
  spm (w true) src_count = 0 -> spm (w false) snk_count = 0 ->
  (forall i, 0 <= i < nb -> spm (w false) (snk_flag i) = 0) ->
  (forall s, io (w s) = io (smem st s)) -> qs = sq 0 -> qr = rq 0 ->
  channel_start (Config (fun s : bool => if s then source qs ms
                           else sink (length ms) (Z.to_nat len) qr []) w).
Proof using R.
  intros Hs Hk Hf Hi -> ->. unfold channel_start. cbn [mem code].
  rewrite (proj1 channel_counts), (proj2 channel_counts). split; [done|]. split; [|split; [|done]].
  - intros i. rewrite channel_flag. apply Hf. apply Z.mod_pos_bound. pose proof (rd_buf R). lia.
  - intros s. rewrite Hi. apply (rd_dma R).
Qed.

End Created.

(** Claim C4. From the creation of the ports to the delivery of the messages, for two cores that
    create them one after the other: when the library has been initialised, no channel is in
    use, core numbers are below 128, there is at least one buffer and both scratchpads have room, then [mp_create_qport] of the
    source, followed by that of the sink, succeeds, [mp_init_ports] of the source and then of the
    sink connects them, and from then on the channel delivers all messages in order, from every
    point of every interleaving of the two users and the network, and nothing else. Creations that
    are interleaved are not covered, and can lose messages. *)
Theorem created_ports_deliver `{Platform} `{CharType} st c msg_size nb k ms :
  ready st c msg_size nb k -> Forall (fun m => length m = Z.to_nat (len msg_size)) ms ->
  exists st1 st2 st3 st4,
    let p := ptr k true in let q := ptr k false in
    mp_create_qport true c SOURCE msg_size nb st = (p, st1) /\ p <> 0 /\
    mp_create_qport false c SINK msg_size nb st1 = (q, st2) /\ q <> 0 /\
    mp_init_ports true st2 = Some (1, st3) /\ mp_init_ports false st3 = Some (1, st4) /\
    let x0 := Config (fun s : bool => if s then source (qpds st4 true p) ms
                        else sink (length ms) (Z.to_nat (len msg_size)) (qpds st4 false q) [])
                (smem st4) in
    forall cs,
      (exists cs', let x := run_choices (cs ++ cs') x0 in
         code x true = Ret [] /\ code x false = Ret ms) /\
      (forall r, code (run_choices cs x0) false = Ret r -> r = ms).
Proof.
  intros R Hm. destruct (created_source st c msg_size nb k R)
    as (st1&E1&S1&A1&C1&O1&Q1&Q1'&M1'&M1).
  destruct (created_sink st c msg_size nb k R st1 S1 A1)
    as (st2&E2&C2&O2&Q2&Q2'&M2&I2&K2&F2).
  pose proof (rd_chan _ _ _ _ _ R) as Hc. pose proof (rd_base _ _ _ _ _ R) as Hb.
  pose proof (rd_free _ _ _ _ _ R) as Hf. pose proof (rd_ids _ _ _ _ _ R) as Hid.
  pose proof (rd_diff _ _ _ _ _ R) as Hd. pose proof (room_facts _ _ _ _ _ R) as Hr.
  assert (forall s, core_id s <> -1) as Hne by (intros s; specialize (Hid s); lia).
  destruct (Hf c Hc) as [Fs Fk].
  (* the source connects *)
  set (q1 := src_desc msg_size nb k (qpds st true (ptr k true))) in *.
  set (st3 := set_qpd st2 true (ptr k true)
    (Qpd (core_id false) (block k false) (send_recv_count q1) (buf_size q1) (num_buf q1) (write_buf q1)
       (shadow_write_buf q1) (send_count q1) (send_ptr q1) (read_buf q1) (recv_count q1) (recv_ptr q1))).
  assert (mp_init_ports true st2 = Some (1, st3)) as I3.
  { apply (init_ports_one st c msg_size nb k R); [| |done].
    - intros i Hi Hic. rewrite O2, O1 by done. destruct (Hf i Hi) as [-> ->].
      split; by apply not_eq_sym.
    - unfold init_port. rewrite C2, C1. cbn [snk_chan src_chan src_id sink_id port_type src_ptr sink_addr].
      rewrite Z.eqb_refl, (proj2 (Z.eqb_neq _ _) (Hne false)), Q2', Q1.
      rewrite (small_char st c msg_size nb k R). done. }
  (* the sink connects *)
  set (q2 := snk_desc msg_size nb k (qpds st false (ptr k false))).
  assert (qpds st3 false (ptr k false) = q2) as Q3 by (cbn; unfold upd2; cbn; by rewrite Q2, Q1').
  set (st4 := set_qpd st3 false (ptr k false)
    (Qpd (core_id true) (recv_addr q2) (src_count msg_size k) (buf_size q2) (num_buf q2) (write_buf q2)
       (shadow_write_buf q2) (send_count q2) (send_ptr q2) (read_buf q2) (recv_count q2) (recv_ptr q2))).
  assert (mp_init_ports false st3 = Some (1, st4)) as I4.
  { apply (init_ports_one st c msg_size nb k R); [| |done].
    - intros i Hi Hic. change (chan_info st3) with (chan_info st2). rewrite O2, O1 by done.
      destruct (Hf i Hi) as [-> ->]. split; by apply not_eq_sym.
    - unfold init_port. change (chan_info st3) with (chan_info st2). rewrite C2, C1.
      cbn [snk_chan src_chan src_id sink_id port_type sink_ptr src_addr].
      rewrite (proj2 (Z.eqb_neq _ _) Hd), Z.eqb_refl, (proj2 (Z.eqb_neq _ _) (Hne true)), Q3.
      rewrite (small_char st c msg_size nb k R). done. }
  exists st1, st2, st3, st4. cbv zeta.
  split; [done|]. split; [unfold ptr; lia|]. split; [done|]. split; [unfold ptr; lia|].
  split; [done|]. split; [done|].
  set (Ch := the_channel st c msg_size nb k R ms Hm).
  intros cs. set (x0 := Config _ _). apply (@delivers _ Ch x0 cs).
  apply (created_start st c msg_size nb k R ms Hm).
  - change (smem st4) with (smem st2). rewrite M2, M1. apply put_eq.
  - exact K2.
  - exact F2.
  - change (smem st4) with (smem st2). intros []; [by rewrite M2, M1|by rewrite I2, M1'].
  - change (qpds st4 true (ptr k true)) with (qpds st3 true (ptr k true)).
    unfold st3, set_qpd, upd2. cbn [qpds Bool.eqb andb]. rewrite Z.eqb_refl.
    by apply (source_connected st c msg_size nb k R ms Hm).
  - unfold st4, set_qpd, upd2. cbn [qpds Bool.eqb andb]. rewrite Z.eqb_refl.
    by apply (sink_connected st c msg_size nb k R ms Hm).
Qed.

(** ** An example *)

#[local] Instance ports_platform : Platform := {|
  NOC_SPM_BASE := 0xE8000000;
  core_id := fun s => if s then 1 else 0
|}.

#[local] Instance ports_char : CharType := true.

(** The state after [mp_init] on both cores, with scratchpads of [size] bytes. *)
Definition fresh_state (size : Z) : mp_state :=
  MpState (fun _ => 0xE8000004) (fun _ => size) (fun _ => ChanInfo QUEUING (-1) (-1) 0 0 0 0 0 0)
    (fun _ _ => Qpd 0 0 0 0 0 0 0 0 0 0 0 0) (fun _ _ => Spd 0 0 0 0 0 0) (fun _ _ => Lock 0 0 0)
    (fun _ => NI (fun _ => 0) (fun _ _ => 0) 0).

Lemma mp_alloc_blocks_witness :
  fst (allocate true [5; 8; 300; 200] (fresh_state 64)) = [(0xE8000004, 5); (0xE800000C, 8); (0xE8000014, 200)] /\
  blocks_in 0xE8000004 0xE8000100 (fst (allocate true [5; 8; 300; 200] (fresh_state 64))).
Proof.
  split; [reflexivity|].
  assert (Forall (fun n => 0 <= n <= NOC_SPM_BASE /\ n <= 0xFFFFFFFC) [5; 8; 300; 200]) as Hf
    by (repeat constructor; cbn; lia).
  pose proof (mp_alloc_blocks true [5; 8; 300; 200] (fresh_state 64)) as Hb.
  destruct (allocate true [5; 8; 300; 200] (fresh_state 64)) as [bs st'].
  apply Hb; cbn; try lia; try done. 
Defined.

Lemma fresh_ready : ready (fresh_state 4096) 3 8 2 (fun _ => 1).
Proof.
  split.
  - cbn. lia.
  - intros []; cbn; lia.
  - cbn. lia.
  - unfold MAX_CHANNELS. lia.
  - intros i Hi. split; reflexivity.
  - intros []; cbn; lia.
  - intros []; cbn; lia.
  - intros []; vm_compute; split; discriminate.
  - lia.
  - lia.
  - intros []; reflexivity.
Qed.

Lemma created_ports_deliver_witness :
  exists st1 st2 st3 st4 cs,
    mp_create_qport true 3 SOURCE 8 2 (fresh_state 4096) = (0xE8000004, st1) /\
    mp_create_qport false 3 SINK 8 2 st1 = (0xE8000004, st2) /\
    mp_init_ports true st2 = Some (1, st3) /\ mp_init_ports false st3 = Some (1, st4) /\
    code (run_choices cs
      (Config (fun s : bool => if s then source (qpds st4 true 0xE8000004) [[1; 2]; [3; 4]; [5; 6]]
                 else sink 3 2 (qpds st4 false 0xE8000004) []) (smem st4))) false =
    Ret [[1; 2]; [3; 4]; [5; 6]].
Proof.
  destruct (created_ports_deliver (fresh_state 4096) 3 8 2 (fun _ => 1) [[1; 2]; [3; 4]; [5; 6]])
    as (st1&st2&st3&st4&H1&_&H2&_&H3&H4&H5).
  - exact fresh_ready.
  - repeat constructor.
  - destruct (H5 []) as [[cs [_ Hcs]] _]. exists st1, st2, st3, st4, cs.
    split; [exact H1|]. split; [exact H2|]. split; [exact H3|]. split; [exact H4|exact Hcs].
Defined.
