(* ===== verification/NocInit.v ===== *)
(** * The start of the network on chip

    src/c/libnoc/noc.c, [noc_init] with [noc_configure] and [noc_sync]: each core loads its
    schedules (Ports) into its network interface, all meet through [boot_info], and the master
    starts the network. The cores are interleaved in any way, one access to the shared memory or
    to the run mode of the network at a time. The registration of the interrupt handlers is left
    out.

    What is proved: no core leaves [noc_init], and the network does not run, before all cores that
    the boot loader has started have their schedules; and [noc_init] can always return on all of
    them. *)

From stdpp Require Import base list numbers.
From Stdlib Require Import ZArith Lia.
From S2P Require Import Prelude Bootloader Ports.

Local Open Scope Z_scope.

(** ** State *)

(** The network interface of a core: the schedule table and the mode change table. *)
Record tables := Tables { sched_table : Z -> Z; mc_table : Z -> Z }.

(** Where a core is in [noc_init]. *)
Inductive init_pc :=
| NOff                                (* k_noc_state_set(0): write the run mode *)
| NOffWait                            (* ... while ( *(NOC_TDM_BASE+4) != state) *)
| NLoad                               (* k_noc_sched_load() *)
| NScanNull (i : nat) (done : bool)   (* slave[i].status != STATUS_NULL *)
| NScanDone (i : nat) (done : bool)   (* slave[i].status != STATUS_INITDONE *)
| NNotify                             (* master.status = STATUS_INITDONE *)
| NOwn                                (* slave[get_cpuid()].status = STATUS_INITDONE *)
| NWait                               (* while (master.status != STATUS_INITDONE) *)
| NOn                                 (* noc_enable(): write the run mode *)
| NOnWait                             (* ... while ( *(NOC_TDM_BASE+4) != state) *)
| NEnd.                               (* noc_init() has returned *)

Record noc_sys := NocSys {
  noc_master : status;
  noc_status : nat -> status;
  noc_tables : nat -> tables;
  run_mode : Z;
  init_at : nat -> init_pc
}.

Section Init.
Context (c : noc_schedules) (size : Z) (cpucnt NOC_MASTER : nat).

Definition load_tables (i : nat) (t : tables) : tables :=
  let '(_, sched, mc) := k_noc_sched_load c (Z.of_nat i) size (sched_table t) (mc_table t) in Tables sched mc.

(** ** Steps *)

(** The next round of [for (i = 0; i < get_cpucnt(); i++)], and the end of [do ... while (!done)]. *)
Definition scan_from (i : nat) (done : bool) : init_pc :=
  if Nat.ltb i cpucnt then NScanNull i done else if done then NNotify else NScanNull 0 true.

(** A step of core [i]. *)
Definition init_step (i : nat) (s : noc_sys) : noc_sys :=
  let '(NocSys ms st tb mode pc) := s in
  let goto p := NocSys ms st tb mode (upd pc i p) in
  match pc i with
  | NOff => if decide (i = NOC_MASTER) then NocSys ms st tb 0 (upd pc i NOffWait) else goto NLoad
  | NOffWait => goto (if mode =? 0 then NLoad else NOffWait)
  | NLoad =>
      NocSys ms st (upd tb i (load_tables i (tb i))) mode
        (upd pc i (if decide (i = NOC_MASTER) then scan_from 0 true else NOwn))
  | NScanNull k done =>
      goto (if decide (st k <> STATUS_NULL) then NScanDone k done else scan_from (S k) done)
  | NScanDone k done =>
      goto (scan_from (S k)
        (if bool_decide (st k <> STATUS_INITDONE) && bool_decide (k <> NOC_MASTER) then false else done))
  | NNotify => NocSys STATUS_INITDONE st tb mode (upd pc i NOn)
  | NOwn => NocSys ms (upd st i STATUS_INITDONE) tb mode (upd pc i NWait)
  | NWait => if decide (ms <> STATUS_INITDONE) then s else goto NOn
  | NOn => if decide (i = NOC_MASTER) then NocSys ms st tb 1 (upd pc i NOnWait) else goto NEnd
  | NOnWait => goto (if mode =? 1 then NEnd else NOnWait)
  | NEnd => s
  end.

(** The cores the boot loader has started. *)
Context (up : nat -> Prop).

Inductive init_steps (s : noc_sys) : noc_sys -> Prop :=
| init_refl : init_steps s s
| init_more i s' : up i -> (i < cpucnt)%nat -> init_steps (init_step i s) s' -> init_steps s s'.

(** As the boot loader leaves it: the entry of a core that it has not started is cleared. *)
Definition init_start (tb0 : nat -> tables) (s : noc_sys) : Prop :=
  noc_master s <> STATUS_INITDONE /\ noc_tables s = tb0 /\
  forall i, init_at s i = NOff /\ noc_status s i <> STATUS_INITDONE /\
    (i <> NOC_MASTER -> (noc_status s i <> STATUS_NULL <-> up i)).

(** ** The invariant *)

#[local] Opaque load_tables.

Definition synchronised (p : init_pc) : Prop := match p with NOn | NOnWait | NEnd => True | _ => False end.

(** The tables of a core at its place. *)
Definition tables_at (p : init_pc) (i : nat) (t : tables) : tables :=
  match p with NOff | NOffWait | NLoad => t | _ => load_tables i t end.

Definition slave_ok (p : init_pc) (st ms : status) : Prop :=
  match p with
  | NOff | NLoad | NOwn => st <> STATUS_INITDONE
  | NWait => st = STATUS_INITDONE
  | NOn | NEnd => st = STATUS_INITDONE /\ ms = STATUS_INITDONE
  | _ => False
  end.

Definition master_ok (p : init_pc) (ms : status) (mode : Z) : Prop :=
  match p with
  | NOff => ms <> STATUS_INITDONE
  | NOffWait | NLoad | NScanNull _ _ | NScanDone _ _ | NNotify => ms <> STATUS_INITDONE /\ mode = 0
  | NOn => ms = STATUS_INITDONE /\ mode = 0
  | NOnWait | NEnd => ms = STATUS_INITDONE /\ mode = 1
  | NOwn | NWait => False
  end.

(** What the master has seen of the entries below [k]. *)
Definition all_done (st : nat -> status) (k : nat) : Prop :=
  forall i, (i < k)%nat -> i <> NOC_MASTER -> up i -> st i = STATUS_INITDONE.

Definition scan_ok (p : init_pc) (st : nat -> status) : Prop :=
  match p with
  | NScanNull k done => (k < cpucnt)%nat /\ (done = true -> all_done st k)
  | NScanDone k done => (k < cpucnt)%nat /\ (done = true -> all_done st k) /\ (k <> NOC_MASTER -> up k)
  | NNotify | NOn | NOnWait | NEnd => all_done st cpucnt
  | _ => True
  end.

Record noc_inv (tb0 : nat -> tables) (s : noc_sys) : Prop := {
  ni_tables i : noc_tables s i = tables_at (init_at s i) i (tb0 i);
  ni_up i : i <> NOC_MASTER -> (noc_status s i <> STATUS_NULL <-> up i);
  ni_slave i : i <> NOC_MASTER -> slave_ok (init_at s i) (noc_status s i) (noc_master s);
  ni_master : master_ok (init_at s NOC_MASTER) (noc_master s) (run_mode s);
  ni_scan : scan_ok (init_at s NOC_MASTER) (noc_status s)
}.

Lemma start_noc_inv tb0 s : init_start tb0 s -> noc_inv tb0 s.
Proof.
  intros (Hm & Ht & Hs). split.
  - intros i. destruct (Hs i) as (-> & _). by rewrite Ht.
  - intros i. apply Hs.
  - intros i _. destruct (Hs i) as (-> & N & _). done.
  - destruct (Hs NOC_MASTER) as (-> & _). done.
  - destruct (Hs NOC_MASTER) as (-> & _). done.
Qed.

Lemma all_done_upd st i k : all_done st k -> all_done (upd st i STATUS_INITDONE) k.
Proof.
  intros A j Hj Nj Uj. destruct (decide (i = j)) as [->|N]; [by rewrite upd_eq|]. rewrite upd_ne by done. by apply A.
Qed.

Lemma scan_ok_upd p st i : scan_ok p st -> scan_ok p (upd st i STATUS_INITDONE).
Proof. destruct p; cbn; intuition auto using all_done_upd. Qed.

Lemma scan_from_ok st k done : (done = true -> all_done st k) -> (k <= cpucnt)%nat -> (0 < cpucnt)%nat -> scan_ok (scan_from k done) st.
Proof.
  intros A Hk H0. unfold scan_from. destruct (Nat.ltb_spec k cpucnt); [by split|].
  destruct done; [|split; [done|intros _ i Hi; lia]]. cbn. replace cpucnt with k by lia. by apply A.
Qed.

Lemma scan_from_master k done ms mode :
  ms <> STATUS_INITDONE -> mode = 0 -> master_ok (scan_from k done) ms mode.
Proof. intros N E. unfold scan_from. by destruct (Nat.ltb k cpucnt), done. Qed.

Lemma scan_from_tables k done i t : tables_at (scan_from k done) i t = load_tables i t.
Proof. unfold scan_from. by destruct (Nat.ltb k cpucnt), done. Qed.

(** The master has looked at one more entry. *)
Lemma all_done_next st k done :
  (done = true -> all_done st k) -> (k <> NOC_MASTER -> up k -> done = true -> st k = STATUS_INITDONE) ->
  done = true -> all_done st (S k).
Proof.
  intros A B D i Hi Ni Ui. destruct (decide (i = k)) as [->|]; [by apply B|]. apply A; [done|lia|done|done].
Qed.

(** A step of a slave, and of the master. *)
Lemma slave_noc_inv tb0 s i : i <> NOC_MASTER -> up i -> noc_inv tb0 s -> noc_inv tb0 (init_step i s).
Proof.
  intros Ni Ui [It Iu Is Im Ic]. destruct s as [ms st tb mode pc]. cbn [noc_master noc_status noc_tables run_mode init_at] in *.
  pose proof (Is i Ni) as Oi. pose proof (It i) as Ti. unfold init_step.
  destruct (pc i) eqn:E; cbn in Oi; try done; rewrite ?(decide_False (P := i = NOC_MASTER)) by done.
  all: try (destruct (decide (ms <> STATUS_INITDONE)) as [|Q%dec_stable]; [done|]).
  all: split; cbn [noc_master noc_status noc_tables run_mode init_at]; rewrite ?(upd_ne _ i NOC_MASTER) by done; try done.
  all: try (by apply scan_ok_upd).
  all: intros j; try intros Nj; destruct (decide (i = j)) as [<-|N]; rewrite ?upd_eq, ?upd_ne by done; auto.
  all: try (by rewrite Ti); try (by apply Is).
  - by split.
  - done.
  - by split.
Qed.

Lemma master_goto tb0 s p ms tb mode :
  noc_inv tb0 s -> ms = noc_master s \/ ms = STATUS_INITDONE ->
  (forall i, i <> NOC_MASTER -> tb i = noc_tables s i) -> tb NOC_MASTER = tables_at p NOC_MASTER (tb0 NOC_MASTER) ->
  master_ok p ms mode -> scan_ok p (noc_status s) ->
  noc_inv tb0 (NocSys ms (noc_status s) tb mode (upd (init_at s) NOC_MASTER p)).
Proof.
  intros [It Iu Is Im Ic] Em Et Ep Om Oc.
  split; cbn [noc_master noc_status noc_tables run_mode init_at]; rewrite ?upd_eq; try done.
  - intros i. destruct (decide (NOC_MASTER = i)) as [<-|N]; [by rewrite upd_eq|]. rewrite upd_ne, Et by auto. apply It.
  - intros i Ni. rewrite upd_ne by done. specialize (Is i Ni). destruct Em as [->| ->]; [done|].
    by destruct (init_at s i); cbn in *; intuition.
Qed.

Lemma master_noc_inv tb0 s : (0 < cpucnt)%nat -> noc_inv tb0 s -> noc_inv tb0 (init_step NOC_MASTER s).
Proof.
  intros H0 I. pose proof (ni_tables _ _ I NOC_MASTER) as Ti. pose proof (ni_master _ _ I) as Im. pose proof (ni_scan _ _ I) as Ic.
  pose proof (ni_up _ _ I) as Iu. destruct s as [ms st tb mode pc]. cbn [noc_master noc_status noc_tables run_mode init_at] in *.
  unfold init_step. destruct (pc NOC_MASTER) eqn:E; cbn in Im; try done; destruct_and?;
    rewrite ?(decide_True (P := NOC_MASTER = NOC_MASTER)) by done.
  - apply (master_goto _ _ NOffWait _ _ _ I); auto. by split.
  - zif. apply (master_goto _ _ NLoad _ _ _ I); auto. by split.
  - apply (master_goto _ _ (scan_from 0 true) _ _ _ I); auto.
    + intros. by rewrite upd_ne.
    + rewrite upd_eq, scan_from_tables. by rewrite Ti.
    + by apply scan_from_master.
    + apply scan_from_ok; [intros _ i Hi|..]; lia.
  - destruct Ic as [Hk A]. destruct (decide (st i <> STATUS_NULL)) as [Nn|Nn%dec_stable].
    + apply (master_goto _ _ (NScanDone i done) _ _ _ I); auto; [by split|]. split; [done|]. split; [done|].
      intros Ni. by apply (Iu i Ni).
    + apply (master_goto _ _ (scan_from (S i) done) _ _ _ I); auto.
      * by rewrite scan_from_tables, Ti.
      * by apply scan_from_master.
      * apply scan_from_ok; [|lia..]. apply all_done_next; [done|]. intros Ni Ui. by apply (Iu i Ni) in Ui.
  - destruct Ic as (Hk & A & Ui). apply (master_goto _ _ (scan_from (S i) _) _ _ _ I); auto.
    + by rewrite scan_from_tables, Ti.
    + by apply scan_from_master.
    + apply scan_from_ok; [|lia..]. apply all_done_next.
      * destruct (_ && _); done.
      * intros Ni _. rewrite (bool_decide_eq_true_2 (i <> NOC_MASTER)) by done. rewrite andb_true_r.
        by case_bool_decide.
  - apply (master_goto _ _ NOn _ _ _ I); auto. by split.
  - apply (master_goto _ _ NOnWait _ _ _ I); auto. by split.
  - subst mode. apply (master_goto _ _ NEnd _ _ _ I); auto. by split.
Qed.

Lemma init_steps_inv tb0 s s' : up NOC_MASTER -> (NOC_MASTER < cpucnt)%nat -> noc_inv tb0 s -> init_steps s s' -> noc_inv tb0 s'.
Proof.
  intros Um Hm I L. induction L as [|s i s' Ui Hi _ IH]; [done|]. apply IH.
  destruct (decide (i = NOC_MASTER)) as [->|N]; [apply master_noc_inv; [lia|done]|by apply slave_noc_inv].
Qed.

(** Behind the barrier, all cores have loaded their tables. *)
Lemma barrier tb0 s i :
  noc_inv tb0 s -> synchronised (init_at s i) -> forall j, (j < cpucnt)%nat -> up j ->
  noc_tables s j = load_tables j (tb0 j).
Proof.
  intros I Si j Hj Uj. rewrite (ni_tables _ _ I j).
  assert (M : synchronised (init_at s NOC_MASTER)).
  { destruct (decide (i = NOC_MASTER)) as [->|Ni]; [done|]. pose proof (ni_slave _ _ I i Ni) as Oi.
    pose proof (ni_master _ _ I) as Im. assert (noc_master s = STATUS_INITDONE) as E.
    { destruct (init_at s i); try done; by destruct Oi. }
    rewrite E in Im. by destruct (init_at s NOC_MASTER); cbn in Im |- *; destruct_and?. }
  destruct (decide (j = NOC_MASTER)) as [->|Nj]; [by destruct (init_at s NOC_MASTER)|].
  assert (D : noc_status s j = STATUS_INITDONE).
  { pose proof (ni_scan _ _ I) as Ic. destruct (init_at s NOC_MASTER); try done; by apply Ic. }
  pose proof (ni_slave _ _ I j Nj) as Oj. rewrite D in Oj. by destruct (init_at s j).
Qed.

(** ** Progress *)

(** Steps of one core alone. *)
Definition alone (i n : nat) (s : noc_sys) : noc_sys := Nat.iter n (init_step i) s.
Definition reaches (i : nat) (s : noc_sys) (Q : noc_sys -> Prop) : Prop := exists n, Q (alone i n s).

Lemma init_reaches_now i s (Q : noc_sys -> Prop) : Q s -> reaches i s Q.
Proof. by exists O. Qed.

Lemma init_reaches_step i s Q : reaches i (init_step i s) Q -> reaches i s Q.
Proof. intros [n H]. exists (S n). unfold alone in *. by rewrite Nat.iter_succ_r. Qed.

Lemma init_step_frame i s j : i <> j ->
  init_at (init_step i s) j = init_at s j /\ noc_status (init_step i s) j = noc_status s j.
Proof.
  intros N. destruct s as [ms st tb mode pc]. unfold init_step.
  destruct (pc i); repeat case_decide; cbn; by rewrite ?upd_ne.
Qed.

Lemma alone_frame i n s j : i <> j -> init_at (alone i n s) j = init_at s j /\ noc_status (alone i n s) j = noc_status s j.
Proof.
  intros N. induction n as [|n [IH1 IH2]]; [done|].
  change (alone i (S n) s) with (init_step i (alone i n s)).
  destruct (init_step_frame i (alone i n s) j N) as [E1 E2]. by rewrite E1, E2.
Qed.

Lemma init_trans s1 s2 s3 : init_steps s1 s2 -> init_steps s2 s3 -> init_steps s1 s3.
Proof. induction 1; [done|]. intros L. econstructor; eauto. Qed.

Lemma alone_steps i n s : up i -> (i < cpucnt)%nat -> init_steps s (alone i n s).
Proof.
  intros U H. revert s. induction n as [|n IH]; intros s; [constructor|].
  unfold alone. rewrite Nat.iter_succ_r. econstructor; [done|done|apply IH].
Qed.

(** A slave gets to the barrier. *)
Lemma slave_arrives tb0 s i : noc_inv tb0 s -> i <> NOC_MASTER ->
  reaches i s (fun s' => noc_status s' i = STATUS_INITDONE).
Proof.
  intros I Ni. pose proof (ni_slave _ _ I i Ni) as Oi.
  assert (Own : forall s, init_at s i = NOwn -> reaches i s (fun s' => noc_status s' i = STATUS_INITDONE)).
  { intros s' E. apply init_reaches_step, init_reaches_now. destruct s' as [ms st tb mode pc]. cbn in *. rewrite E. cbn. by rewrite upd_eq. }
  assert (Load : forall s, init_at s i = NLoad -> reaches i s (fun s' => noc_status s' i = STATUS_INITDONE)).
  { intros s' E. apply init_reaches_step, Own. destruct s' as [ms st tb mode pc]. cbn in *. rewrite E. cbn.
    by rewrite upd_eq, decide_False. }
  destruct (init_at s i) eqn:E; cbn in Oi; try done.
  - apply init_reaches_step, Load. destruct s as [ms st tb mode pc]. cbn in *. rewrite E, decide_False by done. cbn. by rewrite upd_eq.
  - by apply Load.
  - by apply Own.
  - by apply init_reaches_now.
  - apply init_reaches_now, Oi.
  - apply init_reaches_now, Oi.
Qed.

(** Behind the notification, a slave leaves. *)
Lemma slave_leaves tb0 s i : noc_inv tb0 s -> i <> NOC_MASTER ->
  noc_status s i = STATUS_INITDONE -> noc_master s = STATUS_INITDONE ->
  reaches i s (fun s' => init_at s' i = NEnd).
Proof.
  intros I Ni D M. pose proof (ni_slave _ _ I i Ni) as Oi.
  assert (On : forall s, init_at s i = NOn -> reaches i s (fun s' => init_at s' i = NEnd)).
  { intros s' E. apply init_reaches_step, init_reaches_now. destruct s' as [ms st tb mode pc]. cbn in *.
    rewrite E, decide_False by done. cbn. by rewrite upd_eq. }
  destruct (init_at s i) eqn:E; cbn in Oi; try done.
  - apply init_reaches_step, On. destruct s as [ms st tb mode pc]. cbn in *. rewrite E, decide_False by (rewrite M; auto). cbn. by rewrite upd_eq.
  - by apply On.
  - by apply init_reaches_now.
Qed.

(** When all have arrived, the master gets through. *)
Section Master.
Context (st : nat -> status).
Hypothesis arrived : forall i, (i < cpucnt)%nat -> i <> NOC_MASTER -> st i = STATUS_NULL \/ st i = STATUS_INITDONE.
Hypothesis Hm : (NOC_MASTER < cpucnt)%nat.

Definition leaves (s : noc_sys) : Prop := reaches NOC_MASTER s (fun s' => init_at s' NOC_MASTER = NEnd).

(** One step of the master, to the place it leads to. *)
Lemma master_at ms tb mode pc p' ms' tb' mode' :
  init_step NOC_MASTER (NocSys ms st tb mode pc) = NocSys ms' st tb' mode' (upd pc NOC_MASTER p') ->
  leaves (NocSys ms' st tb' mode' (upd pc NOC_MASTER p')) -> leaves (NocSys ms st tb mode pc).
Proof. intros E L. apply init_reaches_step. by rewrite E. Qed.

Lemma notify_leaves ms tb mode pc : pc NOC_MASTER = NNotify -> leaves (NocSys ms st tb mode pc).
Proof.
  intros E. eapply master_at; [cbn; rewrite E; reflexivity|].
  eapply master_at; [cbn; rewrite upd_eq, decide_True by done; reflexivity|].
  eapply master_at; [cbn; rewrite upd_eq; reflexivity|]. apply init_reaches_now. cbn. by rewrite upd_eq.
Qed.

Lemma scan_leaves n : forall k done ms tb mode pc,
  (cpucnt - k <= n)%nat -> (k < cpucnt)%nat -> pc NOC_MASTER = NScanNull k done ->
  (done = true \/ forall ms tb mode pc, pc NOC_MASTER = NScanNull 0 true -> leaves (NocSys ms st tb mode pc)) ->
  leaves (NocSys ms st tb mode pc).
Proof.
  induction n as [|n IH]; intros k done ms tb mode pc Hn Hk E D; [lia|].
  assert (Next : forall pc', pc' NOC_MASTER = scan_from (S k) done -> leaves (NocSys ms st tb mode pc')).
  { intros pc'. unfold scan_from. destruct (Nat.ltb_spec (S k) cpucnt); [intros E'; eapply IH; [|done|exact E'|done]; lia|].
    destruct done; [apply notify_leaves|]. destruct D as [|D]; [done|]. apply D. }
  destruct (decide (st k <> STATUS_NULL)) as [Nn|Nn] eqn:Dn.
  - eapply master_at; [cbn; rewrite E, Dn; reflexivity|].
    eapply master_at; [cbn; rewrite upd_eq; reflexivity|]. apply Next. rewrite upd_eq. f_equal.
    case_bool_decide as Q; [|done]. case_bool_decide as R; [|done]. by destruct (arrived k Hk R).
  - eapply master_at; [cbn; rewrite E, Dn; reflexivity|]. apply Next. by rewrite upd_eq.
Qed.

Lemma scan_any_leaves k done ms tb mode pc :
  (k < cpucnt)%nat -> pc NOC_MASTER = NScanNull k done -> leaves (NocSys ms st tb mode pc).
Proof.
  intros Hk E. apply (scan_leaves cpucnt k done); [lia|done|exact E|]. right. intros ms' tb' mode' pc' E'.
  apply (scan_leaves cpucnt 0 true); [lia|lia|exact E'|]. by left.
Qed.

Lemma scan_from_leaves k done ms tb mode pc :
  pc NOC_MASTER = scan_from k done -> leaves (NocSys ms st tb mode pc).
Proof.
  unfold scan_from. destruct (Nat.ltb_spec k cpucnt); [by apply scan_any_leaves|].
  destruct done; [apply notify_leaves|]. apply scan_any_leaves. lia.
Qed.

Lemma master_leaves tb0 s : noc_inv tb0 s -> noc_status s = st -> leaves s.
Proof.
  intros I Es. pose proof (ni_master _ _ I) as Im. pose proof (ni_scan _ _ I) as Ic. destruct s as [ms st' tb mode pc]. cbn in Es. subst st'. cbn in Im, Ic.
  assert (Load : forall ms tb mode pc, pc NOC_MASTER = NLoad -> leaves (NocSys ms st tb mode pc)).
  { intros ms' tb' mode' pc' E. eapply master_at; [cbn; rewrite E, decide_True by done; reflexivity|].
    eapply scan_from_leaves. by rewrite upd_eq. }
  assert (Off : forall ms tb pc, pc NOC_MASTER = NOffWait -> leaves (NocSys ms st tb 0 pc)).
  { intros ms' tb' pc' E. eapply master_at; [cbn; rewrite E; reflexivity|]. apply Load. by rewrite upd_eq. }
  assert (Wait : forall ms tb pc, pc NOC_MASTER = NOnWait -> leaves (NocSys ms st tb 1 pc)).
  { intros ms' tb' pc' E. eapply master_at; [cbn; rewrite E; reflexivity|]. apply init_reaches_now. cbn. by rewrite upd_eq. }
  destruct (pc NOC_MASTER) eqn:E; cbn in Im, Ic; destruct_and?; try done.
  - eapply master_at; [cbn; rewrite E, decide_True by done; reflexivity|]. apply Off. by rewrite upd_eq.
  - subst mode. by apply Off.
  - by apply Load.
  - by eapply scan_any_leaves.
  - eapply master_at; [cbn; rewrite E; reflexivity|]. eapply scan_from_leaves. by rewrite upd_eq.
  - by apply notify_leaves.
  - eapply master_at; [cbn; rewrite E, decide_True by done; reflexivity|]. apply Wait. by rewrite upd_eq.
  - subst mode. by apply Wait.
  - by apply init_reaches_now.
Qed.

End Master.

(** All cores, one after the other. *)
Lemma all_arrive tb0 s n : up NOC_MASTER -> (NOC_MASTER < cpucnt)%nat -> noc_inv tb0 s -> (n <= cpucnt)%nat ->
  exists s', init_steps s s' /\ noc_inv tb0 s' /\
    forall i, (i < n)%nat -> i <> NOC_MASTER -> noc_status s' i = STATUS_NULL \/ noc_status s' i = STATUS_INITDONE.
Proof.
  intros Um Hm I. induction n as [|n IH]; intros Hn.
  - exists s. split; [constructor|]. split; [done|lia].
  - destruct IH as (s1 & L1 & I1 & A1); [lia|].
    destruct (decide (n = NOC_MASTER)) as [->|Nn].
    { exists s1. split_and!; try done. intros i Hi Ni. apply A1; [lia|done]. }
    destruct (decide (noc_status s1 n = STATUS_NULL)) as [E|E].
    { exists s1. split_and!; try done. intros i Hi Ni. destruct (decide (i = n)) as [->|]; [by left|]. apply A1; [lia|done]. }
    destruct (slave_arrives tb0 s1 n I1 Nn) as [k D].
    assert (L2 : init_steps s1 (alone n k s1)) by (apply alone_steps; [by apply (ni_up _ _ I1 n Nn)|lia]).
    exists (alone n k s1). split; [by eapply init_trans|]. split; [by eapply init_steps_inv|].
    intros i Hi Ni. destruct (decide (i = n)) as [->|Ne]; [by right|].
    destruct (alone_frame n k s1 i) as [_ ->]; [done|]. apply A1; [lia|done].
Qed.

Lemma all_leave tb0 s n : up NOC_MASTER -> (NOC_MASTER < cpucnt)%nat -> noc_inv tb0 s ->
  init_at s NOC_MASTER = NEnd -> (n <= cpucnt)%nat ->
  exists s', init_steps s s' /\ noc_inv tb0 s' /\ init_at s' NOC_MASTER = NEnd /\
    forall i, (i < n)%nat -> up i -> init_at s' i = NEnd.
Proof.
  intros Um Hm I Em. induction n as [|n IH]; intros Hn.
  - exists s. split; [constructor|]. split_and!; try done. lia.
  - destruct IH as (s1 & L1 & I1 & E1 & A1); [lia|].
    destruct (decide (n = NOC_MASTER)) as [->|Nn].
    { exists s1. split_and!; try done. intros i Hi Ui. destruct (decide (i = NOC_MASTER)) as [->|]; [done|]. apply A1; [lia|done]. }
    pose proof (ni_master _ _ I1) as Im. pose proof (ni_scan _ _ I1) as Ic. rewrite E1 in Im, Ic. destruct Im as [Im _].
    destruct (decide (noc_status s1 n = STATUS_INITDONE)) as [E|E].
    + destruct (slave_leaves tb0 s1 n I1 Nn E Im) as [k D].
      assert (L2 : init_steps s1 (alone n k s1)).
      { apply alone_steps; [|lia]. apply (ni_up _ _ I1 n Nn). by rewrite E. }
      exists (alone n k s1). split; [by eapply init_trans|]. split; [by eapply init_steps_inv|].
      split; [by rewrite (proj1 (alone_frame n k s1 _ Nn))|].
      intros i Hi Ui. destruct (decide (i = n)) as [->|Ne]; [done|].
      destruct (alone_frame n k s1 i) as [-> _]; [done|]. apply A1; [lia|done].
    + exists s1. split_and!; try done. intros i Hi Ui. destruct (decide (i = n)) as [->|]; [|apply A1; [lia|done]].
      destruct E. apply Ic; [lia|done|done].
Qed.

Lemma init_completes tb0 s : up NOC_MASTER -> (NOC_MASTER < cpucnt)%nat -> noc_inv tb0 s ->
  exists s', init_steps s s' /\ run_mode s' = 1 /\ forall i, (i < cpucnt)%nat -> up i -> init_at s' i = NEnd.
Proof.
  intros Um Hm I. destruct (all_arrive tb0 s cpucnt Um Hm I) as (s1 & L1 & I1 & A1); [lia|].
  destruct (master_leaves (noc_status s1) A1 Hm tb0 s1 I1 eq_refl) as [k E].
  assert (L2 : init_steps s1 (alone NOC_MASTER k s1)) by by apply alone_steps.
  destruct (all_leave tb0 (alone NOC_MASTER k s1) cpucnt Um Hm) as (s2 & L3 & I3 & E3 & A3); [by eapply init_steps_inv|done|lia|].
  exists s2. split; [eapply init_trans; [done|]; by eapply init_trans|]. split; [|done].
  pose proof (ni_master _ _ I3) as Im. rewrite E3 in Im. apply Im.
Qed.

End Init.

(** ** Properties *)

Lemma load_tables_loaded c k i t :
  (1 <= k <= 28)%nat -> (1 <= NOC_CONFS c)%nat -> conf_base c (Z.of_nat i) (NOC_CONFS c) <= 2 ^ Z.of_nat k ->
  let t' := load_tables c (2 ^ Z.of_nat k) i t in
  loaded c (Z.of_nat i) (NOC_CONFS c) (sched_table t') (mc_table t').
Proof.
  intros Hk Hc Hf. pose proof (Z.pow_pos_nonneg 2 (Z.of_nat k) ltac:(lia) ltac:(lia)).
  pose proof (Z.pow_le_mono_r 2 (Z.of_nat k) 28 ltac:(lia) ltac:(lia)).
  pose proof (sched_load_spec c (Z.of_nat i) k (sched_table t) (mc_table t) Hk Hc) as S. cbv zeta in S.
  unfold load_tables. destruct (k_noc_sched_load _ _ _ _ _) as [[r sched] mc].
  destruct S as (R & _ & L); [lia|]. cbn. apply L; [apply R; lia|done].
Qed.

(** Claim C21. The start of the network. In every interleaving of the cores that the boot loader has
    started, with schedules that fit the tables: when a core is behind the barrier of [noc_init],
    or the master has switched the network on, all these cores have loaded their schedules; and
    from every state, all of them can return, with the network running. *)
Theorem noc_init_synchronises c k cpucnt NOC_MASTER up tb0 s0 s :
  (1 <= k <= 28)%nat -> (1 <= NOC_CONFS c)%nat ->
  (forall i, (i < cpucnt)%nat -> conf_base c (Z.of_nat i) (NOC_CONFS c) <= 2 ^ Z.of_nat k) ->
  (NOC_MASTER < cpucnt)%nat -> up NOC_MASTER -> init_start NOC_MASTER up tb0 s0 ->
  init_steps c (2 ^ Z.of_nat k) cpucnt NOC_MASTER up s0 s ->
  (forall i, synchronised (init_at s i) \/ (run_mode s <> 0 /\ init_at s NOC_MASTER <> NOff) ->
    forall j, (j < cpucnt)%nat -> up j ->
      loaded c (Z.of_nat j) (NOC_CONFS c) (sched_table (noc_tables s j)) (mc_table (noc_tables s j))) /\
  exists s', init_steps c (2 ^ Z.of_nat k) cpucnt NOC_MASTER up s s' /\ run_mode s' = 1 /\
    forall i, (i < cpucnt)%nat -> up i -> init_at s' i = NEnd.
Proof.
  intros Hk Hc Hf Hm Um St L.
  assert (I : noc_inv c (2 ^ Z.of_nat k) cpucnt NOC_MASTER up tb0 s).
  { eapply init_steps_inv; [done|done| |exact L]. by apply start_noc_inv. }
  split; [|by eapply init_completes]. intros i S j Hj Uj.
  assert (exists i', synchronised (init_at s i')) as [i' S'].
  { destruct S as [S|[Mo No]]; [by exists i|]. exists NOC_MASTER. pose proof (ni_master _ _ _ _ _ _ _ I) as Im.
    destruct (init_at s NOC_MASTER); cbn in *; by destruct_and?. }
  rewrite (barrier _ _ _ _ _ _ _ _ I S' j Hj Uj). by apply load_tables_loaded; [| |apply Hf].
Qed.

(** Three cores, of which the last has not been started. *)
Definition demo_noc : noc_sys :=
  NocSys STATUS_INIT (fun i => if Nat.ltb i 2 then STATUS_INIT else STATUS_NULL)
    (fun _ => Tables (fun _ => 0) (fun _ => 0)) 7 (fun _ => NOff).

Definition demo_order : list nat := replicate 9 0%nat ++ replicate 4 1%nat ++ replicate 12 0%nat.

Definition run_cores (c : noc_schedules) (size : Z) (cpucnt m : nat) (order : list nat) (s : noc_sys) : noc_sys :=
  fold_left (fun s i => init_step c size cpucnt m i s) order s.

Lemma run_cores_steps c size cpucnt m (up : nat -> Prop) order s :
  Forall (fun i => up i /\ (i < cpucnt)%nat) order -> init_steps c size cpucnt m up s (run_cores c size cpucnt m order s).
Proof. intros F. revert s. induction F as [|i order [U H] _ IH]; intros s; [constructor|]. econstructor; [exact U|exact H|apply IH]. Qed.

Lemma noc_init_synchronises_witness :
  let s := run_cores demo_init 32 3 0 demo_order demo_noc in
  synchronised (init_at s 0%nat) /\ init_at s 1%nat = NWait /\ init_at s 2%nat = NOff /\
  sched_table (noc_tables s 0%nat) 0 = 11 /\ sched_table (noc_tables s 0%nat) 2 = 13.
Proof.
  intros s. assert (S : synchronised (init_at s 0%nat)) by (vm_compute; exact I).
  split; [exact S|]. split; [vm_compute; reflexivity|]. split; [vm_compute; reflexivity|].
  destruct (noc_init_synchronises demo_init 5 3 0 (fun i => (i < 2)%nat) (fun _ => Tables (fun _ => 0) (fun _ => 0)) demo_noc s)
    as [H _].
  - lia.
  - vm_compute. lia.
  - intros i Hi. assert (i = 0 \/ i = 1 \/ i = 2)%nat as [->|[->| ->]] by lia; vm_compute; discriminate.
  - lia.
  - lia.
  - split; [done|]. split; [done|]. intros i. split; [done|]. cbn [noc_status demo_noc]. destruct (Nat.ltb_spec i 2); (split; [done|]); intros _; split; intros N; first [done|lia|by destruct N].
  - apply run_cores_steps. repeat constructor; lia.
  - destruct (H 0%nat (or_introl S) 0%nat ltac:(lia) ltac:(lia)) as [L _].
    split; [apply (L 0%nat 0)|apply (L 1%nat 0)]; vm_compute; intuition (discriminate || lia).
Defined.
