(* ===== verification/Sampling.v ===== *)
(** * Sampling ports (src/c/libmp/sampling.c, with the default [IMPL], [DOUBLE_NOC])

    A sampling port has two buffers in the scratchpad of the reader. The writer sends a
    sample into the buffer that is not the newest, and then, holding the lock, posts which
    buffer is the newest; the reader copies the newest buffer while it holds the lock. The
    writer and the reader run concurrently, interleaved with the network as in [Noc]; the
    lock is the one of [Lock]. *)

From stdpp Require Import base list numbers.
From Stdlib Require Import ZArith Lia.
From S2P Require Import Prelude Noc Lock LockUser Queuing Ports.

Local Open Scope Z_scope.
Local Open Scope c_scope.

(** ** The code *)

Section Code.
Context `{Platform}.

Definition mem_copy (to from bytes : Z) : prog unit :=
  let itteration_count := u32 (Z.quot (s32 (s32 (bytes + 4) - 1)) 4) in
  for_prog (Z.to_nat itteration_count) 0 (fun i _ =>
    x ← load (u32 (from + 4 * i)); store_spm (u32 (to + 4 * i)) x) tt.

(** [sport] is the address of the descriptor, [d] the descriptor but for the words the
    network uses, and [lk] the lock it points to. *)
Definition mp_read_cs (sport : Z) (d : spd_t) (sample : Z) : prog unit :=
  v ← load (newest_word sport);
  let newest := s32 v in
  let buf := u32 (read_bufs d + u32 (newest * sample_size d)) in
  mem_copy sample buf (s32 (sample_size d)).

Definition mp_read (id sport : Z) (d : spd_t) (lk : LOCK_T) (sample : Z) : prog Z :=
  acquire_lock id lk;;
  mp_read_cs sport d sample;;
  release_lock lk;;
  Ret 1.

Definition mp_write_cs (sport : Z) (d : spd_t) : prog unit :=
  noc_write (s_remote d) (newest_word (remote_spd d)) (next_word sport) 4 0;;
  spin (done ← noc_dma_done (s_remote d); Ret (done =? 0)).

Definition mp_write (id sport : Z) (d : spd_t) (lk : LOCK_T) (sample : Z) : prog Z :=
  next ← load (next_word sport);
  noc_write (s_remote d) (u32 (read_bufs d + u32 (next * sample_size d))) sample (sample_size d) 0;;
  spin (done ← noc_dma_done (s_remote d); Ret (done =? 0));;
  acquire_lock id lk;;
  mp_write_cs sport d;;
  release_lock lk;;
  next ← load (next_word sport);
  store_spm (next_word sport) (next .^ 1);;
  Ret 1.

(** The users: the writer computes samples into its buffer and writes them; the reader reads
    [n] times and returns what it has read. *)
Fixpoint writer (id sport : Z) (d : spd_t) (lk : LOCK_T) (sample : Z) (ms : list (list Z))
    : prog (list (list Z)) :=
  match ms with
  | [] => Ret []
  | m :: ms => fill_words sample m;; mp_write id sport d lk sample;; writer id sport d lk sample ms
  end.

Fixpoint reader (n len : nat) (id sport : Z) (d : spd_t) (lk : LOCK_T) (sample : Z)
    (got : list (list Z)) : prog (list (list Z)) :=
  match n with
  | O => Ret got
  | S n =>
      mp_read id sport d lk sample;;
      m ← read_words len sample [];
      reader n len id sport d lk sample (got ++ [m])
  end.

End Code.

(** ** A port *)

(** Where the words of the two ends are, as word indices of their scratchpads, the length of
    the samples in words, the samples, the first of which is in the port when it starts, and
    the number of reads. *)
Class Port `{Locks} := {
  len : nat;
  kn : Z;  (** [next] of the writer *)
  kx : Z;  (** the sample of the writer *)
  km : Z;  (** [newest] of the reader *)
  kb : Z;  (** the two buffers *)
  ky : Z;  (** the sample of the reader *)
  pw : Z; pr : Z;  (** the descriptors *)
  dw : spd_t; dr : spd_t;
  samples : list (list Z);
  reads : nat;
  pt_base : 0 <= NOC_SPM_BASE /\ NOC_SPM_BASE + 0x10000 <= 0x100000000;
  pt_len : (1 <= len)%nat;
  pt_samples : Forall (fun m => length m = len) samples;
  pt_first : (1 <= length samples)%nat;
  pt_few : Z.of_nat (length samples) + Z.of_nat reads < 0xFFFFFFFF;
  pt_next : next_word pw = word_addr kn;
  pt_newest : newest_word pr = word_addr km /\ newest_word (remote_spd dw) = word_addr km;
  pt_bufs : read_bufs dw = word_addr kb /\ read_bufs dr = word_addr kb;
  pt_size : sample_size dw = 4 * Z.of_nat len /\ sample_size dr = 4 * Z.of_nat len;
  pt_remote : s_remote dw = core_id false;
  pt_w : (0 <= kn < 0x4000 /\ 0 <= kx /\ kx + Z.of_nat len <= 0x4000) /\
         ~ (kx <= kn < kx + Z.of_nat len) /\
         (kn < slot true \/ slot true + 4 <= kn) /\
         (kx + Z.of_nat len <= slot true \/ slot true + 4 <= kx);
  pt_r : (0 <= km < 0x4000 /\ 0 <= kb /\ kb + 2 * Z.of_nat len <= 0x4000 /\
          0 <= ky /\ ky + Z.of_nat len <= 0x4000) /\
         ~ (kb <= km < kb + 2 * Z.of_nat len) /\ ~ (ky <= km < ky + Z.of_nat len) /\
         (ky + Z.of_nat len <= kb \/ kb + 2 * Z.of_nat len <= ky) /\
         (km < slot false \/ slot false + 4 <= km) /\
         (kb + 2 * Z.of_nat len <= slot false \/ slot false + 4 <= kb) /\
         (ky + Z.of_nat len <= slot false \/ slot false + 4 <= ky)
}.

(** ** Program points *)

Section Loops.
Context `{Platform} {A : Type} (remote dst src size : Z) (k : prog A).

(** [noc_write] to core [remote] and the wait for its end. *)
Definition write_body (_ : Z) : prog (bool * Z) :=
  c ← (r ← noc_nbwrite remote dst src size 0; Ret (r =? 0)); Ret (c, 0).
Definition wait_body (_ : Z) : prog (bool * Z) :=
  c ← (d ← noc_dma_done remote; Ret (d =? 0)); Ret (c, 0).

Definition dma0 : Z :=
  u32 ((DATA_PKT_TYPE << NOC_PTR_WIDTH) .| u16 (W (u32 (dst - NOC_SPM_BASE)))).
Definition dma1 : Z :=
  u32 (NOC_ACTIVE_BIT .| (u16 (W size) << NOC_PTR_WIDTH) .| u16 (W (u32 (src - NOC_SPM_BASE)))).

Definition write_code (p : wr_at) : prog A :=
  match p with
  | WH => Loop 0 write_body (fun _ => k)
  | WR => unroll 0 write_body (fun _ => k)
  | WS0 => IoStore DMA_BANK (remote << 1) dma0 (IoStore DMA_BANK ((remote << 1) + 1) dma1 k)
  | WS1 => IoStore DMA_BANK ((remote << 1) + 1) dma1 k
  end.

Definition wait_loop : prog A := Loop 0 wait_body (fun _ => k).
Definition wait_read : prog A := unroll 0 wait_body (fun _ => k).

Lemma write_polls : exists f,
  write_code WR = IoLoad DMA_BANK ((remote << 1) + 1) f /\
  forall v, f v = write_code (if idle v then WS0 else WH).
Proof.
  eexists. split; [reflexivity|]. intros v. unfold idle. cbv beta.
  destruct (v .& NOC_ACTIVE_BIT =? 0); reflexivity.
Qed.

Lemma wait_polls : exists f,
  wait_read = IoLoad DMA_BANK ((remote << 1) + 1) f /\ forall v, f v = if idle v then k else wait_loop.
Proof.
  eexists. split; [reflexivity|]. intros v. unfold idle. cbv beta.
  destruct (v .& NOC_ACTIVE_BIT =? 0); reflexivity.
Qed.

End Loops.

(** Points of the writer and of the reader; [WIn] to [ROut] are the points of the lock. *)
Inductive wpc :=
| WFill (j : nat) | WNext | WSend (p : wr_at) | WWaitH | WWaitR
| WIn | WPub (p : wr_at) | WPubH | WPubR | WOut
| WLoad | WStore | WDone.

Inductive rpc :=
| RIn | RNewest | RCopy (j : nat) | RPut (j : nat) | ROut
| RGet (j : nat) | RDone.

Section Points.
Context `{Port}.

Definition sample (i : nat) : list Z := nth i samples [].

(** The value of [next] while sample [i] is written, and of [newest] when it is the newest. *)
Definition buf_no (i : nat) : Z := Z.of_nat i mod 2.
Definition buf (i : nat) : Z := kb + buf_no i * Z.of_nat len.

(** *** The writer *)

Definition w_rest (i : nat) : prog (list (list Z)) :=
  writer (core_id true) pw dw (lk true) (word_addr kx) (drop i samples).
Definition w_tail (i : nat) : prog (list (list Z)) :=
  Load (next_word pw) (fun v => Store (next_word pw) (v .^ 1) (w_rest (S i))).
Definition w_release (i : nat) : prog (list (list Z)) := t_release (lk true) (w_tail i).
Definition w_pub (i : nat) (p : wr_at) : prog (list (list Z)) :=
  write_code (s_remote dw) (newest_word (remote_spd dw)) (next_word pw) 4 (wait_loop (s_remote dw) (w_release i)) p.
Definition w_acquire (i : nat) : prog (list (list Z)) :=
  t_enter (core_id true) (lk true) (w_pub i WH).
Definition w_send (i : nat) (v : Z) (p : wr_at) : prog (list (list Z)) :=
  write_code (s_remote dw) (u32 (read_bufs dw + u32 (v * sample_size dw))) (word_addr kx) (sample_size dw)
    (wait_loop (s_remote dw) (w_acquire i)) p.
Definition w_next (i : nat) : prog (list (list Z)) := Load (next_word pw) (fun v => w_send i v WH).

Definition code_w (i : nat) (q : wpc) (p : pc) : prog (list (list Z)) :=
  match q with
  | WFill j => fill_words (word_addr kx + 4 * Z.of_nat j) (drop j (sample i));; w_next i
  | WNext => w_next i
  | WSend p => w_send i (buf_no i) p
  | WWaitH => wait_loop (s_remote dw) (w_acquire i)
  | WWaitR => wait_read (s_remote dw) (w_acquire i)
  | WIn | WOut => code_of (core_id true) (lk true) (w_pub i WH) (w_tail i) p
  | WPub p => w_pub i p
  | WPubH => wait_loop (s_remote dw) (w_release i)
  | WPubR => wait_read (s_remote dw) (w_release i)
  | WLoad => w_tail i
  | WStore => Store (next_word pw) (buf_no i .^ 1) (w_rest (S i))
  | WDone => Ret []
  end.

Definition w_start (i : nat) : wpc := if decide (i < length samples)%nat then WFill 0 else WDone.

(** Whatever point of the lock: it is not in use. *)
Lemma writer_start i p : w_rest i = code_w i (w_start i) p.
Proof.
  unfold w_rest, w_start. destruct (decide (i < length samples)%nat) as [Hi|Hi].
  - rewrite (drop_S samples (sample i) i).
    2:{ unfold sample. destruct (nth_lookup_or_length samples i []); [done|lia]. }
    cbn [code_w]. rewrite Z.mul_0_r, Z.add_0_r. rewrite drop_0.
    change (writer (core_id true) pw dw (lk true) (word_addr kx) (sample i :: drop (S i) samples))
      with (fill_words (word_addr kx) (sample i);;
            mp_write (core_id true) pw dw (lk true) (word_addr kx);; w_rest (S i)).
    reflexivity.
  - by rewrite drop_ge by lia.
Qed.

Lemma sample_length i : (i < length samples)%nat -> length (sample i) = len.
Proof. intros Hi. apply (proj1 (List.Forall_forall _ _) pt_samples), nth_In, Hi. Qed.

Lemma fill_step i j p :
  (i < length samples)%nat -> (j < len)%nat ->
  code_w i (WFill j) p =
  Store (word_addr (kx + Z.of_nat j)) (nth j (sample i) 0)
    (code_w i (if decide (S j < len)%nat then WFill (S j) else WNext) p).
Proof.
  intros Hi Hj. pose proof (sample_length i Hi) as Hl. cbn [code_w].
  rewrite (drop_S (sample i) (nth j (sample i) 0) j).
  2:{ destruct (nth_lookup_or_length (sample i) j 0); [done|lia]. }
  replace (word_addr kx + 4 * Z.of_nat j) with (word_addr (kx + Z.of_nat j)) by (unfold word_addr; lia).
  change (fill_words ?x (?y :: ?l)) with (Store x y (fill_words (x + 4) l)).
  destruct (decide (S j < len)%nat).
  - cbn [code_w]. replace (word_addr kx + 4 * Z.of_nat (S j)) with (word_addr (kx + Z.of_nat j) + 4)
      by (unfold word_addr; lia). reflexivity.
  - by rewrite (drop_ge (sample i) (S j)) by lia.
Qed.

(** *** The reader *)

Section Reader.
Context (i : nat) (g : list (list Z)).

Definition r_rest (i : nat) (g : list (list Z)) : prog (list (list Z)) :=
  reader (reads - i) len (core_id false) pr dr (lk false) (word_addr ky) g.
Definition r_get (j : nat) (ws : list Z) : prog (list (list Z)) :=
  m ← read_words (len - j) (word_addr ky + 4 * Z.of_nat j) ws; r_rest (S i) (g ++ [m]).
(** Release the lock and look at the sample, after the copy [p]. *)
Definition r_then (p : prog unit) : prog (list (list Z)) :=
  (p;; release_lock (lk false);; Ret 1);; r_get 0 [].
Definition copy_word (from : Z) (k : Z) (_ : unit) : prog unit :=
  x ← load (u32 (from + 4 * k)); store_spm (u32 (word_addr ky + 4 * k)) x.
Definition r_copy (from : Z) (j : nat) : prog (list (list Z)) :=
  r_then (for_prog (len - j) (Z.of_nat j) (copy_word from) tt).
Definition r_newest : prog (list (list Z)) :=
  Load (newest_word pr) (fun v =>
    r_then (mem_copy (word_addr ky) (u32 (read_bufs dr + u32 (s32 v * sample_size dr)))
              (s32 (sample_size dr)))).

Definition code_r (seen : nat) (q : rpc) (p : pc) : prog (list (list Z)) :=
  match q with
  | RIn | ROut => code_of (core_id false) (lk false) r_newest (r_get 0 []) p
  | RNewest => r_newest
  | RCopy j => r_copy (word_addr (buf seen)) j
  | RPut j => Store (word_addr (ky + Z.of_nat j)) (nth j (sample seen) 0)
                (r_copy (word_addr (buf seen)) (S j))
  | RGet j => r_get j (take j (sample seen))
  | RDone => Ret g
  end.

Definition r_start : rpc := if decide (i < reads)%nat then RIn else RDone.

Lemma reader_start seen : r_rest i g = code_r seen r_start Ent.
Proof.
  unfold r_rest, r_start. destruct (decide (i < reads)%nat) as [Hi|Hi].
  - replace (reads - i)%nat with (S (reads - S i)) by lia. cbn [code_r code_of]. unfold r_newest.
    rewrite <- acquire_points. unfold r_then, r_get. rewrite Nat.sub_0_r, Z.mul_0_r, Z.add_0_r. reflexivity.
  - by replace (reads - i)%nat with 0%nat by lia.
Qed.

Lemma buf_no_range k : 0 <= buf_no k < 2.
Proof. apply Z.mod_pos_bound. lia. Qed.

Lemma buf_range k : kb <= buf k /\ buf k + Z.of_nat len <= kb + 2 * Z.of_nat len.
Proof. pose proof (buf_no_range k). unfold buf. nia. Qed.

(** The address of a buffer from its number. *)
Lemma buf_address k :
  u32 (word_addr kb + u32 (buf_no k * (4 * Z.of_nat len))) = word_addr (buf k).
Proof.
  pose proof (buf_no_range k). pose proof (buf_range k). pose proof pt_base. pose proof pt_r. pose proof pt_len.
  assert (u32 (buf_no k * (4 * Z.of_nat len)) = 4 * (buf_no k * Z.of_nat len)) as ->.
  { rewrite u32_small; [lia|]. unfold buf in *. lia. }
  unfold word_addr, buf in *. rewrite u32_small; [lia|]. lia.
Qed.

Lemma newest_step seen p : exists f,
  r_newest = Load (word_addr km) f /\ f (buf_no seen) = code_r seen (RCopy 0) p.
Proof.
  unfold r_newest. rewrite (proj1 pt_newest). eexists. split; [reflexivity|]. cbv beta.
  pose proof (buf_no_range seen). rewrite (proj2 pt_bufs), (proj2 pt_size).
  replace (s32 (buf_no seen)) with (buf_no seen) by zdm. rewrite buf_address.
  unfold mem_copy. pose proof pt_r.
  assert (u32 (s32 (s32 (s32 (4 * Z.of_nat len) + 4) - 1) ÷ 4) = Z.of_nat len) as ->.
  { replace (s32 (s32 (s32 (4 * Z.of_nat len) + 4) - 1)) with (4 * Z.of_nat len + 3) by zdm.
    rewrite Z.quot_div_nonneg by lia. zdm. }
  rewrite Nat2Z.id. cbn [code_r]. unfold r_copy. rewrite Nat.sub_0_r. reflexivity.
Qed.

Lemma copy_end seen : code_r seen (RCopy len) CS = code_r seen ROut SetN0.
Proof. cbn [code_r]. unfold r_copy. rewrite Nat.sub_diag. reflexivity. Qed.

Lemma copy_step seen j p : (j < len)%nat -> exists f,
  code_r seen (RCopy j) p = Load (word_addr (buf seen + Z.of_nat j)) f /\
  f (nth j (sample seen) 0) = code_r seen (RPut j) p.
Proof.
  intros Hj. cbn [code_r]. unfold r_copy at 1. replace (len - j)%nat with (S (len - S j)) by lia.
  pose proof pt_base. pose proof pt_r. pose proof (buf_range seen).
  cbn [for_prog].
  assert (copy_word (word_addr (buf seen)) (Z.of_nat j) tt =
          Load (word_addr (buf seen + Z.of_nat j)) (fun x => Store (word_addr (ky + Z.of_nat j)) x (Ret tt))) as ->.
  { unfold copy_word.
    replace (u32 (word_addr (buf seen) + 4 * Z.of_nat j)) with (word_addr (buf seen + Z.of_nat j))
      by (unfold word_addr; rewrite u32_small; lia).
    replace (u32 (word_addr ky + 4 * Z.of_nat j)) with (word_addr (ky + Z.of_nat j))
      by (unfold word_addr; rewrite u32_small; lia).
    reflexivity. }
  eexists. split; [reflexivity|]. cbv beta. unfold r_copy.
  replace (Z.of_nat (S j)) with (Z.of_nat j + 1) by lia. reflexivity.
Qed.

Lemma put_step seen j p :
  code_r seen (RPut j) p =
  Store (word_addr (ky + Z.of_nat j)) (nth j (sample seen) 0) (code_r seen (RCopy (S j)) p).
Proof. reflexivity. Qed.

Lemma get_step seen j p :
  (seen < length samples)%nat -> (j < len)%nat -> exists f,
  code_r seen (RGet j) p = Load (word_addr (ky + Z.of_nat j)) f /\
  f (nth j (sample seen) 0) =
    if decide (S j < len)%nat then code_r seen (RGet (S j)) p else r_rest (S i) (g ++ [sample seen]).
Proof.
  intros Hs Hj. pose proof (sample_length seen Hs) as Hl. cbn [code_r]. unfold r_get at 1.
  replace (len - j)%nat with (S (len - S j)) by lia.
  replace (word_addr ky + 4 * Z.of_nat j) with (word_addr (ky + Z.of_nat j)) by (unfold word_addr; lia).
  eexists. split; [reflexivity|]. cbv beta.
  assert (take j (sample seen) ++ [nth j (sample seen) 0] = take (S j) (sample seen)) as ->.
  { symmetry. apply take_S_r. destruct (nth_lookup_or_length (sample seen) j 0); [done|lia]. }
  destruct (decide (S j < len)%nat).
  - unfold r_get. replace (word_addr ky + 4 * Z.of_nat (S j)) with (word_addr (ky + Z.of_nat j) + 4)
      by (unfold word_addr; lia). reflexivity.
  - replace (len - S j)%nat with 0%nat by lia. rewrite take_ge by lia. reflexivity.
Qed.

End Reader.

End Points.

(** ** The automaton *)

(** The writer and the reader with their sides of the lock; a transfer of the writer, [true]
    for [newest] and [false] for a sample, and the words it has moved; the index of the
    newest sample, of the sample the reader has seen, and of those it has returned. *)
Record pst := P {
  wi : nat; wp : wpc;
  ri : nat; rp : rpc;
  zw : side; zr : side;
  sch : option (bool * Z);
  pub : nat; seen : nat; log : list nat
}.

Section Automaton.
Context `{Port}.

Definition w_upd (a : pst) (i : nat) (q : wpc) (z : side) (s : option (bool * Z)) : pst :=
  P i q (ri a) (rp a) z (zr a) s (pub a) (seen a) (log a).
Definition r_upd (a : pst) (i : nat) (q : rpc) (z : side) (sn : nat) (lg : list nat) : pst :=
  P (wi a) (wp a) i q (zw a) z (sch a) (pub a) sn lg.

Definition free (z : side) : bool := match ch z with Idle => true | _ => false end.

Definition w_step (a : pst) : pst :=
  let go q := w_upd a (wi a) q (zw a) (sch a) in
  let post b q := w_upd a (wi a) q (with_ch (zw a) Busy) (Some (b, 0)) in
  match wp a with
  | WFill j => go (if decide (S j < len)%nat then WFill (S j) else WNext)
  | WNext => go (WSend WH)
  | WSend WH => go (WSend WR)
  | WSend WR => go (WSend (if free (zw a) then WS0 else WH))
  | WSend WS0 => go (WSend WS1)
  | WSend WS1 => post false WWaitH
  | WWaitH => go WWaitR
  | WWaitR => if free (zw a) then w_upd a (wi a) WIn (goto (zw a) Ent) (sch a) else go WWaitH
  | WPub WH => go (WPub WR)
  | WPub WR => go (WPub (if free (zw a) then WS0 else WH))
  | WPub WS0 => go (WPub WS1)
  | WPub WS1 => post true WPubH
  | WPubH => go WPubR
  | WPubR => if free (zw a) then w_upd a (wi a) WOut (goto (zw a) SetN0) (sch a) else go WPubH
  | WLoad => go WStore
  | WStore => w_upd a (S (wi a)) (w_start (S (wi a))) (zw a) (sch a)
  | WDone => a
  | WIn | WOut =>
      let z := core_step (core_id true) (core_id false) (zw a) (zr a) in
      w_upd a (wi a) (match at_ z with CS => WPub WH | User => WLoad | _ => wp a end) z (sch a)
  end.

Definition r_step (a : pst) : pst :=
  let go q := r_upd a (ri a) q (zr a) (seen a) (log a) in
  match rp a with
  | RIn | ROut =>
      let z := core_step (core_id false) (core_id true) (zr a) (zw a) in
      r_upd a (ri a) (match at_ z with CS => RNewest | User => RGet 0 | _ => rp a end) z (seen a) (log a)
  | RNewest => r_upd a (ri a) (RCopy 0) (zr a) (pub a) (log a)
  | RCopy j => go (RPut j)
  | RPut j =>
      if decide (S j < len)%nat then go (RCopy (S j))
      else r_upd a (ri a) ROut (goto (zr a) SetN0) (seen a) (log a)
  | RGet j =>
      if decide (S j < len)%nat then go (RGet (S j))
      else
        let q := r_start (S (ri a)) in
        r_upd a (S (ri a)) q (match q with RIn => goto (zr a) Ent | _ => zr a end) (seen a)
          (log a ++ [seen a])
  | RDone => a
  end.

Definition size_of (b : bool) : Z := if b then 1 else Z.of_nat len.

Definition net_w (a : pst) : pst :=
  match sch a with
  | None => w_upd a (wi a) (wp a) (net_step (zw a)) None
  | Some (b, m) =>
      if m <? size_of b then
        P (wi a) (wp a) (ri a) (rp a) (zw a) (zr a) (Some (b, m + 1))
          (if b : bool then wi a else pub a) (seen a) (log a)
      else w_upd a (wi a) (wp a) (with_ch (zw a) Idle) None
  end.

Definition net_r (a : pst) : pst :=
  r_upd a (ri a) (rp a) (net_step (zr a)) (seen a) (log a).

Definition p_step (a : pst) (c : choice) : pst :=
  match c with
  | Run true _ => w_step a | Run false _ => r_step a
  | Net true => net_w a | Net false => net_r a
  end.

(** *** The invariant *)

Definition writer_ok (a : pst) : Prop :=
  (1 <= wi a <= length samples)%nat /\ (wp a <> WDone -> (wi a < length samples)%nat) /\
  match wp a with
  | WFill j => (j < len)%nat /\ at_ (zw a) = User /\ ch (zw a) = Idle /\ sch a = None /\ wi a = S (pub a)
  | WNext | WSend _ => at_ (zw a) = User /\ ch (zw a) = Idle /\ sch a = None /\ wi a = S (pub a)
  | WWaitH | WWaitR =>
      at_ (zw a) = User /\ wi a = S (pub a) /\
      match sch a with
      | None => ch (zw a) = Idle
      | Some (b, m) => b = false /\ ch (zw a) = Busy /\ 0 <= m <= Z.of_nat len
      end
  | WIn => acquiring (at_ (zw a)) = true /\ ch (zw a) <> Busy /\ sch a = None /\ wi a = S (pub a)
  | WPub p =>
      at_ (zw a) = CS /\ ch (zw a) <> Busy /\ sch a = None /\ wi a = S (pub a) /\
      (match p with WS0 | WS1 => ch (zw a) = Idle | _ => True end)
  | WPubH | WPubR =>
      at_ (zw a) = CS /\
      match sch a with
      | None => ch (zw a) = Idle /\ wi a = pub a
      | Some (b, m) =>
          b = true /\ ch (zw a) = Busy /\ ((m = 0 /\ wi a = S (pub a)) \/ (m = 1 /\ wi a = pub a))
      end
  | WOut => releasing (at_ (zw a)) = true /\ ch (zw a) <> Busy /\ sch a = None /\ wi a = pub a
  | WLoad | WStore => at_ (zw a) = User /\ ch (zw a) = Idle /\ sch a = None /\ wi a = pub a
  | WDone =>
      at_ (zw a) = User /\ ch (zw a) = Idle /\ sch a = None /\ wi a = S (pub a) /\
      wi a = length samples
  end.

Definition ascending (l : list nat) : Prop :=
  forall i j x y, (i <= j)%nat -> l !! i = Some x -> l !! j = Some y -> (x <= y)%nat.

Definition bounded (n : nat) (l : list nat) : Prop := Forall (fun x => (x <= n)%nat) l.

Definition reader_ok (a : pst) : Prop :=
  ch (zr a) <> Busy /\ length (log a) = ri a /\ ascending (log a) /\
  bounded (pub a) (log a) /\ (ri a <= reads)%nat /\ (rp a <> RDone -> (ri a < reads)%nat) /\
  match rp a with
  | RIn => acquiring (at_ (zr a)) = true
  | RNewest => at_ (zr a) = CS
  | RCopy j | RPut j =>
      at_ (zr a) = CS /\ (j < len)%nat /\ seen a = pub a
  | ROut => releasing (at_ (zr a)) = true /\ (seen a <= pub a)%nat /\ bounded (seen a) (log a)
  | RGet j => at_ (zr a) = User /\ (j < len)%nat /\ (seen a <= pub a)%nat /\ bounded (seen a) (log a)
  | RDone => at_ (zr a) = User /\ ri a = reads
  end.

(** The numbers that have been drawn. *)
Definition w_draws (a : pst) : Z :=
  Z.of_nat (wi a) - 1 +
  match wp a with
  | WIn => if after_draw (at_ (zw a)) then 1 else 0
  | WPub _ | WPubH | WPubR | WOut | WLoad | WStore => 1
  | _ => 0
  end.
Definition r_draws (a : pst) : Z :=
  Z.of_nat (ri a) +
  match rp a with
  | RIn => if after_draw (at_ (zr a)) then 1 else 0
  | RDone => 0
  | _ => 1
  end.
Definition draws (a : pst) : Z := w_draws a + r_draws a.

Definition port_ok (a : pst) : Prop :=
  inv (core_id true) (core_id false) (zw a) (zr a) /\ writer_ok a /\ reader_ok a /\
  numbers_le (draws a) (zw a) /\ numbers_le (draws a) (zr a).

Lemma draws_bound a : writer_ok a -> reader_ok a -> 0 <= draws a < 0xFFFFFFFF.
Proof.
  intros (Hw&Hd&Hp) (_&_&_&_&Hr&Hq&_). pose proof pt_few. unfold draws, w_draws, r_draws.
  assert (wp a <> WDone -> Z.of_nat (wi a) < Z.of_nat (length samples)) as Hd' by (intros; apply inj_lt; auto).
  assert (rp a <> RDone -> Z.of_nat (ri a) < Z.of_nat reads) as Hq' by (intros; apply inj_lt; auto).
  destruct (wp a), (rp a); try (specialize (Hd' ltac:(done))); try (specialize (Hq' ltac:(done)));
    repeat match goal with |- context [if ?b then _ else _] => destruct b end; lia.
Qed.

(** Steps of the writer that leave the lock alone. *)
Lemma w_go_ok a i q :
  port_ok a -> writer_ok (w_upd a i q (zw a) (sch a)) ->
  w_draws (w_upd a i q (zw a) (sch a)) = w_draws a ->
  port_ok (w_upd a i q (zw a) (sch a)).
Proof.
  intros (Hi&Hw&Hr&Hn) Hw' Hd. unfold port_ok, draws. rewrite Hd.
  split; [done|]. split; [done|]. split; done.
Qed.

(** Steps of the writer in the routines of the lock. *)
Lemma w_lock_ok a :
  port_ok a -> wp a = WIn \/ wp a = WOut -> port_ok (w_step a).
Proof.
  intros (Hi&Hw&Hr&Hn1&Hn2) Hq. pose proof (draws_bound a Hw Hr) as Hb.
  set (z := core_step (core_id true) (core_id false) (zw a) (zr a)).
  set (q := match at_ z with CS => WPub WH | User => WLoad | _ => wp a end).
  assert (w_step a = w_upd a (wi a) q z (sch a)) as -> by (unfold w_step, q; by destruct Hq as [-> | ->]).
  pose proof Hi as ([Hok _]&_). pose proof Hw as (Hw1&Hw2&Hw3).
  pose proof (core_busy (core_id true) (core_id false) (zw a) (zr a)) as Hbusy. fold z in Hbusy.
  assert (writer_ok (w_upd a (wi a) q z (sch a)) /\ w_draws a <= w_draws (w_upd a (wi a) q z (sch a)) /\
          (at_ (zw a) = RdN -> w_draws a + 1 <= w_draws (w_upd a (wi a) q z (sch a)))) as (G1&G2&G3).
  { unfold writer_ok, w_draws, q. cbn [w_upd wi wp zw sch pub].
    destruct Hq as [Eq|Eq]; rewrite Eq in *.
    - destruct Hw3 as (Hacq&Hnb&Hs&Hpub).
      destruct (acquire_next (core_id true) (core_id false) (zw a) (zr a) Hok Hacq) as (A1&A2&A3).
      fold z in A1, A2, A3. assert (wi a < length samples)%nat by (by apply Hw2).
      destruct A1 as [Ez|Ez].
      + rewrite Ez. split; [auto 8|]. split; [destruct (after_draw _); lia|].
        intros E. rewrite E. cbn. lia.
      + assert (match at_ z with CS => WPub WH | User => WLoad | _ => WIn end = WIn) as -> by (by destruct (at_ z)).
        split; [auto 8|]. split.
        * destruct (after_draw (at_ (zw a))); [rewrite A2 by done; lia|destruct (after_draw (at_ z)); lia].
        * intros E. rewrite A3, E by done. cbn. lia.
    - destruct Hw3 as (Hrel&Hnb&Hs&Hpub). assert (wi a < length samples)%nat by (by apply Hw2).
      assert (at_ (zw a) <> RdN) as Hne by (by destruct (at_ (zw a))).
      destruct (release_next (core_id true) (core_id false) (zw a) (zr a) Hok Hrel Hnb) as [[Ez Ec]|Ez];
        fold z in Ez.
      { fold z in Ec. rewrite Ez. split; [auto 8|]. split; [lia|done]. }
      assert (match at_ z with CS => WPub WH | User => WLoad | _ => WOut end = WOut) as -> by (by destruct (at_ z)).
      split; [auto 8|]. split; [lia|done]. }
  destruct (lock_step_ok (core_id true) (core_id false) (draws a) (draws (w_upd a (wi a) q z (sch a)))
              (zw a) (zr a)) as (L1&L2&L3); try done.
  - apply lk_ids.
  - unfold draws, r_draws in *. cbn [w_upd ri rp zr] in *. lia.
  - intros E. specialize (G3 E). unfold draws, r_draws in *. cbn [w_upd ri rp zr] in *. lia.
Qed.

(** The writer starts a transfer of its own or calls the lock. *)
Lemma w_own_ok a q z sc :
  port_ok a -> inv (core_id true) (core_id false) z (zr a) -> numbers_le (draws a) z ->
  writer_ok (w_upd a (wi a) q z sc) -> w_draws (w_upd a (wi a) q z sc) = w_draws a ->
  port_ok (w_upd a (wi a) q z sc).
Proof.
  intros (Hi&Hw&Hr&Hn1&Hn2) Hz Hnz Hw' Hd. unfold port_ok, draws. rewrite Hd. auto 6.
Qed.

Lemma w_step_ok a : port_ok a -> port_ok (w_step a).
Proof.
  intros Ha. pose proof Ha as (Hi&Hw&Hr&Hn1&Hn2). pose proof Hw as (Hw1&Hw2&Hw3).
  pose proof (draws_bound a Hw Hr) as Hb. pose proof pt_len as Hlen.
  destruct (wp a) as [j| |[]| | | |[]| | | | | |] eqn:Eq; try (apply w_lock_ok; auto; fail);
    try (specialize (Hw2 ltac:(done))); unfold w_step; rewrite Eq.
  (* the steps that change the program point only *)
  all: try (apply w_go_ok; [done| |unfold w_draws; cbn [w_upd wi wp]; rewrite Eq; try done];
            unfold writer_ok; cbn [w_upd wi wp zw sch pub]; auto 9; fail).
  - apply w_go_ok; [done| |unfold w_draws; cbn [w_upd wi wp]; rewrite Eq; by destruct (decide _)].
    unfold writer_ok; cbn [w_upd wi wp zw sch pub]. destruct (decide (S j < len)%nat); intuition done.
  - destruct Hw3 as (Eu&Ec&Es&Ep). apply w_own_ok; [done| |by destruct Hn1| |unfold w_draws; cbn; by rewrite Eq].
    + apply inv_with_ch; [done|by rewrite Eu|auto].
    + unfold writer_ok. cbn. split; [done|]. split; [done|]. repeat (split; [done|]). lia.
  - destruct (free (zw a)) eqn:Ef.
    + destruct Hw3 as (Eu&Ep&Es). assert (sch a = None /\ ch (zw a) = Idle) as [Es' Ec].
      { unfold free in Ef. destruct (sch a) as [[b m]|]; [destruct Es as (_&Es&_); by rewrite Es in Ef|done]. }
      destruct (call_ok (core_id true) (core_id false) (draws a) (zw a) (zr a)) as [C1 C2];
        [apply lk_ids|done|done|done|lia|by rewrite Eu|]. rewrite Eu in C1, C2.
      apply w_own_ok; [done|done|done| |unfold w_draws; cbn; by rewrite Eq].
      unfold writer_ok. cbn. rewrite Ec. auto 8.
    + apply w_go_ok; [done| |unfold w_draws; cbn [w_upd wi wp]; by rewrite Eq].
      unfold writer_ok; cbn [w_upd wi wp zw sch pub]. auto 9.
  - destruct (free (zw a)) eqn:Ef; (apply w_go_ok; [done| |unfold w_draws; cbn [w_upd wi wp]; by rewrite Eq]);
      unfold writer_ok; cbn [w_upd wi wp zw sch pub]; unfold free in Ef; destruct (ch (zw a)); intuition done.
  - destruct Hw3 as (Eu&Enb&Es&Ep&Ec). apply w_own_ok; [done| |by destruct Hn1| |unfold w_draws; cbn; by rewrite Eq].
    + apply inv_with_ch; [done|by rewrite Eu|auto].
    + unfold writer_ok. cbn. auto 9.
  - destruct (free (zw a)) eqn:Ef.
    + destruct Hw3 as (Eu&Es). assert (sch a = None /\ ch (zw a) = Idle /\ wi a = pub a) as (Es'&Ec&Ep).
      { unfold free in Ef. destruct (sch a) as [[b m]|]; [destruct Es as (_&Es&_); by rewrite Es in Ef|].
        by destruct Es. }
      destruct (call_ok (core_id true) (core_id false) (draws a) (zw a) (zr a)) as [C1 C2];
        [apply lk_ids|done|done|done|lia|by rewrite Eu|]. rewrite Eu in C1, C2.
      apply w_own_ok; [done|done|done| |unfold w_draws; cbn; by rewrite Eq].
      unfold writer_ok. cbn. rewrite Ec. auto 8.
    + apply w_go_ok; [done| |unfold w_draws; cbn [w_upd wi wp]; by rewrite Eq].
      unfold writer_ok; cbn [w_upd wi wp zw sch pub]. auto 9.
  - apply w_go_ok; [done| |].
    + unfold writer_ok, w_start. cbn [w_upd wi wp zw sch pub].
      destruct (decide (S (wi a) < length samples)%nat); cbn; intuition lia.
    + unfold w_draws, w_start. cbn [w_upd wi wp]. rewrite Eq. destruct (decide _); lia.
  - done.
Qed.

(** *** Steps of the reader *)

Lemma port_ok_reader a a' :
  port_ok a -> wi a' = wi a -> wp a' = wp a -> zw a' = zw a -> sch a' = sch a -> pub a' = pub a ->
  inv (core_id false) (core_id true) (zr a') (zw a) -> reader_ok a' ->
  numbers_le (draws a') (zr a') -> r_draws a <= r_draws a' -> port_ok a'.
Proof.
  intros (Hi&Hw&Hr&Hn1&Hn2) E1 E2 E3 E4 E5 Hi' Hr' Hn' Hd. unfold port_ok, writer_ok.
  rewrite E1, E2, E3, E4, E5. split; [by apply inv_sym|]. split; [done|]. split; [done|].
  split; [|done]. eapply numbers_weaken; [|done].
  unfold draws, w_draws in *. rewrite E1, E2, E3. lia.
Qed.

Lemma r_lock_ok a :
  port_ok a -> rp a = RIn \/ rp a = ROut -> port_ok (r_step a).
Proof.
  intros Ha Hq. pose proof Ha as (Hi&Hw&Hr&Hn1&Hn2). pose proof (draws_bound a Hw Hr) as Hb.
  set (z := core_step (core_id false) (core_id true) (zr a) (zw a)).
  set (q := match at_ z with CS => RNewest | User => RGet 0 | _ => rp a end).
  assert (r_step a = r_upd a (ri a) q z (seen a) (log a)) as -> by (unfold r_step, q; by destruct Hq as [-> | ->]).
  pose proof Hi as (_&[Hok _]&_). pose proof Hr as (Hr1&Hr2&Hr3&Hr4&Hr5&Hr6&Hr7).
  pose proof (core_busy (core_id false) (core_id true) (zr a) (zw a) Hr1) as Hbusy. fold z in Hbusy.
  pose proof pt_len as Hlen.
  assert (reader_ok (r_upd a (ri a) q z (seen a) (log a)) /\
          r_draws a <= r_draws (r_upd a (ri a) q z (seen a) (log a)) /\
          (at_ (zr a) = RdN -> r_draws a + 1 <= r_draws (r_upd a (ri a) q z (seen a) (log a)))) as (G1&G2&G3).
  { unfold reader_ok, r_draws, q. cbn [r_upd ri rp zr seen log pub].
    destruct Hq as [Eq|Eq]; rewrite Eq in *; specialize (Hr6 ltac:(done)).
    - destruct (acquire_next (core_id false) (core_id true) (zr a) (zw a) Hok Hr7) as (A1&A2&A3).
      fold z in A1, A2, A3. destruct A1 as [Ez|Ez].
      + rewrite Ez. split; [auto 9|]. split; [destruct (after_draw _); lia|].
        intros E. rewrite E. cbn. lia.
      + assert (match at_ z with CS => RNewest | User => RGet 0 | _ => RIn end = RIn) as -> by (by destruct (at_ z)).
        split; [auto 9|]. split.
        * destruct (after_draw (at_ (zr a))); [rewrite A2 by done; lia|destruct (after_draw (at_ z)); lia].
        * intros E. rewrite A3, E by done. cbn. lia.
    - destruct Hr7 as (Hrel&Hs1&Hs2). assert (at_ (zr a) <> RdN) as Hne by (by destruct (at_ (zr a))).
      destruct (release_next (core_id false) (core_id true) (zr a) (zw a) Hok Hrel Hr1) as [[Ez Ec]|Ez];
        fold z in Ez.
      { rewrite Ez. split; [auto 12|]. split; [lia|done]. }
      assert (match at_ z with CS => RNewest | User => RGet 0 | _ => ROut end = ROut) as -> by (by destruct (at_ z)).
      split; [auto 12|]. split; [lia|done]. }
  destruct (lock_step_ok (core_id false) (core_id true) (draws a) (draws (r_upd a (ri a) q z (seen a) (log a)))
              (zr a) (zw a)) as (L1&L2&L3); try done.
  - by apply not_eq_sym, lk_ids.
  - by apply inv_sym.
  - unfold draws, w_draws in *. cbn [r_upd wi wp zw] in *. lia.
  - intros E. specialize (G3 E). unfold draws, w_draws in *. cbn [r_upd wi wp zw] in *. lia.
  - by apply (port_ok_reader a).
Qed.

Lemma bounded_le n m l : (n <= m)%nat -> bounded n l -> bounded m l.
Proof. intros Hnm Hl. eapply List.Forall_impl; [|exact Hl]. cbn. lia. Qed.

Lemma ascending_snoc l x : ascending l -> bounded x l -> ascending (l ++ [x]).
Proof.
  intros Hl Hx i j u v Hij Hu Hv.
  assert (j < length l \/ j = length l)%nat as [Hj| ->].
  { apply lookup_lt_Some in Hv. rewrite length_app in Hv. cbn in Hv. lia. }
  - rewrite lookup_app_l in Hu, Hv by lia. by apply (Hl i j).
  - rewrite list_lookup_middle in Hv by done. injection Hv as <-.
    destruct (decide (i < length l)%nat) as [Hi|Hi].
    + rewrite lookup_app_l in Hu by lia. unfold bounded in Hx. by eapply Forall_lookup_1 in Hx.
    + replace i with (length l) in Hu by lia. rewrite list_lookup_middle in Hu by done. by injection Hu as <-.
Qed.

Ltac reader_goals a Eq :=
  apply (port_ok_reader a); try done; try (by apply inv_sym);
  [..|unfold draws, r_draws in *; cbn; rewrite Eq in *; try done; lia]; try done;
  try (unfold draws, r_draws in *; cbn; by rewrite Eq in * );
  try (unfold reader_ok; cbn; auto 12; fail).

Lemma r_step_ok a : port_ok a -> port_ok (r_step a).
Proof.
  intros Ha. pose proof Ha as (Hi&Hw&Hr&Hn1&Hn2). pose proof Hr as (Hr1&Hr2&Hr3&Hr4&Hr5&Hr6&Hr7).
  pose proof (draws_bound a Hw Hr) as Hb. pose proof pt_len as Hlen.
  assert (user_runs (at_ (zr a)) = true ->
    inv (core_id false) (core_id true) (goto (zr a) (call (at_ (zr a)))) (zw a) /\
    numbers_le (draws a) (goto (zr a) (call (at_ (zr a))))) as Hcall.
  { intros Hu. apply call_ok; [by apply not_eq_sym, lk_ids|by apply inv_sym|done|done|lia|done]. }
  destruct (rp a) as [| |j|j| |j|] eqn:Eq; try (apply r_lock_ok; auto; fail);
    try (specialize (Hr6 ltac:(done))); unfold r_step; rewrite Eq.
  - by reader_goals a Eq.
  - by reader_goals a Eq.
  - destruct Hr7 as (Eu&Hj&Es). rewrite Eu in Hcall. destruct (Hcall ltac:(done)) as [C1 C2].
    destruct (decide (S j < len)%nat); [by reader_goals a Eq|].
    reader_goals a Eq. unfold reader_ok. cbn. rewrite Es. auto 12.
  - destruct Hr7 as (Eu&Hj&Es&Hl). rewrite Eu in Hcall. destruct (Hcall ltac:(done)) as [C1 C2].
    destruct (decide (S j < len)%nat); [by reader_goals a Eq|].
    + assert (reader_ok (r_upd a (S (ri a)) (r_start (S (ri a)))
                (match r_start (S (ri a)) with RIn => goto (zr a) Ent | _ => zr a end) (seen a)
                (log a ++ [seen a]))) as Hok.
      { unfold reader_ok, r_start. cbn [r_upd ri rp zr seen log pub].
        rewrite length_app. cbn [length]. destruct (decide (S (ri a) < reads)%nat); cbn;
          (split; [done|]); (split; [lia|]); (split; [by apply ascending_snoc|]);
          (split; [apply Forall_app; split; [done|repeat constructor; lia]|]);
          (split; [lia|]); (split; [done|]); try done. split; [done|lia]. }
      assert (r_draws (r_upd a (S (ri a)) (r_start (S (ri a)))
                (match r_start (S (ri a)) with RIn => goto (zr a) Ent | _ => zr a end) (seen a)
                (log a ++ [seen a])) = r_draws a) as Hd.
      { unfold r_draws, r_start. cbn [r_upd ri rp zr]. rewrite Eq. destruct (decide _); cbn; lia. }
      cbv zeta. apply (port_ok_reader a); try done.
      * unfold r_start. cbn [r_upd zr]. destruct (decide _); [done|by apply inv_sym].
      * unfold draws. rewrite Hd. unfold r_start. cbn [r_upd zr].
        change (w_draws (r_upd _ _ _ _ _ _)) with (w_draws a).
        destruct (decide _); done.
      * lia.
  - done.
Qed.

(** *** Steps of the network *)

(** Where the writer is while a transfer of its own is under way. *)
Lemma transfer_point a b m :
  writer_ok a -> sch a = Some (b, m) ->
  (wi a < length samples)%nat /\ ch (zw a) = Busy /\ user_runs (at_ (zw a)) = true /\
  ((b = false /\ (wp a = WWaitH \/ wp a = WWaitR) /\ at_ (zw a) = User /\ wi a = S (pub a) /\
    0 <= m <= Z.of_nat len) \/
   (b = true /\ (wp a = WPubH \/ wp a = WPubR) /\ at_ (zw a) = CS /\
    ((m = 0 /\ wi a = S (pub a)) \/ (m = 1 /\ wi a = pub a)))).
Proof.
  intros (_&H2&H3) Es. rewrite Es in H3.
  destruct (wp a) as [j| |[]| | | |[]| | | | | |]; try (exfalso; intuition done);
    specialize (H2 ltac:(done)); destruct H3 as (Eu&H3); rewrite Eu in *; intuition.
Qed.

Lemma no_transfer a : writer_ok a -> sch a = None -> ch (zw a) <> Busy.
Proof.
  intros (_&_&H3) Es. rewrite Es in H3.
  destruct (wp a) as [j| |[]| | | |[]| | | | | |]; intuition congruence.
Qed.

(** A newer sample: the reader is not in its critical section. *)
Lemma reader_newer a n :
  reader_ok a -> at_ (zr a) <> CS -> (pub a <= n)%nat ->
  reader_ok (P (wi a) (wp a) (ri a) (rp a) (zw a) (zr a) (sch a) n (seen a) (log a)).
Proof.
  intros (Hr1&Hr2&Hr3&Hr4&Hr5&Hr6&Hr7) Hc Hn. unfold reader_ok. cbn.
  repeat (split; [done|]). split; [by eapply bounded_le|]. repeat (split; [done|]).
  destruct (rp a); try done; intuition lia.
Qed.

Lemma net_idle x : ch x = Idle -> net_step x = x.
Proof. destruct x as [? ? ? ? ? []]; cbn; congruence. Qed.

Lemma net_w_ok a : port_ok a -> port_ok (net_w a).
Proof.
  intros Ha. pose proof Ha as (Hi&Hw&Hr&Hn1&Hn2). pose proof Hw as (Hw1&Hw2&Hw3).
  pose proof (draws_bound a Hw Hr) as Hb. pose proof Hi as ([Hok _]&_).
  unfold net_w. destruct (sch a) as [[b m]|] eqn:Es.
  - destruct (transfer_point a b m Hw Es) as (Hlt&Hc&Hu&Hq).
    destruct (Z.ltb_spec m (size_of b)) as [Hm|Hm].
    + destruct Hq as [(->&Hp&Eu&Ep&Hr')|(->&Hp&Eu&Hq)].
      * split; [done|]. split; [|split; [done|split; done]].
        unfold writer_ok, size_of in *. cbn [wi wp zw sch pub]. repeat (split; [done|]).
        destruct Hp as [-> | ->]; cbn; repeat (split; [done|]); lia.
      * assert (m = 0) as -> by (unfold size_of in Hm; lia).
        destruct Hq as [[_ Ep]|[? _]]; [|lia].
        split; [done|]. split; [|split; [|split; done]].
        -- unfold writer_ok. cbn [wi wp zw sch pub]. repeat (split; [done|]).
           destruct Hp as [-> | ->]; cbn; auto 8.
        -- apply (reader_newer a (wi a)); [done| |lia]. intros Ez.
           by apply (inv_mutex _ _ _ _ Hi lk_ids).
    + apply w_own_ok; [done|by apply inv_with_ch; auto|by destruct Hn1| |].
      * unfold writer_ok. cbn [w_upd wi wp zw sch pub with_ch at_ ch]. repeat (split; [done|]).
        destruct Hq as [(->&Hp&Eu&Ep&Hr')|(->&Hp&Eu&Hq)].
        -- destruct Hp as [-> | ->]; done.
        -- unfold size_of in Hm. destruct Hq as [[-> _]|[_ Ep]]; [lia|]. destruct Hp as [-> | ->]; done.
      * unfold w_draws. cbn. destruct Hq as [(->&[-> | ->]&_)|(->&[-> | ->]&_)]; done.
  - pose proof (no_transfer a Hw Es) as Hnb. pose proof (net_busy (zw a) Hnb) as Hnb'.
    split; [by apply net_inv|]. split; [|split; [done|]].
    + unfold writer_ok. cbn [w_upd wi wp zw sch pub]. rewrite net_at.
      split; [done|]. split; [done|].
      destruct (wp a) as [j| |[]| | | |[]| | | | | |]; try (rewrite net_idle by intuition done; intuition done); intuition done.
    + assert (draws (w_upd a (wi a) (wp a) (net_step (zw a)) None) = draws a) as ->.
      { unfold draws, w_draws, r_draws. cbn. by rewrite net_at. }
      split; [apply net_numbers; [done|lia|done]|done].
Qed.

Lemma net_r_ok a : port_ok a -> port_ok (net_r a).
Proof.
  intros Ha. pose proof Ha as (Hi&Hw&Hr&Hn1&Hn2). pose proof Hr as (Hr1&Hr2).
  pose proof (draws_bound a Hw Hr) as Hb. pose proof Hi as (_&[Hok _]&_).
  assert (r_draws (net_r a) = r_draws a) as Hd by (unfold r_draws, net_r; cbn; by rewrite net_at).
  apply (port_ok_reader a); try done.
  - cbn. by apply net_inv, inv_sym.
  - unfold reader_ok. cbn. rewrite net_at. split; [by apply net_busy|done].
  - unfold draws. rewrite Hd. apply net_numbers; [done| |done]. exact (proj1 Hb).
  - lia.
Qed.

Lemma p_step_ok a c : port_ok a -> port_ok (p_step a c).
Proof.
  destruct c as [[] t|[]]; [apply w_step_ok|apply r_step_ok|apply net_w_ok|apply net_r_ok].
Qed.

End Automaton.

(** ** The memory of a port *)

Section Memory.
Context `{Port}.

Definition send_dst (i : nat) : Z := u32 (read_bufs dw + u32 (buf_no i * sample_size dw)).

(** The words of the port that hold samples, in the scratchpads [m] of the writer and [r] of
    the reader. *)
Definition fill_ok (a : pst) (m r : Z -> Z) : Prop :=
  let s := sample (wi a) in
  match wp a with
  | WFill j => stored m kx s j
  | WNext | WSend _ => stored m kx s len
  | WWaitH | WWaitR =>
      match sch a with
      | Some (_, k) => stored m kx s len /\ stored r (buf (wi a)) s (Z.to_nat k)
      | None => stored r (buf (wi a)) s len
      end
  | WIn | WPub _ | WPubH | WPubR => stored r (buf (wi a)) s len
  | _ => True
  end.

Definition copy_ok (a : pst) (r : Z -> Z) : Prop :=
  match rp a with
  | RCopy j | RPut j => stored r ky (sample (seen a)) j
  | ROut | RGet _ => stored r ky (sample (seen a)) len
  | _ => True
  end.

Definition words_ok (a : pst) (m r : Z -> Z) : Prop :=
  m (word_addr kn) = buf_no (wi a) /\ r (word_addr km) = buf_no (pub a) /\
  stored r (buf (pub a)) (sample (pub a)) len /\ fill_ok a m r /\ copy_ok a r.

(** The DMA entry of the writer. *)
Definition dma_ok (a : pst) (c : ni) : Prop :=
  match wp a with
  | WSend WS1 => io c DMA_BANK (entry0 true) = dma0 (send_dst (wi a))
  | WPub WS1 => io c DMA_BANK (entry0 true) = dma0 (word_addr km)
  | WWaitH | WWaitR =>
      match sch a with
      | Some (_, k) => transfer true (buf (wi a)) kx (Z.of_nat len) c /\ moved c = k
      | None => True
      end
  | WPubH | WPubR =>
      match sch a with Some (_, k) => transfer true km kn 1 c /\ moved c = k | None => True end
  | _ => True
  end.

Definition port_mem (a : pst) (w : world) : Prop :=
  Lock.mem_ok true (zw a) w /\ Lock.mem_ok false (zr a) w /\
  words_ok a (spm (w true)) (spm (w false)) /\ dma_ok a (w true).

(** *** Different words *)

Lemma stored_keep m m' k ws n :
  stored m k ws n ->
  (forall j, (j < n)%nat -> m' (word_addr (k + Z.of_nat j)) = m (word_addr (k + Z.of_nat j))) ->
  stored m' k ws n.
Proof. intros Hm E j Hj. rewrite E by done. by apply Hm. Qed.

(** The words of the port are not those of the locks. *)
Lemma words_keep a m r m' r' :
  port_ok a -> words_ok a m r ->
  (forall k, ~ lock_word true k -> m' (word_addr k) = m (word_addr k)) ->
  (forall k, ~ lock_word false k -> r' (word_addr k) = r (word_addr k)) ->
  words_ok a m' r'.
Proof.
  intros Ha (D1&D2&D3&D4&D5) Hm Hr. pose proof pt_w as (Hw0&Hw1&Hw2&Hw3).
  pose proof pt_r as (Hr0&Hr1&Hr2&Hr3&Hr4&Hr5&Hr6). unfold lock_word in *.
  assert (forall ws n, (n <= len)%nat -> stored m kx ws n -> stored m' kx ws n) as Hx.
  { intros ws n Hn Hs. eapply stored_keep; [done|]. intros j Hj. apply Hm. lia. }
  assert (forall ws n, (n <= len)%nat -> stored r ky ws n -> stored r' ky ws n) as Hy.
  { intros ws n Hn Hs. eapply stored_keep; [done|]. intros j Hj. apply Hr. lia. }
  assert (forall i ws n, (n <= len)%nat -> stored r (buf i) ws n -> stored r' (buf i) ws n) as Hb.
  { intros i ws n Hn Hs. eapply stored_keep; [done|]. intros j Hj. apply Hr. pose proof (buf_range i). lia. }
  destruct Ha as (_&(_&_&Hw)&(_&_&_&_&_&_&Hq)&_).
  split; [rewrite Hm by lia; done|]. split; [rewrite Hr by lia; done|]. split; [by apply Hb|]. split.
  - unfold fill_ok in *. destruct (wp a); auto; try (apply Hx; [lia|done]);
      (destruct (sch a) as [[b k]|]; [destruct D4; split; auto; apply Hb; [destruct Hw as (_&_&_&_&Hw); lia|done]|auto]).
  - unfold copy_ok in *. destruct (rp a); auto; apply Hy; done || lia.
Qed.

Lemma buf_next_ne i x y :
  0 <= x < Z.of_nat len -> 0 <= y < Z.of_nat len -> buf (S i) + x <> buf i + y.
Proof.
  intros Hx Hy. pose proof (buf_no_range i). unfold buf.
  assert (buf_no (S i) = 1 - buf_no i) as ->
    by (unfold buf_no in *; rewrite Nat2Z.inj_succ; zdm).
  assert (buf_no i = 0 \/ buf_no i = 1) as [-> | ->] by lia; lia.
Qed.

(** The DMA entries of the two transfers. *)
Lemma dma_transfer k src n c :
  io c DMA_BANK (entry0 true) = dma0 (word_addr k) ->
  io c DMA_BANK (entry1 true) = dma1 (word_addr src) (4 * n) ->
  0 <= k < 0x4000 -> 0 <= src < 0x4000 -> 0 <= n < 0x4000 ->
  transfer true k src n c.
Proof.
  intros E0 E1 Hk Hs Hn. unfold transfer. rewrite E0, E1. unfold dma0, dma1, word_addr.
  rewrite !word_offset by done. split; [apply entry_write_ptr; unfold DATA_PKT_TYPE; lia|].
  assert (u16 (W (4 * n)) = n) as -> by (unfold W; zdm).
  rewrite entry_read by lia. repeat (split; [done|]). lia.
Qed.

Lemma send_dst_word i : send_dst i = word_addr (buf i).
Proof. unfold send_dst. rewrite (proj1 pt_bufs), (proj1 pt_size). apply buf_address. Qed.

(** *** Steps of the writer *)

Definition w_follows (a : pst) (x : prog (list (list Z)) * world) : Prop :=
  let a' := w_step a in
  fst x = code_w (wi a') (wp a') (at_ (zw a')) /\ port_mem a' (snd x).

Lemma dma_entries : s_remote dw << 1 = entry0 true /\ (s_remote dw << 1) + 1 = entry1 true.
Proof. rewrite pt_remote. done. Qed.

Lemma free_status z w : Lock.mem_ok true z w -> idle (io (w true) DMA_BANK (entry1 true)) = free z.
Proof. intros Hz. rewrite (status_idle true z w Hz). unfold free. by destruct (ch z). Qed.

(** The memory stays. *)
Lemma mem_stays a i q w :
  port_mem a w -> buf_no i = buf_no (wi a) ->
  fill_ok (w_upd a i q (zw a) (sch a)) (spm (w true)) (spm (w false)) ->
  dma_ok (w_upd a i q (zw a) (sch a)) (w true) ->
  port_mem (w_upd a i q (zw a) (sch a)) w.
Proof.
  intros (M1&M2&(D1&D2&D3&_&D5)&_) Ei Hf Hd. split; [done|]. split; [done|]. split; [|done].
  unfold words_ok. cbn [w_upd wi pub]. rewrite Ei. auto.
Qed.

(** A store of the writer into a word [k] that is not of the lock. *)
Lemma writer_store a q k v w :
  port_ok a -> port_mem a w -> ~ lock_word true k -> k <> kn ->
  let m := put (spm (w true)) (word_addr k) v in
  let a' := w_upd a (wi a) q (zw a) (sch a) in
  fill_ok a' m (spm (w false)) -> dma_ok a' (w true) ->
  port_mem a' (set_ni w true (NI m (io (w true)) (moved (w true)))).
Proof.
  intros Ha (M1&M2&(D1&D2&D3&_&D5)&_) Hl Hn m a' Hf Hd.
  assert (forall b k', lock_word b k' ->
    spm (set_ni w true (NI m (io (w true)) (moved (w true))) b) (word_addr k') = spm (w b) (word_addr k')) as Hk.
  { intros [] k' Hk'; cbn; [|done]. unfold m. rewrite put_word_ne; [done|]. congruence. }
  split; [by apply (mem_keep true _ w)|]. split; [by apply (mem_keep false _ w)|]. split; [|done].
  unfold words_ok. cbn [set_ni Bool.eqb spm a' w_upd wi pub]. unfold m at 1. rewrite put_word_ne by auto. auto.
Qed.

(** A write of the writer into its DMA entry. *)
Lemma writer_io a q i v w c sc :
  port_ok a -> port_mem a w -> user_runs (at_ (zw a)) = true -> ch (zw a) = Idle ->
  i = entry0 true /\ c = Idle \/ i = entry1 true /\ c = Busy /\ idle v = false ->
  let n := NI (spm (w true)) (fun b' => if b' =? DMA_BANK then put (io (w true) DMA_BANK) i v else io (w true) b')
             (if (DMA_BANK =? DMA_BANK) && (i =? entry1 true) then 0 else moved (w true)) in
  let a' := w_upd a (wi a) q (with_ch (zw a) c) sc in
  fill_ok a' (spm (w true)) (spm (w false)) -> dma_ok a' n ->
  port_mem a' (set_ni w true n).
Proof.
  intros Ha (M1&M2&(D1&D2&D3&_&D5)&_) Hu Hc Hi n a' Hf Hd.
  pose proof (status_idle true (zw a) w M1) as Hst. rewrite Hc in Hst.
  split; [|split; [|split; [|done]]].
  - apply (mem_client true (zw a) c w); try done.
    + rewrite set_ni_eq. cbn [io n]. rewrite Z.eqb_refl.
      destruct Hi as [[-> ->]|(->&->&Hv)]; [|by rewrite put_eq].
      rewrite put_ne by (unfold entry0, entry1; lia). done.
    + destruct Hi as [[_ ->]|(_&->&_)]; auto.
  - by apply (mem_keep false _ w); [|intros [] k _|..].
  - unfold words_ok. cbn. auto.
Qed.

(** Steps in the routines of the lock. *)
Lemma w_lock_follows a t w :
  port_ok a -> port_mem a w -> wp a = WIn \/ wp a = WOut ->
  w_follows a (access true t (code_w (wi a) (wp a) (at_ (zw a))) w).
Proof.
  intros Ha Hm Hq. pose proof Ha as (Hi&(_&_&Hw)&_). pose proof Hm as (M1&M2&Hd&_).
  pose proof Hi as ([Hok _]&_).
  assert (user_runs (at_ (zw a)) = false) as Hu.
  { destruct Hq as [E|E]; rewrite E in Hw; destruct (at_ (zw a)); intuition done. }
  assert (code_w (wi a) (wp a) (at_ (zw a)) =
          code_of (core_id true) (lk true) (w_pub (wi a) WH) (w_tail (wi a)) (at_ (zw a))) as ->
    by (by destruct Hq as [-> | ->]).
  destruct (core_follows (w_pub (wi a) WH) (w_tail (wi a)) true t (zw a) (zr a) w) as (F1&F2&F3);
    [by destruct (at_ (zw a))|by destruct (at_ (zw a))|done|done|done|]. cbn [negb] in *.
  destruct (lock_frame (w_pub (wi a) WH) (w_tail (wi a)) true t (at_ (zw a)) w Hu) as [G1 G2]. cbn [negb] in *.
  set (xw := access true t _ w) in *. unfold w_follows.
  set (z := core_step (core_id true) (core_id false) (zw a) (zr a)) in *.
  assert (w_step a = w_upd a (wi a) (match at_ z with CS => WPub WH | User => WLoad | _ => wp a end) z (sch a)) as ->
    by (unfold w_step; by destruct Hq as [-> | ->]).
  cbn [w_upd wi wp zw]. split.
  - rewrite F1. destruct (at_ z); try done; by destruct Hq as [-> | ->].
  - split; [done|]. split; [done|].
    assert (words_ok a (spm (snd xw true)) (spm (snd xw false))) as (D1&D2&D3&D4&D5).
    { apply (words_keep a (spm (w true)) (spm (w false))); [done|done|done|]. intros k _. by rewrite G1. }
    assert (wp a = WIn -> acquiring (at_ z) = true \/ at_ z = CS) as Hacq.
    { intros E. rewrite E in Hw. destruct (acquire_next (core_id true) (core_id false) (zw a) (zr a)) as ([|]&_);
        [done|apply Hw|auto|auto]. }
    assert (wp a = WOut -> releasing (at_ z) = true \/ at_ z = User) as Hrel.
    { intros E. rewrite E in Hw.
      destruct (release_next (core_id true) (core_id false) (zw a) (zr a)) as [[]|]; [done|apply Hw|apply Hw|auto|auto]. }
    split.
    + unfold words_ok. cbn [w_upd wi pub]. repeat (split; [done|]). split; [|done].
      unfold fill_ok in *. cbn [w_upd wi wp sch]. destruct Hq as [E|E]; rewrite E in *.
      * destruct (Hacq eq_refl) as [E'|E']; [destruct (at_ z); done|by rewrite E'].
      * destruct (Hrel eq_refl) as [E'|E']; [destruct (at_ z); done|by rewrite E'].
    + unfold dma_ok. cbn [w_upd wi wp sch]. destruct Hq as [E|E]; rewrite E; by destruct (at_ z).
Qed.

Lemma with_ch_same z c : ch z = c -> with_ch z c = z.
Proof. destruct z. cbn. by intros ->. Qed.

(** The words of the port that the writer stores to or sends from. *)
Lemma writer_word j : (j < len)%nat -> ~ lock_word true (kx + Z.of_nat j) /\ kx + Z.of_nat j <> kn.
Proof. intros Hj. pose proof pt_w as (W0&W1&W2&W3). unfold lock_word. lia. Qed.

Lemma dma1_busy src n :
  0 <= src < 0x4000 -> 0 <= n < 0x4000 -> idle (dma1 (word_addr src) (4 * n)) = false.
Proof.
  intros Hs Hn. unfold dma1, word_addr. rewrite word_offset by done.
  assert (u16 (W (4 * n)) = n) as -> by (unfold W; zdm).
  rewrite entry_read by lia. apply Z.eqb_neq, entry_active; lia.
Qed.

(** The writer fills its buffer, sends it and waits for the end of the transfer. *)
Lemma w_fill_follows a t w j :
  port_ok a -> port_mem a w -> wp a = WFill j ->
  w_follows a (access true t (code_w (wi a) (wp a) (at_ (zw a))) w).
Proof.
  intros Ha Hm Eq. pose proof Ha as (Hi&(Hw1&Hw2&Hw3)&_). pose proof Hm as (M1&M2&(D1&D2&D3&D4&D5)&Hd).
  pose proof (free_status _ _ M1) as Hfree. pose proof dma_entries as [Ee0 Ee1].
  pose proof pt_w as ((W0&W1&W2)&_). pose proof pt_len as Hlen.
  unfold w_follows, w_step. rewrite Eq in *. specialize (Hw2 ltac:(done)).
  unfold fill_ok, dma_ok in D4, Hd. rewrite Eq in D4, Hd.
  rewrite fill_step by intuition. cbn [access fst snd]. split; [done|].
  destruct Hw3 as (Hj&_). destruct (writer_word j Hj) as [N1 N2].
  apply writer_store; [done|done|done|done| |].
  + unfold fill_ok. cbn [w_upd wi wp]. pose proof (stored_snoc _ _ _ _ D4) as D4'.
    destruct (decide (S j < len)%nat); [done|]. by replace len with (S j) by lia.
  + unfold dma_ok. cbn [w_upd wi wp]. by destruct (decide _).
Qed.

Lemma w_send_follows a t w p :
  port_ok a -> port_mem a w -> wp a = WSend p ->
  w_follows a (access true t (code_w (wi a) (wp a) (at_ (zw a))) w).
Proof.
  intros Ha Hm Eq. pose proof Ha as (Hi&(Hw1&Hw2&Hw3)&_). pose proof Hm as (M1&M2&(D1&D2&D3&D4&D5)&Hd).
  pose proof (free_status _ _ M1) as Hfree. pose proof dma_entries as [Ee0 Ee1].
  pose proof pt_w as ((W0&W1&W2)&_). pose proof pt_len as Hlen.
  destruct p;
    unfold w_follows, w_step; rewrite Eq in *;
    unfold fill_ok, dma_ok in D4, Hd; rewrite Eq in D4, Hd.
  all: try (split; [reflexivity|]; cbn [access snd]; apply mem_stays; [done|done| |];
            unfold fill_ok, dma_ok; cbn [w_upd wi wp sch]; auto; fail).
  - cbn [code_w]. unfold w_send. destruct (write_polls (s_remote dw) (send_dst (wi a)) (word_addr kx)
      (sample_size dw) (wait_loop (s_remote dw) (w_acquire (wi a)))) as (f&E&Hf).
    fold (send_dst (wi a)). rewrite E. cbn [access fst snd]. rewrite Hf, Ee1, Hfree.
    split; [done|]. apply mem_stays; [done|done| |]; unfold fill_ok, dma_ok; cbn [w_upd wi wp]; auto.
    by destruct (free (zw a)).
  - destruct Hw3 as (Eu&Ec&Es&Ep). cbn [code_w]. unfold w_send. cbn [write_code access fst snd].
    split; [done|]. rewrite Ee0. rewrite <- (with_ch_same (zw a) Idle Ec) at 1.
    apply writer_io; [done|done|by rewrite Eu|done|by left| |].
    + unfold fill_ok. cbn [w_upd wi wp]. done.
    + unfold dma_ok. cbn [w_upd wi wp io]. rewrite Z.eqb_refl. apply put_eq.
  - destruct Hw3 as (Eu&Ec&Es&Ep). cbn [code_w]. unfold w_send. cbn [write_code access fst snd].
    split; [done|]. rewrite Ee1, (proj1 pt_size). pose proof pt_r as (R0&_).
    apply writer_io; [done|done|by rewrite Eu|done|right| |].
    + repeat (split; [done|]). apply dma1_busy; lia.
    + unfold fill_ok. cbn [w_upd wi wp sch]. split; [done|]. intros j' Hj'. cbn in Hj'. lia.
    + unfold dma_ok. cbn [w_upd wi wp sch io moved]. rewrite !Z.eqb_refl. split; [|done].
      pose proof (buf_range (wi a)). apply dma_transfer; try lia.
      * cbn [io]. rewrite Z.eqb_refl, put_ne, Hd by (unfold entry0, entry1; lia). by rewrite send_dst_word.
      * cbn [io]. by rewrite Z.eqb_refl, put_eq.
Qed.

Lemma w_pub_follows a t w p :
  port_ok a -> port_mem a w -> wp a = WPub p ->
  w_follows a (access true t (code_w (wi a) (wp a) (at_ (zw a))) w).
Proof.
  intros Ha Hm Eq. pose proof Ha as (Hi&(Hw1&Hw2&Hw3)&_). pose proof Hm as (M1&M2&(D1&D2&D3&D4&D5)&Hd).
  pose proof (free_status _ _ M1) as Hfree. pose proof dma_entries as [Ee0 Ee1].
  pose proof pt_w as ((W0&W1&W2)&_). pose proof pt_len as Hlen.
  destruct p;
    unfold w_follows, w_step; rewrite Eq in *;
    unfold fill_ok, dma_ok in D4, Hd; rewrite Eq in D4, Hd.
  all: try (split; [reflexivity|]; cbn [access snd]; apply mem_stays; [done|done| |];
            unfold fill_ok, dma_ok; cbn [w_upd wi wp sch]; auto; fail).
  - cbn [code_w]. unfold w_pub. destruct (write_polls (s_remote dw) (newest_word (remote_spd dw)) (next_word pw)
      4 (wait_loop (s_remote dw) (w_release (wi a)))) as (f&E&Hf).
    rewrite E. cbn [access fst snd]. rewrite Hf, Ee1, Hfree.
    split; [done|]. apply mem_stays; [done|done| |]; unfold fill_ok, dma_ok; cbn [w_upd wi wp]; auto.
    by destruct (free (zw a)).
  - destruct Hw3 as (Eu&Enb&Es&Ep&Ec). cbn [code_w]. unfold w_pub. cbn [write_code access fst snd].
    split; [done|]. rewrite Ee0. rewrite <- (with_ch_same (zw a) Idle Ec) at 1.
    apply writer_io; [done|done|by rewrite Eu|done|by left| |].
    + unfold fill_ok. cbn [w_upd wi wp]. done.
    + unfold dma_ok. cbn [w_upd wi wp io]. rewrite Z.eqb_refl, (proj2 pt_newest). apply put_eq.
  - destruct Hw3 as (Eu&Enb&Es&Ep&Ec). cbn [code_w]. unfold w_pub. cbn [write_code access fst snd].
    split; [done|]. rewrite Ee1, pt_next. change 4 with (4 * 1). pose proof pt_r as (R0&_).
    apply writer_io; [done|done|by rewrite Eu|done|right| |].
    + repeat (split; [done|]). apply dma1_busy; lia.
    + unfold fill_ok. cbn [w_upd wi wp sch]. done.
    + unfold dma_ok. cbn [w_upd wi wp sch io moved]. rewrite !Z.eqb_refl. split; [|done].
      apply dma_transfer; try lia.
      * cbn [io]. by rewrite Z.eqb_refl, put_ne, Hd by (unfold entry0, entry1; lia).
      * cbn [io]. by rewrite Z.eqb_refl, put_eq.
Qed.

Lemma w_wait_follows a t w :
  port_ok a -> port_mem a w -> wp a = WWaitR \/ wp a = WPubR ->
  w_follows a (access true t (code_w (wi a) (wp a) (at_ (zw a))) w).
Proof.
  intros Ha Hm Eq. pose proof Ha as (Hi&(Hw1&Hw2&Hw3)&_). pose proof Hm as (M1&M2&(D1&D2&D3&D4&D5)&Hd).
  pose proof (free_status _ _ M1) as Hfree. pose proof dma_entries as [Ee0 Ee1].
  pose proof pt_w as ((W0&W1&W2)&_). pose proof pt_len as Hlen.
  destruct Eq as [Eq|Eq];
    unfold w_follows, w_step; rewrite Eq in *;
    unfold fill_ok, dma_ok in D4, Hd; rewrite Eq in D4, Hd.
  - destruct Hw3 as (Eu&Ep&Es). cbn [code_w].
    destruct (wait_polls (s_remote dw) (w_acquire (wi a))) as (f&E&Hf).
    rewrite E. cbn [access fst snd]. rewrite Hf, Ee1, Hfree. destruct (free (zw a)) eqn:Ef.
    + split; [reflexivity|]. assert (sch a = None) as Es'.
      { destruct (sch a) as [[b m]|]; [|done]. unfold free in Ef. destruct Es as (_&Es&_). by rewrite Es in Ef. }
      rewrite Es' in *. split; [|split; [done|split; [|done]]].
      * pose proof (mem_call true (zw a) w M1) as Hc. rewrite Eu in Hc. by apply Hc.
      * unfold words_ok, fill_ok. cbn [w_upd wi wp sch pub]. auto.
    + split; [done|]. apply mem_stays; [done|done| |]; unfold fill_ok, dma_ok; cbn [w_upd wi wp sch]; auto.
  - destruct Hw3 as (Eu&Es). cbn [code_w].
    destruct (wait_polls (s_remote dw) (w_release (wi a))) as (f&E&Hf).
    rewrite E. cbn [access fst snd]. rewrite Hf, Ee1, Hfree. destruct (free (zw a)) eqn:Ef.
    + split; [reflexivity|]. split; [|split; [done|split; [|done]]].
      * pose proof (mem_call true (zw a) w M1) as Hc. rewrite Eu in Hc. by apply Hc.
      * unfold words_ok, fill_ok. cbn [w_upd wi wp sch pub]. auto.
    + split; [done|]. apply mem_stays; [done|done| |]; unfold fill_ok, dma_ok; cbn [w_upd wi wp sch]; auto.
Qed.

(** The buffer number changes. *)
Lemma next_store a w :
  port_ok a -> port_mem a w -> wp a = WStore ->
  let m := put (spm (w true)) (word_addr kn) (buf_no (wi a) .^ 1) in
  port_mem (w_upd a (S (wi a)) (w_start (S (wi a))) (zw a) (sch a))
    (set_ni w true (NI m (io (w true)) (moved (w true)))).
Proof.
  intros Ha (M1&M2&(D1&D2&D3&_&D5)&_) Eq m. pose proof pt_w as (W0&W1&W2&W3).
  assert (forall b k', lock_word b k' ->
    spm (set_ni w true (NI m (io (w true)) (moved (w true))) b) (word_addr k') = spm (w b) (word_addr k')) as Hk.
  { intros [] k' Hk'; cbn; [|done]. unfold m, lock_word in *. rewrite put_word_ne; [done|]. lia. }
  split; [by apply (mem_keep true _ w)|]. split; [by apply (mem_keep false _ w)|]. split.
  - unfold words_ok. cbn [set_ni Bool.eqb spm w_upd wi pub]. split.
    + unfold m. rewrite put_eq. pose proof (buf_no_range (wi a)).
      assert (buf_no (S (wi a)) = 1 - buf_no (wi a)) as -> by (unfold buf_no in *; rewrite Nat2Z.inj_succ; zdm).
      assert (buf_no (wi a) = 0 \/ buf_no (wi a) = 1) as [-> | ->] by lia; done.
    + repeat (split; [done|]). split; [|done]. unfold fill_ok, w_start. cbn [w_upd wi wp].
      destruct (decide _); [intros j Hj; lia|done].
  - unfold dma_ok, w_start. cbn [w_upd wi wp]. by destruct (decide _).
Qed.

Lemma writer_follows a t w :
  port_ok a -> port_mem a w ->
  w_follows a (access true t (code_w (wi a) (wp a) (at_ (zw a))) w).
Proof.
  intros Ha Hm. pose proof Hm as (M1&M2&(D1&D2&D3&D4&D5)&Hd).
  destruct (wp a) as [j| |p| | | |p| | | | | |] eqn:Eq; rewrite <- Eq;
    eauto using w_fill_follows, w_send_follows, w_pub_follows, w_wait_follows, w_lock_follows;
    unfold w_follows, w_step; rewrite Eq in *;
    unfold fill_ok, dma_ok in D4, Hd; rewrite Eq in D4, Hd.
  all: try (split; [reflexivity|]; cbn [access snd]; apply mem_stays; [done|done| |];
            unfold fill_ok, dma_ok; cbn [w_upd wi wp sch]; auto; fail).
  - cbn [code_w]. unfold w_next. cbn [access fst snd]. rewrite pt_next, D1. split; [done|].
    apply mem_stays; [done|done| |]; unfold fill_ok, dma_ok; cbn [w_upd wi wp]; auto.
  - cbn [code_w]. unfold w_tail. cbn [access fst snd]. rewrite pt_next, D1. split; [by cbn [w_upd wi wp code_w]; rewrite pt_next|].
    apply mem_stays; [done|done| |]; unfold fill_ok, dma_ok; cbn [w_upd wi wp sch]; auto.
  - cbn [code_w access fst snd]. split; [apply writer_start|]. rewrite pt_next. by apply next_store.
  - split; [by rewrite Eq|]. done.
Qed.

(** *** Steps of the reader *)

Definition code_reader (a : pst) : prog (list (list Z)) :=
  code_r (ri a) (sample <$> log a) (seen a) (rp a) (at_ (zr a)).

Definition r_follows (a : pst) (x : prog (list (list Z)) * world) : Prop :=
  fst x = code_reader (r_step a) /\ port_mem (r_step a) (snd x).

(** The memory stays. *)
Lemma mem_stays_r a i q z sn lg w :
  port_mem a w -> Lock.mem_ok false z w ->
  copy_ok (r_upd a i q z sn lg) (spm (w false)) -> port_mem (r_upd a i q z sn lg) w.
Proof.
  intros (M1&M2&(D1&D2&D3&D4&_)&Hd) Hz Hc. split; [done|]. split; [done|]. split; [|done].
  unfold words_ok. auto.
Qed.

(** A store of the reader into its sample. *)
Lemma reader_store a q z j v w :
  port_ok a -> port_mem a w -> (j < len)%nat ->
  let r := put (spm (w false)) (word_addr (ky + Z.of_nat j)) v in
  let w' := set_ni w false (NI r (io (w false)) (moved (w false))) in
  let a' := r_upd a (ri a) q z (seen a) (log a) in
  (Lock.mem_ok false (zr a) w' -> Lock.mem_ok false z w') -> copy_ok a' r -> port_mem a' w'.
Proof.
  intros Ha (M1&M2&(D1&D2&D3&D4&_)&Hd) Hj r w' a' Hz Hc.
  pose proof pt_r as (R0&R1&R2&R3&R4&R5&R6).
  assert (forall b k, lock_word b k -> spm (w' b) (word_addr k) = spm (w b) (word_addr k)) as Hk.
  { intros [] k Hk; cbn; [done|]. unfold r, lock_word in *. rewrite put_word_ne; [done|]. lia. }
  assert (forall i ws n, (n <= len)%nat -> stored (spm (w false)) (buf i) ws n -> stored r (buf i) ws n) as Hb.
  { intros i ws n Hn Hs. apply stored_put; [done|]. intros j' Hj'. pose proof (buf_range i). lia. }
  split; [by apply (mem_keep true _ w)|]. split; [apply Hz; by apply (mem_keep false _ w)|]. split; [|done].
  unfold words_ok. cbn [a' w' set_ni Bool.eqb spm r_upd wi pub]. split; [done|].
  split; [unfold r; by rewrite put_word_ne by lia|]. split; [by apply Hb|]. split; [|done].
  destruct Ha as (_&(_&_&Hw)&_).
  change (fill_ok a (spm (w true)) r). unfold fill_ok in *. destruct (wp a); auto;
    (destruct (sch a) as [[b k]|]; [destruct D4; split; auto; apply Hb; [destruct Hw as (_&_&_&_&Hw); lia|done]|auto]).
Qed.

Lemma r_lock_follows a t w :
  port_ok a -> port_mem a w -> rp a = RIn \/ rp a = ROut ->
  r_follows a (access false t (code_reader a) w).
Proof.
  intros Ha Hm Hq. pose proof Ha as (Hi&_&(_&_&_&_&_&_&Hr)&_). pose proof Hm as (M1&M2&Hd&Hdma).
  pose proof Hi as (_&[Hok _]&_).
  assert (user_runs (at_ (zr a)) = false) as Hu.
  { destruct Hq as [E|E]; rewrite E in Hr; destruct (at_ (zr a)); intuition done. }
  set (kin := r_newest (ri a) (sample <$> log a)). set (kout := r_get (ri a) (sample <$> log a) 0 []).
  assert (code_reader a = code_of (core_id false) (lk false) kin kout (at_ (zr a))) as ->
    by (unfold code_reader; by destruct Hq as [-> | ->]).
  destruct (core_follows kin kout false t (zr a) (zw a) w) as (F1&F2&F3);
    [by destruct (at_ (zr a))|by destruct (at_ (zr a))|done|done|done|]. cbn [negb] in *.
  destruct (lock_frame kin kout false t (at_ (zr a)) w Hu) as [G1 G2]. cbn [negb] in *.
  set (xw := access false t _ w) in *. unfold r_follows.
  set (z := core_step (core_id false) (core_id true) (zr a) (zw a)) in *.
  assert (r_step a = r_upd a (ri a) (match at_ z with CS => RNewest | User => RGet 0 | _ => rp a end) z
                       (seen a) (log a)) as ->
    by (unfold r_step; by destruct Hq as [-> | ->]).
  split.
  - rewrite F1. unfold code_reader. cbn [r_upd ri rp zr seen log].
    destruct (at_ z); try done; by destruct Hq as [-> | ->].
  - split; [done|]. split; [done|].
    assert (words_ok a (spm (snd xw true)) (spm (snd xw false))) as (D1&D2&D3&D4&D5).
    { apply (words_keep a (spm (w true)) (spm (w false))); [done|done| |done]. intros k _. by rewrite G1. }
    assert (rp a = RIn -> acquiring (at_ z) = true \/ at_ z = CS) as Hacq.
    { intros E. rewrite E in Hr. destruct (acquire_next (core_id false) (core_id true) (zr a) (zw a)) as ([|]&_);
        [done|apply Hr|auto|auto]. }
    split; [|by rewrite G1].
    unfold words_ok. repeat (split; [done|]). unfold copy_ok in *. cbn [r_upd rp seen].
    destruct Hq as [E|E]; rewrite E in *.
    + destruct (Hacq eq_refl) as [E'|E']; [destruct (at_ z); done|by rewrite E'].
    + by destruct (at_ z).
Qed.

Lemma pub_sample a : port_ok a -> (pub a < length samples)%nat.
Proof.
  intros (_&(Hw1&Hw2&Hw3)&_).
  destruct (wp a); try (specialize (Hw2 ltac:(done))); try (intuition lia);
    destruct (sch a) as [[b m]|]; intuition lia.
Qed.

Lemma reader_follows a t w :
  port_ok a -> port_mem a w -> r_follows a (access false t (code_reader a) w).
Proof.
  intros Ha Hm. pose proof Ha as (Hi&Hw&(Hr1&Hr2&Hr3&Hr4&Hr5&Hr6&Hr7)&_).
  pose proof Hm as (M1&M2&(D1&D2&D3&D4&D5)&Hd). pose proof (pub_sample a Ha) as Hpub.
  destruct (rp a) as [| |j|j| |j|] eqn:Eq; eauto using r_lock_follows;
    unfold r_follows, r_step, code_reader; rewrite Eq; unfold copy_ok in D5; rewrite Eq in D5.
  - destruct (newest_step (ri a) (sample <$> log a) (pub a) CS) as (f&E&Hf).
    cbn [code_r]. rewrite E. cbn [access fst snd]. rewrite D2, Hf. split; [done|].
    apply mem_stays_r; [done|done|]. intros j Hj. lia.
  - destruct Hr7 as (Eu&Hj&Es). destruct (copy_step (ri a) (sample <$> log a) (seen a) j (at_ (zr a)) Hj) as (f&E&Hf).
    rewrite E. cbn [access fst snd]. rewrite Es in *. rewrite (D3 j Hj), Hf. split; [done|].
    by apply mem_stays_r.
  - destruct Hr7 as (Eu&Hj&Es). rewrite put_step. cbn [access fst snd].
    pose proof (stored_snoc _ _ _ _ D5) as D5'.
    destruct (decide (S j < len)%nat).
    + split; [done|]. by apply reader_store.
    + assert (S j = len) as El by lia. rewrite El in *. rewrite Eu. split; [apply copy_end|].
      apply reader_store; [done|done|done| |done].
      intros Hz. pose proof (mem_call false (zr a) _ Hz) as Hc. rewrite Eu in Hc. by apply Hc.
  - destruct Hr7 as (Eu&Hj&Es&Hl). assert (seen a < length samples)%nat as Hs by lia.
    destruct (get_step (ri a) (sample <$> log a) (seen a) j (at_ (zr a)) Hs Hj) as (f&E&Hf).
    rewrite E. cbn [access fst snd]. rewrite (D5 j Hj), Hf.
    destruct (decide (S j < len)%nat); [split; [done|by apply mem_stays_r]|].
    split.
    + rewrite (reader_start _ _ (seen a)). cbn [r_upd ri rp zr seen log]. rewrite fmap_app.
      unfold r_start. by destruct (decide _).
    + apply mem_stays_r; [done| |by unfold copy_ok, r_start; cbn; destruct (decide _)].
      unfold r_start. destruct (decide _); [|done].
      pose proof (mem_call false (zr a) w M2) as Hc. rewrite Eu in Hc. by apply Hc.
  - split; [by rewrite Eq|done].
Qed.

(** *** Steps of the network *)

(** Another sample arrives in its buffer, or the number of the newest. *)
Lemma net_data a b k w :
  port_ok a -> port_mem a w -> sch a = Some (b, k) -> k < size_of b ->
  port_mem (net_w a) (network true w).
Proof.
  intros Ha (M1&M2&(D1&D2&D3&D4&D5)&Hd) Es Hk. pose proof Ha as (Hi&Hw&Hr&_).
  pose proof pt_r as (R0&R1&R2&R3&R4&R5&R6).
  destruct (transfer_point a b k Hw Es) as (Hlt&Hc&Hu&Hq).
  assert (exists dst src n, transfer true dst src n (w true) /\ moved (w true) = k /\ n = size_of b /\
    dst = (if b then km else buf (wi a)) /\ src = (if b then kn else kx)) as (dst&src&n&Ht&Hv&En&Ed&Er).
  { unfold dma_ok in Hd. destruct Hq as [(->&[E|E]&_)|(->&[E|E]&_)]; rewrite E, Es in Hd; destruct Hd;
      do 3 eexists; done. }
  destruct (network_move true dst src n w Ht) as ((N1&N2&N3)&N4&N5&N6); [lia|]. cbn [negb] in *.
  assert (0 <= k) as Hk0 by (destruct Hq as [(->&_&_&_&?)|(->&_&_&?)]; lia).
  pose proof (buf_range (wi a)) as Hbr.
  rewrite Hv in *. fold (word_addr (dst + k)) (word_addr (src + k)) in N4.
  assert (forall s x, lock_word s x -> spm (network true w s) (word_addr x) = spm (w s) (word_addr x)) as Hl.
  { intros [] x Hx; [by rewrite N1|]. rewrite N4, put_word_ne; [done|]. unfold lock_word, size_of in *.
    destruct b; lia. }
  unfold net_w. rewrite Es, (proj2 (Z.ltb_lt _ _)) by done.
  split; [|split; [|split]].
  - rewrite <- (with_ch_same (zw a) Busy Hc). destruct (lock_fields true) as (_&_&F3&F4), (lock_fields false) as (F1&F2&_).
    unfold lock_word in Hl.
    eapply mem_client; try done; cbn [negb]; rewrite ?F1, ?F2, ?F3, ?F4; try (apply Hl; lia).
    + rewrite N2. by eapply transfer_active.
    + by right.
  - apply (mem_keep false _ w); done.
  - rewrite N1, N4. unfold words_ok. cbn [wi pub]. split; [done|].
    destruct Hq as [(->&Hp&Eu&Ep&Hr')|(->&Hp&Eu&Hq)]; subst dst src; unfold size_of in Hk.
    + split; [by rewrite put_word_ne by lia|].
      split; [apply stored_put; [done|]; intros j Hj; rewrite Ep in *; apply not_eq_sym, buf_next_ne; lia|].
      unfold fill_ok in *. cbn [wi wp sch].
      assert (stored (spm (w true)) kx (sample (wi a)) len /\
              stored (spm (w false)) (buf (wi a)) (sample (wi a)) (Z.to_nat k)) as [S1 S2]
        by (destruct Hp as [E|E]; rewrite E, Es in D4; done).
      assert (stored (put (spm (w false)) (word_addr (buf (wi a) + k)) (spm (w true) (word_addr (kx + k))))
                (buf (wi a)) (sample (wi a)) (Z.to_nat (k + 1))) as S3.
      { replace (Z.to_nat (k + 1)) with (S (Z.to_nat k)) by lia.
        replace k with (Z.of_nat (Z.to_nat k)) at 1 2 by lia. rewrite S1 by lia. by apply stored_snoc. }
      split; [destruct Hp as [-> | ->]; done|].
      unfold copy_ok in *. cbn [rp seen].
      destruct Hr as (_&_&_&_&_&_&Hr7).
      destruct (rp a); try done; apply stored_put; try done; intros j' Hj'; lia.
    + assert (k = 0) as -> by lia. rewrite !Z.add_0_r in *. rewrite put_eq, D1. split; [done|].
      assert (stored (spm (w false)) (buf (wi a)) (sample (wi a)) len) as S1
        by (unfold fill_ok in D4; destruct Hp as [E|E]; rewrite E in D4; done).
      assert (stored (put (spm (w false)) (word_addr km) (buf_no (wi a))) (buf (wi a)) (sample (wi a)) len) as S2
        by (apply stored_put; [done|]; intros j Hj; lia).
      split; [done|]. split; [unfold fill_ok; cbn [wi wp sch]; destruct Hp as [-> | ->]; done|].
      unfold copy_ok in *. cbn [rp seen]. destruct Hr as (_&_&_&_&_&_&Hr7).
      destruct (rp a); try done; apply stored_put; try done; intros j' Hj'; lia.
  - unfold dma_ok. cbn [wi wp sch].
    destruct Hq as [(->&[-> | ->]&_)|(->&[-> | ->]&_)]; subst dst src n; unfold transfer in *; rewrite N2, N3; done.
Qed.

Lemma net_writer_mem a w : port_ok a -> port_mem a w -> port_mem (net_w a) (network true w).
Proof.
  intros Ha Hm. pose proof Ha as (Hi&Hw&_). pose proof Hm as (M1&M2&Hd&Hdma).
  destruct (sch a) as [[b k]|] eqn:Es.
  - destruct (Z.lt_ge_cases k (size_of b)) as [Hk|Hk]; [by eapply net_data|].
    destruct (transfer_point a b k Hw Es) as (Hlt&Hc&Hu&Hq).
    assert (exists dst src n, transfer true dst src n (w true) /\ moved (w true) = n) as (dst&src&n&Ht&Hv).
    { unfold dma_ok, size_of in *. destruct Hq as [(->&[E|E]&_&_&?)|(->&[E|E]&_&?)]; rewrite E, Es in Hdma;
        destruct Hdma; do 3 eexists; split; try done; lia. }
    destruct (network_end true dst src n w Ht Hv) as ((N1&N2&N3)&N4). cbn [negb] in *.
    unfold net_w. rewrite Es, (proj2 (Z.ltb_ge _ _)) by done.
    split; [|split; [|split]].
    + eapply mem_client; try done; cbn [negb]; rewrite ?N1, ?N4; auto.
    + apply (mem_keep false _ w); [done| |by rewrite N4|by rewrite N4]. intros [] x _; [by rewrite N1|by rewrite N4].
    + rewrite N1, N4. destruct Hd as (D1&D2&D3&D4&D5). unfold words_ok. repeat (split; [done|]). split; [|done].
      unfold fill_ok, size_of in *. cbn [w_upd wi wp sch].
      destruct Hq as [(->&[E|E]&_&_&?)|(->&[E|E]&_&?)]; rewrite E in *; try done; rewrite Es in D4;
        destruct D4 as [_ D4]; by replace (Z.to_nat k) with len in D4 by lia.
    + unfold dma_ok. cbn [w_upd wi wp sch]. destruct Hq as [(->&[-> | ->]&_)|(->&[-> | ->]&_)]; done.
  - pose proof (no_transfer a Hw Es) as Hnb.
    destruct (net_frame true (zw a) w M1 Hnb) as (N1&N2&N3&N4). cbn [negb] in *.
    unfold net_w. rewrite Es. split; [by apply net_mem_own|]. split; [by eapply (net_mem_other true)|].
    split.
    + assert (words_ok a (spm (network true w true)) (spm (network true w false))) as Hd'.
      { apply (words_keep a (spm (w true)) (spm (w false))); [done|done| |done]. by rewrite N1. }
      unfold words_ok, fill_ok in *. by rewrite Es in Hd'.
    + destruct Hw as (_&_&Hw3). unfold dma_ok in *. cbn [w_upd wi wp sch].
      destruct (wp a) as [| |[]| | | |[]| | | | | |]; try done; rewrite network_idle; try done;
        rewrite (free_status _ _ M1); unfold free;
        (assert (ch (zw a) = Idle) as -> by tauto); done.
Qed.

Lemma net_reader_mem a w : port_ok a -> port_mem a w -> port_mem (net_r a) (network false w).
Proof.
  intros Ha Hm. pose proof Ha as (Hi&Hw&(Hnb&_)&_). pose proof Hm as (M1&M2&Hd&Hdma).
  destruct (net_frame false (zr a) w M2 Hnb) as (N1&N2&N3&N4). cbn [negb] in *.
  split; [by eapply (net_mem_other false)|]. split; [by apply net_mem_own|]. split.
  - apply (words_keep a (spm (w true)) (spm (w false))); [done|done|done|]. by rewrite N1.
  - change (dma_ok a (network false w true)). unfold dma_ok, transfer in *. by rewrite N2, N3.
Qed.

End Memory.

(** ** The port runs to its end *)

Section Progress.
Context `{Port}.

Definition chan_rank (c : chan) : nat := match c with Posted _ => 2 | Moved _ => 1 | _ => 0 end.

Definition w_rank (a : pst) : nat :=
  match wp a with
  | WFill j => 600 + 2 * len + (len - j)
  | WNext => 590 + 2 * len
  | WSend p => 580 + 2 * len + wr_rank p
  | WWaitH => 561 | WWaitR => 560
  | WIn => 400 + 3 * lock_rank (core_id true) (core_id false) (zw a)
  | WPub p => 390 + wr_rank p
  | WPubH => 371 | WPubR => 370
  | WOut => 100 + 3 * lock_rank (core_id true) (core_id false) (zw a)
  | WLoad => 60 | WStore => 59
  | WDone => 0
  end.

Definition r_rank (a : pst) : nat :=
  match rp a with
  | RIn => 300 + 3 * len + 3 * lock_rank (core_id false) (core_id true) (zr a)
  | RNewest => 250 + 3 * len
  | RCopy j => 241 + len + 2 * (len - j)
  | RPut j => 240 + len + 2 * (len - j)
  | ROut => 100 + len + 3 * lock_rank (core_id false) (core_id true) (zr a)
  | RGet j => 10 + (len - j)
  | RDone => 0
  end.

Definition sch_rank (s : option (bool * Z)) : nat :=
  match s with None => 0 | Some (b, k) => Z.to_nat (size_of b - k) + 1 end.

(** What is left to do. *)
Definition w_work (a : pst) : nat :=
  (length samples - wi a) * (700 + 3 * len) + w_rank a + chan_rank (ch (zw a)) + sch_rank (sch a).
Definition r_work (a : pst) : nat :=
  (reads - ri a) * (500 + 3 * len) + r_rank a + chan_rank (ch (zr a)).

Definition finished (a : pst) : Prop := wp a = WDone /\ rp a = RDone.

(** The writer can go on. *)
Definition w_ready (a : pst) : bool :=
  match wp a with WDone => false | _ => negb (blocked (core_id true) (core_id false) (zw a) (zr a)) end.

Definition next (a : pst) : choice :=
  match sch a with
  | Some _ => Net true
  | None =>
      if free (zw a) then
        if free (zr a) then if w_ready a then Run true 0 else Run false 0
        else Net false
      else Net true
  end.

Lemma lock_rank_at id remote x y : at_ x = at_ y -> lock_rank id remote x = lock_rank id remote y.
Proof. unfold lock_rank. by intros ->. Qed.

Lemma rank_enter id remote x : lock_rank id remote (goto x Ent) = 40%nat.
Proof. done. Qed.

Lemma rank_leave id remote x : lock_rank id remote (goto x SetN0) = 13%nat.
Proof. done. Qed.

Lemma net_chan x : ch x <> Busy -> free x = false -> (chan_rank (ch (net_step x)) < chan_rank (ch x))%nat.
Proof. unfold free. destruct x as [? ? ? ? ? [|[]|[]|]]; cbn; try done; lia. Qed.

Lemma net_w_progress a :
  port_ok a -> sch a <> None \/ free (zw a) = false ->
  (w_work (net_w a) < w_work a)%nat /\ r_work (net_w a) = r_work a.
Proof.
  intros (Hi&Hw&_) Hs. unfold net_w. destruct (sch a) as [[b k]|] eqn:Es.
  - destruct (transfer_point a b k Hw Es) as (_&Hc&_&Hq).
    destruct (Z.ltb_spec k (size_of b)) as [Hk|Hk]; (split; [|done]);
      unfold w_work, w_rank; cbn [w_upd wi wp zw sch with_ch ch]; rewrite Es, Hc;
      destruct Hq as [(->&[-> | ->]&_)|(->&[-> | ->]&_)]; cbn [sch_rank chan_rank]; lia.
  - destruct Hs as [|Hf]; [done|]. pose proof (no_transfer a Hw Es) as Hnb.
    pose proof (net_chan (zw a) Hnb Hf). split; [|done].
    unfold w_work, w_rank. cbn [w_upd wi wp zw sch]. rewrite Es.
    rewrite (lock_rank_at _ _ (net_step (zw a)) (zw a)) by apply net_at. lia.
Qed.

Lemma net_r_progress a :
  port_ok a -> free (zr a) = false ->
  (r_work (net_r a) < r_work a)%nat /\ w_work (net_r a) = w_work a.
Proof.
  intros (_&_&(Hnb&_)&_) Hf. pose proof (net_chan (zr a) Hnb Hf). split; [|done].
  unfold r_work, r_rank, net_r. cbn [r_upd ri rp zr].
  rewrite (lock_rank_at _ _ (net_step (zr a)) (zr a)) by apply net_at. lia.
Qed.

Lemma chan_rank_le c : (chan_rank c <= 2)%nat.
Proof. destruct c; cbn; lia. Qed.

Ltac work_lia :=
  repeat match goal with |- context [((?x - ?y) * ?z)%nat] => generalize ((x - y) * z)%nat; intros ? end; lia.

Lemma w_progress a :
  port_ok a -> free (zw a) = true -> w_ready a = true ->
  (w_work (w_step a) < w_work a)%nat /\ r_work (w_step a) = r_work a.
Proof.
  intros (Hi&(Hw1&Hw2&Hw3)&_) Hf Hr. pose proof pt_len as Hlen.
  assert (ch (zw a) = Idle) as Hc by (unfold free in Hf; by destruct (ch (zw a))).
  pose proof Hi as ([Hok _]&_). unfold w_ready in Hr.
  destruct (wp a) as [j| |[]| | | |[]| | | | | |] eqn:Eq; try done;
    try apply negb_true_iff in Hr; unfold w_step; rewrite Eq, ?Hf; (split; [|done]);
    unfold w_work, w_rank; cbn [w_upd wi wp zw sch]; rewrite ?Eq, ?Hc; cbn [wr_rank chan_rank with_ch goto ch sch_rank];
    try work_lia.
  - destruct Hw3 as (Hj&_). destruct (decide (S j < len)%nat); work_lia.
  - destruct Hw3 as (_&_&Es&_). rewrite Es. cbn [sch_rank size_of]. work_lia.
  - rewrite ?rank_enter, ?rank_leave, Hc. cbn [chan_rank]. work_lia.
  - destruct Hw3 as (Hacq&_). set (z := core_step _ _ _ _).
    pose proof (lock_progress (core_id true) (core_id false) (zw a) (zr a) Hok Hc ltac:(by destruct (at_ (zw a))) Hr) as Hp.
    fold z in Hp. pose proof (chan_rank_le (ch z)).
    destruct (at_ z) eqn:Ez; cbn [wr_rank]; work_lia.
  - destruct Hw3 as (_&_&Es&_). rewrite Es. cbn [sch_rank size_of]. work_lia.
  - rewrite ?rank_enter, ?rank_leave, Hc. cbn [chan_rank]. work_lia.
  - destruct Hw3 as (Hrel&_). set (z := core_step _ _ _ _).
    pose proof (lock_progress (core_id true) (core_id false) (zw a) (zr a) Hok Hc ltac:(by destruct (at_ (zw a))) Hr) as Hp.
    fold z in Hp. pose proof (chan_rank_le (ch z)).
    assert (at_ z = User \/ releasing (at_ z) = true) as Hz.
    { destruct (release_next (core_id true) (core_id false) (zw a) (zr a)) as [[? _]|?]; auto. by rewrite Hc. }
    destruct (at_ z) eqn:Ez; try (destruct Hz; done); cbn [wr_rank]; work_lia.
  - specialize (Hw2 ltac:(done)).
    replace (length samples - wi a)%nat with (S (length samples - S (wi a))) by lia.
    rewrite (Nat.mul_succ_l (length samples - S (wi a))). unfold w_start. destruct (decide _); work_lia.
Qed.

Lemma r_progress a :
  port_ok a -> free (zr a) = true -> rp a <> RDone ->
  blocked (core_id false) (core_id true) (zr a) (zw a) = false ->
  (r_work (r_step a) < r_work a)%nat /\ w_work (r_step a) = w_work a.
Proof.
  intros (Hi&_&(Hr1&Hr2&Hr3&Hr4&Hr5&Hr6&Hr7)&_) Hf Hd Hb. pose proof pt_len as Hlen.
  assert (ch (zr a) = Idle) as Hc by (unfold free in Hf; by destruct (ch (zr a))).
  pose proof Hi as (_&[Hok _]&_). specialize (Hr6 Hd).
  destruct (rp a) as [| |j|j| |j|] eqn:Eq; try done; unfold r_step; rewrite Eq; (split; [|by try destruct (decide _)]);
    unfold r_work, r_rank; cbn [r_upd ri rp zr]; rewrite ?Eq, ?Hc; cbn [chan_rank goto ch];
    try work_lia.
  - set (z := core_step _ _ _ _).
    pose proof (lock_progress (core_id false) (core_id true) (zr a) (zw a) Hok Hc ltac:(by destruct (at_ (zr a))) Hb) as Hp.
    fold z in Hp. pose proof (chan_rank_le (ch z)). destruct (at_ z) eqn:Ez; work_lia.
  - destruct Hr7 as (Eu&Hj&_). destruct (decide (S j < len)%nat); cbn [r_upd ri rp zr goto ch]; rewrite ?rank_leave, ?Hc;
      cbn [chan_rank]; work_lia.
  - destruct Hr7 as (Hrel&_). set (z := core_step _ _ _ _).
    pose proof (lock_progress (core_id false) (core_id true) (zr a) (zw a) Hok Hc ltac:(by destruct (at_ (zr a))) Hb) as Hp.
    fold z in Hp. pose proof (chan_rank_le (ch z)).
    assert (at_ z = User \/ releasing (at_ z) = true) as Hz.
    { destruct (release_next (core_id false) (core_id true) (zr a) (zw a)) as [[? _]|?]; auto. }
    destruct (at_ z) eqn:Ez; try (destruct Hz; done); work_lia.
  - destruct Hr7 as (Eu&Hj&_). destruct (decide (S j < len)%nat); cbn [r_upd ri rp zr]; [rewrite Hc; cbn [chan_rank]; work_lia|].
    replace (reads - ri a)%nat with (S (reads - S (ri a))) by lia.
    rewrite (Nat.mul_succ_l (reads - S (ri a))). unfold r_start.
    destruct (decide _); cbn [goto ch]; rewrite ?rank_enter, Hc; cbn [chan_rank]; work_lia.
Qed.

End Progress.

(** ** Consistency *)

Section Consistency.
Context `{Port}.

Lemma port_progress a :
  port_ok a -> ~ finished a ->
  (w_work (p_step a (next a)) + r_work (p_step a (next a)) < w_work a + r_work a)%nat.
Proof.
  intros Ha Hf. unfold next. destruct (sch a) eqn:Es.
  { destruct (net_w_progress a Ha) as [H2 H3]; [left; by rewrite Es|]. cbn [p_step]. lia. }
  destruct (free (zw a)) eqn:Ew.
  2:{ destruct (net_w_progress a Ha) as [H2 H3]; [by right|]. cbn [p_step]. lia. }
  destruct (free (zr a)) eqn:Er.
  2:{ destruct (net_r_progress a Ha Er) as [H2 H3]. cbn [p_step]. lia. }
  destruct (w_ready a) eqn:Ey.
  { destruct (w_progress a Ha Ew Ey) as [H2 H3]. cbn [p_step]. lia. }
  assert (ch (zw a) = Idle) as Cw by (unfold free in Ew; by destruct (ch (zw a))).
  assert (ch (zr a) = Idle) as Cr by (unfold free in Er; by destruct (ch (zr a))).
  pose proof Ha as (Hi&(_&_&Hw)&(_&_&_&_&_&_&Hr)&_). pose proof lk_ids as Hid.
  assert (rp a <> RDone /\ blocked (core_id false) (core_id true) (zr a) (zw a) = false) as [Hd Hb].
  { unfold w_ready, finished in *.
    destruct (decide (blocked (core_id true) (core_id false) (zw a) (zr a) = true)) as [E|E].
    - destruct (blocked_once _ _ _ _ Hid Hi Cw Cr E) as [E1 E2]. split; [|done].
      intros Ed. rewrite Ed in Hr. by destruct Hr.
    - apply not_true_is_false in E. rewrite E in Ey.
      assert (wp a = WDone) as Ed by (by destruct (wp a)). rewrite Ed in Hw. split; [tauto|].
      destruct (blocked (core_id false) (core_id true) (zr a) (zw a)) eqn:Eb; [|done].
      destruct (blocked_once _ _ _ _ (not_eq_sym Hid) (inv_sym _ _ _ _ Hi) Cr Cw Eb) as [_ E2].
      by destruct Hw. }
  destruct (r_progress a Ha Er Hd Hb) as [H2 H3]. cbn [p_step]. lia.
Qed.

Lemma can_finish_port a : port_ok a -> exists cs, finished (foldl p_step a cs).
Proof.
  remember (w_work a + r_work a)%nat as n eqn:En. revert a En.
  induction (lt_wf n) as [n _ IH]. intros a -> Ha.
  assert (finished a \/ ~ finished a) as [Hf|Hf].
  { unfold finished. destruct (wp a), (rp a); (left; split; done) || (right; intuition congruence). }
  - by exists [].
  - destruct (IH _ (port_progress a Ha Hf) (p_step a (next a)) eq_refl) as [cs Hcs]; [by apply p_step_ok|].
    by exists (next a :: cs).
Qed.

(** *** The simulation *)

Definition p_sim (x : config (list (list Z))) (a : pst) : Prop :=
  code x true = code_w (wi a) (wp a) (at_ (zw a)) /\ code x false = code_reader a /\
  port_mem a (mem x) /\ port_ok a.

Lemma w_step_reader a : code_reader (w_step a) = code_reader a.
Proof. unfold w_step. destruct (wp a) as [| |[]| | | |[]| | | | | |]; try done; by destruct (free (zw a)). Qed.

Lemma r_step_writer a :
  wi (r_step a) = wi a /\ wp (r_step a) = wp a /\ zw (r_step a) = zw a /\
  sch (r_step a) = sch a /\ pub (r_step a) = pub a.
Proof. unfold r_step. destruct (rp a); try done; by destruct (decide _). Qed.

Lemma net_w_code a :
  code_w (wi (net_w a)) (wp (net_w a)) (at_ (zw (net_w a))) = code_w (wi a) (wp a) (at_ (zw a)) /\
  code_reader (net_w a) = code_reader a.
Proof.
  unfold net_w. destruct (sch a) as [[b k]|].
  - by destruct (k <? size_of b).
  - cbn [w_upd wi wp zw]. by rewrite net_at.
Qed.

Lemma p_sim_step x a c : p_sim x a -> p_sim (do_choice c x) (p_step a c).
Proof.
  intros (Hw&Hr&Hm&Ha). pose proof (p_step_ok a c Ha) as Ha'.
  destruct c as [[] t|[]]; cbn [do_choice p_step] in *.
  - pose proof (writer_follows a t (mem x) Ha Hm) as Hf. rewrite <- Hw in Hf.
    destruct (access true t (code x true) (mem x)) as [p w]. destruct Hf as [Hp Hv].
    split; [done|]. split; [|done]. cbn [code Bool.eqb]. by rewrite w_step_reader.
  - pose proof (reader_follows a t (mem x) Ha Hm) as Hf. rewrite <- Hr in Hf.
    destruct (access false t (code x false) (mem x)) as [p w]. destruct Hf as [Hp Hv].
    destruct (r_step_writer a) as (E1&E2&E3&_). split; [cbn [code Bool.eqb]; by rewrite E1, E2, E3|done].
  - destruct (net_w_code a) as [E1 E2]. split; [by rewrite E1|]. split; [by rewrite E2|].
    split; [by apply net_writer_mem|done].
  - split; [done|]. split; [|split; [by apply net_reader_mem|done]].
    unfold code_reader, net_r. cbn [r_upd ri rp zr seen log code]. by rewrite net_at.
Qed.

Lemma p_sim_run cs x a : p_sim x a -> p_sim (run_choices cs x) (foldl p_step a cs).
Proof.
  revert x a. induction cs as [|c cs IH]; intros x a Ha; [done|]. apply IH. by apply p_sim_step.
Qed.

(** Where a user has returned, it is at its end. *)
Lemma writer_returned a r : port_ok a -> code_w (wi a) (wp a) (at_ (zw a)) = Ret r -> wp a = WDone.
Proof.
  intros (_&(_&Hw2&Hw3)&_) E. destruct (wp a) as [j| |[]| | | |[]| | | | | |] eqn:Eq; try done; exfalso.
  - rewrite fill_step in E; [done|by apply Hw2|apply Hw3].
  - destruct Hw3 as (Ha&_). by destruct (at_ (zw a)) as [| |[] []| | | | | | | | | | | |].
  - destruct Hw3 as (Ha&_). by destruct (at_ (zw a)) as [| |[] []| | | | | | | | | | | |].
Qed.

Lemma reader_returned a r :
  port_ok a -> code_reader a = Ret r -> rp a = RDone /\ r = sample <$> log a.
Proof.
  intros Ha E. pose proof (pub_sample a Ha) as Hp. pose proof Ha as (_&_&(_&_&_&_&_&_&Hr)&_).
  unfold code_reader in E. destruct (rp a) as [| |j|j| |j|] eqn:Eq; try done.
  - by destruct (at_ (zr a)) as [| |[] []| | | | | | | | | | | |].
  - destruct (copy_step (ri a) (sample <$> log a) (seen a) j (at_ (zr a))) as (f&E'&_); [tauto|].
    by rewrite E' in E.
  - destruct Hr as (Hr&_). by destruct (at_ (zr a)) as [| |[] []| | | | | | | | | | | |].
  - destruct (get_step (ri a) (sample <$> log a) (seen a) j (at_ (zr a))) as (f&E'&_); [lia|tauto|].
    by rewrite E' in E.
  - by injection E as <-.
Qed.

(** *** The start *)

(** The locks have been initialised, no transfer is active, the first sample is in the first
    buffer and is the newest, and the two users start. *)
Definition port_start (x : config (list (list Z))) : Prop :=
  (forall s k, lock_word s k -> spm (mem x s) (word_addr k) = 0) /\
  (forall s, idle (io (mem x s) DMA_BANK (entry1 s)) = true) /\
  spm (mem x true) (word_addr kn) = 1 /\ spm (mem x false) (word_addr km) = 0 /\
  stored (spm (mem x false)) kb (sample 0) len /\
  code x true = writer (core_id true) pw dw (lk true) (word_addr kx) (drop 1 samples) /\
  code x false = reader reads len (core_id false) pr dr (lk false) (word_addr ky) [].

Definition p_init : pst :=
  P 1 (w_start 1) 0 (r_start 0) (Side User 0 0 0 0 Idle)
    (Side (match r_start 0 with RIn => Ent | _ => User end) 0 0 0 0 Idle) None 0 0 [].

Lemma init_ok : port_ok p_init.
Proof.
  pose proof pt_len. pose proof pt_first. unfold port_ok. split; [|split; [|split; [|split]]].
  - unfold p_init, r_start, inv, side_ok, drawn, order_ok. cbn.
    destruct (decide (0 < reads)%nat); cbn; intuition (try discriminate; lia).
  - unfold writer_ok, p_init, w_start. cbn.
    destruct (decide (1 < length samples)%nat); cbn; intuition lia.
  - unfold reader_ok, p_init, r_start. cbn. split; [done|]. split; [done|].
    split; [by intros i j x y _ Hx|]. split; [constructor|]. split; [lia|].
    destruct (decide (0 < reads)%nat); cbn; [done|]. split; [done|]. split; [done|lia].
  - split; [|done]. unfold draws, w_draws, r_draws, p_init, w_start, r_start. cbn [wi wp ri rp zw zr at_ nr].
    destruct (decide (1 < length samples)%nat), (decide (0 < reads)%nat); cbn; lia.
  - unfold numbers_le, draws, w_draws, r_draws, p_init, w_start, r_start. cbn [wi wp ri rp zw zr at_ nr ticket].
    destruct (decide (1 < length samples)%nat), (decide (0 < reads)%nat); cbn; split; done || lia.
Qed.

Lemma start_p_sim x : port_start x -> p_sim x p_init.
Proof.
  intros (Hl&Hi&Hn&Hm&Hb&Hw&Hr). unfold p_sim. split; [|split; [|split; [|apply init_ok]]].
  - rewrite Hw. apply (writer_start 1).
  - rewrite Hr. unfold code_reader. cbn [p_init ri rp seen log zr at_ fmap list_fmap].
    rewrite <- (Nat.sub_0_r reads) at 1. fold (r_rest 0 []). rewrite (reader_start 0 [] 0).
    unfold r_start. by destruct (decide _).
  - assert (forall s z, el z = 0 -> nl z = 0 -> er z = 0 -> nr z = 0 -> ch z = Idle ->
              (match at_ z with Wr _ WS1 _ => False | _ => True end) -> Lock.mem_ok s z (mem x)) as Hmem.
    { intros s z E1 E2 E3 E4 E5 E6. unfold Lock.mem_ok. rewrite E1, E2, E3, E4, E5.
      destruct (lock_fields s) as (_&_&F3&F4), (lock_fields (negb s)) as (F1&F2&_).
      unfold lock_word in Hl. rewrite F1, F2, F3, F4, !Hl by lia. repeat (split; [done|]).
      by destruct (at_ z) as [| |? []| | | | | | | | | | | |]. }
    split; [by apply Hmem|]. split; [apply Hmem; try done; unfold p_init, r_start; cbn; by destruct (decide _)|].
    split; [|unfold dma_ok, p_init, w_start; cbn; by destruct (decide _)].
    unfold words_ok. cbn [p_init wi pub]. split; [done|]. split; [done|].
    split; [unfold buf, buf_no; cbn [Z.of_nat]; by rewrite Zmod_0_l, Z.mul_0_l, Z.add_0_r|].
    unfold fill_ok, copy_ok, p_init, w_start, r_start. cbn [wi wp rp].
    split; [destruct (decide _); [intros j Hj; lia|done]|by destruct (decide _)].
Qed.

(** *** Reads after the last write *)

(** The reader has not moved. *)
Definition untouched (a : pst) : Prop := rp a = r_start 0 /\ log a = [].

Lemma untouched_step a c :
  (forall t, c <> Run false t) -> untouched a -> untouched (p_step a c).
Proof.
  intros Hc Hu. destruct c as [[] t|[]]; cbn [p_step]; [|by destruct (Hc t)| |done].
  - unfold w_step. destruct (wp a) as [| |[]| | | |[]| | | | | |]; try done; by destruct (free (zw a)).
  - unfold net_w. destruct (sch a) as [[b k]|]; [|done]. by destruct (k <? size_of b).
Qed.

(** The writer is done and all reads that began since then have seen the last sample. *)
Definition settled (a : pst) : Prop :=
  wp a = WDone /\ Forall (fun j => j = pub a) (log a) /\
  match rp a with RCopy _ | RPut _ | ROut | RGet _ => seen a = pub a | _ => True end.

Lemma settled_step a c : port_ok a -> settled a -> settled (p_step a c).
Proof.
  intros ((_&[Hok _]&_)&(_&_&Hw)&(_&_&_&_&_&_&Hr)&_) (Hd&Hl&Hs). rewrite Hd in Hw.
  destruct Hw as (Hat&_&Es&_). destruct c as [[] t|[]]; cbn [p_step].
  - unfold w_step. by rewrite Hd.
  - unfold r_step, settled. destruct (rp a) as [| |j|j| |j|] eqn:Eq; cbn [r_upd wp pub rp seen log].
    + split; [done|]. split; [done|]. destruct (acquire_next (core_id false) (core_id true) (zr a) (zw a) Hok Hr) as ([-> |E]&_); [done|].
      by destruct (at_ (core_step _ _ _ _)).
    + done.
    + done.
    + destruct (decide _); cbn; done.
    + split; [done|]. split; [done|]. by destruct (at_ (core_step _ _ _ _)).
    + destruct (decide _); cbn; [done|]. split; [done|].
      split; [apply Forall_app; split; [done|by repeat constructor]|]. unfold r_start. by destruct (decide _).
    + rewrite Eq. done.
  - unfold net_w. by rewrite Es.
  - done.
Qed.

Lemma untouched_run cs a :
  Forall (fun c => forall t, c <> Run false t) cs -> untouched a -> untouched (foldl p_step a cs).
Proof.
  revert a. induction cs as [|c cs IH]; intros a Hcs Ha; [done|].
  apply Forall_cons_iff in Hcs as [Hc Hcs]. apply IH; [done|]. by apply untouched_step.
Qed.

Lemma settled_run cs a : port_ok a -> settled a -> settled (foldl p_step a cs).
Proof.
  revert a. induction cs as [|c cs IH]; intros a Ha Hs; [done|].
  apply IH; [by apply p_step_ok|by apply settled_step].
Qed.

(** What a reader that finishes from there on has read. *)
Lemma settled_reads a :
  port_ok a -> settled a -> rp a = RDone -> sample <$> log a = replicate reads (sample (length samples - 1)).
Proof.
  intros (_&(_&_&Hw)&(_&Hl&_&_&_&_&Hr)&_) (Hd&Hall&_) Er. rewrite Hd in Hw. rewrite Er in Hr.
  destruct Hw as (_&_&_&Ep&Elen). destruct Hr as [_ Eri].
  rewrite (const_fmap _ _ (sample (length samples - 1))); [by rewrite Hl, Eri|].
  intros i x Hx. eapply Forall_lookup_1 in Hall; [|exact Hx]. cbn in Hall.
  by replace (length samples - 1)%nat with x by lia.
Qed.

(** Claim C5. A sampling port is consistent, from a start where the locks are initialised and the first
    sample has been published in the first buffer, and for fewer than 2^32 - 1 samples and reads
    together (so that the numbers of the lock do not overflow). Whatever the interleaving of the writer,
    the reader and the network, they can always run to their ends (there is no deadlock); every
    read returns one sample as a whole, and later reads do not return earlier samples; and a
    reader that takes its first step after the writer has finished gets the last sample from
    every read. *)
Theorem sampling_consistent x0 cs :
  port_start x0 ->
  (exists cs' rs, let x := run_choices (cs ++ cs') x0 in
     code x true = Ret [] /\ code x false = Ret rs) /\
  (forall rs, code (run_choices cs x0) false = Ret rs ->
     exists js, length js = reads /\ ascending js /\ Forall (fun j => (j < length samples)%nat) js /\
       rs = sample <$> js) /\
  (Forall (fun c => forall t, c <> Run false t) cs -> code (run_choices cs x0) true = Ret [] ->
     forall cs' rs, code (run_choices (cs ++ cs') x0) false = Ret rs ->
       rs = replicate reads (sample (length samples - 1))).
Proof.
  intros Hst. pose proof (p_sim_run cs x0 p_init (start_p_sim x0 Hst)) as Hs.
  set (a := foldl p_step p_init cs) in *. pose proof Hs as (_&_&_&Ha). split; [|split].
  - destruct (can_finish_port a Ha) as [cs' [Hw Hr]]. exists cs'. eexists. cbv zeta.
    unfold run_choices in *. rewrite foldl_app.
    destruct (p_sim_run cs' _ a Hs) as (Ew&Er&_). unfold run_choices in *. rewrite Ew, Er, Hw.
    split; [done|]. unfold code_reader. by rewrite Hr.
  - intros rs Er. destruct Hs as (_&E&_). rewrite Er in E. symmetry in E.
    destruct (reader_returned a rs Ha E) as [Hd ->]. exists (log a).
    pose proof (pub_sample a Ha) as Hp. destruct Ha as (_&_&(_&Hl&Ho&Hb&_&_&Hr)&_). rewrite Hd in Hr.
    split; [destruct Hr; congruence|]. split; [done|]. split; [|done].
    eapply List.Forall_impl; [|exact Hb]. cbn. lia.
  - intros Hcs Ew cs' rs Er. pose proof Hs as (E&_). rewrite Ew in E. symmetry in E.
    assert (settled a) as Hset.
    { destruct (untouched_run cs p_init Hcs (conj eq_refl eq_refl)) as [U1 U2]. fold a in U1, U2.
      split; [by eapply writer_returned|]. rewrite U1, U2. split; [done|]. unfold r_start. by destruct (decide _). }
    pose proof (p_sim_run cs' _ a Hs) as Hs'. unfold run_choices in Er, Hs'. rewrite foldl_app in Er.
    destruct Hs' as (_&E'&_&Ha'). rewrite Er in E'. symmetry in E'.
    destruct (reader_returned _ _ Ha' E') as [Hd ->]. apply settled_reads; [done|by apply settled_run|done].
Qed.

End Consistency.

(** ** An example *)

#[local] Instance port_platform : Platform := {|
  NOC_SPM_BASE := 0xE8000000;
  core_id := fun s => if s then 1 else 0
|}.

#[local, refine] Instance port_locks : Locks := {|
  lk := fun s => Lock (0xE8000000 + 4 * 20) (0xE8000000 + 4 * 20) (if s then 0 else 1);
  slot := fun _ => 20
|}.
Proof. all: try (intros []; cbn; lia). cbn. lia. Defined.

(** The descriptor of both ends is at word 1, its words [newest] and [next] are 9 and 10. *)
#[local, refine] Instance demo_port : Port := {|
  len := 2; kn := 10; kx := 40; km := 9; kb := 30; ky := 50;
  pw := 0xE8000004; pr := 0xE8000004;
  dw := Spd 0 0xE8000004 (0xE8000000 + 4 * 30) 0 8 (0xE8000000 + 4 * 20);
  dr := Spd 1 0xE8000004 (0xE8000000 + 4 * 30) 0 8 (0xE8000000 + 4 * 20);
  samples := [[10; 11]; [20; 21]; [30; 31]];
  reads := 2
|}.
Proof. all: cbn; try done; try lia. repeat constructor. Defined.

Definition demo_ports : config (list (list Z)) :=
  Config (fun s : bool => if s then writer (core_id true) pw dw (lk true) (word_addr kx) (drop 1 samples)
                          else reader reads len (core_id false) pr dr (lk false) (word_addr ky) [])
    (fun s : bool => NI (fun x => if s then (if x =? word_addr 10 then 1 else 0)
                                  else if x =? word_addr 30 then 10
                                  else if x =? word_addr 31 then 11 else 0) (fun _ _ => 0) 0).

Lemma demo_port_start : port_start demo_ports.
Proof.
  split; [|split; [|split; [|split; [|split; [|split]]]]].
  - intros s k Hk. unfold lock_word in Hk. cbn [slot port_locks] in Hk.
    assert (k = 20 \/ k = 21 \/ k = 22 \/ k = 23) as [-> | [-> | [-> | ->]]] by lia; by destruct s.
  - intros []; reflexivity.
  - reflexivity.
  - reflexivity.
  - intros [|[|j]] Hj; [reflexivity|reflexivity|cbn in Hj; lia].
  - reflexivity.
  - reflexivity.
Qed.

Lemma sampling_consistent_witness :
  exists cs js, code (run_choices cs demo_ports) true = Ret [] /\ length js = 2%nat /\ ascending js /\
    code (run_choices cs demo_ports) false = Ret (sample <$> js).
Proof.
  destruct (sampling_consistent demo_ports [] demo_port_start) as [(cs&rs&Hw&Hr) _]. exists cs.
  destruct (sampling_consistent demo_ports cs demo_port_start) as [_ [Hj _]].
  destruct (Hj rs Hr) as (js&Hl&Ho&_&E). exists js.
  split; [exact Hw|]. split; [exact Hl|]. split; [exact Ho|]. rewrite <- E. exact Hr.
Defined.
