(* ===== verification/MemFifo.v ===== *)
(** * The frame FIFO of the capture hardware

    src/hardware/src/main/scala/io/MemFifo.scala: a FIFO in a memory whose read port answers
    one cycle later, with a shadow register for a word that was fetched and not yet taken.
    A module is its registers and one function per clock cycle. Assignments to a register
    take effect at the clock edge, and of several assignments in a cycle the last one counts.

    What is proved: the FIFO never loses, duplicates or reorders a word, and it never
    refuses a word while the memory has room; but a word written in the cycle in which the
    memory becomes empty stays invisible until another word is written. *)

From stdpp Require Import base list numbers.
From Stdlib Require Import ZArith Lia.
From S2P Require Import Prelude.

Local Open Scope Z_scope.

Inductive fifo_state := idle | valid | full.

#[export] Instance fifo_state_eq_dec : EqDecision fifo_state.
Proof. solve_decision. Defined.

(** The registers, the memory, and in [data] the word at the output of its read port. *)
Record fifo (A : Type) := Fifo {
  mem : Z -> A;
  readPtr : Z;
  writePtr : Z;
  emptyReg : bool;
  fullReg : bool;
  stateReg : fifo_state;
  shadowReg : A;
  data : A
}.
Arguments Fifo {A}.
Arguments mem {A}.
Arguments readPtr {A}.
Arguments writePtr {A}.
Arguments emptyReg {A}.
Arguments fullReg {A}.
Arguments stateReg {A}.
Arguments shadowReg {A}.
Arguments data {A}.

(** The inputs of a cycle. [collision] is the word the memory returns when the address it
    reads is being written: it is not specified. *)
Record fifo_in (A : Type) := FifoIn {
  enq_valid : bool;
  enq_bits : A;
  writeToFIFO : bool;
  deq_ready : bool;
  collision : A
}.
Arguments FifoIn {A}.
Arguments enq_valid {A}.
Arguments enq_bits {A}.
Arguments writeToFIFO {A}.
Arguments deq_ready {A}.
Arguments collision {A}.

(** A memory after a write. *)
Definition write_mem {A} (m : Z -> A) (a : Z) (x : A) : Z -> A :=
  fun b => if b =? a then x else m b.

Section memfifo.
Context {A : Type} (depth : Z).

(** The value of a pointer after this one, in the width of the pointers. *)
Definition nextVal (cntReg : Z) : Z :=
  if cntReg =? depth - 1 then 0 else (cntReg + 1) mod 2 ^ Z.log2_up depth.

Definition fifo_init (m : Z -> A) (shadow out : A) : fifo A :=
  Fifo m 0 0 true false idle shadow out.

(** The outputs. *)
Definition deq_valid (f : fifo A) : bool :=
  match stateReg f with idle => false | _ => true end.

Definition deq_bits (f : fifo A) : A :=
  match stateReg f with valid => data f | _ => shadowReg f end.

Definition enq_ready (f : fifo A) (i : fifo_in A) : bool := negb (fullReg f) && writeToFIFO i.

(** The two guards: a word is written to the memory, the next word is fetched from it. *)
Definition writes (f : fifo A) (i : fifo_in A) : bool := enq_valid i && negb (fullReg f).

Definition fetches (f : fifo A) (i : fifo_in A) : bool :=
  match stateReg f with
  | idle => negb (emptyReg f)
  | _ => deq_ready i && negb (emptyReg f)
  end.

Definition state_next (f : fifo A) (i : fifo_in A) : fifo_state :=
  match stateReg f with
  | idle => if negb (emptyReg f) then valid else idle
  | valid => if deq_ready i then (if negb (emptyReg f) then valid else idle) else full
  | full => if deq_ready i then (if negb (emptyReg f) then valid else idle) else full
  end.

Definition fifo_cycle (f : fifo A) (i : fifo_in A) : fifo A :=
  let nextWrite := nextVal (writePtr f) in
  let nextRead := nextVal (readPtr f) in
  let incrWrite := writes f i in
  let incrRead := fetches f i in
  Fifo
    (if incrWrite then write_mem (mem f) (writePtr f) (enq_bits i) else mem f)
    (if incrRead then nextRead else readPtr f)
    (if incrWrite then nextWrite else writePtr f)
    (if incrRead then nextRead =? writePtr f else if incrWrite then false else emptyReg f)
    (if incrRead then false else if incrWrite then nextWrite =? readPtr f else fullReg f)
    (state_next f i)
    (match stateReg f with valid => if deq_ready i then shadowReg f else data f | _ => shadowReg f end)
    (if incrWrite && (writePtr f =? readPtr f) then collision i else mem f (readPtr f)).

(** The words that enter and leave in a cycle, and in a run. *)
Definition enqueued (f : fifo A) (i : fifo_in A) : list A :=
  if writes f i then [enq_bits i] else [].

Definition dequeued (f : fifo A) (i : fifo_in A) : list A :=
  if deq_valid f && deq_ready i then [deq_bits f] else [].

Fixpoint fifo_run (f : fifo A) (ins : list (fifo_in A)) : list A * list A * fifo A :=
  match ins with
  | [] => ([], [], f)
  | i :: ins =>
      let '(acc, del, f') := fifo_run (fifo_cycle f i) ins in
      (enqueued f i ++ acc, dequeued f i ++ del, f')
  end.

(** ** The queue a state stands for *)

(** The words from [readPtr] on, and the word on the way to the reader. *)
Definition ring_length (f : fifo A) : Z :=
  if fullReg f then depth else (writePtr f - readPtr f) mod depth.

Definition ring_words (f : fifo A) : list A :=
  map (fun k => mem f ((readPtr f + Z.of_nat k) mod depth)) (seq 0 (Z.to_nat (ring_length f))).

Definition fifo_words (f : fifo A) : list A :=
  (if deq_valid f then [deq_bits f] else []) ++ ring_words f.

Context (depth_2 : 2 <= depth).

(** [ring m r q w]: memory [m] holds the words [q] from [r] up to [w]. *)
Definition ring (m : Z -> A) (r : Z) (q : list A) (w : Z) : Prop :=
  0 <= r < depth /\ w = (r + Z.of_nat (length q)) mod depth /\
  forall k x, q !! k = Some x -> m ((r + Z.of_nat k) mod depth) = x.

Lemma next_mod x : 0 <= x < depth -> nextVal x = (x + 1) mod depth.
Proof.
  intros. unfold nextVal. destruct (Z.eqb_spec x (depth - 1)) as [->|].
  - replace (depth - 1 + 1) with depth by lia. rewrite Z.mod_same; lia.
  - pose proof (Z.log2_up_spec depth ltac:(lia)). rewrite !Z.mod_small; lia.
Qed.

Lemma mod_add_ne a b : 0 < b < depth -> (a + b) mod depth <> a mod depth.
Proof.
  intros ? E. pose proof (Z.div_mod (a + b) depth). pose proof (Z.div_mod a depth).
  assert (b = depth * ((a + b) / depth - a / depth)) by lia.
  assert ((a + b) / depth - a / depth <= 0 \/ 1 <= (a + b) / depth - a / depth) by lia. nia.
Qed.

Lemma ring_write m r q w : ring m r q w -> 0 <= w < depth.
Proof. intros (? & -> & _). apply Z.mod_pos_bound. lia. Qed.

(** Two pointers are equal exactly when the ring is empty or full. *)
Lemma ring_meet m r q w :
  ring m r q w -> Z.of_nat (length q) <= depth ->
  w = r <-> length q = 0%nat \/ Z.of_nat (length q) = depth.
Proof.
  intros (? & -> & _) ?. split.
  - intros E. destruct (decide (length q = 0%nat)); [by left|right].
    destruct (decide (Z.of_nat (length q) = depth)); [done|]. exfalso.
    apply (mod_add_ne r (Z.of_nat (length q))); [lia|]. by rewrite E, Z.mod_small.
  - intros [E|E]; rewrite E.
    + rewrite Z.add_0_r. apply Z.mod_small. lia.
    + rewrite <- (Z.mul_1_l depth) at 1. rewrite Z.mod_add by lia. apply Z.mod_small. lia.
Qed.

Lemma ring_add m r q w x :
  ring m r q w -> Z.of_nat (length q) < depth ->
  ring (write_mem m w x) r (q ++ [x]) (nextVal w).
Proof.
  intros R L. pose proof (ring_write _ _ _ _ R). destruct R as (? & -> & Hm).
  split; [lia|]. split.
  - rewrite next_mod, Z.add_mod_idemp_l by lia. f_equal. rewrite length_app. simpl. lia.
  - intros k y [E|(Hk & E)]%lookup_app_Some; unfold write_mem.
    + pose proof (lookup_lt_Some _ _ _ E).
      destruct (Z.eqb_spec ((r + Z.of_nat k) mod depth) ((r + Z.of_nat (length q)) mod depth)) as [E'|].
      * exfalso. apply (mod_add_ne (r + Z.of_nat k) (Z.of_nat (length q) - Z.of_nat k)); [lia|].
        rewrite E'. f_equal. lia.
      * by apply Hm.
    + apply list_lookup_singleton_Some in E as (? & <-).
      by rewrite (proj2 (Z.eqb_eq _ _)) by (f_equal; lia).
Qed.

Lemma ring_take m r x q w :
  ring m r (x :: q) w -> m r = x /\ ring m (nextVal r) q w.
Proof.
  intros (? & -> & Hm). split.
  - specialize (Hm 0%nat x eq_refl). by rewrite Z.add_0_r, Z.mod_small in Hm.
  - rewrite next_mod by lia. split; [apply Z.mod_pos_bound; lia|]. split.
    + rewrite Z.add_mod_idemp_l by lia. f_equal. simpl length. lia.
    + intros k y E. rewrite Z.add_mod_idemp_l by lia. rewrite <- (Hm (S k) y E). do 2 f_equal. lia.
Qed.

(** The invariant: [q] are the words in the memory. [emptyReg] may be set while one word is
    there. *)
Record fifo_inv (f : fifo A) (q : list A) : Prop := {
  inv_ring : ring (mem f) (readPtr f) q (writePtr f);
  inv_full : fullReg f = (Z.of_nat (length q) =? depth);
  inv_len : Z.of_nat (length q) <= depth;
  inv_nonempty : emptyReg f = false -> q <> [];
  inv_empty : emptyReg f = true -> (length q <= 1)%nat
}.

Lemma inv_init m shadow out : fifo_inv (fifo_init m shadow out) [].
Proof.
  split; cbn [fifo_init mem readPtr writePtr fullReg emptyReg length]; [|symmetry; apply Z.eqb_neq; lia|lia|done|lia].
  split; [lia|]. split; [|done]. by rewrite Z.mod_0_l by lia.
Qed.

(** The words in the memory after a cycle. *)
Definition queue_next (f : fifo A) (i : fifo_in A) (q : list A) : list A :=
  (if fetches f i then tail q else q) ++ enqueued f i.

Lemma writes_room f i q : fifo_inv f q -> writes f i = true -> Z.of_nat (length q) < depth.
Proof.
  intros I [_ W%negb_true_iff]%andb_true_iff. rewrite (inv_full _ _ I) in W.
  apply Z.eqb_neq in W. pose proof (inv_len _ _ I). lia.
Qed.

Lemma fetches_some f i q : fifo_inv f q -> fetches f i = true -> exists x q', q = x :: q'.
Proof.
  intros I F. destruct q as [|x q]; [|eauto]. exfalso. apply (inv_nonempty _ _ I); [|done].
  unfold fetches in F. destruct (stateReg f), (emptyReg f), (deq_ready i); done.
Qed.

Lemma inv_cycle f i q : fifo_inv f q -> fifo_inv (fifo_cycle f i) (queue_next f i q).
Proof.
  intros I. pose proof (writes_room f i q I) as HW. pose proof (fetches_some f i q I) as HF.
  destruct I as [R Fu L N E]. pose proof (ring_write _ _ _ _ R).
  unfold fifo_cycle, queue_next, enqueued.
  destruct (writes f i) eqn:W; [specialize (HW eq_refl); pose proof (ring_add _ _ _ _ (enq_bits i) R HW) as R'|];
    (destruct (fetches f i) eqn:F; [destruct (HF eq_refl) as (x & q' & ->)|]); cbn [tail].
  - apply ring_take in R' as [_ R']. pose proof (ring_take _ _ _ _ _ R) as [_ Rp].
    cbn [length] in *.
    split; simpl; rewrite ?length_app; simpl; [done|symmetry; apply Z.eqb_neq; lia|lia|by destruct q'|].
    intros M%Z.eqb_eq. symmetry in M. apply (ring_meet _ _ _ _ Rp) in M; lia.
  - pose proof (ring_meet _ _ _ _ R') as M. rewrite length_app in M. simpl in M.
    split; simpl; rewrite ?length_app; simpl; [done| |lia|by destruct q|done].
    apply eq_bool_prop_intro. rewrite !Is_true_true, !Z.eqb_eq. rewrite M by lia. lia.
  - apply ring_take in R as [_ R]. rewrite app_nil_r. simpl in *.
    pose proof (ring_meet _ _ _ _ R ltac:(lia)) as M.
    split; simpl; [done|symmetry; apply Z.eqb_neq; lia|lia| |].
    + intros Em%Z.eqb_neq ->. apply Em. symmetry. apply M. by left.
    + intros Em%Z.eqb_eq. symmetry in Em. apply M in Em. lia.
  - rewrite app_nil_r. by split.
Qed.

Lemma ring_words_inv f q : fifo_inv f q -> ring_words f = q.
Proof.
  intros [(? & Hw & Hm) Fu L _ _]. assert (Hl : ring_length f = Z.of_nat (length q)).
  { unfold ring_length. rewrite Fu, Hw. destruct (Z.eqb_spec (Z.of_nat (length q)) depth); [done|].
    rewrite Zminus_mod_idemp_l. replace (_ - _) with (Z.of_nat (length q)) by lia.
    apply Z.mod_small. lia. }
  unfold ring_words. rewrite Hl, Nat2Z.id. apply list_eq. intros k.
  change (map ?g ?l) with (g <$> l). rewrite list_lookup_fmap.
  destruct (q !! k) as [x|] eqn:E.
  - rewrite lookup_seq_lt by (by eapply lookup_lt_Some). simpl. f_equal. by apply Hm.
  - apply lookup_ge_None in E. by rewrite lookup_seq_ge.
Qed.

(** The word on the way to the reader. *)
Definition at_output (f : fifo A) : list A := if deq_valid f then [deq_bits f] else [].

(** The data port after a fetch: the memory was not written where it was read. *)
Lemma fetched_data f i x q :
  fifo_inv f (x :: q) -> data (fifo_cycle f i) = x.
Proof.
  intros I. pose proof (writes_room f i _ I) as HW. simpl. destruct I as [R _ L _ _].
  pose proof (ring_take _ _ _ _ _ R) as [-> _].
  destruct (writes f i); [|done]. simpl. destruct (Z.eqb_spec (writePtr f) (readPtr f)) as [M|]; [|done].
  exfalso. apply (ring_meet _ _ _ _ R L) in M. specialize (HW eq_refl). simpl in *. lia.
Qed.

(** A cycle takes a word from the front of the queue or none, and adds one at its end or none. *)
Lemma cycle_words f i q :
  fifo_inv f q ->
  at_output f ++ q ++ enqueued f i =
    dequeued f i ++ at_output (fifo_cycle f i) ++ queue_next f i q.
Proof.
  intros I. pose proof (fetches_some f i q I) as HF.
  assert (HO : fetches f i = true -> at_output (fifo_cycle f i) ++ tail q = q).
  { intros F. destruct (HF F) as (x & q' & ->). pose proof (fetched_data f i _ _ I) as D.
    unfold at_output, deq_valid, deq_bits. rewrite D. simpl. unfold fetches in F. unfold state_next.
    by destruct (stateReg f), (emptyReg f), (deq_ready i). }
  unfold queue_next. rewrite (app_assoc (at_output (fifo_cycle f i))), !app_assoc. f_equal.
  destruct (fetches f i) eqn:F; [rewrite <- app_assoc, HO by done|]; clear HO HF;
    unfold at_output, dequeued, deq_valid, deq_bits, fetches in *; simpl; unfold state_next;
    destruct (stateReg f), (emptyReg f), (deq_ready i); try done; simpl; by rewrite ?app_nil_r.
Qed.

Lemma fifo_run_words ins : forall f q,
  fifo_inv f q ->
  let '(acc, del, f') := fifo_run f ins in
  exists q', fifo_inv f' q' /\ at_output f ++ q ++ acc = del ++ at_output f' ++ q'.
Proof.
  induction ins as [|i ins IH]; intros f q I; simpl.
  - exists q. by rewrite app_nil_r.
  - specialize (IH _ _ (inv_cycle f i q I)). pose proof (cycle_words f i q I) as E.
    destruct (fifo_run (fifo_cycle f i) ins) as [[acc del] f'].
    destruct IH as (q' & I' & E'). exists q'. split; [done|].
    rewrite <- app_assoc, <- E'. rewrite (app_assoc q), (app_assoc (at_output f)), E.
    by rewrite <- !app_assoc.
Qed.

(** When the flag is clear, or a second word is there, a word is offered one cycle later. *)
Lemma offers f i q : fifo_inv f q -> (2 <= length q)%nat -> deq_valid (fifo_cycle f i) = true.
Proof.
  intros I L. pose proof (inv_empty _ _ I) as E. unfold deq_valid. simpl. unfold state_next.
  destruct (emptyReg f); [specialize (E eq_refl); lia|].
  by destruct (stateReg f), (deq_ready i).
Qed.

(** Claim C10. The FIFO implements a queue, whatever the writer and the reader do and
    whatever the memory answers when it is read and written at the same address: the words
    taken so far and the words inside are exactly the words written, in order; it refuses a
    word only when [depth] words are in the memory; the word it offers is the oldest one;
    and as soon as a second word waits, it offers one in this cycle or in the next. *)
Theorem memfifo_refines_queue m shadow out ins :
  let '(accepted, delivered, f) := fifo_run (fifo_init m shadow out) ins in
  accepted = delivered ++ fifo_words f /\
  (forall i, enq_valid i = true -> enqueued f i = [] <-> Z.of_nat (length (ring_words f)) = depth) /\
  (deq_valid f = true -> exists rest, fifo_words f = deq_bits f :: rest) /\
  (forall i, (2 <= length (fifo_words f))%nat ->
     deq_valid f = true \/ deq_valid (fifo_cycle f i) = true).
Proof.
  pose proof (fifo_run_words ins _ _ (inv_init m shadow out)) as H.
  destruct (fifo_run _ ins) as [[acc del] f]. destruct H as (q & I & E).
  pose proof (ring_words_inv f q I) as Q. unfold fifo_words. rewrite Q. simpl in E.
  split; [done|]. split; [|split].
  - intros i V. unfold enqueued, writes. rewrite V, (inv_full _ _ I).
    destruct (Z.eqb_spec (Z.of_nat (length q)) depth); simpl; split; try done.
  - intros ->. by exists q.
  - intros i L. destruct (deq_valid f) eqn:V; [by left|right]. simpl in L. by eapply offers.
Qed.

End memfifo.

(** A reader that is ready, and no writer. *)
Definition read_only : fifo_in Z := FifoIn false 0 true true 0.

Lemma stays_idle depth n : forall f : fifo Z,
  stateReg f = idle -> emptyReg f = true ->
  let '(acc, del, f') := fifo_run depth f (replicate n read_only) in
  acc = [] /\ del = [] /\ stateReg f' = idle /\ mem f' = mem f /\ readPtr f' = readPtr f /\
  writePtr f' = writePtr f /\ fullReg f' = fullReg f.
Proof.
  induction n as [|n IH]; intros f S E; [done|]. cbn [replicate fifo_run].
  assert (F : fetches f read_only = false) by (unfold fetches; by rewrite S, E).
  assert (C : fifo_cycle depth f read_only =
    Fifo (mem f) (readPtr f) (writePtr f) true (fullReg f) idle (shadowReg f) (mem f (readPtr f))).
  { unfold fifo_cycle. rewrite F. simpl. unfold state_next. by rewrite S, E. }
  rewrite C. specialize (IH _ (eq_refl : stateReg (Fifo (mem f) (readPtr f) (writePtr f) true (fullReg f)
    idle (shadowReg f) (mem f (readPtr f))) = idle) eq_refl).
  destruct (fifo_run _ _ _) as [[acc del] f']. simpl in IH. destruct IH as (-> & -> & IH).
  split; [done|]. split; [|done]. unfold dequeued, deq_valid. by rewrite S.
Qed.

(** The FIFO of the capture hardware. *)
Definition frame_fifo_depth : Z := 20000.

Lemma memfifo_refines_queue_witness :
  let '(accepted, delivered, f) :=
    fifo_run frame_fifo_depth (fifo_init (fun _ => 0) 0 0)
      (map (fun x => FifoIn true x true false 0) [11; 12; 13] ++
       map (fun _ => FifoIn false 0 true true 0) [1; 2]) in
  accepted = [11; 12; 13] /\ delivered = [11; 12] /\ accepted = delivered ++ fifo_words frame_fifo_depth f.
Proof.
  pose proof (memfifo_refines_queue frame_fifo_depth ltac:(unfold frame_fifo_depth; lia) (fun _ => 0) 0 0
    (map (fun x => FifoIn true x true false 0) [11; 12; 13] ++
     map (fun _ => FifoIn false 0 true true 0) [1; 2])) as H.
  destruct (fifo_run _ _ _) as [[acc del] f] eqn:E. destruct H as (H & _).
  repeat split; [| |exact H]; vm_compute in E; by inversion E.
Defined.

(** A word written in the cycle in which the last word of the memory is fetched is not seen:
    the reader gets the first of two words, and never the second, however long it waits. *)
Theorem memfifo_hides_word a b n :
  let '(accepted, delivered, f) :=
    fifo_run frame_fifo_depth (fifo_init (fun _ => 0) 0 0)
      ([FifoIn true a true true 0; FifoIn true b true true 0; read_only] ++ replicate n read_only) in
  accepted = [a; b] /\ delivered = [a] /\ fifo_words frame_fifo_depth f = [b] /\ deq_valid f = false.
Proof.
  cbn [app fifo_run].
  set (f3 := fifo_cycle _ (fifo_cycle _ _ _) _).
  pose proof (stays_idle frame_fifo_depth n f3 eq_refl eq_refl) as H.
  destruct (fifo_run _ f3 _) as [[acc del] f]. destruct H as (-> & -> & S & M & R & W & Fu).
  split; [done|]. split; [done|]. unfold fifo_words, ring_words, ring_length, deq_valid.
  rewrite S, M, R, W, Fu. by vm_compute.
Qed.
