(* ===== verification/Capture.v ===== *)
(** * The frame filter and the circular buffer of the capture hardware

    src/hardware/src/main/scala/io/FShark_filter.scala and CircularBuffer.scala, as the board
    configures them (a data path of 16 bits). The filter takes frames from the MAC over an AXI
    stream and writes them to the buffer word by word while it looks at the byte the user
    selected. At the end of a frame it either tells the buffer to move its write pointer back,
    or to put the length in front of the frame and to pass all of it on.

    As in [MemFifo], a module is its registers and a function for a clock cycle. The MAC is
    vendored; it is known here by what it sends: the words of one frame without a gap, as its
    receive FIFO stores whole frames. *)

From stdpp Require Import base list numbers.
From Stdlib Require Import ZArith Lia.
From S2P Require Import Prelude MemFifo.

Local Open Scope Z_scope.
Local Open Scope c_scope.

(** ** The filter *)

Inductive filter_state :=
  | bufferIdle | bufferEvaluate | bufferBadFrame | bufferGoodFrame | bufferFlushFrame
  | bufferAddHeader.

Record filter := Filter {
  cntFrame : Z;
  cntBytes : Z;
  indexHighLow : Z;
  stateBuffer : filter_state
}.

Definition filter_reset : filter := Filter 0 0 0 bufferIdle.

(** The signals of the AXI stream in a cycle. *)
Record axis := Axis { tvalid : bool; tkeep : Z; tdata : Z; tlast : bool }.

(** The registers of the device that set the filter. *)
Record filter_config := Config { filterIndex : Z; filterValue : Z; filterSet : bool }.

(** The bus from the filter to the buffer. *)
Record filter_bus := Bus { bus_valid : bool; flushFrame : bool; addHeader : bool; bus_tdata : Z }.

Definition no_bus : filter_bus := Bus false false false 0.

Definition popcount2 (x : Z) : Z := x .& 1 + (x >> 1) .& 1.

(** A cycle of the filter; [ready] comes from the buffer. The results are [axis_tready], the
    bus and the registers. *)
Definition filter_cycle (cfg : filter_config) (ready : bool) (a : axis) (f : filter) :
    bool * filter_bus * filter :=
  let counted :=
    if tvalid a && filterSet cfg then (cntFrame f + cntBytes f) mod 2 ^ 12 else cntFrame f in
  let next cnt st := Filter cnt (popcount2 (tkeep a)) (filterIndex cfg .& 1) st in
  if ready && filterSet cfg then
    match stateBuffer f with
    | bufferIdle =>
        (false, no_bus, next 0 (if tvalid a then bufferEvaluate else bufferIdle))
    | bufferEvaluate =>
        if cntFrame f >> 1 =? filterIndex cfg >> 1 then
          (true, Bus true false false (tdata a),
           next counted
             (if (tdata a >> (indexHighLow f * 8)) .& 0xFF =? filterValue cfg
              then bufferGoodFrame else bufferBadFrame))
        else if (cntFrame f <? filterIndex cfg) && tlast a then
          (false, Bus true false false (tdata a), next (cntFrame f) bufferFlushFrame)
        else (true, Bus true false false (tdata a), next counted bufferEvaluate)
    | bufferGoodFrame =>
        if tlast a then (false, Bus true false false (tdata a), next (cntFrame f) bufferAddHeader)
        else (true, Bus true false false (tdata a), next counted bufferGoodFrame)
    | bufferAddHeader => (true, Bus true false true (cntFrame f), next counted bufferIdle)
    | bufferBadFrame =>
        if tlast a then (false, Bus true false false 0, next (cntFrame f) bufferFlushFrame)
        else (true, no_bus, next (cntFrame f) bufferBadFrame)
    | bufferFlushFrame => (true, Bus true true false (cntFrame f), next (cntFrame f) bufferIdle)
    end
  else (false, no_bus, next counted (stateBuffer f)).

(** ** The circular buffer *)

(** The depth asked for is 1518; the memory has the next power of two. *)
Definition bitWidth : Z := Z.log2_up 1518.
Definition actualDepth : Z := 2 ^ bitWidth.

Record buffer := Buffer {
  bmem : Z -> Z;
  bhead : Z;
  btail : Z;
  readFrom : bool;
  readValue : Z;
  counter : Z
}.

Definition buffer_reset (m : Z -> Z) : buffer := Buffer m 1 0 false 0 0.

Definition bufferLength (b : buffer) : Z :=
  let difference := (bhead b - 1 - btail b) mod actualDepth in
  if difference <? 0 then difference + actualDepth else difference.

Definition bufferFull (b : buffer) : bool := actualDepth - 1 <=? bufferLength b.
Definition bufferEmpty (b : buffer) : bool := bufferLength b =? 0.

(** [head - ((tdata + 1) / 2 + k)]: the words of the frame before the write pointer. *)
Definition head_back (b : buffer) (bus : filter_bus) (k : Z) : Z :=
  (bhead b - (u16 (bus_tdata bus + 1) / 2 + k)) mod actualDepth.

Record buffer_out := BufferOut {
  bdeq_valid : bool;
  bdeq_bits : Z;
  endOfFrame : bool;
  frameRecieving : bool
}.

Definition buffer_cycle (b : buffer) (bus : filter_bus) (ready : bool) : buffer_out * buffer :=
  let flush := if flushFrame bus then head_back b bus 1 else bhead b in
  let address := if addHeader bus then head_back b bus 2 else flush in
  let put := bus_valid bus && negb (bufferFull b) in
  let get := ready && negb (bufferEmpty b) && readFrom b in
  let last := get && ((counter b =? u16 (readValue b + 1)) && negb (readValue b =? 0)) in
  (BufferOut (ready && readFrom b) (if get then bmem b (btail b) else 0) (addHeader bus)
     (get && negb last),
   Buffer
     (if put then write_mem (bmem b) address (bus_tdata bus) else bmem b)
     (if flushFrame bus then flush
      else if put then (if bhead b =? actualDepth then 1 else (bhead b + 1) mod actualDepth)
      else bhead b)
     (if get then (if btail b =? actualDepth then 0 else (btail b + 1) mod actualDepth)
      else btail b)
     (if last then false else if addHeader bus then true
      else if bufferEmpty b then false else readFrom b)
     (if last then 0 else if addHeader bus then u16 (bus_tdata bus + 1) >> 1 else readValue b)
     (if get then (if last then 0 else (counter b + 1) mod actualDepth) else counter b)).

(** ** Filter and buffer together *)

Record capture := Capture { cfilter : filter; cbuffer : buffer }.

Definition capture_reset (m : Z -> Z) : capture := Capture filter_reset (buffer_reset m).

Definition capture_cycle (cfg : filter_config) (ready : bool) (a : axis) (s : capture) :
    bool * buffer_out * capture :=
  let '(tready, bus, f) := filter_cycle cfg (negb (bufferFull (cbuffer s))) a (cfilter s) in
  let '(out, b) := buffer_cycle (cbuffer s) bus ready in
  (tready, out, Capture f b).

(** The words that go to the FIFO in a cycle. *)
Definition emitted (out : buffer_out) : list Z := if bdeq_valid out then [bdeq_bits out] else [].

(** [capture_run cfg ia n src s]: [n] cycles in which the MAC sends [src], holding each word
    until it is accepted, and then nothing; the other signals of the stream are then those of
    [ia]. The FIFO is ready. The result is the output of the buffer in each cycle. *)
Definition present (idle_axis : axis) (src : list axis) : axis :=
  match src with
  | [] => Axis false (tkeep idle_axis) (tdata idle_axis) (tlast idle_axis)
  | a :: _ => a
  end.

Fixpoint capture_run (cfg : filter_config) (ia : axis) (n : nat) (src : list axis) (s : capture) :
    list buffer_out * list axis * capture :=
  match n with
  | O => ([], src, s)
  | S n =>
      let '(tready, out, s) := capture_cycle cfg true (present ia src) s in
      let '(outs, src, s) := capture_run cfg ia n (if tready then tail src else src) s in
      (out :: outs, src, s)
  end.

(** ** The buffer as a ring

    [holding b t ws]: the buffer reads from [t], where the header of the next frame goes, and
    has received the words [ws] of a frame. [sending b q c]: it passes on the words [q], after
    [c] words of the same frame. *)

Lemma actualDepth_eq : actualDepth = 2048.
Proof. reflexivity. Qed.

Record holding (b : buffer) (t : Z) (ws : list Z) : Prop := {
  hold_tail : btail b = t;
  hold_range : 0 <= t < 2048;
  hold_ring : ring 2048 (bmem b) ((t + 1) mod 2048) ws (bhead b);
  hold_read : readFrom b = false;
  hold_value : readValue b = 0;
  hold_counter : counter b = 0
}.

Record sending (b : buffer) (q : list Z) (c : Z) : Prop := {
  send_ring : ring 2048 (bmem b) (btail b) q ((bhead b - 1) mod 2048);
  send_head : 0 <= bhead b < 2048;
  send_read : readFrom b = true;
  send_value : readValue b + 2 = c + Z.of_nat (length q);
  send_counter : counter b = c;
  send_range : 0 <= c /\ 3 <= c + Z.of_nat (length q) < 2048
}.

Lemma holding_length b t ws :
  holding b t ws -> Z.of_nat (length ws) < 2048 -> bufferLength b = Z.of_nat (length ws).
Proof.
  intros [<- ? (? & Hh & _) _ _ _] L. unfold bufferLength. rewrite actualDepth_eq, Hh.
  set (n := Z.of_nat (length ws)) in *.
  assert (((((btail b + 1) mod 2048 + n) mod 2048 - 1 - btail b) mod 2048) = n) as ->
    by (Z.to_euclidean_division_equations; lia).
  zif. done.
Qed.

Lemma sending_length b q c :
  sending b q c -> bufferLength b = Z.of_nat (length q).
Proof.
  intros [(? & Hh & _) ? _ _ _ ?]. unfold bufferLength. rewrite actualDepth_eq.
  set (n := Z.of_nat (length q)) in *.
  assert ((bhead b - 1 - btail b) mod 2048 = n) as ->
    by (Z.to_euclidean_division_equations; lia).
  zif. done.
Qed.

(** The buffer while it receives: it writes a word or nothing, and passes nothing on. *)
Definition silent : buffer_out := BufferOut false 0 false false.

Ltac open_buffer :=
  unfold buffer_cycle, bufferFull, bufferEmpty, head_back; rewrite ?actualDepth_eq;
  cbn [bus_valid flushFrame addHeader bus_tdata negb].

Lemma holding_data b t ws x ready :
  holding b t ws -> Z.of_nat (length ws) < 2047 ->
  exists b', buffer_cycle b (Bus true false false x) ready = (silent, b') /\ holding b' t (ws ++ [x]).
Proof.
  intros Hh L. pose proof (holding_length b t ws Hh ltac:(lia)) as E. destruct Hh as [<- ? R F V C].
  open_buffer. rewrite E, F, V, C, !andb_false_r. zif. eexists. split; [reflexivity|].
  pose proof (ring_write 2048 ltac:(lia) _ _ _ _ R).
  split; simpl; try done; [|by destruct (Z.of_nat (length ws) =? 0)].
  zif. rewrite <- (next_mod 2048 ltac:(lia) (bhead b)) by lia. apply ring_add; [lia|done|lia].
Qed.

Lemma holding_none b t ws ready :
  holding b t ws -> Z.of_nat (length ws) < 2047 ->
  exists b', buffer_cycle b no_bus ready = (silent, b') /\ holding b' t ws.
Proof.
  intros Hh L. pose proof (holding_length b t ws Hh ltac:(lia)) as E. destruct Hh as [<- ? R F V C].
  open_buffer. rewrite E, F, V, C, !andb_false_r. eexists. split; [reflexivity|].
  split; simpl; try done. by destruct (Z.of_nat (length ws) =? 0).
Qed.

(** The buffer drops the words of a frame. *)
Lemma holding_flush b t ws x ready :
  holding b t ws -> Z.of_nat (length ws) < 2047 -> 0 <= x < 65535 ->
  (x + 1) / 2 + 1 = Z.of_nat (length ws) ->
  exists b', buffer_cycle b (Bus true true false x) ready = (silent, b') /\ holding b' t [].
Proof.
  intros Hh L Hx Ex. pose proof (holding_length b t ws Hh ltac:(lia)) as E.
  destruct Hh as [<- ? (? & Hw & _) F V C].
  open_buffer. rewrite E, F, V, C, !andb_false_r. zif. eexists. split; [reflexivity|].
  split; simpl; try done; [|by destruct (Z.of_nat (length ws) =? 0)].
  split; [lia|]. split; [|done]. rewrite u16_small, Ex, Hw by lia. simpl length.
  Z.to_euclidean_division_equations; lia.
Qed.

(** The buffer puts the length in front of the frame and starts to pass it on. *)
Lemma holding_header b t ws x ready :
  holding b t ws -> (2 <= length ws)%nat -> Z.of_nat (length ws) < 2047 -> 0 <= x < 65535 ->
  (x + 1) / 2 + 1 = Z.of_nat (length ws) ->
  exists b', buffer_cycle b (Bus true false true x) ready = (BufferOut false 0 true false, b') /\
    sending b' (x :: ws) 0.
Proof.
  intros Hh L2 L Hx Ex. pose proof (holding_length b t ws Hh ltac:(lia)) as E.
  destruct Hh as [<- ? R F V C]. pose proof (ring_write 2048 ltac:(lia) _ _ _ _ R).
  destruct R as (? & Hw & Hm).
  open_buffer. rewrite E, F, V, C, !andb_false_r. zif. eexists. split; [reflexivity|].
  assert (Ha : (bhead b - (u16 (x + 1) / 2 + 2)) mod 2048 = btail b).
  { rewrite u16_small by lia. Z.to_euclidean_division_equations; lia. }
  rewrite Ha. split; cbn [bmem bhead btail readFrom readValue counter length]; try done.
  - split; [lia|]. split.
    + rewrite Hw. cbn [length]. Z.to_euclidean_division_equations; lia.
    + intros [|k] y; cbn [lookup list_lookup]; unfold write_mem.
      * intros [= ->]. rewrite Z.add_0_r, Z.mod_small, Z.eqb_refl by lia. done.
      * intros Hk. pose proof (lookup_lt_Some _ _ _ Hk).
        rewrite (proj2 (Z.eqb_neq _ _)) by (Z.to_euclidean_division_equations; lia).
        rewrite <- (Hm k y Hk), Z.add_mod_idemp_l by lia. do 2 f_equal. lia.
  - apply Z.mod_pos_bound. lia.
  - rewrite u16_small, shr_div by lia. change (2 ^ 1) with 2. lia.
  - lia.
Qed.

(** The buffer passes on a word, and after the last one it waits for the next frame. *)
Lemma sending_next b x y q c :
  sending b (x :: y :: q) c ->
  exists b', buffer_cycle b no_bus true = (BufferOut true x false true, b') /\
    sending b' (y :: q) (c + 1).
Proof.
  intros S. pose proof (sending_length _ _ _ S) as E. destruct S as [R ? F V C ?].
  pose proof (ring_take 2048 ltac:(lia) _ _ _ _ _ R) as [Hx R']. destruct R as (? & _).
  cbn [length] in *. open_buffer. rewrite E, F, C, Hx. unfold u16.
  rewrite (Z.mod_small (readValue b + 1)) by lia. zif. eexists. split; [reflexivity|].
  split; simpl; try done; [|lia|rewrite Z.mod_small; lia|lia].
  by rewrite <- next_mod by lia.
Qed.

Lemma sending_last b x c :
  sending b [x] c ->
  exists b' t, buffer_cycle b no_bus true = (BufferOut true x false false, b') /\ holding b' t [].
Proof.
  intros S. pose proof (sending_length _ _ _ S) as E. destruct S as [R ? F V C ?].
  pose proof (ring_take 2048 ltac:(lia) _ _ _ _ _ R) as [Hx _]. destruct R as (? & Hw & _).
  cbn [length] in *. open_buffer. rewrite E, F, C, Hx. unfold u16.
  rewrite (Z.mod_small (readValue b + 1)) by lia. zif. eexists _, _. split; [reflexivity|].
  split; simpl; try done; [apply Z.mod_pos_bound; lia|].
  split; [apply Z.mod_pos_bound; lia|]. split; [|done].
  simpl length. Z.to_euclidean_division_equations; lia.
Qed.

Lemma holding_not_full b t ws :
  holding b t ws -> Z.of_nat (length ws) < 2047 -> bufferFull b = false.
Proof.
  intros H L. unfold bufferFull. rewrite (holding_length _ _ _ H), actualDepth_eq by lia. by zif.
Qed.

Lemma sending_not_full b q c : sending b q c -> Z.of_nat (length q) < 2047 -> bufferFull b = false.
Proof. intros S L. unfold bufferFull. rewrite (sending_length _ _ _ S), actualDepth_eq. by zif. Qed.

(** ** Frames on the stream *)

(** The words of a frame; the last one carries one byte if [odd], and [tlast]. *)
Fixpoint frame_beats (odd : bool) (ws : list Z) : list axis :=
  match ws with
  | [] => []
  | [w] => [Axis true (if odd then 1 else 3) w true]
  | w :: ws => Axis true 3 w false :: frame_beats odd ws
  end.

(** The bytes of a frame, in the order they arrived in. *)
Definition frame_bytes (ws : list Z) : list Z := flat_map (fun w => [u8 w; u8 (w >> 8)]) ws.

Definition matches (cfg : filter_config) (ws : list Z) : bool :=
  bool_decide (frame_bytes ws !! Z.to_nat (filterIndex cfg) = Some (filterValue cfg)).

(** What is passed on for a frame: the number of bytes before its last word, and its words. *)
Definition framed (ws : list Z) : list Z := 2 * (Z.of_nat (length ws) - 1) :: ws.

Definition captured (cfg : filter_config) (ws : list Z) : list Z :=
  if matches cfg ws then framed ws else [].

Lemma frame_bytes_lookup ws : forall k,
  0 <= k -> frame_bytes ws !! Z.to_nat k =
    (fun w => u8 (w >> ((k .& 1) * 8))) <$> (ws !! Z.to_nat (k / 2)).
Proof.
  induction ws as [|w ws IH]; intros k Hk; [done|]. cbn [frame_bytes flat_map app].
  rewrite land_1. destruct (Z.eq_dec k 0) as [->|]; [done|]. destruct (Z.eq_dec k 1) as [->|]; [done|].
  replace (Z.to_nat k) with (S (S (Z.to_nat (k - 2)))) by lia. cbn [lookup list_lookup].
  etransitivity; [exact (IH (k - 2) ltac:(lia))|].
  rewrite land_1. replace ((k - 2) mod 2) with (k mod 2) by (Z.to_euclidean_division_equations; lia).
  replace (Z.to_nat (k / 2)) with (S (Z.to_nat ((k - 2) / 2))) by (Z.to_euclidean_division_equations; lia).
  done.
Qed.

Section filtering.
Context (cfg : filter_config) (ia : axis).
Context (cfg_set : filterSet cfg = true) (cfg_range : 0 <= filterIndex cfg < 4096).

Lemma run_app m n src s :
  capture_run cfg ia (m + n) src s =
    let '(ws, src, s) := capture_run cfg ia m src s in
    let '(ws', src, s) := capture_run cfg ia n src s in (ws ++ ws', src, s).
Proof.
  revert src s. induction m as [|m IH]; intros src s; cbn [Nat.add capture_run].
  - by destruct (capture_run cfg ia n src s) as [[? ?] ?].
  - destruct (capture_cycle cfg true (present ia src) s) as [[tready out] s1]. rewrite IH.
    destruct (capture_run cfg ia m _ s1) as [[ws1 src1] s2].
    by destruct (capture_run cfg ia n src1 s2) as [[ws2 src2] s3].
Qed.

(** [reaches n src s out src' s']: [n] cycles lead from [s] to [s'] and pass [out] on. *)
Definition reaches (n : nat) (src : list axis) (s : capture) (out : list buffer_out) (src' : list axis)
    (s' : capture) : Prop := capture_run cfg ia n src s = (out, src', s').

Lemma reaches_trans m n src s out src1 s1 out' src2 s2 :
  reaches m src s out src1 s1 -> reaches n src1 s1 out' src2 s2 ->
  reaches (m + n) src s (out ++ out') src2 s2.
Proof. unfold reaches. intros E1 E2. by rewrite run_app, E1, E2. Qed.

Lemma reaches_step n src s o src1 s1 out src2 s2 :
  reaches 1 src s [o] src1 s1 -> reaches n src1 s1 out src2 s2 -> reaches (S n) src s (o :: out) src2 s2.
Proof. apply (reaches_trans 1). Qed.

Lemma reaches_cycle src f b tready bus f' out b' :
  bufferFull b = false ->
  filter_cycle cfg true (present ia src) f = (tready, bus, f') ->
  buffer_cycle b bus true = (out, b') ->
  reaches 1 src (Capture f b) [out] (if tready then tail src else src) (Capture f' b').
Proof.
  intros Hb Hf Hc. unfold reaches. cbn [capture_run]. unfold capture_cycle.
  cbn [cfilter cbuffer]. rewrite Hb. cbn [negb]. by rewrite Hf, Hc.
Qed.

(** What the filter sees of a frame, and how it counts. *)
Lemma present_more odd w w' ws : present ia (frame_beats odd (w :: w' :: ws)) = Axis true 3 w false.
Proof. done. Qed.

Lemma present_last odd w : present ia (frame_beats odd [w]) = Axis true (if odd then 1 else 3) w true.
Proof. done. Qed.

Lemma count_word (ws : list Z) w :
  Z.of_nat (length ws) < 2047 ->
  (2 * Z.of_nat (length ws) + 2) mod 2 ^ 12 = 2 * Z.of_nat (length (ws ++ [w])).
Proof. intros. rewrite length_app, Z.mod_small by lia. cbn [length]. lia. Qed.

Ltac filter_step :=
  rewrite ?present_more, ?present_last; unfold filter_cycle; rewrite cfg_set;
  cbn [andb stateBuffer tvalid tlast tdata tkeep cntFrame cntBytes indexHighLow].

(** The output at the end of a frame, which says whether it is kept, and in the cycles of a
    frame up to there. *)
Definition end_out (m : bool) : buffer_out := if m then BufferOut false 0 true false else silent.

Definition receive_outs (n : nat) (m : bool) : list buffer_out := replicate n silent ++ [end_out m].

(** The rest of a frame that is kept: it is written, then the header. *)
Lemma good_frame odd t rest : forall pre b i,
  holding b t pre -> (1 <= length pre)%nat -> rest <> [] ->
  Z.of_nat (length (pre ++ rest)) < 2045 ->
  exists f' b', stateBuffer f' = bufferIdle /\ sending b' (framed (pre ++ rest)) 0 /\
    reaches (S (length rest)) (frame_beats odd rest)
      (Capture (Filter (2 * Z.of_nat (length pre)) 2 i bufferGoodFrame) b)
      (receive_outs (length rest) true) [] (Capture f' b').
Proof.
  induction rest as [|w [|w' rest] IH]; intros pre b i Hb Hp Hr L; [done| |];
    rewrite length_app in L; simpl in L;
    destruct (holding_data b t pre w true Hb ltac:(lia)) as (b1 & E1 & H1).
  - destruct (holding_header b1 t (pre ++ [w]) (2 * Z.of_nat (length pre)) true H1) as (b2 & E2 & H2);
      rewrite ?length_app; cbn [length]; try lia; [Z.to_euclidean_division_equations; lia|].
    eexists _, b2. split; [|split].
    3:{ eapply (reaches_step _ _ _ silent).
        - eapply reaches_cycle with (tready := false) (out := silent);
            [apply (holding_not_full _ _ _ Hb); lia| |exact E1].
          filter_step. reflexivity.
        - eapply reaches_cycle with (tready := true) (out := BufferOut false 0 true false);
            [eapply holding_not_full; [exact H1|rewrite length_app; simpl; lia]| |exact E2].
          filter_step. reflexivity. }
    + done.
    + unfold framed. rewrite length_app. cbn [length].
      by replace (2 * (Z.of_nat (length pre + 1) - 1)) with (2 * Z.of_nat (length pre)) by lia.
  - destruct (IH (pre ++ [w]) b1 (filterIndex cfg .& 1) H1) as (f' & b' & Hs & H' & E');
      rewrite ?length_app; cbn [length]; try lia; [done|].
    exists f', b'. split; [done|]. rewrite <- app_assoc in H'. split; [done|].
    eapply (reaches_step _ _ _ silent); [|exact E'].
    eapply reaches_cycle with (out := silent) (tready := true);
      [apply (holding_not_full _ _ _ Hb); lia| |exact E1].
    filter_step. by rewrite (count_word pre w) by lia.
Qed.

(** The rest of a frame that is not wanted: nothing is written but one word at its end, and
    the frame is flushed. *)
Lemma bad_frame odd t rest : forall pre b c i,
  holding b t pre -> rest <> [] -> Z.of_nat (length pre) < 2045 ->
  exists f' b', stateBuffer f' = bufferIdle /\ holding b' t [] /\
    reaches (S (length rest)) (frame_beats odd rest)
      (Capture (Filter (2 * Z.of_nat (length pre)) c i bufferBadFrame) b)
      (receive_outs (length rest) false) [] (Capture f' b').
Proof.
  induction rest as [|w [|w' rest] IH]; intros pre b c i Hb Hr L; [done| |].
  - destruct (holding_data b t pre 0 true Hb ltac:(lia)) as (b1 & E1 & H1).
    destruct (holding_flush b1 t (pre ++ [0]) (2 * Z.of_nat (length pre)) true H1) as (b2 & E2 & H2);
      rewrite ?length_app; cbn [length]; try lia; [Z.to_euclidean_division_equations; lia|].
    eexists _, b2. split; [|split; [exact H2|]].
    2:{ eapply (reaches_step _ _ _ silent).
        - eapply reaches_cycle with (tready := false) (out := silent);
            [apply (holding_not_full _ _ _ Hb); lia| |exact E1].
          filter_step. reflexivity.
        - eapply reaches_cycle with (tready := true) (out := silent);
            [eapply holding_not_full; [exact H1|rewrite length_app; simpl; lia]| |exact E2].
          filter_step. reflexivity. }
    done.
  - destruct (holding_none b t pre true Hb ltac:(lia)) as (b1 & E1 & H1).
    destruct (IH pre b1 2 (filterIndex cfg .& 1) H1 ltac:(done) L) as (f' & b' & Hs & H' & E').
    exists f', b'. split; [done|]. split; [done|].
    eapply (reaches_step _ _ _ silent); [|exact E'].
    eapply reaches_cycle with (out := silent) (tready := true);
      [apply (holding_not_full _ _ _ Hb); lia| |exact E1].
    by filter_step.
Qed.

Lemma matches_at pre w rest :
  Z.of_nat (length pre) = filterIndex cfg / 2 ->
  matches cfg (pre ++ w :: rest) =
    ((w >> ((filterIndex cfg .& 1) * 8)) .& 0xFF =? filterValue cfg).
Proof.
  intros E. unfold matches. rewrite frame_bytes_lookup, <- E, Nat2Z.id by lia.
  rewrite list_lookup_middle by done. simpl. rewrite land_ff.
  apply eq_bool_prop_intro. rewrite bool_decide_spec, Is_true_true, Z.eqb_eq. unfold u8.
  split; [by intros [=]|by intros ->].
Qed.

Lemma matches_beyond ws : Z.of_nat (length ws) <= filterIndex cfg / 2 -> matches cfg ws = false.
Proof.
  intros L. unfold matches. rewrite frame_bytes_lookup by lia.
  rewrite lookup_ge_None_2 by lia. by apply bool_decide_eq_false_2.
Qed.

(** What the buffer holds after a frame. *)
Definition settled (b : buffer) (t : Z) (ws : list Z) : Prop :=
  if matches cfg ws then sending b (framed ws) 0 else holding b t [].

(** A frame from the point where its selected byte is in word [w], just seen. *)
Lemma decided_frame odd t (m : bool) w rest pre b :
  holding b t (pre ++ [w]) -> rest <> [] -> Z.of_nat (length (pre ++ w :: rest)) < 2045 ->
  exists f' b', stateBuffer f' = bufferIdle /\
    (if m then sending b' (framed (pre ++ w :: rest)) 0 else holding b' t []) /\
    reaches (S (length rest)) (frame_beats odd rest)
      (Capture (Filter (2 * Z.of_nat (length (pre ++ [w]))) 2 (filterIndex cfg .& 1)
         (if m then bufferGoodFrame else bufferBadFrame)) b)
      (receive_outs (length rest) m) [] (Capture f' b').
Proof.
  intros Hb Hr L. rewrite length_app in L. cbn [length] in L. destruct m.
  - destruct (good_frame odd t rest (pre ++ [w]) b (filterIndex cfg .& 1) Hb)
      as (f' & b' & Hf & Hg & E'); rewrite ?length_app; cbn [length] in *; try lia; [done|].
    rewrite <- app_assoc in Hg. by exists f', b'; rewrite length_app in E'.
  - apply bad_frame; [done|done|]. rewrite length_app. simpl. lia.
Qed.

(** A frame from the point where the filter has seen [pre] of it. *)
Lemma evaluate_frame odd t rest : forall pre b,
  holding b t pre -> rest <> [] -> Z.of_nat (length (pre ++ rest)) < 2045 ->
  Z.of_nat (length pre) <= filterIndex cfg / 2 ->
  filterIndex cfg / 2 <> Z.of_nat (length (pre ++ rest)) - 1 ->
  exists f' b', stateBuffer f' = bufferIdle /\ settled b' t (pre ++ rest) /\
    reaches (S (length rest)) (frame_beats odd rest)
      (Capture (Filter (2 * Z.of_nat (length pre)) 2 (filterIndex cfg .& 1) bufferEvaluate) b)
      (receive_outs (length rest) (matches cfg (pre ++ rest))) [] (Capture f' b').
Proof.
  induction rest as [|w rest IH]; intros pre b Hb Hr L Hi Hl; [done|].
  rewrite length_app in L, Hl. cbn [length] in L, Hl.
  destruct (holding_data b t pre w true Hb ltac:(lia)) as (b1 & E1 & H1).
  assert (Hc : (2 * Z.of_nat (length pre)) >> 1 = Z.of_nat (length pre))
    by (rewrite shr_div by lia; change (2 ^ 1) with 2; rewrite Z.mul_comm; by apply Z.div_mul).
  assert (Hs : filterIndex cfg >> 1 = filterIndex cfg / 2) by (by rewrite shr_div by lia).
  destruct (decide (Z.of_nat (length pre) = filterIndex cfg / 2)) as [E|N];
    [|destruct rest as [|w' rest]].
  - destruct rest as [|w' rest]; [simpl in Hl; lia|].
    unfold settled. rewrite (matches_at pre w (w' :: rest) E).
    set (m := _ =? filterValue cfg).
    destruct (decided_frame odd t m w (w' :: rest) pre b1 H1) as (f' & b' & Hf & Hb' & E');
      rewrite ?length_app; cbn [length] in *; try lia; [done|].
    exists f', b'. split; [done|]. split; [done|].
    eapply (reaches_step _ _ _ silent); [|exact E'].
    eapply reaches_cycle with (out := silent) (tready := true);
      [apply (holding_not_full _ _ _ Hb); lia| |exact E1].
    filter_step. rewrite Hc, Hs, (proj2 (Z.eqb_eq _ _) E). fold m. by rewrite (count_word pre w) by lia.
  - destruct (holding_flush b1 t (pre ++ [w]) (2 * Z.of_nat (length pre)) true H1) as (b2 & E2 & H2);
      rewrite ?length_app; cbn [length]; try lia; [Z.to_euclidean_division_equations; lia|].
    assert (2 * Z.of_nat (length pre) < filterIndex cfg) by (Z.to_euclidean_division_equations; lia).
    unfold settled. rewrite matches_beyond by (rewrite length_app; simpl; lia).
    eexists _, b2. split; [|split].
    3:{ eapply (reaches_step _ _ _ silent).
        - eapply reaches_cycle with (tready := false) (out := silent);
            [apply (holding_not_full _ _ _ Hb); lia| |exact E1].
          filter_step. rewrite Hc, Hs. zif. reflexivity.
        - eapply reaches_cycle with (tready := true) (out := silent);
            [eapply holding_not_full; [exact H1|rewrite length_app; simpl; lia]| |exact E2].
          filter_step. reflexivity. }
    + done.
    + done.
  - destruct (IH (pre ++ [w]) b1 H1) as (f' & b' & Hf & H' & E');
      rewrite ?length_app; cbn [length] in *; try lia; [done|].
    rewrite <- app_assoc in H', E'. exists f', b'. split; [done|]. split; [done|].
    eapply (reaches_step _ _ _ silent); [|exact E'].
    eapply reaches_cycle with (out := silent) (tready := true);
      [apply (holding_not_full _ _ _ Hb); lia| |exact E1].
    filter_step. rewrite Hc, Hs, andb_false_r. zif. by rewrite (count_word pre w) by lia.
Qed.

(** Nothing is going on: the filter is idle, and the buffer empty. *)
Definition quiet (s : capture) : Prop :=
  stateBuffer (cfilter s) = bufferIdle /\ exists t, holding (cbuffer s) t [].

Lemma quiet_reset m : quiet (capture_reset m).
Proof. split; [done|]. exists 0. by split. Qed.

(** The filter between two frames. *)
Lemma filter_idle f : stateBuffer f = bufferIdle ->
  exists f', stateBuffer f' = bufferIdle /\
    filter_cycle cfg true (present ia []) f = (false, no_bus, f').
Proof.
  intros E. unfold filter_cycle. rewrite cfg_set, E. cbn [andb present tvalid].
  eexists. split; [|reflexivity]. done.
Qed.

Lemma idle_cycles n : forall s,
  quiet s -> exists s', quiet s' /\ reaches n [] s (replicate n silent) [] s'.
Proof.
  induction n as [|n IH]; intros [f b] (Hf & t & Hb);
    [exists (Capture f b); split; [by split; [|exists t]|done]|].
  destruct (filter_idle f Hf) as (f1 & Hf1 & E1).
  destruct (holding_none b t [] true Hb ltac:(simpl; lia)) as (b1 & E2 & Hb1).
  destruct (IH (Capture f1 b1)) as (s' & Hs & E); [by split; [|exists t]|]. exists s'. split; [done|].
  eapply (reaches_step _ _ _ silent); [|exact E].
  eapply reaches_cycle with (tready := false) (out := silent); [|exact E1|exact E2].
  apply (holding_not_full _ _ _ Hb). simpl. lia.
Qed.

(** The outputs while the words of a frame are passed on. *)
Fixpoint send_outs (q : list Z) : list buffer_out :=
  match q with
  | [] => []
  | [x] => [BufferOut true x false false]
  | x :: q => BufferOut true x false true :: send_outs q
  end.

Lemma sending_cycles q : forall f b c,
  stateBuffer f = bufferIdle -> sending b q c -> q <> [] -> Z.of_nat (length q) < 2047 ->
  exists s', quiet s' /\ reaches (length q) [] (Capture f b) (send_outs q) [] s'.
Proof.
  induction q as [|x [|y q] IH]; intros f b c Hf Hb Hq L; [done| |];
    destruct (filter_idle f Hf) as (f1 & Hf1 & E1).
  - destruct (sending_last b x c Hb) as (b1 & t & E2 & Hb1). exists (Capture f1 b1).
    split; [split; [done|by exists t]|].
    eapply reaches_cycle with (tready := false) (out := BufferOut true x false false);
      [|exact E1|exact E2]. by eapply sending_not_full.
  - destruct (sending_next b x y q c Hb) as (b1 & E2 & Hb1).
    destruct (IH f1 b1 (c + 1) Hf1 Hb1 ltac:(done) ltac:(simpl in *; lia)) as (s' & Hs & E).
    exists s'. split; [done|]. eapply (reaches_step _ _ _ (BufferOut true x false true)); [|exact E].
    eapply reaches_cycle with (tready := false) (out := BufferOut true x false true);
      [|exact E1|exact E2]. by eapply sending_not_full.
Qed.

(** A frame the filter can decide on: it ends after the word of the selected byte, or before
    it. *)
Definition frame_ok (ws : list Z) : Prop :=
  (2 <= length ws < 2045)%nat /\ filterIndex cfg / 2 <> Z.of_nat (length ws) - 1.

(** The outputs in the [n] cycles from the start of a frame on. *)
Definition frame_outs (ws : list Z) (n : nat) : list buffer_out :=
  let m := matches cfg ws in
  silent :: receive_outs (length ws) m ++
    (if m then send_outs (framed ws) else replicate (S (length ws)) silent) ++
    replicate (n - (2 * length ws + 3)) silent.

(** The first cycle of a frame. *)
Lemma frame_start odd ws f b t :
  stateBuffer f = bufferIdle -> holding b t [] -> (2 <= length ws)%nat ->
  exists b', holding b' t [] /\
    reaches 1 (frame_beats odd ws) (Capture f b) [silent] (frame_beats odd ws)
      (Capture (Filter (2 * Z.of_nat 0) 2 (filterIndex cfg .& 1) bufferEvaluate) b').
Proof.
  intros Hf Hb Hl. destruct (holding_none b t [] true Hb ltac:(simpl; lia)) as (b1 & E1 & Hb1).
  exists b1. split; [done|]. eapply reaches_cycle with (tready := false) (out := silent); [|
    |exact E1]; [apply (holding_not_full _ _ _ Hb); simpl; lia|].
  destruct ws as [|w [|w' ws]]; [simpl in Hl; lia..|].
  unfold filter_cycle. rewrite cfg_set, Hf. done.
Qed.

Lemma frame_cycles odd ws n s :
  quiet s -> frame_ok ws -> (2 * length ws + 3 <= n)%nat ->
  exists s', quiet s' /\ reaches n (frame_beats odd ws) s (frame_outs ws n) [] s'.
Proof.
  destruct s as [f b]. intros (Hf & t & Hb) ((Hl & Hl') & Hi) Hn. cbn [cfilter cbuffer] in *.
  destruct (frame_start odd ws f b t Hf Hb Hl) as (b1 & Hb1 & R0).
  assert (0 <= filterIndex cfg / 2) by (apply Z.div_pos; lia).
  destruct (evaluate_frame odd t ws [] b1 Hb1) as (f2 & b2 & Hf2 & Hb2 & E2); simpl; try lia;
    [by intros ->; simpl in Hl; lia|]. cbn [app length] in Hb2, E2.
  pose proof (reaches_step _ _ _ _ _ _ _ _ _ R0 E2) as R. clear R0 E2.
  assert (exists s', quiet s' /\ reaches (S (length ws)) [] (Capture f2 b2)
    (if matches cfg ws then send_outs (framed ws) else replicate (S (length ws)) silent) [] s')
    as (s3 & Hs3 & E3).
  { unfold settled in *. destruct (matches cfg ws).
    - apply (sending_cycles (framed ws) f2 b2 0); [done|done|done|]. simpl. lia.
    - apply idle_cycles. split; [done|by exists t]. }
  destruct (idle_cycles (n - (2 * length ws + 3)) s3 Hs3) as (s' & Hs & E). exists s'. split; [done|].
  pose proof (reaches_trans _ _ _ _ _ _ _ _ _ _ R (reaches_trans _ _ _ _ _ _ _ _ _ _ E3 E)) as R'.
  by replace n with (S (S (length ws)) + (S (length ws) + (n - (2 * length ws + 3))))%nat at 1 by lia.
Qed.

(** The words passed on for a frame. *)
Lemma emitted_silent n : flat_map emitted (replicate n silent) = [].
Proof. by induction n. Qed.

Lemma emitted_send q : flat_map emitted (send_outs q) = q.
Proof. induction q as [|x [|y q] IH]; [done|done|]. cbn [send_outs flat_map emitted bdeq_valid bdeq_bits app]. by f_equal. Qed.

Lemma emitted_frame ws n : flat_map emitted (frame_outs ws n) = captured cfg ws.
Proof.
  unfold frame_outs, receive_outs, captured. cbn [flat_map]. rewrite !flat_map_app, !emitted_silent.
  destruct (matches cfg ws); [by rewrite emitted_send, !app_nil_r|by rewrite emitted_silent].
Qed.

End filtering.

(** ** Many frames *)

(** Each frame comes with the number of cycles until the next one; what is left of it by
    then is sent before the next one. *)
Record timed_frame := TimedFrame { tf_odd : bool; tf_words : list Z; tf_cycles : nat }.

Fixpoint capture_frames (cfg : filter_config) (ia : axis) (fs : list timed_frame)
    (src : list axis) (s : capture) : list buffer_out * list axis * capture :=
  match fs with
  | [] => ([], src, s)
  | f :: fs =>
      let '(outs, src, s) :=
        capture_run cfg ia (tf_cycles f) (src ++ frame_beats (tf_odd f) (tf_words f)) s in
      let '(outs', src, s) := capture_frames cfg ia fs src s in (outs ++ outs', src, s)
  end.

Definition timed_ok (cfg : filter_config) (f : timed_frame) : Prop :=
  frame_ok cfg (tf_words f) /\ (2 * length (tf_words f) + 3 <= tf_cycles f)%nat.

Lemma frames_cycles cfg ia fs : forall s,
  filterSet cfg = true -> 0 <= filterIndex cfg < 4096 -> quiet s -> Forall (timed_ok cfg) fs ->
  exists s', quiet s' /\ capture_frames cfg ia fs [] s =
    (flat_map (fun f => frame_outs cfg (tf_words f) (tf_cycles f)) fs, [], s').
Proof.
  induction fs as [|f fs IH]; intros s Hc Hr Hs Hf; [by exists s|].
  apply Forall_cons_1 in Hf as [[Hok Hn] Hf].
  destruct (frame_cycles cfg ia Hc Hr (tf_odd f) (tf_words f) (tf_cycles f) s Hs Hok Hn)
    as (s1 & Hs1 & E1). destruct (IH s1 Hc Hr Hs1 Hf) as (s' & Hs' & E'). exists s'. split; [done|].
  cbn [capture_frames app flat_map]. unfold reaches in E1. by rewrite E1, E'.
Qed.

Lemma emitted_frames cfg fs :
  flat_map emitted (flat_map (fun f => frame_outs cfg (tf_words f) (tf_cycles f)) fs) =
  flat_map (fun f => captured cfg (tf_words f)) fs.
Proof. induction fs as [|f fs IH]; [done|]. cbn [flat_map]. by rewrite flat_map_app, emitted_frame, IH. Qed.

(** Claim C9. From reset, filter and buffer pass on exactly the frames whose selected byte has
    the selected value, each preceded by the number of its bytes before the last word, in the
    order of arrival, and take all other frames off the stream without a trace; whatever the
    memory holds at reset and whatever the stream shows between frames. The frames have to be
    apart by the time it takes to read one out, and must not end in the word of the
    selected byte. *)
Theorem capture_passes_matching_frames cfg ia m fs :
  filterSet cfg = true -> 0 <= filterIndex cfg < 4096 -> Forall (timed_ok cfg) fs ->
  let '(outs, rest, s) := capture_frames cfg ia fs [] (capture_reset m) in
  flat_map emitted outs = flat_map (fun f => captured cfg (tf_words f)) fs /\ rest = [] /\
  stateBuffer (cfilter s) = bufferIdle /\ bufferEmpty (cbuffer s) = true.
Proof.
  intros Hc Hr Hf.
  destruct (frames_cycles cfg ia fs _ Hc Hr (quiet_reset m) Hf) as (s' & (Hi & t & Hb) & ->).
  split; [apply emitted_frames|]. repeat (split; [done|]). unfold bufferEmpty.
  by rewrite (holding_length _ _ _ Hb) by (simpl; lia).
Qed.

(** The filter of VeriMAC.c, and frames of 40 bytes. *)
Definition verimac_config : filter_config := Config 18 18 true.
Definition demo_words (b : Z) : list Z := map Z.of_nat (seq 300 9) ++ [b] ++ map Z.of_nat (seq 500 10).
Definition demo_frames : list timed_frame :=
  [TimedFrame false (demo_words 0x0A12) 50; TimedFrame true (demo_words 0x120A) 43;
   TimedFrame false (demo_words 0x1112) 60].

Lemma capture_passes_matching_frames_witness :
  let '(outs, rest, s) :=
    capture_frames verimac_config (Axis false 3 7 true) demo_frames [] (capture_reset (fun _ => 9)) in
  flat_map emitted outs = framed (demo_words 0x0A12) ++ framed (demo_words 0x1112) /\ rest = [].
Proof.
  pose proof (capture_passes_matching_frames verimac_config (Axis false 3 7 true) (fun _ => 9) demo_frames
    eq_refl ltac:(simpl; lia)) as H.
  destruct (capture_frames _ _ _ _ _) as [[outs rest] s].
  destruct H as (Hw & Hr & _).
  - repeat constructor; try (vm_compute; lia); vm_compute; discriminate.
  - split; [|exact Hr]. rewrite Hw. vm_compute. reflexivity.
Defined.

(** Two frames of which the first one ends in the word of the selected byte become one. *)
Theorem capture_merges_frames :
  flat_map emitted (fst (fst (capture_frames (Config 2 5 true) (Axis false 0 0 false)
    [TimedFrame false [1; 5] 3; TimedFrame false [2; 6; 7] 60] [] (capture_reset (fun _ => 0))))) =
  framed [1; 5; 2; 6; 7].
Proof. vm_compute. reflexivity. Qed.

(** A frame that is complete before the previous, longer one has been read out confuses the
    count of the words to read: the first words of a third frame are passed on although the
    filter rejects it. *)
Definition long_words (a : nat) (b : Z) (n : nat) : list Z :=
  map Z.of_nat (seq a 6) ++ [b] ++ map Z.of_nat (seq (a + 7) n).

Theorem capture_leaks_rejected_frame :
  let cfg := Config 12 7 true in
  let fs := [TimedFrame false (long_words 100 7 13) 22; TimedFrame false (long_words 200 7 1) 10;
             TimedFrame false (long_words 300 9 43) 60] in
  map (fun f => matches cfg (tf_words f)) fs = [true; true; false] /\
  flat_map emitted (fst (fst (capture_frames cfg (Axis false 0 0 false) fs [] (capture_reset (fun _ => 0))))) =
    framed (long_words 100 7 13) ++ framed (long_words 200 7 1) ++ [0; 300; 301; 302; 303; 304; 305; 0].
Proof. vm_compute. split; reflexivity. Qed.
