(* ===== verification/FShark.v ===== *)
(** * The capture device

    src/hardware/src/main/scala/io/FShark.scala: the device a processor sees. It puts the words
    from the buffer ([Capture]) into the frame FIFO ([MemFifo]), and a state machine decides
    when the FIFO is filled and when the processor reads it. The processor is a master of the
    bus of the processor that issues its next command some cycles after the answer to the last
    one.

    What is proved: a processor that sets the filter and triggers the device reads the first
    matching frame, and after that gets no answer until it triggers again. *)

From stdpp Require Import base list numbers.
From Stdlib Require Import ZArith Lia.
From S2P Require Import Prelude MemFifo Capture.

Local Open Scope Z_scope.
Local Open Scope c_scope.

(** ** The state machine and the registers of the device *)

Inductive ctl_state := ctl_idle | fill | fill_empty | waitForEOF | emptyToPatmos.

(** A command on the bus. *)
Inductive ocp_cmd := CmdIdle | CmdRd | CmdWr (addr data : Z).

(** [respReg] is whether the answer is valid, [respData] the register that holds the data of
    the answer. *)
Record control := Control {
  ctlState : ctl_state;
  stopFrameRecording : bool;
  frameLength : Z;
  fullFIFO : bool;
  writeEnable : bool;
  readHolder : bool;
  respReg : bool;
  respData : Z;
  ctlConfig : filter_config;
  txValid : bool;
  dataWriter : Z;
  memFifo : fifo Z
}.

Definition control_reset (f : fifo Z) : control :=
  Control ctl_idle false 0 false true false false 0 (Config 0 0 false) false 0 f.

Definition is_rd (cmd : ocp_cmd) : bool := match cmd with CmdRd => true | _ => false end.

(** [io.ocp.M.Addr(4, 2)] of a write. *)
Definition wr_reg (cmd : ocp_cmd) (k : Z) : bool :=
  match cmd with CmdWr addr _ => (addr >> 2) .& 7 =? k | _ => false end.

Definition wr_data (cmd : ocp_cmd) : Z := match cmd with CmdWr _ d => d | _ => 0 end.
Definition is_wr (cmd : ocp_cmd) : bool := match cmd with CmdWr _ _ => true | _ => false end.

(** A read stays pending until it is answered. *)
Definition sendToPatmos (c : control) (cmd : ocp_cmd) : bool :=
  if is_rd cmd || respReg c then is_rd cmd else readHolder c.

(** The FIFO has room and may be written: what the buffer sees. *)
Definition fifo_ready (c : control) : bool := negb (fullReg (memFifo c)) && writeEnable c.

(** [memFifo.io.deq.ready] *)
Definition fifo_take (c : control) (cmd : ocp_cmd) : bool :=
  match ctlState c with
  | fill_empty => deq_valid (memFifo c)
  | emptyToPatmos => sendToPatmos c cmd && deq_valid (memFifo c)
  | _ => false
  end.

Definition ctl_next (c : control) (cmd : ocp_cmd) (out : buffer_out) : ctl_state :=
  match ctlState c with
  | ctl_idle => if endOfFrame out then fill else ctl_idle
  | fill => if fullFIFO c then fill_empty else if stopFrameRecording c then waitForEOF else fill
  | fill_empty =>
      if frameLength c =? 0 then (if stopFrameRecording c then waitForEOF else fill) else fill_empty
  | waitForEOF =>
      if endOfFrame out then emptyToPatmos
      else if negb (frameRecieving out) && negb (bdeq_valid out) then emptyToPatmos else waitForEOF
  | emptyToPatmos =>
      if sendToPatmos c cmd && negb (deq_valid (memFifo c)) then ctl_idle else emptyToPatmos
  end.

Definition length_next (c : control) : Z :=
  match ctlState c with
  | fill =>
      if fullFIFO c && (frameLength c =? 0)
      then ((u16 (deq_bits (memFifo c) + 1) >> 1) + 1) mod 2 ^ 15 else frameLength c
  | fill_empty => if frameLength c =? 0 then 0 else frameLength c - 1
  | _ => frameLength c
  end.

(** The processor has read all: the device returns to [idle]. *)
Definition read_out (c : control) (cmd : ocp_cmd) : bool :=
  match ctlState c with
  | emptyToPatmos => sendToPatmos c cmd && negb (deq_valid (memFifo c))
  | _ => false
  end.

Definition config_next (cfg : filter_config) (cmd : ocp_cmd) : filter_config :=
  if wr_reg cmd 2 then Config (wr_data cmd .& 0xFFF) (filterValue cfg) false
  else if wr_reg cmd 3 then Config (filterIndex cfg) (wr_data cmd .& 0xFF) true
  else cfg.

(** A cycle of the device. [junk] is what the memory of the FIFO returns when it is read and
    written at the same address. *)
Definition control_cycle (junk : Z) (c : control) (cmd : ocp_cmd) (out : buffer_out) : control :=
  Control
    (ctl_next c cmd out)
    (if wr_reg cmd 0 then true else if read_out c cmd then false else stopFrameRecording c)
    (length_next c)
    (negb (fifo_ready c))
    (match ctlState c with emptyToPatmos => read_out c cmd | _ => writeEnable c end)
    (if respReg c || is_rd cmd then is_rd cmd else readHolder c)
    (is_wr cmd ||
     match ctlState c with
     | emptyToPatmos => sendToPatmos c cmd && deq_valid (memFifo c)
     | _ => false
     end)
    (deq_bits (memFifo c))
    (config_next (ctlConfig c) cmd)
    (wr_reg cmd 1)
    (if wr_reg cmd 1 then wr_data cmd else dataWriter c)
    (fifo_cycle frame_fifo_depth (memFifo c)
       (FifoIn (bdeq_valid out) (bdeq_bits out) (writeEnable c) (fifo_take c cmd) junk)).

(** ** The processor on the bus *)

Inductive request := Read | Write (addr data : Z).

(** The requests to come, each with a delay; the request that waits for its answer; the data
    of the reads that were answered. *)
Record master := Master { todo : list (nat * request); waiting : option request; got : list Z }.

Definition master_cmd (p : master) : ocp_cmd :=
  match waiting p, todo p with
  | None, (O, Read) :: _ => CmdRd
  | None, (O, Write a d) :: _ => CmdWr a d
  | _, _ => CmdIdle
  end.

Definition master_cycle (p : master) (resp : bool) (data : Z) : master :=
  match waiting p with
  | Some r =>
      if resp then Master (todo p) None (match r with Read => got p ++ [data] | _ => got p end) else p
  | None =>
      match todo p with
      | [] => p
      | (O, r) :: rs => Master rs (Some r) (got p)
      | (S d, r) :: rs => Master ((d, r) :: rs) None (got p)
      end
  end.

(** Device and processor. *)
Record node := Node { device : control; cpu : master }.

Definition node_cycle (junk : Z) (nd : node) (out : buffer_out) : node :=
  Node (control_cycle junk (device nd) (master_cmd (cpu nd)) out)
       (master_cycle (cpu nd) (respReg (device nd)) (respData (device nd))).

(** ** The whole system, fed by the MAC *)

Fixpoint fshark_run (junk : Z) (ia : axis) (n : nat) (src : list axis) (s : capture) (nd : node) :
    list axis * capture * node :=
  match n with
  | O => (src, s, nd)
  | S n =>
      let '(tready, out, s) :=
        capture_cycle (ctlConfig (device nd)) (fifo_ready (device nd)) (present ia src) s in
      fshark_run junk ia n (if tready then tail src else src) s (node_cycle junk nd out)
  end.

(** A stream of frames, as in [capture_frames]. *)
Fixpoint fshark_frames (junk : Z) (ia : axis) (fs : list timed_frame) (src : list axis)
    (s : capture) (nd : node) : list axis * capture * node :=
  match fs with
  | [] => (src, s, nd)
  | f :: fs =>
      let '(src, s, nd) :=
        fshark_run junk ia (tf_cycles f) (src ++ frame_beats (tf_odd f) (tf_words f)) s nd in
      fshark_frames junk ia fs src s nd
  end.

Section device.
Context (junk : Z) (ia : axis).

Definition node_run (nd : node) (outs : list buffer_out) : node := fold_left (node_cycle junk) outs nd.

Lemma node_run_app nd outs outs' : node_run nd (outs ++ outs') = node_run (node_run nd outs) outs'.
Proof. apply fold_left_app. Qed.

(** ** The two halves run on their own

    As long as the FIFO has room and the filter is not changed, filter and buffer do not
    depend on the rest of the device. *)
Fixpoint ready_along (cfg : filter_config) (nd : node) (outs : list buffer_out) : Prop :=
  match outs with
  | [] => True
  | out :: outs =>
      fifo_ready (device nd) = true /\ ctlConfig (device nd) = cfg /\
      ready_along cfg (node_cycle junk nd out) outs
  end.

Lemma ready_along_app cfg outs : forall nd outs',
  ready_along cfg nd outs -> ready_along cfg (node_run nd outs) outs' ->
  ready_along cfg nd (outs ++ outs').
Proof.
  induction outs as [|out outs IH]; intros nd outs'; [done|]. intros (? & ? & H) H'.
  split; [done|]. split; [done|]. by apply IH.
Qed.

Lemma lockstep cfg n : forall src s nd outs src' s',
  capture_run cfg ia n src s = (outs, src', s') -> ready_along cfg nd outs ->
  fshark_run junk ia n src s nd = (src', s', node_run nd outs).
Proof.
  induction n as [|n IH]; intros src s nd outs src' s' E R; cbn [capture_run] in E; [by simplify_eq|].
  destruct (capture_cycle cfg true (present ia src) s) as [[tready out] s1] eqn:E1.
  destruct (capture_run cfg ia n _ s1) as [[outs1 src1] s2] eqn:E2. simplify_eq.
  destruct R as (Hr & Hc & R). cbn [fshark_run]. rewrite Hr, Hc, E1. exact (IH _ _ _ _ _ _ E2 R).
Qed.

(** Without frames, whatever the rest of the device does. *)
Lemma quiet_cycle cfg ready s :
  quiet s -> exists s', quiet s' /\ capture_cycle cfg ready (present ia []) s = (false, silent, s').
Proof.
  destruct s as [f b]. intros (Hf & t & Hb). unfold capture_cycle. cbn [cfilter cbuffer] in *.
  destruct (holding_none b t [] ready Hb ltac:(simpl; lia)) as (b1 & E & Hb1).
  unfold filter_cycle. rewrite Hf. cbn [present tvalid].
  exists (Capture (Filter (if negb (bufferFull b) && filterSet cfg then 0 else cntFrame f)
    (popcount2 (tkeep ia)) (filterIndex cfg .& 1) bufferIdle) b1).
  split; [split; [done|by exists t]|].
  destruct (negb (bufferFull b) && filterSet cfg); by rewrite E.
Qed.

Lemma quiet_run n : forall s nd,
  quiet s -> exists s', quiet s' /\
    fshark_run junk ia n [] s nd = ([], s', node_run nd (replicate n silent)).
Proof.
  induction n as [|n IH]; intros s nd Hs; [by exists s|]. cbn [fshark_run].
  destruct (quiet_cycle (ctlConfig (device nd)) (fifo_ready (device nd)) s Hs) as (s1 & Hs1 & ->).
  destruct (IH s1 (node_cycle junk nd silent) Hs1) as (s' & Hs' & E'). by exists s'.
Qed.

(** ** The FIFO, as the device uses it *)

(** The FIFO offers the words [q] one after the other. *)
Definition offering (f : fifo Z) (q : list Z) : Prop :=
  match q with
  | [] => stateReg f = idle /\ emptyReg f = true /\ fifo_inv frame_fifo_depth f []
  | x :: q => deq_valid f = true /\ deq_bits f = x /\ fifo_inv frame_fifo_depth f q /\
      (emptyReg f = true <-> q = [])
  end.

Lemma depth_ok : 2 <= frame_fifo_depth.
Proof. unfold frame_fifo_depth. lia. Qed.

Lemma offering_valid f q : offering f q -> deq_valid f = match q with [] => false | _ => true end.
Proof. destruct q; [|by intros (? & _)]. unfold deq_valid. by intros (-> & _). Qed.

Definition fifo_input (x : option Z) (we take : bool) : fifo_in Z :=
  FifoIn (match x with Some _ => true | None => false end) (default 0 x) we take junk.

(** Nothing is written, and nothing taken. *)
Lemma offering_keep f q we :
  offering f q -> offering (fifo_cycle frame_fifo_depth f (fifo_input None we false)) q.
Proof.
  set (i := fifo_input None we false). destruct q as [|x q]; simpl.
  - intros (S & E & I). pose proof (inv_cycle _ depth_ok f i _ I) as I'.
    unfold queue_next, fetches, state_next, enqueued, i in *. rewrite S, E in *. by simpl in *.
  - intros (V & B & I & E). pose proof (inv_cycle _ depth_ok f i _ I) as I'.
    unfold queue_next, fetches, state_next, enqueued, deq_valid, deq_bits, i in *.
    destruct (stateReg f) eqn:St; [done|..]; simpl in *; rewrite app_nil_r in I';
      unfold state_next; by rewrite St.
Qed.

(** The word at the output is taken. *)
Lemma offering_take f x q we :
  offering f (x :: q) -> offering (fifo_cycle frame_fifo_depth f (fifo_input None we true)) q.
Proof.
  set (i := fifo_input None we true). intros (V & B & I & E).
  pose proof (inv_cycle _ depth_ok f i _ I) as I'.
  unfold queue_next, fetches, enqueued, deq_valid in *. destruct q as [|y q].
  - rewrite (proj2 E eq_refl), andb_false_r in *. simpl. unfold state_next, fetches.
    rewrite (proj2 E eq_refl), andb_false_r. by destruct (stateReg f).
  - pose proof (fetched_data _ depth_ok f i y q I) as D.
    assert (Ee : emptyReg f = false) by (apply not_true_is_false; intros F; by apply E in F).
    assert (Hf : fetches f i = true) by (unfold fetches; rewrite Ee; by destruct (stateReg f)).
    unfold fetches in Hf. rewrite Hf in I'. cbn [tail writes enq_valid i fifo_input andb] in I'.
    rewrite app_nil_r in I'. cbn [offering]. unfold deq_valid, deq_bits. rewrite D.
    pose proof (ring_take _ depth_ok _ _ _ _ _ (inv_ring _ _ _ I)) as [_ R].
    pose proof (inv_len _ _ _ I) as L. simpl in L.
    pose proof (ring_meet _ depth_ok _ _ _ _ R ltac:(lia)) as M.
    split; [|split; [|split; [done|]]].
    1,2: simpl; unfold state_next; rewrite Ee; by destruct (stateReg f).
    simpl. unfold fetches. rewrite Hf. rewrite Z.eqb_eq. split.
    + intros F. symmetry in F. apply M in F. destruct q; [done|]. simpl in *. lia.
    + intros ->. symmetry. apply M. by left.
Qed.

(** The FIFO while it is filled and nobody reads. *)
Definition filling (f : fifo Z) (q : list Z) : Prop :=
  match q with
  | [] => offering f []
  | [x] => stateReg f = idle /\ emptyReg f = false /\ fifo_inv frame_fifo_depth f [x]
  | [x; y] => stateReg f = valid /\ data f = x /\ fifo_inv frame_fifo_depth f [y]
  | x :: q => stateReg f = full /\ shadowReg f = x /\ emptyReg f = false /\
      fifo_inv frame_fifo_depth f q
  end.

Lemma filling_not_full f q :
  filling f q -> Z.of_nat (length q) < frame_fifo_depth -> fullReg f = false.
Proof.
  intros F L. assert (exists q', fifo_inv frame_fifo_depth f q' /\ (length q' <= length q)%nat)
    as (q' & I & L').
  { destruct q as [|x [|y [|z q]]]; [destruct F as (_ & _ & I)|destruct F as (_ & _ & I)
      |destruct F as (_ & _ & I)|destruct F as (_ & _ & _ & I)]; eexists; (split; [exact I|simpl; lia]). }
  rewrite (inv_full _ _ _ I). apply Z.eqb_neq. lia.
Qed.

Lemma filling_step f q z :
  filling f q -> Z.of_nat (length q) < frame_fifo_depth ->
  filling (fifo_cycle frame_fifo_depth f (fifo_input (Some z) true false)) (q ++ [z]).
Proof.
  intros F L. set (i := fifo_input (Some z) true false).
  pose proof (filling_not_full f q F L) as Hn.
  assert (W : writes f i = true) by (unfold writes; by rewrite Hn).
  assert (Q : forall q', fifo_inv frame_fifo_depth f q' ->
    fifo_inv frame_fifo_depth (fifo_cycle frame_fifo_depth f i) ((if fetches f i then tail q' else q') ++ [z])).
  { intros q' I. pose proof (inv_cycle _ depth_ok f i _ I) as I'. unfold queue_next, enqueued in I'.
    by rewrite W in I'. }
  destruct q as [|x [|y [|w q]]].
  - destruct F as (St & E & I). specialize (Q _ I). unfold fetches in Q. rewrite St, E in Q.
    cbn [app filling]. simpl. unfold state_next, fetches. rewrite W, St, E. by simpl in *.
  - destruct F as (St & E & I). specialize (Q _ I). pose proof (fetched_data _ depth_ok f i _ _ I) as D.
    unfold fetches in Q. rewrite St, E in Q. cbn [app filling]. split; [|by split].
    simpl. unfold state_next. by rewrite St, E.
  - destruct F as (St & D & I). specialize (Q _ I). unfold fetches in Q. rewrite St in Q.
    cbn [app filling]. simpl. unfold state_next, fetches. rewrite St, W, D. by simpl in *.
  - destruct F as (St & D & E & I). specialize (Q _ I). unfold fetches in Q. rewrite St in Q.
    cbn [app filling]. simpl. unfold state_next, fetches. rewrite St, W, D. by simpl in *.
Qed.

Lemma filling_offering f q : filling f q -> (3 <= length q)%nat -> offering f q.
Proof.
  destruct q as [|x [|y [|z q]]]; simpl; try lia. intros (St & D & E & I) _.
  unfold deq_valid, deq_bits. rewrite St, E. repeat (split; [done|]). done.
Qed.

(** ** The bus while the device does not answer *)

Record bus (c : control) (p : master) (g : list Z) (k : nat) : Prop := {
  bus_reads : Forall (fun r => snd r = Read) (todo p);
  bus_got : got p = g;
  bus_resp : respReg c = false;
  bus_wait : match waiting p with
    | None => readHolder c = false /\ k = length (todo p)
    | Some Read => readHolder c = true /\ k = S (length (todo p))
    | Some (Write _ _) => False
    end
}.

Lemma bus_no_write c p g k : bus c p g k -> is_wr (master_cmd p) = false.
Proof.
  intros [R _ _ _]. unfold master_cmd. destruct (waiting p); [done|].
  destruct (todo p) as [|[[|d] r] rs]; [done| |done]. apply Forall_cons_1 in R as [E _]. simpl in E.
  by subst.
Qed.

Lemma no_write_reg cmd k : is_wr cmd = false -> wr_reg cmd k = false.
Proof. by destruct cmd. Qed.

Lemma bus_step c p g k out :
  bus c p g k -> respReg (control_cycle junk c (master_cmd p) out) = false ->
  bus (control_cycle junk c (master_cmd p) out) (master_cycle p (respReg c) (respData c)) g k.
Proof.
  intros B Resp. destruct B as [R G Hr W].
  unfold master_cycle. rewrite Hr. destruct (waiting p) as [[|a d]|] eqn:E; [|done|].
  - split; try done. rewrite E. simpl. unfold master_cmd. by rewrite E, Hr.
  - destruct (todo p) as [|[[|d] r] rs] eqn:T.
    + split; [by rewrite T|done|done|]. rewrite E, T. simpl. unfold master_cmd. by rewrite E, T, Hr.
    + apply Forall_cons_1 in R as [Er R]. simpl in Er. subst r. split; [done|done|done|].
      simpl. unfold master_cmd. rewrite E, T, Hr. simpl. by destruct W.
    + apply Forall_cons_1 in R as [? ?]. split; [by apply Forall_cons_2|done|done|].
      simpl. unfold master_cmd. by rewrite E, T, Hr.
Qed.

Lemma bus_cycle c p g k out :
  bus c p g k -> ctlState c <> emptyToPatmos ->
  bus (control_cycle junk c (master_cmd p) out) (master_cycle p (respReg c) (respData c)) g k.
Proof.
  intros B N. apply bus_step; [done|]. simpl. rewrite (bus_no_write _ _ _ _ B).
  by destruct (ctlState c).
Qed.

(** ** Recording a frame *)

(** The device is triggered and takes words. *)
Record steady (cfg : filter_config) (g : list Z) (k : nat) (nd : node) : Prop := {
  steady_stop : stopFrameRecording (device nd) = true;
  steady_full : fullFIFO (device nd) = false;
  steady_write : writeEnable (device nd) = true;
  steady_config : ctlConfig (device nd) = cfg;
  steady_bus : bus (device nd) (cpu nd) g k
}.

Lemma config_keep cfg cmd : is_wr cmd = false -> config_next cfg cmd = cfg.
Proof. by destruct cmd. Qed.

Lemma steady_cycle cfg g k nd out :
  steady cfg g k nd -> fullReg (memFifo (device nd)) = false ->
  ctlState (device nd) <> emptyToPatmos -> steady cfg g k (node_cycle junk nd out).
Proof.
  intros [Hs Hf Hw Hc B] Hn N. pose proof (bus_no_write _ _ _ _ B) as W.
  split; [..|by apply bus_cycle]; simpl.
  - rewrite (no_write_reg _ 0 W). unfold read_out. by destruct (ctlState (device nd)).
  - unfold fifo_ready. by rewrite Hn, Hw.
  - by destruct (ctlState (device nd)).
  - by rewrite config_keep.
Qed.

(** [stage st q]: the state machine is in [st], and [q] is in the FIFO. *)
Definition stage (cfg : filter_config) (g : list Z) (k : nat) (st : ctl_state) (q : list Z)
    (nd : node) : Prop :=
  steady cfg g k nd /\ ctlState (device nd) = st /\ filling (memFifo (device nd)) q.

Lemma stage_ready cfg g k st q nd :
  stage cfg g k st q nd -> Z.of_nat (length q) < frame_fifo_depth ->
  fifo_ready (device nd) = true /\ ctlConfig (device nd) = cfg.
Proof.
  intros ([_ _ Hw Hc _] & _ & F) L. unfold fifo_ready.
  by rewrite (filling_not_full _ _ F L), Hw.
Qed.

(** While it waits for a frame, nothing happens; the end of a frame starts the recording. *)
Lemma stage_wait cfg g k nd (m : bool) :
  stage cfg g k ctl_idle [] nd ->
  stage cfg g k (if m then fill else ctl_idle) [] (node_cycle junk nd (end_out m)).
Proof.
  intros (S & St & F). pose proof (filling_not_full _ _ F ltac:(done)) as Hn.
  split; [apply steady_cycle; [done|done|by rewrite St]|].
  split; [simpl; unfold ctl_next; rewrite St; by destruct m|].
  simpl. unfold fifo_take. rewrite St.
  by destruct m; apply (offering_keep _ [] (writeEnable (device nd))).
Qed.

(** A word of the frame is recorded. *)
Lemma stage_send cfg g k nd st q x r :
  stage cfg g k st q nd -> st = fill \/ st = waitForEOF -> Z.of_nat (length q) < frame_fifo_depth ->
  stage cfg g k waitForEOF (q ++ [x]) (node_cycle junk nd (BufferOut true x false r)).
Proof.
  intros (S & St & F) H L. pose proof (filling_not_full _ _ F L) as Hn.
  split; [apply steady_cycle; [done|done|by rewrite St; destruct H as [->| ->]]|].
  destruct S as [Hs Hf Hw _ _].
  split; [simpl; unfold ctl_next; rewrite St, Hs, Hf; destruct H as [->| ->]; [done|by rewrite andb_false_r]|].
  assert (T : fifo_take (device nd) (master_cmd (cpu nd)) = false)
    by (unfold fifo_take; rewrite St; by destruct H as [->| ->]).
  simpl. rewrite T, Hw.
  by apply (filling_step _ q x).
Qed.

(** The processor reads: [q] is what it finds. *)
Record draining (cfg : filter_config) (g : list Z) (k : nat) (q : list Z) (nd : node) : Prop := {
  drain_state : ctlState (device nd) = emptyToPatmos;
  drain_fifo : offering (memFifo (device nd)) q;
  drain_config : ctlConfig (device nd) = cfg;
  drain_bus : bus (device nd) (cpu nd) g k
}.

Lemma stage_done cfg g k q nd :
  stage cfg g k waitForEOF q nd -> (3 <= length q)%nat -> Z.of_nat (length q) < frame_fifo_depth ->
  draining cfg g k q (node_cycle junk nd silent).
Proof.
  intros (S & St & F) L L'. pose proof (filling_not_full _ _ F L') as Hn.
  destruct (steady_cycle cfg g k nd silent S Hn ltac:(by rewrite St)) as [_ _ _ Hc B].
  split; [simpl; unfold ctl_next; by rewrite St| |done|done].
  simpl. unfold fifo_take. rewrite St.
  by apply (offering_keep _ q (writeEnable (device nd))), filling_offering.
Qed.

Lemma stage_waits cfg g k n : forall nd,
  stage cfg g k ctl_idle [] nd ->
  ready_along cfg nd (replicate n silent) /\
  stage cfg g k ctl_idle [] (node_run nd (replicate n silent)).
Proof.
  induction n as [|n IH]; intros nd S; [done|].
  destruct (stage_ready _ _ _ _ _ _ S ltac:(done)) as [? ?].
  destruct (IH _ (stage_wait _ _ _ _ false S)) as [? ?]. done.
Qed.

Lemma stage_sends cfg g k w : forall nd st q,
  stage cfg g k st q nd -> st = fill \/ st = waitForEOF -> w <> [] ->
  Z.of_nat (length (q ++ w)) < frame_fifo_depth ->
  ready_along cfg nd (send_outs w) /\ stage cfg g k waitForEOF (q ++ w) (node_run nd (send_outs w)).
Proof.
  induction w as [|x [|y w] IH]; intros nd st q S H N L; [done|..];
    rewrite length_app in L; simpl in L;
    destruct (stage_ready _ _ _ _ _ _ S ltac:(lia)) as [? ?].
  - split; [done|]. apply (stage_send _ _ _ _ st q x false S H). lia.
  - pose proof (stage_send _ _ _ _ st q x true S H ltac:(lia)) as S1.
    destruct (IH _ waitForEOF (q ++ [x]) S1) as [R S']; [by right|done|rewrite !length_app; simpl; lia|].
    rewrite <- app_assoc in S'. split; [|done]. split; [done|]. by split.
Qed.

(** The outputs of the buffer for a frame that is dropped, and for one that is kept. *)
Lemma dropped_outs cfg ws n :
  matches cfg ws = false -> exists m, frame_outs cfg ws n = replicate m silent.
Proof.
  intros E. unfold frame_outs, receive_outs. rewrite E.
  exists (S (length ws + 1 + (S (length ws) + (n - (2 * length ws + 3))))).
  change [end_out false] with (replicate 1 silent). by rewrite <- !replicate_add.
Qed.

Lemma kept_outs cfg ws :
  matches cfg ws = true ->
  frame_outs cfg ws (2 * length ws + 4) =
    replicate (S (length ws)) silent ++ [end_out true] ++ send_outs (framed ws) ++ [silent].
Proof.
  intros E. unfold frame_outs, receive_outs. rewrite E.
  replace (2 * length ws + 4 - (2 * length ws + 3))%nat with 1%nat by lia.
  by rewrite <- !app_assoc.
Qed.

Lemma dropped_frame cfg g k odd ws n s nd :
  filterSet cfg = true -> 0 <= filterIndex cfg < 4096 ->
  quiet s -> stage cfg g k ctl_idle [] nd -> frame_ok cfg ws -> (2 * length ws + 3 <= n)%nat ->
  matches cfg ws = false ->
  exists s' nd', quiet s' /\ stage cfg g k ctl_idle [] nd' /\
    fshark_run junk ia n (frame_beats odd ws) s nd = ([], s', nd').
Proof.
  intros Hc Hr Hs S Ok L M. destruct (frame_cycles cfg ia Hc Hr odd ws n s Hs Ok L) as (s' & Hs' & E).
  destruct (dropped_outs cfg ws n M) as (m & Em). rewrite Em in E.
  destruct (stage_waits cfg g k m nd S) as [R S'].
  exists s', (node_run nd (replicate m silent)). split; [done|]. split; [done|].
  by eapply lockstep.
Qed.

Lemma recorded_frame cfg g k odd ws s nd :
  filterSet cfg = true -> 0 <= filterIndex cfg < 4096 ->
  quiet s -> stage cfg g k ctl_idle [] nd -> frame_ok cfg ws -> matches cfg ws = true ->
  exists s' nd', quiet s' /\ draining cfg g k (framed ws) nd' /\
    fshark_run junk ia (2 * length ws + 4) (frame_beats odd ws) s nd = ([], s', nd').
Proof.
  intros Hc Hr Hs S Ok M.
  destruct (frame_cycles cfg ia Hc Hr odd ws (2 * length ws + 4) s Hs Ok ltac:(lia)) as (s' & Hs' & E).
  rewrite (kept_outs cfg ws M) in E. destruct Ok as ((L & L') & _).
  destruct (stage_waits cfg g k (Datatypes.S (length ws)) nd S) as [R1 S1].
  pose proof (stage_wait cfg g k _ true S1) as S2.
  assert (Hl : Z.of_nat (length ([] ++ framed ws)) < frame_fifo_depth)
    by (unfold frame_fifo_depth; simpl; lia).
  destruct (stage_sends cfg g k (framed ws) _ fill [] S2 ltac:(by left) ltac:(done) Hl) as [R3 S3].
  pose proof (stage_done cfg g k _ _ S3 ltac:(simpl; lia) Hl) as S4.
  eexists s', _. split; [done|]. split; [exact S4|].
  rewrite (lockstep _ _ _ _ nd _ _ _ E).
  - by rewrite !node_run_app.
  - apply ready_along_app; [done|]. apply ready_along_app.
    + by destruct (stage_ready _ _ _ _ _ _ S1 ltac:(done)).
    + apply ready_along_app; [done|]. by destruct (stage_ready _ _ _ _ _ _ S3 Hl).
Qed.

(** ** Reading it out *)

(** The answer is on the bus. *)
Record answered (cfg : filter_config) (g : list Z) (k : nat) (x : Z) (q : list Z) (nd : node) : Prop := {
  ans_state : ctlState (device nd) = emptyToPatmos;
  ans_fifo : offering (memFifo (device nd)) q;
  ans_config : ctlConfig (device nd) = cfg;
  ans_resp : respReg (device nd) = true;
  ans_data : respData (device nd) = x;
  ans_reads : Forall (fun r => snd r = Read) (todo (cpu nd));
  ans_got : got (cpu nd) = g;
  ans_wait : waiting (cpu nd) = Some Read;
  ans_left : k = length (todo (cpu nd))
}.

Lemma answered_next cfg g k x q nd :
  answered cfg g k x q nd ->
  draining cfg (g ++ [x]) k q (node_cycle junk nd silent) /\
  writeEnable (device (node_cycle junk nd silent)) = false.
Proof.
  intros [St F Hc Hr Hd R G W L].
  assert (C : master_cmd (cpu nd) = CmdIdle) by (unfold master_cmd; by rewrite W).
  assert (Hn : sendToPatmos (device nd) CmdIdle = false) by (unfold sendToPatmos; by rewrite Hr).
  unfold node_cycle. rewrite C. split; [split|]; simpl.
  - unfold ctl_next. by rewrite St, Hn.
  - unfold fifo_take. rewrite St, Hn. by apply (offering_keep _ q).
  - done.
  - unfold master_cycle. rewrite W, Hr. split; simpl; [done|by rewrite G, Hd|by rewrite St, Hn|].
    by rewrite Hr.
  - unfold read_out. by rewrite St, Hn.
Qed.

(** A read that is pending, or issued now, is answered. *)
Lemma drain_send cfg g k x q nd :
  draining cfg g (S k) (x :: q) nd -> sendToPatmos (device nd) (master_cmd (cpu nd)) = true ->
  answered cfg g k x q (node_cycle junk nd silent).
Proof.
  intros [St F Hc B] Hn. pose proof (bus_no_write _ _ _ _ B) as Hw. destruct B as [R G Hr W].
  pose proof (offering_valid _ _ F) as V. pose proof F as (_ & Hx & _).
  assert (M : master_cmd (cpu nd) = CmdIdle /\ waiting (cpu nd) = Some Read /\ k = length (todo (cpu nd)) \/
    exists rs, master_cmd (cpu nd) = CmdRd /\ waiting (cpu nd) = None /\ todo (cpu nd) = (O, Read) :: rs /\
      k = length rs).
  { unfold master_cmd, sendToPatmos in *. destruct (waiting (cpu nd)) as [[|]|]; [left|done|right].
    - destruct W as [_ [= ->]]. done.
    - destruct (todo (cpu nd)) as [|[[|d] [|]] rs]; simpl in *; rewrite ?Hr in Hn;
        try (destruct W as [W _]; congruence).
      destruct W as [_ [= ->]]. by exists rs. }
  split; simpl; try done.
  - unfold ctl_next. by rewrite St, V, andb_false_r.
  - unfold fifo_take. rewrite St, Hn, V. by apply (offering_take _ x q).
  - by rewrite config_keep.
  - by rewrite Hw, St, Hn, V.
  - unfold master_cycle. rewrite Hr. destruct M as [(_ & -> & _)|(rs & _ & -> & E & _)]; [done|].
    rewrite E in *. by apply Forall_cons_1 in R as [_ ?].
  - unfold master_cycle. rewrite Hr. destruct M as [(_ & -> & _)|(rs & _ & -> & E & _)]; [done|]. by rewrite E.
  - unfold master_cycle. rewrite Hr. destruct M as [(_ & E & _)|(rs & _ & -> & E & _)]; [by rewrite E|by rewrite E].
  - unfold master_cycle. rewrite Hr. destruct M as [(_ & -> & E)|(rs & _ & -> & E & ?)]; [done|by rewrite E].
Qed.

(** Without a read, the device waits. *)
Lemma drain_wait cfg g k q nd :
  draining cfg g k q nd -> sendToPatmos (device nd) (master_cmd (cpu nd)) = false ->
  draining cfg g k q (node_cycle junk nd silent).
Proof.
  intros [St F Hc B] Hn. pose proof (bus_no_write _ _ _ _ B) as Hw.
  split; simpl.
  - unfold ctl_next. by rewrite St, Hn.
  - unfold fifo_take. rewrite St, Hn. by apply (offering_keep _ q).
  - by rewrite config_keep.
  - apply bus_step; [done|]. simpl. by rewrite Hw, St, Hn.
Qed.

(** The cycles until the next read is on the bus. *)
Definition read_delay (p : master) : nat :=
  match waiting p, todo p with
  | None, (d, _) :: _ => d
  | _, _ => O
  end.

Lemma drain_sends cfg g k q nd :
  draining cfg g (S k) q nd -> read_delay (cpu nd) = O ->
  sendToPatmos (device nd) (master_cmd (cpu nd)) = true.
Proof.
  intros [_ _ _ [R _ Hr W]]. unfold read_delay, sendToPatmos, master_cmd.
  destruct (waiting (cpu nd)) as [[|]|]; [|done|].
  - intros _. simpl. rewrite Hr. by destruct W.
  - destruct (todo (cpu nd)) as [|[d r] rs]; [by destruct W|]. intros ->.
    apply Forall_cons_1 in R as [E _]. simpl in E. by subst r.
Qed.

Lemma delay_step cfg g k q nd d :
  draining cfg g k q nd -> read_delay (cpu nd) = S d ->
  sendToPatmos (device nd) (master_cmd (cpu nd)) = false /\
  read_delay (cpu (node_cycle junk nd silent)) = d.
Proof.
  intros [_ _ _ [_ _ Hr W]]. unfold read_delay, sendToPatmos, master_cmd, node_cycle, master_cycle.
  destruct (waiting (cpu nd)) eqn:E; [done|]. destruct (todo (cpu nd)) as [|[[|d'] r] rs]; [done..|].
  intros [= ->]. cbn [cpu waiting todo]. rewrite Hr. by destruct W.
Qed.

Lemma drain_one cfg x q k d : forall g nd,
  read_delay (cpu nd) = d -> draining cfg g (S k) (x :: q) nd ->
  exists n, draining cfg (g ++ [x]) k q (node_run nd (replicate n silent)) /\
    writeEnable (device (node_run nd (replicate n silent))) = false.
Proof.
  induction d as [|d IH]; intros g nd Hd D.
  - exists 2%nat. apply (answered_next _ _ _ x). apply drain_send; [done|]. by eapply drain_sends.
  - destruct (delay_step _ _ _ _ _ _ D Hd) as [Hn Hd'].
    destruct (IH g _ Hd' (drain_wait _ _ _ _ _ D Hn)) as (n & Hd'' & Hw). by exists (S n).
Qed.

Lemma drain_all cfg q : forall g k nd,
  draining cfg g (length q + k) q nd -> q <> [] ->
  exists n, draining cfg (g ++ q) k [] (node_run nd (replicate n silent)) /\
    writeEnable (device (node_run nd (replicate n silent))) = false.
Proof.
  induction q as [|x q IH]; intros g k nd D N; [done|].
  destruct (drain_one cfg x q (length q + k) _ g nd eq_refl D) as (n & D1 & W1).
  destruct q as [|y q]; [by exists n|].
  destruct (IH (g ++ [x]) k _ D1 ltac:(done)) as (n' & D2 & W2). exists (n + n')%nat.
  rewrite replicate_add, node_run_app. rewrite <- app_assoc in D2. done.
Qed.

(** ** After that *)

(** All that was recorded has been read, and the trigger is not set, or will not be. *)
Definition exhausted (g : list Z) (nd : node) : Prop :=
  (exists k, bus (device nd) (cpu nd) g k) /\
  match ctlState (device nd) with
  | emptyToPatmos => offering (memFifo (device nd)) [] /\ writeEnable (device nd) = false
  | waitForEOF => False
  | _ => stopFrameRecording (device nd) = false
  end.

Lemma exhausted_cycle g nd out :
  exhausted g nd -> (fifo_ready (device nd) = false -> bdeq_valid out = false) ->
  exhausted g (node_cycle junk nd out).
Proof.
  intros [(k & B) H] Ho. pose proof (bus_no_write _ _ _ _ B) as Hw. split.
  - exists k. apply bus_step; [done|]. simpl. rewrite Hw.
    destruct (ctlState (device nd)); try done. destruct H as [F _].
    by rewrite (offering_valid _ _ F), andb_false_r.
  - destruct (ctlState (device nd)) eqn:St; simpl; unfold ctl_next, read_out; rewrite St;
      try (rewrite H, (no_write_reg _ 0 Hw)).
    + by destruct (endOfFrame out).
    + by destruct (fullFIFO (device nd)).
    + by destruct (frameLength (device nd) =? 0).
    + done.
    + destruct H as [F E]. rewrite (offering_valid _ _ F), andb_true_r, (no_write_reg _ 0 Hw).
      destruct (sendToPatmos (device nd) (master_cmd (cpu nd))) eqn:Hn; [done|].
      split; [|done]. unfold fifo_take, fifo_ready in *. rewrite St, Hn, E, andb_false_r in *.
      rewrite Ho by done. by apply (offering_keep _ [] false).
Qed.

Lemma exhausted_run g n : forall src s nd,
  exhausted g nd -> exhausted g (snd (fshark_run junk ia n src s nd)).
Proof.
  induction n as [|n IH]; intros src s nd E; [done|]. cbn [fshark_run].
  destruct (capture_cycle _ _ _ s) as [[tready out] s1] eqn:C. apply IH, exhausted_cycle; [done|].
  intros Hr. unfold capture_cycle in C. rewrite Hr in C.
  destruct (filter_cycle _ _ _ _) as [[tr b] f]. unfold buffer_cycle in C. by simplify_eq.
Qed.

(** ** Setting it up *)

(** The device rests, and the processor has the requests [rs] left. *)
Record resting (stop : bool) (cfg : filter_config) (rs : list (nat * request)) (nd : node) : Prop := {
  rest_state : ctlState (device nd) = ctl_idle;
  rest_stop : stopFrameRecording (device nd) = stop;
  rest_full : fullFIFO (device nd) = false;
  rest_write : writeEnable (device nd) = true;
  rest_config : ctlConfig (device nd) = cfg;
  rest_fifo : offering (memFifo (device nd)) [];
  rest_holder : readHolder (device nd) = false;
  rest_resp : respReg (device nd) = false;
  rest_cpu : cpu nd = Master rs None []
}.

Lemma offering_room f : offering f [] -> fullReg f = false.
Proof. intros (_ & _ & I). by rewrite (inv_full _ _ _ I). Qed.

Lemma resting_delay stop cfg d r rs nd :
  resting stop cfg ((S d, r) :: rs) nd -> resting stop cfg ((d, r) :: rs) (node_cycle junk nd silent).
Proof.
  intros [St Hs Hf Hw Hc F Hh Hr P]. pose proof (offering_room _ F) as Hn.
  unfold node_cycle. rewrite P. split; simpl; unfold ctl_next, read_out, fifo_ready, fifo_take;
    rewrite ?St, ?Hn, ?Hw, ?Hr; try done. by apply (offering_keep _ [] true).
Qed.

Lemma resting_write stop cfg d a v rs : forall nd,
  resting stop cfg ((d, Write a v) :: rs) nd ->
  resting (if wr_reg (CmdWr a v) 0 then true else stop) (config_next cfg (CmdWr a v)) rs
    (node_run nd (replicate (d + 2) silent)).
Proof.
  induction d as [|d IH]; intros nd R; [|by apply IH, resting_delay].
  destruct R as [St Hs Hf Hw Hc F Hh Hr P]. pose proof (offering_room _ F) as Hn.
  cbn [replicate Nat.add node_run fold_left].
  set (nd1 := node_cycle junk nd silent).
  assert (P1 : cpu nd1 = Master rs (Some (Write a v)) []) by (unfold nd1, node_cycle; by rewrite P).
  assert (C : control_cycle junk (device nd) (CmdWr a v) silent = device nd1)
    by (unfold nd1, node_cycle; by rewrite P).
  assert (F1 : offering (memFifo (device nd1)) []).
  { rewrite <- C. simpl. unfold fifo_take. rewrite St, Hw. by apply (offering_keep _ [] true). }
  assert (Q : ctlState (device nd1) = ctl_idle /\ respReg (device nd1) = true /\
    stopFrameRecording (device nd1) = (if wr_reg (CmdWr a v) 0 then true else stop) /\
    writeEnable (device nd1) = true /\ ctlConfig (device nd1) = config_next cfg (CmdWr a v)).
  { rewrite <- C. cbn [control_cycle ctlState respReg stopFrameRecording writeEnable ctlConfig].
    unfold ctl_next, read_out. rewrite St, Hs, Hw, Hc. done. }
  clearbody nd1. destruct Q as (St1 & Hr1 & Hs1 & Hw1 & Hc1). clear - P1 F1 St1 Hr1 Hs1 Hw1 Hc1.
  pose proof (offering_room _ F1) as Hn1.
  unfold node_cycle. rewrite P1. split; simpl; unfold ctl_next, read_out, fifo_ready, fifo_take;
    rewrite ?St1, ?Hn1, ?Hw1, ?Hr1; try done. by apply (offering_keep _ [] true).
Qed.

Lemma resting_stage cfg rs nd :
  resting true cfg rs nd -> Forall (fun r => snd r = Read) rs -> stage cfg [] (length rs) ctl_idle [] nd.
Proof.
  intros [St Hs Hf Hw Hc F Hh Hr P] R. split; [|done]. split; try done.
  by split; rewrite ?P.
Qed.

End device.

(** The requests of a processor that sets the filter, triggers the device, and reads. *)
Definition capture_program (index value : Z) (d1 d2 d3 : nat) (ds : list nat) : list (nat * request) :=
  (d1, Write 8 index) :: (d2, Write 12 value) :: (d3, Write 0 1) :: map (fun d => (d, Read)) ds.

Definition start_node (m : Z -> Z) (shadow out : Z) (rs : list (nat * request)) : node :=
  Node (control_reset (fifo_init m shadow out)) (Master rs None []).

Lemma start_resting m shadow out rs : resting false (Config 0 0 false) rs (start_node m shadow out rs).
Proof.
  split; try done. simpl. split; [done|]. split; [done|]. apply inv_init. apply depth_ok.
Qed.

(** After the set-up the device waits for a frame. *)
Lemma setup_stage junk m shadow out index value d1 d2 d3 ds n :
  0 <= index < 4096 -> 0 <= value < 256 -> (d1 + d2 + d3 + 6 <= n)%nat ->
  stage (Config index value true) [] (length ds) ctl_idle []
    (node_run junk (start_node m shadow out (capture_program index value d1 d2 d3 ds)) (replicate n silent)).
Proof.
  intros Hi Hv L.
  pose proof (resting_write junk _ _ _ _ _ _ _ (start_resting m shadow out
    (capture_program index value d1 d2 d3 ds))) as R1.
  pose proof (resting_write junk _ _ _ _ _ _ _ R1) as R2.
  pose proof (resting_write junk _ _ _ _ _ _ _ R2) as R3. clear R1 R2.
  cbn [wr_reg config_next] in R3.
  assert (C : config_next (config_next (config_next (Config 0 0 false) (CmdWr 8 index)) (CmdWr 12 value))
    (CmdWr 0 1) = Config index value true).
  { unfold config_next. simpl. change 4095 with (Z.ones 12).
    rewrite land_ff, Z.land_ones by lia. f_equal; apply Z.mod_small; lia. }
  change (resting true (config_next (config_next (config_next (Config 0 0 false) (CmdWr 8 index)) (CmdWr 12 value))
    (CmdWr 0 1)) (map (fun d => (d, Read)) ds)
    (node_run junk (node_run junk (node_run junk (start_node m shadow out (capture_program index value d1 d2 d3 ds))
      (replicate (d1 + 2) silent)) (replicate (d2 + 2) silent)) (replicate (d3 + 2) silent))) in R3.
  rewrite C, <- !node_run_app, <- !replicate_add in R3.
  pose proof (resting_stage _ _ _ R3 ltac:(by apply Forall_map, Forall_true)) as S. rewrite length_map in S.
  destruct (stage_waits junk _ _ _ (n - (d1 + d2 + d3 + 6)) _ S) as [_ S'].
  rewrite <- node_run_app, <- replicate_add in S'.
  by replace n with (d1 + 2 + (d2 + 2 + (d3 + 2)) + (n - (d1 + d2 + d3 + 6)))%nat by lia.
Qed.

Lemma fshark_run_app junk ia a b : forall src s nd,
  fshark_run junk ia (a + b) src s nd =
    let '(src, s, nd) := fshark_run junk ia a src s nd in fshark_run junk ia b src s nd.
Proof.
  induction a as [|a IH]; intros src s nd; [done|]. cbn [Nat.add fshark_run].
  destruct (capture_cycle _ _ _ s) as [[tready out] s1]. apply IH.
Qed.

(** Frames that do not match leave the device waiting. *)
Lemma dropped_frames junk ia cfg g k fs : forall s nd,
  filterSet cfg = true -> 0 <= filterIndex cfg < 4096 ->
  Forall (timed_ok cfg) fs -> Forall (fun f => matches cfg (tf_words f) = false) fs ->
  quiet s -> stage cfg g k ctl_idle [] nd ->
  exists s' nd', quiet s' /\ stage cfg g k ctl_idle [] nd' /\
    fshark_frames junk ia fs [] s nd = ([], s', nd').
Proof.
  induction fs as [|f fs IH]; intros s nd Hc Hr Ok M Hs S; [by exists s, nd|].
  apply Forall_cons_1 in Ok as [[Of Lf] Ok]. apply Forall_cons_1 in M as [Mf M].
  destruct (dropped_frame junk ia cfg g k (tf_odd f) (tf_words f) (tf_cycles f) s nd)
    as (s1 & nd1 & Hs1 & S1 & E1); try done.
  destruct (IH s1 nd1) as (s' & nd' & Hs' & S' & E'); try done.
  exists s', nd'. split; [done|]. split; [done|]. cbn [fshark_frames app]. by rewrite E1.
Qed.

(** A matching frame is recorded and read, and no read is answered after that. *)
Lemma read_frame junk ia cfg ds odd ws s nd :
  filterSet cfg = true -> 0 <= filterIndex cfg < 4096 -> frame_ok cfg ws -> matches cfg ws = true ->
  quiet s -> stage cfg [] ds ctl_idle [] nd -> (length ws < ds)%nat ->
  exists N, forall n, (N <= n)%nat ->
    exists s' nd', fshark_run junk ia n (frame_beats odd ws) s nd = ([], s', nd') /\
      exhausted (framed ws) nd'.
Proof.
  intros Hc Hr Ok M Hs S L.
  destruct (recorded_frame junk ia cfg [] ds odd ws s nd Hc Hr Hs S Ok M) as (s1 & nd1 & Hs1 & D & E1).
  replace ds with (length (framed ws) + (ds - Datatypes.S (length ws)))%nat in D by (simpl; lia).
  destruct (drain_all junk cfg (framed ws) [] _ nd1 D ltac:(done)) as (k & D' & W).
  exists (2 * length ws + 4 + k)%nat. intros n Hn.
  replace n with (2 * length ws + 4 + (k + (n - (2 * length ws + 4 + k))))%nat by lia.
  rewrite fshark_run_app, E1, fshark_run_app.
  destruct (quiet_run junk ia k s1 nd1 Hs1) as (s2 & Hs2 & E2). rewrite E2.
  destruct (quiet_run junk ia (n - (2 * length ws + 4 + k)) s2 (node_run junk nd1 (replicate k silent)) Hs2)
    as (s3 & Hs3 & E3). rewrite E3. eexists s3, _. split; [done|].
  change (node_run junk (node_run junk nd1 (replicate k silent))
    (replicate (n - (2 * length ws + 4 + k)) silent)) with
    (snd ([] : list axis, s3, node_run junk (node_run junk nd1 (replicate k silent))
      (replicate (n - (2 * length ws + 4 + k)) silent))).
  rewrite <- E3. apply exhausted_run. destruct D' as [St F _ B].
  split; [by eexists|]. by rewrite St.
Qed.

(** The capture device from end to end, in cycles: a processor sets the filter,
    triggers the device and reads, at any pace; the MAC then receives frames of which the
    last one is the first to match. The processor reads exactly this frame, preceded by the
    number of its bytes before the last word; and whatever arrives later, no further read is
    answered, as the trigger has to be set again. *)
Theorem fshark_delivers_first_match junk ia mb mf shadow out index value d1 d2 d3 ds n0 fs odd ws :
  let cfg := Config index value true in
  0 <= index < 4096 -> 0 <= value < 256 -> (d1 + d2 + d3 + 6 <= n0)%nat ->
  Forall (timed_ok cfg) fs -> Forall (fun f => matches cfg (tf_words f) = false) fs ->
  frame_ok cfg ws -> matches cfg ws = true -> (length ws < length ds)%nat ->
  let '(src1, s1, nd1) := fshark_run junk ia n0 [] (capture_reset mb)
    (start_node mf shadow out (capture_program index value d1 d2 d3 ds)) in
  let '(src2, s2, nd2) := fshark_frames junk ia fs src1 s1 nd1 in
  exists N, forall n, (N <= n)%nat ->
    let '(src3, s3, nd3) := fshark_run junk ia n (src2 ++ frame_beats odd ws) s2 nd2 in
    got (cpu nd3) = framed ws /\
    forall m src, got (cpu (snd (fshark_run junk ia m (src3 ++ src) s3 nd3))) = framed ws.
Proof.
  intros cfg Hi Hv L Ok M Okw Mw Ld.
  destruct (quiet_run junk ia n0 _ (start_node mf shadow out (capture_program index value d1 d2 d3 ds))
    (quiet_reset mb)) as (s1 & Hs1 & ->).
  pose proof (setup_stage junk mf shadow out index value d1 d2 d3 ds n0 Hi Hv L) as S.
  destruct (dropped_frames junk ia cfg [] (length ds) fs s1 _ eq_refl Hi Ok M Hs1 S)
    as (s2 & nd2 & Hs2 & S2 & ->).
  destruct (read_frame junk ia cfg (length ds) odd ws s2 nd2) as (N & H); try done.
  exists N. intros n Hn. destruct (H n Hn) as (s3 & nd3 & E & X). cbn [app]. rewrite E.
  assert (G : forall nd, exhausted (framed ws) nd -> got (cpu nd) = framed ws)
    by (intros nd [(k & [_ ? _ _]) _]; done).
  split; [by apply G|]. intros m src. by apply G, exhausted_run.
Qed.

(** A processor with the filter of VeriMAC.c, and two frames. *)
Definition demo_run (n : nat) : list axis * capture * node :=
  let '(src1, s1, nd1) := fshark_run 77 (Axis false 3 7 true) 11 [] (capture_reset (fun _ => 9))
    (start_node (fun _ => 5) 6 7 (capture_program 18 18 0 1 4 (replicate 25 3%nat))) in
  let '(src2, s2, nd2) :=
    fshark_frames 77 (Axis false 3 7 true) [TimedFrame true (demo_words 0x120A) 43] src1 s1 nd1 in
  fshark_run 77 (Axis false 3 7 true) n (src2 ++ frame_beats false (demo_words 0x0A12)) s2 nd2.

Example demo_run_reads : got (cpu (snd (demo_run 200))) = framed (demo_words 0x0A12).
Proof. vm_compute. reflexivity. Qed.

