(* ===== verification/VeriMac.v ===== *)
(** * The program that prints captured frames

    src/c/VeriMAC.c (and VeriMAC2.c, which differs in the filter): sets the filter, triggers
    the capture device and prints what it delivers as hexadecimal numbers. The program is a
    computation over the accesses to its devices: a read of the capture device takes the next
    word the device delivers and stalls the processor, for good, when there is none. *)

From stdpp Require Import base list numbers.
From Stdlib Require Import ZArith Lia.
From S2P Require Import Prelude MemFifo Capture FShark.

Local Open Scope Z_scope.
Local Open Scope c_scope.

(** ** The devices *)

(** The registers the program uses: of the UART, of the capture device (its addresses 0, 8 and
    12), and of the deadline timer. *)
Inductive reg := uart_status | uart_data | io_ptr | filter_index | filter_value | dead_ptr.

#[export] Instance reg_eq_dec : EqDecision reg.
Proof. solve_decision. Defined.

(** An access: a store, a load and what it returned, and the call of [printf] for a frame. *)
Inductive access :=
  | Store (r : reg) (v : Z)
  | Load (r : reg) (v : Z)
  | Printf (length : Z).

(** The words to come from the capture device; for each wait for the UART the number of polls
    that find it busy; the accesses so far. *)
Record board := Board { to_read : list Z; uart_waits : list nat; accesses : list access }.

(** A computation ends in a value, or in a processor that waits for the device. *)
Inductive outcome (A : Type) := Running (a : A) (s : board) | Stalled (s : board).
Arguments Running {A}.
Arguments Stalled {A}.

Definition prog (A : Type) : Type := board -> outcome A.
#[export] Instance prog_ret : MRet prog := fun A a s => Running a s.
#[export] Instance prog_bind : MBind prog := fun A B k m s =>
  match m s with Running a s => k a s | Stalled s => Stalled s end.

Definition access_log (a : access) : prog unit :=
  fun s => Running tt (Board (to_read s) (uart_waits s) (accesses s ++ [a])).

Definition store (r : reg) (v : Z) : prog unit := access_log (Store r v).

(** A read of [io_ptr]. *)
Definition load_io : prog Z := fun s =>
  match to_read s with
  | [] => Stalled s
  | w :: ws => Running w (Board ws (uart_waits s) (accesses s ++ [Load io_ptr w]))
  end.

(** A read of [dead_ptr], which returns when the deadline has passed. *)
Definition load_dead : prog unit := access_log (Load dead_ptr 0).

(** The loop that polls [uart_status] until its lowest bit is set. *)
Fixpoint poll (busy : nat) : prog unit :=
  match busy with
  | O => access_log (Load uart_status 1)
  | S busy => access_log (Load uart_status 0) ;; poll busy
  end.

Definition wait_uart : prog unit := fun s =>
  match uart_waits s with
  | [] => poll 0 s
  | n :: ns => poll n (Board (to_read s) ns (accesses s))
  end.

(** ** The program *)

(** The string [hex], and [tohex()]: four digits and a blank. *)
Definition hex : list Z := [48; 49; 50; 51; 52; 53; 54; 55; 56; 57; 65; 66; 67; 68; 69; 70].

Definition tohex (pin : Z) : list Z :=
  [arr hex ((pin >> 12) .& 0xF); arr hex ((pin >> 8) .& 0xF); arr hex ((pin >> 4) .& 0xF);
   arr hex (pin .& 0xF); 32].

(** The body of the inner loop. *)
Definition print_word : prog unit :=
  packet ← load_io;
  let str := tohex packet in
  store uart_data (arr str 2) ;; store uart_data (arr str 3) ;; store uart_data (arr str 4) ;;
  store uart_data (arr str 0) ;; store uart_data (arr str 1) ;; store uart_data (arr str 4) ;;
  wait_uart.

(** [for (int i = 0; i <= frameLength; i++)], [n] more rounds. *)
Fixpoint print_words (n : nat) : prog unit :=
  match n with
  | O => mret ()
  | S n => print_word ;; print_words n
  end.

(** The body of [for (;;)]. *)
Definition print_frame : prog unit :=
  w ← load_io;
  let frameLength := Z.quot w 2 in
  access_log (Printf (frameLength * 2)) ;;
  print_words (Z.to_nat (frameLength + 1)).

Fixpoint main_loop (fuel : nat) : prog unit :=
  match fuel with
  | O => mret ()
  | S fuel => print_frame ;; main_loop fuel
  end.

(** [main()], with the index and the value of the filter. *)
Definition verimac_main (index value : Z) (fuel : nat) : prog unit :=
  store filter_index index ;; store filter_value value ;;
  store dead_ptr 5000 ;; load_dead ;;
  store io_ptr 1 ;;
  main_loop fuel.

Definition VeriMAC_main : nat -> prog unit := verimac_main 18 18.
Definition VeriMAC2_main : nat -> prog unit := verimac_main 63 63.

(** ** What is printed *)

(** What leaves the program: its stores and the lines it prints. *)
Definition visible (a : access) : bool := match a with Load _ _ => false | _ => true end.

Definition output (s : board) : list access := List.filter visible (accesses s).

(** Two hexadecimal digits and a blank for a byte, for the bytes of a frame in their order. *)
Definition hex_byte (b : Z) : list access :=
  map (Store uart_data) [arr hex (b / 16); arr hex (b mod 16); 32].

Definition printed_frame (ws : list Z) : list access :=
  Printf (2 * (Z.of_nat (length ws) - 1)) :: flat_map hex_byte (frame_bytes ws).

(** [runs m s out s']: [m] returns, writes [out], and leaves [s'] to be read. *)
Definition runs (m : prog unit) (ws : list Z) (out : list access) (ws' : list Z) : Prop :=
  forall s, to_read s = ws ->
    exists s', m s = Running tt s' /\ output s' = output s ++ out /\ to_read s' = ws'.

Lemma runs_log a ws : runs (access_log a) ws (if visible a then [a] else []) ws.
Proof.
  intros s <-. eexists. split; [reflexivity|]. split; [|done]. unfold output. simpl.
  rewrite List.filter_app. simpl. by destruct (visible a).
Qed.

Lemma runs_bind m k ws out ws1 out1 ws2 :
  runs m ws out ws1 -> runs k ws1 out1 ws2 -> runs (m ;; k) ws (out ++ out1) ws2.
Proof.
  intros Hm Hk s Hs. destruct (Hm s Hs) as (s1 & E1 & O1 & R1).
  destruct (Hk s1 R1) as (s2 & E2 & O2 & R2). exists s2. unfold mbind, prog_bind. rewrite E1.
  split; [done|]. split; [|done]. by rewrite O2, O1, app_assoc.
Qed.

Lemma runs_load k ws w out ws' :
  runs (k w) ws out ws' -> runs (load_io ≫= k) (w :: ws) out ws'.
Proof.
  intros Hk s Hs. unfold mbind, prog_bind, load_io. rewrite Hs.
  destruct (Hk (Board ws (uart_waits s) (accesses s ++ [Load io_ptr w])) eq_refl) as (s2 & E2 & O2 & R2).
  exists s2. split; [done|]. split; [|done]. rewrite O2. unfold output. simpl.
  by rewrite List.filter_app, app_nil_r.
Qed.

Lemma runs_poll ws n : runs (poll n) ws [] ws.
Proof.
  induction n as [|n IH]; [apply runs_log|].
  by apply (runs_bind _ _ _ [] ws [] ws); [apply runs_log|].
Qed.

Lemma runs_wait ws : runs wait_uart ws [] ws.
Proof.
  intros s Hs. unfold wait_uart. destruct (uart_waits s) as [|n ns]; [by apply runs_poll|].
  by destruct (runs_poll ws n (Board (to_read s) ns (accesses s)) Hs) as (s' & E & O & R); exists s'.
Qed.

Lemma land_f x : x .& 0xF = x mod 16.
Proof. apply (Z.land_ones x 4). lia. Qed.

(** The digits of a word are those of its two bytes, the lower one first. *)
Lemma runs_word ws w :
  runs print_word (w :: ws) (flat_map hex_byte [u8 w; u8 (w >> 8)]) ws.
Proof.
  unfold print_word. apply runs_load. unfold store.
  assert (E : flat_map hex_byte [u8 w; u8 (w >> 8)] =
    map (Store uart_data) [arr (tohex w) 2; arr (tohex w) 3; arr (tohex w) 4; arr (tohex w) 0;
      arr (tohex w) 1; arr (tohex w) 4]).
  { unfold tohex, hex_byte. cbn [flat_map app map]. rewrite !land_f, !shr_div by lia.
    generalize (arr hex). intros h. unfold arr, u8. cbn [nth Z.to_nat Pos.to_nat Pos.iter_op Nat.add].
    assert ((w mod 256) / 16 = w / 2 ^ 4 mod 16) as -> by zdm.
    assert ((w mod 256) mod 16 = w mod 16) as -> by zdm.
    assert ((w / 2 ^ 8) mod 256 / 16 = w / 2 ^ 12 mod 16) as -> by zdm.
    by assert (((w / 2 ^ 8) mod 256) mod 16 = w / 2 ^ 8 mod 16) as -> by zdm. }
  rewrite E. cbn [map].
  do 6 (apply (runs_bind _ _ _ [_] ws); [apply runs_log|]). apply runs_wait.
Qed.

Lemma runs_words ws : forall rest,
  runs (print_words (length ws)) (ws ++ rest) (flat_map hex_byte (frame_bytes ws)) rest.
Proof.
  induction ws as [|w ws IH]; intros rest.
  - intros s Hs. exists s. split; [done|]. split; [|done]. by rewrite app_nil_r.
  - unfold frame_bytes. cbn [flat_map length print_words]. rewrite flat_map_app.
    eapply runs_bind; [apply runs_word|apply IH].
Qed.

Lemma runs_frame ws rest :
  ws <> [] -> runs print_frame (framed ws ++ rest) (printed_frame ws) rest.
Proof.
  intros Hw. assert (1 <= length ws)%nat by (destruct ws; [done|simpl; lia]).
  unfold print_frame, framed. cbn [app]. apply runs_load.
  rewrite Z.mul_comm, Z.quot_mul by lia. apply (runs_bind _ _ _ [_] (ws ++ rest)).
  - rewrite Z.mul_comm. apply runs_log.
  - replace (Z.to_nat (Z.of_nat (length ws) - 1 + 1)) with (length ws) by lia. apply runs_words.
Qed.

(** The loop prints the frames that come and then waits for the device. *)
Lemma main_loop_prints frames : forall fuel s,
  Forall (fun ws => ws <> []) frames -> (length frames < fuel)%nat ->
  to_read s = flat_map framed frames ->
  exists s', main_loop fuel s = Stalled s' /\ to_read s' = [] /\
    output s' = output s ++ flat_map printed_frame frames.
Proof.
  induction frames as [|ws frames IH]; intros [|fuel] s Hf L Hs; simpl in L; try lia.
  - exists s. cbn [main_loop]. unfold mbind, prog_bind, print_frame, load_io. simpl in Hs.
    unfold mbind, prog_bind. rewrite Hs. split; [done|]. split; [done|]. by rewrite app_nil_r.
  - apply Forall_cons_1 in Hf as [Hw Hf].
    destruct (runs_frame ws (flat_map framed frames) Hw s Hs) as (s1 & E1 & O1 & R1).
    destruct (IH fuel s1 Hf ltac:(lia) R1) as (s' & E & R & O). exists s'.
    cbn [main_loop]. unfold mbind, prog_bind. rewrite E1. split; [done|]. split; [done|].
    rewrite O, O1. cbn [flat_map]. by rewrite app_assoc.
Qed.

(** ** The whole program *)

(** What the program writes before its loop. *)
Definition setup_output (index value : Z) : list access :=
  [Store filter_index index; Store filter_value value; Store dead_ptr 5000; Store io_ptr 1].

(** VeriMAC prints what the device delivers: if the words to come are frames, each behind its
    header, the program writes the filter and the trigger, prints for each frame the number of
    the header, and its bytes as two hexadecimal digits and a blank each, in the order of
    their arrival; then it waits for the device. *)
Theorem verimac_prints_frames index value frames fuel s :
  Forall (fun ws => ws <> []) frames -> (length frames < fuel)%nat ->
  to_read s = flat_map framed frames ->
  exists s', verimac_main index value fuel s = Stalled s' /\ to_read s' = [] /\
    output s' = output s ++ setup_output index value ++ flat_map printed_frame frames.
Proof.
  intros Hf L Hs. unfold verimac_main.
  set (ws := flat_map framed frames) in Hs.
  assert (R : runs (store filter_index index ;; store filter_value value ;; store dead_ptr 5000 ;;
    load_dead ;; store io_ptr 1) ws (setup_output index value) ws).
  { do 3 (apply (runs_bind _ _ _ [_] ws); [apply runs_log|]).
    apply (runs_bind _ _ _ [] ws); apply runs_log. }
  destruct (R s Hs) as (s1 & E1 & O1 & R1).
  destruct (main_loop_prints frames fuel s1 Hf L R1) as (s' & E & Rd & O). exists s'.
  split; [|split; [done|by rewrite O, O1, app_assoc]].
  rewrite <- E. clear - E1. unfold mbind, prog_bind, store, load_dead, access_log in *.
  cbn in E1 |- *. by injection E1 as <-.
Qed.

(** ** The program on the device *)

(** The stores to registers of the device, as writes on its bus. *)
Definition bus_write (a : access) : list (Z * Z) :=
  match a with
  | Store filter_index v => [(8, v)]
  | Store filter_value v => [(12, v)]
  | Store io_ptr v => [(0, v)]
  | _ => []
  end.

Definition request_write (r : nat * request) : list (Z * Z) :=
  match snd r with Write a v => [(a, v)] | Read => [] end.

Lemma reads_no_write (ds : list nat) : flat_map request_write (map (fun d => (d, Read)) ds) = [].
Proof. by induction ds. Qed.

Lemma printed_no_write frames : flat_map bus_write (flat_map printed_frame frames) = [].
Proof.
  induction frames as [|ws frames IH]; [done|]. cbn [flat_map]. rewrite flat_map_app, IH, app_nil_r.
  unfold printed_frame. cbn [flat_map bus_write app].
  by induction (frame_bytes ws) as [|b bs IHb]; [|cbn [flat_map]; rewrite flat_map_app, IHb].
Qed.

(** Claim C1. The network analyser from end to end: the device is set up and read by the
    accesses of VeriMAC, which are those the program makes; frames arrive, of which the last
    one is the first with the selected value in the selected byte. The program prints this
    frame, byte by byte, and nothing else; then it waits for the device, for good, as it does
    not set the trigger again. The conditions: the index of the byte is below 4096 and its value
    below 256; the three accesses of the set-up are over when the first frame starts (after their
    delays and six cycles); every frame has 2 to 2044 words and does not end in the word of the
    selected byte (the filter would merge it with the next); from the start of each of the
    frames before to the start of the next there are at least twice its length and three cycles,
    the time to read one out; and the processor goes on reading for more words than the frame has. *)
Theorem fshark_prints_first_match junk ia mb mf shadow out index value d1 d2 d3 ds n0 fs odd ws waits :
  let cfg := Config index value true in
  0 <= index < 4096 -> 0 <= value < 256 -> (d1 + d2 + d3 + 6 <= n0)%nat ->
  Forall (timed_ok cfg) fs -> Forall (fun f => matches cfg (tf_words f) = false) fs ->
  frame_ok cfg ws -> matches cfg ws = true -> (length ws < length ds)%nat ->
  let program := capture_program index value d1 d2 d3 ds in
  let '(src1, s1, nd1) := fshark_run junk ia n0 [] (capture_reset mb) (start_node mf shadow out program) in
  let '(src2, s2, nd2) := fshark_frames junk ia fs src1 s1 nd1 in
  exists N, forall n src, (N <= n)%nat ->
    let '(src3, s3, nd3) := fshark_run junk ia n (src2 ++ frame_beats odd ws) s2 nd2 in
    forall m, let delivered := got (cpu (snd (fshark_run junk ia m (src3 ++ src) s3 nd3))) in
    exists s', verimac_main index value 2 (Board delivered waits []) = Stalled s' /\
      output s' = setup_output index value ++ printed_frame ws /\
      flat_map bus_write (output s') = flat_map request_write program.
Proof.
  intros cfg Hi Hv L Ok M Okw Mw Ld program.
  pose proof (fshark_delivers_first_match junk ia mb mf shadow out index value d1 d2 d3 ds n0 fs odd ws
    Hi Hv L Ok M Okw Mw Ld) as H. fold program in H.
  destruct (fshark_run _ _ n0 _ _ _) as [[src1 s1] nd1].
  destruct (fshark_frames _ _ _ _ _ _) as [[src2 s2] nd2]. destruct H as (N & H).
  exists N. intros n src Hn. specialize (H n Hn).
  destruct (fshark_run _ _ n _ _ _) as [[src3 s3] nd3]. destruct H as [_ H]. intros m. cbn zeta.
  rewrite H. destruct (verimac_prints_frames index value [ws] 2 (Board (framed ws) waits [])) as (s' & E & _ & O).
  - constructor; [|constructor]. intros ->. by destruct Okw as [[? _] _].
  - simpl. lia.
  - simpl. by rewrite app_nil_r.
  - exists s'. rewrite O. cbn [flat_map]. rewrite app_nil_r. split; [done|]. split; [done|].
    change (output (Board (framed ws) waits [])) with (@nil access). cbn [app].
    rewrite flat_map_app. pose proof (printed_no_write [ws]) as P. cbn [flat_map] in P.
    rewrite app_nil_r in P. rewrite P. unfold program, capture_program.
    cbn [flat_map request_write snd app]. by rewrite reads_no_write.
Qed.

Lemma fshark_prints_first_match_witness :
  let program := capture_program 18 18 0 1 4 (replicate 25 3%nat) in
  let ia := Axis false 3 7 true in
  let '(src1, s1, nd1) := fshark_run 77 ia 11 [] (capture_reset (fun _ => 9)) (start_node (fun _ => 5) 6 7 program) in
  let '(src2, s2, nd2) := fshark_frames 77 ia [TimedFrame true (demo_words 0x120A) 43] src1 s1 nd1 in
  exists N, forall n src, (N <= n)%nat ->
    let '(src3, s3, nd3) := fshark_run 77 ia n (src2 ++ frame_beats false (demo_words 0x0A12)) s2 nd2 in
    forall m, exists s',
      VeriMAC_main 2 (Board (got (cpu (snd (fshark_run 77 ia m (src3 ++ src) s3 nd3)))) [5%nat] []) = Stalled s' /\
      output s' = setup_output 18 18 ++ printed_frame (demo_words 0x0A12).
Proof.
  intros program ia.
  pose proof (fshark_prints_first_match 77 ia (fun _ => 9) (fun _ => 5) 6 7 18 18 0 1 4
    (replicate 25 3%nat) 11 [TimedFrame true (demo_words 0x120A) 43] false (demo_words 0x0A12) [5%nat]
    ltac:(lia) ltac:(lia) ltac:(lia)) as H. fold program in H. cbn zeta in H.
  destruct (fshark_run _ _ 11 _ _ _) as [[src1 s1] nd1].
  destruct (fshark_frames _ _ _ _ _ _) as [[src2 s2] nd2].
  destruct H as (N & H).
  - repeat constructor; vm_compute; solve [lia | discriminate].
  - by repeat constructor.
  - repeat constructor; vm_compute; solve [lia | discriminate].
  - reflexivity.
  - vm_compute. lia.
  - exists N. intros n src Hn. specialize (H n src Hn). destruct (fshark_run _ _ n _ _ _) as [[src3 s3] nd3].
    intros m. destruct (H m) as (s' & E & O & _). exists s'. split; [exact E|exact O].
Defined.
