(* ===== verification/Fat.v ===== *)
(** * The FAT32 driver: blocks and the allocation table

    src/c/libsd/fat32.c, from the access to single blocks up to the file allocation table. The
    disk below it (sddisk.c) is a map from addresses to blocks, in which any access may fail.
    [fs] is the state of the driver: its global variables, [errno], and the disk.

    What is proved: the table is read and written entry by entry; [fat_acquire_next_cluster]
    follows a chain or extends it by a free cluster, and finds one if there is one;
    [fat_free_cluster_chain] frees exactly the clusters of a chain, and ends. *)

From stdpp Require Import base list numbers sets.
From Stdlib Require Import ZArith Lia.
From S2P Require Import Prelude.

Local Open Scope Z_scope.
Local Open Scope c_scope.

(** ** State *)

Inductive errno_t :=
  | OK | EPERM | ENOENT | EIO | EBADF | EAGAIN | EFAULT | EBUSY | EEXIST | ENOTDIR | EISDIR | EINVAL
  | EMFILE | ENOSPC | EPIPE | ENAMETOOLONG | ENOTEMPTY.

#[export] Instance errno_eq_dec : EqDecision errno_t.
Proof. solve_decision. Defined.

Record FatPartitionInfo := Pinfo {
  vol_begin_addr : Z;
  bytes_per_sector : Z;
  sectors_per_cluster : Z;
  num_res_sectors : Z;
  num_fats : Z;
  num_dir_entries : Z;
  num_total_sectors : Z;
  media_desc_type : Z;
  sectors_per_fat : Z;
  root_dir_cluster : Z;
  fat_begin_addr : Z;
  cluster_begin_addr : Z;
  entries_per_sector : Z;
  root_dir_addr : Z
}.

Record FatDirEntryIdx := DirIdx { di_cluster : Z; di_sector : Z; di_index : Z }.

Record FatFile := File {
  f_free : bool;
  f_pos : Z;
  f_dir_idx : FatDirEntryIdx;
  f_start_cluster : Z;
  f_current_cluster : Z;
  f_size : Z
}.

(** [faults] are the outcomes of the accesses to come, [true] for a failure; when there is none
    left, accesses succeed. *)
Record fs := Fs {
  blocks : Z -> list Z;
  faults : list bool;
  errno : errno_t;
  fat_pinfo : FatPartitionInfo;
  fat_open_files : list FatFile;
  fat_initialized : bool
}.

Definition set_errno (e : errno_t) (s : fs) : fs :=
  Fs (blocks s) (faults s) e (fat_pinfo s) (fat_open_files s) (fat_initialized s).

Definition set_files (fl : list FatFile) (s : fs) : fs :=
  Fs (blocks s) (faults s) (errno s) (fat_pinfo s) fl (fat_initialized s).

(** A block of the disk is replaced. *)
Definition put_block (m : Z -> list Z) (a : Z) (buf : list Z) : Z -> list Z :=
  fun b => if b =? a then buf else m b.

(** ** Single blocks

    [fat_read_single_block] with [disk_read] below it: a block, or [None] and [EIO]. *)
Definition fat_read_single_block (addr : Z) (s : fs) : option (list Z) * fs :=
  match faults s with
  | true :: fl => (None, Fs (blocks s) fl EIO (fat_pinfo s) (fat_open_files s) (fat_initialized s))
  | _ => (Some (blocks s addr),
          Fs (blocks s) (tail (faults s)) OK (fat_pinfo s) (fat_open_files s) (fat_initialized s))
  end.

(** Whether the write succeeded; the block of a failed write keeps its contents. *)
Definition fat_write_single_block (addr : Z) (buf : list Z) (s : fs) : bool * fs :=
  match faults s with
  | true :: fl => (false, Fs (blocks s) fl EIO (fat_pinfo s) (fat_open_files s) (fat_initialized s))
  | _ => (true, Fs (put_block (blocks s) addr buf) (tail (faults s)) OK (fat_pinfo s)
                  (fat_open_files s) (fat_initialized s))
  end.

(** ** Values in a block *)

Definition umin (a b : Z) : Z := if a <? b then a else b.

Definition fat_get_uint32 (buf : list Z) (o : Z) : Z :=
  u32 (arr buf o + (arr buf (o + 1) << 8) + (arr buf (o + 2) << 16) + (arr buf (o + 3) << 24)).

Definition fat_get_uint16 (buf : list Z) (o : Z) : Z := u16 (arr buf o + (arr buf (o + 1) << 8)).

Definition fat_get_uint8 (buf : list Z) (o : Z) : Z := arr buf o.

Definition put8 (buf : list Z) (o v : Z) : list Z := <[Z.to_nat o := u8 v]> buf.

Definition fat_set_uint32 (v : Z) (buf : list Z) (o : Z) : list Z :=
  put8 (put8 (put8 (put8 buf o v) (o + 1) (v >> 8)) (o + 2) (v >> 16)) (o + 3) (v >> 24).

Definition fat_set_uint16 (v : Z) (buf : list Z) (o : Z) : list Z :=
  put8 (put8 buf o v) (o + 1) (v >> 8).

Definition fat_set_uint8 (v : Z) (buf : list Z) (o : Z) : list Z := put8 buf o v.

(** ** The table *)

Definition FAT_TV_LAST (v : Z) : bool := 0x0FFFFFF8 <=? v.
Definition FAT_TV_BAD (v : Z) : bool := v =? 0x0FFFFFF7.
Definition FAT_TV_FREE (v : Z) : bool := v =? 0.

Definition fat_first_sector_of_cluster (p : FatPartitionInfo) (cluster : Z) : Z :=
  u32 (cluster_begin_addr p + (cluster - 2) * sectors_per_cluster p).

Definition fat_get_table_value (cluster : Z) (s : fs) : option Z * fs :=
  let p := fat_pinfo s in
  let idx := u32 (cluster * 4) in
  let sec := u32 (fat_begin_addr p + idx / bytes_per_sector p) in
  let entry_idx := idx mod bytes_per_sector p in
  match fat_read_single_block sec s with
  | (None, s) => (None, s)
  | (Some buffer, s) => (Some (fat_get_uint32 buffer entry_idx .& 0x0FFFFFFF), s)
  end.

(** The inner loop of the search for a free entry, from the [j]-th entry on: the entry in the
    sector, if one is free; entry 0 of the table is skipped. *)
Fixpoint find_entry (buf : list Z) (eps first sec : Z) (n : nat) (j : Z) : option Z :=
  match n with
  | O => None
  | S n =>
      let cur_ent_in_sec := (first + j) mod eps in
      let cur_ent_in_fat := u32 (sec * eps + cur_ent_in_sec) in
      let tv := fat_get_uint32 buf (4 * cur_ent_in_sec) .& 0x0FFFFFFF in
      if FAT_TV_BAD tv then find_entry buf eps first sec n (j + 1)
      else if FAT_TV_LAST tv then find_entry buf eps first sec n (j + 1)
      else if negb (FAT_TV_FREE tv) then find_entry buf eps first sec n (j + 1)
      else if cur_ent_in_fat =? 0 then find_entry buf eps first sec n (j + 1)
      else Some cur_ent_in_sec
  end.

(** The entry that was found is marked as the last one of a chain, after the old one has been
    linked to it. When both are in one sector, the link is made in the buffer that is written
    again for the mark. *)
Definition take_entry (orig_sec buf : list Z) (old_sec old_ent sec ent next : Z) (link_to_new : bool)
    (s : fs) : bool * fs :=
  let start := fat_begin_addr (fat_pinfo s) in
  let mark buf s :=
    fat_write_single_block (u32 (start + sec)) (fat_set_uint32 0x0FFFFFFF buf (4 * ent)) s in
  if link_to_new then
    let same := old_sec =? sec in
    let linked := fat_set_uint32 next (if same then buf else orig_sec) (4 * old_ent) in
    match fat_write_single_block (u32 (start + old_sec)) linked s with
    | (false, s) => (false, s)
    | (true, s) => mark (if same then linked else buf) s
    end
  else mark buf s.

(** The outer loop, over the sectors of the table from the [i]-th on. The result is whether it
    succeeded, and the variable [cluster], which is set before the table is written. *)
Fixpoint search_fat (cluster : Z) (orig_sec : list Z) (sec_off_start ent_start : Z) (link_to_new : bool)
    (n : nat) (i : Z) (s : fs) : bool * Z * fs :=
  let p := fat_pinfo s in
  let eps := bytes_per_sector p / 4 in
  match n with
  | O => (false, cluster, set_errno ENOSPC s)
  | S n =>
      let sec := (sec_off_start + i) mod sectors_per_fat p in
      match fat_read_single_block (u32 (fat_begin_addr p + sec)) s with
      | (None, s) => (false, cluster, s)
      | (Some buf, s) =>
          match find_entry buf eps ent_start sec (Z.to_nat eps) 0 with
          | None => search_fat cluster orig_sec sec_off_start ent_start link_to_new n (i + 1) s
          | Some ent =>
              let next := u32 (sec * eps + ent) in
              match take_entry orig_sec buf sec_off_start ent_start sec ent next link_to_new s with
              | (false, s) => (false, next, s)
              | (true, s) => (true, next, s)
              end
          end
      end
  end.

Definition fat_acquire_next_cluster (cluster : Z) (link_to_new : bool) (s : fs) : bool * Z * fs :=
  match fat_get_table_value cluster s with
  | (None, s) => (false, cluster, s)
  | (Some tv, s) =>
      if FAT_TV_BAD tv then (false, cluster, set_errno EBADF s)
      else if FAT_TV_FREE tv then (false, cluster, set_errno EBADF s)
      else if negb (FAT_TV_LAST tv) then (true, tv, s)
      else
        let p := fat_pinfo s in
        let eps := bytes_per_sector p / 4 in
        let ent_start := cluster mod eps in
        let sec_off_start := cluster / eps in
        match fat_read_single_block (u32 (fat_begin_addr p + sec_off_start)) s with
        | (None, s) => (false, cluster, s)
        | (Some orig_sec, s) =>
            search_fat cluster orig_sec sec_off_start ent_start link_to_new
              (Z.to_nat (sectors_per_fat p)) 0 s
        end
  end.

(** The loop of [fat_free_cluster_chain]; it runs as long as there are links, which [fuel]
    bounds. The result is [errno]. *)
Fixpoint free_chain (fuel : nat) (tv : Z) (s : fs) : option fs :=
  match fuel with
  | O => None
  | S fuel =>
      let p := fat_pinfo s in
      let byteoff := u32 (tv * 4) in
      let sec := u32 (fat_begin_addr p + byteoff / bytes_per_sector p) in
      let byteoff_in_sec := byteoff mod bytes_per_sector p in
      match fat_read_single_block sec s with
      | (None, s) => Some s
      | (Some buf, s) =>
          let tv := fat_get_uint32 buf byteoff_in_sec .& 0x0FFFFFFF in
          if FAT_TV_BAD tv then Some (set_errno EBADF s)
          else if FAT_TV_FREE tv then Some (set_errno EBADF s)
          else
            match fat_write_single_block sec (fat_set_uint32 0 buf byteoff_in_sec) s with
            | (false, s) => Some s
            | (true, s) => if negb (FAT_TV_LAST tv) then free_chain fuel tv s else Some s
            end
      end
  end.

Definition fat_free_cluster_chain (fuel : nat) (start_cluster : Z) (s : fs) : option (bool * fs) :=
  match free_chain fuel start_cluster (set_errno OK s) with
  | None => None
  | Some s => Some (bool_decide (errno s = OK), s)
  end.

(** ** Blocks as bytes *)

Definition block_ok (buf : list Z) : Prop := length buf = 512%nat /\ Forall (fun b => 0 <= b < 256) buf.

Lemma arr_block buf i : block_ok buf -> 0 <= arr buf i < 256.
Proof.
  intros [_ F]. unfold arr. destruct (nth_in_or_default (Z.to_nat i) buf 0) as [I| ->]; [|lia].
  rewrite List.Forall_forall in F. by apply F.
Qed.

Lemma put8_ok buf o v : block_ok buf -> block_ok (put8 buf o v).
Proof.
  intros [L F]. unfold put8. split; [by rewrite length_insert|].
  apply Forall_insert; [done|apply u8_range].
Qed.

Lemma set_uint32_ok v buf o : block_ok buf -> block_ok (fat_set_uint32 v buf o).
Proof. intros. by do 4 apply put8_ok. Qed.

Lemma arr_put8 buf o v i :
  block_ok buf -> 0 <= o < 512 -> 0 <= i -> arr (put8 buf o v) i = if i =? o then u8 v else arr buf i.
Proof.
  intros [L _] Ho Hi. unfold put8. rewrite arr_insert by (rewrite ?L; lia). by rewrite Z.eqb_sym.
Qed.

Lemma arr_set_uint32 v buf o i :
  block_ok buf -> 0 <= o <= 508 -> 0 <= i ->
  arr (fat_set_uint32 v buf o) i =
    if i =? o + 3 then u8 (v >> 24) else if i =? o + 2 then u8 (v >> 16)
    else if i =? o + 1 then u8 (v >> 8) else if i =? o then u8 v else arr buf i.
Proof. intros B Ho Hi. unfold fat_set_uint32. by rewrite !arr_put8 by (repeat apply put8_ok; done || lia). Qed.

Lemma get_set_uint32 v buf o :
  block_ok buf -> 0 <= o <= 508 -> 0 <= v < 4294967296 -> fat_get_uint32 (fat_set_uint32 v buf o) o = v.
Proof.
  intros B Ho Hv. unfold fat_get_uint32. rewrite !arr_set_uint32 by (done || lia). zif.
  rewrite !shl_mul, !shr_div by lia. change (2 ^ 8) with 256. change (2 ^ 16) with 65536.
  change (2 ^ 24) with 16777216. zdm.
Qed.

Lemma get_set_uint32_ne v buf o o' :
  block_ok buf -> 0 <= o <= 508 -> 0 <= o' -> o' + 4 <= o \/ o + 4 <= o' ->
  fat_get_uint32 (fat_set_uint32 v buf o) o' = fat_get_uint32 buf o'.
Proof. intros B Ho Ho' D. unfold fat_get_uint32. rewrite !arr_set_uint32 by (done || lia). by zif. Qed.

(** ** The table as a function *)

(** The volume: blocks of 512 bytes, the table in front of the clusters, and addresses that fit
    into 32 bits. *)
Record vol_ok (p : FatPartitionInfo) : Prop := {
  vol_bps : bytes_per_sector p = 512;
  vol_spc : 1 <= sectors_per_cluster p <= 255;
  vol_spf : 1 <= sectors_per_fat p <= 2097152;
  vol_fat : 0 <= fat_begin_addr p /\ fat_begin_addr p + sectors_per_fat p <= cluster_begin_addr p;
  vol_end : cluster_begin_addr p < 4294967296
}.

(** The number of entries of the table. *)
Definition fat_entries (p : FatPartitionInfo) : Z := sectors_per_fat p * 128.

(** The value of an entry, without its upper four bits. *)
Definition table (p : FatPartitionInfo) (m : Z -> list Z) (x : Z) : Z :=
  fat_get_uint32 (m (fat_begin_addr p + x / 128)) (4 * (x mod 128)) .& 0x0FFFFFFF.

Definition disk_ok (m : Z -> list Z) : Prop := forall a, block_ok (m a).

Lemma put_block_ok m a buf : disk_ok m -> block_ok buf -> disk_ok (put_block m a buf).
Proof. intros M B b. unfold put_block. by destruct (b =? a). Qed.

Lemma put_block_ne m a buf b : b <> a -> put_block m a buf b = m b.
Proof. intros N. unfold put_block. by rewrite (proj2 (Z.eqb_neq _ _)). Qed.

Lemma land_28 v : v .& 0x0FFFFFFF = v mod 268435456.
Proof. apply (Z.land_ones v 28). lia. Qed.

Lemma table_range p m x : 0 <= table p m x < 268435456.
Proof. unfold table. rewrite land_28. apply Z.mod_pos_bound. lia. Qed.

(** A write of an entry changes this entry only. *)
Lemma table_set p m sec k v x :
  disk_ok m -> 0 <= k < 128 -> 0 <= v < 268435456 -> 0 <= x ->
  table p (put_block m (fat_begin_addr p + sec)
    (fat_set_uint32 v (m (fat_begin_addr p + sec)) (4 * k))) x =
    if x =? sec * 128 + k then v else table p m x.
Proof.
  intros M Hk Hv Hx. unfold table, put_block.
  destruct (Z.eqb_spec (fat_begin_addr p + x / 128) (fat_begin_addr p + sec)) as [E|N].
  - assert (x / 128 = sec) by lia. destruct (Z.eqb_spec x (sec * 128 + k)) as [->|Nx].
    + assert ((sec * 128 + k) mod 128 = k) as -> by zdm.
      rewrite get_set_uint32 by (done || lia). rewrite land_28. apply Z.mod_small. lia.
    + assert (x mod 128 <> k) by zdm. assert (0 <= x mod 128 < 128) by (apply Z.mod_pos_bound; lia).
      rewrite get_set_uint32_ne by (done || lia). by rewrite E.
  - rewrite (proj2 (Z.eqb_neq x _)); [done|]. intros ->. apply N. zdm.
Qed.

(** ** A disk without failures *)

Record healthy (s : fs) : Prop := {
  h_vol : vol_ok (fat_pinfo s);
  h_faults : faults s = [];
  h_disk : disk_ok (blocks s)
}.

Definition ftable (s : fs) : Z -> Z := table (fat_pinfo s) (blocks s).

Lemma healthy_errno e s : healthy s -> healthy (set_errno e s).
Proof. by intros []. Qed.

Lemma read_block a s : healthy s -> fat_read_single_block a s = (Some (blocks s a), set_errno OK s).
Proof. intros [_ F _]. unfold fat_read_single_block, set_errno. by rewrite F. Qed.

(** The state after a write. *)
Definition with_block (a : Z) (buf : list Z) (s : fs) : fs :=
  Fs (put_block (blocks s) a buf) (faults s) OK (fat_pinfo s) (fat_open_files s) (fat_initialized s).

Lemma write_block a buf s : healthy s -> fat_write_single_block a buf s = (true, with_block a buf s).
Proof. intros [_ F _]. unfold fat_write_single_block, with_block. by rewrite F. Qed.

Lemma healthy_block a buf s : healthy s -> block_ok buf -> healthy (with_block a buf s).
Proof. intros [V F D] B. split; [done|done|]. by apply put_block_ok. Qed.

(** The address of a sector of the table. *)
Lemma fat_address p sec : vol_ok p -> 0 <= sec < sectors_per_fat p ->
  u32 (fat_begin_addr p + sec) = fat_begin_addr p + sec.
Proof. intros [] ?. apply u32_small. lia. Qed.

Lemma entry_address p c : vol_ok p -> 0 <= c < fat_entries p ->
  u32 (fat_begin_addr p + u32 (c * 4) / bytes_per_sector p) = fat_begin_addr p + c / 128 /\
  u32 (c * 4) mod bytes_per_sector p = 4 * (c mod 128) /\ 0 <= c / 128 < sectors_per_fat p.
Proof.
  intros V Hc. unfold fat_entries in Hc. pose proof (vol_spf _ V). rewrite (vol_bps _ V), (u32_small (c * 4)) by lia.
  assert (c * 4 / 512 = c / 128) as -> by zdm. assert (0 <= c / 128 < sectors_per_fat p) by zdm.
  rewrite fat_address by done. repeat split; try lia. zdm.
Qed.

Lemma get_table_value c s :
  healthy s -> 0 <= c < fat_entries (fat_pinfo s) ->
  fat_get_table_value c s = (Some (ftable s c), set_errno OK s).
Proof.
  intros H Hc. destruct (entry_address _ c (h_vol _ H) Hc) as (E1 & E2 & _).
  unfold fat_get_table_value. by rewrite read_block, E1, E2.
Qed.

(** ** Allocation *)

(** An entry that may be taken. *)
Definition free_entry (p : FatPartitionInfo) (m : Z -> list Z) (x : Z) : Prop :=
  0 < x < fat_entries p /\ table p m x = 0.

(** An entry is passed over unless its value is 0 and it is not entry 0. *)
Lemma find_entry_step buf first sec n j :
  find_entry buf 128 first sec (S n) j =
    let e := (first + j) mod 128 in
    if (fat_get_uint32 buf (4 * e) .& 0x0FFFFFFF =? 0) && negb (u32 (sec * 128 + e) =? 0)
    then Some e else find_entry buf 128 first sec n (j + 1).
Proof.
  cbn [find_entry]. unfold FAT_TV_BAD, FAT_TV_LAST, FAT_TV_FREE. cbn zeta.
  set (tv := fat_get_uint32 buf (4 * ((first + j) mod 128)) .& 0x0FFFFFFF).
  destruct (Z.eqb_spec tv 0) as [->|N]; [by destruct (u32 _ =? 0)|].
  by destruct (tv =? 0x0FFFFFF7), (0x0FFFFFF8 <=? tv).
Qed.

Lemma find_entry_some buf first sec n : forall j e,
  find_entry buf 128 first sec n j = Some e ->
  0 <= e < 128 /\ fat_get_uint32 buf (4 * e) .& 0x0FFFFFFF = 0 /\ u32 (sec * 128 + e) <> 0.
Proof.
  induction n as [|n IH]; intros j e; [done|]. rewrite find_entry_step. cbn zeta.
  destruct (_ && _) eqn:E; [|apply IH]. intros [= <-]. apply andb_true_iff in E as [E1 E2].
  apply Z.eqb_eq in E1. apply negb_true_iff, Z.eqb_neq in E2.
  split; [apply Z.mod_pos_bound; lia|done].
Qed.

Lemma find_entry_none buf first sec n : forall j,
  find_entry buf 128 first sec n j = None ->
  forall k, j <= k < j + Z.of_nat n ->
    fat_get_uint32 buf (4 * ((first + k) mod 128)) .& 0x0FFFFFFF <> 0 \/
    u32 (sec * 128 + (first + k) mod 128) = 0.
Proof.
  induction n as [|n IH]; intros j; [lia|]. rewrite find_entry_step. cbn zeta.
  destruct (_ && _) eqn:E; [done|]. intros F k Hk. destruct (Z.eq_dec k j) as [->|].
  - apply andb_false_iff in E as [E|E]; [left; by apply Z.eqb_neq in E|].
    right. by apply negb_false_iff, Z.eqb_eq in E.
  - apply (IH (j + 1)); [done|lia].
Qed.

(** Together: the search in a sector of the table finds a free entry if there is one. *)
Lemma find_in_sector p m first sec :
  vol_ok p -> 0 <= sec < sectors_per_fat p ->
  match find_entry (m (fat_begin_addr p + sec)) 128 first sec 128 0 with
  | Some e => 0 <= e < 128 /\ free_entry p m (sec * 128 + e)
  | None => forall x, x / 128 = sec -> ~ free_entry p m x
  end.
Proof.
  intros V Hs. pose proof (vol_spf _ V). destruct (find_entry _ _ _ _ _ _) as [e|] eqn:F.
  - apply find_entry_some in F as (He & Hv & Hn). rewrite u32_small in Hn by lia.
    split; [done|]. unfold free_entry, fat_entries, table.
    assert ((sec * 128 + e) / 128 = sec) as -> by zdm. assert ((sec * 128 + e) mod 128 = e) as -> by zdm.
    split; [lia|done].
  - intros x Hx (Hr & Hv). unfold table in Hv. rewrite Hx in Hv.
    destruct (find_entry_none _ _ _ _ _ F ((x mod 128 - first) mod 128)) as [N|N].
    + split; [apply Z.mod_pos_bound; lia|]. pose proof (Z.mod_pos_bound (x mod 128 - first) 128). lia.
    + apply N. by replace ((first + (x mod 128 - first) mod 128) mod 128) with (x mod 128) by zdm.
    + replace ((first + (x mod 128 - first) mod 128) mod 128) with (x mod 128) in N by zdm.
      rewrite u32_small in N by zdm. zdm.
Qed.

(** What an allocation does: the new cluster [n] was free, and is the end of a chain now, to
    which [c] is linked; nothing else changes. *)
Record allocated (c : Z) (link_to_new : bool) (s : fs) (n : Z) (s' : fs) : Prop := {
  al_free : free_entry (fat_pinfo s) (blocks s) n;
  al_table : forall x, 0 <= x -> ftable s' x =
    if x =? n then 0x0FFFFFFF else if link_to_new && (x =? c) then n else ftable s x;
  al_blocks : forall a, a < fat_begin_addr (fat_pinfo s) \/
    fat_begin_addr (fat_pinfo s) + sectors_per_fat (fat_pinfo s) <= a -> blocks s' a = blocks s a;
  al_healthy : healthy s';
  al_pinfo : fat_pinfo s' = fat_pinfo s;
  al_files : fat_open_files s' = fat_open_files s;
  al_init : fat_initialized s' = fat_initialized s;
  al_errno : errno s' = OK
}.

Lemma take_entry_spec c sec e link s :
  healthy s -> 0 <= c < fat_entries (fat_pinfo s) -> ftable s c <> 0 ->
  0 <= sec < sectors_per_fat (fat_pinfo s) -> 0 <= e < 128 ->
  free_entry (fat_pinfo s) (blocks s) (sec * 128 + e) ->
  exists s', take_entry (blocks s (fat_begin_addr (fat_pinfo s) + c / 128))
      (blocks s (fat_begin_addr (fat_pinfo s) + sec)) (c / 128) (c mod 128) sec e (sec * 128 + e) link s =
      (true, s') /\ allocated c link s (sec * 128 + e) s'.
Proof.
  intros H Hc Tc Hs He Fr. set (p := fat_pinfo s) in *. set (m := blocks s) in *.
  pose proof (h_vol _ H) as V. pose proof (vol_spf _ V) as Hspf. fold p in V, Hspf.
  assert (Hcs : 0 <= c / 128 < sectors_per_fat p) by (unfold fat_entries in Hc; zdm).
  assert (Hce : 0 <= c mod 128 < 128) by (apply Z.mod_pos_bound; lia).
  assert (Hn : 0 <= sec * 128 + e < 268435456) by lia.
  assert (Ne : c <> sec * 128 + e) by (intros ->; by destruct Fr).
  assert (Cc : c / 128 * 128 + c mod 128 = c) by zdm.
  unfold take_entry. fold p. rewrite !fat_address by done. destruct link.
  - pose proof (h_disk _ H) as D. fold m in D.
    set (buf1 := fat_set_uint32 (sec * 128 + e) (m (fat_begin_addr p + c / 128)) (4 * (c mod 128))).
    set (s1 := with_block (fat_begin_addr p + c / 128) buf1 s).
    assert (H1 : healthy s1) by (apply healthy_block; [done|apply set_uint32_ok, D]).
    assert (E1 : fat_set_uint32 (sec * 128 + e) (if c / 128 =? sec then m (fat_begin_addr p + sec)
      else m (fat_begin_addr p + c / 128)) (4 * (c mod 128)) = buf1)
      by (unfold buf1; by destruct (Z.eqb_spec (c / 128) sec) as [->|]).
    assert (E2 : (if c / 128 =? sec then buf1 else m (fat_begin_addr p + sec)) = blocks s1 (fat_begin_addr p + sec)).
    { cbn. unfold put_block. destruct (Z.eqb_spec (c / 128) sec) as [->|N]; [by rewrite Z.eqb_refl|].
      by rewrite (proj2 (Z.eqb_neq _ _)) by lia. }
    rewrite E1, write_block by done. fold s1. rewrite E2.
    rewrite write_block by done. eexists. split; [reflexivity|].
    split; try done.
    + intros x Hx. unfold ftable. cbn [with_block fat_pinfo blocks].
      change (fat_pinfo s1) with p. rewrite table_set by (try apply H1; done || lia).
      destruct (x =? sec * 128 + e); [done|]. cbn [andb]. unfold s1, buf1. cbn [with_block blocks].
      rewrite table_set by (done || lia). by rewrite Cc.
    + intros a Ha. fold p in Ha. cbn. by rewrite !put_block_ne by lia.
    + apply healthy_block; [done|]. apply set_uint32_ok, H1.
  - rewrite write_block by done. eexists. split; [reflexivity|]. split; try done.
    + intros x Hx. unfold ftable. cbn [with_block fat_pinfo blocks].
      by rewrite table_set by (try apply H; done || lia).
    + intros a Ha. fold p in Ha. cbn. by rewrite !put_block_ne by lia.
    + apply healthy_block; [done|]. apply set_uint32_ok, H.
Qed.

Lemma allocated_errno c link e s n s' : allocated c link (set_errno e s) n s' -> allocated c link s n s'.
Proof. by intros []. Qed.

(** The search visits all sectors of the table. *)
Lemma search_fat_spec c link n : forall i s,
  healthy s -> 0 <= c < fat_entries (fat_pinfo s) -> ftable s c <> 0 -> 0 <= i ->
  i + Z.of_nat n = sectors_per_fat (fat_pinfo s) ->
  (forall x, free_entry (fat_pinfo s) (blocks s) x ->
     i <= (x / 128 - c / 128) mod sectors_per_fat (fat_pinfo s)) ->
  match search_fat c (blocks s (fat_begin_addr (fat_pinfo s) + c / 128)) (c / 128) (c mod 128) link n i s with
  | (true, x, s') => allocated c link s x s'
  | (false, x, s') => x = c /\ s' = set_errno ENOSPC s' /\ blocks s' = blocks s /\ fat_open_files s' = fat_open_files s /\
      fat_pinfo s' = fat_pinfo s /\ fat_initialized s' = fat_initialized s /\ healthy s' /\
      forall x, ~ free_entry (fat_pinfo s) (blocks s) x
  end.
Proof.
  induction n as [|n IH]; intros i s H Hc Tc Hi Hn Seen; cbn [search_fat].
  - repeat (split; [done|]). split; [by apply healthy_errno|]. intros x F. specialize (Seen x F).
    pose proof (vol_spf _ (h_vol _ H)). pose proof (Z.mod_pos_bound (x / 128 - c / 128) (sectors_per_fat (fat_pinfo s))). lia.
  - pose proof (h_vol _ H) as V. pose proof (vol_spf _ V) as Hspf. rewrite (vol_bps _ V).
    change (512 / 4) with 128. change (Z.to_nat 128) with 128%nat.
    set (sec := (c / 128 + i) mod sectors_per_fat (fat_pinfo s)).
    assert (Hs : 0 <= sec < sectors_per_fat (fat_pinfo s)) by (apply Z.mod_pos_bound; lia).
    rewrite fat_address, read_block by done.
    pose proof (find_in_sector (fat_pinfo s) (blocks s) (c mod 128) sec V Hs) as F.
    destruct (find_entry _ _ _ _ _ _) as [e|].
    + destruct F as [He Fr]. rewrite u32_small by lia.
      destruct (take_entry_spec c sec e link (set_errno OK s)) as (s' & E & A);
        [by apply healthy_errno|done..|].
      cbn [set_errno blocks fat_pinfo] in E. rewrite E. by eapply allocated_errno.
    + assert (Next : forall x, free_entry (fat_pinfo s) (blocks s) x ->
        i + 1 <= (x / 128 - c / 128) mod sectors_per_fat (fat_pinfo s)).
      { intros x Fx. specialize (Seen x Fx).
        destruct (Z.eq_dec i ((x / 128 - c / 128) mod sectors_per_fat (fat_pinfo s))) as [E|]; [|lia].
        exfalso. apply (F x); [|done]. unfold sec. rewrite E, Z.add_mod_idemp_r by lia.
        replace (c / 128 + (x / 128 - c / 128)) with (x / 128) by lia. symmetry. apply Z.mod_small.
        destruct Fx as [Hx _]. unfold fat_entries in Hx. zdm. }
      specialize (IH (i + 1) (set_errno OK s) (healthy_errno _ _ H) Hc Tc ltac:(lia) ltac:(simpl; lia) Next).
      cbn [set_errno blocks fat_pinfo fat_open_files fat_initialized] in IH.
      destruct (search_fat _ _ _ _ _ _ _ _) as [[[] y] s']; [by eapply allocated_errno|done].
Qed.

(** [fat_acquire_next_cluster] at the end of a chain. *)
Lemma acquire_new c link s :
  healthy s -> 0 <= c < fat_entries (fat_pinfo s) -> FAT_TV_LAST (ftable s c) = true ->
  match fat_acquire_next_cluster c link s with
  | (true, x, s') => allocated c link s x s'
  | (false, x, s') => x = c /\ errno s' = ENOSPC /\ blocks s' = blocks s /\ fat_open_files s' = fat_open_files s /\
      fat_pinfo s' = fat_pinfo s /\ fat_initialized s' = fat_initialized s /\ healthy s' /\
      forall x, ~ free_entry (fat_pinfo s) (blocks s) x
  end.
Proof.
  intros H Hc Hl. pose proof (h_vol _ H) as V. pose proof (vol_spf _ V) as Hspf.
  unfold fat_acquire_next_cluster. rewrite get_table_value by done.
  assert (0x0FFFFFF8 <= ftable s c) by (by apply Z.leb_le in Hl).
  unfold FAT_TV_BAD, FAT_TV_FREE. rewrite Hl, !(proj2 (Z.eqb_neq _ _)) by lia. cbn [negb].
  change (fat_pinfo (set_errno OK s)) with (fat_pinfo s). rewrite (vol_bps _ V). change (512 / 4) with 128.
  assert (Hcs : 0 <= c / 128 < sectors_per_fat (fat_pinfo s)) by (unfold fat_entries in Hc; zdm).
  rewrite fat_address, read_block by (try apply healthy_errno; done).
  change (set_errno OK (set_errno OK s)) with (set_errno OK s).
  pose proof (search_fat_spec c link (Z.to_nat (sectors_per_fat (fat_pinfo s))) 0 (set_errno OK s)
    (healthy_errno _ _ H) Hc ltac:(change (ftable (set_errno OK s) c) with (ftable s c); lia) ltac:(lia)
    ltac:(simpl; lia)) as S.
  change (blocks (set_errno OK s)) with (blocks s) in *. change (fat_pinfo (set_errno OK s)) with (fat_pinfo s) in *.
  specialize (S ltac:(intros; apply Z.mod_pos_bound; lia)).
  destruct (search_fat _ _ _ _ _ _ _ _) as [[[] x] s'].
  - by eapply allocated_errno.
  - destruct S as (-> & -> & S). done.
Qed.

(** And inside a chain. *)
Lemma acquire_link c link s :
  healthy s -> 0 <= c < fat_entries (fat_pinfo s) ->
  ftable s c <> 0 -> ftable s c < 0x0FFFFFF7 ->
  fat_acquire_next_cluster c link s = (true, ftable s c, set_errno OK s).
Proof.
  intros H Hc N L. unfold fat_acquire_next_cluster. rewrite get_table_value by done.
  unfold FAT_TV_BAD, FAT_TV_FREE, FAT_TV_LAST. by zif.
Qed.

(** ** Chains *)

Definition valid_cluster (p : FatPartitionInfo) (c : Z) : Prop :=
  2 <= c < fat_entries p /\ c < 0x0FFFFFF7.

(** [chain t cs]: in table [t], each cluster of [cs] is linked to the next one, and the last
    one is marked as the end. *)
Fixpoint chain (t : Z -> Z) (cs : list Z) : Prop :=
  match cs with
  | [] => True
  | [c] => FAT_TV_LAST (t c) = true
  | c :: (c' :: _) as rest => t c = c' /\ chain t rest
  end.

Lemma chain_ext t t' cs : (forall c, c ∈ cs -> t' c = t c) -> chain t cs -> chain t' cs.
Proof.
  induction cs as [|c [|c' cs] IH]; intros E; [done|simpl; by rewrite E by set_solver|].
  intros [H1 H2]. split; [by rewrite E by set_solver|]. apply IH; [|done]. intros x Hx. apply E. set_solver.
Qed.

(** The state of the disk apart from the table stays. *)
Record only_table (s s' : fs) : Prop := {
  ot_blocks : forall a, a < fat_begin_addr (fat_pinfo s) \/
    fat_begin_addr (fat_pinfo s) + sectors_per_fat (fat_pinfo s) <= a -> blocks s' a = blocks s a;
  ot_pinfo : fat_pinfo s' = fat_pinfo s;
  ot_files : fat_open_files s' = fat_open_files s;
  ot_init : fat_initialized s' = fat_initialized s
}.

#[export] Instance only_table_preorder : PreOrder only_table.
Proof.
  split; [by intros s|]. intros s1 s2 s3 [B1 P1 F1 I1] [B2 P2 F2 I2]. split; try congruence.
  intros a Ha. rewrite B2 by (by rewrite P1). by apply B1.
Qed.

(** One step of the loop: the entry of a cluster in a chain is set to 0. *)
Lemma free_step fuel c s :
  healthy s -> 0 <= c < fat_entries (fat_pinfo s) -> ftable s c <> 0 -> ftable s c <> 0x0FFFFFF7 ->
  exists s', free_chain (S fuel) c s =
      (if FAT_TV_LAST (ftable s c) then Some s' else free_chain fuel (ftable s c) s') /\
    healthy s' /\ only_table s s' /\ errno s' = OK /\
    forall x, 0 <= x -> ftable s' x = if x =? c then 0 else ftable s x.
Proof.
  intros H Hc N0 Nb. pose proof (h_vol _ H) as V. pose proof (h_disk _ H) as D.
  destruct (entry_address _ c V Hc) as (E1 & E2 & Hs).
  assert (Hce : 0 <= c mod 128 < 128) by (apply Z.mod_pos_bound; lia).
  cbn [free_chain]. rewrite E1, E2, read_block by done. fold (table (fat_pinfo s) (blocks s) c).
  change (table (fat_pinfo s) (blocks s) c) with (ftable s c).
  unfold FAT_TV_BAD, FAT_TV_FREE. rewrite !(proj2 (Z.eqb_neq _ _)) by done.
  rewrite write_block by (by apply healthy_errno).
  set (s' := with_block _ _ _). exists s'. split; [by destruct (FAT_TV_LAST (ftable s c))|].
  split; [apply healthy_block; [by apply healthy_errno|apply set_uint32_ok, D]|].
  split; [|split; [done|]].
  - split; try done. intros a Ha. cbn. by rewrite put_block_ne by lia.
  - intros x Hx. unfold ftable, s'. cbn [with_block fat_pinfo blocks set_errno].
    rewrite table_set by (done || lia). by replace (c / 128 * 128 + c mod 128) with c by zdm.
Qed.

(** [fat_free_cluster_chain] frees the clusters of a chain. *)
Lemma free_chain_spec fuel cs : forall c s,
  healthy s -> errno s = OK -> chain (ftable s) (c :: cs) -> NoDup (c :: cs) ->
  Forall (valid_cluster (fat_pinfo s)) (c :: cs) -> (length cs < fuel)%nat ->
  exists s', free_chain fuel c s = Some s' /\ healthy s' /\ only_table s s' /\ errno s' = OK /\
    forall x, 0 <= x -> ftable s' x = if bool_decide (x ∈ c :: cs) then 0 else ftable s x.
Proof.
  revert fuel. induction cs as [|c' cs IH]; intros fuel c s H E Ch Nd Va L; (destruct fuel as [|fuel]; [simpl in L; lia|]).
  - simpl in Ch. apply Forall_cons_1 in Va as [[Vc _] _].
    assert (0x0FFFFFF8 <= ftable s c) by (by apply Z.leb_le in Ch).
    destruct (free_step fuel c s) as (s' & Es & H' & O' & Eo & T); try done; try lia.
    rewrite Ch in Es. exists s'. repeat (split; [done|]). intros x Hx. rewrite T by done.
    destruct (Z.eqb_spec x c) as [->|]; [by rewrite bool_decide_eq_true_2 by set_solver|].
    by rewrite bool_decide_eq_false_2 by set_solver.
  - destruct Ch as [Tc Ch]. apply Forall_cons_1 in Va as [[Vc _] Va].
    pose proof (proj1 (Forall_cons_1 _ _ _ Va)) as [V1 V2]. apply NoDup_cons in Nd as [Nc Nd].
    destruct (free_step fuel c s) as (s1 & Es & H1 & O1 & Eo & T1); try done; try lia.
    rewrite Tc in Es. assert (FAT_TV_LAST c' = false) as Fl by (apply Z.leb_gt; lia). rewrite Fl in Es.
    destruct (IH fuel c' s1 H1 Eo) as (s' & E' & H' & O' & Eo' & T'); try done.
    + apply (chain_ext (ftable s)); [|done]. intros x Hx.
      assert (valid_cluster (fat_pinfo s) x) as [Hv _] by (rewrite Forall_forall in Va; by apply Va).
      rewrite T1 by lia. rewrite (proj2 (Z.eqb_neq _ _)); [done|]. by intros ->.
    + by rewrite (ot_pinfo _ _ O1).
    + simpl in L. lia.
    + exists s'. split; [by rewrite Es|]. split; [done|]. split; [by etrans|]. split; [done|].
      intros x Hx. rewrite T', T1 by done. destruct (Z.eqb_spec x c) as [->|].
      * by rewrite bool_decide_eq_false_2, bool_decide_eq_true_2 by set_solver.
      * destruct (decide (x ∈ c' :: cs)); [by rewrite !bool_decide_eq_true_2 by set_solver|].
        by rewrite !bool_decide_eq_false_2 by set_solver.
Qed.

Lemma chain_last t cs c : chain t (cs ++ [c]) -> FAT_TV_LAST (t c) = true.
Proof. induction cs as [|x [|y cs] IH]; [done|by intros [_ ?]|intros [_ ?]; by apply IH]. Qed.

Lemma chain_extend t t' cs c n :
  chain t (cs ++ [c]) -> (forall x, x ∈ cs -> t' x = t x) -> t' c = n -> FAT_TV_LAST (t' n) = true ->
  chain t' (cs ++ [c; n]).
Proof.
  intros Ch E Ec En. induction cs as [|x [|y cs] IH]; [done| |].
  - destruct Ch as [Hx _]. split; [by rewrite E by set_solver|done].
  - destruct Ch as [Hx Ch]. split; [by rewrite E by set_solver|]. apply IH; [done|].
    intros z Hz. apply E. set_solver.
Qed.

(** Where a chain goes on. *)
Lemma chain_next t cs k c c' :
  chain t cs -> cs !! k = Some c -> cs !! (S k) = Some c' -> t c = c'.
Proof.
  revert k. induction cs as [|x [|y cs] IH]; intros k Ch E1 E2; [done|by destruct k|].
  destruct Ch as [Hx Ch]. destruct k as [|k]; [simpl in *; congruence|]. by apply (IH k).
Qed.

Lemma chain_nonzero t cs x :
  chain t cs -> Forall (fun c => 2 <= c) cs -> x ∈ cs -> t x <> 0.
Proof.
  induction cs as [|c [|c' cs] IH]; intros Ch Va Hx; [set_solver| |].
  - apply list_elem_of_singleton in Hx as ->. intros E. simpl in Ch. by rewrite E in Ch.
  - destruct Ch as [Hc Ch]. apply Forall_cons_1 in Va as [V1 V2]. apply elem_of_cons in Hx as [->|Hx].
    + apply Forall_cons_1 in V2 as [V2 _]. lia.
    + by apply IH.
Qed.

(** An allocation extends the chain by a cluster that is not part of it. *)
Lemma chain_allocated cs c s n s' :
  chain (ftable s) (cs ++ [c]) -> NoDup (cs ++ [c]) -> Forall (valid_cluster (fat_pinfo s)) (cs ++ [c]) ->
  allocated c true s n s' -> n ∉ cs ++ [c] /\ chain (ftable s') (cs ++ [c; n]).
Proof.
  intros Ch Nd Va [[Fn F] T _ _ _ _ _ _].
  assert (Ge : Forall (fun x => 2 <= x) (cs ++ [c])) by (eapply Forall_impl; [exact Va|by intros x [[? _] _]]).
  assert (Nn : n ∉ cs ++ [c]) by (intros I; by apply (chain_nonzero _ _ n Ch Ge)).
  split; [done|]. rewrite Forall_forall in Ge. apply NoDup_app in Nd as (_ & Nd & _).
  apply (chain_extend (ftable s)); [done| | |].
  - intros x Hx. specialize (Ge x ltac:(set_solver)). rewrite T by lia.
    rewrite !(proj2 (Z.eqb_neq _ _)); [done| |]; [intros ->; apply (Nd c Hx)|intros ->]; set_solver.
  - specialize (Ge c ltac:(set_solver)). rewrite T, (proj2 (Z.eqb_neq c n)) by (lia || set_solver).
    by rewrite Z.eqb_refl.
  - by rewrite T, Z.eqb_refl by lia.
Qed.

(** ** What the rest of the driver relies on *)

(** [fat_acquire_next_cluster] extends a chain: called with its last cluster, it takes
    a free cluster if there is one, links it to the chain and marks it as the new end; the
    rest of the table, and all blocks outside of it, keep their contents. If no cluster is
    free it fails with [ENOSPC] and writes nothing. *)
Theorem fat_acquire_extends_chain cs c s :
  healthy s -> chain (ftable s) (cs ++ [c]) -> NoDup (cs ++ [c]) ->
  Forall (valid_cluster (fat_pinfo s)) (cs ++ [c]) ->
  match fat_acquire_next_cluster c true s with
  | (true, n, s') =>
      free_entry (fat_pinfo s) (blocks s) n /\ chain (ftable s') (cs ++ [c; n]) /\ only_table s s' /\
      healthy s' /\ errno s' = OK /\
      forall x, 0 <= x -> x <> c -> x <> n -> ftable s' x = ftable s x
  | (false, _, s') =>
      errno s' = ENOSPC /\ blocks s' = blocks s /\ forall x, ~ free_entry (fat_pinfo s) (blocks s) x
  end.
Proof.
  intros H Ch Nd Va. pose proof (chain_last _ _ _ Ch) as Hl.
  assert (Vc : valid_cluster (fat_pinfo s) c) by (rewrite Forall_forall in Va; apply Va; set_solver).
  pose proof (acquire_new c true s H ltac:(destruct Vc; lia) Hl) as A.
  destruct (fat_acquire_next_cluster c true s) as [[[] n] s']; [|by destruct A as (_ & ? & ? & _ & _ & _ & _ & ?)].
  destruct (chain_allocated cs c s n s' Ch Nd Va A) as [_ Ch']. destruct A as [F T B H' P Fi I Eo].
  split; [done|]. split; [done|]. split; [by split|]. split; [done|]. split; [done|].
  intros x Hx N1 N2. rewrite T by done. by rewrite !(proj2 (Z.eqb_neq _ _)) by done.
Qed.

(** [fat_free_cluster_chain] frees the clusters of a chain, all of them and no others;
    it ends after as many rounds as the chain has clusters, and no block outside the table
    is written. *)
Theorem fat_free_frees_chain fuel c cs s :
  healthy s -> chain (ftable s) (c :: cs) -> NoDup (c :: cs) ->
  Forall (valid_cluster (fat_pinfo s)) (c :: cs) -> (length cs < fuel)%nat ->
  exists s', fat_free_cluster_chain fuel c s = Some (true, s') /\ healthy s' /\ only_table s s' /\
    forall x, 0 <= x -> ftable s' x = if bool_decide (x ∈ c :: cs) then 0 else ftable s x.
Proof.
  intros H Ch Nd Va L.
  destruct (free_chain_spec fuel cs c (set_errno OK s) (healthy_errno _ _ H) eq_refl Ch Nd Va L)
    as (s' & E & H' & O & Eo & T).
  exists s'. unfold fat_free_cluster_chain. rewrite E, Eo. split; [done|]. split; [done|]. split; [|done].
  by destruct O.
Qed.

(** ** A volume *)

(** One sector of table, clusters of one sector, and two files: one in the clusters 3 and 5, one
    in cluster 4. Cluster 2 is the root directory. *)
Definition demo_pinfo : FatPartitionInfo := Pinfo 0 512 1 1 1 0 0 0 1 2 1 2 16 2.

Definition zero_block : list Z := replicate 512 0.

Definition demo_table : list Z :=
  fold_right (fun '(c, v) b => fat_set_uint32 v b (4 * c)) zero_block
    [(0, 0x0FFFFFF8); (1, 0x0FFFFFFF); (2, 0x0FFFFFFF); (3, 5); (4, 0x0FFFFFFF); (5, 0x0FFFFFFF)].

Definition demo_block (k : Z) : list Z := map (fun i => u8 (Z.of_nat i * k)) (seq 0 512).

Definition demo_fs : fs :=
  Fs (fun a => if a =? 1 then demo_table else if a =? 3 then demo_block 1
               else if a =? 5 then demo_block 3 else zero_block)
    [] OK demo_pinfo
    (File false 0 (DirIdx 2 0 0) 3 3 600 :: replicate 15 (File true 0 (DirIdx 0 0 0) 0 0 0)) true.

Definition block_okb (buf : list Z) : bool :=
  (length buf =? 512)%nat && forallb (fun b => (0 <=? b) && (b <? 256)) buf.

Lemma block_okb_ok buf : block_okb buf = true -> block_ok buf.
Proof.
  intros [L F]%andb_true_iff. split; [by apply Nat.eqb_eq|]. apply List.Forall_forall. intros x Hx.
  rewrite forallb_forall in F. specialize (F x Hx). lia.
Qed.

Lemma demo_healthy : healthy demo_fs.
Proof.
  split; [split; cbn; lia|done|]. intros a. cbn.
  repeat match goal with |- context [?x =? ?y] => destruct (x =? y) end; apply block_okb_ok; by vm_compute.
Qed.

Lemma demo_chain : chain (ftable demo_fs) [3; 5] /\ NoDup [3; 5] /\ Forall (valid_cluster demo_pinfo) [3; 5].
Proof.
  split; [split; vm_compute; reflexivity|]. split; [by apply (bool_decide_unpack _)|].
  repeat constructor; cbn; lia.
Qed.

Lemma fat_acquire_extends_chain_witness :
  exists s', fat_acquire_next_cluster 5 true demo_fs = (true, 6, s') /\ chain (ftable s') [3; 5; 6].
Proof.
  destruct demo_chain as (Ch & Nd & Va).
  pose proof (fat_acquire_extends_chain [3] 5 demo_fs demo_healthy Ch Nd Va) as T.
  assert (E : fst (fat_acquire_next_cluster 5 true demo_fs) = (true, 6)) by (vm_compute; reflexivity).
  destruct (fat_acquire_next_cluster 5 true demo_fs) as [r s']. cbn [fst] in E. subst r. exists s'. split; [reflexivity|]. apply T.
Defined.

Lemma fat_free_frees_chain_witness :
  exists s', fat_free_cluster_chain 2 3 demo_fs = Some (true, s') /\ ftable s' 3 = 0 /\ ftable s' 5 = 0 /\
    ftable s' 4 = 0x0FFFFFFF.
Proof.
  destruct demo_chain as (Ch & Nd & Va).
  destruct (fat_free_frees_chain 2 3 [5] demo_fs demo_healthy Ch Nd Va ltac:(simpl; lia)) as (s' & E & _ & _ & T).
  exists s'. rewrite !T by lia. split; [exact E|]. repeat split; vm_compute; reflexivity.
Defined.
