(* ===== verification/FatFile.v ===== *)
(** * The FAT32 driver: open files

    src/c/libsd/fat32.c, the interface for files that are open: [fat_read], [fat_write],
    [fat_lseek] and [fat_close], with the set-up of the driver and the entry of a file into
    the table of open files.

    A file is the bytes of its clusters, in the order of its chain. What is proved: reads
    return these bytes and writes change them, extending the chain when needed; a file that
    is written is read back; the errors of every function. *)

From stdpp Require Import base list numbers sets.
From Stdlib Require Import ZArith Lia.
From S2P Require Import Prelude Fat.

Local Open Scope Z_scope.
Local Open Scope c_scope.

(** ** Set-up *)

Definition FAT_MAX_FILES : Z := 16.
Definition FAT_FD_OFFSET : Z := 3.
Definition FAT_DIR_ENTRY_WIDTH : Z := 32.

(** [fat_load_partition_info]: the partition in entry [idx] of the master boot record. *)
Definition fat_load_partition_info (idx : Z) (s : fs) : option FatPartitionInfo * fs :=
  match fat_read_single_block 0 s with
  | (None, s) => (None, set_errno EIO s)
  | (Some buffer, s) =>
      if 4 <=? idx then (None, set_errno EINVAL s)
      else if negb (arr buffer 510 =? 0x55) && negb (arr buffer 511 =? 0xAA) then (None, set_errno EFAULT s)
      else
        let pentry_begin := 446 + idx * 16 in
        let ptype := fat_get_uint8 buffer (pentry_begin + 4) in
        if negb (ptype =? 0x0B) && negb (ptype =? 0x0C) then (None, set_errno EBADF s)
        else
          let vol := fat_get_uint32 buffer (pentry_begin + 8) in
          match fat_read_single_block vol s with
          | (None, s) => (None, set_errno EIO s)
          | (Some buffer, s) =>
              let bps := fat_get_uint16 buffer 11 in
              let spc := fat_get_uint8 buffer 13 in
              let res := fat_get_uint16 buffer 14 in
              let nfats := fat_get_uint8 buffer 16 in
              let spf := fat_get_uint32 buffer 0x24 in
              let root := fat_get_uint32 buffer 0x2C in
              let fat_begin := u32 (vol + res) in
              let cluster_begin := u32 (fat_begin + nfats * spf) in
              (Some (Pinfo vol bps spc res nfats (fat_get_uint16 buffer 17) (fat_get_uint16 buffer 19)
                       (fat_get_uint8 buffer 21) spf root fat_begin cluster_begin
                       (bps / FAT_DIR_ENTRY_WIDTH) (u32 (cluster_begin + (root - 2) * spc))),
               set_errno OK s)
          end
  end.

(** [fat_load_first_partition_info]: the first of the four entries that can be loaded. *)
Fixpoint first_partition (n : nat) (i : Z) (s : fs) : option FatPartitionInfo * fs :=
  match n with
  | O => (None, s)
  | S n =>
      match fat_load_partition_info i s with
      | (Some p, s) => (Some p, s)
      | (None, s) => first_partition n (i + 1) s
      end
  end.

Definition fat_load_first_partition_info : fs -> option FatPartitionInfo * fs := first_partition 4 0.

Definition free_file (f : FatFile) : FatFile :=
  File true 0 (f_dir_idx f) (f_start_cluster f) (f_current_cluster f) (f_size f).

Definition fat_init (p : FatPartitionInfo) (s : fs) : bool * fs :=
  if fat_initialized s then (false, set_errno EPERM s)
  else (true, Fs (blocks s) (faults s) OK p (map free_file (fat_open_files s)) true).

(** The cluster and the size in a directory entry. *)
Definition fat_cluster_of_dir_entry (sector : list Z) (entry_idx : Z) : Z :=
  let high := fat_get_uint16 sector (entry_idx * FAT_DIR_ENTRY_WIDTH + 0x14) in
  let low := fat_get_uint16 sector (entry_idx * FAT_DIR_ENTRY_WIDTH + 0x1a) in
  low .| u32 (high << 16).

Definition fat_size_of_dir_entry (sector : list Z) (entry_idx : Z) : Z :=
  fat_get_uint32 sector (entry_idx * FAT_DIR_ENTRY_WIDTH + 0x1C).

(** [fat_open_dir_entry]: the first entry of the table of open files that is free. *)
Definition fat_open_dir_entry (sector : list Z) (idx : FatDirEntryIdx) (s : fs) : Z * fs :=
  match list_find (fun f => f_free f = true) (fat_open_files s) with
  | None => (-1, s)
  | Some (i, f) =>
      let c := fat_cluster_of_dir_entry sector (di_index idx) in
      (Z.of_nat i + FAT_FD_OFFSET,
       set_files (<[i := File false 0 idx c c (fat_size_of_dir_entry sector (di_index idx))]> (fat_open_files s)) s)
  end.

(** ** The functions on a file descriptor *)

(** The tests all of them begin with: the file, or the value of [errno]. *)
Definition open_file (fd : Z) (s : fs) : FatFile + errno_t :=
  if negb (fat_initialized s) then inr EPERM
  else if (fd <? FAT_FD_OFFSET) || (FAT_FD_OFFSET + FAT_MAX_FILES <=? fd) then inr EINVAL
  else match fat_open_files s !! Z.to_nat (fd - FAT_FD_OFFSET) with
       | None => inr EBADF
       | Some f => if f_free f then inr EBADF else inl f
       end.

Definition put_file (fd : Z) (f : FatFile) (s : fs) : fs :=
  set_files (<[Z.to_nat (fd - FAT_FD_OFFSET) := f]> (fat_open_files s)) s.

Definition move_file (f : FatFile) (pos cluster size : Z) : FatFile :=
  File (f_free f) pos (f_dir_idx f) (f_start_cluster f) cluster size.

Definition fat_close (fd : Z) (s : fs) : bool * fs :=
  match open_file fd s with
  | inr e => (false, set_errno e s)
  | inl f =>
      (true, set_errno OK (put_file fd
         (File true (f_pos f) (f_dir_idx f) (f_start_cluster f) (f_current_cluster f) (f_size f)) s))
  end.

(** [memcpy] into a block. *)
Definition splice (off : Z) (xs buf : list Z) : list Z :=
  take (Z.to_nat off) buf ++ xs ++ drop (Z.to_nat off + length xs) buf.

(** The loop of [fat_read]: [out] has been read; the results are also the current cluster. The
    fuel [sz] is enough, as every round reads a byte. *)
Fixpoint read_loop (fuel : nat) (sz secoff secfirst byteoff cluster : Z) (out : list Z) (s : fs) :
    list Z * Z * fs :=
  let p := fat_pinfo s in
  let secsz := bytes_per_sector p in
  match fuel with
  | O => (out, cluster, s)
  | S fuel =>
      if sz <=? 0 then (out, cluster, s)
      else
        let rdsz := umin (secsz - byteoff) sz in
        match fat_read_single_block (u32 (secfirst + secoff)) s with
        | (None, s) => (out, cluster, s)
        | (Some blk, s) =>
            let out := out ++ (if rdsz <? secsz then take (Z.to_nat rdsz) (drop (Z.to_nat byteoff) blk) else blk) in
            let sz := sz - rdsz in
            if (0 <? sz) && (secsz <=? byteoff + rdsz) then
              let secoff := secoff + 1 in
              if sectors_per_cluster p <=? secoff then
                match fat_get_table_value cluster s with
                | (None, s) => (out, cluster, set_errno ENOSPC s)
                | (Some tv, s) =>
                    if FAT_TV_BAD tv then (out, cluster, set_errno EBADF s)
                    else if FAT_TV_LAST tv then (out, cluster, set_errno EBADF s)
                    else if FAT_TV_FREE tv then (out, cluster, set_errno EBADF s)
                    else read_loop fuel sz 0 (fat_first_sector_of_cluster p tv) 0 tv out s
                end
              else read_loop fuel sz secoff secfirst 0 cluster out s
            else read_loop fuel sz secoff secfirst 0 cluster out s
        end
  end.

(** [fat_read]: the bytes read, or [None] for the result -1. *)
Definition fat_read (fd sz : Z) (s : fs) : option (list Z) * fs :=
  match open_file fd s with
  | inr e => (None, set_errno e s)
  | inl f =>
      let p := fat_pinfo s in
      let secsz := bytes_per_sector p in
      let sz := if f_size f <? u32 (f_pos f + sz) then u32 (f_size f - f_pos f) else sz in
      let '(out, cluster, s) :=
        read_loop (S (Z.to_nat sz)) sz ((f_pos f / secsz) mod sectors_per_cluster p)
          (fat_first_sector_of_cluster p (f_current_cluster f)) (f_pos f mod secsz)
          (f_current_cluster f) [] (set_errno OK s) in
      (Some out, put_file fd (move_file f (u32 (f_pos f + Z.of_nat (length out))) cluster (f_size f)) s)
  end.

(** The loop of [fat_write]: [buf] is to be written, [n] bytes have been. *)
Fixpoint write_loop (fuel : nat) (buf : list Z) (secoff secfirst byteoff cluster n : Z) (s : fs) : Z * Z * fs :=
  let p := fat_pinfo s in
  let secsz := bytes_per_sector p in
  let sz := Z.of_nat (length buf) in
  match fuel with
  | O => (n, cluster, s)
  | S fuel =>
      if sz <=? 0 then (n, cluster, s)
      else
        let wrsz := umin (secsz - byteoff) sz in
        let sector := u32 (secfirst + secoff) in
        let chunk := take (Z.to_nat wrsz) buf in
        let '(wrbuf, s) :=
          if wrsz <? secsz then
            match fat_read_single_block sector s with
            | (None, s) => (None, s)
            | (Some odd_buf, s) => (Some (splice byteoff chunk odd_buf), s)
            end
          else (Some chunk, s) in
        match wrbuf with
        | None => (n, cluster, s)
        | Some wrbuf =>
            match fat_write_single_block sector wrbuf s with
            | (false, s) => (n, cluster, s)
            | (true, s) =>
                let n := n + wrsz in
                let buf := drop (Z.to_nat wrsz) buf in
                if secsz <=? byteoff + wrsz then
                  let secoff := secoff + 1 in
                  if sectors_per_cluster p <=? secoff then
                    match fat_acquire_next_cluster cluster true s with
                    | (false, cluster, s) => (n, cluster, set_errno ENOSPC s)
                    | (true, cluster, s) =>
                        write_loop fuel buf 0 (fat_first_sector_of_cluster p cluster) 0 cluster n s
                    end
                  else write_loop fuel buf secoff secfirst 0 cluster n s
                else write_loop fuel buf secoff secfirst 0 cluster n s
            end
        end
  end.

(** The size in the directory entry of a file is set; the result is the new size in memory. *)
Definition update_size (f : FatFile) (new_size : Z) (s : fs) : Z * fs :=
  if f_size f <? new_size then
    let sector := u32 (di_sector (f_dir_idx f) +
                       fat_first_sector_of_cluster (fat_pinfo s) (di_cluster (f_dir_idx f))) in
    match fat_read_single_block sector s with
    | (None, s) => (f_size f, s)
    | (Some odd_buf, s) =>
        let odd_buf := fat_set_uint32 new_size odd_buf (di_index (f_dir_idx f) * FAT_DIR_ENTRY_WIDTH + 0x1C) in
        let '(_, s) := fat_write_single_block sector odd_buf s in
        (new_size, s)
    end
  else (f_size f, s).

(** [fat_write]: the number of bytes written, or -1. *)
Definition fat_write (fd : Z) (buf : list Z) (s : fs) : Z * fs :=
  match open_file fd s with
  | inr e => (-1, set_errno e s)
  | inl f =>
      let p := fat_pinfo s in
      let secsz := bytes_per_sector p in
      let '(n, cluster, s) :=
        write_loop (S (length buf)) buf ((f_pos f / secsz) mod sectors_per_cluster p)
          (fat_first_sector_of_cluster p (f_current_cluster f)) (f_pos f mod secsz)
          (f_current_cluster f) 0 (set_errno OK s) in
      let '(size, s) := update_size f (u32 (f_pos f + n)) s in
      (n, put_file fd (move_file f (u32 (f_pos f + n)) cluster size) s)
  end.

(** [SEEK_INVALID] stands for all other values of [whence]. *)
Inductive whence_t := SEEK_SET | SEEK_CUR | SEEK_END | SEEK_INVALID.

(** The loop of [fat_lseek] over the clusters; the second result is whether the end of the
    chain was met, for which the function returns -1. *)
Fixpoint seek_loop (n : nat) (cluster : Z) (s : fs) : Z * bool * fs :=
  match n with
  | O => (cluster, false, s)
  | S n =>
      match fat_get_table_value cluster s with
      | (None, s) => (cluster, false, s)
      | (Some tv, s) =>
          if FAT_TV_BAD tv then (cluster, false, set_errno EAGAIN s)
          else if FAT_TV_LAST tv then (cluster, true, s)
          else seek_loop n tv s
      end
  end.

Definition fat_lseek (fd pos : Z) (whence : whence_t) (s : fs) : Z * fs :=
  match open_file fd s with
  | inr e => (-1, set_errno e s)
  | inl f =>
      let s := set_errno OK s in
      let abs_pos := match whence with
        | SEEK_CUR => s32 (f_pos f + pos)
        | SEEK_END => s32 (f_size f + pos)
        | _ => pos
        end in
      if match whence with SEEK_INVALID => true | _ => false end then (-1, set_errno EINVAL s)
      else if (abs_pos <? 0) || (f_size f <? abs_pos) then (-1, set_errno EPIPE s)
      else
        let p := fat_pinfo s in
        let bytes_per_cluster := u32 (bytes_per_sector p * sectors_per_cluster p) in
        let '(clusters, first) :=
          if f_pos f <? abs_pos
          then (u32 (f_pos f mod bytes_per_cluster + (abs_pos - f_pos f)) / bytes_per_cluster, f_current_cluster f)
          else (abs_pos / bytes_per_cluster, f_start_cluster f) in
        match seek_loop (Z.to_nat clusters) first s with
        | (_, true, s) => (-1, s)
        | (cluster, false, s) => (abs_pos, set_errno OK (put_file fd (move_file f abs_pos cluster (f_size f)) s))
        end
  end.

(** ** Files as bytes *)

(** A cluster whose blocks have addresses of 32 bits. *)
Definition data_cluster (p : FatPartitionInfo) (c : Z) : Prop :=
  valid_cluster p c /\ cluster_begin_addr p + (c - 1) * sectors_per_cluster p <= 4294967296.

(** The address of block [b] of the file with the clusters [cs]. *)
Definition file_block (p : FatPartitionInfo) (cs : list Z) (b : Z) : Z :=
  cluster_begin_addr p + (default 2 (cs !! Z.to_nat (b / sectors_per_cluster p)) - 2) * sectors_per_cluster p +
  b mod sectors_per_cluster p.

(** The byte at position [q] of the file. *)
Definition file_byte (p : FatPartitionInfo) (m : Z -> list Z) (cs : list Z) (q : Z) : Z :=
  arr (m (file_block p cs (q / 512))) (q mod 512).

Definition file_bytes (p : FatPartitionInfo) (m : Z -> list Z) (cs : list Z) (q : Z) (n : nat) : list Z :=
  map (fun i => file_byte p m cs (q + Z.of_nat i)) (seq 0 n).

Lemma file_bytes_app p m cs q a b :
  file_bytes p m cs q (a + b) = file_bytes p m cs q a ++ file_bytes p m cs (q + Z.of_nat a) b.
Proof.
  unfold file_bytes. rewrite seq_app, map_app. f_equal. cbn [Nat.add].
  apply list_eq. intros i. change (map ?f ?l) with (f <$> l). rewrite !list_lookup_fmap.
  destruct (decide (i < b)%nat).
  - rewrite !lookup_seq_lt by done. simpl. do 2 f_equal. lia.
  - by rewrite !lookup_seq_ge by lia.
Qed.

(** Part of a block. *)
Lemma file_bytes_block p m cs b o n :
  0 <= o -> o + Z.of_nat n <= 512 -> block_ok (m (file_block p cs b)) ->
  file_bytes p m cs (512 * b + o) n = take n (drop (Z.to_nat o) (m (file_block p cs b))).
Proof.
  intros Ho Hn [L _]. apply list_eq. intros i. unfold file_bytes.
  change (map ?f ?l) with (f <$> l). rewrite list_lookup_fmap. destruct (decide (i < n)%nat).
  - rewrite lookup_seq_lt, lookup_take_lt, lookup_drop by done. cbn [fmap option_fmap option_map Nat.add].
    unfold file_byte. replace ((512 * b + o + Z.of_nat i) / 512) with b by zdm.
    replace ((512 * b + o + Z.of_nat i) mod 512) with (o + Z.of_nat i) by zdm. unfold arr.
    replace (Z.to_nat (o + Z.of_nat i)) with (Z.to_nat o + i)%nat by lia.
    destruct (lookup_lt_is_Some_2 (m (file_block p cs b)) (Z.to_nat o + i)) as [x Ex]; [lia|].
    rewrite Ex. f_equal. by apply nth_lookup_Some.
  - rewrite lookup_seq_ge, lookup_take_ge by lia. done.
Qed.

(** The next block is in the same cluster or in the next one. *)
Lemma next_block b n : 0 <= b -> 0 < n ->
  if n <=? b mod n + 1 then (b + 1) mod n = 0 /\ (b + 1) / n = b / n + 1
  else (b + 1) mod n = b mod n + 1 /\ (b + 1) / n = b / n.
Proof.
  intros Hb Hn. pose proof (Z.mod_pos_bound b n Hn). pose proof (Z.div_mod b n ltac:(lia)) as E.
  destruct (Z.leb_spec n (b mod n + 1)).
  - assert (E' : b + 1 = (b / n + 1) * n) by nia. rewrite E'. split; [by apply Z.mod_mul; lia|by apply Z.div_mul; lia].
  - assert (E' : b + 1 = (b mod n + 1) + (b / n) * n) by lia. rewrite E'.
    rewrite Z.mod_add, Z.div_add by lia. split; [apply Z.mod_small; lia|]. rewrite Z.div_small; lia.
Qed.

Lemma cluster_sector p c : vol_ok p -> data_cluster p c ->
  fat_first_sector_of_cluster p c = cluster_begin_addr p + (c - 2) * sectors_per_cluster p.
Proof.
  intros V [[[? _] _] ?]. pose proof (vol_spc _ V). pose proof (vol_spf _ V). pose proof (vol_fat _ V).
  unfold fat_first_sector_of_cluster. apply u32_small. nia.
Qed.

(** The clusters of a file. *)
Record clusters_ok (s : fs) (cs : list Z) : Prop := {
  cl_chain : chain (ftable s) cs;
  cl_nodup : NoDup cs;
  cl_data : Forall (data_cluster (fat_pinfo s)) cs
}.

Lemma cluster_at s cs k c : clusters_ok s cs -> cs !! k = Some c -> data_cluster (fat_pinfo s) c.
Proof. intros [_ _ D] E. rewrite Forall_forall in D. apply D. by eapply list_elem_of_lookup_2. Qed.

(** The block the loops address. *)
Lemma loop_sector s cs b c :
  healthy s -> clusters_ok s cs -> 0 <= b -> cs !! Z.to_nat (b / sectors_per_cluster (fat_pinfo s)) = Some c ->
  u32 (fat_first_sector_of_cluster (fat_pinfo s) c + b mod sectors_per_cluster (fat_pinfo s)) =
    file_block (fat_pinfo s) cs b /\
  cluster_begin_addr (fat_pinfo s) <= file_block (fat_pinfo s) cs b.
Proof.
  intros H C Hb E. pose proof (h_vol _ H) as V. pose proof (cluster_at _ _ _ _ C E) as D.
  rewrite cluster_sector by done. unfold file_block. rewrite E. cbn [default from_option id].
  pose proof (vol_spc _ V). pose proof (vol_fat _ V). destruct D as [[[? _] _] ?].
  pose proof (Z.mod_pos_bound b (sectors_per_cluster (fat_pinfo s)) ltac:(lia)).
  assert (0 <= (c - 2) * sectors_per_cluster (fat_pinfo s)) by nia. pose proof (vol_spf _ V).
  rewrite u32_small by nia. lia.
Qed.

Definition file_length (p : FatPartitionInfo) (cs : list Z) : Z :=
  Z.of_nat (length cs) * sectors_per_cluster p * 512.

(** The bytes of a round. *)
Lemma read_chunk p cs b o rdsz m :
  block_ok (m (file_block p cs b)) -> 0 <= o -> 0 < rdsz -> o + rdsz <= 512 ->
  (if rdsz <? 512 then take (Z.to_nat rdsz) (drop (Z.to_nat o) (m (file_block p cs b))) else m (file_block p cs b)) =
    file_bytes p m cs (512 * b + o) (Z.to_nat rdsz).
Proof.
  intros Hb Ho Hr H. rewrite file_bytes_block by (done || lia). destruct (Z.ltb_spec rdsz 512); [done|].
  assert (o = 0) as -> by lia. assert (rdsz = 512) as -> by lia. simpl drop.
  symmetry. apply take_ge. destruct Hb. lia.
Qed.

(** From the last block of a cluster the table leads to the next one. *)
Lemma read_next_cluster s cs b c :
  healthy s -> clusters_ok s cs -> 0 <= b -> 512 * (b + 1) < file_length (fat_pinfo s) cs ->
  cs !! Z.to_nat (b / sectors_per_cluster (fat_pinfo s)) = Some c ->
  (b + 1) / sectors_per_cluster (fat_pinfo s) = b / sectors_per_cluster (fat_pinfo s) + 1 ->
  exists c', cs !! Z.to_nat ((b + 1) / sectors_per_cluster (fat_pinfo s)) = Some c' /\
    fat_get_table_value c s = (Some c', set_errno OK s) /\
    FAT_TV_BAD c' = false /\ FAT_TV_LAST c' = false /\ FAT_TV_FREE c' = false.
Proof.
  intros H C Hb Hl E N. pose proof (vol_spc _ (h_vol _ H)) as Hspc. set (spc := sectors_per_cluster (fat_pinfo s)) in *.
  unfold file_length in Hl. fold spc in Hl.
  assert ((b + 1) / spc < Z.of_nat (length cs)) by (apply Z.div_lt_upper_bound; nia).
  assert (0 <= b / spc) by (apply Z.div_pos; lia).
  destruct (lookup_lt_is_Some_2 cs (Z.to_nat ((b + 1) / spc))) as [c' Ec]; [lia|]. exists c'. split; [done|].
  destruct (cluster_at _ _ _ _ C E) as [[? _] _], (cluster_at _ _ _ _ C Ec) as [[? ?] _].
  assert (T : ftable s c = c').
  { apply (chain_next _ cs (Z.to_nat (b / spc))); [apply C|done|].
    by replace (S (Z.to_nat (b / spc))) with (Z.to_nat ((b + 1) / spc)) by lia. }
  rewrite get_table_value, T by (done || lia). unfold FAT_TV_BAD, FAT_TV_LAST, FAT_TV_FREE. by zif.
Qed.

(** A round of the loop: it reads up to the end of block [b], and goes on in the next block or
    ends. *)
Lemma read_round cs fuel sz b o c out s :
  healthy s -> clusters_ok s cs -> 0 <= b -> 0 <= o < 512 -> 0 < sz ->
  512 * b + o + sz <= file_length (fat_pinfo s) cs ->
  cs !! Z.to_nat (b / sectors_per_cluster (fat_pinfo s)) = Some c ->
  let rdsz := Z.min (512 - o) sz in
  let out' := out ++ file_bytes (fat_pinfo s) (blocks s) cs (512 * b + o) (Z.to_nat rdsz) in
  exists c', read_loop (S fuel) sz (b mod sectors_per_cluster (fat_pinfo s))
      (fat_first_sector_of_cluster (fat_pinfo s) c) o c out s =
    (if 0 <? sz - rdsz
     then read_loop fuel (sz - rdsz) ((b + 1) mod sectors_per_cluster (fat_pinfo s))
            (fat_first_sector_of_cluster (fat_pinfo s) c') 0 c' out' (set_errno OK s)
     else read_loop fuel 0 (b mod sectors_per_cluster (fat_pinfo s))
            (fat_first_sector_of_cluster (fat_pinfo s) c) 0 c out' (set_errno OK s)) /\
    (0 < sz - rdsz -> cs !! Z.to_nat ((b + 1) / sectors_per_cluster (fat_pinfo s)) = Some c').
Proof.
  intros H C Hb Ho Hsz Hl E rdsz out'. pose proof (h_vol _ H) as V. pose proof (vol_spc _ V) as Hspc.
  set (p := fat_pinfo s) in *. set (spc := sectors_per_cluster p) in *.
  destruct (loop_sector s cs b c H C Hb E) as [Ea _]. fold p spc in Ea.
  assert (Er : umin (512 - o) sz = rdsz) by (unfold umin, rdsz; dec_bool; lia).
  cbn [read_loop]. fold p. fold spc. rewrite (vol_bps _ V), (proj2 (Z.leb_gt sz 0)), Er, Ea, read_block by (done || lia).
  rewrite read_chunk by (try apply H; lia). fold out'.
  destruct (Z.ltb_spec 0 (sz - rdsz)) as [Hm|Hm]; cbn [andb].
  - rewrite (proj2 (Z.leb_le 512 (o + rdsz))) by lia. pose proof (next_block b spc Hb ltac:(lia)) as Nb.
    destruct (Z.leb_spec spc (b mod spc + 1)); destruct Nb as [N1 N2].
    + destruct (read_next_cluster (set_errno OK s) cs b c) as (c' & Ec & Et & F1 & F2 & F3);
        [by apply healthy_errno|by destruct C|done|cbn [set_errno fat_pinfo]; fold p; lia|done|done|].
      exists c'. rewrite Et, F1, F2, F3, N1. by split.
    + exists c. rewrite N1, N2. by split.
  - exists c. assert (sz - rdsz = 0) as -> by lia. split; [done|lia].
Qed.

(** The loop of [fat_read] reads the bytes from block [b], offset [o], on. *)
Lemma read_loop_spec cs fuel : forall sz b o c out s,
  healthy s -> clusters_ok s cs -> 0 <= b -> 0 <= o < 512 -> 0 <= sz ->
  (Z.to_nat sz < fuel)%nat -> 512 * b + o + sz <= file_length (fat_pinfo s) cs ->
  cs !! Z.to_nat (b / sectors_per_cluster (fat_pinfo s)) = Some c ->
  exists c', read_loop fuel sz (b mod sectors_per_cluster (fat_pinfo s))
      (fat_first_sector_of_cluster (fat_pinfo s) c) o c out s =
      (out ++ file_bytes (fat_pinfo s) (blocks s) cs (512 * b + o) (Z.to_nat sz), c',
       if 0 <? sz then set_errno OK s else s) /\
    cs !! Z.to_nat (Z.max (512 * b + o) (512 * b + o + sz - 1) / (512 * sectors_per_cluster (fat_pinfo s))) = Some c'.
Proof.
  induction fuel as [|fuel IH]; intros sz b o c out s H C Hb Ho Hsz L Hl E; [lia|].
  pose proof (vol_spc _ (h_vol _ H)) as Hspc.
  assert (Cur : forall i, 512 * b <= i < 512 * b + 512 -> i / (512 * sectors_per_cluster (fat_pinfo s)) =
    b / sectors_per_cluster (fat_pinfo s)) by (intros i Hi; rewrite <- Z.div_div by lia; f_equal; zdm).
  destruct (Z.eq_dec sz 0) as [->|].
  { exists c. cbn [read_loop Z.leb Z.compare]. rewrite app_nil_r, Cur by lia. done. }
  destruct (read_round cs fuel sz b o c out s H C Hb Ho ltac:(lia) Hl E) as (c1 & -> & Ec1).
  set (rdsz := Z.min (512 - o) sz) in *. assert (Hr : rdsz = Z.min (512 - o) sz) by done.
  rewrite (proj2 (Z.ltb_lt 0 sz)) by lia. destruct (Z.ltb_spec 0 (sz - rdsz)) as [Hm|Hm].
  - destruct (IH (sz - rdsz) (b + 1) 0 c1 (out ++ file_bytes (fat_pinfo s) (blocks s) cs (512 * b + o) (Z.to_nat rdsz)) (set_errno OK s))
      as (c2 & E2 & Ec2); [by apply healthy_errno|by destruct C|lia..|cbn [set_errno fat_pinfo]; lia|by apply Ec1|].
    exists c2. cbn [set_errno fat_pinfo blocks] in E2, Ec2. fold (set_errno OK s) in E2. rewrite E2.
    rewrite (proj2 (Z.ltb_lt 0 (sz - rdsz))), <- app_assoc by lia. split.
    + replace (512 * (b + 1) + 0) with (512 * b + o + Z.of_nat (Z.to_nat rdsz)) by lia. rewrite <- file_bytes_app.
      by replace (Z.to_nat rdsz + Z.to_nat (sz - rdsz))%nat with (Z.to_nat sz) by lia.
    + by replace (Z.max (512 * b + o) (512 * b + o + sz - 1)) with (Z.max (512 * (b + 1) + 0) (512 * (b + 1) + 0 + (sz - rdsz) - 1)) by lia.
  - exists c. assert (rdsz = sz) as -> by lia. rewrite Cur by lia. split; [|done].
    by destruct fuel; cbn [read_loop Z.leb Z.compare].
Qed.

(** ** Writing blocks of a file *)

Lemma arr_app l1 l2 i :
  0 <= i -> arr (l1 ++ l2) i = if i <? Z.of_nat (length l1) then arr l1 i else arr l2 (i - Z.of_nat (length l1)).
Proof.
  intros Hi. unfold arr. destruct (Z.ltb_spec i (Z.of_nat (length l1))).
  - apply app_nth1. lia.
  - rewrite app_nth2 by lia. f_equal. lia.
Qed.

Lemma arr_take l n i : 0 <= i < Z.of_nat n -> arr (take n l) i = arr l i.
Proof. intros Hi. unfold arr. by rewrite !nth_lookup, lookup_take_lt by lia. Qed.

Lemma arr_drop l n i : 0 <= i -> arr (drop n l) i = arr l (Z.of_nat n + i).
Proof. intros Hi. unfold arr. rewrite !nth_lookup, lookup_drop. do 2 f_equal. lia. Qed.

Lemma splice_length o xs buf :
  0 <= o <= Z.of_nat (length buf) ->
  Z.of_nat (length (splice o xs buf)) = Z.max (Z.of_nat (length buf)) (o + Z.of_nat (length xs)).
Proof. intros Ho. unfold splice. rewrite !length_app, length_take, length_drop. lia. Qed.

Lemma arr_splice o xs buf i :
  0 <= o <= Z.of_nat (length buf) -> 0 <= i ->
  arr (splice o xs buf) i =
    if (o <=? i) && (i <? o + Z.of_nat (length xs)) then arr xs (i - o) else arr buf i.
Proof.
  intros Ho Hi. unfold splice. rewrite !arr_app by lia. rewrite length_take.
  replace (Z.of_nat (Z.to_nat o `min` length buf)) with o by lia.
  destruct (Z.ltb_spec i o); zif.
  - apply arr_take. lia.
  - rewrite arr_app by lia. destruct (Z.ltb_spec (i - o) (Z.of_nat (length xs))); zif; [done|].
    rewrite arr_drop by lia. f_equal. lia.
Qed.

(** Different blocks of a file have different addresses. *)
Definition in_file (p : FatPartitionInfo) (cs : list Z) (b : Z) : Prop :=
  0 <= b < Z.of_nat (length cs) * sectors_per_cluster p.

Lemma in_file_cluster p cs b : vol_ok p -> in_file p cs b ->
  exists c, cs !! Z.to_nat (b / sectors_per_cluster p) = Some c /\ 0 <= b / sectors_per_cluster p.
Proof.
  intros V Hb. pose proof (vol_spc _ V). unfold in_file in Hb.
  assert (b / sectors_per_cluster p < Z.of_nat (length cs)) by (apply Z.div_lt_upper_bound; nia).
  assert (0 <= b / sectors_per_cluster p) by (apply Z.div_pos; lia).
  destruct (lookup_lt_is_Some_2 cs (Z.to_nat (b / sectors_per_cluster p))) as [c Ec]; [lia|]. by exists c.
Qed.

Lemma file_block_inj p cs b b' :
  vol_ok p -> NoDup cs -> in_file p cs b -> in_file p cs b' ->
  file_block p cs b = file_block p cs b' -> b = b'.
Proof.
  intros V Nd Hb Hb' E. pose proof (vol_spc _ V).
  destruct (in_file_cluster p cs b V Hb) as (c & Ec & ?). destruct (in_file_cluster p cs b' V Hb') as (c' & Ec' & ?).
  unfold file_block in E. rewrite Ec, Ec' in E. cbn [default from_option id] in E.
  pose proof (Z.mod_pos_bound b (sectors_per_cluster p) ltac:(lia)).
  pose proof (Z.mod_pos_bound b' (sectors_per_cluster p) ltac:(lia)).
  pose proof (Z.div_mod b (sectors_per_cluster p) ltac:(lia)). pose proof (Z.div_mod b' (sectors_per_cluster p) ltac:(lia)).
  assert (c = c') by nia. subst c'. pose proof (NoDup_lookup _ _ _ _ Nd Ec Ec').
  assert (b / sectors_per_cluster p = b' / sectors_per_cluster p) by lia. nia.
Qed.

Lemma file_block_app p cs cs' b : vol_ok p -> in_file p cs b -> file_block p (cs ++ cs') b = file_block p cs b.
Proof.
  intros V Hb. destruct (in_file_cluster p cs b V Hb) as (c & Ec & _). unfold file_block.
  by rewrite Ec, (lookup_app_l_Some _ _ _ _ Ec).
Qed.

(** A write to a block of a file. *)
Lemma file_byte_put p m cs b buf q :
  vol_ok p -> NoDup cs -> in_file p cs b -> in_file p cs (q / 512) ->
  file_byte p (put_block m (file_block p cs b) buf) cs q =
    if q / 512 =? b then arr buf (q mod 512) else file_byte p m cs q.
Proof.
  intros V Nd Hb Hq. unfold file_byte. destruct (Z.eqb_spec (q / 512) b) as [->|N].
  - unfold put_block. by rewrite Z.eqb_refl.
  - rewrite put_block_ne; [done|]. intros E. by apply N, (file_block_inj p cs).
Qed.

(** A write outside of the table leaves it alone. *)
Lemma table_data a buf s x :
  vol_ok (fat_pinfo s) -> cluster_begin_addr (fat_pinfo s) <= a -> 0 <= x < fat_entries (fat_pinfo s) ->
  ftable (with_block a buf s) x = ftable s x.
Proof.
  intros V Ha Hx. unfold ftable, table, fat_entries in *. cbn [with_block blocks fat_pinfo].
  pose proof (vol_fat _ V). rewrite put_block_ne; [done|]. zdm.
Qed.

Lemma clusters_data a buf s cs :
  healthy s -> cluster_begin_addr (fat_pinfo s) <= a -> clusters_ok s cs -> clusters_ok (with_block a buf s) cs.
Proof.
  intros H Ha [Ch Nd D]. split; [|done|done]. apply (chain_ext (ftable s)); [|done].
  intros c Hc. rewrite Forall_forall in D. destruct (D c Hc) as [[? _] _]. apply table_data; [apply H|done|lia].
Qed.

(** ** Free space *)

(** At least [k] clusters are free, and all that are can be used. *)
Definition space (s : fs) (k : Z) : Prop :=
  (exists fr, NoDup fr /\ k <= Z.of_nat (length fr) /\ Forall (free_entry (fat_pinfo s) (blocks s)) fr) /\
  forall x, free_entry (fat_pinfo s) (blocks s) x -> data_cluster (fat_pinfo s) x.

Lemma space_le s k k' : space s k -> k' <= k -> space s k'.
Proof. intros [(fr & ? & ? & ?) ?] ?. split; [|done]. exists fr. repeat split; [done|lia|done]. Qed.

Lemma space_weaken s s' k :
  fat_pinfo s' = fat_pinfo s ->
  (forall x, 0 <= x < fat_entries (fat_pinfo s) -> ftable s' x = ftable s x) -> space s k -> space s' k.
Proof.
  intros P T [(fr & Nd & L & F) D].
  assert (E : forall x, free_entry (fat_pinfo s') (blocks s') x <-> free_entry (fat_pinfo s) (blocks s) x).
  { intros x. unfold free_entry. rewrite P. split; intros [Hx Hv]; (split; [done|]).
    - specialize (T x ltac:(lia)). unfold ftable in T. rewrite P in T. by rewrite <- T.
    - specialize (T x ltac:(lia)). unfold ftable in T. rewrite P in T. by rewrite T. }
  split.
  - exists fr. split; [done|]. split; [done|]. eapply Forall_impl; [exact F|]. intros x. by apply E.
  - intros x Hx. rewrite P. apply D. by apply E.
Qed.

Lemma space_data a buf s k :
  vol_ok (fat_pinfo s) -> cluster_begin_addr (fat_pinfo s) <= a -> space s k -> space (with_block a buf s) k.
Proof. intros V Ha. apply space_weaken; [done|]. intros x Hx. by apply table_data. Qed.

Lemma length_filter_ne (n : Z) l :
  NoDup l -> Z.of_nat (length l) - 1 <= Z.of_nat (length (filter (fun x => x <> n) l)) /\
    (n ∉ l -> length (filter (fun x => x <> n) l) = length l).
Proof.
  induction l as [|x l IH]; intros Hl; [done|]. apply NoDup_cons in Hl as [Hx Hl]. specialize (IH Hl) as [IH1 IH2].
  destruct (decide (x = n)) as [->|N].
  - rewrite filter_cons_False by auto. rewrite IH2 by done. simpl. split; [lia|set_solver].
  - rewrite filter_cons_True by done. simpl. split; [lia|]. intros Hn. rewrite IH2; [done|set_solver].
Qed.

(** An allocation takes one cluster. *)
Lemma free_allocated c link s n s' x :
  ftable s c <> 0 -> allocated c link s n s' ->
  free_entry (fat_pinfo s') (blocks s') x <-> free_entry (fat_pinfo s) (blocks s) x /\ x <> n.
Proof.
  intros Tc [[Fn F] T _ _ P _ _ _]. unfold free_entry. rewrite P.
  change (table (fat_pinfo s) (blocks s) x) with (ftable s x).
  assert (E : table (fat_pinfo s) (blocks s') x = ftable s' x) by (unfold ftable; by rewrite P). rewrite E.
  split; [intros [Hx Hv]|intros [[Hx Hv] Hn]]; rewrite T in * by lia.
  - destruct (Z.eqb_spec x n); [done|]. destruct link, (Z.eqb_spec x c); cbn [andb] in *; done || lia.
  - split; [done|]. rewrite (proj2 (Z.eqb_neq x n)) by done. destruct link, (Z.eqb_spec x c); cbn [andb]; congruence.
Qed.

Lemma space_allocated c link s n s' k :
  ftable s c <> 0 -> allocated c link s n s' -> space s k -> space s' (k - 1).
Proof.
  intros Tc A [(fr & Nd & L & Fr) D]. split.
  - exists (filter (fun x => x <> n) fr). split; [by apply NoDup_filter|]. split.
    + destruct (length_filter_ne n fr Nd). lia.
    + apply Forall_forall. intros x [Hn Hx]%list_elem_of_filter. apply (free_allocated c link s n s'); [done..|].
      split; [|done]. rewrite Forall_forall in Fr. by apply Fr.
  - intros x Hx. rewrite (al_pinfo _ _ _ _ _ A). apply D. by apply (free_allocated c link s n s') in Hx as [? _].
Qed.

(** ** What a write does *)

Lemma lookup_in_file p cs b c :
  vol_ok p -> 0 <= b -> cs !! Z.to_nat (b / sectors_per_cluster p) = Some c -> in_file p cs b.
Proof.
  intros V Hb E. pose proof (vol_spc _ V). apply lookup_lt_Some in E. unfold in_file.
  assert (0 <= b / sectors_per_cluster p) by (apply Z.div_pos; lia).
  pose proof (Z.div_mod b (sectors_per_cluster p) ltac:(lia)).
  pose proof (Z.mod_pos_bound b (sectors_per_cluster p) ltac:(lia)). nia.
Qed.

Lemma in_file_app p cs cs' b : vol_ok p -> in_file p cs b -> in_file p (cs ++ cs') b.
Proof. intros V. pose proof (vol_spc _ V). unfold in_file. rewrite length_app. nia. Qed.

(** From state [s] to state [s'], the bytes [buf] have been written at position [q] of the file
    with the clusters [cs], to which the clusters [cs'] have been added. Outside of the table
    and the file, nothing has changed. *)
Record wrote (p : FatPartitionInfo) (cs : list Z) (q : Z) (buf : list Z) (s : fs) (cs' : list Z) (s' : fs) : Prop := {
  wr_healthy : healthy s';
  wr_pinfo : fat_pinfo s' = p;
  wr_files : fat_open_files s' = fat_open_files s;
  wr_init : fat_initialized s' = fat_initialized s;
  wr_clusters : clusters_ok s' (cs ++ cs');
  wr_space : forall k, space s (k - Z.of_nat (length cs)) -> space s' (k - Z.of_nat (length (cs ++ cs')));
  wr_others : forall x, 0 <= x < fat_entries p -> ftable s x <> 0 -> ~ (x ∈ cs) -> ~ (x ∈ cs') /\ ftable s' x = ftable s x;
  wr_in : forall i, q <= i < q + Z.of_nat (length buf) -> in_file p (cs ++ cs') (i / 512);
  wr_bytes : forall i, q <= i < q + Z.of_nat (length buf) ->
    file_byte p (blocks s') (cs ++ cs') i = arr buf (i - q);
  wr_rest : forall i, in_file p cs (i / 512) -> i < q \/ q + Z.of_nat (length buf) <= i ->
    file_byte p (blocks s') (cs ++ cs') i = file_byte p (blocks s) cs i;
  wr_frame : forall a, a < fat_begin_addr p \/ fat_begin_addr p + sectors_per_fat p <= a ->
    (forall b, in_file p (cs ++ cs') b -> a <> file_block p (cs ++ cs') b) -> blocks s' a = blocks s a
}.

Lemma wrote_trans p cs q buf1 buf2 s cs1 s1 cs2 s2 :
  vol_ok p -> wrote p cs q buf1 s cs1 s1 ->
  wrote p (cs ++ cs1) (q + Z.of_nat (length buf1)) buf2 s1 cs2 s2 ->
  wrote p cs q (buf1 ++ buf2) s (cs1 ++ cs2) s2.
Proof.
  intros V [H1 P1 F1 I1 C1 S1 O1 N1 B1 R1 W1] [H2 P2 F2 I2 C2 S2 O2 N2 B2 R2 W2].
  rewrite <- app_assoc in *.
  assert (Hin : forall i, in_file p cs i -> in_file p (cs ++ cs1) i) by (intros; by apply in_file_app).
  split; [done|done|congruence|congruence|done| | | | | |].
  - intros k Hk. by apply S2, S1.
  - intros x Hx Tx Nx. destruct (O1 x Hx Tx Nx) as [N1x T1]. rewrite <- T1 in Tx |- *.
    destruct (O2 x Hx Tx) as [N2x T2]; [set_solver|]. split; [set_solver|done].
  - intros i Hi. rewrite length_app in Hi. destruct (Z.lt_ge_cases i (q + Z.of_nat (length buf1))); [|apply N2; lia].
    rewrite app_assoc. apply in_file_app; [done|]. apply N1. lia.
  - intros i Hi. rewrite length_app in Hi. rewrite arr_app by lia. destruct (Z.ltb_spec (i - q) (Z.of_nat (length buf1))).
    + rewrite R2 by (try apply N1; lia). apply B1. lia.
    + rewrite B2 by lia. f_equal. lia.
  - intros i Hb Hi. rewrite length_app in Hi. rewrite R2 by (auto || lia). apply R1; [done|lia].
  - intros a Ha Hn. rewrite W2 by done. apply W1; [done|]. intros b Hb.
    rewrite <- (file_block_app p (cs ++ cs1) cs2), <- app_assoc by done.
    apply Hn. rewrite app_assoc. by apply in_file_app.
Qed.

Lemma wrote_errno p cs q s e :
  healthy s -> fat_pinfo s = p -> clusters_ok s cs -> wrote p cs q [] s [] (set_errno e s).
Proof.
  intros H P C. split; rewrite ?app_nil_r; try done; try (intros i Hi; simpl in Hi; lia);
    [by apply healthy_errno|by destruct C|]. intros x _ _ _. split; [set_solver|done].
Qed.

(** Part of a block is written. *)
Lemma splice_ok o xs buf :
  block_ok buf -> Forall (fun b => 0 <= b < 256) xs -> 0 <= o -> o + Z.of_nat (length xs) <= 512 ->
  block_ok (splice o xs buf).
Proof.
  intros [L F] Fx Ho Hx. split.
  { apply Nat2Z.inj. rewrite splice_length by lia. lia. }
  unfold splice.
  apply Forall_app. split; [by apply Forall_take|]. apply Forall_app. split; [done|by apply Forall_drop].
Qed.

Lemma wrote_block p cs b o xs s :
  healthy s -> fat_pinfo s = p -> clusters_ok s cs -> in_file p cs b ->
  cluster_begin_addr p <= file_block p cs b ->
  Forall (fun b => 0 <= b < 256) xs -> 0 <= o -> o + Z.of_nat (length xs) <= 512 ->
  wrote p cs (512 * b + o) xs s []
    (with_block (file_block p cs b) (splice o xs (blocks s (file_block p cs b))) s).
Proof.
  intros H P C Hb Hc Fx Ho Hx. pose proof (h_vol _ H) as V. rewrite P in V. pose proof (h_disk _ H (file_block p cs b)) as [L _].
  assert (Hi : forall i, 512 * b + o <= i < 512 * b + o + Z.of_nat (length xs) -> i / 512 = b) by (intros; zdm).
  split; rewrite ?app_nil_r; try done.
  - apply healthy_block; [done|]. apply splice_ok; [apply H|done..].
  - apply clusters_data; [done|by rewrite P|done].
  - intros k. apply space_data; by rewrite P.
  - intros x Hr _ _. split; [set_solver|]. apply table_data; by rewrite P.
  - intros i Hr. by rewrite (Hi i Hr).
  - intros i Hr. cbn [with_block blocks]. rewrite file_byte_put by (try apply C; rewrite ?(Hi i Hr); done).
    rewrite (Hi i Hr), Z.eqb_refl. specialize (Hi i Hr).
    assert (i mod 512 = i - 512 * b) by zdm. rewrite arr_splice by (done || lia). zif. f_equal. lia.
  - intros i Hf Hr. cbn [with_block blocks]. rewrite file_byte_put by (try apply C; done).
    destruct (Z.eqb_spec (i / 512) b) as [E|]; [|done]. assert (i mod 512 = i - 512 * b) by zdm.
    assert (0 <= i mod 512 < 512) by (apply Z.mod_pos_bound; lia).
    rewrite arr_splice by (done || lia). unfold file_byte. rewrite E. by destruct Hr; zif.
  - intros a _ Hn. cbn. apply put_block_ne. by apply Hn.
Qed.

(** ** The loop of [fat_write] *)

Lemma fat_next s cs k c c' :
  clusters_ok s cs -> cs !! k = Some c -> cs !! S k = Some c' ->
  ftable s c = c' /\ 0 <= c < fat_entries (fat_pinfo s) /\ 2 <= c' < 0x0FFFFFF7.
Proof.
  intros C E E'. split; [eapply chain_next; [apply C|done..]|].
  destruct (cluster_at _ _ _ _ C E) as [[? _] _], (cluster_at _ _ _ _ C E') as [[? ?] _]. lia.
Qed.

(** The file after an allocation. *)
Lemma wrote_allocated cs c q s n s' :
  healthy s -> clusters_ok s (cs ++ [c]) -> data_cluster (fat_pinfo s) n -> allocated c true s n s' ->
  wrote (fat_pinfo s) (cs ++ [c]) q [] s [n] s'.
Proof.
  intros H [Ch Nd D] Dn A. pose proof (h_vol _ H) as V. pose proof (vol_fat _ V) as Vf.
  assert (Va : Forall (valid_cluster (fat_pinfo s)) (cs ++ [c])) by (eapply Forall_impl; [exact D|by intros x []]).
  destruct (chain_allocated cs c s n s' Ch Nd Va A) as [Nn Ch'].
  assert (Tc : ftable s c <> 0).
  { apply (chain_nonzero _ _ c Ch); [eapply Forall_impl; [exact Va|by intros x [[]]]|set_solver]. }
  split; try (intros i Hi; simpl in Hi; lia); try apply A.
  - split; rewrite ?(al_pinfo _ _ _ _ _ A).
    + by rewrite <- app_assoc.
    + apply NoDup_app. split; [done|]. split; [|apply NoDup_singleton]. set_solver.
    + apply Forall_app. split; [done|]. by apply Forall_singleton.
  - intros k Hk. rewrite length_app. simpl.
    replace (k - _) with (k - Z.of_nat (length (cs ++ [c])) - 1) by lia. by eapply space_allocated.
  - intros x Hx Tx Nx. destruct A as [[_ F] T _ _ _ _ _ _]. assert (x <> n) by (by intros ->).
    split; [set_solver|]. rewrite T by lia. rewrite !(proj2 (Z.eqb_neq _ _)); [done| |done]. set_solver.
  - intros i Hi _. unfold file_byte. rewrite file_block_app by done. f_equal. apply A.
    destruct (in_file_cluster _ _ _ V Hi) as (x & Ex & _).
    destruct (loop_sector s (cs ++ [c]) (i / 512) x H) as [_ G]; [done|unfold in_file in Hi; lia|done|]. lia.
  - intros a Ha _. by apply A.
Qed.

(** The next cluster of a file, which is added to it if there is none. *)
Lemma wrote_acquire cs k c q s :
  healthy s -> clusters_ok s cs -> cs !! k = Some c ->
  space s (Z.of_nat k + 2 - Z.of_nat (length cs)) ->
  exists cs' c' s', fat_acquire_next_cluster c true s = (true, c', s') /\
    wrote (fat_pinfo s) cs q [] s cs' s' /\ (cs ++ cs') !! S k = Some c'.
Proof.
  intros H C E Sp. pose proof (lookup_lt_Some _ _ _ E) as Hk. destruct (decide (S k < length cs)%nat) as [Hk'|Hk'].
  - destruct (lookup_lt_is_Some_2 _ _ Hk') as [c' E']. destruct (fat_next s cs k c c' C E E') as (T & Hc & Hc').
    exists [], c', (set_errno OK s). rewrite acquire_link, T by (done || lia). split; [done|].
    rewrite app_nil_r. split; [by apply wrote_errno|done].
  - assert (exists cs0, cs = cs0 ++ [c] /\ length cs0 = k) as (cs0 & -> & L).
    { exists (take k cs). rewrite length_take. split; [|lia]. rewrite <- (take_drop k cs) at 1. f_equal.
      rewrite (drop_S _ _ _ E), drop_ge by lia. done. }
    pose proof (cluster_at _ _ _ _ C E) as [[Vc _] _].
    pose proof (acquire_new c true s H ltac:(lia) (chain_last _ _ _ (cl_chain _ _ C))) as A.
    destruct Sp as [(fr & _ & Lf & Fr) Df].
    destruct (fat_acquire_next_cluster c true s) as [[[] n] s'].
    + exists [n], n, s'. split; [done|]. split; [apply wrote_allocated; [done..| |done]; by apply Df, A|].
      rewrite lookup_app_r by lia. rewrite length_app. simpl. by replace (S k - (length cs0 + 1))%nat with 0%nat by lia.
    + destruct A as (_ & _ & _ & _ & _ & _ & _ & No). rewrite length_app in Lf. simpl in Lf.
      destruct fr as [|x fr]; [simpl in Lf; lia|]. apply Forall_cons_1 in Fr as [Fx _]. by apply No in Fx.
Qed.

(** The block of a round, as the loop puts it together and writes it. *)
Lemma write_round p cs b o chunk s :
  healthy s -> 0 <= o -> o + Z.of_nat (length chunk) <= 512 -> (length chunk <= 512)%nat ->
  exists s0, (if Z.of_nat (length chunk) <? 512
     then match fat_read_single_block (file_block p cs b) s with
          | (None, s) => (None, s)
          | (Some odd_buf, s) => (Some (splice o chunk odd_buf), s)
          end
     else (Some chunk, s)) = (Some (splice o chunk (blocks s (file_block p cs b))), s0) /\
    forall buf, fat_write_single_block (file_block p cs b) buf s0 = (true, with_block (file_block p cs b) buf s).
Proof.
  intros H Ho Hs Hc. destruct (Z.ltb_spec (Z.of_nat (length chunk)) 512).
  - exists (set_errno OK s). rewrite read_block by done. split; [done|]. intros. by rewrite write_block by (by apply healthy_errno).
  - exists s. split; [|intros; by apply write_block]. f_equal. f_equal. unfold splice.
    assert (o = 0) as -> by lia. pose proof (proj1 (h_disk _ H (file_block p cs b))).
    rewrite drop_ge by lia. by rewrite app_nil_r.
Qed.

Lemma wrote_refl p cs q s : healthy s -> fat_pinfo s = p -> clusters_ok s cs -> wrote p cs q [] s [] s.
Proof. intros H P C. pose proof (wrote_errno p cs q s (errno s) H P C). by destruct s. Qed.

(** Block [b] is written: the code of a round up to the update of the sector. *)
Lemma write_chunk p cs fuel buf b o c n s :
  healthy s -> fat_pinfo s = p -> clusters_ok s cs -> 0 <= b -> 0 <= o < 512 -> buf <> [] ->
  Forall (fun b => 0 <= b < 256) buf -> cs !! Z.to_nat (b / sectors_per_cluster p) = Some c ->
  let wrsz := Z.min (512 - o) (Z.of_nat (length buf)) in
  let rest := drop (Z.to_nat wrsz) buf in
  exists s1, wrote p cs (512 * b + o) (take (Z.to_nat wrsz) buf) s [] s1 /\ fat_pinfo s1 = p /\
    write_loop (S fuel) buf (b mod sectors_per_cluster p) (fat_first_sector_of_cluster p c) o c n s =
      if 512 <=? o + wrsz then
        if sectors_per_cluster p <=? b mod sectors_per_cluster p + 1 then
          match fat_acquire_next_cluster c true s1 with
          | (false, cluster, s) => (n + wrsz, cluster, set_errno ENOSPC s)
          | (true, cluster, s) =>
              write_loop fuel rest 0 (fat_first_sector_of_cluster p cluster) 0 cluster (n + wrsz) s
          end
        else write_loop fuel rest (b mod sectors_per_cluster p + 1) (fat_first_sector_of_cluster p c) 0 c (n + wrsz) s1
      else write_loop fuel rest (b mod sectors_per_cluster p) (fat_first_sector_of_cluster p c) 0 c (n + wrsz) s1.
Proof.
  intros H P C Hb Ho Nb Fb E wrsz rest. pose proof (h_vol _ H) as V. rewrite P in V.
  assert (0 < Z.of_nat (length buf)) by (destruct buf; [done|simpl; lia]).
  pose proof (loop_sector s cs b c H C Hb) as LS. rewrite P in LS. destruct (LS E) as [Ea Hc]. clear LS.
  set (chunk := take (Z.to_nat wrsz) buf). assert (Lc : Z.of_nat (length chunk) = wrsz) by (unfold chunk, wrsz; rewrite length_take; lia).
  assert (Fc : Forall (fun b => 0 <= b < 256) chunk) by (by apply Forall_take).
  assert (Er : umin (512 - o) (Z.of_nat (length buf)) = wrsz) by (unfold umin, wrsz; dec_bool; lia).
  assert (Hw : wrsz = Z.min (512 - o) (Z.of_nat (length buf))) by done.
  destruct (write_round p cs b o chunk s H ltac:(lia) ltac:(lia) ltac:(lia)) as (s0 & E0 & W0). rewrite Lc in E0.
  exists (with_block (file_block p cs b) (splice o chunk (blocks s (file_block p cs b))) s).
  split; [by apply wrote_block; try done; try lia; eapply lookup_in_file|]. split; [done|].
  cbn [write_loop]. rewrite P, (vol_bps _ V), (proj2 (Z.leb_gt _ 0)), Er, Ea by lia. fold chunk. by rewrite E0, W0.
Qed.

(** Or the whole round: it leaves the cursor at block [b + 1], whose cluster is acquired when
    needed. *)
Lemma write_full_block p cs fuel buf b o c n s :
  healthy s -> fat_pinfo s = p -> clusters_ok s cs -> 0 <= b -> 0 <= o < 512 -> 512 <= o + Z.of_nat (length buf) ->
  Forall (fun b => 0 <= b < 256) buf -> cs !! Z.to_nat (b / sectors_per_cluster p) = Some c ->
  space s ((b + 1) / sectors_per_cluster p + 1 - Z.of_nat (length cs)) ->
  exists cs1 c1 s2, write_loop (S fuel) buf (b mod sectors_per_cluster p) (fat_first_sector_of_cluster p c) o c n s =
      write_loop fuel (drop (Z.to_nat (512 - o)) buf) ((b + 1) mod sectors_per_cluster p)
        (fat_first_sector_of_cluster p c1) 0 c1 (n + (512 - o)) s2 /\
    wrote p cs (512 * b + o) (take (Z.to_nat (512 - o)) buf) s cs1 s2 /\
    (cs ++ cs1) !! Z.to_nat ((b + 1) / sectors_per_cluster p) = Some c1.
Proof.
  intros H P C Hb Ho Hl Fb E Sp. pose proof (h_vol _ H) as V. rewrite P in V. pose proof (vol_spc _ V) as Hspc.
  destruct (write_chunk p cs fuel buf b o c n s H P C Hb Ho ltac:(by intros ->; simpl in Hl; lia) Fb E) as (s1 & W & P1 & ->).
  rewrite !(Z.min_l (512 - o)) in * by lia. rewrite (proj2 (Z.leb_le 512 _)) by lia.
  pose proof (next_block b (sectors_per_cluster p) Hb ltac:(lia)) as Nb.
  assert (Hbs : 0 <= b / sectors_per_cluster p) by (apply Z.div_pos; lia).
  pose proof W as [H1 _ _ _ C1 Sp1 _ _ _ _ _]. rewrite app_nil_r in C1, Sp1.
  destruct (Z.leb_spec (sectors_per_cluster p) (b mod sectors_per_cluster p + 1)); destruct Nb as [N1 N2].
  - destruct (wrote_acquire cs (Z.to_nat (b / sectors_per_cluster p)) c (512 * b + o + Z.of_nat (length (take (Z.to_nat (512 - o)) buf))) s1
      H1 C1 E) as (cs1 & c1 & s2 & Ac & W2 & Ec1); [eapply space_le; [by apply Sp1|lia]|].
    exists cs1, c1, s2. rewrite Ac, N1. split; [done|]. rewrite P1 in W2. split.
    + rewrite <- (app_nil_r (take _ buf)). apply (wrote_trans p cs _ _ [] s [] s1 cs1); [done|done|]. by rewrite app_nil_r.
    + by replace (Z.to_nat ((b + 1) / sectors_per_cluster p)) with (S (Z.to_nat (b / sectors_per_cluster p))) by lia.
  - exists [], c, s1. rewrite N1, N2, app_nil_r. by split.
Qed.

(** The loop writes [buf] from block [b], offset [o], on; it leaves the cursor at the cluster of
    the position behind the last byte. *)
Lemma write_loop_spec p fuel : forall buf b o c n cs s,
  healthy s -> fat_pinfo s = p -> clusters_ok s cs -> 0 <= b -> 0 <= o < 512 -> (length buf < fuel)%nat ->
  Forall (fun b => 0 <= b < 256) buf -> cs !! Z.to_nat (b / sectors_per_cluster p) = Some c ->
  space s ((512 * b + o + Z.of_nat (length buf)) / (512 * sectors_per_cluster p) + 1 - Z.of_nat (length cs)) ->
  exists cs' c' s', write_loop fuel buf (b mod sectors_per_cluster p) (fat_first_sector_of_cluster p c) o c n s =
      (n + Z.of_nat (length buf), c', s') /\
    wrote p cs (512 * b + o) buf s cs' s' /\
    (cs ++ cs') !! Z.to_nat ((512 * b + o + Z.of_nat (length buf)) / (512 * sectors_per_cluster p)) = Some c'.
Proof.
  induction fuel as [|fuel IH]; intros buf b o c n cs s H P C Hb Ho L Fb E Sp; [lia|].
  pose proof (h_vol _ H) as V. rewrite P in V. pose proof (vol_spc _ V) as Hspc.
  assert (Cur : forall i, 512 * b <= i < 512 * b + 512 -> i / (512 * sectors_per_cluster p) = b / sectors_per_cluster p).
  { intros i Hi. rewrite <- Z.div_div by lia. f_equal. zdm. }
  destruct (Z.lt_ge_cases (o + Z.of_nat (length buf)) 512) as [Hs|Hs].
  - destruct (decide (buf = [])) as [->|Nb].
    { exists [], c, s. rewrite app_nil_r. simpl. rewrite !Z.add_0_r, Cur by lia. split; [done|]. split; [by apply wrote_refl|done]. }
    destruct (write_chunk p cs fuel buf b o c n s H P C Hb Ho Nb Fb E) as (s1 & W & _ & ->).
    rewrite !(Z.min_r (512 - o)) in * by lia. rewrite (proj2 (Z.leb_gt 512 _)) by lia.
    rewrite take_ge in W by lia. rewrite drop_ge by lia. exists [], c, s1. rewrite app_nil_r, Cur by lia.
    split; [by destruct fuel|done].
  - destruct (write_full_block p cs fuel buf b o c n s H P C Hb Ho Hs Fb E) as (cs1 & c1 & s2 & -> & W1 & Ec1).
    { eapply space_le; [exact Sp|].
      assert ((b + 1) / sectors_per_cluster p <= (512 * b + o + Z.of_nat (length buf)) / (512 * sectors_per_cluster p)); [|lia].
      rewrite <- Z.div_div by lia. apply Z.div_le_mono; [lia|]. zdm. }
    assert (Elen : 512 * b + o + Z.of_nat (length buf) = 512 * (b + 1) + 0 + Z.of_nat (length (drop (Z.to_nat (512 - o)) buf)))
      by (rewrite length_drop; lia).
    pose proof W1 as [H1 P1 _ _ C1 Sp1 _ _ _ _ _]. rewrite Elen in *.
    destruct (IH (drop (Z.to_nat (512 - o)) buf) (b + 1) 0 c1 (n + (512 - o)) (cs ++ cs1) s2) as (cs2 & c2 & s3 & E3 & W3 & Ec2);
      [done..|lia|lia|rewrite length_drop; lia|by apply Forall_drop|done|by apply Sp1|].
    exists (cs1 ++ cs2), c2, s3. rewrite E3, app_assoc. split; [f_equal; f_equal; lia|]. split; [|done].
    rewrite <- (take_drop (Z.to_nat (512 - o)) buf) at 1. eapply (wrote_trans p cs); [done|exact W1|].
    rewrite length_take. by replace (512 * b + o + Z.of_nat (Z.to_nat (512 - o) `min` length buf)) with (512 * (b + 1) + 0) by lia.
Qed.
