(* ===== verification/FatSpec.v ===== *)
(** * The FAT32 driver: files as sequences of bytes

    The abstract view of an open file of src/c/libsd/fat32.c: its bytes and a position. Reads,
    writes and seeks on the file descriptor do to these what the interface promises, in any
    order and any number; a file that is not written to keeps its bytes. *)

From stdpp Require Import base list numbers sets.
From Stdlib Require Import ZArith Lia.
From S2P Require Import Prelude Fat FatFile.

Local Open Scope Z_scope.
Local Open Scope c_scope.

(** ** The abstract file *)

Record afile := AFile { a_data : list Z; a_pos : Z }.

Inductive op := Write (buf : list Z) | Read (n : Z) | Seek (w : whence_t) (off : Z).

Inductive res := Count (n : Z) | Bytes (out : option (list Z)).

(** The position a seek asks for. *)
Definition seek_to (w : whence_t) (off : Z) (a : afile) : Z :=
  match w with
  | SEEK_CUR => a_pos a + off
  | SEEK_END => Z.of_nat (length (a_data a)) + off
  | _ => off
  end.

Definition a_step (o : op) (a : afile) : res * afile :=
  match o with
  | Write buf =>
      (Count (Z.of_nat (length buf)),
       AFile (splice (a_pos a) buf (a_data a)) (a_pos a + Z.of_nat (length buf)))
  | Read n =>
      let out := take (Z.to_nat n) (drop (Z.to_nat (a_pos a)) (a_data a)) in
      (Bytes (Some out), AFile (a_data a) (a_pos a + Z.of_nat (length out)))
  | Seek w off =>
      let q := seek_to w off a in
      match w with
      | SEEK_INVALID => (Count (-1), a)
      | _ => if (q <? 0) || (Z.of_nat (length (a_data a)) <? q) then (Count (-1), a)
             else (Count q, AFile (a_data a) q)
      end
  end.

Fixpoint a_run (ops : list op) (a : afile) : list res * afile :=
  match ops with
  | [] => ([], a)
  | o :: ops => let '(r, a) := a_step o a in let '(rs, a) := a_run ops a in (r :: rs, a)
  end.

(** What a program may ask for: [M] bounds the size of the file, and [bpc] is the size of a
    cluster. A read must not end between two clusters, as the driver does not move on to the
    next cluster there; and a seek must not go to the end of a file that fills its last cluster,
    where the driver fails. *)
Definition op_ok (bpc M : Z) (o : op) (a : afile) : bool :=
  match o with
  | Write buf => (a_pos a + Z.of_nat (length buf) <=? M) && forallb (fun b => (0 <=? b) && (b <? 256)) buf
  | Read n =>
      (0 <=? n) && (n <=? M) &&
      ((a_pos (snd (a_step o a)) =? a_pos a) || negb (a_pos (snd (a_step o a)) mod bpc =? 0))
  | Seek w off =>
      let q := seek_to w off a in
      (- 2147483648 <=? q) && (q <? 2147483648) &&
      negb ((q =? Z.of_nat (length (a_data a))) && (q mod bpc =? 0))
  end.

Fixpoint ops_ok (bpc M : Z) (ops : list op) (a : afile) : bool :=
  match ops with
  | [] => true
  | o :: ops => op_ok bpc M o a && ops_ok bpc M ops (snd (a_step o a))
  end.

(** ** The driver *)

Definition c_step (fd : Z) (o : op) (s : fs) : res * fs :=
  match o with
  | Write buf => let '(n, s) := fat_write fd buf s in (Count n, s)
  | Read n => let '(out, s) := fat_read fd n s in (Bytes out, s)
  | Seek w off => let '(n, s) := fat_lseek fd off w s in (Count n, s)
  end.

Fixpoint c_run (fd : Z) (ops : list op) (s : fs) : list res * fs :=
  match ops with
  | [] => ([], s)
  | o :: ops => let '(r, s) := c_step fd o s in let '(rs, s) := c_run fd ops s in (r :: rs, s)
  end.

(** ** Where the directory entry of a file is *)

Definition dir_sector (p : FatPartitionInfo) (f : FatFile) : Z :=
  cluster_begin_addr p + (di_cluster (f_dir_idx f) - 2) * sectors_per_cluster p + di_sector (f_dir_idx f).

(** The entry is in a cluster that is in use, but not by the file. *)
Record dir_ok (s : fs) (cs : list Z) (f : FatFile) : Prop := {
  d_data : data_cluster (fat_pinfo s) (di_cluster (f_dir_idx f));
  d_used : ftable s (di_cluster (f_dir_idx f)) <> 0;
  d_other : ~ (di_cluster (f_dir_idx f) ∈ cs);
  d_sector : 0 <= di_sector (f_dir_idx f) < sectors_per_cluster (fat_pinfo s);
  d_index : 0 <= di_index (f_dir_idx f) < 16
}.

Lemma dir_address s cs f : vol_ok (fat_pinfo s) -> dir_ok s cs f ->
  u32 (di_sector (f_dir_idx f) + fat_first_sector_of_cluster (fat_pinfo s) (di_cluster (f_dir_idx f))) =
    dir_sector (fat_pinfo s) f /\ cluster_begin_addr (fat_pinfo s) <= dir_sector (fat_pinfo s) f.
Proof.
  intros V [D _ _ Hs _]. rewrite cluster_sector by done. unfold dir_sector. destruct D as [[[? _] _] ?].
  pose proof (vol_spc _ V). pose proof (vol_fat _ V). pose proof (vol_spf _ V).
  assert (0 <= (di_cluster (f_dir_idx f) - 2) * sectors_per_cluster (fat_pinfo s)) by nia.
  rewrite u32_small by nia. lia.
Qed.

(** Sectors of different clusters differ. *)
Lemma file_block_other p cs b d r :
  vol_ok p -> in_file p cs b -> ~ (d ∈ cs) -> 0 <= r < sectors_per_cluster p ->
  cluster_begin_addr p + (d - 2) * sectors_per_cluster p + r <> file_block p cs b.
Proof.
  intros V Hb Nd Hr E. destruct (in_file_cluster p cs b V Hb) as (c & Ec & _). unfold file_block in E. rewrite Ec in E.
  cbn [default from_option id] in E. pose proof (vol_spc _ V).
  pose proof (Z.mod_pos_bound b (sectors_per_cluster p) ltac:(lia)).
  assert (d = c) by nia. subst d. by apply Nd, list_elem_of_lookup_2 with (Z.to_nat (b / sectors_per_cluster p)).
Qed.

Lemma dir_not_file s cs f b :
  vol_ok (fat_pinfo s) -> dir_ok s cs f -> in_file (fat_pinfo s) cs b ->
  dir_sector (fat_pinfo s) f <> file_block (fat_pinfo s) cs b.
Proof. intros V D Hb. apply file_block_other; [done|done|apply D..]. Qed.

(** The update of the size writes to the sector of the entry, or not at all. *)
Lemma update_size_spec cs f new s :
  healthy s -> dir_ok s cs f ->
  exists s', update_size f new s = (Z.max (f_size f) new, s') /\
    (s' = s \/ exists buf, block_ok buf /\ s' = with_block (dir_sector (fat_pinfo s) f) buf s).
Proof.
  intros H D. unfold update_size. destruct (Z.ltb_spec (f_size f) new); [|exists s; split; [f_equal; lia|by left]].
  destruct (dir_address s cs f (h_vol _ H) D) as [-> _].
  rewrite read_block by done. rewrite write_block by (by apply healthy_errno).
  eexists. split; [f_equal; lia|]. right. eexists. split; [|reflexivity]. apply set_uint32_ok, H.
Qed.

(** ** The refinement relation *)

Definition bpc (s : fs) : Z := 512 * sectors_per_cluster (fat_pinfo s).

(** The open file [f] with the clusters [cs] is the abstract file [a]; it may grow up to [M]
    bytes. *)
Record file_rep (M fd : Z) (f : FatFile) (cs : list Z) (s : fs) (a : afile) : Prop := {
  r_healthy : healthy s;
  r_open : open_file fd s = inl f;
  r_clusters : clusters_ok s cs;
  r_start : cs !! 0%nat = Some (f_start_cluster f);
  r_cursor : cs !! Z.to_nat (a_pos a / bpc s) = Some (f_current_cluster f);
  r_pos : f_pos f = a_pos a;
  r_size : f_size f = Z.of_nat (length (a_data a));
  r_range : 0 <= a_pos a <= Z.of_nat (length (a_data a));
  r_max : Z.of_nat (length (a_data a)) <= M < 2147483648;
  r_in : forall i, 0 <= i < Z.of_nat (length (a_data a)) -> in_file (fat_pinfo s) cs (i / 512);
  r_data : forall i, 0 <= i < Z.of_nat (length (a_data a)) -> arr (a_data a) i = file_byte (fat_pinfo s) (blocks s) cs i;
  r_space : space s (M / bpc s + 1 - Z.of_nat (length cs));
  r_dir : dir_ok s cs f
}.

Lemma bpc_pos s : healthy s -> 512 <= bpc s <= 130560.
Proof. intros H. pose proof (vol_spc _ (h_vol _ H)). unfold bpc. lia. Qed.

(** The tests of a file descriptor see the table of open files only. *)
Lemma open_file_ext fd s s' :
  fat_open_files s' = fat_open_files s -> fat_initialized s' = fat_initialized s -> open_file fd s' = open_file fd s.
Proof. intros E1 E2. unfold open_file. by rewrite E1, E2. Qed.

Lemma open_not_free fd f s : open_file fd s = inl f -> f_free f = false.
Proof.
  unfold open_file. destruct (fat_initialized s); [|done]. cbn [negb]. destruct (_ || _); [done|].
  destruct (_ !! _) as [g|]; [|done]. destruct (f_free g) eqn:E; [done|]. by intros [= <-].
Qed.

Lemma open_put fd f f' s : open_file fd s = inl f -> f_free f' = false -> open_file fd (put_file fd f' s) = inl f'.
Proof.
  unfold open_file. cbn [put_file set_files fat_initialized fat_open_files]. destruct (fat_initialized s); [|done].
  cbn [negb]. destruct (_ || _); [done|]. destruct (fat_open_files s !! _) as [g|] eqn:E; [|done]. intros _ Hf.
  rewrite list_lookup_insert_eq by (by eapply lookup_lt_Some). by rewrite Hf.
Qed.

(** The table of open files and [errno] are not part of the disk. *)
Lemma clusters_put fd f s cs : clusters_ok s cs -> clusters_ok (put_file fd f s) cs.
Proof. by intros []. Qed.

Lemma healthy_put fd f s : healthy s -> healthy (put_file fd f s).
Proof. by intros []. Qed.

Lemma dir_move s cs f pos c size : dir_ok s cs f -> dir_ok s cs (move_file f pos c size).
Proof. by intros []. Qed.

Lemma dir_put fd g s cs f : dir_ok s cs f -> dir_ok (put_file fd g s) cs f.
Proof. by intros []. Qed.

(** The position moves, and the bytes stay. *)
Lemma rep_move M fd f cs s a q c :
  file_rep M fd f cs s a -> 0 <= q <= Z.of_nat (length (a_data a)) -> cs !! Z.to_nat (q / bpc s) = Some c ->
  file_rep M fd (move_file f q c (f_size f)) cs (put_file fd (move_file f q c (f_size f)) (set_errno OK s)) (AFile (a_data a) q).
Proof.
  intros [H Op C St Cu Po Si Ra Mx In Da Sp Di] Hq Hc.
  split; try done; try (by apply healthy_put, healthy_errno); try (by apply clusters_put; destruct C);
    try (by apply dir_put, dir_move; destruct Di).
  apply (open_put fd f); [by rewrite <- Op|]. by eapply (open_not_free fd f s).
Qed.

Lemma lookup_arr (l : list Z) i : (i < length l)%nat -> l !! i = Some (arr l (Z.of_nat i)).
Proof.
  intros Hi. destruct (lookup_lt_is_Some_2 l i Hi) as [x Ex]. rewrite Ex. f_equal. unfold arr.
  rewrite Nat2Z.id. symmetry. by apply nth_lookup_Some.
Qed.

Lemma rep_bytes M fd f cs s a q n :
  file_rep M fd f cs s a -> 0 <= q -> q + Z.of_nat n <= Z.of_nat (length (a_data a)) ->
  file_bytes (fat_pinfo s) (blocks s) cs q n = take n (drop (Z.to_nat q) (a_data a)).
Proof.
  intros R Hq Hn. apply list_eq. intros i. unfold file_bytes. change (map ?g ?l) with (g <$> l).
  rewrite list_lookup_fmap. destruct (decide (i < n)%nat).
  - rewrite lookup_seq_lt, lookup_take_lt, lookup_drop, lookup_arr by lia. cbn [fmap option_fmap option_map Nat.add].
    rewrite <- (r_data _ _ _ _ _ _ R) by lia. do 2 f_equal. lia.
  - by rewrite lookup_seq_ge, lookup_take_ge by lia.
Qed.

(** The size of a file is within its clusters. *)
Lemma rep_length M fd f cs s a :
  file_rep M fd f cs s a -> Z.of_nat (length (a_data a)) <= file_length (fat_pinfo s) cs.
Proof.
  intros R. unfold file_length. destruct (Z.eq_dec (Z.of_nat (length (a_data a))) 0); [pose proof (vol_spc _ (h_vol _ (r_healthy _ _ _ _ _ _ R))); nia|].
  pose proof (r_in _ _ _ _ _ _ R (Z.of_nat (length (a_data a)) - 1) ltac:(lia)) as I. unfold in_file in I. zdm.
Qed.

(** [fat_read]: what it returns, and where it leaves the cursor. *)
Lemma fat_read_spec M fd f cs s a n :
  file_rep M fd f cs s a -> 0 <= n <= M ->
  let out := take (Z.to_nat n) (drop (Z.to_nat (a_pos a)) (a_data a)) in
  let q := a_pos a + Z.of_nat (length out) in
  exists c, fat_read fd n s = (Some out, put_file fd (move_file f q c (f_size f)) (set_errno OK s)) /\
    cs !! Z.to_nat (Z.max (a_pos a) (q - 1) / bpc s) = Some c /\ q <= Z.of_nat (length (a_data a)).
Proof.
  intros R Hn out q. pose proof (rep_length _ _ _ _ _ _ R) as Rl. pose proof R as [H Op C St Cu Po Si Ra Mx In Da Sp Di].
  pose proof (h_vol _ H) as V. pose proof (vol_spc _ V) as Hspc.
  unfold fat_read. rewrite Op. cbn zeta. rewrite Po, Si, (vol_bps _ V), (u32_small (a_pos a + n)) by lia.
  set (sz := if _ <? _ then _ else _).
  assert (Hs : sz = Z.min n (Z.of_nat (length (a_data a)) - a_pos a)).
  { unfold sz. destruct (Z.ltb_spec (Z.of_nat (length (a_data a))) (a_pos a + n)); [rewrite u32_small by lia|]; lia. }
  assert (Lo : Z.of_nat (length out) = sz) by (unfold out; rewrite length_take, length_drop; lia).
  set (b := a_pos a / 512). set (o := a_pos a mod 512).
  assert (Eq : a_pos a = 512 * b + o) by (unfold b, o; zdm).
  assert (Hc : cs !! Z.to_nat (b / sectors_per_cluster (fat_pinfo s)) = Some (f_current_cluster f)).
  { unfold b. rewrite Z.div_div by lia. exact Cu. }
  destruct (read_loop_spec cs (S (Z.to_nat sz)) sz b o (f_current_cluster f) [] (set_errno OK s)) as (c & E & Ec);
    [by apply healthy_errno|by destruct C|apply Z.div_pos; lia|apply Z.mod_pos_bound; lia|lia|lia|cbn [set_errno fat_pinfo]; lia|done|].
  cbn [set_errno fat_pinfo blocks] in E, Ec. rewrite <- Eq in E, Ec. fold (set_errno OK s) in E.
  exists c. rewrite E. rewrite (rep_bytes M fd f cs s a) by (done || lia).
  replace (take (Z.to_nat sz) (drop (Z.to_nat (a_pos a)) (a_data a))) with out.
  2: { unfold out. rewrite <- (take_ge (drop (Z.to_nat (a_pos a)) (a_data a)) (Z.to_nat (Z.of_nat (length (a_data a)) - a_pos a))) at 1 by (rewrite length_drop; lia). rewrite take_take. f_equal. lia. }
  cbn [app]. rewrite u32_small by lia. fold q. split; [|split; [|unfold q; lia]].
  - f_equal. f_equal. by destruct (0 <? sz).
  - unfold q, bpc. by rewrite Lo.
Qed.

(** The loop of [fat_lseek] follows the chain. *)
Lemma seek_loop_spec cs n : forall k c c' s,
  healthy s -> clusters_ok s cs -> cs !! k = Some c -> cs !! (k + n)%nat = Some c' ->
  seek_loop n c s = (c', false, if decide (n = 0%nat) then s else set_errno OK s).
Proof.
  induction n as [|n IH]; intros k c c' s H C E E'; cbn [seek_loop].
  - rewrite Nat.add_0_r in E'. by assert (c = c') as -> by congruence.
  - destruct (lookup_lt_is_Some_2 cs (S k)) as [x Ex]; [apply lookup_lt_Some in E'; lia|].
    destruct (fat_next s cs k c x C E Ex) as (T & Hc & Hx). rewrite get_table_value, T by done.
    unfold FAT_TV_BAD, FAT_TV_LAST. zif.
    rewrite (IH (S k) x c') by (try (by apply healthy_errno); try (by destruct C); try done; by rewrite Nat.add_succ_comm).
    by destruct (decide (n = 0%nat)).
Qed.

(** The clusters between two positions. *)
Lemma seek_count q q' n : 0 < n -> 0 <= q -> q <= q' -> q / n + (q mod n + (q' - q)) / n = q' / n.
Proof.
  intros Hn Hq Hq'. replace (q mod n + (q' - q)) with (q' + - (q / n) * n) by (pose proof (Z.div_mod q n ltac:(lia)); lia).
  rewrite Z.div_add by lia. lia.
Qed.

(** A position inside of a file has a cluster. *)
Lemma rep_cluster M fd f cs s a q :
  file_rep M fd f cs s a -> 0 <= q <= Z.of_nat (length (a_data a)) ->
  ~ (q = Z.of_nat (length (a_data a)) /\ q mod bpc s = 0) -> (Z.to_nat (q / bpc s) < length cs)%nat.
Proof.
  intros R Hq N. pose proof (rep_length _ _ _ _ _ _ R) as L. pose proof (bpc_pos s (r_healthy _ _ _ _ _ _ R)) as B.
  assert (El : file_length (fat_pinfo s) cs = Z.of_nat (length cs) * bpc s) by (unfold file_length, bpc; lia).
  assert (q < file_length (fat_pinfo s) cs).
  { destruct (Z.eq_dec q (file_length (fat_pinfo s) cs)) as [E|]; [|lia]. exfalso. apply N. split; [lia|].
    rewrite E, El. apply Z.mod_mul. lia. }
  assert (q / bpc s < Z.of_nat (length cs)) by (apply Z.div_lt_upper_bound; lia).
  assert (0 <= q / bpc s) by (apply Z.div_pos; lia). lia.
Qed.

Lemma fat_lseek_spec M fd f cs s a w off :
  file_rep M fd f cs s a -> op_ok (bpc s) M (Seek w off) a = true ->
  let q := seek_to w off a in
  (fat_lseek fd off w s = (-1, set_errno (match w with SEEK_INVALID => EINVAL | _ => EPIPE end) s) /\
     a_step (Seek w off) a = (Count (-1), a)) \/
  (exists c, fat_lseek fd off w s = (q, set_errno OK (put_file fd (move_file f q c (f_size f)) (set_errno OK s))) /\
     a_step (Seek w off) a = (Count q, AFile (a_data a) q) /\
     0 <= q <= Z.of_nat (length (a_data a)) /\ cs !! Z.to_nat (q / bpc s) = Some c).
Proof.
  intros R Ok q. pose proof R as [H Op C St Cu Po Si Ra Mx In Da Sp Di].
  pose proof (h_vol _ H) as V. pose proof (bpc_pos s H) as B.
  cbn [op_ok] in Ok. fold q in Ok. apply andb_true_iff in Ok as [[Q1%Z.leb_le Q2%Z.ltb_lt]%andb_true_iff Q3].
  unfold fat_lseek. rewrite Op, Po, Si. cbn zeta. cbn [a_step]. fold q.
  assert (Eq : match w with SEEK_CUR => s32 (a_pos a + off) | SEEK_END => s32 (Z.of_nat (length (a_data a)) + off)
    | _ => off end = q) by (unfold q in *; destruct w; cbn [seek_to] in *; try done; apply s32_small; lia).
  rewrite Eq. clear Eq. set (bad := (q <? 0) || _).
  assert (match w with SEEK_INVALID => true | _ => false end = true \/
    match w with SEEK_INVALID => true | _ => false end = false /\
    forall A (x y : A), match w with SEEK_INVALID => x | _ => y end = y) as [Ew|[-> Ew]].
  { destruct w; [right|right|right|left]; done. }
  { left. by destruct w. }
  rewrite Ew. destruct bad eqn:Eb; [left|right]; rewrite ?Ew; [done|].
  apply orb_false_iff in Eb as [Q4%Z.ltb_ge Q5%Z.ltb_ge].
  change (fat_pinfo (set_errno OK s)) with (fat_pinfo s). rewrite (vol_bps _ V), (u32_small (512 * _)) by (unfold bpc in B; lia).
  fold (bpc s).
  assert (Hl : (Z.to_nat (q / bpc s) < length cs)%nat).
  { apply (rep_cluster M fd f cs s a); [done|lia|]. intros [E1 E2]. by rewrite E1, Z.eqb_refl, <- E1, E2 in Q3. }
  destruct (lookup_lt_is_Some_2 _ _ Hl) as [c Ec]. exists c.
  assert (0 <= q / bpc s) by (apply Z.div_pos; lia). assert (0 <= a_pos a / bpc s) by (apply Z.div_pos; lia).
  assert (HC : clusters_ok (set_errno OK s) cs) by (by destruct C).
  split; [|done]. destruct (Z.ltb_spec (a_pos a) q).
  - pose proof (Z.mod_pos_bound (a_pos a) (bpc s) ltac:(lia)). rewrite u32_small by lia.
    pose proof (seek_count (a_pos a) q (bpc s) ltac:(lia) ltac:(lia) ltac:(lia)) as Sc.
    assert (0 <= (a_pos a mod bpc s + (q - a_pos a)) / bpc s) by (apply Z.div_pos; lia).
    rewrite (seek_loop_spec cs _ (Z.to_nat (a_pos a / bpc s)) (f_current_cluster f) c);
      [|by apply healthy_errno|done|done|by rewrite <- Z2Nat.inj_add, Sc by lia]. by destruct (decide _).
  - rewrite (seek_loop_spec cs _ 0 (f_start_cluster f) c); [|by apply healthy_errno|done..]. by destruct (decide _).
Qed.

(** ** Writing *)

Lemma dir_wrote p cs q buf s cs' s' f :
  fat_pinfo s = p -> dir_ok s cs f -> wrote p cs q buf s cs' s' -> dir_ok s' (cs ++ cs') f.
Proof.
  intros P [D U O Se In] W. pose proof (wr_pinfo _ _ _ _ _ _ _ W) as P'.
  rewrite <- P in P'. destruct (wr_others _ _ _ _ _ _ _ W (di_cluster (f_dir_idx f))) as [N T];
    [rewrite <- P; destruct D as [[? _] _]; lia|done..|].
  split; rewrite ?P'; [done|by rewrite T|set_solver|done..].
Qed.

(** A write to the sector of the directory entry is not seen in the file. *)
Lemma rep_dir_block M fd f cs s a buf :
  file_rep M fd f cs s a -> block_ok buf ->
  file_rep M fd f cs (with_block (dir_sector (fat_pinfo s) f) buf s) a.
Proof.
  intros [H Op C St Cu Po Si Ra Mx In Da Sp Di] Hb. pose proof (h_vol _ H) as V.
  destruct (dir_address s cs f V Di) as [_ Hd].
  split; try done.
  - by apply healthy_block.
  - by apply clusters_data.
  - intros i Hi. rewrite Da by done. unfold file_byte. cbn [with_block blocks fat_pinfo].
    rewrite put_block_ne; [done|]. intros E. by apply (dir_not_file s cs f (i / 512)); [done..|by apply In|].
  - by apply space_data.
  - destruct Di as [D U O Se Ix]. split; try done. rewrite table_data; [done..|]. destruct D as [[? _] _]. lia.
Qed.

(** The file after the loop. *)
Lemma rep_wrote M fd f cs s a buf cs' c s' :
  file_rep M fd f cs s a -> a_pos a + Z.of_nat (length buf) <= M ->
  wrote (fat_pinfo s) cs (a_pos a) buf s cs' s' ->
  (cs ++ cs') !! Z.to_nat ((a_pos a + Z.of_nat (length buf)) / bpc s) = Some c ->
  let f' := move_file f (a_pos a + Z.of_nat (length buf)) c (Z.max (f_size f) (a_pos a + Z.of_nat (length buf))) in
  file_rep M fd f' (cs ++ cs') (put_file fd f' s') (snd (a_step (Write buf) a)).
Proof.
  intros [H Op C St Cu Po Si Ra Mx In Da Sp Di] HM W Hc f'. pose proof W as [H' P' F' I' C' S' O' In' B' R' _].
  pose proof (splice_length (a_pos a) buf (a_data a) Ra) as Ls. pose proof (h_vol _ H) as V.
  assert (Eb : bpc s' = bpc s) by (unfold bpc; by rewrite P').
  split; cbn [a_step snd a_data a_pos]; rewrite ?Ls; try lia.
  - by apply healthy_put.
  - apply (open_put fd f); [by rewrite (open_file_ext fd s s')|by eapply (open_not_free fd f s)].
  - by apply clusters_put.
  - cbn [f' move_file f_start_cluster]. by apply lookup_app_l_Some.
  - change (bpc (put_file fd f' s')) with (bpc s'). by rewrite Eb.
  - done.
  - cbn [f' move_file f_size]. by rewrite Si.
  - intros i Hi. change (fat_pinfo (put_file fd f' s')) with (fat_pinfo s'). rewrite P'.
    destruct (Z.lt_ge_cases i (Z.of_nat (length (a_data a)))); [|apply In'; lia].
    apply in_file_app; [done|]. apply In. lia.
  - intros i Hi. change (fat_pinfo (put_file fd f' s')) with (fat_pinfo s'). rewrite P', arr_splice by lia.
    change (blocks (put_file fd f' s')) with (blocks s').
    destruct (Z.leb_spec (a_pos a) i); destruct (Z.ltb_spec i (a_pos a + Z.of_nat (length buf))); cbn [andb];
      [by rewrite B' by lia|..]; rewrite R' by (try apply In; lia); apply Da; lia.
  - change (bpc (put_file fd f' s')) with (bpc s'). rewrite Eb. apply (S' _ Sp).
  - by apply dir_put, dir_move, (dir_wrote _ _ _ _ _ _ _ _ eq_refl Di W).
Qed.

Lemma fat_write_spec M fd f cs s a buf :
  file_rep M fd f cs s a -> op_ok (bpc s) M (Write buf) a = true ->
  exists s' f' cs', fat_write fd buf s = (Z.of_nat (length buf), s') /\
    file_rep M fd f' (cs ++ cs') s' (snd (a_step (Write buf) a)) /\ fat_pinfo s' = fat_pinfo s /\
    exists s1, wrote (fat_pinfo s) cs (a_pos a) buf s cs' s1 /\
      forall x, x <> dir_sector (fat_pinfo s) f -> blocks s' x = blocks s1 x.
Proof.
  intros R Ok. pose proof R as [H Op C St Cu Po Si Ra Mx In Da Sp Di]. pose proof (h_vol _ H) as V. pose proof (vol_spc _ V) as Hspc.
  cbn [op_ok] in Ok. apply andb_true_iff in Ok as [HM%Z.leb_le Fb].
  assert (Fb' : Forall (fun b => 0 <= b < 256) buf).
  { apply Forall_forall. intros x Hx. rewrite forallb_forall in Fb. apply list_elem_of_In in Hx. specialize (Fb x Hx). lia. }
  unfold fat_write. rewrite Op. cbn zeta. rewrite Po, (vol_bps _ V).
  set (b := a_pos a / 512). set (o := a_pos a mod 512). assert (Eq : a_pos a = 512 * b + o) by (unfold b, o; zdm).
  destruct (write_loop_spec (fat_pinfo s) (S (length buf)) buf b o (f_current_cluster f) 0 cs (set_errno OK s))
    as (cs' & c & s1 & E & W & Ec); rewrite <- ?Eq in *;
    [by apply healthy_errno|done|by destruct C|apply Z.div_pos; lia|apply Z.mod_pos_bound; lia|lia|done| | |].
  { unfold b. rewrite Z.div_div by lia. exact Cu. }
  { eapply (space_le (set_errno OK s)); [exact Sp|]. unfold bpc.
    assert ((a_pos a + Z.of_nat (length buf)) / (512 * sectors_per_cluster (fat_pinfo s)) <= M / (512 * sectors_per_cluster (fat_pinfo s)))
      by (apply Z.div_le_mono; lia). lia. }
  rewrite E, Z.add_0_l, u32_small by lia.
  assert (W' : wrote (fat_pinfo s) cs (a_pos a) buf s cs' s1) by (by destruct W).
  pose proof (rep_wrote M fd f cs s a buf cs' c s1 R HM W' Ec) as R1. cbn zeta in R1. set (f' := move_file _ _ _ _) in R1.
  pose proof (wr_pinfo _ _ _ _ _ _ _ W') as P1.
  destruct (update_size_spec (cs ++ cs') f (a_pos a + Z.of_nat (length buf)) s1) as (s2 & E2 & S2);
    [apply W'|by apply (dir_wrote (fat_pinfo s) cs (a_pos a) buf s)|].
  rewrite E2. fold f'. exists (put_file fd f' s2), f', cs'. split; [done|].
  destruct S2 as [->|(blk & Hb & ->)].
  - split; [done|]. split; [by rewrite <- P1|]. by exists s1.
  - split; [by apply (rep_dir_block M fd f' (cs ++ cs') (put_file fd f' s1))|]. split; [by rewrite <- P1|]. exists s1. split; [done|].
    intros x Hx. cbn. apply put_block_ne. by rewrite P1.
Qed.

(** ** The refinement *)

Lemma rep_errno M fd f cs s a e : file_rep M fd f cs s a -> file_rep M fd f cs (set_errno e s) a.
Proof. intros [H Op C St Cu Po Si Ra Mx In Da Sp Di]. split; try done; [by apply healthy_errno|by destruct C|by destruct Di]. Qed.

Lemma div_pred q n : 512 <= n <= 130560 -> q mod n <> 0 -> (q - 1) / n = q / n.
Proof.
  intros Hn Hq. pose proof (Z.div_mod q n ltac:(lia)). pose proof (Z.mod_pos_bound q n ltac:(lia)).
  symmetry. apply (Z.div_unique _ _ _ (q mod n - 1)); lia.
Qed.

Lemma refine_step M fd f cs s a o :
  file_rep M fd f cs s a -> op_ok (bpc s) M o a = true ->
  exists s' f' cs', c_step fd o s = (fst (a_step o a), s') /\ file_rep M fd f' (cs ++ cs') s' (snd (a_step o a)) /\
    bpc s' = bpc s.
Proof.
  intros R Ok. destruct o as [buf|n|w off]; cbn [c_step].
  - destruct (fat_write_spec M fd f cs s a buf R Ok) as (s' & f' & cs' & E & R' & P & _).
    rewrite E. exists s', f', cs'. split; [done|]. split; [done|]. unfold bpc. by rewrite P.
  - cbn [op_ok] in Ok. apply andb_true_iff in Ok as [[N1%Z.leb_le N2%Z.leb_le]%andb_true_iff Ok].
    destruct (fat_read_spec M fd f cs s a n R) as (c & E & Ec & Hq); [lia|]. rewrite E.
    eexists _, _, []. rewrite app_nil_r. split; [done|]. split; [|done]. apply rep_move; [done| |].
    + pose proof (r_range _ _ _ _ _ _ R). cbn. lia.
    + cbn [a_step snd a_pos a_data] in *. set (q := a_pos a + _) in *.
      enough (Z.max (a_pos a) (q - 1) / bpc s = q / bpc s) as <- by done. assert (a_pos a <= q) by lia.
      destruct (Z.eqb_spec q (a_pos a)) as [Eq|]; [f_equal; lia|]. cbn [orb] in Ok.
      apply negb_true_iff, Z.eqb_neq in Ok. rewrite Z.max_r by lia.
      apply div_pred; [|done]. by pose proof (bpc_pos s (r_healthy _ _ _ _ _ _ R)).
  - destruct (fat_lseek_spec M fd f cs s a w off R Ok) as [[E ->]|(c & E & -> & Hq & Ec)]; rewrite E.
    + eexists _, f, []. rewrite app_nil_r. split; [done|]. split; [by apply rep_errno|done].
    + eexists _, _, []. rewrite app_nil_r. split; [done|]. split; [by apply rep_errno, rep_move|done].
Qed.

(** ** Other files *)

(** The table depends on its own sectors only. *)
Lemma table_same s s' d x :
  vol_ok (fat_pinfo s) -> fat_pinfo s' = fat_pinfo s -> cluster_begin_addr (fat_pinfo s) <= d ->
  (forall a, a <> d -> blocks s' a = blocks s a) -> 0 <= x < fat_entries (fat_pinfo s) -> ftable s' x = ftable s x.
Proof.
  intros V P Hd B Hx. unfold ftable, table, fat_entries in *. rewrite P. pose proof (vol_fat _ V).
  rewrite B; [done|]. zdm.
Qed.

(** The blocks of files without common clusters are different. *)
Lemma file_block_disjoint p cs ds b b' :
  vol_ok p -> (forall x, x ∈ ds -> ~ (x ∈ cs)) -> in_file p ds b -> in_file p cs b' ->
  file_block p ds b <> file_block p cs b'.
Proof.
  intros V Dj Hb Hb'. destruct (in_file_cluster p ds b V Hb) as (c & Ec & _). pose proof (vol_spc _ V).
  unfold file_block at 1. rewrite Ec. apply file_block_other; [done|done| |apply Z.mod_pos_bound; lia].
  by apply Dj, list_elem_of_lookup_2 with (Z.to_nat (b / sectors_per_cluster p)).
Qed.

(** ** What programs can rely on *)

(** The steps of a run, one behind the other. *)
Lemma c_run_refines M fd ops : forall f cs s a,
  file_rep M fd f cs s a -> ops_ok (bpc s) M ops a = true ->
  exists s' f' cs', c_run fd ops s = (fst (a_run ops a), s') /\
    file_rep M fd f' (cs ++ cs') s' (snd (a_run ops a)).
Proof.
  induction ops as [|o ops IH]; intros f cs s a R Ok; [exists s, f, []; by rewrite app_nil_r|].
  cbn [ops_ok] in Ok. apply andb_true_iff in Ok as [O1 O2].
  destruct (refine_step M fd f cs s a o R O1) as (s1 & f1 & cs1 & E1 & R1 & B1). rewrite <- B1 in O2.
  destruct (IH f1 (cs ++ cs1) s1 _ R1 O2) as (s2 & f2 & cs2 & E2 & R2).
  exists s2, f2, (cs1 ++ cs2). cbn [c_run a_run]. rewrite E1, E2, app_assoc. destruct (a_step o a) as [r a1]. cbn [fst snd] in *.
  by destruct (a_run ops a1).
Qed.

(** Claim C11. An open file on a healthy volume is a sequence of bytes with a position ([file_rep]: all
    blocks can be read and written, and there are enough free clusters for the file to grow to [M]
    bytes). Any sequence of calls to [fat_read], [fat_write] and [fat_lseek] in which no file gets
    longer than [M], no read ends between two clusters and no seek goes to the end of a file that
    fills its last cluster ([ops_ok]) returns what it returns on the abstract file: reads give the
    bytes at the position, up to the end; writes replace them and extend the file, through as many
    new clusters as needed; seeks move the position, or fail outside of the file. In particular
    what is written is read back. In the two cases that are excluded the driver does otherwise
    ([fat_read_stale_cursor], [fat_lseek_full_cluster]). *)
Theorem fat_refines_bytes M fd ops : forall f cs s a,
  file_rep M fd f cs s a -> ops_ok (bpc s) M ops a = true ->
  exists s' f' cs', c_run fd ops s = (fst (a_run ops a), s') /\
    file_rep M fd f' (cs ++ cs') s' (snd (a_run ops a)).
Proof. exact (c_run_refines M fd ops). Qed.

(** Claim C12. A write changes no other file: a file whose clusters are not part of the written
    one, nor hold its directory entry, keeps its chain and all its bytes. *)
Theorem fat_write_keeps_others M fd f cs s a buf ds :
  file_rep M fd f cs s a -> op_ok (bpc s) M (Write buf) a = true ->
  clusters_ok s ds -> (forall x, x ∈ ds -> ~ (x ∈ cs)) -> ~ (di_cluster (f_dir_idx f) ∈ ds) ->
  let s' := snd (fat_write fd buf s) in
  clusters_ok s' ds /\ fat_pinfo s' = fat_pinfo s /\
  forall i, in_file (fat_pinfo s) ds (i / 512) ->
    file_byte (fat_pinfo s) (blocks s') ds i = file_byte (fat_pinfo s) (blocks s) ds i.
Proof.
  intros R Ok [Ch Nd Dd] Dj Nf. destruct (fat_write_spec M fd f cs s a buf R Ok) as (s' & f' & cs' & E & _ & P & s1 & W & B).
  rewrite E. cbn [snd]. pose proof R as [H _ _ _ _ _ _ _ _ _ _ _ Di]. pose proof (h_vol _ H) as V. pose proof (vol_fat _ V).
  pose proof (wr_pinfo _ _ _ _ _ _ _ W) as P1. destruct (dir_address s cs f V Di) as [_ Hd].
  assert (Val : forall x, x ∈ ds -> 2 <= x < fat_entries (fat_pinfo s)).
  { intros x Hx. rewrite Forall_forall in Dd. by destruct (Dd x Hx) as [[? _] _]. }
  assert (O : forall x, x ∈ ds -> ~ (x ∈ cs ++ cs') /\ ftable s1 x = ftable s x).
  { intros x Hx. destruct (wr_others _ _ _ _ _ _ _ W x) as [N T]; [specialize (Val x Hx); lia| |by apply Dj|].
    - apply (chain_nonzero _ ds); [done| |done]. apply Forall_forall. intros y Hy. by apply Val.
    - split; [|done]. rewrite elem_of_app. intros [|]; [by apply (Dj x)|done]. }
  split; [|split; [done|]].
  - split; [|done|by rewrite P]. apply (chain_ext (ftable s)); [|done]. intros x Hx. specialize (Val x Hx).
    rewrite (table_same s1 s' (dir_sector (fat_pinfo s) f)); rewrite ?P1; [by apply O|done..|lia].
  - intros i Hi. unfold file_byte. f_equal. destruct (in_file_cluster _ _ _ V Hi) as (x & Ex & _).
    destruct (loop_sector s ds (i / 512) x H ltac:(by split) ltac:(unfold in_file in Hi; lia) Ex) as [_ G].
    rewrite B; [apply (wr_frame _ _ _ _ _ _ _ W); [lia|]|].
    + intros b Hb. apply file_block_disjoint; [done| |done..]. intros y Hy. by apply O.
    + intros Eq. symmetry in Eq. revert Eq. apply file_block_other; [done..|apply Di].
Qed.

(** ** The files of the volume *)

Definition demo_file : afile := AFile (take 600 (demo_block 1 ++ demo_block 3)) 0.

Definition demo_f : FatFile := File false 0 (DirIdx 2 0 0) 3 3 600.

Definition demo_ops : list op :=
  [Seek SEEK_END 0; Write (replicate 500 9); Seek SEEK_SET (-1); Seek SEEK_SET 598; Read 4].

(** The bytes of the file, one by one. *)
Lemma demo_data i : 0 <= i < 600 -> arr (a_data demo_file) i = file_byte demo_pinfo (blocks demo_fs) [3; 5] i.
Proof.
  intros Hi.
  assert (F : forallb (fun n => arr (a_data demo_file) (Z.of_nat n) =?
    file_byte demo_pinfo (blocks demo_fs) [3; 5] (Z.of_nat n)) (seq 0 600) = true) by (vm_compute; reflexivity).
  rewrite forallb_forall in F. specialize (F (Z.to_nat i)). rewrite Z2Nat.id in F by lia.
  apply Z.eqb_eq, F, in_seq. lia.
Qed.

Lemma demo_space : space demo_fs 2.
Proof.
  split.
  - exists [6; 7]. split; [by apply (bool_decide_unpack _)|]. split; [simpl; lia|].
    repeat constructor; try (cbn; lia); vm_compute; reflexivity.
  - intros x [Hx Tx]. assert (x <> 1) by (intros ->; vm_compute in Tx; discriminate Tx).
    unfold data_cluster, valid_cluster. change (fat_entries (fat_pinfo demo_fs)) with 128 in *.
    change (cluster_begin_addr (fat_pinfo demo_fs)) with 2. change (sectors_per_cluster (fat_pinfo demo_fs)) with 1. lia.
Qed.

Lemma demo_clusters : Forall (data_cluster demo_pinfo) [3; 5].
Proof. repeat apply Forall_cons_2; [..|by apply Forall_nil_2]; repeat split; by vm_compute. Qed.

Lemma demo_rep : file_rep 2000 3 demo_f [3; 5] demo_fs demo_file.
Proof.
  destruct demo_chain as (Ch & Nd & _).
  assert (C : clusters_ok demo_fs [3; 5]) by (split; [done|done|apply demo_clusters]).
  assert (L : Z.of_nat (length (a_data demo_file)) = 600) by (vm_compute; reflexivity).
  split; rewrite ?L; try done; try (cbn; lia); [apply demo_healthy| |apply demo_data|apply demo_space|].
  - intros i Hi. unfold in_file. cbn. zdm.
  - split; try (cbn; lia); try (repeat split; cbn; lia).
    + vm_compute. discriminate.
    + cbn. set_solver.
Qed.

Lemma fat_refines_bytes_witness :
  exists s', c_run 3 demo_ops demo_fs =
    ([Count 600; Count 500; Count (-1); Count 598; Bytes (Some [2; 5; 9; 9])], s').
Proof.
  destruct (fat_refines_bytes 2000 3 demo_ops demo_f [3; 5] demo_fs demo_file demo_rep ltac:(vm_compute; reflexivity))
    as (s' & f' & cs' & E & _).
  exists s'. rewrite E. apply (f_equal (fun r => (r, s'))). vm_compute. reflexivity.
Defined.

Lemma fat_write_keeps_others_witness :
  file_byte demo_pinfo (blocks (snd (fat_write 3 (replicate 1000 9) demo_fs))) [4] 100 = 0.
Proof.
  assert (C : clusters_ok demo_fs [4]).
  { split; [vm_compute; reflexivity|by apply (bool_decide_unpack _)|]. apply Forall_singleton. repeat split; by vm_compute. }
  destruct (fat_write_keeps_others 2000 3 demo_f [3; 5] demo_fs demo_file (replicate 1000 9) [4] demo_rep)
    as (_ & _ & T); [vm_compute; reflexivity|exact C|set_solver|cbn; set_solver|].
  change demo_pinfo with (fat_pinfo demo_fs). rewrite T; [vm_compute; reflexivity|]. vm_compute. split; [discriminate|reflexivity].
Defined.

(** A read that ends between two clusters leaves the cursor at the first of them: the next read
    returns bytes of this cluster again, and not those that follow in the file. *)
Theorem fat_read_stale_cursor :
  let s := snd (fat_read 3 512 demo_fs) in
  fst (fat_read 3 4 s) = Some [0; 1; 2; 3] /\
  file_bytes demo_pinfo (blocks demo_fs) [3; 5] 512 4 = [0; 3; 6; 9].
Proof. split; vm_compute; reflexivity. Qed.

(** A seek to the end of a file that fills its clusters fails, and does not set [errno]. *)
Theorem fat_lseek_full_cluster :
  let s := put_file 3 (move_file demo_f 0 3 1024) demo_fs in
  fst (fat_lseek 3 0 SEEK_END s) = -1 /\ errno (snd (fat_lseek 3 0 SEEK_END s)) = OK.
Proof. split; vm_compute; reflexivity. Qed.
