(* ===== verification/FatDir.v ===== *)
(** * The FAT32 driver: directories

    src/c/libsd/fat32.c, the search for a path: the names of directory entries, short ones and
    chains of long ones, their comparison with a part of a path, and [fat_resolve_path].

    A directory is the list of the names in its clusters, one behind the other. What is proved:
    the search, which runs over sectors and moves its index and its buffer forward whenever it
    collects a long name, finds the first entry of this list that matches, and follows a
    path through directories. *)

From stdpp Require Import base list numbers sets.
From Stdlib Require Import ZArith Lia.
From S2P Require Import Prelude Fat FatFile FatSpec.

Local Open Scope Z_scope.
Local Open Scope c_scope.

(** ** Names *)

Definition FAT_DIR_ENTRY_FREE : Z := 0xE5.
Definition FAT_DIR_ENTRY_LAST : Z := 0x00.
Definition FAT_LAST_LONG : Z := 0x40.
Definition FAT_DIRECTORY : Z := 0x10.
Definition FAT_LONG_NAME_ENTRY : Z := 0x0F.

(** The end of a part of a path: NUL, a backslash, a slash or a blank. *)
Definition is_delim (c : Z) : bool := (c =? 0) || (c =? 92) || (c =? 47) || (c =? 32).

(** [fat_idx_of_next_path_delim]; a string is the list of its characters, behind which [arr]
    reads 0. *)
Fixpoint next_delim (fuel : nat) (path : list Z) (next : Z) : Z :=
  match fuel with
  | O => next
  | S fuel => if is_delim (u8 (arr path next)) then next else next_delim fuel path (next + 1)
  end.

Definition fat_idx_of_next_path_delim (path : list Z) (start : Z) : Z :=
  next_delim (S (length path)) path start.

Definition fat_get_string (buf : list Z) (o sz : Z) : list Z :=
  take (Z.to_nat sz) (drop (Z.to_nat o) buf).

Definition fat_attrib_of_dir_entry (sector : list Z) (entry_idx : Z) : Z :=
  arr sector (entry_idx * FAT_DIR_ENTRY_WIDTH + 11).

(** The state of a search: the buffer with a sector, the index of the current entry, and the array
    [long_name16], in which an index out of range has a cell of its own. *)
Record search := Search { se_buf : list Z; se_idx : FatDirEntryIdx; se_name : Z -> Z }.

Definition set_index (idx : FatDirEntryIdx) (i : Z) : FatDirEntryIdx := DirIdx (di_cluster idx) (di_sector idx) i.

Definition next_sector (idx : FatDirEntryIdx) : FatDirEntryIdx := DirIdx (di_cluster idx) (di_sector idx + 1) 0.

(** The offsets of the thirteen characters in a long entry. *)
Definition long_offsets : list Z := [1; 3; 5; 7; 9; 14; 16; 18; 20; 22; 24; 28; 30].

(** The three loops that collect the characters of an entry. *)
Fixpoint collect (offs : list Z) (buf : list Z) (edx p : Z) (name : Z -> Z) : Z -> Z :=
  match offs with
  | [] => name
  | o :: offs =>
      collect offs buf edx (u32 (p + 1)) (fun i => if i =? p then arr buf (edx + o) else name i)
  end.

(** The loop of [fat_get_long_name_uint16] over the entries of a chain, which goes on in the next
    sector of the cluster when it reaches the end of a sector; [None] for failure. The fuel
    bounds the number of entries and sectors. *)
Fixpoint long_loop (fuel : nat) (pmax pmin : Z) (se : search) (s : fs) : option search * search * fs :=
  let p := fat_pinfo s in
  let eps := bytes_per_sector p / 32 in
  let sec_start := fat_first_sector_of_cluster p (di_cluster (se_idx se)) in
  let advance (k : search -> fs -> option search * search * fs) se s :=
    if sectors_per_cluster p - 1 <=? di_sector (se_idx se) then (None, se, s)
    else
      let idx := next_sector (se_idx se) in
      match fat_read_single_block (u32 (sec_start + di_sector idx)) s with
      | (None, s) => (None, Search (se_buf se) idx (se_name se), s)
      | (Some buf, s) => k (Search buf idx (se_name se)) s
      end in
  match fuel with
  | O => (None, se, s)
  | S fuel =>
      if di_index (se_idx se) <? eps then
        let buf := se_buf se in
        let edx := di_index (se_idx se) * FAT_DIR_ENTRY_WIDTH in
        if negb (arr buf (edx + 11) =? FAT_LONG_NAME_ENTRY) then (None, se, s)
        else
          let pmin := u32 (pmin - 13) in
          let name := collect long_offsets buf edx pmin (se_name se) in
          let idx := set_index (se_idx se) (di_index (se_idx se) + 1) in
          let order := if negb (arr buf edx .& FAT_LAST_LONG =? 0) then arr buf edx .^ FAT_LAST_LONG else arr buf edx in
          if order =? 1 then
            let se := Search buf idx (fun i => if i =? umin 255 pmax then 0 else name i) in
            if di_index idx <? eps then (Some se, se, s)
            else advance (fun se s => (Some se, se, s)) se s
          else long_loop fuel pmax pmin (Search buf idx name) s
      else advance (long_loop fuel pmax pmin) se s
  end.

(** The fuel: a chain has at most 255 entries in front of the end of its cluster. *)
Definition fat_get_long_name_uint16 (se : search) (s : fs) : bool * search * fs :=
  let edx := di_index (se_idx se) * FAT_DIR_ENTRY_WIDTH in
  let first := arr (se_buf se) edx in
  if (first =? 0xE5) || (first =? 0) then (false, se, s)
  else if negb (fat_attrib_of_dir_entry (se_buf se) (di_index (se_idx se)) =? FAT_LONG_NAME_ENTRY) ||
          (first .& FAT_LAST_LONG =? 0) then (false, se, s)
  else
    let pmax := (first .^ FAT_LAST_LONG) * 13 in
    match long_loop (Z.to_nat (17 * sectors_per_cluster (fat_pinfo s))) pmax pmax se s with
    | (Some _, se, s) => (true, se, s)
    | (None, se, s) => (false, se, s)
    end.

(** The characters of a short name that are not blank, up to the first blank. *)
Fixpoint until_blank (l : list Z) : list Z :=
  match l with
  | [] => []
  | c :: l => if c =? 0x20 then [] else c :: until_blank l
  end.

Definition short_name (buf : list Z) (edx : Z) : list Z :=
  let sn := fat_get_string buf edx 11 in
  until_blank (take 8 sn) ++
  (if negb (arr sn 8 =? 0x20) then 46 :: until_blank (drop 8 sn) else []).

(** [fat_get_long_name_uint8]: the string in [long_name8], or [None] for failure. *)
Definition fat_get_long_name_uint8 (se : search) (s : fs) : option (list Z) * search * fs :=
  let edx := di_index (se_idx se) * FAT_DIR_ENTRY_WIDTH in
  let first := arr (se_buf se) edx in
  if (first =? 0xE5) || (first =? 0) then (None, se, s)
  else
    let attrib := fat_attrib_of_dir_entry (se_buf se) (di_index (se_idx se)) in
    if (attrib =? FAT_LONG_NAME_ENTRY) && negb (first .& FAT_LAST_LONG =? 0) then
      match fat_get_long_name_uint16 se s with
      | (false, se, s) => (None, se, s)
      | (true, se, s) => (Some (map (fun i => u8 (se_name se (Z.of_nat i))) (seq 0 256)), se, s)
      end
    else (Some (short_name (se_buf se) edx), se, s).

(** [toupper] of the C library, for the ASCII letters. *)
Definition toupper (c : Z) : Z := if (97 <=? c) && (c <=? 122) then c - 32 else c.

Fixpoint same_chars (n : nat) (name path : list Z) (pmin k : Z) : bool :=
  match n with
  | O => true
  | S n => if negb (toupper (arr name k) =? toupper (arr path (pmin + k))) then false
           else same_chars n name path pmin (k + 1)
  end.

Definition name_matches (name path : list Z) (pmin pmax : Z) : bool :=
  let entry_len := fat_idx_of_next_path_delim name 0 in
  if negb (entry_len =? pmax - pmin) then false
  else same_chars (Z.to_nat entry_len) name path pmin 0.

Definition fat_compare_entry_name (path : list Z) (pmin pmax : Z) (se : search) (s : fs) : bool * search * fs :=
  match fat_get_long_name_uint8 se s with
  | (None, se, s) => (false, se, s)
  | (Some long_name8, se, s) => (name_matches long_name8 path pmin pmax, se, s)
  end.

(** ** The search *)

(** The loop over the entries of a sector. *)
Fixpoint scan_entries (fuel : nat) (path : list Z) (pmin pmax : Z) (se : search) (s : fs) : bool * search * fs :=
  match fuel with
  | O => (false, se, s)
  | S fuel =>
      if di_index (se_idx se) <? bytes_per_sector (fat_pinfo s) / FAT_DIR_ENTRY_WIDTH then
        match fat_compare_entry_name path pmin pmax se s with
        | (true, se, s) => (true, se, s)
        | (false, se, s) =>
            scan_entries fuel path pmin pmax
              (Search (se_buf se) (set_index (se_idx se) (di_index (se_idx se) + 1)) (se_name se)) s
        end
      else (false, se, s)
  end.

(** The loop over the sectors of a cluster; a sector that cannot be read leaves the buffer as it
    is. *)
Fixpoint scan_sectors (fuel : nat) (path : list Z) (pmin pmax : Z) (se : search) (s : fs) : bool * search * fs :=
  match fuel with
  | O => (false, se, s)
  | S fuel =>
      let p := fat_pinfo s in
      let idx := se_idx se in
      if di_sector idx <? sectors_per_cluster p then
        let '(buf, s) := fat_read_single_block
          (u32 (fat_first_sector_of_cluster p (di_cluster idx) + di_sector idx)) s in
        let se := Search (default (se_buf se) buf) (set_index idx 0) (se_name se) in
        match scan_entries (Z.to_nat (17 * sectors_per_cluster p)) path pmin pmax se s with
        | (true, se, s) => (true, se, s)
        | (false, se, s) => scan_sectors fuel path pmin pmax (Search (se_buf se) (next_sector (se_idx se)) (se_name se)) s
        end
      else (false, se, s)
  end.

(** [fat_resolve_path], from a part of the path and a cluster of a directory on; [fuel] bounds the
    number of clusters that are searched. The index of the entry, or [None] for failure; and the
    buffer with its sector. *)
Fixpoint resolve_loop (fuel : nat) (path : list Z) (pmin : Z) (cluster : Z) (se : search) (s : fs) :
    option FatDirEntryIdx * search * fs :=
  match fuel with
  | O => (None, se, s)
  | S fuel =>
      let pmax := fat_idx_of_next_path_delim path pmin in
      let se := Search (se_buf se) (DirIdx cluster 0 (di_index (se_idx se))) (se_name se) in
      match scan_sectors (S (Z.to_nat (sectors_per_cluster (fat_pinfo s)))) path pmin pmax se s with
      | (false, se, s) =>
          match fat_get_table_value cluster s with
          | (None, s) => (None, se, set_errno ENOENT s)
          | (Some tv, s) =>
              if FAT_TV_LAST tv then (None, se, set_errno ENOENT s)
              else if FAT_TV_BAD tv then (None, se, set_errno ENOENT s)
              else resolve_loop fuel path pmin tv se s
          end
      | (true, se, s) =>
          let isdir := FAT_DIRECTORY .& fat_attrib_of_dir_entry (se_buf se) (di_index (se_idx se)) in
          if negb (arr path pmax =? 0) then
            if isdir =? 0 then (None, se, set_errno ENOTDIR s)
            else resolve_loop fuel path (pmax + 1) (fat_cluster_of_dir_entry (se_buf se) (di_index (se_idx se))) se s
          else (Some (se_idx se), se, set_errno OK s)
      end
  end.

Definition fat_resolve_path (fuel : nat) (path : list Z) (se : search) (s : fs) :
    option FatDirEntryIdx * search * fs :=
  resolve_loop fuel path 0 (root_dir_cluster (fat_pinfo s)) se s.

(** ** Directories as lists *)

(** The address of the first sector of a cluster, and byte [j] of entry [e] of a cluster. *)
Definition cstart (p : FatPartitionInfo) (c : Z) : Z := cluster_begin_addr p + (c - 2) * sectors_per_cluster p.

Definition ebyte (p : FatPartitionInfo) (m : Z -> list Z) (c e j : Z) : Z :=
  arr (m (cstart p c + e / 16)) (e mod 16 * 32 + j).

(** The number of entries of a cluster. *)
Definition cluster_entries (p : FatPartitionInfo) : Z := 16 * sectors_per_cluster p.

(** The characters of a chain of [n] long entries from [e] on; the last entry of the chain has the
    first characters. *)
Definition long_chars (p : FatPartitionInfo) (m : Z -> list Z) (c e n : Z) : list Z :=
  map (fun j => ebyte p m c (e + n - 1 - Z.of_nat j / 13) (arr long_offsets (Z.of_nat j mod 13)))
    (seq 0 (Z.to_nat (13 * n))).

(** The name at entry [e], which may be the first of a chain of long entries, and its short
    entry; [None] if the entry is free. *)
Definition entry_group (p : FatPartitionInfo) (m : Z -> list Z) (c e : Z) : option (list Z * Z) :=
  let first := ebyte p m c e 0 in
  if (first =? 0xE5) || (first =? 0) then None
  else if (ebyte p m c e 11 =? 0x0F) && negb (first .& 0x40 =? 0) then
    let n := first .^ 0x40 in Some (long_chars p m c e n, e + n)
  else Some (short_name (m (cstart p c + e / 16)) (e mod 16 * 32), e).

(** The names in a cluster from entry [e] on. *)
Fixpoint listing (fuel : nat) (p : FatPartitionInfo) (m : Z -> list Z) (c e : Z) : list (list Z * Z) :=
  match fuel with
  | O => []
  | S fuel =>
      if cluster_entries p <=? e then []
      else match entry_group p m c e with
           | None => listing fuel p m c (e + 1)
           | Some (name, e') => (name, e') :: listing fuel p m c (e' + 1)
           end
  end.

Definition cluster_listing (p : FatPartitionInfo) (m : Z -> list Z) (c e : Z) : list (list Z * Z) :=
  listing (Z.to_nat (cluster_entries p - e)) p m c e.

(** The first name that matches a part of a path. *)
Fixpoint find_name (path : list Z) (pmin pmax : Z) (l : list (list Z * Z)) : option Z :=
  match l with
  | [] => None
  | (name, e) :: l => if name_matches name path pmin pmax then Some e else find_name path pmin pmax l
  end.

(** A chain of long entries: its numbers go down to 1, and its short entry is in the same
    cluster. *)
Record long_chain (p : FatPartitionInfo) (m : Z -> list Z) (c e n : Z) : Prop := {
  lc_length : 1 <= n <= 19;
  lc_first : ebyte p m c e 0 = 0x40 + n;
  lc_short : e + n < cluster_entries p;
  lc_attr : forall i, 0 <= i < n -> ebyte p m c (e + i) 11 = 0x0F;
  lc_order : forall i, 1 <= i < n -> ebyte p m c (e + i) 0 = n - i
}.

(** All chains of a cluster are well formed. *)
Definition cluster_ok (p : FatPartitionInfo) (m : Z -> list Z) (c : Z) : Prop :=
  forall e, 0 <= e < cluster_entries p -> ebyte p m c e 11 = 0x0F -> ebyte p m c e 0 .& 0x40 <> 0 ->
    ebyte p m c e 0 <> 0xE5 -> long_chain p m c e (ebyte p m c e 0 .^ 0x40).

(** ** Collecting a long name *)

Lemma collect_spec buf edx j offs : forall p name, 0 <= p -> p + Z.of_nat (length offs) < 4294967296 ->
  collect offs buf edx p name j =
    if (p <=? j) && (j <? p + Z.of_nat (length offs)) then arr buf (edx + arr offs (j - p)) else name j.
Proof.
  induction offs as [|o offs IH]; intros p name Hp Hl.
  - cbn [collect length]. destruct (Z.leb_spec p j); zif; done.
  - cbn [collect]. simpl length in *. rewrite u32_small by lia. rewrite IH by lia.
    destruct (Z.eqb_spec j p) as [->|N].
    + zif. by rewrite Z.sub_diag.
    + destruct (Z.leb_spec p j); zif; [|done]. destruct (Z.ltb_spec j (p + 1 + Z.of_nat (length offs))); zif; [|done].
      do 2 f_equal. unfold arr. by replace (Z.to_nat (j - p)) with (S (Z.to_nat (j - (p + 1)))) by lia.
Qed.

(** The search is at entry [e], which may be one behind the end of the sector of the buffer. *)
Record at_entry (p : FatPartitionInfo) (m : Z -> list Z) (c e : Z) (se : search) : Prop := {
  ae_cluster : di_cluster (se_idx se) = c;
  ae_sector : 0 <= di_sector (se_idx se) < sectors_per_cluster p;
  ae_index : 0 <= di_index (se_idx se) <= 16;
  ae_pos : e = 16 * di_sector (se_idx se) + di_index (se_idx se);
  ae_buf : se_buf se = m (cstart p c + di_sector (se_idx se))
}.

Lemma at_entry_byte p m c e se j :
  at_entry p m c e se -> di_index (se_idx se) < 16 ->
  arr (se_buf se) (di_index (se_idx se) * FAT_DIR_ENTRY_WIDTH + j) = ebyte p m c e j.
Proof.
  intros [_ Hs Hi -> ->] Hlt. unfold ebyte, FAT_DIR_ENTRY_WIDTH.
  replace ((16 * di_sector (se_idx se) + di_index (se_idx se)) / 16) with (di_sector (se_idx se)) by zdm.
  by replace ((16 * di_sector (se_idx se) + di_index (se_idx se)) mod 16) with (di_index (se_idx se)) by zdm.
Qed.

(** The sectors the loops read. *)
Lemma cluster_address p c j : vol_ok p -> data_cluster p c -> 0 <= j < sectors_per_cluster p ->
  u32 (fat_first_sector_of_cluster p c + j) = cstart p c + j.
Proof.
  intros V D Hj. rewrite cluster_sector by done. unfold cstart. destruct D as [[[? _] _] ?].
  pose proof (vol_spc _ V). pose proof (vol_fat _ V). pose proof (vol_spf _ V).
  assert (0 <= (c - 2) * sectors_per_cluster p) by nia. apply u32_small. nia.
Qed.

(** The searches only read the disk. *)
Definition only_errno (s s' : fs) : Prop := s' = set_errno (errno s') s.

#[export] Instance only_errno_preorder : PreOrder only_errno.
Proof. split; [by intros []|]. intros s1 s2 s3 E1 E2. unfold only_errno in *. rewrite E1 in E2. by rewrite E2. Qed.

Lemma only_errno_set e s : only_errno s (set_errno e s).
Proof. done. Qed.

Lemma order_bits n : 1 <= n <= 19 ->
  ((64 + n) .& 0x40 =? 0) = false /\ (64 + n) .^ 0x40 = n /\ (n .& 0x40 =? 0) = true.
Proof.
  intros Hn. assert (F : forallb (fun i => let n := Z.of_nat i in
    negb ((64 + n) .& 0x40 =? 0) && ((64 + n) .^ 0x40 =? n) && (n .& 0x40 =? 0)) (seq 1 19) = true) by (vm_compute; reflexivity).
  rewrite forallb_forall in F. specialize (F (Z.to_nat n)). rewrite Z2Nat.id in F by lia. cbn zeta in F.
  specialize (F ltac:(apply in_seq; lia)). apply andb_true_iff in F as [[F1%negb_true_iff F2%Z.eqb_eq]%andb_true_iff F3]. done.
Qed.

Section scan.
Context (p : FatPartitionInfo) (m : Z -> list Z) (c : Z) (V : vol_ok p) (D : data_cluster p c).

Definition on_disk (s : fs) : Prop := healthy s /\ fat_pinfo s = p /\ blocks s = m.

Lemma on_disk_errno e s : on_disk s -> on_disk (set_errno e s).
Proof. intros (H & P & B). split; [by apply healthy_errno|done]. Qed.

Lemma on_disk_only s s' : on_disk s -> only_errno s s' -> on_disk s'.
Proof. intros O E. rewrite E. by apply on_disk_errno. Qed.

Local Abbreviation at_ := (at_entry p m c).

(** The next sector of the cluster. *)
Lemma read_sector j s : on_disk s -> 0 <= j < sectors_per_cluster p ->
  fat_read_single_block (u32 (fat_first_sector_of_cluster p c + j)) s = (Some (m (cstart p c + j)), set_errno OK s).
Proof. intros (H & P & B) Hj. rewrite cluster_address by done. by rewrite read_block, B. Qed.

Lemma at_next e se buf name :
  at_ e se -> di_index (se_idx se) = 16 -> e < cluster_entries p -> buf = m (cstart p c + (di_sector (se_idx se) + 1)) ->
  at_ e (Search buf (next_sector (se_idx se)) name) /\ di_sector (se_idx se) < sectors_per_cluster p - 1.
Proof.
  intros [Hc Hs Hi He Hb] H16 Hlt ->. unfold cluster_entries in Hlt.
  split; [split; cbn [se_idx next_sector di_cluster di_sector di_index se_buf]; try done; lia|lia].
Qed.

Lemma at_step e se name :
  at_ e se -> di_index (se_idx se) < 16 ->
  at_ (e + 1) (Search (se_buf se) (set_index (se_idx se) (di_index (se_idx se) + 1)) name).
Proof. intros [Hc Hs Hi He Hb] Hlt. split; cbn [se_idx set_index di_cluster di_sector di_index se_buf]; try done; lia. Qed.

(** The name of the first [13 * k] characters, and NUL behind all of them. *)
Definition collected (e n k : Z) (name0 name : Z -> Z) : Prop :=
  (forall j, 0 <= j < 13 * k -> name j = arr (long_chars p m c e n) j) /\ name (13 * n) = 0 /\
  forall j, 13 * k <= j -> j <> 13 * n -> name j = name0 j.

Lemma arr_long_chars e n j : 0 <= j < 13 * n ->
  arr (long_chars p m c e n) j = ebyte p m c (e + n - 1 - j / 13) (arr long_offsets (j mod 13)).
Proof.
  intros Hj. unfold long_chars, arr at 1. rewrite nth_lookup. change (map ?f ?l) with (f <$> l).
  rewrite list_lookup_fmap, lookup_seq_lt by lia. cbn. by rewrite Z2Nat.id by lia.
Qed.

(** What the loops collect from the entry with number [k]. *)
Lemma collect_entry e n k se j :
  at_ (e + n - k) se -> di_index (se_idx se) < 16 -> 1 <= k <= n -> n <= 19 -> 13 * (k - 1) <= j < 13 * k ->
  collect long_offsets (se_buf se) (di_index (se_idx se) * FAT_DIR_ENTRY_WIDTH) (13 * (k - 1)) (se_name se) j =
    arr (long_chars p m c e n) j.
Proof.
  intros A Hi Hk Hn Hj. rewrite collect_spec by (simpl; lia). change (Z.of_nat (length long_offsets)) with 13. zif.
  rewrite (at_entry_byte p m c (e + n - k)) by done. rewrite arr_long_chars by lia.
  replace (j / 13) with (k - 1) by zdm. replace (j mod 13) with (j - 13 * (k - 1)) by zdm. f_equal. lia.
Qed.

(** The number of an entry of a chain. *)
Lemma chain_order e n k : long_chain p m c e n -> 1 <= k <= n ->
  (if negb (ebyte p m c (e + n - k) 0 .& FAT_LAST_LONG =? 0) then ebyte p m c (e + n - k) 0 .^ FAT_LAST_LONG
   else ebyte p m c (e + n - k) 0) = k.
Proof.
  intros [Hn F _ _ O] Hk. unfold FAT_LAST_LONG. destruct (Z.eq_dec k n) as [->|].
  - replace (e + n - n) with e by lia. rewrite F. destruct (order_bits n Hn) as (-> & -> & _). done.
  - replace (e + n - k) with (e + (n - k)) by lia. rewrite O by lia. replace (n - (n - k)) with k by lia.
    destruct (order_bits k ltac:(lia)) as (_ & _ & ->). done.
Qed.

(** Behind the last entry of a chain: the short entry may be in the next sector. *)
Lemma long_end e n se name s :
  long_chain p m c e n -> on_disk s -> at_ (e + n - 1) se -> di_index (se_idx se) < 16 ->
  let idx := set_index (se_idx se) (di_index (se_idx se) + 1) in
  let se1 := Search (se_buf se) idx name in
  exists se' s', (if di_index idx <? 16 then (Some se1, se1, s)
    else if sectors_per_cluster p - 1 <=? di_sector (se_idx se1) then (None, se1, s)
    else match fat_read_single_block (u32 (fat_first_sector_of_cluster p c + di_sector (next_sector (se_idx se1)))) s with
         | (None, s) => (None, Search (se_buf se1) (next_sector (se_idx se1)) (se_name se1), s)
         | (Some buf, s) => (Some (Search buf (next_sector (se_idx se1)) (se_name se1)), Search buf (next_sector (se_idx se1)) (se_name se1), s)
         end) = (Some se', se', s') /\ only_errno s s' /\
    at_ (e + n) se' /\ di_index (se_idx se') < 16 /\ se_name se' = name.
Proof.
  intros LC O A Hlt idx se1. pose proof (at_step (e + n - 1) se name A Hlt) as A1. fold idx in A1.
  replace (e + n - 1 + 1) with (e + n) in A1 by lia. pose proof (ae_sector _ _ _ _ _ A).
  destruct (Z.ltb_spec (di_index idx) 16); [by exists se1, s|].
  destruct (at_next (e + n) se1 (m (cstart p c + (di_sector (se_idx se) + 1))) name A1) as [A2 Hs];
    [cbn in *; lia|apply LC|reflexivity|].
  rewrite (proj2 (Z.leb_gt _ _)) by done. cbn [se1 idx next_sector set_index se_idx di_sector di_cluster] in Hs |- *.
  rewrite read_sector by (done || lia). eexists _, _. split; [reflexivity|]. split; [apply only_errno_set|]. by split.
Qed.

Lemma long_loop_spec e n fuel : forall k se s,
  long_chain p m c e n -> on_disk s -> 1 <= k <= n -> at_ (e + n - k) se ->
  k + (sectors_per_cluster p - di_sector (se_idx se)) <= Z.of_nat fuel ->
  exists se' s', long_loop fuel (13 * n) (13 * k) se s = (Some se', se', s') /\ only_errno s s' /\
    at_ (e + n) se' /\ di_index (se_idx se') < 16 /\ collected e n k (se_name se) (se_name se').
Proof.
  induction fuel as [|fuel IH]; intros k se s LC O Hk A Hf; [destruct A; lia|].
  pose proof LC as [Hn F Sh At Or]. pose proof (ae_cluster _ _ _ _ _ A) as Ec. pose proof (ae_index _ _ _ _ _ A) as Hi.
  pose proof O as (H & P & B). cbn [long_loop]. rewrite P, (vol_bps _ V), Ec. change (512 / 32) with 16.
  destruct (Z.ltb_spec (di_index (se_idx se)) 16) as [Hlt|Hge].
  - assert (E11 : arr (se_buf se) (di_index (se_idx se) * FAT_DIR_ENTRY_WIDTH + 11) = FAT_LONG_NAME_ENTRY).
    { rewrite (at_entry_byte p m c (e + n - k)) by done. replace (e + n - k) with (e + (n - k)) by lia. apply At. lia. }
    assert (E0 : arr (se_buf se) (di_index (se_idx se) * FAT_DIR_ENTRY_WIDTH) = ebyte p m c (e + n - k) 0).
    { rewrite <- (at_entry_byte p m c (e + n - k) se) by done. by rewrite Z.add_0_r. }
    rewrite E11, E0, Z.eqb_refl, chain_order, u32_small by (done || lia). cbn [negb].
    replace (13 * k - 13) with (13 * (k - 1)) by lia.
    set (name := collect _ _ _ _ _).
    assert (Cn : forall j, 13 * (k - 1) <= j < 13 * k -> name j = arr (long_chars p m c e n) j)
      by (intros j Hj; apply collect_entry; done || lia).
    assert (Co : forall j, 13 * k <= j -> name j = se_name se j).
    { intros j Hj. unfold name. rewrite collect_spec by (simpl; lia). change (Z.of_nat (length long_offsets)) with 13. by zif. }
    pose proof (at_step (e + n - k) se name A Hlt) as A1. destruct (Z.eqb_spec k 1) as [->|].
    + replace (e + n - 1 + 1) with (e + n) in A1 by lia.
      assert (Um : umin 255 (13 * n) = 13 * n) by (unfold umin; by zif). rewrite Um.
      set (name1 := fun i => if i =? 13 * n then 0 else name i).
      assert (Cl : collected e n 1 (se_name se) name1).
      { unfold collected, name1. split; [intros j Hj; zif; apply Cn; lia|]. split; [by rewrite Z.eqb_refl|].
        intros j Hj Nj. rewrite (proj2 (Z.eqb_neq _ _)) by done. by apply Co. }
      destruct (long_end e n se name1 s LC O A Hlt) as (se' & s' & E' & Eo & A' & Hi' & En).
      exists se', s'. rewrite E'. by rewrite En.
    + replace (e + n - k + 1) with (e + n - (k - 1)) in A1 by lia.
      destruct (IH (k - 1) _ s LC O ltac:(lia) A1) as (se' & s' & E' & Eo & A' & Hi' & C1 & C2 & C3); [cbn; lia|].
      exists se', s'. rewrite E'. split; [done|]. split; [done|]. split; [done|]. split; [done|].
      cbn [se_name] in C3. split; [|split; [done|]].
      * intros j Hj. destruct (Z.lt_ge_cases j (13 * (k - 1))); [apply C1; lia|]. rewrite C3 by lia. apply Cn. lia.
      * intros j Hj Nj. rewrite C3 by lia. by apply Co.
  - destruct (at_next (e + n - k) se (m (cstart p c + (di_sector (se_idx se) + 1))) (se_name se) A ltac:(lia) ltac:(lia) eq_refl) as [A1 Hs].
    rewrite (proj2 (Z.leb_gt _ _)) by done. cbn [next_sector di_sector].
    pose proof (ae_sector _ _ _ _ _ A). rewrite read_sector by (done || lia).
    destruct (IH k _ (set_errno OK s) LC (on_disk_errno _ _ O) Hk A1) as (se' & s' & E' & Eo & R); [cbn; lia|].
    exists se', s'. rewrite E'. split; [done|]. split; [by etrans; [apply only_errno_set|exact Eo]|done].
Qed.

(** ** Comparing names *)

Lemma next_delim_ext l1 l2 L f1 : forall f2 i,
  0 <= i <= L -> (forall j, i <= j < L -> u8 (arr l1 j) = u8 (arr l2 j)) -> arr l1 L = 0 -> arr l2 L = 0 ->
  L - i < Z.of_nat f1 -> L - i < Z.of_nat f2 -> next_delim f1 l1 i = next_delim f2 l2 i /\ next_delim f1 l1 i <= L.
Proof.
  induction f1 as [|f1 IH]; intros f2 i Hi E E1 E2 L1 L2; [lia|]. destruct f2 as [|f2]; [lia|]. cbn [next_delim].
  destruct (Z.eq_dec i L) as [->|].
  - rewrite E1, E2. change (is_delim (u8 0)) with true. cbn. lia.
  - rewrite (E i) by lia. destruct (is_delim (u8 (arr l2 i))); [lia|]. apply IH; try done; try lia. intros j Hj. apply E. lia.
Qed.

Lemma same_chars_ext l1 l2 path pmin n : forall k,
  (forall j, k <= j < k + Z.of_nat n -> arr l1 j = arr l2 j) -> same_chars n l1 path pmin k = same_chars n l2 path pmin k.
Proof.
  induction n as [|n IH]; intros k E; [done|]. cbn [same_chars]. rewrite E by lia.
  rewrite (IH (k + 1)); [done|]. intros j Hj. apply E. lia.
Qed.

Lemma name_matches_ext l1 l2 L path pmin pmax :
  0 <= L <= Z.of_nat (length l1) -> L <= Z.of_nat (length l2) -> (forall j, 0 <= j < L -> arr l1 j = arr l2 j) ->
  arr l1 L = 0 -> arr l2 L = 0 -> name_matches l1 path pmin pmax = name_matches l2 path pmin pmax.
Proof.
  intros H1 H2 E E1 E2. unfold name_matches, fat_idx_of_next_path_delim.
  destruct (next_delim_ext l1 l2 L (S (length l1)) (S (length l2)) 0) as [Ed Hd];
    [lia|intros j Hj; by rewrite E by lia|done|done|lia|lia|].
  rewrite <- Ed. set (len := next_delim _ l1 0) in *. destruct (negb _); [done|].
  apply same_chars_ext. intros j Hj. apply E. lia.
Qed.

Context (CO : cluster_ok p m c) (MD : disk_ok m).

Lemma ebyte_range e j : 0 <= ebyte p m c e j < 256.
Proof. apply arr_block, MD. Qed.

(** The name in [long_name8] is the name of the chain. *)
Lemma long_name8_matches e n name0 name path pmin pmax : n <= 19 -> 1 <= n -> collected e n n name0 name ->
  name_matches (map (fun i => u8 (name (Z.of_nat i))) (seq 0 256)) path pmin pmax =
    name_matches (long_chars p m c e n) path pmin pmax.
Proof.
  intros Hn Hn1 (C1 & C2 & _).
  assert (Em : forall j, 0 <= j < 256 -> arr (map (fun i => u8 (name (Z.of_nat i))) (seq 0 256)) j = u8 (name j)).
  { intros j Hj. unfold arr. rewrite nth_lookup. change (map ?f ?l) with (f <$> l).
    rewrite list_lookup_fmap, lookup_seq_lt by lia. cbn. by rewrite Z2Nat.id by lia. }
  assert (Ll : Z.of_nat (length (long_chars p m c e n)) = 13 * n) by (unfold long_chars; rewrite length_map, length_seq; lia).
  apply (name_matches_ext _ _ (13 * n)).
  - rewrite length_map, length_seq. lia.
  - lia.
  - intros j Hj. rewrite Em, C1 by lia. apply u8_small. rewrite arr_long_chars by lia. apply ebyte_range.
  - rewrite Em, C2 by lia. done.
  - unfold arr. apply nth_overflow. lia.
Qed.

Lemma compare_spec path pmin pmax e se s :
  on_disk s -> at_ e se -> di_index (se_idx se) < 16 ->
  exists se' s', fat_compare_entry_name path pmin pmax se s =
      (match entry_group p m c e with None => false | Some (name, _) => name_matches name path pmin pmax end, se', s') /\
    only_errno s s' /\ di_index (se_idx se') < 16 /\
    at_ (match entry_group p m c e with None => e | Some (_, e') => e' end) se'.
Proof.
  intros O A Hi. pose proof (at_entry_byte p m c e se 0 A Hi) as E0. rewrite Z.add_0_r in E0.
  pose proof (at_entry_byte p m c e se 11 A Hi) as E11.
  assert (He : 0 <= e < cluster_entries p) by (destruct A; unfold cluster_entries; lia).
  unfold fat_compare_entry_name, fat_get_long_name_uint8, entry_group, fat_attrib_of_dir_entry. rewrite E0, E11.
  change FAT_LONG_NAME_ENTRY with 0x0F. change FAT_LAST_LONG with 0x40.
  destruct ((ebyte p m c e 0 =? 0xE5) || (ebyte p m c e 0 =? 0)) eqn:Ef; [by exists se, s|].
  destruct ((ebyte p m c e 11 =? 0x0F) && negb (ebyte p m c e 0 .& 0x40 =? 0)) eqn:El.
  - apply andb_true_iff in El as [Ea%Z.eqb_eq Eb%negb_true_iff]. apply orb_false_iff in Ef as [Ef1 Ef2].
    assert (LC : long_chain p m c e (ebyte p m c e 0 .^ 0x40)).
    { apply CO; [done|done|by apply Z.eqb_neq|by apply Z.eqb_neq]. }
    set (n := ebyte p m c e 0 .^ 0x40) in *. pose proof (lc_length _ _ _ _ _ LC) as Hn.
    unfold fat_get_long_name_uint16, fat_attrib_of_dir_entry. change FAT_LONG_NAME_ENTRY with 0x0F. change FAT_LAST_LONG with 0x40.
    rewrite E0, E11, Ef1, Ef2, Ea, Eb, Z.eqb_refl. cbn [orb negb]. fold n. pose proof O as (_ & P & _).
    rewrite P, (Z.mul_comm n 13).
    destruct (long_loop_spec e n (Z.to_nat (17 * sectors_per_cluster p)) n se s LC O ltac:(lia)) as (se' & s' & E' & Eo & A' & Hi' & C').
    + by replace (e + n - n) with e by lia.
    + pose proof (lc_short _ _ _ _ _ LC). unfold cluster_entries in *. destruct A. lia.
    + rewrite E'. eexists _, _. split; [|done]. rewrite (long_name8_matches e n (se_name se)) by (done || lia). done.
  - exists se, s. split; [|done]. destruct A as [Ec Hs Hx -> Hb]. rewrite Hb. unfold FAT_DIR_ENTRY_WIDTH.
    replace ((16 * di_sector (se_idx se) + di_index (se_idx se)) / 16) with (di_sector (se_idx se)) by zdm.
    by replace ((16 * di_sector (se_idx se) + di_index (se_idx se)) mod 16) with (di_index (se_idx se)) by zdm.
Qed.

(** ** The listing of a cluster *)

Lemma entry_group_next e name e' :
  0 <= e < cluster_entries p -> entry_group p m c e = Some (name, e') -> e <= e' < cluster_entries p.
Proof.
  intros He. unfold entry_group. destruct (_ || _) eqn:Ef; [done|].
  destruct (_ && _) eqn:El; [|intros [= _ <-]; lia].
  apply andb_true_iff in El as [Ea%Z.eqb_eq Eb%negb_true_iff%Z.eqb_neq].
  apply orb_false_iff in Ef as [Ef1%Z.eqb_neq Ef2]. intros [= _ <-].
  destruct (CO e He Ea Eb Ef1) as [Hn _ Hs _ _]. lia.
Qed.

Lemma entry_group_ge e name e' : entry_group p m c e = Some (name, e') -> e <= e'.
Proof.
  unfold entry_group. destruct (_ || _); [done|]. destruct (_ && _); intros [= _ <-]; [|lia].
  pose proof (ebyte_range e 0). assert (0 <= ebyte p m c e 0 .^ 64) by (apply Z.lxor_nonneg; lia). lia.
Qed.

Lemma listing_fuel f1 : forall f2 e, 0 <= e ->
  cluster_entries p - e <= Z.of_nat f1 -> cluster_entries p - e <= Z.of_nat f2 -> listing f1 p m c e = listing f2 p m c e.
Proof.
  induction f1 as [|f1 IH]; intros f2 e He L1 L2.
  - destruct f2; [done|]. cbn [listing]. by zif.
  - destruct f2 as [|f2]; [cbn [listing]; by zif|]. cbn [listing].
    destruct (Z.leb_spec (cluster_entries p) e); [done|].
    destruct (entry_group p m c e) as [[name e']|] eqn:G; [|apply IH; lia].
    apply entry_group_ge in G. f_equal. apply IH; lia.
Qed.

Lemma cluster_listing_cons e : 0 <= e < cluster_entries p ->
  cluster_listing p m c e =
    match entry_group p m c e with
    | None => cluster_listing p m c (e + 1)
    | Some (name, e') => (name, e') :: cluster_listing p m c (e' + 1)
    end.
Proof.
  intros He. unfold cluster_listing at 1. replace (Z.to_nat (cluster_entries p - e)) with (S (Z.to_nat (cluster_entries p - e - 1))) by lia.
  cbn [listing]. zif. destruct (entry_group p m c e) as [[name e']|] eqn:G.
  - apply entry_group_ge in G. f_equal. apply listing_fuel; lia.
  - apply listing_fuel; lia.
Qed.

(** The loop over the entries goes to the end of a sector, or stops at the first match. *)
Lemma scan_entries_spec path pmin pmax fuel : forall e se s,
  on_disk s -> at_ e se -> cluster_entries p - e < Z.of_nat fuel ->
  exists b se' s', scan_entries fuel path pmin pmax se s = (b, se', s') /\ only_errno s s' /\
    if b : bool then exists e', find_name path pmin pmax (cluster_listing p m c e) = Some e' /\ at_ e' se' /\ di_index (se_idx se') < 16
    else exists e', e <= e' /\ 16 * di_sector (se_idx se) < e' /\ at_ e' se' /\ di_index (se_idx se') = 16 /\
      find_name path pmin pmax (cluster_listing p m c e) = find_name path pmin pmax (cluster_listing p m c e').
Proof.
  induction fuel as [|fuel IH]; intros e se s O A Hf; [destruct A; unfold cluster_entries in *; lia|].
  cbn [scan_entries]. pose proof O as (_ & P & _). rewrite P, (vol_bps _ V). change (512 / FAT_DIR_ENTRY_WIDTH) with 16.
  pose proof (ae_index _ _ _ _ _ A) as Hi. destruct (Z.ltb_spec (di_index (se_idx se)) 16) as [Hlt|Hge].
  2: { exists false, se, s. split; [done|]. split; [done|]. exists e. split; [lia|]. split; [destruct A; lia|]. split; [done|]. split; [lia|done]. }
  assert (He : 0 <= e < cluster_entries p) by (destruct A; unfold cluster_entries; lia).
  destruct (compare_spec path pmin pmax e se s O A Hlt) as (se1 & s1 & E1 & Eo1 & Hi1 & A1). rewrite E1.
  rewrite (cluster_listing_cons e He).
  set (e1 := match entry_group p m c e with None => e | Some (_, e') => e' end) in *.
  assert (He1 : e <= e1) by (unfold e1; destruct (entry_group p m c e) as [[? ?]|] eqn:G; [apply entry_group_next in G; [lia|done]|lia]).
  set (b := match entry_group p m c e with None => false | Some (name, _) => name_matches name path pmin pmax end).
  assert (Ef : find_name path pmin pmax (match entry_group p m c e with None => cluster_listing p m c (e + 1)
    | Some (name, e') => (name, e') :: cluster_listing p m c (e' + 1) end) =
    if b then Some e1 else find_name path pmin pmax (cluster_listing p m c (e1 + 1))).
  { unfold b, e1. by destruct (entry_group p m c e) as [[? ?]|]. }
  rewrite Ef. destruct b.
  - exists true, se1, s1. split; [done|]. split; [done|]. by exists e1.
  - destruct (IH (e1 + 1) _ s1 (on_disk_only _ _ O Eo1) (at_step e1 se1 (se_name se1) A1 Hi1) ltac:(lia)) as (b2 & se2 & s2 & E2 & Eo2 & R2).
    exists b2, se2, s2. split; [done|]. split; [by etrans|]. destruct b2; [done|].
    destruct R2 as (e2 & L2 & _ & R2). exists e2. split; [lia|]. split; [destruct A; lia|done].
Qed.

(** The loop over the sectors of a cluster finds the first match of the cluster. *)
Lemma scan_sectors_spec path pmin pmax fuel : forall se s,
  on_disk s -> di_cluster (se_idx se) = c -> 0 <= di_sector (se_idx se) <= sectors_per_cluster p ->
  sectors_per_cluster p - di_sector (se_idx se) < Z.of_nat fuel ->
  exists b se' s', scan_sectors fuel path pmin pmax se s = (b, se', s') /\ only_errno s s' /\
    if b : bool then exists e', find_name path pmin pmax (cluster_listing p m c (16 * di_sector (se_idx se))) = Some e' /\
      at_ e' se' /\ di_index (se_idx se') < 16
    else find_name path pmin pmax (cluster_listing p m c (16 * di_sector (se_idx se))) = None.
Proof.
  induction fuel as [|fuel IH]; intros se s O Ec Hs Hf; [lia|]. cbn [scan_sectors]. pose proof O as (_ & P & _). rewrite P, Ec.
  destruct (Z.ltb_spec (di_sector (se_idx se)) (sectors_per_cluster p)) as [Hlt|Hge].
  2: { exists false, se, s. split; [done|]. split; [done|]. unfold cluster_listing, cluster_entries.
       replace (Z.to_nat (16 * sectors_per_cluster p - 16 * di_sector (se_idx se))) with 0%nat by lia. done. }
  rewrite read_sector by (done || lia). cbn [default from_option id].
  set (se0 := Search (m (cstart p c + di_sector (se_idx se))) (set_index (se_idx se) 0) (se_name se)).
  assert (A0 : at_ (16 * di_sector (se_idx se)) se0) by (split; cbn; done || lia).
  destruct (scan_entries_spec path pmin pmax (Z.to_nat (17 * sectors_per_cluster p)) _ se0 (set_errno OK s)
    (on_disk_errno _ _ O) A0) as (b1 & se1 & s1 & E1 & Eo1 & R1); [unfold cluster_entries; lia|].
  rewrite E1. assert (Eo : only_errno s s1) by (etrans; [apply only_errno_set|exact Eo1]). destruct b1.
  - by exists true, se1, s1.
  - destruct R1 as (e1 & _ & L1 & A1 & H16 & Ef). pose proof A1 as [Ec1 Hs1 _ Ep1 _].
    destruct (IH (Search (se_buf se1) (next_sector (se_idx se1)) (se_name se1)) s1 (on_disk_only _ _ O Eo))
      as (b2 & se2 & s2 & E2 & Eo2 & R2); cbn [se0 se_idx set_index next_sector di_sector di_cluster] in *; [done|lia|lia|].
    exists b2, se2, s2. split; [done|]. split; [by etrans|]. rewrite Ef.
    by replace e1 with (16 * (di_sector (se_idx se1) + 1)) by lia.
Qed.
End scan.

(** ** Directories and paths *)

(** A directory: a chain of clusters with well-formed entries. *)
Record directory (s : fs) (ds : list Z) : Prop := {
  dr_chain : chain (ftable s) ds;
  dr_data : Forall (data_cluster (fat_pinfo s)) ds;
  dr_ok : Forall (cluster_ok (fat_pinfo s) (blocks s)) ds
}.

(** The first entry of a directory that matches a part of a path: its cluster and its number. *)
Fixpoint dir_find (p : FatPartitionInfo) (m : Z -> list Z) (path : list Z) (pmin pmax : Z) (ds : list Z) : option (Z * Z) :=
  match ds with
  | [] => None
  | c :: ds =>
      match find_name path pmin pmax (cluster_listing p m c 0) with
      | Some e => Some (c, e)
      | None => dir_find p m path pmin pmax ds
      end
  end.

(** The attribute and the first cluster of an entry. *)
Definition entry_is_dir (p : FatPartitionInfo) (m : Z -> list Z) (c e : Z) : bool :=
  negb (FAT_DIRECTORY .& ebyte p m c e 11 =? 0).

Definition entry_cluster (p : FatPartitionInfo) (m : Z -> list Z) (c e : Z) : Z :=
  fat_cluster_of_dir_entry (m (cstart p c + e / 16)) (e mod 16).

(** [resolves s path pmin ds k r]: in the directory [ds], the rest of [path] from [pmin] on leads to
    entry [r], or to an error; [k] clusters at most have to be searched. *)
Inductive resolves (s : fs) (path : list Z) : Z -> list Z -> nat -> errno_t + Z * Z -> Prop :=
  | resolves_none pmin ds :
      directory s ds -> dir_find (fat_pinfo s) (blocks s) path pmin (fat_idx_of_next_path_delim path pmin) ds = None ->
      resolves s path pmin ds (length ds) (inl ENOENT)
  | resolves_last pmin ds c e :
      directory s ds -> dir_find (fat_pinfo s) (blocks s) path pmin (fat_idx_of_next_path_delim path pmin) ds = Some (c, e) ->
      arr path (fat_idx_of_next_path_delim path pmin) = 0 ->
      resolves s path pmin ds (length ds) (inr (c, e))
  | resolves_notdir pmin ds c e :
      directory s ds -> dir_find (fat_pinfo s) (blocks s) path pmin (fat_idx_of_next_path_delim path pmin) ds = Some (c, e) ->
      arr path (fat_idx_of_next_path_delim path pmin) <> 0 -> entry_is_dir (fat_pinfo s) (blocks s) c e = false ->
      resolves s path pmin ds (length ds) (inl ENOTDIR)
  | resolves_dir pmin ds c e ds' k r :
      directory s ds -> dir_find (fat_pinfo s) (blocks s) path pmin (fat_idx_of_next_path_delim path pmin) ds = Some (c, e) ->
      arr path (fat_idx_of_next_path_delim path pmin) <> 0 -> entry_is_dir (fat_pinfo s) (blocks s) c e = true ->
      head ds' = Some (entry_cluster (fat_pinfo s) (blocks s) c e) ->
      resolves s path (fat_idx_of_next_path_delim path pmin + 1) ds' k r ->
      resolves s path pmin ds (length ds + k) r.

(** What [fat_resolve_path] does with an entry that matches. *)
Definition found (fuel : nat) (path : list Z) (pmax : Z) (se : search) (s : fs) : option FatDirEntryIdx * search * fs :=
  if negb (arr path pmax =? 0) then
    if FAT_DIRECTORY .& fat_attrib_of_dir_entry (se_buf se) (di_index (se_idx se)) =? 0
    then (None, se, set_errno ENOTDIR s)
    else resolve_loop fuel path (pmax + 1) (fat_cluster_of_dir_entry (se_buf se) (di_index (se_idx se))) se s
  else (Some (se_idx se), se, set_errno OK s).

(** One cluster of a directory is searched. *)
Lemma resolve_cluster path pmin s0 fuel c se s :
  healthy s0 -> data_cluster (fat_pinfo s0) c -> cluster_ok (fat_pinfo s0) (blocks s0) c -> only_errno s0 s ->
  let pmax := fat_idx_of_next_path_delim path pmin in
  exists se' s', only_errno s0 s' /\
    match find_name path pmin pmax (cluster_listing (fat_pinfo s0) (blocks s0) c 0) with
    | Some e => at_entry (fat_pinfo s0) (blocks s0) c e se' /\ di_index (se_idx se') < 16 /\
        resolve_loop (S fuel) path pmin c se s = found fuel path pmax se' s'
    | None =>
        resolve_loop (S fuel) path pmin c se s =
          if FAT_TV_LAST (ftable s0 c) then (None, se', set_errno ENOENT s')
          else if FAT_TV_BAD (ftable s0 c) then (None, se', set_errno ENOENT s')
          else resolve_loop fuel path pmin (ftable s0 c) se' s'
    end.
Proof.
  intros H Dc Ok Eo pmax. pose proof (h_vol _ H) as V.
  assert (O : on_disk (fat_pinfo s0) (blocks s0) s) by (rewrite Eo; split; [by apply healthy_errno|done]).
  cbn [resolve_loop]. pose proof O as (_ & P & _). rewrite P. fold pmax.
  set (se0 := Search (se_buf se) (DirIdx c 0 (di_index (se_idx se))) (se_name se)).
  destruct (scan_sectors_spec _ _ c V Dc Ok (h_disk _ H) path pmin pmax (S (Z.to_nat (sectors_per_cluster (fat_pinfo s0)))) se0 s O)
    as (b & se1 & s1 & E1 & Eo1 & R1); [done|cbn; pose proof (vol_spc _ V); lia|cbn; pose proof (vol_spc _ V); lia|].
  rewrite E1. change (16 * di_sector (se_idx se0)) with 0 in R1. assert (Eo' : only_errno s0 s1) by (by etrans).
  destruct b.
  - destruct R1 as (e & -> & A & Hi). exists se1, s1. split; [done|]. by split.
  - rewrite R1. exists se1, (set_errno OK s1). split; [by etrans; [exact Eo'|apply only_errno_set]|].
    assert (H1 : healthy s1) by (rewrite Eo'; by apply healthy_errno).
    rewrite get_table_value; [|done|rewrite Eo'; destruct Dc as [[? _] _]; cbn [set_errno fat_pinfo]; lia].
    assert (ftable s1 c = ftable s0 c) as -> by (rewrite Eo'; done). done.
Qed.

(** The search in a directory, cluster by cluster. *)
Lemma dir_search path pmin s0 f ds : forall c se s,
  healthy s0 -> directory s0 (c :: ds) -> only_errno s0 s ->
  let pmax := fat_idx_of_next_path_delim path pmin in
  exists fuel se' s', (f <= fuel)%nat /\ only_errno s0 s' /\
    match dir_find (fat_pinfo s0) (blocks s0) path pmin pmax (c :: ds) with
    | None => resolve_loop (length (c :: ds) + f) path pmin c se s = (None, se', set_errno ENOENT s')
    | Some (c', e) =>
        at_entry (fat_pinfo s0) (blocks s0) c' e se' /\ di_index (se_idx se') < 16 /\
        resolve_loop (length (c :: ds) + f) path pmin c se s = found fuel path pmax se' s'
    end.
Proof.
  induction ds as [|c1 ds IH]; intros c se s H [Ch Dd Ok] Eo pmax.
  - apply Forall_cons_1 in Dd as [Dc _], Ok as [Oc _]. cbn [length Nat.add dir_find].
    destruct (resolve_cluster path pmin s0 f c se s H Dc Oc Eo) as (se1 & s1 & Eo1 & R). fold pmax in R.
    exists f, se1, s1. split; [done|]. split; [done|]. destruct (find_name _ _ _ _) as [e|]; [done|].
    simpl in Ch. by rewrite Ch in R.
  - destruct Ch as [Tc Ch]. apply Forall_cons_1 in Dd as [Dc Dd], Ok as [Oc Ok].
    destruct (resolve_cluster path pmin s0 (length (c1 :: ds) + f) c se s H Dc Oc Eo) as (se1 & s1 & Eo1 & R). fold pmax in R.
    cbn [dir_find]. change (length (c :: c1 :: ds) + f)%nat with (S (length (c1 :: ds) + f)).
    destruct (find_name _ _ _ _) as [e|].
    + exists (length (c1 :: ds) + f)%nat, se1, s1. split; [lia|done].
    + rewrite Tc in R. pose proof (proj1 (Forall_cons_1 _ _ _ Dd)) as [[_ ?] _].
      assert (FAT_TV_LAST c1 = false) as F1 by (apply Z.leb_gt; lia).
      assert (FAT_TV_BAD c1 = false) as F2 by (apply Z.eqb_neq; lia). rewrite F1, F2 in R. rewrite R.
      by apply (IH c1 se1 s1 H).
Qed.

(** The bytes at an entry that was found. *)
Lemma at_entry_attrib p m c e se : at_entry p m c e se -> di_index (se_idx se) < 16 ->
  fat_attrib_of_dir_entry (se_buf se) (di_index (se_idx se)) = ebyte p m c e 11 /\
  fat_cluster_of_dir_entry (se_buf se) (di_index (se_idx se)) = entry_cluster p m c e /\
  se_idx se = DirIdx c (e / 16) (e mod 16) /\ se_buf se = m (cstart p c + e / 16).
Proof.
  intros A Hi. split; [by apply at_entry_byte|]. unfold entry_cluster. destruct A as [Ec Hs Hx -> Hb].
  replace ((16 * di_sector (se_idx se) + di_index (se_idx se)) / 16) with (di_sector (se_idx se)) by zdm.
  replace ((16 * di_sector (se_idx se) + di_index (se_idx se)) mod 16) with (di_index (se_idx se)) by zdm.
  rewrite Hb. split; [done|]. split; [|done]. destruct (se_idx se). cbn in *. by subst.
Qed.

Lemma resolve_follows s path pmin ds k r :
  healthy s -> resolves s path pmin ds k r -> forall cl fuel se s1,
  head ds = Some cl -> only_errno s s1 -> (k <= fuel)%nat ->
  exists se' s', only_errno s s' /\
    match r with
    | inl e => resolve_loop fuel path pmin cl se s1 = (None, se', s') /\ errno s' = e
    | inr (c, e) => resolve_loop fuel path pmin cl se s1 = (Some (DirIdx c (e / 16) (e mod 16)), se', s') /\
        errno s' = OK /\ se_buf se' = blocks s (cstart (fat_pinfo s) c + e / 16)
    end.
Proof.
  intros H R. induction R as [pmin ds Dr F|pmin ds c e Dr F Z0|pmin ds c e Dr F Z0 Nd|pmin ds c e ds' k r Dr F Z0 Di Hd R IH];
    intros cl fuel se s1 Hh Eo Hf; (destruct ds as [|c0 ds]; [done|]); injection Hh as ->;
    destruct (dir_search path pmin s (fuel - length (cl :: ds)) ds cl se s1 H Dr Eo) as (fuel' & se' & s' & Hf' & Eo' & E);
    rewrite F in E; replace (length (cl :: ds) + (fuel - length (cl :: ds)))%nat with fuel in E by lia.
  - exists se', (set_errno ENOENT s'). split; [by etrans; [exact Eo'|apply only_errno_set]|done].
  - destruct E as (A & Hi & E). destruct (at_entry_attrib _ _ _ _ _ A Hi) as (_ & _ & Ei & Eb).
    exists se', (set_errno OK s'). split; [by etrans; [exact Eo'|apply only_errno_set]|].
    rewrite E. unfold found. rewrite Z0, Ei, Z.eqb_refl. done.
  - destruct E as (A & Hi & E). destruct (at_entry_attrib _ _ _ _ _ A Hi) as (Ea & _ & _ & _).
    exists se', (set_errno ENOTDIR s'). split; [by etrans; [exact Eo'|apply only_errno_set]|].
    rewrite E. unfold found. rewrite (proj2 (Z.eqb_neq _ _) Z0), Ea. unfold entry_is_dir in Nd. apply negb_false_iff in Nd.
    rewrite Nd. done.
  - destruct E as (A & Hi & E). destruct (at_entry_attrib _ _ _ _ _ A Hi) as (Ea & Ec & _ & _).
    rewrite E. unfold found. rewrite (proj2 (Z.eqb_neq _ _) Z0), Ea, Ec. unfold entry_is_dir in Di. apply negb_true_iff in Di.
    rewrite Di. cbn [negb]. apply (IH _ fuel' se' s' Hd Eo'). cbn [length] in *. lia.
Qed.

(** Claim C16. [fat_resolve_path] follows a path: in each directory it finds the first entry, short
    or long, that has the name of the next part of the path, over all sectors and clusters of the
    directory; it returns the place of the entry and its sector, and fails with [ENOENT] if there is
    none, and with [ENOTDIR] if an entry on the way is not a directory. It ends, and the disk stays
    as it is. *)
Theorem fat_resolve_follows_path s path ds k r fuel se :
  healthy s -> head ds = Some (root_dir_cluster (fat_pinfo s)) -> resolves s path 0 ds k r -> (k <= fuel)%nat ->
  exists se' s', only_errno s s' /\
    match r with
    | inl e => fat_resolve_path fuel path se s = (None, se', s') /\ errno s' = e
    | inr (c, e) => fat_resolve_path fuel path se s = (Some (DirIdx c (e / 16) (e mod 16)), se', s') /\
        errno s' = OK /\ se_buf se' = blocks s (cstart (fat_pinfo s) c + e / 16)
    end.
Proof.
  intros H Hd R Hf. by apply (resolve_follows s path 0 ds k r H R).
Qed.

(** ** From an entry to an open file *)

(** The entry of a file whose clusters are [cs]; it may grow up to [M] bytes. *)
Record file_entry (M : Z) (s : fs) (c e : Z) (cs : list Z) : Prop := {
  fe_healthy : healthy s;
  fe_init : fat_initialized s = true;
  fe_clusters : clusters_ok s cs;
  fe_start : head cs = Some (entry_cluster (fat_pinfo s) (blocks s) c e);
  fe_size : fat_size_of_dir_entry (blocks s (cstart (fat_pinfo s) c + e / 16)) (e mod 16) <= file_length (fat_pinfo s) cs;
  fe_max : fat_size_of_dir_entry (blocks s (cstart (fat_pinfo s) c + e / 16)) (e mod 16) <= M < 2147483648;
  fe_space : space s (M / bpc s + 1 - Z.of_nat (length cs));
  fe_data : data_cluster (fat_pinfo s) c;
  fe_used : ftable s c <> 0;
  fe_other : ~ (c ∈ cs);
  fe_pos : 0 <= e < cluster_entries (fat_pinfo s)
}.

(** The bytes the entry stands for. *)
Definition entry_bytes (s : fs) (c e : Z) (cs : list Z) : list Z :=
  file_bytes (fat_pinfo s) (blocks s) cs 0
    (Z.to_nat (fat_size_of_dir_entry (blocks s (cstart (fat_pinfo s) c + e / 16)) (e mod 16))).

Lemma arr_file_bytes p m cs n i : 0 <= i < Z.of_nat n -> arr (file_bytes p m cs 0 n) i = file_byte p m cs i.
Proof.
  intros Hi. unfold file_bytes, arr. rewrite nth_lookup. change (map ?f ?l) with (f <$> l).
  rewrite list_lookup_fmap, lookup_seq_lt by lia. cbn. by rewrite Z2Nat.id by lia.
Qed.

Lemma length_file_bytes p m cs q n : length (file_bytes p m cs q n) = n.
Proof. unfold file_bytes. by rewrite length_map, length_seq. Qed.

(** [fat_open_dir_entry] opens the file at its beginning, in the first free place of the table of
    open files. *)
Theorem fat_open_dir_entry_opens M s c e cs i g :
  file_entry M s c e cs -> (length (fat_open_files s) = 16)%nat ->
  list_find (fun f => f_free f = true) (fat_open_files s) = Some (i, g) ->
  exists s' f, fat_open_dir_entry (blocks s (cstart (fat_pinfo s) c + e / 16)) (DirIdx c (e / 16) (e mod 16)) s =
      (Z.of_nat i + 3, s') /\ blocks s' = blocks s /\
    file_rep M (Z.of_nat i + 3) f cs s' (AFile (entry_bytes s c e cs) 0).
Proof.
  intros [H In C St Sz Mx Sp Dc Us Ot Po] Ln Fi. unfold fat_open_dir_entry. rewrite Fi. cbn [di_index].
  set (size := fat_size_of_dir_entry _ _) in *. set (f := File false 0 _ _ _ size).
  eexists _, f. split; [reflexivity|]. split; [done|]. apply list_find_Some in Fi as (Ei & _ & _).
  pose proof (lookup_lt_Some _ _ _ Ei) as Li. pose proof (h_vol _ H) as V. pose proof (vol_spc _ V) as Hspc.
  assert (H0 : 0 <= size) by apply u32_range.
  assert (Ll : Z.of_nat (length (entry_bytes s c e cs)) = size) by (unfold entry_bytes; rewrite length_file_bytes; fold size; lia).
  assert (Hc : cs !! 0%nat = Some (f_start_cluster f)) by (by destruct cs).
  split; cbn [a_data a_pos]; rewrite ?Ll; try done.
  - by destruct H.
  - unfold open_file. cbn [set_files fat_initialized fat_open_files]. rewrite In. cbn [negb].
    unfold FAT_FD_OFFSET, FAT_MAX_FILES. zif. replace (Z.to_nat (Z.of_nat i + 3 - 3)) with i by lia.
    by rewrite list_lookup_insert_eq by done.
  - by destruct C.
  - intros q Hq. unfold in_file, file_length in *. cbn [set_files fat_pinfo]. zdm.
  - intros q Hq. unfold entry_bytes. by rewrite arr_file_bytes by (fold size; lia).
  - unfold cluster_entries in Po. split; cbn [f f_dir_idx di_cluster di_sector di_index set_files fat_pinfo]; try done; [|zdm].
    split; [apply Z.div_pos; lia|apply Z.div_lt_upper_bound; lia].
Qed.

(** ** Two directories *)

(** The bytes of a short entry and of a long one. *)
Definition short_entry (name : list Z) (attr cluster size : Z) : list Z :=
  fat_set_uint32 size (fat_set_uint16 cluster (fat_set_uint16 (cluster >> 16) (name ++ [attr] ++ replicate 20 0) 20) 26) 28.

Definition long_entry (ord : Z) (chars : list Z) : list Z :=
  foldr (fun '(o, ch) l => fat_set_uint16 ch l o) ([ord] ++ replicate 10 0 ++ [0x0F] ++ replicate 20 0)
    (zip long_offsets chars).

Definition dir_block (es : list (list Z)) : list Z := take 512 (concat es ++ zero_block).

(** The root directory has a deleted entry and the directory "DIR"; this has the file
    "long_file_name.txt", which takes two long entries. *)
Definition root_block : list Z :=
  dir_block [0xE5 :: drop 1 (short_entry [68; 73; 82; 32; 32; 32; 32; 32; 32; 32; 32] 0x10 9 0); short_entry [68; 73; 82; 32; 32; 32; 32; 32; 32; 32; 32] 0x10 4 0].

Definition sub_block : list Z :=
  dir_block [long_entry 0x42 [101; 46; 116; 120; 116; 0; 65535; 65535; 65535; 65535; 65535; 65535; 65535];
             long_entry 1 [108; 111; 110; 103; 95; 102; 105; 108; 101; 95; 110; 97; 109];
             short_entry [76; 79; 78; 71; 95; 70; 126; 49; 84; 88; 84] 0x20 3 600].

Definition dir_fs : fs :=
  Fs (put_block (put_block (blocks demo_fs) 2 root_block) 4 sub_block) [] OK demo_pinfo (fat_open_files demo_fs) true.

(** "dir/Long_File_Name.txt" *)
Definition dir_path : list Z :=
  [100; 105; 114; 47; 76; 111; 110; 103; 95; 70; 105; 108; 101; 95; 78; 97; 109; 101; 46; 116; 120; 116].

Lemma dir_healthy : healthy dir_fs.
Proof.
  destruct demo_healthy as [V F Dk]. split; [done|done|].
  apply put_block_ok; [apply put_block_ok; [done|]|]; apply block_okb_ok; vm_compute; reflexivity.
Qed.

(** No entry but those of [chains] begins a chain of long entries. *)
Lemma dir_cluster_ok p m c chains :
  forallb (fun i => let e := Z.of_nat i in
    negb (ebyte p m c e 11 =? 0x0F) || (ebyte p m c e 0 .& 0x40 =? 0) ||
    existsb (Z.eqb e) chains) (seq 0 (Z.to_nat (cluster_entries p))) = true ->
  (forall e, In e chains -> long_chain p m c e (ebyte p m c e 0 .^ 0x40)) ->
  cluster_ok p m c.
Proof.
  intros F L e He Ha Hb _. apply L. rewrite forallb_forall in F.
  specialize (F (Z.to_nat e) ltac:(apply in_seq; lia)). cbn zeta in F. rewrite Z2Nat.id in F by lia.
  rewrite Ha in F. apply orb_true_iff in F as [[F|F]%orb_true_iff|F]; [done|by apply Z.eqb_eq in F|].
  apply existsb_exists in F as (y & Hy & E%Z.eqb_eq). by subst y.
Qed.

Lemma sub_chain : long_chain demo_pinfo (blocks dir_fs) 4 0 2.
Proof.
  split; [lia|vm_compute; reflexivity|vm_compute; reflexivity| |].
  - intros i Hi. assert (i = 0 \/ i = 1) as [->| ->] by lia; vm_compute; reflexivity.
  - intros i Hi. assert (i = 1) as -> by lia. vm_compute. reflexivity.
Qed.

Lemma dir_directory c : c = 2 \/ c = 4 -> directory dir_fs [c].
Proof.
  intros Hc. split; [by destruct Hc as [->| ->]; vm_compute| |]; apply Forall_singleton.
  - destruct Hc as [->| ->]; repeat split; by vm_compute.
  - destruct Hc as [->| ->].
    + apply (dir_cluster_ok _ _ 2 []); [vm_compute; reflexivity|by intros e []].
    + apply (dir_cluster_ok _ _ 4 [0]); [vm_compute; reflexivity|]. intros e [<-|[]]. apply sub_chain.
Qed.

Lemma dir_resolves : resolves dir_fs dir_path 0 [2] 2 (inr (4, 2)).
Proof.
  apply (resolves_dir _ _ 0 [2] 2 1 [4] 1); [by apply dir_directory; left|vm_compute; reflexivity|vm_compute; discriminate|
    vm_compute; reflexivity|vm_compute; reflexivity|].
  apply (resolves_last _ _ _ [4]); [by apply dir_directory; right|vm_compute; reflexivity|vm_compute; reflexivity].
Qed.

Lemma fat_resolve_follows_path_witness :
  exists se' s', fat_resolve_path 2 dir_path (Search zero_block (DirIdx 0 0 0) (fun _ => 0)) dir_fs =
    (Some (DirIdx 4 0 2), se', s') /\ se_buf se' = sub_block.
Proof.
  destruct (fat_resolve_follows_path dir_fs dir_path [2] 2 (inr (4, 2)) 2 (Search zero_block (DirIdx 0 0 0) (fun _ => 0))
    dir_healthy eq_refl dir_resolves (le_n 2)) as (se' & s' & _ & E & _ & Eb).
  exists se', s'. split; [exact E|]. rewrite Eb. vm_compute. reflexivity.
Defined.
