(* ===== verification/FatOps.v ===== *)
(** * The FAT32 driver: paths

    src/c/libsd/fat32.c, the functions that take a path: [fat_open], [fat_creat], [fat_unlink],
    [fat_mkdir], [fat_rmdir], and [fat_create] and [fat_delete] below them, which add an entry to a
    directory and remove it.

    The functions run in a monad of state in which a run may also stop: an [assert] fails, an array
    is accessed out of its bounds, or a loop does not end within the fuel. The fuel bounds the
    clusters of a search, the clusters of a chain, and the entries that are marked.

    [fat_create] and [fat_delete] store one character behind the end of the local array [dir_path],
    and for a path of one part they read the character in front of it. What these accesses hit is
    part of the caller's stack, which is not modelled. *)

From stdpp Require Import base list numbers sets.
From Stdlib Require Import ZArith Lia.
From S2P Require Import Prelude Fat FatFile FatSpec FatDir.

Local Open Scope Z_scope.
Local Open Scope c_scope.

(** ** Runs *)

Inductive stop := Hang | Abort | Undefined.

Definition run (A : Type) : Type := fs -> stop + A * fs.

#[export] Instance run_ret : MRet run := fun A a s => inr (a, s).

#[export] Instance run_bind : MBind run := fun A B k m s =>
  match m s with
  | inl e => inl e
  | inr (a, s) => k a s
  end.

Definition halt {A} (e : stop) : run A := fun _ => inl e.

(** A function that always returns. *)
Definition call {A} (f : fs -> A * fs) : run A := fun s => inr (f s).

Definition get_fs : run fs := fun s => inr (s, s).

Definition set_err (e : errno_t) : run unit := fun s => inr ((), set_errno e s).

Definition no_error : run bool := fun s => inr (bool_decide (errno s = OK), s).

(** A read into a buffer whose result is not tested: a failure leaves the buffer as it is. *)
Definition reload (addr : Z) (buf : list Z) : run (list Z) :=
  r ← call (fat_read_single_block addr); mret (default buf r).

Definition acquire (cluster : Z) (link : bool) : run (option Z) := fun s =>
  match fat_acquire_next_cluster cluster link s with
  | (true, c, s) => inr (Some c, s)
  | (false, _, s) => inr (None, s)
  end.

Definition free_clusters (fuel : nat) (cluster : Z) : run bool := fun s =>
  match fat_free_cluster_chain fuel cluster s with
  | None => inl Hang
  | Some r => inr r
  end.

Definition resolve (fuel : nat) (path : list Z) (se : search) : run (option FatDirEntryIdx * search) :=
  call (fat_resolve_path fuel path se).

(** ** Parts of a path *)

Fixpoint last_part (fuel : nat) (path : list Z) (pmin : Z) : Z * Z :=
  let pmax := fat_idx_of_next_path_delim path pmin in
  match fuel with
  | O => (pmin, pmax)
  | S fuel => if arr path pmax =? 0 then (pmin, pmax) else last_part fuel path (pmax + 1)
  end.

(** Where the last part of a path begins and ends. *)
Definition split_path (path : list Z) : Z * Z := last_part (length path) path 0.

(** The cluster of the directory in front of the last part, if there is one. *)
Definition parent_dir (fuel : nat) (path : list Z) (pmin : Z) (se : search) : run (option Z * search) :=
  s ← get_fs;
  if pmin =? 0 then mret (Some (root_dir_cluster (fat_pinfo s)), se)
  else
    r ← resolve fuel (take (Z.to_nat pmin - 1) path) se;
    match r with
    | (None, se) => mret (None, se)
    | (Some idx, se) => mret (Some (fat_cluster_of_dir_entry (se_buf se) (di_index idx)), se)
    end.

(** ** Names of new entries *)

Definition FAT_MAX_SHORT_PATH : Z := 81.
Definition FAT_MAX_LONG_PATH : Z := 261.
Definition FAT_MAX_LONG_NAME : Z := 255.
Definition FAT_ARCHIVE : Z := 0x20.

(** The loop goes down from the end, so it finds the first dot; -1 if there is none. *)
Fixpoint last_dot (n : nat) (path : list Z) (pmax i acc : Z) : Z :=
  match n with
  | O => acc
  | S n => last_dot n path pmax (i + 1) (if arr path (pmax - 1 - i) =? 46 then pmax - 1 - i else acc)
  end.

Fixpoint copy_name (n : nat) (path : list Z) (pmin i copied : Z) (short : list Z) : list Z :=
  match n with
  | O => short
  | S n =>
      let c := arr path (pmin + i) in
      if (copied <? 8) && negb (c =? 32) && negb (c =? 46)
      then copy_name n path pmin (i + 1) (copied + 1) (put8 short copied (toupper c))
      else copy_name n path pmin (i + 1) copied short
  end.

Definition copy_extension (path : list Z) (dot : Z) (short : list Z) : list Z :=
  if 0 <? dot then
    foldl (fun short i => put8 short (8 + i) (toupper (arr path (dot + 1 + i)))) short [0; 1; 2]
  else short.

(** What [fat_create] computes from the last part of a path. *)
Record new_name := NewName {
  nn_path : list Z;
  nn_min : Z;
  nn_max : Z;
  nn_dot : Z;
  nn_len : Z;
  nn_entries : Z;
  nn_short : list Z
}.

Definition make_name (path : list Z) (pmin pmax : Z) : new_name :=
  let total := u32 (pmax - pmin) in
  let dot := last_dot (Z.to_nat total) path pmax 0 (-1) in
  let name_len := if 0 <? dot then u32 (dot - pmin) else total in
  let extension_len := if 0 <? dot then u32 (total - name_len - 1) else 0 in
  let req_entries :=
    if (8 <? name_len) || (3 <? extension_len)
    then 1 + total / 13 + (if negb (total mod 13 =? 0) then 1 else 0) else 1 in
  NewName path pmin pmax dot name_len req_entries
    (copy_extension path dot (copy_name (Z.to_nat name_len) path pmin 0 0 (replicate 11 0x20))).

(** Decimal digits, at most ten. *)
Fixpoint decimal (fuel : nat) (n : Z) (acc : list Z) : list Z :=
  match fuel with
  | O => acc
  | S fuel => let acc := (48 + n mod 10) :: acc in if n <? 10 then acc else decimal fuel (n / 10) acc
  end.

Fixpoint put_chars (l : list Z) (o : Z) (short : list Z) : list Z :=
  match l with
  | [] => short
  | c :: l => put_chars l (o + 1) (put8 short o c)
  end.

(** The number of characters in front of the tail of a short name. *)
Fixpoint tail_chars (n : nat) (nums : list Z) (chars max : Z) : Z :=
  match n with
  | O => chars
  | S n => if (0 <=? chars) && (max <=? u32 (arr nums chars + 1)) then tail_chars n nums (chars - 1) (u32 (max * 10)) else chars
  end.

(** The short name gets a tail if there are long entries. *)
Definition add_tail (nn : new_name) (nums : list Z) : run (list Z) :=
  let chars := tail_chars 10 nums (umin (nn_len nn) (if 1 <? nn_entries nn then 6 else 8)) 10 in
  if 1 <? nn_entries nn then
    if chars <? 0 then halt Undefined
    else
      let short := put8 (nn_short nn) chars 126 in
      let short := put_chars (decimal 10 (u32 (1 + arr nums chars)) [] ++ [0]) (chars + 1) short in
      mret (copy_extension (nn_path nn) (nn_dot nn) short)
  else mret (nn_short nn).

Definition name_checksum (short : list Z) : Z :=
  foldl (fun sum c => u8 (u8 ((sum >> 1) + (sum << 7)) + c)) 0 short.

(** ** A place for new entries *)

(** The state of the search through a directory: the number of free entries in a row, the first of
    them, the place of the short entry, and how many names share how many characters with the new
    one. *)
Record slots := Slots {
  sl_seen : Z;
  sl_first : FatDirEntryIdx;
  sl_target : FatDirEntryIdx;
  sl_nums : list Z;
  sl_done : bool;
  sl_last : bool;
  sl_found : bool
}.

(** The loop that compares a short name with the one of an entry: the number of characters that
    agree, and the counters. *)
Fixpoint compare_short (n : nat) (short buf : list Z) (o k : Z) (nums : list Z) : Z * list Z :=
  match n with
  | O => (k, nums)
  | S n =>
      if toupper (arr short k) =? toupper (arr buf (o + k))
      then compare_short n short buf o (k + 1) (<[Z.to_nat (k + 1) := u32 (arr nums (k + 1) + 1)]> nums)
      else (k, nums)
  end.

(** An entry of the directory; the second result is whether its short name is the new one. *)
Definition visit_entry (nn : new_name) (buf : list Z) (here : FatDirEntryIdx) (sl : slots) : slots * bool :=
  let o := di_index here * FAT_DIR_ENTRY_WIDTH in
  let last := sl_last sl || (FAT_DIR_ENTRY_LAST =? arr buf o) in
  if last || (arr buf o =? FAT_DIR_ENTRY_FREE) then
    let seen := u32 (sl_seen sl + 1) in
    let fits := negb (sl_found sl) && (nn_entries nn <=? seen) in
    (Slots seen (if negb (sl_found sl) && (seen =? 1) then here else sl_first sl)
       (if fits then here else sl_target sl) (sl_nums sl) (sl_done sl) last (sl_found sl || fits), false)
  else if negb (arr buf (o + 11) =? FAT_LONG_NAME_ENTRY) then
    let '(k, nums) := compare_short 11 (nn_short nn) buf o 0 (<[0%nat := u32 (arr (sl_nums sl) 0 + 1)]> (sl_nums sl)) in
    (Slots 0 (sl_first sl) (sl_target sl) nums (sl_done sl || (k =? 11)) last (sl_found sl), k =? 11)
  else (Slots 0 (sl_first sl) (sl_target sl) (sl_nums sl) (sl_done sl) last (sl_found sl), false).

(** The loop over the entries of a sector, which a collision of names ends. *)
Fixpoint visit_entries (n : nat) (nn : new_name) (buf : list Z) (cluster i j : Z) (sl : slots) : run slots :=
  match n with
  | O => mret sl
  | S n =>
      let '(sl, collision) := visit_entry nn buf (DirIdx cluster i j) sl in
      if collision then set_err EEXIST ≫= fun _ => mret sl
      else visit_entries n nn buf cluster i (j + 1) sl
  end.

(** The loop over the sectors of a cluster. *)
Fixpoint visit_sectors (n : nat) (nn : new_name) (buf : list Z) (cluster i : Z) (sl : slots) : run (list Z * slots) :=
  match n with
  | O => mret (buf, sl)
  | S n =>
      s ← get_fs;
      let p := fat_pinfo s in
      buf ← reload (u32 (fat_first_sector_of_cluster p cluster + i)) buf;
      sl ← visit_entries (Z.to_nat (bytes_per_sector p / FAT_DIR_ENTRY_WIDTH)) nn buf cluster i 0 sl;
      visit_sectors n nn buf cluster (i + 1) sl
  end.

(** The entries of a buffer from [index] on are marked as free. *)
Fixpoint free_tail (n : nat) (index : Z) (buf : list Z) : list Z :=
  match n with
  | O => buf
  | S n => free_tail n (index + 1) (put8 buf (index * FAT_DIR_ENTRY_WIDTH) FAT_DIR_ENTRY_FREE)
  end.

(** The loop over the clusters, which adds a cluster to the directory at its end. *)
Fixpoint find_slots (fuel : nat) (nn : new_name) (buf : list Z) (cluster : Z) (sl : slots) : run (list Z * slots) :=
  match fuel with
  | O => halt Hang
  | S fuel =>
      if sl_done sl then mret (buf, sl)
      else
        s ← get_fs;
        let p := fat_pinfo s in
        '(buf, sl) ← visit_sectors (Z.to_nat (sectors_per_cluster p)) nn buf cluster 0 sl;
        if sl_found sl then mret (buf, sl)
        else
          next ← acquire cluster true;
          match next with
          | None => mret (buf, sl)
          | Some next =>
              let sl := Slots 0 (sl_first sl) (sl_target sl) (sl_nums sl) (sl_done sl) (sl_last sl) (sl_found sl) in
              if sl_last sl then
                let index := di_index (sl_first sl) in
                let buf := free_tail (Z.to_nat (bytes_per_sector p / FAT_DIR_ENTRY_WIDTH - index)) index buf in
                if negb (di_sector (sl_first sl) =? sectors_per_cluster p - 1) then halt Abort
                else
                  ok ← call (fat_write_single_block (u32 (fat_first_sector_of_cluster p cluster + di_sector (sl_first sl))) buf);
                  if ok : bool then find_slots fuel nn buf next sl else mret (buf, sl)
              else find_slots fuel nn buf next sl
          end
  end.

(** ** Writing the entries *)

(** The position in a loop that writes entries, and its buffer. *)
Record cursor := Cursor { cu_cluster : Z; cu_start : Z; cu_sector : Z; cu_index : Z; cu_buf : list Z }.

(** The next entry: at the end of a sector this is written and the next one is read, from the next
    cluster at the end of a cluster. *)
Definition advance (cu : cursor) : run cursor :=
  s ← get_fs;
  let p := fat_pinfo s in
  let index := cu_index cu + 1 in
  if bytes_per_sector p / FAT_DIR_ENTRY_WIDTH <=? index then
    _ ← call (fat_write_single_block (u32 (cu_start cu + cu_sector cu)) (cu_buf cu));
    let sector := cu_sector cu + 1 in
    '(cluster, start, sector) ←
      (if sectors_per_cluster p <=? sector then
         fun s => match fat_acquire_next_cluster (cu_cluster cu) false s with
         | (true, c, s) => inr ((c, fat_first_sector_of_cluster p c, 0), s)
         | (false, c, s) => inr ((c, cu_start cu, sector), s)
         end
       else mret (cu_cluster cu, cu_start cu, sector));
    buf ← reload (u32 (start + sector)) (cu_buf cu);
    mret (Cursor cluster start sector 0 buf)
  else mret (Cursor (cu_cluster cu) (cu_start cu) (cu_sector cu) index (cu_buf cu)).

(** The short entry at offset [o]; byte 12 is left as it is. *)
Definition put_short (short : list Z) (attrib cluster : Z) (buf : list Z) (o : Z) : list Z :=
  let buf := put_chars short o buf in
  let buf := fat_set_uint8 attrib buf (o + 11) in
  let buf := fat_set_uint8 0 buf (o + 13) in
  let buf := fat_set_uint16 0 buf (o + 14) in
  let buf := fat_set_uint16 0 buf (o + 16) in
  let buf := fat_set_uint16 0 buf (o + 18) in
  let buf := fat_set_uint16 0 buf (o + 22) in
  let buf := fat_set_uint16 0 buf (o + 24) in
  let buf := fat_set_uint16 (cluster >> 16) buf (o + 20) in
  let buf := fat_set_uint16 cluster buf (o + 26) in
  fat_set_uint32 0 buf (o + 28).

(** The characters of a long entry: those of the path, a NUL, and 0xFFFF behind it. *)
Fixpoint put_long_chars (offs : list Z) (path : list Z) (pmax path_off : Z) (buf : list Z) (o : Z) : list Z :=
  match offs with
  | [] => buf
  | x :: offs =>
      let v := if pmax <? path_off then 0xFFFF else if path_off =? pmax then 0 else arr path path_off in
      put_long_chars offs path pmax (u32 (path_off + 1)) (fat_set_uint16 v buf (o + x)) o
  end.

Definition put_long (nn : new_name) (en checksum path_off : Z) (buf : list Z) (o : Z) : list Z :=
  let ord := if en =? nn_entries nn then (en - 1) .| FAT_LAST_LONG else en - 1 in
  let buf := fat_set_uint8 ord buf o in
  let buf := fat_set_uint8 FAT_LONG_NAME_ENTRY buf (o + 11) in
  let buf := fat_set_uint8 0 buf (o + 12) in
  let buf := fat_set_uint8 checksum buf (o + 13) in
  let buf := fat_set_uint16 0 buf (o + 26) in
  put_long_chars long_offsets (nn_path nn) (nn_max nn) path_off buf o.

Definition with_buf (cu : cursor) (buf : list Z) : cursor :=
  Cursor (cu_cluster cu) (cu_start cu) (cu_sector cu) (cu_index cu) buf.

(** The loop that writes the entries, for the entries [en] down to 0, where 1 is the short one and
    0 the one behind it. The result is the file descriptor. *)
Fixpoint write_entries (en : nat) (nn : new_name) (sl : slots) (short : list Z) (isfile : bool) (cluster : Z)
    (path_off : Z) (cu : cursor) (fd : Z) : run Z :=
  ok ← no_error;
  if negb ok then mret fd
  else
    let o := cu_index cu * FAT_DIR_ENTRY_WIDTH in
    match en with
    | O =>
        let buf := if sl_last sl then put8 (cu_buf cu) o FAT_DIR_ENTRY_LAST else cu_buf cu in
        _ ← call (fat_write_single_block (u32 (cu_start cu + cu_sector cu)) buf);
        mret fd
    | S en' =>
        '(fd, buf) ← (if (en' =? 0)%nat then
                let buf := put_short short (FAT_ARCHIVE .| (if isfile then 0 else FAT_DIRECTORY)) cluster (cu_buf cu) o in
                fd ← (if isfile then call (fat_open_dir_entry buf (sl_target sl)) else mret fd);
                mret (fd, buf)
              else mret (fd, put_long nn (Z.of_nat en) (name_checksum short) path_off (cu_buf cu) o));
        cu ← advance (with_buf cu buf);
        write_entries en' nn sl short isfile cluster (u32 (path_off - 13)) cu fd
    end.

(** The length of the path is tested after the directory has been searched. *)
Definition too_long (nn : new_name) : bool :=
  if nn_entries nn =? 1 then FAT_MAX_SHORT_PATH <=? nn_max nn
  else (FAT_MAX_LONG_PATH <=? nn_max nn) || (FAT_MAX_LONG_NAME <=? nn_max nn - nn_min nn).

(** The entries are written once there is a place for them. The results are the file descriptor
    and the cluster of the new file; a failure to get one is not tested. *)
Definition add_entries (nn : new_name) (sl : slots) (buf : list Z) (fd : Z) (isfile : bool) : run (Z * Z) :=
  short ← add_tail nn (sl_nums sl);
  s ← get_fs;
  let p := fat_pinfo s in
  let total := nn_max nn - nn_min nn in
  cluster ← call (fun s => let '(_, c, s) := fat_acquire_next_cluster (di_cluster (sl_target sl)) false s in (c, s));
  let path_off := u32 (nn_max nn - (if total mod 13 =? 0 then 13 else total mod 13)) in
  let start := fat_first_sector_of_cluster p (di_cluster (sl_first sl)) in
  buf ← reload (u32 (start + di_sector (sl_first sl))) buf;
  fd ← write_entries (Z.to_nat (nn_entries nn)) nn sl short isfile cluster path_off
         (Cursor (di_cluster (sl_first sl)) start (di_sector (sl_first sl)) (di_index (sl_first sl)) buf) fd;
  mret (fd, cluster).

(** [fat_create]: whether it succeeded, the file descriptor, and the cluster of the new entry. *)
Definition fat_create (fuel : nat) (path : list Z) (se : search) (fd : Z) (isfile : bool) : run (bool * Z * Z) :=
  _ ← set_err OK;
  let '(pmin, pmax) := split_path path in
  '(parent, se) ← parent_dir fuel path pmin se;
  '(fd, cluster) ←
    match parent with
    | None => mret (fd, 0)
    | Some dir =>
        let nn := make_name path pmin pmax in
        '(buf, sl) ← find_slots fuel nn (se_buf se) dir
          (Slots 0 (DirIdx dir 0 0) (DirIdx dir 0 0) (replicate 12 0) false false false);
        ok ← no_error;
        if negb ok then mret (fd, dir)
        else if negb (sl_found sl) then set_err ENOSPC ≫= fun _ => mret (fd, dir)
        else if too_long nn then set_err ENAMETOOLONG ≫= fun _ => mret (fd, dir)
        else add_entries nn sl buf fd isfile
    end;
  ok ← no_error;
  mret (ok, fd, cluster).

(** ** Removing an entry *)

(** The state of the search for the entry of a file: the number of free entries in a row and the
    first of them; the first and the last entry of the file; its cluster; whether the file, an
    entry behind it, or the end of the directory has been found. *)
Record removal := Removal {
  rm_seen : Z;
  rm_empty : FatDirEntryIdx;
  rm_first : FatDirEntryIdx;
  rm_target : FatDirEntryIdx;
  rm_initial : Z;
  rm_found : bool;
  rm_next : bool;
  rm_last : bool
}.

Definition rm_stop (rm : removal) : bool := rm_next rm || rm_last rm.

(** One entry. *)
Definition remove_visit (path : list Z) (pmin pmax : Z) (se : search) (rm : removal) : run (search * removal) := fun s =>
  let first := arr (se_buf se) (di_index (se_idx se) * FAT_DIR_ENTRY_WIDTH) in
  let last := rm_last rm || (FAT_DIR_ENTRY_LAST =? first) in
  if first =? FAT_DIR_ENTRY_FREE then
    let seen := u32 (rm_seen rm + 1) in
    inr ((se, Removal seen (if seen =? 1 then se_idx se else rm_empty rm) (rm_first rm) (rm_target rm)
            (rm_initial rm) (rm_found rm) (rm_next rm) last), s)
  else if negb (rm_found rm) then
    match fat_compare_entry_name path pmin pmax se s with
    | (true, se', s) =>
        inr ((se', Removal (rm_seen rm) (rm_empty rm) (se_idx se) (se_idx se')
                (fat_cluster_of_dir_entry (se_buf se') (di_index (se_idx se'))) true (rm_next rm) last), s)
    | (false, se', s) =>
        inr ((se', Removal 0 (rm_empty rm) (se_idx se) (rm_target rm) (rm_initial rm) false (rm_next rm) last), s)
    end
  else inr ((se, Removal (rm_seen rm) (rm_empty rm) (rm_first rm) (rm_target rm) (rm_initial rm) true true last), s).

(** The loops over the entries of a sector and over the sectors of a cluster; their fuel is the one
    of [scan_entries] and [scan_sectors]. *)
Fixpoint remove_entries (fuel : nat) (path : list Z) (pmin pmax : Z) (se : search) (rm : removal) : run (search * removal) :=
  match fuel with
  | O => mret (se, rm)
  | S fuel =>
      s ← get_fs;
      if di_index (se_idx se) <? bytes_per_sector (fat_pinfo s) / FAT_DIR_ENTRY_WIDTH then
        '(se, rm) ← remove_visit path pmin pmax se rm;
        if rm_stop rm then mret (se, rm)
        else remove_entries fuel path pmin pmax
               (Search (se_buf se) (set_index (se_idx se) (di_index (se_idx se) + 1)) (se_name se)) rm
      else mret (se, rm)
  end.

Fixpoint remove_sectors (fuel : nat) (path : list Z) (pmin pmax : Z) (se : search) (rm : removal) : run (search * removal) :=
  match fuel with
  | O => mret (se, rm)
  | S fuel =>
      s ← get_fs;
      let p := fat_pinfo s in
      let idx := se_idx se in
      if di_sector idx <? sectors_per_cluster p then
        buf ← reload (u32 (fat_first_sector_of_cluster p (di_cluster idx) + di_sector idx)) (se_buf se);
        '(se, rm) ← remove_entries (Z.to_nat (17 * sectors_per_cluster p)) path pmin pmax
                      (Search buf (set_index idx 0) (se_name se)) rm;
        if rm_stop rm then mret (se, rm)
        else remove_sectors fuel path pmin pmax (Search (se_buf se) (next_sector (se_idx se)) (se_name se)) rm
      else mret (se, rm)
  end.

(** The loop over the clusters. *)
Fixpoint remove_search (fuel : nat) (path : list Z) (pmin pmax cluster : Z) (se : search) (rm : removal) : run (search * removal) :=
  match fuel with
  | O => halt Hang
  | S fuel =>
      s ← get_fs;
      '(se, rm) ← remove_sectors (S (Z.to_nat (sectors_per_cluster (fat_pinfo s)))) path pmin pmax
                    (Search (se_buf se) (DirIdx cluster 0 0) (se_name se)) rm;
      if rm_last rm || (rm_found rm && rm_next rm) then mret (se, rm)
      else
        next ← acquire cluster false;
        match next with
        | None => mret (se, rm)
        | Some next => remove_search fuel path pmin pmax next se rm
        end
  end.

(** The loop that marks the entries of a file. *)
Fixpoint mark_entries (fuel : nat) (mark : Z) (target : FatDirEntryIdx) (cu : cursor) : run unit :=
  match fuel with
  | O => halt Hang
  | S fuel =>
      ok ← no_error;
      if negb ok then mret ()
      else
        let buf := fat_set_uint8 mark (cu_buf cu) (cu_index cu * FAT_DIR_ENTRY_WIDTH) in
        if (cu_cluster cu =? di_cluster target) && (cu_sector cu =? di_sector target) && (cu_index cu =? di_index target) then
          call (fat_write_single_block (u32 (cu_start cu + cu_sector cu)) buf) ≫= fun _ => mret ()
        else advance (with_buf cu buf) ≫= mark_entries fuel mark target
  end.

Definition remove_found (fuel : nat) (buf : list Z) (rm : removal) : run unit :=
  s ← get_fs;
  let p := fat_pinfo s in
  if rm_last rm && (0 <? rm_seen rm) then
    let addr := u32 (fat_first_sector_of_cluster p (di_cluster (rm_empty rm)) + di_sector (rm_empty rm)) in
    buf ← reload addr buf;
    call (fat_write_single_block addr (fat_set_uint8 FAT_DIR_ENTRY_LAST buf (di_index (rm_empty rm) * FAT_DIR_ENTRY_WIDTH)))
      ≫= fun _ => mret ()
  else
    let first := rm_first rm in
    let start := fat_first_sector_of_cluster p (di_cluster first) in
    buf ← reload (u32 (start + di_sector first)) buf;
    mark_entries fuel (if rm_last rm then FAT_DIR_ENTRY_LAST else FAT_DIR_ENTRY_FREE) (rm_target rm)
      (Cursor (di_cluster first) start (di_sector first) (di_index first) buf).

(** The entry is looked for in a directory and removed. *)
Definition remove_from (fuel : nat) (path : list Z) (pmin pmax dir : Z) (se : search) : run unit :=
  let none := DirIdx dir 0 0 in
  '(se, rm) ← remove_search fuel path pmin pmax dir se (Removal 0 none none none 0 false false false);
  ok ← no_error;
  if negb ok then mret ()
  else if negb (rm_found rm) then set_err ENOENT
  else
    ok ← (if rm_initial rm =? 0 then mret true else free_clusters fuel (rm_initial rm));
    if ok : bool then remove_found fuel (se_buf se) rm else mret ().

(** [fat_delete]: whether it succeeded. *)
Definition fat_delete (fuel : nat) (path : list Z) (se : search) : run bool :=
  _ ← set_err OK;
  let '(pmin, pmax) := split_path path in
  '(parent, se) ← parent_dir fuel path pmin se;
  _ ← match parent with
      | None => mret ()
      | Some dir => remove_from fuel path pmin pmax dir se
      end;
  no_error.

(** ** The interface

    [se] holds the local buffer and index of the functions, which are not initialised, and the
    global array for long names. *)

Definition O_WRONLY : Z := 0x0001.
Definition O_APPEND : Z := 0x0008.
Definition O_CREAT : Z := 0x0200.
Definition O_TRUNC : Z := 0x0400.
Definition O_EXCL : Z := 0x0800.

Definition flag (oflag bit : Z) : bool := negb (oflag .& bit =? 0).

(** [O_TRUNC]: the clusters behind the first one are freed, and the size is set to 0 in memory and
    in the entry. The result is the size in memory. *)
Definition truncate (fuel : nat) (fd : Z) (f : FatFile) (buf : list Z) (idx : FatDirEntryIdx) : run Z :=
  tv ← call (fat_get_table_value (fat_cluster_of_dir_entry buf (di_index idx)));
  ok ← match tv with
       | None => mret false
       | Some tv =>
           if FAT_TV_BAD tv || FAT_TV_FREE tv then mret false
           else if FAT_TV_LAST tv then mret true else free_clusters fuel tv
       end;
  if ok : bool then
    s ← get_fs;
    _ ← call (fun s => ((), put_file fd (move_file f (f_pos f) (f_current_cluster f) 0) s));
    _ ← call (fat_write_single_block (u32 (di_sector idx + fat_first_sector_of_cluster (fat_pinfo s) (di_cluster idx)))
                (fat_set_uint32 0 buf (28 + di_index idx * FAT_DIR_ENTRY_WIDTH)));
    mret 0
  else mret (f_size f).

(** The entry of the path has been found: the file descriptor and the position to seek to. *)
Definition open_existing (fuel : nat) (oflag : Z) (idx : FatDirEntryIdx) (buf : list Z) : run (Z * Z) :=
  if negb (oflag .& O_CREAT .& O_EXCL =? 0) then set_err EEXIST ≫= fun _ => mret (-1, 0)
  else
    fd ← call (fat_open_dir_entry buf idx);
    if fd <? 0 then set_err EMFILE ≫= fun _ => mret (fd, 0)
    else if negb (FAT_DIRECTORY .& fat_attrib_of_dir_entry buf (di_index idx) =? 0) then set_err EISDIR ≫= fun _ => mret (fd, 0)
    else
      s ← get_fs;
      match fat_open_files s !! Z.to_nat (fd - FAT_FD_OFFSET) with
      | None => halt Undefined
      | Some f =>
          size ← (if flag oflag O_TRUNC then truncate fuel fd f buf idx else mret (f_size f));
          mret (fd, if flag oflag O_APPEND then s32 size else 0)
      end.

(** [fat_open]: the file descriptor, or -1. *)
Definition fat_open (fuel : nat) (path : list Z) (oflag : Z) (se : search) : run Z :=
  s ← get_fs;
  if negb (fat_initialized s) then set_err EPERM ≫= fun _ => mret (-1)
  else
    _ ← set_err OK;
    '(r, se) ← resolve fuel path se;
    '(fd, pos) ←
      match r with
      | Some idx => open_existing fuel oflag idx (se_buf se)
      | None =>
          if flag oflag O_CREAT then '(_, fd, _) ← fat_create fuel path se (-1) true; mret (fd, 0)
          else mret (-1, 0)
      end;
    ok ← no_error;
    _ ← (if ok : bool then call (fat_lseek fd pos SEEK_SET) else mret 0);
    ok ← no_error;
    if negb ok && (0 <? fd) then call (fat_close fd) ≫= fun _ => mret (-1) else mret fd.

Definition fat_creat (fuel : nat) (path : list Z) (se : search) : run Z :=
  s ← get_fs;
  if negb (fat_initialized s) then set_err EPERM ≫= fun _ => mret (-1)
  else fat_open fuel path (O_CREAT .| O_WRONLY .| O_TRUNC) se.

Definition same_entry (idx : FatDirEntryIdx) (f : FatFile) : bool :=
  negb (f_free f) && (di_cluster (f_dir_idx f) =? di_cluster idx) && (di_sector (f_dir_idx f) =? di_sector idx) &&
  (di_index (f_dir_idx f) =? di_index idx).

(** [fat_unlink]: whether it succeeded. *)
Definition fat_unlink (fuel : nat) (path : list Z) (se : search) : run bool :=
  _ ← set_err OK;
  s ← get_fs;
  if negb (fat_initialized s) then set_err EPERM ≫= fun _ => mret false
  else
    '(r, se) ← resolve fuel path se;
    match r with
    | None => mret false
    | Some idx =>
        s ← get_fs;
        if existsb (same_entry idx) (fat_open_files s) then set_err EBUSY ≫= fun _ => mret false
        else fat_delete fuel path se
    end.

Definition fat_mkdir (fuel : nat) (path : list Z) (se : search) : run bool :=
  s ← get_fs;
  if negb (fat_initialized s) then set_err EPERM ≫= fun _ => mret false
  else
    _ ← set_err OK;
    '(r, se) ← resolve fuel path se;
    match r with
    | Some _ => set_err EEXIST ≫= fun _ => no_error
    | None =>
        '(ok, fd, cluster) ← fat_create fuel path se 0 false;
        if negb ok then mret false
        else if negb (fd =? 0) then halt Abort
        else
          s ← get_fs;
          let addr := fat_first_sector_of_cluster (fat_pinfo s) cluster in
          r ← call (fat_read_single_block addr);
          _ ← match r with
              | Some buf => call (fat_write_single_block addr (put8 buf 0 FAT_DIR_ENTRY_LAST)) ≫= fun _ => mret ()
              | None => set_err EIO
              end;
          no_error
    end.

(** The loop of [fat_rmdir] that looks for an entry that is not free: the first byte of the last
    entry it has seen. *)
Fixpoint rmdir_loop (fuel : nat) (cluster start sec ent : Z) (buf : list Z) : run Z :=
  match fuel with
  | O => halt Hang
  | S fuel =>
      s ← get_fs;
      let p := fat_pinfo s in
      let entstat := fat_get_uint8 buf (ent * FAT_DIR_ENTRY_WIDTH) in
      let again cluster start sec ent buf :=
        ok ← no_error;
        if ok && (entstat =? FAT_DIR_ENTRY_FREE) then rmdir_loop fuel cluster start sec ent buf else mret entstat in
      let read cluster start sec :=
        r ← call (fat_read_single_block (u32 (start + sec)));
        match r with
        | None => mret entstat
        | Some buf => again cluster start 0 0 buf
        end in
      let ent := ent + 1 in
      if entries_per_sector p <=? ent then
        let sec := sec + 1 in
        if sectors_per_cluster p <=? sec then
          next ← acquire cluster false;
          match next with
          | None => mret entstat
          | Some next => read next (fat_first_sector_of_cluster p next) 0
          end
        else read cluster start sec
      else again cluster start sec ent buf
  end.

(** [fat_rmdir]; [chksector] is its other local buffer. *)
Definition fat_rmdir (fuel : nat) (path : list Z) (chksector : list Z) (se : search) : run bool :=
  s ← get_fs;
  if negb (fat_initialized s) then set_err EPERM ≫= fun _ => mret false
  else
    _ ← set_err OK;
    '(r, se) ← resolve fuel path se;
    _ ← match r with
        | None => set_err ENOENT
        | Some idx =>
            if fat_attrib_of_dir_entry (se_buf se) (di_index idx) .& FAT_DIRECTORY =? 0 then set_err ENOTDIR
            else
              let cluster := fat_cluster_of_dir_entry (se_buf se) (di_index idx) in
              let start := fat_first_sector_of_cluster (fat_pinfo s) cluster in
              buf ← reload start chksector;
              entstat ← rmdir_loop fuel cluster start 0 0 buf;
              ok ← no_error;
              if ok && negb (entstat =? FAT_DIR_ENTRY_LAST) then set_err ENOTEMPTY
              else if ok : bool then fat_delete fuel path se ≫= fun _ => mret ()
              else mret ()
        end;
    no_error.

(** ** Runs in the monad *)

Lemma bind_inr {A B} (m : run A) (k : A -> run B) s a s' : m s = inr (a, s') -> (m ≫= k) s = k a s'.
Proof. intros E. unfold mbind, run_bind. by rewrite E. Qed.

Lemma bind_halt {A B} (m : run A) (k : A -> run B) s e : m s = inl e -> (m ≫= k) s = inl e.
Proof. intros E. unfold mbind, run_bind. by rewrite E. Qed.

Lemma bind_call {A B} (f : fs -> A * fs) (k : A -> run B) s : (call f ≫= k) s = k (fst (f s)) (snd (f s)).
Proof. unfold mbind, run_bind, call. by destruct (f s). Qed.

Lemma bind_get {B} (k : fs -> run B) s : (get_fs ≫= k) s = k s s.
Proof. done. Qed.

Lemma bind_err {B} e (k : unit -> run B) s : (set_err e ≫= k) s = k () (set_errno e s).
Proof. done. Qed.

Lemma bind_ret {A B} (a : A) (k : A -> run B) s : (mret a ≫= k) s = k a s.
Proof. done. Qed.

Lemma bind_no_error {B} (k : bool -> run B) s : (no_error ≫= k) s = k (bool_decide (errno s = OK)) s.
Proof. done. Qed.

Create Rewrite HintDb runs.
#[export] Hint Rewrite @bind_call @bind_get @bind_err @bind_ret @bind_no_error : runs.

Ltac runs := autorewrite with runs; cbn [fst snd].

(** Runs of an error path. *)
Ltac failing := repeat (runs; rewrite bool_decide_eq_false_2 by done); runs.

(** ** Opening a file that exists *)

(** The position a file is opened at. *)
Definition open_pos (oflag : Z) (data : list Z) : Z := if flag oflag O_APPEND then Z.of_nat (length data) else 0.

(** A seek to the beginning never fails. *)
Lemma lseek_start M fd f cs s a : file_rep M fd f cs s a ->
  exists s' f', fat_lseek fd 0 SEEK_SET s = (0, s') /\ errno s' = OK /\ blocks s' = blocks s /\ fat_pinfo s' = fat_pinfo s /\
    file_rep M fd f' cs s' (AFile (a_data a) 0).
Proof.
  intros R. pose proof R as [H Op C St Cu Po Si Ra Mx In Da Sp Di]. unfold fat_lseek. rewrite Op, Po, Si. cbn zeta.
  zif. cbn [orb]. change (fat_pinfo (set_errno OK s)) with (fat_pinfo s).
  rewrite Z.div_0_l by (rewrite (vol_bps _ (h_vol _ H)); pose proof (bpc_pos s H); unfold bpc in *; rewrite u32_small; lia).
  cbn [Z.to_nat seek_loop]. rewrite <- Si. eexists _, _. split; [done|]. split; [done|]. split; [done|]. split; [done|].
  apply rep_errno, rep_move; [done|lia|].
  by rewrite Z.div_0_l by (pose proof (bpc_pos s H); lia).
Qed.

Lemma lseek_open M fd f cs s data oflag :
  file_rep M fd f cs s (AFile data 0) -> (flag oflag O_APPEND = true -> Z.of_nat (length data) mod bpc s <> 0) ->
  exists s' f', fat_lseek fd (open_pos oflag data) SEEK_SET s = (open_pos oflag data, s') /\ errno s' = OK /\
    blocks s' = blocks s /\ fat_pinfo s' = fat_pinfo s /\ file_rep M fd f' cs s' (AFile data (open_pos oflag data)).
Proof.
  intros R Ha. unfold open_pos. destruct (flag oflag O_APPEND); [|by apply lseek_start with (1 := R)].
  pose proof (r_max _ _ _ _ _ _ R) as Mx. cbn [a_data] in Mx.
  assert (Ok : op_ok (bpc s) M (Seek SEEK_SET (Z.of_nat (length data))) (AFile data 0) = true).
  { cbn [op_ok seek_to a_data]. rewrite (proj2 (Z.eqb_neq (_ mod _) _) (Ha eq_refl)). by zif. }
  destruct (fat_lseek_spec M fd f cs s _ _ _ R Ok) as [[_ E]|(c & E & _ & Hq & Ec)].
  - cbn [a_step seek_to a_data] in E. exfalso. revert E. zif. cbn [orb]. intros [= E]. lia.
  - eexists _, _. split; [exact E|]. split; [done|]. split; [done|]. split; [done|]. by apply rep_errno, rep_move with (a := AFile data 0).
Qed.

Lemma file_entry_errno err M s c e cs : file_entry M s c e cs -> file_entry M (set_errno err s) c e cs.
Proof. intros [H In [] St Sz Mx Sp Dc Us Ot Po]. by split; [apply healthy_errno|..]. Qed.

(** The entry of a regular file is opened. *)
Lemma open_existing_opens M s c e cs i g oflag fuel :
  file_entry M s c e cs -> entry_is_dir (fat_pinfo s) (blocks s) c e = false -> (length (fat_open_files s) = 16)%nat ->
  list_find (fun f => f_free f = true) (fat_open_files s) = Some (i, g) -> flag oflag O_TRUNC = false ->
  exists s' f, open_existing fuel oflag (DirIdx c (e / 16) (e mod 16)) (blocks s (cstart (fat_pinfo s) c + e / 16)) s =
      inr ((Z.of_nat i + 3, open_pos oflag (entry_bytes s c e cs)), s') /\ errno s' = errno s /\
    blocks s' = blocks s /\ fat_pinfo s' = fat_pinfo s /\
    file_rep M (Z.of_nat i + 3) f cs s' (AFile (entry_bytes s c e cs) 0).
Proof.
  intros Fe Nd Ln Fi Tr. destruct (fat_open_dir_entry_opens M s c e cs i g Fe Ln Fi) as (s' & f & E & Eb & R).
  assert (Es : errno s' = errno s /\ fat_pinfo s' = fat_pinfo s).
  { revert E. unfold fat_open_dir_entry. rewrite Fi. by intros [= <-]. }
  exists s', f. split; [|by destruct Es].
  unfold open_existing. rewrite <- Z.land_assoc. change (O_CREAT .& O_EXCL) with 0. rewrite Z.land_0_r. cbn [Z.eqb negb].
  runs. rewrite E. cbn [fst snd]. zif. cbn [di_index]. unfold entry_is_dir in Nd.
  change (fat_attrib_of_dir_entry _ (e mod 16)) with (ebyte (fat_pinfo s) (blocks s) c e 11). rewrite Nd. runs.
  unfold FAT_FD_OFFSET.
  pose proof (r_open _ _ _ _ _ _ R) as Op. unfold open_file in Op.
  destruct (negb (fat_initialized s')); [done|]. destruct ((_ <? _) || _); [done|].
  unfold FAT_FD_OFFSET in Op. destruct (_ !! _) as [f'|]; [|done]. destruct (f_free f'); [done|]. injection Op as ->.
  rewrite Tr. runs. unfold open_pos. destruct (flag oflag O_APPEND); [|done].
  pose proof (r_size _ _ _ _ _ _ R) as Si. pose proof (r_max _ _ _ _ _ _ R) as Mx. cbn [a_data] in *.
  by rewrite Si, s32_small by lia.
Qed.

Lemma only_errno_eq s s' : only_errno s s' -> s' = set_errno (errno s') s.
Proof. done. Qed.

(** [fat_open] of a regular file without truncation. *)
Lemma open_spec M s path ds k c e cs i g oflag fuel se :
  head ds = Some (root_dir_cluster (fat_pinfo s)) -> resolves s path 0 ds k (inr (c, e)) -> (k <= fuel)%nat ->
  file_entry M s c e cs -> entry_is_dir (fat_pinfo s) (blocks s) c e = false -> (length (fat_open_files s) = 16)%nat ->
  list_find (fun f => f_free f = true) (fat_open_files s) = Some (i, g) -> flag oflag O_TRUNC = false ->
  let data := entry_bytes s c e cs in
  (flag oflag O_APPEND = true -> Z.of_nat (length data) mod bpc s <> 0) ->
  exists s' f, fat_open fuel path oflag se s = inr (Z.of_nat i + 3, s') /\ errno s' = OK /\ blocks s' = blocks s /\
    fat_pinfo s' = fat_pinfo s /\ file_rep M (Z.of_nat i + 3) f cs s' (AFile data (open_pos oflag data)).
Proof.
  intros Hd Re Hf Fe Nd Ln Fi Tr data Ha. pose proof (fe_healthy _ _ _ _ _ Fe) as H.
  destruct (resolve_follows s path 0 ds k _ H Re (root_dir_cluster (fat_pinfo s)) fuel se (set_errno OK s) Hd (only_errno_set _ _) Hf)
    as (se' & s1 & Eo & E1 & Ok & Eb).
  unfold fat_open. runs. rewrite (fe_init _ _ _ _ _ Fe). cbn [negb]. runs. unfold resolve. runs. unfold fat_resolve_path.
  change (fat_pinfo (set_errno OK s)) with (fat_pinfo s). rewrite E1. cbn [fst snd]. rewrite Eb.
  rewrite (only_errno_eq _ _ Eo), Ok. clear E1 Eo Ok s1.
  destruct (open_existing_opens M (set_errno OK s) c e cs i g oflag fuel) as (s1 & f1 & E1 & Ok1 & B1 & P1 & R1);
    [by apply file_entry_errno|done..|].
  rewrite (bind_inr _ _ _ _ _ E1). runs. rewrite Ok1. rewrite bool_decide_eq_true_2 by done. runs.
  change (entry_bytes (set_errno OK s) c e cs) with data in *.
  destruct (lseek_open _ _ _ _ _ _ oflag R1) as (s2 & f2 & E2 & Ok2 & B2 & P2 & R2).
  { intros T. unfold bpc. rewrite P1. by apply Ha. }
  rewrite E2. cbn [fst snd]. runs. rewrite Ok2, bool_decide_eq_true_2 by done. cbn [negb andb].
  exists s2, f2. rewrite B2, P2, B1, P1. done.
Qed.

(** A path that leads to the entry [e] in cluster [c] of a regular file with the clusters [cs],
    which may grow up to [M] bytes; [i] is the first file descriptor that is free. *)
Record openable (M : Z) (s : fs) (path : list Z) (fuel : nat) (c e : Z) (cs : list Z) (i : nat) : Prop := {
  op_path : exists ds k, head ds = Some (root_dir_cluster (fat_pinfo s)) /\ resolves s path 0 ds k (inr (c, e)) /\ (k <= fuel)%nat;
  op_entry : file_entry M s c e cs;
  op_file : entry_is_dir (fat_pinfo s) (blocks s) c e = false;
  op_table : (length (fat_open_files s) = 16)%nat;
  op_slot : exists g, list_find (fun f => f_free f = true) (fat_open_files s) = Some (i, g)
}.


(** ** Errors *)

(** A path that leads to an error, or to an entry. *)
Definition leads (s : fs) (path : list Z) (fuel : nat) (r : errno_t + Z * Z) : Prop :=
  exists ds k, head ds = Some (root_dir_cluster (fat_pinfo s)) /\ resolves s path 0 ds k r /\ (k <= fuel)%nat.

Lemma resolve_leads s path fuel r se : healthy s -> leads s path fuel r ->
  exists se', match r with
    | inl e => resolve fuel path se (set_errno OK s) = inr ((None, se'), set_errno e s)
    | inr (c, e) => resolve fuel path se (set_errno OK s) = inr ((Some (DirIdx c (e / 16) (e mod 16)), se'), set_errno OK s) /\
        se_buf se' = blocks s (cstart (fat_pinfo s) c + e / 16)
    end.
Proof.
  intros H (ds & k & Hd & Re & Hf).
  destruct (resolve_follows s path 0 ds k r H Re (root_dir_cluster (fat_pinfo s)) fuel se (set_errno OK s) Hd (only_errno_set _ _) Hf)
    as (se' & s1 & Eo & E1).
  exists se'. unfold resolve, call, fat_resolve_path. change (fat_pinfo (set_errno OK s)) with (fat_pinfo s).
  pose proof (only_errno_eq _ _ Eo) as Es. destruct r as [err|[c e]].
  - destruct E1 as [E1 Er]. by rewrite E1, Es, Er.
  - destruct E1 as (E1 & Er & Eb). by rewrite E1, Es, Er.
Qed.

Lemma resolves_error s path pmin ds k r : resolves s path pmin ds k r -> r <> inl OK.
Proof. induction 1; done. Qed.

(** What a failed [fat_open] leaves: the disk, and the open files but for a free one. *)
Record open_failed (s s' : fs) : Prop := {
  of_blocks : blocks s' = blocks s;
  of_open : filter (fun f => f_free f = false) (fat_open_files s') = filter (fun f => f_free f = false) (fat_open_files s)
}.

Lemma filter_insert_free (l : list FatFile) i f g :
  l !! i = Some g -> f_free g = true -> f_free f = true ->
  filter (fun f => f_free f = false) (<[i := f]> l) = filter (fun f => f_free f = false) l.
Proof.
  intros Hi Hg Hf. rewrite <- (list_insert_id _ _ _ Hi) at 2. pose proof (lookup_lt_Some _ _ _ Hi) as Lt.
  rewrite !insert_take_drop by done. rewrite !filter_app, !filter_cons, Hf, Hg. done.
Qed.

(** [fat_open] with an entry, when no file descriptor is free, and for a directory. *)
Lemma open_existing_full s oflag idx buf fuel :
  Forall (fun f => f_free f = false) (fat_open_files s) ->
  open_existing fuel oflag idx buf s = inr ((-1, 0), set_errno EMFILE s).
Proof.
  intros Fa. assert (E : fat_open_dir_entry buf idx s = (-1, s)).
  { unfold fat_open_dir_entry. assert (list_find (fun f => f_free f = true) (fat_open_files s) = None) as ->; [|done].
    apply list_find_None, (Forall_impl _ _ _ Fa). by intros f ->. }
  unfold open_existing. rewrite <- Z.land_assoc. change (O_CREAT .& O_EXCL) with 0. rewrite Z.land_0_r. cbn [Z.eqb negb].
  runs. by rewrite E.
Qed.

Lemma open_existing_dir s c e oflag fuel :
  (length (fat_open_files s) = 16)%nat -> Exists (fun f => f_free f = true) (fat_open_files s) ->
  entry_is_dir (fat_pinfo s) (blocks s) c e = true ->
  exists i g f, (i < 16)%nat /\ fat_open_files s !! i = Some g /\ f_free g = true /\ f_free f = false /\
    open_existing fuel oflag (DirIdx c (e / 16) (e mod 16)) (blocks s (cstart (fat_pinfo s) c + e / 16)) s =
      inr ((Z.of_nat i + 3, 0), set_errno EISDIR (set_files (<[i := f]> (fat_open_files s)) s)).
Proof.
  intros Ln Ex Di. destruct (list_find (fun f => f_free f = true) (fat_open_files s)) as [[i g]|] eqn:Fi.
  2: { apply list_find_None in Fi. apply Exists_exists in Ex as (f & Hf & Tf). rewrite Forall_forall in Fi. by destruct (Fi f Hf). }
  pose proof (proj1 (list_find_Some _ _ _ _) Fi) as (Ei & Hg & _). pose proof (lookup_lt_Some _ _ _ Ei).
  eexists i, g, _. split; [lia|]. split; [done|]. split; [done|].
  unfold open_existing. rewrite <- Z.land_assoc. change (O_CREAT .& O_EXCL) with 0. rewrite Z.land_0_r. cbn [Z.eqb negb].
  runs. unfold fat_open_dir_entry. rewrite Fi. cbn [fst snd di_index]. unfold FAT_FD_OFFSET. zif.
  unfold entry_is_dir in Di. change (fat_attrib_of_dir_entry _ (e mod 16)) with (ebyte (fat_pinfo s) (blocks s) c e 11).
  rewrite Di. runs. by split; [|reflexivity].
Qed.

(** [fat_close] gives the file descriptor back. *)
Lemma close_fresh s i f g err : fat_initialized s = true -> (length (fat_open_files s) = 16)%nat -> (i < 16)%nat ->
  fat_open_files s !! i = Some g -> f_free g = true -> f_free f = false ->
  let s' := snd (fat_close (Z.of_nat i + 3) (set_errno err (set_files (<[i := f]> (fat_open_files s)) s))) in
  errno s' = OK /\ open_failed s s'.
Proof.
  intros In Ln Hi Eg Hg Hf. unfold fat_close, open_file. cbn [fat_initialized set_errno set_files fat_open_files].
  rewrite In. cbn [negb]. unfold FAT_FD_OFFSET, FAT_MAX_FILES. zif. cbn [orb].
  replace (Z.to_nat (Z.of_nat i + 3 - 3)) with i by lia. rewrite list_lookup_insert_eq by lia. rewrite Hf. cbn [snd].
  split; [done|]. split; [done|]. cbn [set_errno put_file set_files fat_open_files]. unfold FAT_FD_OFFSET.
  replace (Z.to_nat (Z.of_nat i + 3 - 3)) with i by lia. rewrite list_insert_insert_eq. by apply (filter_insert_free _ _ _ g).
Qed.

(** Claim C17. How [fat_open] fails: with the error of the path if there is no entry for it, with
    [EMFILE] if all file descriptors are in use, and on a directory, where [errno] is cleared again
    by [fat_close]. The disk and the open files stay as they are. *)
Theorem fat_open_errors s path fuel oflag se r :
  healthy s -> fat_initialized s = true -> (length (fat_open_files s) = 16)%nat -> leads s path fuel r ->
  flag oflag O_CREAT = false ->
  match r with
  | inl err => exists s', fat_open fuel path oflag se s = inr (-1, s') /\ errno s' = err /\ open_failed s s'
  | inr (c, e) =>
      (Forall (fun f => f_free f = false) (fat_open_files s) ->
        exists s', fat_open fuel path oflag se s = inr (-1, s') /\ errno s' = EMFILE /\ open_failed s s') /\
      (Exists (fun f => f_free f = true) (fat_open_files s) -> entry_is_dir (fat_pinfo s) (blocks s) c e = true ->
        exists s', fat_open fuel path oflag se s = inr (-1, s') /\ errno s' = OK /\ open_failed s s')
  end.
Proof.
  intros H In Ln Le Cr. destruct (resolve_leads s path fuel r se H Le) as (se' & E).
  destruct r as [err|[c e]].
  - assert (Nz : err <> OK) by (destruct Le as (ds & k & _ & Re & _); intros ->; by apply resolves_error in Re).
    exists (set_errno err s). split; [|done]. unfold fat_open. runs. rewrite In. cbn [negb]. runs. rewrite (bind_inr _ _ _ _ _ E).
    rewrite Cr. failing. done.
  - destruct E as [E Eb]. unfold fat_open. runs. rewrite In. cbn [negb]. runs. rewrite (bind_inr _ _ _ _ _ E), Eb. split.
    + intros Fa. exists (set_errno EMFILE s). split; [|done].
      rewrite (bind_inr _ _ _ _ _ (open_existing_full (set_errno OK s) _ _ _ _ Fa)). failing. done.
    + intros Ex Di. destruct (open_existing_dir (set_errno OK s) c e oflag fuel Ln Ex Di) as (i & g & f & Hi & Ei & Hg & Hf & E1).
      rewrite (bind_inr _ _ _ _ _ E1). failing. rewrite (proj2 (Z.ltb_lt _ _)) by lia. cbn [negb andb]. runs.
      eexists. split; [reflexivity|]. 
      destruct (close_fresh (set_errno OK s) i f g EISDIR) as [Ok [Fb Fo]]; [done..|]. by split; [|split].
Qed.

(** ** Examples *)

(** "dir" *)
Definition only_dir : list Z := take 3 dir_path.

(** The buffer and the index of a function at its begin. *)
Definition fresh : search := Search zero_block (DirIdx 0 0 0) (fun _ => 0).

Lemma dir_leads : leads dir_fs dir_path 20 (inr (4, 2)).
Proof. exists [2], 2%nat. split; [done|]. split; [apply dir_resolves|lia]. Qed.

Lemma only_dir_leads : leads dir_fs only_dir 20 (inr (2, 1)).
Proof.
  exists [2], 1%nat. split; [done|]. split; [|lia].
  apply (resolves_last _ _ _ [2]); [by apply dir_directory; left|vm_compute; reflexivity|vm_compute; reflexivity].
Qed.

Lemma dir_space : space dir_fs 2.
Proof.
  split.
  - exists [6; 7]. split; [by apply (bool_decide_unpack _)|]. split; [simpl; lia|].
    repeat constructor; try (cbn; lia); vm_compute; reflexivity.
  - intros x [Hx Tx]. assert (x <> 1) by (intros ->; vm_compute in Tx; discriminate Tx).
    unfold data_cluster, valid_cluster. change (fat_entries (fat_pinfo dir_fs)) with 128 in *.
    change (cluster_begin_addr (fat_pinfo dir_fs)) with 2. change (sectors_per_cluster (fat_pinfo dir_fs)) with 1. lia.
Qed.

Lemma dir_openable : openable 2000 dir_fs dir_path 20 4 2 [3; 5] 1.
Proof.
  split; [by apply dir_leads| |vm_compute; reflexivity|done|by eexists].
  destruct demo_chain as (_ & Nd & _).
  split.
  - apply dir_healthy.
  - reflexivity.
  - split; [vm_compute; split; reflexivity|exact Nd|apply demo_clusters].
  - vm_compute. reflexivity.
  - vm_compute. discriminate.
  - vm_compute. split; [discriminate|reflexivity].
  - apply dir_space.
  - repeat split; by vm_compute.
  - vm_compute. discriminate.
  - rewrite !elem_of_cons, elem_of_nil. lia.
  - vm_compute. split; [discriminate|reflexivity].
Qed.

Lemma dir_bytes : entry_bytes dir_fs 4 2 [3; 5] = a_data demo_file.
Proof. vm_compute. reflexivity. Qed.


Lemma fat_open_errors_witness :
  exists s', fat_open 20 only_dir 0 fresh dir_fs = inr (-1, s') /\ errno s' = OK /\ blocks s' = blocks dir_fs.
Proof.
  destruct (fat_open_errors dir_fs only_dir 20 0 fresh (inr (2, 1)) dir_healthy eq_refl eq_refl only_dir_leads eq_refl) as [_ T].
  destruct T as (s' & E & Ok & [B _]); [right; left; reflexivity|vm_compute; reflexivity|].
  by exists s'.
Defined.
