(* ===== verification/FatRemove.v ===== *)
(** * The FAT32 driver: removing a file

    src/c/libsd/fat32.c, [fat_unlink] and [fat_delete] (see FatOps). What is proved: the entries of
    the file are marked as free, all of a chain of long entries and the short one, and nothing else
    of the directory is changed; the name is gone from the directory, the other names stay; the
    clusters of the file are free. And examples of what goes wrong in the functions that change
    directories. *)

From stdpp Require Import base list numbers sets.
From Stdlib Require Import ZArith Lia.
From S2P Require Import Prelude Fat FatFile FatSpec FatDir FatOps.

Local Open Scope Z_scope.
Local Open Scope c_scope.

(** ** Reads without errors *)

(** A disk without failures, and no error so far: reads leave the state as it is. *)
Definition calm (s : fs) : Prop := healthy s /\ errno s = OK.

Lemma calm_ok s : calm s -> set_errno OK s = s.
Proof. intros [_ E]. rewrite <- E. by destruct s. Qed.

Lemma read_calm a s : calm s -> fat_read_single_block a s = (Some (blocks s a), s).
Proof. intros C. pose proof (calm_ok s C) as E. destruct C as [H _]. by rewrite read_block, E. Qed.

Lemma reload_calm a buf s : calm s -> reload a buf s = inr (blocks s a, s).
Proof. intros C. unfold reload. runs. by rewrite read_calm. Qed.

Lemma long_loop_calm s fuel : calm s -> forall pmax pmin se, snd (long_loop fuel pmax pmin se s) = s.
Proof.
  intros C. induction fuel as [|fuel IH]; intros pmax pmin se; [done|]. cbn [long_loop].
  destruct (di_index (se_idx se) <? _).
  - destruct (negb _); [done|]. destruct (_ =? 1); [|apply IH]. cbn [se_idx set_index di_sector di_index di_cluster].
    destruct (_ <? _); [done|]. destruct (_ <=? _); [done|]. by rewrite read_calm.
  - destruct (_ <=? _); [done|]. rewrite read_calm by done. apply IH.
Qed.

Lemma compare_calm s path pmin pmax se : calm s -> snd (fat_compare_entry_name path pmin pmax se s) = s.
Proof.
  intros C. unfold fat_compare_entry_name, fat_get_long_name_uint8, fat_get_long_name_uint16.
  destruct (_ || _); [done|]. destruct (_ && _); [|done]. destruct (_ || _); [done|].
  set (pm := _ * 13). pose proof (long_loop_calm s (Z.to_nat (17 * sectors_per_cluster (fat_pinfo s))) C pm pm se) as E.
  destruct (long_loop _ _ _ _ _) as [[[x|] se1] s1]; done.
Qed.

(** ** The search as a walk over entries *)

(** The index of an entry. *)
Definition place (c e : Z) : FatDirEntryIdx := DirIdx c (e / 16) (e mod 16).

Section walk.
Context (p : FatPartitionInfo) (m : Z -> list Z) (c : Z) (V : vol_ok p) (D : data_cluster p c).
Context (CO : cluster_ok p m c) (MD : disk_ok m) (path : list Z) (pmin pmax : Z).

Local Abbreviation at_ := (at_entry p m c).

(** What [fat_delete] does with entry [e]: the last entry it looks at, and its new state. *)
Definition visit (e : Z) (rm : removal) : Z * removal :=
  let first := ebyte p m c e 0 in
  let last := rm_last rm || (0 =? first) in
  if first =? 0xE5 then
    let seen := u32 (rm_seen rm + 1) in
    (e, Removal seen (if seen =? 1 then place c e else rm_empty rm) (rm_first rm) (rm_target rm) (rm_initial rm)
          (rm_found rm) (rm_next rm) last)
  else if negb (rm_found rm) then
    match entry_group p m c e with
    | Some (name, e') =>
        if name_matches name path pmin pmax then
          (e', Removal (rm_seen rm) (rm_empty rm) (place c e) (place c e') (entry_cluster p m c e') true (rm_next rm) last)
        else (e', Removal 0 (rm_empty rm) (place c e) (rm_target rm) (rm_initial rm) false (rm_next rm) last)
    | None => (e, Removal 0 (rm_empty rm) (place c e) (rm_target rm) (rm_initial rm) false (rm_next rm) last)
    end
  else (e, Removal (rm_seen rm) (rm_empty rm) (rm_first rm) (rm_target rm) (rm_initial rm) true true last).

(** The walk from entry [e] on, to the end of the cluster or where the search stops. *)
Inductive walks : Z -> removal -> removal -> Prop :=
  | walks_end e rm : cluster_entries p <= e -> walks e rm rm
  | walks_stop e rm : e < cluster_entries p -> rm_stop (snd (visit e rm)) = true -> walks e rm (snd (visit e rm))
  | walks_step e rm rm' : e < cluster_entries p -> rm_stop (snd (visit e rm)) = false ->
      walks (fst (visit e rm) + 1) (snd (visit e rm)) rm' -> walks e rm rm'.

Lemma visit_next e rm : 0 <= e < cluster_entries p -> e <= fst (visit e rm) < cluster_entries p.
Proof.
  intros He. unfold visit. destruct (_ =? 0xE5); [cbn; lia|]. destruct (negb _); [|cbn; lia].
  destruct (entry_group p m c e) as [[name e']|] eqn:G; [|cbn; lia].
  apply (entry_group_next p m c CO) in G; [|done]. destruct (name_matches _ _ _ _); done.
Qed.

(** The place of the entry the search is at. *)
Lemma at_place e se : at_ e se -> di_index (se_idx se) < 16 -> se_idx se = place c e.
Proof.
  intros [Ec Hs Hx -> Hb] Hi. unfold place. destruct (se_idx se) as [a b i]. cbn in *. subst. f_equal; zdm.
Qed.

Lemma remove_visit_spec e se rm s :
  on_disk p m s -> errno s = OK -> at_ e se -> di_index (se_idx se) < 16 ->
  exists se', remove_visit path pmin pmax se rm s = inr ((se', snd (visit e rm)), s) /\
    at_ (fst (visit e rm)) se' /\ di_index (se_idx se') < 16.
Proof.
  intros O Ok A Hi. pose proof (at_entry_byte p m c e se 0 A Hi) as E0. rewrite Z.add_0_r in E0.
  destruct (compare_spec p m c V D CO MD path pmin pmax e se s O A Hi) as (se' & s' & Ec & _ & Hi' & A').
  assert (Es : s' = s) by (pose proof (compare_calm s path pmin pmax se ltac:(by destruct O)) as Es; by rewrite Ec in Es). subst s'.
  unfold remove_visit, visit. rewrite E0. change FAT_DIR_ENTRY_FREE with 0xE5. change FAT_DIR_ENTRY_LAST with 0.
  pose proof (at_place _ _ A Hi) as Ep.
  destruct (_ =? 0xE5); [exists se; by split; [rewrite Ep|]|].
  destruct (rm_found rm); cbn [negb]; [by exists se|]. rewrite Ec.
  destruct (entry_group p m c e) as [[name e']|].
  - destruct (at_entry_attrib _ _ _ _ _ A' Hi') as (_ & Ecl & _). pose proof (at_place _ _ A' Hi') as Ep'.
    exists se'. destruct (name_matches name path pmin pmax); (split; [by rewrite ?Ecl, ?Ep', Ep|done]).
  - exists se'. split; [by rewrite Ep|done].
Qed.

(** The loop over the entries of a sector is part of the walk. *)
Lemma remove_entries_spec rm' s fuel : on_disk p m s -> errno s = OK -> forall e se rm,
  at_ e se -> cluster_entries p - e < Z.of_nat fuel -> rm_stop rm = false -> walks e rm rm' ->
  exists se' rm1, remove_entries fuel path pmin pmax se rm s = inr ((se', rm1), s) /\
    (rm_stop rm1 = true /\ rm1 = rm' \/
     rm_stop rm1 = false /\ exists e', at_ e' se' /\ di_index (se_idx se') = 16 /\ 16 * di_sector (se_idx se) < e' /\ walks e' rm1 rm').
Proof.
  intros O Ok. induction fuel as [|fuel IH]; intros e se rm A Hf St W; [destruct A; unfold cluster_entries in *; lia|].
  cbn [remove_entries]. runs. pose proof O as (_ & P & _). rewrite P, (vol_bps _ V). change (512 / FAT_DIR_ENTRY_WIDTH) with 16.
  pose proof (ae_index _ _ _ _ _ A) as Hi. destruct (Z.ltb_spec (di_index (se_idx se)) 16) as [Hlt|Hge].
  2: { exists se, rm. split; [done|]. right. split; [done|]. exists e. split; [done|]. split; [lia|]. split; [destruct A; lia|done]. }
  assert (He : 0 <= e < cluster_entries p) by (destruct A; unfold cluster_entries; lia).
  destruct (remove_visit_spec e se rm s O Ok A Hlt) as (se1 & E1 & A1 & Hi1).
  rewrite (bind_inr _ _ _ _ _ E1). cbn [fst snd]. inversion W as [|? ? ? Sp|? ? ? ? Sp W']; subst; [lia| |]; rewrite Sp.
  - exists se1, (snd (visit e rm)). split; [done|]. by left.
  - pose proof (visit_next e rm He).
    destruct (IH (fst (visit e rm) + 1) _ (snd (visit e rm))
      (at_step p m c (fst (visit e rm)) se1 (se_name se1) A1 Hi1) ltac:(lia) Sp W') as (se2 & rm2 & E2 & R2).
    exists se2, rm2. split; [done|]. destruct R2 as [R2|(St2 & e2 & A2 & H16 & L2 & W2)]; [by left|].
    right. split; [done|]. exists e2. split; [done|]. split; [done|]. split; [|done].
    cbn [se_idx set_index di_sector] in L2. destruct A, A1. lia.
Qed.

Lemma walks_done e rm rm' : walks e rm rm' -> cluster_entries p <= e -> rm' = rm.
Proof. by intros [] ?; [|lia..]. Qed.

(** The loop over the sectors of a cluster is the walk. *)
Lemma remove_sectors_spec rm' s fuel : on_disk p m s -> errno s = OK -> forall se rm,
  di_cluster (se_idx se) = c -> 0 <= di_sector (se_idx se) <= sectors_per_cluster p ->
  sectors_per_cluster p - di_sector (se_idx se) < Z.of_nat fuel -> rm_stop rm = false ->
  walks (16 * di_sector (se_idx se)) rm rm' ->
  exists se', remove_sectors fuel path pmin pmax se rm s = inr ((se', rm'), s).
Proof.
  intros O Ok. induction fuel as [|fuel IH]; intros se rm Ec Hs Hf St W; [lia|]. cbn [remove_sectors]. runs.
  pose proof O as (H & P & B). rewrite P, Ec.
  destruct (Z.ltb_spec (di_sector (se_idx se)) (sectors_per_cluster p)) as [Hlt|Hge].
  2: { exists se. rewrite (walks_done _ _ _ W); [done|]. unfold cluster_entries. lia. }
  rewrite cluster_address by (done || lia). rewrite (bind_inr _ _ _ _ _ (reload_calm _ _ s (conj H Ok))), B.
  set (se0 := Search (m (cstart p c + di_sector (se_idx se))) (set_index (se_idx se) 0) (se_name se)).
  assert (A0 : at_ (16 * di_sector (se_idx se)) se0) by (split; cbn; done || lia).
  destruct (remove_entries_spec rm' s (Z.to_nat (17 * sectors_per_cluster p)) O Ok _ se0 rm A0)
    as (se1 & rm1 & E1 & R1); [unfold cluster_entries; lia|done|done|].
  rewrite (bind_inr _ _ _ _ _ E1). cbn [fst snd]. destruct R1 as [[St1 ->]|(St1 & e1 & A1 & H16 & L1 & W1)]; rewrite St1.
  - by exists se1.
  - pose proof A1 as [Ec1 Hs1 _ Ep1 _]. apply IH; cbn [se_idx next_sector di_sector di_cluster se0 set_index] in *; [done|lia|lia|done|].
    by replace (16 * (di_sector (se_idx se1) + 1)) with e1 by lia.
Qed.

(** ** Where the walk leads *)

(** From entry [e] to entry [e0] over deleted entries and other names. *)
Inductive passes : Z -> Z -> Prop :=
  | passes_here e : passes e e
  | passes_free e e0 : e < cluster_entries p -> ebyte p m c e 0 = 0xE5 -> passes (e + 1) e0 -> passes e e0
  | passes_name e name e' e0 : 0 <= e < cluster_entries p -> entry_group p m c e = Some (name, e') ->
      name_matches name path pmin pmax = false -> passes (e' + 1) e0 -> passes e e0.

Lemma passes_le e e0 : passes e e0 -> e <= e0.
Proof. induction 1; [lia..|]. apply (entry_group_next p m c CO) in H0; [lia|done]. Qed.

Lemma passes_end e e0 : passes e e0 -> e <= cluster_entries p -> e0 <= cluster_entries p.
Proof. induction 1; [lia|lia|]. apply (entry_group_next p m c CO) in H0; [lia|done]. Qed.

Lemma group_first e name e' : entry_group p m c e = Some (name, e') -> ebyte p m c e 0 <> 0xE5 /\ ebyte p m c e 0 <> 0.
Proof.
  unfold entry_group. destruct (_ || _) eqn:E; [done|]. apply orb_false_iff in E as [E1%Z.eqb_neq E2%Z.eqb_neq]. done.
Qed.

(** The file has not been found yet, nor the end of the directory. *)
Definition searching (rm : removal) : Prop := rm_found rm = false /\ rm_next rm = false /\ rm_last rm = false.

Lemma passes_walks e e0 : passes e e0 -> forall rm, searching rm ->
  exists rm0, searching rm0 /\ (forall rm', walks e0 rm0 rm' -> walks e rm rm') /\
    ((forall x, e <= x < e0 -> ebyte p m c x 0 <> 0xE5) -> rm_seen rm = 0 -> rm_seen rm0 = 0).
Proof.
  induction 1 as [e|e e0 He Hf P IH|e name e' e0 He G N P IH]; intros rm (F & X & L); [by exists rm| |].
  - pose proof (passes_le _ _ P). pose proof (walks_step e rm) as S. unfold visit in S. rewrite Hf, L in S. cbn [Z.eqb orb Pos.eqb fst snd] in S.
    match goal with _ : context [rm_stop ?r] |- _ => destruct (IH r) as (rm0 & S0 & W & _) end; [done|].
    exists rm0. split; [done|]. split; [|intros C; exfalso; by apply (C e); [lia|]].
    intros rm' W'. apply S; [done| |by apply W]. unfold rm_stop. by cbn; rewrite X.
  - pose proof (passes_le _ _ P). destruct (group_first _ _ _ G) as [N1 N2]. pose proof (entry_group_next p m c CO _ _ _ He G).
    pose proof (walks_step e rm) as S. unfold visit in S. rewrite F, L, G, N in S. rewrite (proj2 (Z.eqb_neq _ 0xE5) N1) in S.
    rewrite (proj2 (Z.eqb_neq 0 _)) in S by lia. cbn [orb negb fst snd] in S.
    match goal with _ : context [rm_stop ?r] |- _ => destruct (IH r) as (rm0 & S0 & W & C) end; [done|].
    exists rm0. split; [done|]. split; [|intros Cl _; apply C; [intros x Hx; apply Cl; lia|done]].
    intros rm' W'. apply S; [lia| |by apply W]. unfold rm_stop. by cbn; rewrite X.
Qed.

(** The search for a name, as a walk. *)
Lemma find_passes n : forall e, 0 <= e -> cluster_entries p - e <= Z.of_nat n ->
  match find_name path pmin pmax (cluster_listing p m c e) with
  | Some e1 => (forall x, e <= x < e1 -> ebyte p m c x 0 <> 0) -> exists e0 name,
      passes e e0 /\ entry_group p m c e0 = Some (name, e1) /\ name_matches name path pmin pmax = true /\ 0 <= e0 < cluster_entries p
  | None => (forall x, e <= x < cluster_entries p -> ebyte p m c x 0 <> 0) -> exists e0, passes e e0 /\ cluster_entries p <= e0
  end.
Proof.
  induction n as [|n IH]; intros e He Hn.
  - unfold cluster_listing. replace (Z.to_nat (cluster_entries p - e)) with 0%nat by lia. cbn.
    intros _. exists e. split; [apply passes_here|lia].
  - destruct (Z.le_gt_cases (cluster_entries p) e) as [Hge|Hlt].
    { unfold cluster_listing. replace (Z.to_nat (cluster_entries p - e)) with 0%nat by lia. cbn.
      intros _. exists e. split; [apply passes_here|lia]. }
    rewrite cluster_listing_cons by (done || lia). destruct (entry_group p m c e) as [[name e']|] eqn:G.
    + pose proof (entry_group_next p m c CO _ _ _ (conj He Hlt) G). cbn [find_name].
      destruct (name_matches name path pmin pmax) eqn:N; [intros _; exists e, name; split; [apply passes_here|done]|].
      specialize (IH (e' + 1) ltac:(lia) ltac:(lia)). destruct (find_name _ _ _ _) as [e1|].
      * intros Z. destruct IH as (e0 & nm & P & R); [intros x Hx; apply Z; lia|]. exists e0, nm.
        split; [by apply (passes_name e name e')|done].
      * intros Z. destruct IH as (e0 & P & R); [intros x Hx; apply Z; lia|]. exists e0. split; [by apply (passes_name e name e')|done].
    + assert (Fr : ebyte p m c e 0 <> 0 -> ebyte p m c e 0 = 0xE5).
      { intros Nz. revert G. unfold entry_group. destruct (_ || _) eqn:E; [|by destruct (_ && _)].
        apply orb_true_iff in E as [E%Z.eqb_eq|E%Z.eqb_eq]; done. }
      specialize (IH (e + 1) ltac:(lia) ltac:(lia)). destruct (find_name _ _ _ _) as [e1|] eqn:Fe.
      * intros Z. destruct IH as (e0 & nm & P & G0 & R); [intros x Hx; apply Z; lia|]. exists e0, nm.
        pose proof (passes_le _ _ P). pose proof (entry_group_next p m c CO _ _ _ ltac:(apply R) G0).
        split; [apply passes_free; [done|apply Fr, Z; lia|done]|done].
      * intros Z. destruct IH as (e0 & P & R); [intros x Hx; apply Z; lia|]. exists e0.
        split; [apply passes_free; [done|apply Fr, Z; lia|done]|done].
Qed.

(** The file is found; the walk goes on over deleted entries behind it up to entry [e2]. *)
Definition found_at (e0 e1 : Z) (next last : bool) (seen : Z) (empty : FatDirEntryIdx) : removal :=
  Removal seen empty (place c e0) (place c e1) (entry_cluster p m c e1) true next last.

Lemma walks_free n : forall e e2 rm, e2 - e = Z.of_nat n -> e2 < cluster_entries p ->
  (forall x, e <= x < e2 -> ebyte p m c x 0 = 0xE5) -> ebyte p m c e2 0 <> 0xE5 ->
  rm_found rm = true -> rm_next rm = false -> rm_last rm = false ->
  exists seen empty, walks e rm (Removal seen empty (rm_first rm) (rm_target rm) (rm_initial rm) true true (0 =? ebyte p m c e2 0)) /\
    (e = e2 -> seen = rm_seen rm).
Proof.
  induction n as [|n IH]; intros e e2 rm Hn He Hf N F X L.
  - assert (e = e2) as -> by lia. exists (rm_seen rm), (rm_empty rm). split; [|done].
    pose proof (walks_stop e2 rm He) as S. unfold visit in S. rewrite F, L, (proj2 (Z.eqb_neq _ 0xE5) N) in S.
    cbn [negb orb snd] in S. by apply S.
  - pose proof (walks_step e rm) as S. unfold visit in S. rewrite (Hf e), L in S by lia. cbn [Z.eqb orb Pos.eqb fst snd] in S.
    match goal with _ : context [rm_stop ?r] |- _ => destruct (IH (e + 1) e2 r) as (seen & empty & W & _) end;
      [lia|done|intros x Hx; apply Hf; lia|done..|].
    exists seen, empty. split; [|lia]. apply S; [lia| |done]. unfold rm_stop. by cbn; rewrite X.
Qed.

(** A cluster that has the name: what the walk ends with. *)
Lemma walks_found e1 e2 rm : searching rm ->
  find_name path pmin pmax (cluster_listing p m c 0) = Some e1 -> (forall x, 0 <= x < e1 -> ebyte p m c x 0 <> 0) ->
  e1 < e2 < cluster_entries p -> (forall x, e1 < x < e2 -> ebyte p m c x 0 = 0xE5) -> ebyte p m c e2 0 <> 0xE5 ->
  exists e0 name seen empty, passes 0 e0 /\ entry_group p m c e0 = Some (name, e1) /\ 0 <= e0 <= e1 /\
    walks 0 rm (found_at e0 e1 true (0 =? ebyte p m c e2 0) seen empty) /\
    (e2 = e1 + 1 -> (forall x, 0 <= x < e1 -> ebyte p m c x 0 <> 0xE5) -> rm_seen rm = 0 -> seen = 0).
Proof.
  intros Sr Fn Nz He2 Fr N2. pose proof (find_passes (Z.to_nat (cluster_entries p)) 0 ltac:(lia) ltac:(lia)) as FP.
  rewrite Fn in FP. destruct (FP Nz) as (e0 & name & P & G & Nm & He0). clear FP.
  pose proof (entry_group_next p m c CO _ _ _ He0 G) as Hn. destruct (group_first _ _ _ G) as [N5 N0].
  destruct (passes_walks 0 e0 P rm Sr) as (rm0 & (F & X & L) & W & C).
  pose proof (walks_step e0 rm0) as S. unfold visit in S. rewrite F, L, G, Nm in S. rewrite (proj2 (Z.eqb_neq _ 0xE5) N5) in S.
  rewrite (proj2 (Z.eqb_neq 0 _)) in S by lia. cbn [orb negb fst snd] in S.
  match goal with _ : context [rm_stop ?r] |- _ =>
    destruct (walks_free (Z.to_nat (e2 - (e1 + 1))) (e1 + 1) e2 r) as (seen & empty & W2 & Sn) end;
    [lia|lia|intros x Hx; apply Fr; lia|done..|].
  exists e0, name, seen, empty. split; [done|]. split; [done|]. split; [apply passes_le in P; lia|]. split.
  - apply W, S; [lia| |exact W2]. unfold rm_stop. by cbn; rewrite X.
  - intros E Cl Hs. rewrite Sn by lia. cbn [rm_seen]. apply C; [|done]. intros x Hx. apply Cl. lia.
Qed.

(** A cluster that does not have it. *)
Lemma walks_through rm : searching rm ->
  find_name path pmin pmax (cluster_listing p m c 0) = None -> (forall x, 0 <= x < cluster_entries p -> ebyte p m c x 0 <> 0) ->
  exists rm', searching rm' /\ walks 0 rm rm' /\
    ((forall x, 0 <= x < cluster_entries p -> ebyte p m c x 0 <> 0xE5) -> rm_seen rm = 0 -> rm_seen rm' = 0).
Proof.
  intros Sr Fn Nz. pose proof (find_passes (Z.to_nat (cluster_entries p)) 0 ltac:(lia) ltac:(lia)) as FP.
  rewrite Fn in FP. destruct (FP Nz) as (e0 & P & He0). destruct (passes_walks 0 e0 P rm Sr) as (rm0 & S0 & W & C).
  exists rm0. split; [done|]. split; [by apply W, walks_end|]. intros Cl. apply C.
  apply passes_end in P; [|unfold cluster_entries; pose proof (vol_spc _ V); lia]. intros x Hx. apply Cl. lia.
Qed.
End walk.

(** ** The search through a directory *)

(** All entries in front of the one with the name have a first byte with [Q]. *)
Fixpoint before (Q : Z -> Prop) (p : FatPartitionInfo) (m : Z -> list Z) (path : list Z) (pmin pmax : Z) (ds : list Z) : Prop :=
  match ds with
  | [] => True
  | c :: ds =>
      match find_name path pmin pmax (cluster_listing p m c 0) with
      | Some e => forall x, 0 <= x < e -> Q (ebyte p m c x 0)
      | None => (forall x, 0 <= x < cluster_entries p -> Q (ebyte p m c x 0)) /\ before Q p m path pmin pmax ds
      end
  end.

(** [e2] is the first entry behind [e1] that has not been deleted. *)
Record next_used (p : FatPartitionInfo) (m : Z -> list Z) (c e1 e2 : Z) : Prop := {
  nu_range : e1 < e2 < cluster_entries p;
  nu_free : forall x, e1 < x < e2 -> ebyte p m c x 0 = 0xE5;
  nu_used : ebyte p m c e2 0 <> 0xE5
}.

Lemma acquire_calm c link d s : calm s -> valid_cluster (fat_pinfo s) c -> valid_cluster (fat_pinfo s) d -> ftable s c = d ->
  acquire c link s = inr (Some d, s).
Proof.
  intros C [Hc _] [Hd Hd'] E. pose proof (calm_ok s C) as Es. destruct C as [H _].
  unfold acquire. rewrite acquire_link by (done || lia). by rewrite Es, E.
Qed.

Lemma remove_search_spec s path pmin pmax c e1 e2 fuel ds : calm s -> directory s ds ->
  dir_find (fat_pinfo s) (blocks s) path pmin pmax ds = Some (c, e1) ->
  before (fun b => b <> 0) (fat_pinfo s) (blocks s) path pmin pmax ds -> next_used (fat_pinfo s) (blocks s) c e1 e2 ->
  forall cl se rm, head ds = Some cl -> searching rm -> (length ds <= fuel)%nat ->
  exists e0 name se' seen empty,
    passes (fat_pinfo s) (blocks s) c path pmin pmax 0 e0 /\ entry_group (fat_pinfo s) (blocks s) c e0 = Some (name, e1) /\
    0 <= e0 <= e1 /\ c ∈ ds /\
    remove_search fuel path pmin pmax cl se rm s =
      inr ((se', found_at (fat_pinfo s) (blocks s) c e0 e1 true (0 =? ebyte (fat_pinfo s) (blocks s) c e2 0) seen empty), s) /\
    (e2 = e1 + 1 -> before (fun b => b <> 0xE5) (fat_pinfo s) (blocks s) path pmin pmax ds -> rm_seen rm = 0 -> seen = 0).
Proof.
  intros C. set (p := fat_pinfo s). set (m := blocks s). pose proof C as [H Ok]. pose proof (h_vol _ H : vol_ok p) as V.
  assert (O : on_disk p m s) by done.
  revert fuel. induction ds as [|d ds IH]; intros fuel Dr Fd Bf Nu cl se rm Hd Sr Hf; [done|]. injection Hd as ->.
  destruct fuel as [|fuel]; [cbn in Hf; lia|]. cbn [remove_search]. runs. fold p.
  destruct Dr as [Ch Dd Dk]. apply Forall_cons_1 in Dd as [Dc Dd], Dk as [Okc Dk].
  cbn [dir_find before] in Fd, Bf. fold p m in Dc, Okc.
  assert (St : rm_stop rm = false) by (destruct Sr as (_ & X & L); unfold rm_stop; by rewrite X, L).
  pose proof (vol_spc _ V). destruct (find_name path pmin pmax (cluster_listing p m cl 0)) as [e|] eqn:Fn.
  - injection Fd as -> ->. destruct Nu as [N1 N2 N3].
    destruct (walks_found p m c Okc (h_disk _ H) path pmin pmax e1 e2 rm Sr Fn Bf N1 N2 N3) as (e0 & name & seen & empty & P & G & He & W & Cs).
    exists e0, name. destruct (remove_sectors_spec p m c V Dc Okc (h_disk _ H) path pmin pmax _ s
      (S (Z.to_nat (sectors_per_cluster p))) O Ok (Search (se_buf se) (DirIdx c 0 0) (se_name se)) rm eq_refl ltac:(cbn [se_idx di_sector]; lia) ltac:(cbn [se_idx di_sector]; lia) St W) as [se' E].
    rewrite (bind_inr _ _ _ _ _ E). cbn [found_at rm_found rm_next rm_last]. rewrite orb_true_r. 
    exists se', seen, empty. split; [done|]. split; [done|]. split; [done|]. split; [left|]. split; [done|].
    cbn [before]. by rewrite Fn.
  - destruct Bf as [B0 Bf]. destruct (walks_through p m cl V Okc (h_disk _ H) path pmin pmax rm Sr Fn B0) as (rm' & Sr' & W & Cs).
    destruct (remove_sectors_spec p m cl V Dc Okc (h_disk _ H) path pmin pmax _ s
      (S (Z.to_nat (sectors_per_cluster p))) O Ok (Search (se_buf se) (DirIdx cl 0 0) (se_name se)) rm eq_refl ltac:(cbn [se_idx di_sector]; lia) ltac:(cbn [se_idx di_sector]; lia) St W) as [se' E].
    rewrite (bind_inr _ _ _ _ _ E). pose proof Sr' as (F' & X' & L'). rewrite L', F'. cbn [orb andb].
    destruct ds as [|d ds]; [done|]. destruct Ch as [Tc Ch]. pose proof (Forall_cons_1 _ _ _ Dd) as [Dc' _].
    rewrite (bind_inr _ _ _ _ _ (acquire_calm cl false d s C (proj1 Dc) (proj1 Dc') Tc)).
    destruct (IH fuel (Build_directory s (d :: ds) Ch Dd Dk) Fd Bf Nu d se' rm' eq_refl Sr' ltac:(cbn in *; lia))
      as (e0 & name & se2 & seen & empty & P & G & He & In & E2 & Cs2).
    exists e0, name, se2, seen, empty. split; [done|]. split; [done|]. split; [done|]. split; [by right|]. split; [done|].
    intros E12 B5 Hs. cbn [before] in B5. rewrite Fn in B5. destruct B5 as [B5 B5']. apply Cs2; [done|done|]. by apply Cs.
Qed.

(** ** Marking entries *)

(** The first bytes of the entries from [x] to [y] are set to [mark]; nothing else is changed. *)
Record marked (p : FatPartitionInfo) (m m' : Z -> list Z) (c x y mark : Z) : Prop := {
  mk_bytes : forall e j, 0 <= e < cluster_entries p -> 0 <= j < 32 ->
    ebyte p m' c e j = if (j =? 0) && (x <=? e) && (e <=? y) then mark else ebyte p m c e j;
  mk_other : forall a, (forall j, 0 <= j < sectors_per_cluster p -> a <> cstart p c + j) -> m' a = m a
}.

Lemma marked_one p m c x mark buf :
  0 <= x < cluster_entries p -> 0 <= mark < 256 -> block_ok buf ->
  marked p (put_block m (cstart p c + x / 16) buf)
    (put_block m (cstart p c + x / 16) (fat_set_uint8 mark buf (x mod 16 * 32))) c x x mark.
Proof.
  intros Hx Hm B. split.
  - intros e j He Hj. unfold ebyte, put_block. destruct (Z.eqb_spec (cstart p c + e / 16) (cstart p c + x / 16)) as [E|N].
    + unfold fat_set_uint8. rewrite arr_put8 by (done || zdm). rewrite u8_small by done.
      destruct (Z.eqb_spec (e mod 16 * 32 + j) (x mod 16 * 32)) as [E2|N2].
      * assert (j = 0 /\ e = x) as [-> ->] by zdm. by zif.
      * destruct ((j =? 0) && (x <=? e) && (e <=? x)) eqn:T; [|done].
        apply andb_true_iff in T as [[->%Z.eqb_eq T1%Z.leb_le]%andb_true_iff T2%Z.leb_le]. assert (e = x) as -> by lia. lia.
    + destruct ((j =? 0) && (x <=? e) && (e <=? x)) eqn:T; [|done].
      apply andb_true_iff in T as [[_ T1%Z.leb_le]%andb_true_iff T2%Z.leb_le]. assert (e = x) as -> by lia. lia.
  - intros a Na. assert (0 <= x / 16 < sectors_per_cluster p) by (unfold cluster_entries in Hx; zdm).
    by rewrite !put_block_ne by (apply Na; lia).
Qed.

Lemma marked_step p v v1 v1' m' c x y mark : marked p v v1 c x x mark -> (forall a, v1' a = v1 a) ->
  marked p v1' m' c (x + 1) y mark -> x <= y -> marked p v m' c x y mark.
Proof.
  intros [B1 O1] E [B2 O2] L. split.
  - intros e j He Hj. rewrite B2 by done. assert (ebyte p v1' c e j = ebyte p v1 c e j) as -> by (unfold ebyte; by rewrite E).
    rewrite B1 by done. destruct (Z.eqb_spec j 0); cbn [andb]; [|done].
    destruct (Z.leb_spec (x + 1) e), (Z.leb_spec e y), (Z.leb_spec x e), (Z.leb_spec e x); cbn [andb]; try done; lia.
  - intros a Na. by rewrite O2, E, O1.
Qed.

(** The loop is at entry [x]. *)
Record cursor_at (p : FatPartitionInfo) (c x : Z) (cu : cursor) : Prop := {
  ca_cluster : cu_cluster cu = c;
  ca_start : cu_start cu = fat_first_sector_of_cluster p c;
  ca_sector : cu_sector cu = x / 16;
  ca_index : cu_index cu = x mod 16;
  ca_buf : block_ok (cu_buf cu)
}.

(** The disk with the buffer of the loop in it. *)
Definition buffered (p : FatPartitionInfo) (s : fs) (c x : Z) (cu : cursor) : Z -> list Z :=
  put_block (blocks s) (cstart p c + x / 16) (cu_buf cu).

(** The rest of the driver's state stays as it is. *)
Record same_driver (s s' : fs) : Prop := {
  sd_pinfo : fat_pinfo s' = fat_pinfo s;
  sd_files : fat_open_files s' = fat_open_files s;
  sd_init : fat_initialized s' = fat_initialized s
}.

#[export] Instance same_driver_preorder : PreOrder same_driver.
Proof. split; [done|]. intros s1 s2 s3 [P1 F1 I1] [P2 F2 I2]. split; by rewrite ?P2, ?F2, ?I2. Qed.

Lemma write_calm a buf s : calm s -> block_ok buf ->
  fat_write_single_block a buf s = (true, with_block a buf s) /\ calm (with_block a buf s) /\ same_driver s (with_block a buf s).
Proof. intros [H _] B. rewrite write_block by done. split; [done|]. split; [|done]. split; [by apply healthy_block|done]. Qed.

(** One step of the loop within the cluster. *)
Lemma advance_spec p s c x cu : calm s -> fat_pinfo s = p -> data_cluster p c -> 0 <= x -> x + 1 < cluster_entries p -> cursor_at p c x cu ->
  exists cu' s', advance cu s = inr (cu', s') /\ calm s' /\ same_driver s s' /\ cursor_at p c (x + 1) cu' /\
    forall a, buffered p s' c (x + 1) cu' a = buffered p s c x cu a.
Proof.
  intros C P D Hx Hy [Ec Es Et Ei B]. pose proof C as [H _]. pose proof (h_vol _ H) as V. rewrite P in V.
  unfold cluster_entries in Hy. unfold advance. runs. rewrite P, (vol_bps _ V), Ei, Es, Et. change (512 / FAT_DIR_ENTRY_WIDTH) with 16.
  destruct (Z.leb_spec 16 (x mod 16 + 1)) as [Hge|Hlt].
  - assert (Hq : (x + 1) / 16 = x / 16 + 1 /\ (x + 1) mod 16 = 0) by zdm. destruct Hq as [Hq Hr].
    rewrite cluster_address by (done || zdm). runs. destruct (write_calm (cstart p c + x / 16) (cu_buf cu) s C B) as (Ew & C' & S').
    rewrite Ew. cbn [fst snd]. rewrite (proj2 (Z.leb_gt _ _)) by zdm. runs. rewrite cluster_address by (done || zdm).
    rewrite (bind_inr _ _ _ _ _ (reload_calm _ _ _ C')). eexists _, _. split; [reflexivity|]. split; [done|]. split; [done|]. split.
    + split; cbn; rewrite ?Hq, ?Hr; try done. apply C'.
    + intros a. unfold buffered. cbn [cu_buf blocks with_block]. rewrite Hq. unfold put_block at 1.
      by destruct (Z.eqb_spec a (cstart p c + (x / 16 + 1))) as [->|].
  - assert (Hq : (x + 1) / 16 = x / 16 /\ (x + 1) mod 16 = x mod 16 + 1) by zdm. destruct Hq as [Hq Hr].
    eexists _, _. split; [reflexivity|]. split; [done|]. split; [done|]. split.
    + by split; cbn; rewrite ?Hq, ?Hr.
    + intros a. unfold buffered. by rewrite Hq.
Qed.

Lemma mark_entries_spec p c y mark n : data_cluster p c -> 0 <= mark < 256 -> y < cluster_entries p -> forall fuel x s cu,
  calm s -> fat_pinfo s = p -> 0 <= x -> y - x = Z.of_nat n -> (n < fuel)%nat -> cursor_at p c x cu ->
  exists s', mark_entries fuel mark (place c y) cu s = inr ((), s') /\ calm s' /\ same_driver s s' /\
    marked p (buffered p s c x cu) (blocks s') c x y mark.
Proof.
  intros D Hm Hy. induction n as [|n IH]; intros fuel x s cu C P Hx Hn Hf A; (destruct fuel as [|fuel]; [lia|]);
    cbn [mark_entries]; runs; rewrite bool_decide_eq_true_2 by apply C; cbn [negb place di_cluster di_sector di_index];
    pose proof A as [Ec Es Et Ei B]; rewrite Ec, Et, Ei, Z.eqb_refl; change FAT_DIR_ENTRY_WIDTH with 32;
    set (buf := fat_set_uint8 mark (cu_buf cu) (x mod 16 * 32)); assert (B' : block_ok buf) by (by apply put8_ok);
    pose proof (marked_one p (blocks s) c x mark (cu_buf cu) ltac:(lia) Hm B) as M1.
  - assert (y = x) as -> by lia. rewrite !Z.eqb_refl. cbn [andb]. runs. pose proof C as [H _]. pose proof (h_vol _ H) as V. rewrite P in V.
    rewrite Es, cluster_address by (done || unfold cluster_entries in Hy; zdm).
    destruct (write_calm (cstart p c + x / 16) buf s C B') as (Ew & C' & S'). rewrite Ew. eexists. split; [reflexivity|]. done.
  - assert ((x / 16 =? y / 16) && (x mod 16 =? y mod 16) = false) as T.
    { apply andb_false_iff. destruct (Z.eqb_spec (x / 16) (y / 16)); [right|by left]. apply Z.eqb_neq. zdm. }
    cbn [andb]. rewrite T.
    assert (A' : cursor_at p c x (with_buf cu buf)) by (by split).
    destruct (advance_spec p s c x (with_buf cu buf) C P D Hx ltac:(lia) A') as (cu2 & s2 & E2 & C2 & S2 & A2 & F2).
    rewrite (bind_inr _ _ _ _ _ E2).
    destruct (IH fuel (x + 1) s2 cu2 C2 ltac:(by rewrite (sd_pinfo _ _ S2)) ltac:(lia) ltac:(lia) ltac:(lia) A2) as (s3 & E3 & C3 & S3 & M3).
    exists s3. split; [done|]. split; [done|]. split; [by etrans|].
    by apply (marked_step p _ _ _ _ c x y mark M1 F2 M3); lia.
Qed.

(** ** The directory without the file *)

Lemma length_block buf : block_ok buf -> length buf = 512%nat.
Proof. by intros []. Qed.

(** Two blocks that agree on the bytes of a string. *)
Lemma get_string_ext b b' o n : block_ok b -> block_ok b' -> 0 <= o -> o + n <= 512 ->
  (forall i, o <= i < o + n -> arr b' i = arr b i) -> fat_get_string b' o n = fat_get_string b o n.
Proof.
  intros B B' Ho Hn E. pose proof (length_block _ B). pose proof (length_block _ B'). unfold fat_get_string. apply list_eq. intros i.
  destruct (decide (i < Z.to_nat n)%nat); [|by rewrite !lookup_take_ge by lia].
  rewrite !lookup_take_lt, !lookup_drop by done. rewrite !lookup_arr by lia. f_equal. apply E. lia.
Qed.

Lemma filter_all {A} (P : A -> Prop) `{!forall x, Decision (P x)} l : Forall P l -> filter P l = l.
Proof. induction 1; [done|]. rewrite filter_cons_True by done. by f_equal. Qed.

Lemma long_offset_range i : 0 <= i < 13 -> 1 <= arr long_offsets i < 32.
Proof.
  intros Hi. assert (F : forallb (fun i => (1 <=? arr long_offsets (Z.of_nat i)) && (arr long_offsets (Z.of_nat i) <? 32)) (seq 0 13) = true)
    by (vm_compute; reflexivity).
  rewrite forallb_forall in F. specialize (F (Z.to_nat i) ltac:(apply in_seq; lia)).
  rewrite Z2Nat.id in F by lia. apply andb_true_iff in F as [F1%Z.leb_le F2%Z.ltb_lt]. lia.
Qed.

Section removed.
Context (p : FatPartitionInfo) (m m' : Z -> list Z) (c e0 e1 mark : Z).
Context (MD : disk_ok m) (MD' : disk_ok m') (CO : cluster_ok p m c).
Context (MK : forall e j, 0 <= e < cluster_entries p -> 0 <= j < 32 ->
  ebyte p m' c e j = if (j =? 0) && (e0 <=? e) && (e <=? e1) then mark else ebyte p m c e j).
Context (Hmark : mark = 0xE5 \/ mark = 0) (H0 : 0 <= e0) (H1 : e1 < cluster_entries p).

(** The entries of the file are free. *)
Lemma group_removed x : e0 <= x <= e1 -> entry_group p m' c x = None.
Proof.
  intros Hx. unfold entry_group. rewrite MK by lia. zif. by destruct Hmark as [-> | ->].
Qed.

(** Other names are as before. *)
Lemma group_kept x : 0 <= x < cluster_entries p -> ~ (e0 <= x <= e1) -> entry_group p m' c x = entry_group p m c x.
Proof.
  intros Hx N.
  assert (E : forall j, 0 <= j < 32 -> ebyte p m' c x j = ebyte p m c x j).
  { intros j Hj. rewrite MK by lia.
    destruct (Z.leb_spec e0 x), (Z.leb_spec x e1); rewrite ?andb_false_r; done || lia. }
  unfold entry_group. rewrite !E by lia. destruct (_ || _) eqn:Ef; [done|]. destruct (_ && _) eqn:El.
  - apply andb_true_iff in El as [Ea%Z.eqb_eq Eb%negb_true_iff%Z.eqb_neq]. apply orb_false_iff in Ef as [Ef1%Z.eqb_neq _].
    pose proof (CO x Hx Ea Eb Ef1) as [Hn _ Hs _ _]. do 2 f_equal. unfold long_chars. apply map_ext_in. intros j Hj%in_seq.
    set (n := ebyte p m c x 0 .^ 0x40) in *. assert (0 <= Z.of_nat j / 13 < n) by zdm.
    assert (Hm : 0 <= Z.of_nat j mod 13 < 13) by zdm.
    pose proof (long_offset_range _ Hm).
    rewrite MK by lia. by zif.
  - do 2 f_equal. unfold short_name. set (o := x mod 16 * 32).
    rewrite (get_string_ext (m (cstart p c + x / 16)) (m' (cstart p c + x / 16)) o 11); [done|done|done|unfold o; zdm|unfold o; zdm|].
    intros i Hi. replace i with (o + (i - o)) by lia. apply E. lia.
Qed.

Lemma listing_kept n : forall x, 0 <= x -> (x > e1) -> cluster_entries p - x <= Z.of_nat n ->
  cluster_listing p m' c x = cluster_listing p m c x /\ Forall (fun g => snd g <> e1) (cluster_listing p m c x).
Proof.
  induction n as [|n IH]; intros x Hx H Hn.
  - unfold cluster_listing. replace (Z.to_nat (cluster_entries p - x)) with 0%nat by lia. done.
  - destruct (Z.le_gt_cases (cluster_entries p) x).
    { unfold cluster_listing. replace (Z.to_nat (cluster_entries p - x)) with 0%nat by lia. done. }
    rewrite (cluster_listing_cons p m' c MD'), (cluster_listing_cons p m c MD), group_kept by (done || lia).
    destruct (entry_group p m c x) as [[name x']|] eqn:G; [|apply IH; lia].
    pose proof (entry_group_ge p m c MD _ _ _ G). destruct (IH (x' + 1)) as [E F]; [lia..|]. rewrite E. split; [done|].
    apply Forall_cons. cbn [snd]. split; [lia|done].
Qed.

Lemma listing_removed n : forall x, e0 <= x -> x <= e1 + 1 -> e1 + 1 - x <= Z.of_nat n ->
  cluster_listing p m' c x = cluster_listing p m' c (e1 + 1).
Proof.
  induction n as [|n IH]; intros x Hx H Hn; [f_equal; lia|]. destruct (Z.eq_dec x (e1 + 1)) as [->|]; [done|].
  rewrite cluster_listing_cons, group_removed by (done || lia). apply IH; lia.
Qed.

(** The listing of the cluster loses this name and keeps the others. *)
Lemma listing_without path pmin pmax name x :
  entry_group p m c e0 = Some (name, e1) -> passes p m c path pmin pmax x e0 -> 0 <= x ->
  cluster_listing p m' c x = filter (fun g => snd g <> e1) (cluster_listing p m c x).
Proof.
  intros G P. pose proof (entry_group_ge p m c MD _ _ _ G) as Hle.
  remember e0 as ee eqn:Ee in P. induction P as [x|x y Hx Hf P IH|x nm x' y Hx Gx Nm P IH]; intros Hx0; subst.
  - rewrite (listing_removed (Z.to_nat (e1 + 1 - e0))) by lia.
    rewrite (cluster_listing_cons p m c MD e0), G by lia. rewrite filter_cons_False by (cbn; tauto).
    destruct (listing_kept (Z.to_nat (cluster_entries p)) (e1 + 1) ltac:(lia) ltac:(lia) ltac:(lia)) as [-> F].
    symmetry. by apply filter_all.
  - pose proof (passes_le p m c CO path pmin pmax _ _ P). rewrite (cluster_listing_cons p m' c MD'), (cluster_listing_cons p m c MD), group_kept by (done || lia).
    assert (entry_group p m c x = None) as -> by (unfold entry_group; by rewrite Hf). apply IH; [done|lia].
  - pose proof (passes_le p m c CO path pmin pmax _ _ P). pose proof (entry_group_ge p m c MD _ _ _ Gx).
    rewrite (cluster_listing_cons p m' c MD'), (cluster_listing_cons p m c MD), group_kept by (done || lia). rewrite Gx. rewrite filter_cons_True by (cbn; lia).
    f_equal. apply IH; [done|lia].
Qed.
End removed.

(** ** [fat_delete] and [fat_unlink] *)

(** The entry, from the loops that free its clusters on. *)
Lemma remove_found_spec s c e0 e1 last seen empty initial fuel buf :
  calm s -> data_cluster (fat_pinfo s) c -> 0 <= e0 <= e1 -> e1 < cluster_entries (fat_pinfo s) ->
  e1 - e0 < Z.of_nat fuel -> (last = true -> seen = 0) ->
  exists s', remove_found fuel buf (Removal seen empty (place c e0) (place c e1) initial true true last) s = inr ((), s') /\
    calm s' /\ same_driver s s' /\ marked (fat_pinfo s) (blocks s) (blocks s') c e0 e1 (if last then 0 else 0xE5).
Proof.
  intros C D He H1 Hf Hs. pose proof C as [H _]. pose proof (h_vol _ H) as V. unfold remove_found. runs.
  cbn [rm_last rm_seen rm_first rm_target place di_cluster di_sector di_index].
  assert (last && (0 <? seen) = false) as -> by (destruct last; [by rewrite Hs|done]).
  assert (0 <= e0 / 16 < sectors_per_cluster (fat_pinfo s)) by (unfold cluster_entries in H1; zdm).
  rewrite cluster_address by done. rewrite (bind_inr _ _ _ _ _ (reload_calm _ _ s C)).
  set (cu := Cursor _ _ _ _ _).
  destruct (mark_entries_spec (fat_pinfo s) c e1 (if last then 0 else 0xE5) (Z.to_nat (e1 - e0)) D) with (fuel := fuel) (x := e0) (s := s) (cu := cu)
    as (s' & E & C' & S' & [M1 M2]); [by destruct last|done|done|done|lia|lia|lia|by split; try apply H|].
  exists s'. split; [by destruct last|]. split; [done|]. split; [done|].
  assert (B : forall a, buffered (fat_pinfo s) s c e0 cu a = blocks s a).
  { intros a. unfold buffered, put_block. cbn [cu_buf cu]. by destruct (Z.eqb_spec a (cstart (fat_pinfo s) c + e0 / 16)) as [->|]. }
  split.
  - intros e j Hj Hj'. rewrite M1 by done. unfold ebyte. by rewrite B.
  - intros a Ha. by rewrite M2, B.
Qed.

(** The clusters of the file, if it has any. *)
Definition file_chain (s : fs) (c e : Z) (cs : list Z) : Prop :=
  match cs with
  | [] => entry_cluster (fat_pinfo s) (blocks s) c e = 0
  | c0 :: _ => entry_cluster (fat_pinfo s) (blocks s) c e = c0 /\ chain (ftable s) cs /\ NoDup cs /\
      Forall (valid_cluster (fat_pinfo s)) cs
  end.

Lemma free_file_chain s c e cs fuel : calm s -> file_chain s c e cs -> (length cs <= fuel)%nat ->
  exists s', (if entry_cluster (fat_pinfo s) (blocks s) c e =? 0 then mret true
     else free_clusters fuel (entry_cluster (fat_pinfo s) (blocks s) c e)) s = inr (true, s') /\ calm s' /\ only_table s s' /\
    forall x, 0 <= x -> ftable s' x = if bool_decide (x ∈ cs) then 0 else ftable s x.
Proof.
  intros C Fc Hf. pose proof C as [H Ok]. destruct cs as [|c0 cs].
  - cbn in Fc. rewrite Fc. exists s. split; [done|]. split; [done|]. split; [done|]. intros x _.
    rewrite bool_decide_eq_false_2 by set_solver. done.
  - destruct Fc as (-> & Ch & Nd & Va). pose proof (Forall_cons_1 _ _ _ Va) as [[? _] _]. rewrite (proj2 (Z.eqb_neq c0 0)) by lia.
    destruct (free_chain_spec fuel cs c0 (set_errno OK s) (healthy_errno _ _ H) eq_refl Ch Nd Va ltac:(cbn in *; lia))
      as (s' & E & H' & [O1 O2 O3 O4] & Eo & T).
    exists s'. unfold free_clusters, fat_free_cluster_chain. rewrite E, Eo. done.
Qed.

(** The directory that the path in front of the last part leads to. *)
Definition parent_of (s : fs) (path : list Z) (pmin : Z) (fuel : nat) (ds : list Z) : Prop :=
  if pmin =? 0 then head ds = Some (root_dir_cluster (fat_pinfo s))
  else exists c e, leads s (take (Z.to_nat pmin - 1) path) fuel (inr (c, e)) /\
    head ds = Some (entry_cluster (fat_pinfo s) (blocks s) c e).

Lemma parent_dir_spec s path pmin fuel ds se : calm s -> parent_of s path pmin fuel ds ->
  exists se', parent_dir fuel path pmin se s = inr ((head ds, se'), s).
Proof.
  intros C Pa. pose proof C as [H _]. unfold parent_dir, parent_of in *. runs.
  destruct (pmin =? 0); [rewrite Pa; by exists se|]. destruct Pa as (c & e & Le & ->).
  destruct (resolve_leads s _ fuel _ se H Le) as (se' & E & Eb). rewrite (calm_ok s C) in E.
  rewrite (bind_inr _ _ _ _ _ E), Eb. by exists se'.
Qed.

(** What [fat_delete] can remove: the path leads to entry [e1] of cluster [c] in the directory
    [ds], whose end is not in front of it; [e2] is the next entry that has not been deleted, in the
    same cluster; if it is the end of the directory, no entry in front of it has been deleted; the
    clusters of the file are [cs], and they hold none of the directory. *)
Record removable (s : fs) (path : list Z) (fuel : nat) (ds : list Z) (c e1 e2 : Z) (cs : list Z) : Prop := {
  rv_parent : parent_of s path (fst (split_path path)) fuel ds;
  rv_dir : directory s ds;
  rv_find : dir_find (fat_pinfo s) (blocks s) path (fst (split_path path)) (snd (split_path path)) ds = Some (c, e1);
  rv_live : before (fun b => b <> 0) (fat_pinfo s) (blocks s) path (fst (split_path path)) (snd (split_path path)) ds;
  rv_next : next_used (fat_pinfo s) (blocks s) c e1 e2;
  rv_end : ebyte (fat_pinfo s) (blocks s) c e2 0 = 0 -> e2 = e1 + 1 /\
    before (fun b => b <> 0xE5) (fat_pinfo s) (blocks s) path (fst (split_path path)) (snd (split_path path)) ds;
  rv_chain : file_chain s c e1 cs;
  rv_fuel : (length ds <= fuel /\ length cs <= fuel /\ 20 <= fuel)%nat
}.

(** What is left. *)
Record without (s s' : fs) (c e1 e2 : Z) (cs : list Z) : Prop := {
  wo_calm : calm s';
  wo_driver : same_driver s s';
  wo_listing : cluster_listing (fat_pinfo s) (blocks s') c 0 =
    filter (fun g => snd g <> e1) (cluster_listing (fat_pinfo s) (blocks s) c 0);
  wo_end : ebyte (fat_pinfo s) (blocks s) c e2 0 <> 0 -> forall e, 0 <= e < cluster_entries (fat_pinfo s) ->
    ebyte (fat_pinfo s) (blocks s') c e 0 = 0 -> ebyte (fat_pinfo s) (blocks s) c e 0 = 0;
  wo_table : forall x, 0 <= x < fat_entries (fat_pinfo s) -> ftable s' x = if bool_decide (x ∈ cs) then 0 else ftable s x;
  wo_blocks : forall d j, data_cluster (fat_pinfo s) d -> d <> c -> 0 <= j < sectors_per_cluster (fat_pinfo s) ->
    blocks s' (cstart (fat_pinfo s) d + j) = blocks s (cstart (fat_pinfo s) d + j)
}.

Lemma group_length p m c e name e' : cluster_ok p m c -> 0 <= e < cluster_entries p -> entry_group p m c e = Some (name, e') -> e' - e <= 19.
Proof.
  intros CO He. unfold entry_group. destruct (_ || _) eqn:Ef; [done|]. destruct (_ && _) eqn:El; [|intros [= _ <-]; lia].
  apply andb_true_iff in El as [Ea%Z.eqb_eq Eb%negb_true_iff%Z.eqb_neq]. apply orb_false_iff in Ef as [Ef1%Z.eqb_neq _].
  intros [= _ <-]. destruct (CO e He Ea Eb Ef1) as [Hn _ _ _ _]. lia.
Qed.

(** The blocks of the clusters are behind the table. *)
Lemma cluster_block_other p d j : vol_ok p -> data_cluster p d -> 0 <= j -> fat_begin_addr p + sectors_per_fat p <= cstart p d + j.
Proof.
  intros V [[[? _] _] _] Hj. pose proof (vol_fat _ V). pose proof (vol_spc _ V). unfold cstart.
  assert (0 <= (d - 2) * sectors_per_cluster p) by nia. lia.
Qed.

Lemma clusters_disjoint p c d i j : vol_ok p -> c <> d -> 0 <= i < sectors_per_cluster p -> 0 <= j < sectors_per_cluster p ->
  cstart p c + i <> cstart p d + j.
Proof. intros V N Hi Hj E. unfold cstart in E. apply N. nia. Qed.

(** The table is not in a cluster. *)
Lemma table_outside p m m' c x : vol_ok p -> data_cluster p c -> 0 <= x < fat_entries p ->
  (forall a, (forall j, 0 <= j < sectors_per_cluster p -> a <> cstart p c + j) -> m' a = m a) -> table p m' x = table p m x.
Proof.
  intros V D Hx O. unfold table. rewrite O; [done|]. intros j Hj E. pose proof (cluster_block_other p c j V D ltac:(lia)).
  unfold fat_entries in Hx. assert (x / 128 < sectors_per_fat p) by (apply Z.div_lt_upper_bound; lia). lia.
Qed.

(** The directory after the clusters have been freed and the entries been marked. *)
Lemma without_intro s s1 s2 c e0 e1 e2 name cs path pmin pmax mark :
  calm s -> calm s1 -> calm s2 -> data_cluster (fat_pinfo s) c -> cluster_ok (fat_pinfo s) (blocks s) c ->
  passes (fat_pinfo s) (blocks s) c path pmin pmax 0 e0 -> entry_group (fat_pinfo s) (blocks s) c e0 = Some (name, e1) ->
  0 <= e0 -> e1 < cluster_entries (fat_pinfo s) -> mark = 0xE5 \/ mark = 0 ->
  (ebyte (fat_pinfo s) (blocks s) c e2 0 <> 0 -> mark = 0xE5) -> only_table s s1 -> (forall x, 0 <= x -> ftable s1 x = if bool_decide (x ∈ cs) then 0 else ftable s x) ->
  same_driver s1 s2 -> marked (fat_pinfo s) (blocks s1) (blocks s2) c e0 e1 mark -> without s s2 c e1 e2 cs.
Proof.
  intros C C1 C2 D CO P G H0 H1 Hm He2 [OB OP OF OI] T Sd M. pose proof C as [H _]. pose proof (h_vol _ H) as V.
  assert (Eb : forall d j, data_cluster (fat_pinfo s) d -> 0 <= j -> blocks s1 (cstart (fat_pinfo s) d + j) = blocks s (cstart (fat_pinfo s) d + j)).
  { intros d j Dd Hj. apply OB. right. by apply cluster_block_other. }
  assert (M' : forall e j, 0 <= e < cluster_entries (fat_pinfo s) -> 0 <= j < 32 ->
    ebyte (fat_pinfo s) (blocks s2) c e j = if (j =? 0) && (e0 <=? e) && (e <=? e1) then mark else ebyte (fat_pinfo s) (blocks s) c e j).
  { intros e j He Hj. rewrite (mk_bytes _ _ _ _ _ _ _ M) by done. unfold ebyte. rewrite Eb; [done|done|]. zdm. }
  split; [done| | | | |].
  - etrans; [|exact Sd]. by split.
  - by apply (listing_without _ _ _ _ e0 e1 mark (h_disk _ H) (h_disk _ (proj1 C2)) CO M' Hm H0 H1 path pmin pmax name 0).
  - intros N e He. rewrite M' by lia. rewrite (He2 N). by destruct (_ && _).
  - intros x Hx. rewrite <- T by lia. unfold ftable. rewrite (sd_pinfo _ _ Sd), OP.
    by apply (table_outside _ _ _ c); [..|apply M].
  - intros d j Dd N Hj. rewrite (mk_other _ _ _ _ _ _ _ M); [apply Eb; [done|lia]|].
    intros i Hi. apply not_eq_sym. by apply clusters_disjoint.
Qed.

(** The search, the clusters and the entries of the file. *)
Lemma remove_from_spec s path pmin pmax fuel ds dir c e1 e2 cs se :
  calm s -> directory s ds -> head ds = Some dir -> dir_find (fat_pinfo s) (blocks s) path pmin pmax ds = Some (c, e1) ->
  before (fun b => b <> 0) (fat_pinfo s) (blocks s) path pmin pmax ds -> next_used (fat_pinfo s) (blocks s) c e1 e2 ->
  (ebyte (fat_pinfo s) (blocks s) c e2 0 = 0 -> e2 = e1 + 1 /\
    before (fun b => b <> 0xE5) (fat_pinfo s) (blocks s) path pmin pmax ds) ->
  file_chain s c e1 cs -> (length ds <= fuel /\ length cs <= fuel /\ 20 <= fuel)%nat ->
  exists s', remove_from fuel path pmin pmax dir se s = inr ((), s') /\ without s s' c e1 e2 cs.
Proof.
  intros C Dr Hd Fd Lv Nu En Fc (F1 & F2 & F3). pose proof C as [H Ok].
  destruct (remove_search_spec s path pmin pmax c e1 e2 fuel ds C Dr Fd Lv Nu dir se
    (Removal 0 (DirIdx dir 0 0) (DirIdx dir 0 0) (DirIdx dir 0 0) 0 false false false) Hd ltac:(done) F1)
    as (e0 & name & se2 & seen & empty & P & G & He & In & E2 & Cs).
  pose proof (nu_range _ _ _ _ _ Nu) as Hr. destruct Dr as [_ D1 D2]. rewrite Forall_forall in D1, D2.
  pose proof (D1 c In) as D. pose proof (D2 c In) as CO. pose proof (group_length _ _ _ e0 _ _ CO ltac:(lia) G) as Hl.
  destruct (free_file_chain s c e1 cs fuel C Fc F2) as (s1 & E3 & C1 & OT & T). pose proof (ot_pinfo _ _ OT) as P1.
  destruct (remove_found_spec s1 c e0 e1 (0 =? ebyte (fat_pinfo s) (blocks s) c e2 0) seen empty
    (entry_cluster (fat_pinfo s) (blocks s) c e1) fuel (se_buf se2) C1) as (s2 & E4 & C2 & S2 & M); [by rewrite P1|lia|rewrite P1; lia|lia| |].
  { intros Z0%Z.eqb_eq. destruct (En ltac:(lia)) as [-> B5]. by apply Cs. }
  exists s2. split.
  - unfold remove_from. rewrite (bind_inr _ _ _ _ _ E2). runs. rewrite Ok, bool_decide_eq_true_2 by done.
    cbn [negb found_at rm_found rm_initial]. by rewrite (bind_inr _ _ _ _ _ E3).
  - rewrite P1 in M. apply (without_intro s s1 s2 c e0 e1 e2 name cs path pmin pmax (if 0 =? ebyte (fat_pinfo s) (blocks s) c e2 0 then 0 else 0xE5)); try done; [lia|lia| |].
    + by destruct (0 =? _); [right|left].
    + intros N. rewrite (proj2 (Z.eqb_neq 0 _)); [done|]. by apply not_eq_sym.
Qed.

(** [fat_delete] removes the entry. *)
Lemma fat_delete_spec s path fuel ds c e1 e2 cs se :
  calm s -> removable s path fuel ds c e1 e2 cs ->
  exists s', fat_delete fuel path se s = inr (true, s') /\ without s s' c e1 e2 cs.
Proof.
  intros C [Pa Dr Fd Lv Nu En Fc Fu]. unfold fat_delete. runs. rewrite (calm_ok s C).
  destruct (split_path path) as [pmin pmax]. cbn [fst snd] in *.
  destruct (parent_dir_spec s path pmin fuel ds se C Pa) as [se1 E1]. rewrite (bind_inr _ _ _ _ _ E1).
  destruct ds as [|dir ds]; [done|]. cbn [head].
  destruct (remove_from_spec s path pmin pmax fuel (dir :: ds) dir c e1 e2 cs se1 C Dr eq_refl Fd Lv Nu En Fc Fu) as (s' & E & W).
  rewrite (bind_inr _ _ _ _ _ E). exists s'. split; [|done]. unfold no_error. by rewrite bool_decide_eq_true_2 by apply W.
Qed.

(** Claim C14. [fat_unlink] removes a file that is not open, whatever [errno] was before: its name is
    gone from the listing of the directory and all other names are still there, in their order;
    the directory does not end earlier, unless the file was its last one; exactly the clusters of the
    file are freed; the blocks of all other clusters stay as they are. This is so for files that are
    [removable]: the entries of the directory are well-formed, and none in front of the file's is
    an end marker; behind the file's short entry there is, after any deleted ones, another entry of
    the same cluster, and if it is the end marker it follows at once and no entry in front of the
    file has been deleted; the clusters of the file are a chain. Of a file that is the last of its
    directory with a deleted entry behind it the clusters are freed but the name stays
    ([fat_delete_keeps_entry]). *)
Theorem fat_unlink_removes s err path fuel ds c e1 e2 cs se :
  calm s -> fat_initialized s = true -> leads s path fuel (inr (c, e1)) ->
  existsb (same_entry (place c e1)) (fat_open_files s) = false ->
  removable s path fuel ds c e1 e2 cs ->
  exists s', fat_unlink fuel path se (set_errno err s) = inr (true, s') /\ without s s' c e1 e2 cs.
Proof.
  intros C In Le Op Rv. pose proof C as [H Ok]. destruct (resolve_leads s path fuel _ se H Le) as (se1 & E1 & _).
  unfold fat_unlink. runs. change (set_errno OK (set_errno err s)) with (set_errno OK s). rewrite (calm_ok s C) in *.
  rewrite In. cbn [negb]. rewrite (bind_inr _ _ _ _ _ E1). runs.
  change (DirIdx c (e1 / 16) (e1 mod 16)) with (place c e1). rewrite Op.
  by apply fat_delete_spec with (ds := ds) (e2 := e2).
Qed.

(** [fat_unlink] refuses to remove a file that is open, with [EBUSY]; and a path that leads
    to an error fails with this error. Nothing is changed. *)
Theorem fat_unlink_errors s err path fuel se r :
  calm s -> fat_initialized s = true -> leads s path fuel r ->
  match r with
  | inl e => fat_unlink fuel path se (set_errno err s) = inr (false, set_errno e s)
  | inr (c, e) => Exists (fun f => f_free f = false /\ f_dir_idx f = place c e) (fat_open_files s) ->
      fat_unlink fuel path se (set_errno err s) = inr (false, set_errno EBUSY s)
  end.
Proof.
  intros C In Le. pose proof C as [H Ok]. destruct (resolve_leads s path fuel _ se H Le) as (se1 & E1).
  rewrite (calm_ok s C) in E1. unfold fat_unlink.
  destruct r as [e|[c e]].
  - runs. change (set_errno OK (set_errno err s)) with (set_errno OK s). rewrite (calm_ok s C), In. cbn [negb]. by rewrite (bind_inr _ _ _ _ _ E1).
  - intros Ex. destruct E1 as [E1 _]. runs. change (set_errno OK (set_errno err s)) with (set_errno OK s).
    rewrite (calm_ok s C), In. cbn [negb]. rewrite (bind_inr _ _ _ _ _ E1). runs.
    assert (existsb (same_entry (DirIdx c (e / 16) (e mod 16))) (fat_open_files s) = true) as ->; [|done].
    apply existsb_exists. apply Exists_exists in Ex as (f & Hf & Nf & Ef). exists f. split; [by apply list_elem_of_In|].
    unfold same_entry. rewrite Nf, Ef. cbn. by rewrite !Z.eqb_refl.
Qed.

(** ** [fat_rmdir] *)

Section rmdir.
Context (s : fs) (cl : Z) (C : calm s) (D : data_cluster (fat_pinfo s) cl) (Spc : 2 <= sectors_per_cluster (fat_pinfo s)).
Context (Eps : entries_per_sector (fat_pinfo s) = 16).
Context (Free : forall x, 0 <= x < 32 -> ebyte (fat_pinfo s) (blocks s) cl x 0 = 0xE5).

Local Abbreviation start := (fat_first_sector_of_cluster (fat_pinfo s) cl).

(** A step to the next sector, which is always the second one: the number of the sector is set to 0
    behind every read. *)
Lemma rmdir_step fuel sec ent : sec = 0 \/ sec = 1 -> 0 <= ent < 16 ->
  rmdir_loop (S fuel) cl start 0 ent (blocks s (cstart (fat_pinfo s) cl + sec)) s =
    if 16 <=? ent + 1 then rmdir_loop fuel cl start 0 0 (blocks s (cstart (fat_pinfo s) cl + 1)) s
    else rmdir_loop fuel cl start 0 (ent + 1) (blocks s (cstart (fat_pinfo s) cl + sec)) s.
Proof.
  intros Hs He. pose proof C as [H Ok]. pose proof (h_vol _ H) as V. cbn [rmdir_loop]. runs. rewrite Eps.
  assert (fat_get_uint8 (blocks s (cstart (fat_pinfo s) cl + sec)) (ent * FAT_DIR_ENTRY_WIDTH) = 0xE5) as ->.
  { unfold fat_get_uint8, FAT_DIR_ENTRY_WIDTH. pose proof (Free (16 * sec + ent) ltac:(lia)) as F. unfold ebyte in F.
    replace ((16 * sec + ent) / 16) with sec in F by zdm. replace ((16 * sec + ent) mod 16) with ent in F by zdm.
    by rewrite Z.add_0_r in F. }
  destruct (16 <=? ent + 1).
  - rewrite (proj2 (Z.leb_gt _ _)) by lia. change (0 + 1) with 1. rewrite cluster_address by (done || lia). runs.
    rewrite read_calm by done. cbn [fst snd]. runs. rewrite Ok, bool_decide_eq_true_2 by done. done.
  - runs. rewrite Ok, bool_decide_eq_true_2 by done. done.
Qed.

Lemma rmdir_loop_hangs fuel : forall sec ent, sec = 0 \/ sec = 1 -> 0 <= ent < 16 ->
  rmdir_loop fuel cl start 0 ent (blocks s (cstart (fat_pinfo s) cl + sec)) s = inl Hang.
Proof.
  induction fuel as [|fuel IH]; intros sec ent Hs He; [done|]. rewrite rmdir_step by done.
  destruct (Z.leb_spec 16 (ent + 1)); apply IH; lia.
Qed.
End rmdir.

(** Claim C39. [fat_rmdir] does not end for a directory whose first two sectors hold deleted entries
    only: the number of the sector is reset behind every read, so the second sector is read again
    and again. *)
Theorem fat_rmdir_hangs s err path fuel c e chk se :
  calm s -> fat_initialized s = true -> leads s path fuel (inr (c, e)) ->
  entry_is_dir (fat_pinfo s) (blocks s) c e = true ->
  data_cluster (fat_pinfo s) (entry_cluster (fat_pinfo s) (blocks s) c e) ->
  2 <= sectors_per_cluster (fat_pinfo s) -> entries_per_sector (fat_pinfo s) = 16 ->
  (forall x, 0 <= x < 32 -> ebyte (fat_pinfo s) (blocks s) (entry_cluster (fat_pinfo s) (blocks s) c e) x 0 = 0xE5) ->
  fat_rmdir fuel path chk se (set_errno err s) = inl Hang.
Proof.
  intros C In Le Di D Spc Eps Free. pose proof C as [H Ok]. pose proof (h_vol _ H) as V.
  destruct (resolve_leads s path fuel _ se H Le) as (se1 & E1 & Eb). rewrite (calm_ok s C) in E1.
  unfold fat_rmdir. runs. change (fat_initialized (set_errno err s)) with (fat_initialized s). rewrite In. cbn [negb]. runs.
  change (set_errno OK (set_errno err s)) with (set_errno OK s). rewrite (calm_ok s C).
  rewrite (bind_inr _ _ _ _ _ E1), Eb. cbn [di_index].
  change (fat_attrib_of_dir_entry _ (e mod 16)) with (ebyte (fat_pinfo s) (blocks s) c e 11).
  unfold entry_is_dir in Di. rewrite Z.land_comm in Di. apply negb_true_iff in Di. rewrite Di.
  change (fat_cluster_of_dir_entry _ (e mod 16)) with (entry_cluster (fat_pinfo s) (blocks s) c e).
  set (cl := entry_cluster (fat_pinfo s) (blocks s) c e) in *.
  change (fat_pinfo (set_errno err s)) with (fat_pinfo s).
  pose proof (cluster_address (fat_pinfo s) cl 0 V D ltac:(lia)) as Ea.
  rewrite Z.add_0_r, u32_small in Ea by apply u32_range.
  pose proof (rmdir_loop_hangs s cl C D Spc Eps Free fuel 0 0 ltac:(lia) ltac:(lia)) as R. rewrite <- Ea in R.
  apply bind_halt. rewrite (bind_inr _ _ _ _ _ (reload_calm _ _ s C)). by apply bind_halt.
Qed.

(** ** Examples *)

Lemma dir_calm : calm dir_fs.
Proof. split; [apply dir_healthy|done]. Qed.

Lemma dir_removable : removable dir_fs dir_path 20 [4] 4 2 3 [3; 5].
Proof.
  split.
  - change (fst (split_path dir_path)) with 4. exists 2, 1. split; [apply only_dir_leads|vm_compute; reflexivity].
  - by apply dir_directory; right.
  - vm_compute. reflexivity.
  - change (fst (split_path dir_path)) with 4. change (snd (split_path dir_path)) with 22. cbn [before].
    assert (find_name dir_path 4 22 (cluster_listing (fat_pinfo dir_fs) (blocks dir_fs) 4 0) = Some 2) as -> by (vm_compute; reflexivity).
    intros x Hx. assert (x = 0 \/ x = 1) as [-> | ->] by lia; vm_compute; discriminate.
  - split; [vm_compute; split; reflexivity|intros x Hx; lia|vm_compute; discriminate].
  - intros _. split; [done|]. change (fst (split_path dir_path)) with 4. change (snd (split_path dir_path)) with 22. cbn [before].
    assert (find_name dir_path 4 22 (cluster_listing (fat_pinfo dir_fs) (blocks dir_fs) 4 0) = Some 2) as -> by (vm_compute; reflexivity).
    intros x Hx. assert (x = 0 \/ x = 1) as [-> | ->] by lia; vm_compute; discriminate.
  - destruct demo_chain as (_ & Nd & Va). split; [vm_compute; reflexivity|]. split; [vm_compute; split; reflexivity|]. split; [exact Nd|exact Va].
  - cbn. lia.
Qed.

Lemma fat_unlink_removes_witness :
  exists s', fat_unlink 20 dir_path fresh (set_errno EIO dir_fs) = inr (true, s') /\
    cluster_listing demo_pinfo (blocks s') 4 0 = [] /\ ftable s' 3 = 0 /\ ftable s' 5 = 0.
Proof.
  destruct (fat_unlink_removes dir_fs EIO dir_path 20 [4] 4 2 3 [3; 5] fresh dir_calm eq_refl dir_leads
    ltac:(vm_compute; reflexivity) dir_removable) as (s' & E & W).
  exists s'. split; [exact E|]. destruct W as [_ _ L _ T _].
  split; [etransitivity; [exact L|vm_compute; reflexivity]|].
  split; (etransitivity; [apply T; vm_compute; split; [discriminate|reflexivity]|vm_compute; reflexivity]).
Defined.

(** A volume with two sectors in a cluster: the root directory has the directory "D", which holds
    deleted entries only. *)
Definition free_block : list Z := concat (replicate 16 (0xE5 :: replicate 31 0)).

Definition hang_pinfo : FatPartitionInfo := Pinfo 0 512 2 1 1 0 0 0 1 2 1 2 16 2.

Definition hang_fs : fs :=
  Fs (fun a => if a =? 1 then demo_table else if a =? 2 then dir_block [short_entry (68 :: replicate 10 32) 0x10 3 0]
               else if (a =? 4) || (a =? 5) then free_block else zero_block)
    [] OK hang_pinfo (replicate 16 (File true 0 (DirIdx 0 0 0) 0 0 0)) true.

Lemma hang_calm : calm hang_fs.
Proof.
  split; [|done]. split; [split; cbn; lia|done|]. intros a. cbn [blocks hang_fs].
  repeat (destruct (_ =? _); [apply block_okb_ok; vm_compute; reflexivity|]). apply block_okb_ok. vm_compute. reflexivity.
Qed.

(** "d" *)
Lemma hang_leads : leads hang_fs [100] 4 (inr (2, 0)).
Proof.
  exists [2], 1%nat. split; [done|]. split; [|lia]. apply (resolves_last _ _ _ [2]); [|vm_compute; reflexivity|vm_compute; reflexivity].
  split; [vm_compute; reflexivity| |]; apply Forall_singleton; [repeat split; by vm_compute|].
  apply (dir_cluster_ok _ _ 2 []); [vm_compute; reflexivity|by intros e []].
Qed.

Lemma fat_rmdir_hangs_witness : fat_rmdir 1000 [100] zero_block fresh (set_errno EIO hang_fs) = inl Hang.
Proof.
  apply (fat_rmdir_hangs hang_fs EIO [100] 1000 2 0); try done; [apply hang_calm| |].
  - destruct hang_leads as (ds & k & Hd & Re & Hk). exists ds, k. split; [done|]. split; [done|]. lia.
  - intros x Hx. assert (F : forallb (fun i => ebyte hang_pinfo (blocks hang_fs) 3 (Z.of_nat i) 0 =? 0xE5) (seq 0 32) = true)
      by (vm_compute; reflexivity).
    rewrite forallb_forall in F. specialize (F (Z.to_nat x) ltac:(apply in_seq; lia)). rewrite Z2Nat.id in F by lia.
    by apply Z.eqb_eq in F.
Defined.

(** ** What goes wrong *)

(** [O_TRUNC] frees the clusters of a file behind the first one, but the entry of the first one in
    the table still leads to them. A file that is created then gets one of these clusters, and
    writes to the old file end up in the new one. *)
Definition truncate_and_create : run (option (list Z)) :=
  a ← fat_open 20 dir_path O_TRUNC fresh;
  b ← fat_open 20 [110; 101; 119] O_CREAT fresh;
  _ ← call (fat_write b [1; 2; 3]);
  _ ← call (fat_write a (replicate 600 7));
  _ ← call (fat_lseek b 0 SEEK_SET);
  call (fat_read b 3).

Theorem fat_truncate_dangles :
  match fat_open 20 dir_path O_TRUNC fresh dir_fs with
  | inr (fd, s) => fd = 4 /\ errno s = OK /\ ftable s 3 = 5 /\ ftable s 5 = 0
  | inl _ => False
  end /\
  match truncate_and_create dir_fs with inr (out, _) => out = Some [7; 7; 7] | inl _ => False end.
Proof. split; vm_compute; repeat split; reflexivity. Qed.

(** A file that is created in the place of a deleted one destroys the entry behind it, when the end
    of the directory is in the same cluster. *)
Theorem fat_create_destroys_next :
  (exists s, fat_open 20 dir_path 0 fresh dir_fs = inr (4, s)) /\
  match (_ ← fat_open 20 [110; 101; 119] O_CREAT fresh; fat_open 20 dir_path 0 fresh) dir_fs with
  | inr (fd, s) => fd = -1 /\ errno s = ENOENT
  | inl _ => False
  end.
Proof. split; [eexists|]; vm_compute; [reflexivity|split; reflexivity]. Qed.

(** A directory with two clusters: a new file gets the second one as its own. *)
Definition two_clusters : fs :=
  Fs (put_block (blocks dir_fs) 1 (fat_set_uint32 6 (fat_set_uint32 0x0FFFFFFF (blocks dir_fs 1) 24) 8)) [] OK demo_pinfo
    (fat_open_files dir_fs) true.

Theorem fat_create_shares_cluster :
  chain (ftable two_clusters) [2; 6] /\
  match fat_open 20 [110; 101; 119] O_CREAT fresh two_clusters with
  | inr (fd, s) => option_map f_start_cluster (nth_error (fat_open_files s) (Z.to_nat (fd - 3))) = Some 6
  | inl _ => False
  end.
Proof. split; vm_compute; [split; reflexivity|reflexivity]. Qed.

(** The last file of a directory, with a deleted entry behind it: its clusters are freed, but the
    file is still there. *)
Definition trailing_free : fs :=
  Fs (put_block (blocks demo_fs) 2 (dir_block [short_entry (65 :: replicate 10 32) 0x20 3 600; 0xE5 :: replicate 31 0])) [] OK
    demo_pinfo (map free_file (fat_open_files demo_fs)) true.

Theorem fat_delete_keeps_entry :
  match fat_unlink 20 [97] fresh trailing_free with
  | inr (ok, s) => ok = true /\ ftable s 3 = 0 /\ ftable s 5 = 0 /\ cluster_listing demo_pinfo (blocks s) 2 0 = [([65], 0)]
  | inl _ => False
  end.
Proof. vm_compute. repeat split; reflexivity. Qed.
