(* ===== verification/FatCreate.v ===== *)
(** * The FAT32 driver: creating a file

    src/c/libsd/fat32.c, [fat_create] for a new file with a short name (see FatOps), behind the
    last entry of a directory. What is proved: the new name is the last one in the listing of the
    directory, and matches the path; the file that is opened is empty, with a cluster of its own,
    and is written and read as a sequence of bytes. *)

From stdpp Require Import base list numbers sets.
From Stdlib Require Import ZArith Lia.
From S2P Require Import Prelude Fat FatFile FatSpec FatDir FatOps FatRemove.

Local Open Scope Z_scope.
Local Open Scope c_scope.

(** ** The search for a place *)

(** An entry that is in use and does not have the short name of the new file. *)
Record used (p : FatPartitionInfo) (m : Z -> list Z) (nn : new_name) (c x : Z) : Prop := {
  us_live : ebyte p m c x 0 <> 0;
  us_kept : ebyte p m c x 0 <> 0xE5;
  us_name : ebyte p m c x 11 <> 0x0F ->
    fst (compare_short 11 (nn_short nn) (m (cstart p c + x / 16)) (x mod 16 * 32) 0 []) <> 11
}.

(** The end of the directory is entry [e] of cluster [c], the last of its clusters: all entries in
    front of it are in use, all behind it are not, and there is one more. *)
Fixpoint room (p : FatPartitionInfo) (m : Z -> list Z) (nn : new_name) (c e : Z) (ds : list Z) : Prop :=
  match ds with
  | [] => False
  | [d] => d = c /\ 0 <= e /\ e + 1 < cluster_entries p /\ (forall x, 0 <= x < e -> used p m nn d x) /\
      (forall x, e <= x < cluster_entries p -> ebyte p m d x 0 = 0)
  | d :: ds => (forall x, 0 <= x < cluster_entries p -> used p m nn d x) /\ room p m nn c e ds
  end.

Lemma compare_short_fst n short buf o : forall k nums nums',
  fst (compare_short n short buf o k nums) = fst (compare_short n short buf o k nums').
Proof. induction n as [|n IH]; intros k nums nums'; [done|]. cbn [compare_short]. destruct (_ =? _); [apply IH|done]. Qed.

Section search.
Context (p : FatPartitionInfo) (m : Z -> list Z) (nn : new_name) (d e : Z) (V : vol_ok p) (D : data_cluster p d).
Context (One : nn_entries nn = 1) (He : 0 <= e).
Context (Used : forall x, 0 <= x < e -> x < cluster_entries p -> used p m nn d x).
Context (End : forall x, e <= x < cluster_entries p -> ebyte p m d x 0 = 0).

(** The state of the search in front of entry [x]. *)
Definition seeking (sl : slots) : Prop := sl_seen sl = 0 /\ sl_done sl = false /\ sl_last sl = false /\ sl_found sl = false.

Definition has_slot (sl : slots) : Prop :=
  sl_first sl = place d e /\ sl_target sl = place d e /\ sl_done sl = false /\ sl_last sl = true /\ sl_found sl = true.

Definition search_at (x : Z) (sl : slots) : Prop := if x <=? e then seeking sl else has_slot sl.

Lemma visit_entry_spec i j sl : 0 <= i < sectors_per_cluster p -> 0 <= j < 16 -> search_at (16 * i + j) sl ->
  snd (visit_entry nn (m (cstart p d + i)) (DirIdx d i j) sl) = false /\
  search_at (16 * i + j + 1) (fst (visit_entry nn (m (cstart p d + i)) (DirIdx d i j) sl)).
Proof.
  intros Hi Hj S. set (x := 16 * i + j) in *. assert (Hx : 0 <= x < cluster_entries p) by (unfold cluster_entries, x; lia).
  assert (Ei : x / 16 = i /\ x mod 16 = j) by (unfold x; zdm). destruct Ei as [Ei Ej].
  assert (Eb : forall k, arr (m (cstart p d + i)) (j * FAT_DIR_ENTRY_WIDTH + k) = ebyte p m d x k) by (intros k; unfold ebyte; by rewrite Ei, Ej).
  pose proof (Eb 0) as E0. rewrite Z.add_0_r in E0. unfold visit_entry, search_at in *. cbn [di_index]. rewrite E0, Eb.
  change FAT_DIR_ENTRY_LAST with 0. change FAT_DIR_ENTRY_FREE with 0xE5. change FAT_LONG_NAME_ENTRY with 0x0F.
  destruct (Z.leb_spec x e).
  - destruct S as (S1 & S2 & S3 & S4). rewrite S1, S2, S3, S4, One. destruct (Z.eq_dec x e) as [->|N].
    + rewrite (End e) by lia. cbn. zif. split; [done|]. unfold has_slot, place. by rewrite Ei, Ej.
    + destruct (Used x) as [U1 U2 U3]; [lia|lia|]. rewrite (proj2 (Z.eqb_neq 0 _)) by lia.
      rewrite (proj2 (Z.eqb_neq _ 0xE5)) by done. cbn [orb]. rewrite (proj2 (Z.leb_le (x + 1) e)) by lia.
      destruct (Z.eqb_spec (ebyte p m d x 11) 0x0F) as [|N11]; cbn [negb]; [done|].
      specialize (U3 N11). rewrite Ei, Ej in U3. change 32 with FAT_DIR_ENTRY_WIDTH in U3.
      rewrite (compare_short_fst _ _ _ _ _ _ (<[0%nat:=u32 (arr (sl_nums sl) 0 + 1)]> (sl_nums sl))) in U3.
      destruct (compare_short _ _ _ _ _ _) as [k nums]. cbn [fst snd] in *. by rewrite (proj2 (Z.eqb_neq k 11)).
  - destruct S as (S1 & S2 & S3 & S4 & S5). rewrite S1, S2, S3, S4, S5. cbn [orb]. rewrite (proj2 (Z.leb_gt (x + 1) e)) by lia. done.
Qed.

Lemma visit_entries_spec s i n : 0 <= i < sectors_per_cluster p -> forall j sl, 0 <= j -> j + Z.of_nat n = 16 ->
  search_at (16 * i + j) sl ->
  exists sl', visit_entries n nn (m (cstart p d + i)) d i j sl s = inr (sl', s) /\ search_at (16 * (i + 1)) sl'.
Proof.
  intros Hi. induction n as [|n IH]; intros j sl Hj Hn S.
  - exists sl. split; [done|]. by replace (16 * (i + 1)) with (16 * i + j) by lia.
  - cbn [visit_entries]. destruct (visit_entry_spec i j sl Hi ltac:(lia) S) as [E1 S1].
    destruct (visit_entry _ _ _ _) as [sl1 b]. cbn [fst snd] in *. subst b. apply IH; [lia|lia|].
    by replace (16 * i + (j + 1)) with (16 * i + j + 1) by lia.
Qed.

Lemma visit_sectors_spec s n : on_disk p m s -> errno s = OK -> forall i buf sl, 0 <= i -> i + Z.of_nat n = sectors_per_cluster p ->
  search_at (16 * i) sl ->
  exists buf' sl', visit_sectors n nn buf d i sl s = inr ((buf', sl'), s) /\ search_at (cluster_entries p) sl'.
Proof.
  intros (H & P & B) Ok. induction n as [|n IH]; intros i buf sl Hi Hn S.
  - exists buf, sl. split; [done|]. unfold cluster_entries. by replace (sectors_per_cluster p) with i by lia.
  - cbn [visit_sectors]. runs. rewrite P, cluster_address by (done || lia).
    rewrite (bind_inr _ _ _ _ _ (reload_calm _ _ s (conj H Ok))), B, (vol_bps _ V).
    change (Z.to_nat (512 / FAT_DIR_ENTRY_WIDTH)) with 16%nat.
    destruct (visit_entries_spec s i 16 ltac:(lia) 0 sl ltac:(lia) ltac:(lia)) as (sl1 & E1 & S1); [by rewrite Z.add_0_r|].
    rewrite (bind_inr _ _ _ _ _ E1). by apply IH; [lia|lia|].
Qed.
End search.

Lemma find_slots_spec s nn c e fuel ds : calm s -> directory s ds -> nn_entries nn = 1 ->
  room (fat_pinfo s) (blocks s) nn c e ds -> forall cl buf sl, head ds = Some cl -> seeking sl -> (length ds <= fuel)%nat ->
  exists buf' sl', find_slots fuel nn buf cl sl s = inr ((buf', sl'), s) /\ has_slot c e sl' /\ data_cluster (fat_pinfo s) c /\
    FAT_TV_LAST (ftable s c) = true.
Proof.
  intros C. pose proof C as [H Ok]. pose proof (h_vol _ H) as V. pose proof (vol_spc _ V) as Hspc.
  revert fuel. induction ds as [|d ds IH]; intros fuel Dr One Rm cl buf sl Hd Sk Hf; [done|]. injection Hd as <-.
  destruct fuel as [|fuel]; [cbn in Hf; lia|]. cbn [find_slots]. pose proof Sk as (K1 & K2 & K3 & K4). rewrite K2. runs.
  destruct Dr as [Ch Dd Dk]. apply Forall_cons_1 in Dd as [Dc Dd], Dk as [Okc Dk].
  destruct ds as [|d' ds].
  - destruct Rm as (-> & R1 & R2 & R3 & R4).
    destruct (visit_sectors_spec (fat_pinfo s) (blocks s) nn c e V Dc One (fun x Hx _ => R3 x Hx) R4 s
      (Z.to_nat (sectors_per_cluster (fat_pinfo s))) ltac:(done) Ok 0 buf sl ltac:(lia) ltac:(lia)) as (buf' & sl' & E & S).
    { unfold search_at. by zif. }
    rewrite (bind_inr _ _ _ _ _ E). unfold search_at in S. rewrite (proj2 (Z.leb_gt _ _)) in S by lia.
    pose proof S as (_ & _ & _ & _ & S5). rewrite S5. by exists buf', sl'.
  - destruct Rm as (R1 & R2).
    destruct (visit_sectors_spec (fat_pinfo s) (blocks s) nn d (cluster_entries (fat_pinfo s)) V Dc One (fun x Hx _ => R1 x Hx) ltac:(lia) s
      (Z.to_nat (sectors_per_cluster (fat_pinfo s))) ltac:(done) Ok 0 buf sl ltac:(lia) ltac:(lia)) as (buf' & sl' & E & S).
    { unfold search_at. rewrite (proj2 (Z.leb_le _ _)); [done|]. unfold cluster_entries. lia. }
    rewrite (bind_inr _ _ _ _ _ E). unfold search_at in S. rewrite (proj2 (Z.leb_le _ _)) in S by lia.
    destruct S as (S1 & S2 & S3 & S4). rewrite S4. destruct Ch as [Tc Ch]. pose proof (Forall_cons_1 _ _ _ Dd) as [Dc' _].
    rewrite (bind_inr _ _ _ _ _ (acquire_calm d true d' s C (proj1 Dc) (proj1 Dc') Tc)). rewrite S3. cbn [sl_last].
    by apply (IH fuel (Build_directory s (d' :: ds) Ch Dd Dk) One R2 d' buf' _ eq_refl); [|cbn in *; lia].
Qed.

(** ** The bytes of a short entry *)

Lemma set_uint16_ok v buf o : block_ok buf -> block_ok (fat_set_uint16 v buf o).
Proof. intros. by do 2 apply put8_ok. Qed.

Lemma arr_set_uint16 v buf o i : block_ok buf -> 0 <= o <= 510 -> 0 <= i ->
  arr (fat_set_uint16 v buf o) i = if i =? o + 1 then u8 (v >> 8) else if i =? o then u8 v else arr buf i.
Proof. intros B Ho Hi. unfold fat_set_uint16. by rewrite !arr_put8 by (repeat apply put8_ok; done || lia). Qed.

Lemma put_chars_ok l : forall o buf, block_ok buf -> block_ok (put_chars l o buf).
Proof. induction l as [|c l IH]; intros o buf B; [done|]. by apply IH, put8_ok. Qed.

Lemma arr_put_chars l : forall o buf i, block_ok buf -> 0 <= o -> o + Z.of_nat (length l) <= 512 -> 0 <= i ->
  arr (put_chars l o buf) i = if (o <=? i) && (i <? o + Z.of_nat (length l)) then u8 (arr l (i - o)) else arr buf i.
Proof.
  induction l as [|c l IH]; intros o buf i B Ho Hl Hi.
  - cbn [put_chars length]. destruct (Z.leb_spec o i); zif; done.
  - cbn [put_chars]. cbn [length] in *. rewrite IH by (try apply put8_ok; done || lia). rewrite arr_put8 by (done || lia).
    destruct (Z.eqb_spec i o) as [->|N]; [zif; by rewrite Z.sub_diag|].
    destruct (Z.leb_spec o i); zif; [|done]. destruct (Z.ltb_spec i (o + 1 + Z.of_nat (length l))); zif; [|done].
    f_equal. unfold arr. by replace (Z.to_nat (i - o)) with (S (Z.to_nat (i - (o + 1)))) by lia.
Qed.

Lemma put_short_ok short attrib n buf o : block_ok buf -> block_ok (put_short short attrib n buf o).
Proof. intros B. unfold put_short, fat_set_uint8. apply set_uint32_ok. do 7 apply set_uint16_ok. by do 2 apply put8_ok; apply put_chars_ok. Qed.

Create HintDb block.
#[export] Hint Resolve set_uint32_ok set_uint16_ok put8_ok put_chars_ok put_short_ok : block.

(** Reads of bytes out of a short entry. *)
Ltac short_byte :=
  unfold put_short, fat_set_uint8;
  rewrite arr_set_uint32 by (auto 12 with block; lia); zif;
  repeat (rewrite arr_set_uint16 by (auto 12 with block; lia); zif);
  rewrite ?arr_put8 by (auto 12 with block; lia); zif;
  rewrite ?arr_put_chars by (auto 12 with block; lia); zif.

Section short.
Context (short : list Z) (attrib n : Z) (buf : list Z) (k : Z) (B : block_ok buf) (K : 0 <= k < 16) (L : length short = 11%nat).

Local Abbreviation new := (put_short short attrib n buf (k * 32)).

Lemma put_short_other i : 0 <= i -> i < k * 32 \/ k * 32 + 32 <= i -> arr new i = arr buf i.
Proof. intros Hi Ho. short_byte. rewrite L. destruct Ho; by zif. Qed.

Lemma put_short_name j : 0 <= j < 11 -> arr new (k * 32 + j) = u8 (arr short j).
Proof. intros Hj. short_byte. do 2 f_equal. lia. Qed.

Lemma put_short_attrib : arr new (k * 32 + 11) = u8 attrib.
Proof. short_byte. done. Qed.

Lemma put_short_size : fat_size_of_dir_entry new k = 0.
Proof.
  unfold fat_size_of_dir_entry, put_short, FAT_DIR_ENTRY_WIDTH. apply get_set_uint32; [|lia|lia].
  unfold fat_set_uint8. auto 12 with block.
Qed.

Lemma get_uint16_lo : fat_get_uint16 new (k * 32 + 0x1a) = u16 n.
Proof.
  unfold fat_get_uint16.
  assert (arr new (k * 32 + 0x1a) = u8 n) as -> by (short_byte; done).
  assert (arr new (k * 32 + 0x1a + 1) = u8 (n >> 8)) as -> by (short_byte; done).
  rewrite shl_mul, shr_div by lia. change (2 ^ 8) with 256. zdm.
Qed.

Lemma get_uint16_hi : fat_get_uint16 new (k * 32 + 0x14) = u16 (n >> 16).
Proof.
  unfold fat_get_uint16.
  assert (arr new (k * 32 + 0x14) = u8 (n >> 16)) as -> by (short_byte; done).
  assert (arr new (k * 32 + 0x14 + 1) = u8 ((n >> 16) >> 8)) as -> by (short_byte; done).
  rewrite shl_mul, !shr_div by lia. change (2 ^ 8) with 256. change (2 ^ 16) with 65536. zdm.
Qed.

Lemma put_short_cluster : 0 <= n < 4294967296 -> fat_cluster_of_dir_entry new k = n.
Proof.
  intros Hn. unfold fat_cluster_of_dir_entry, FAT_DIR_ENTRY_WIDTH. rewrite get_uint16_lo, get_uint16_hi, Z.lor_comm.
  rewrite shr_div by lia. change (2 ^ 16) with 65536. rewrite (u16_small (n / 65536)) by zdm.
  rewrite u32_small by (rewrite shl_mul by lia; zdm). rewrite lor_shl by zdm. zdm.
Qed.
End short.

(** ** Writing the entry *)

(** Numbers in an entry, byte by byte. *)
Lemma entry_cluster_bytes p m m' c e : (forall j, 20 <= j < 28 -> ebyte p m' c e j = ebyte p m c e j) ->
  entry_cluster p m' c e = entry_cluster p m c e.
Proof.
  intros E. unfold entry_cluster, fat_cluster_of_dir_entry, fat_get_uint16, FAT_DIR_ENTRY_WIDTH. rewrite <- !Z.add_assoc.
  pose proof (E 20 ltac:(lia)) as E1. pose proof (E 21 ltac:(lia)) as E2. pose proof (E 26 ltac:(lia)) as E3.
  pose proof (E 27 ltac:(lia)) as E4. unfold ebyte in *. change (20 + 1) with 21. change (26 + 1) with 27. by rewrite E1, E2, E3, E4.
Qed.

Lemma entry_size_bytes p m m' c e : (forall j, 28 <= j < 32 -> ebyte p m' c e j = ebyte p m c e j) ->
  fat_size_of_dir_entry (m' (cstart p c + e / 16)) (e mod 16) = fat_size_of_dir_entry (m (cstart p c + e / 16)) (e mod 16).
Proof.
  intros E. unfold fat_size_of_dir_entry, fat_get_uint32, FAT_DIR_ENTRY_WIDTH. rewrite <- !Z.add_assoc.
  pose proof (E 28 ltac:(lia)) as E1. pose proof (E 29 ltac:(lia)) as E2. pose proof (E 30 ltac:(lia)) as E3.
  pose proof (E 31 ltac:(lia)) as E4. unfold ebyte in *. change (28 + 1) with 29. change (28 + 2) with 30. change (28 + 3) with 31. by rewrite E1, E2, E3, E4.
Qed.

(** A new entry of a file in cluster [n], and the end of the directory behind it. *)
Record created (p : FatPartitionInfo) (m m' : Z -> list Z) (c e : Z) (short : list Z) (n : Z) : Prop := {
  cr_name : forall j, 0 <= j < 11 -> ebyte p m' c e j = u8 (arr short j);
  cr_attrib : ebyte p m' c e 11 = 0x20;
  cr_cluster : entry_cluster p m' c e = n;
  cr_size : fat_size_of_dir_entry (m' (cstart p c + e / 16)) (e mod 16) = 0;
  cr_end : ebyte p m' c (e + 1) 0 = 0;
  cr_kept : forall x j, 0 <= x < cluster_entries p -> 0 <= j < 32 -> x <> e -> x <> e + 1 \/ j <> 0 -> ebyte p m' c x j = ebyte p m c x j
}.

(** All blocks but those of a cluster are the same. *)
Definition only_cluster (p : FatPartitionInfo) (m m' : Z -> list Z) (c : Z) : Prop :=
  forall a, (forall j, 0 <= j < sectors_per_cluster p -> a <> cstart p c + j) -> m' a = m a.

Lemma created_intro p m v m' c e short n : let b := m (cstart p c + e / 16) in
  (forall a, v a = put_block m (cstart p c + e / 16) (put_short short 0x20 n b (e mod 16 * 32)) a) ->
  marked p v m' c (e + 1) (e + 1) 0 -> disk_ok m -> length short = 11%nat -> 0 <= n < 4294967296 ->
  0 <= e -> e + 1 < cluster_entries p -> created p m m' c e short n /\ only_cluster p m m' c.
Proof.
  intros b Ev [M1 M2] MD L Hn He He1. assert (K : 0 <= e mod 16 < 16) by zdm.
  assert (Hq : 0 <= e / 16 < sectors_per_cluster p) by (unfold cluster_entries in He1; zdm).
  assert (E1 : forall j, 0 <= j < 32 -> ebyte p m' c e j = ebyte p (put_block m (cstart p c + e / 16) (put_short short 0x20 n b (e mod 16 * 32))) c e j).
  { intros j Hj. rewrite M1 by lia. zif. rewrite andb_false_r. cbn [andb]. unfold ebyte. by rewrite Ev. }
  set (w := put_block _ _ _) in *.
  assert (Ew : w (cstart p c + e / 16) = put_short short 0x20 n b (e mod 16 * 32)) by (unfold w, put_block; by rewrite Z.eqb_refl).
  split; [split|].
  - intros j Hj. rewrite E1 by lia. unfold ebyte. rewrite Ew. apply put_short_name; [apply MD|done..].
  - rewrite E1 by lia. unfold ebyte. rewrite Ew. apply put_short_attrib; [apply MD|done..].
  - rewrite (entry_cluster_bytes p w m' c e) by (intros j Hj; apply E1; lia). unfold entry_cluster. rewrite Ew. apply put_short_cluster; [apply MD|done..].
  - rewrite (entry_size_bytes p w m' c e) by (intros j Hj; apply E1; lia). rewrite Ew. apply put_short_size; [apply MD|done..].
  - rewrite M1 by lia. by zif.
  - intros x j Hx Hj N N1. rewrite M1 by done.
    assert ((j =? 0) && (e + 1 <=? x) && (x <=? e + 1) = false) as ->.
    { destruct (Z.eqb_spec j 0), (Z.leb_spec (e + 1) x), (Z.leb_spec x (e + 1)); try done; lia. }
    unfold ebyte. rewrite Ev. unfold w, put_block. destruct (Z.eqb_spec (cstart p c + x / 16) (cstart p c + e / 16)) as [E|]; [|done].
    rewrite E. apply put_short_other; [apply MD|zdm|done|zdm|zdm].
  - intros a Ha. rewrite M2 by done. rewrite Ev. unfold w. by apply put_block_ne, Ha.
Qed.

Lemma write_new s c e n sl short nn path_off i g fd0 :
  calm s -> data_cluster (fat_pinfo s) c -> 0 <= e -> e + 1 < cluster_entries (fat_pinfo s) -> has_slot c e sl ->
  length short = 11%nat -> 0 <= n < 4294967296 -> list_find (fun f => f_free f = true) (fat_open_files s) = Some (i, g) ->
  exists s', write_entries 1 nn sl short true n path_off
      (Cursor c (fat_first_sector_of_cluster (fat_pinfo s) c) (e / 16) (e mod 16) (blocks s (cstart (fat_pinfo s) c + e / 16))) fd0 s =
      inr (Z.of_nat i + 3, s') /\ calm s' /\ fat_pinfo s' = fat_pinfo s /\ fat_initialized s' = fat_initialized s /\
    fat_open_files s' = <[i := File false 0 (place c e) n n 0]> (fat_open_files s) /\
    created (fat_pinfo s) (blocks s) (blocks s') c e short n /\ only_cluster (fat_pinfo s) (blocks s) (blocks s') c.
Proof.
  intros C D He He1 (_ & S2 & _ & S4 & _) L Hn Fi. pose proof C as [H Ok]. pose proof (h_vol _ H) as V.
  set (p := fat_pinfo s) in *. set (b := blocks s (cstart p c + e / 16)). assert (B : block_ok b) by apply H.
  assert (K : 0 <= e mod 16 < 16) by zdm. set (b1 := put_short short 0x20 n b (e mod 16 * 32)).
  set (s1 := set_files (<[i := File false 0 (place c e) n n 0]> (fat_open_files s)) s).
  assert (E1 : fat_open_dir_entry b1 (sl_target sl) s = (Z.of_nat i + 3, s1)).
  { unfold fat_open_dir_entry. rewrite Fi, S2. cbn [place di_index]. unfold b1.
    rewrite put_short_cluster, put_short_size by done. done. }
  assert (C1 : calm s1) by (split; [split; apply H|done]).
  assert (A1 : cursor_at p c e (Cursor c (fat_first_sector_of_cluster p c) (e / 16) (e mod 16) b1)) by (split; try done; by apply put_short_ok).
  destruct (advance_spec p s1 c e _ C1 eq_refl D He ltac:(lia) A1) as (cu2 & s2 & E2 & C2 & D2 & A2 & F2).
  cbn [write_entries]. runs. rewrite Ok, bool_decide_eq_true_2 by done. cbn [negb Nat.eqb cu_index cu_buf].
  erewrite bind_inr; [|change FAT_DIR_ENTRY_WIDTH with 32; change (FAT_ARCHIVE .| 0) with 0x20; fold b1; runs; rewrite E1; reflexivity].
  unfold with_buf. cbn [cu_cluster cu_start cu_sector cu_index]. change FAT_DIR_ENTRY_WIDTH with 32. change (FAT_ARCHIVE .| 0) with 0x20. fold b1.
  cbn [fst snd]. rewrite (bind_inr _ _ _ _ _ E2). runs. rewrite (proj2 C2), bool_decide_eq_true_2 by done. cbn [negb]. rewrite S4. runs.
  pose proof A2 as [_ Es Et Ei B2]. rewrite Es, Et, Ei. assert (0 <= (e + 1) / 16 < sectors_per_cluster p) by (unfold cluster_entries in He1; zdm).
  rewrite cluster_address by done.
  destruct (write_calm (cstart p c + (e + 1) / 16) (put8 (cu_buf cu2) ((e + 1) mod 16 * 32) FAT_DIR_ENTRY_LAST) s2 C2
    ltac:(by apply put8_ok)) as (E3 & C3 & D3).
  rewrite E3. destruct D2 as [P2 Fl2 I2], D3 as [P3 Fl3 I3]. eexists. split; [reflexivity|]. split; [exact C3|].
  split; [cbn; by rewrite P2|]. split; [cbn; by rewrite I2|]. split; [cbn; by rewrite Fl2|].
  eapply (created_intro p (blocks s) (buffered p s2 c (e + 1) cu2)); try done; [|apply H].
  apply (marked_one p (blocks s2) c (e + 1) 0 (cu_buf cu2)); [lia|lia|done].
Qed.

(** ** The directory with the new name *)

Section listed.
Context (p : FatPartitionInfo) (m m' : Z -> list Z) (c e n : Z) (short : list Z).
Context (MD : disk_ok m) (MD' : disk_ok m') (CO : cluster_ok p m c) (Cr : created p m m' c e short n).
Context (H0 : 0 <= e) (H1 : e + 1 < cluster_entries p) (End : forall x, e <= x < cluster_entries p -> ebyte p m c x 0 = 0).
Context (Orphan : 0 < e -> ebyte p m c (e - 1) 11 <> 0x0F) (Alive : u8 (arr short 0) <> 0 /\ u8 (arr short 0) <> 0xE5).

Lemma group_after x : e < x < cluster_entries p -> entry_group p m' c x = None.
Proof.
  intros Hx. assert (ebyte p m' c x 0 = 0) as E.
  { destruct (Z.eq_dec x (e + 1)) as [->|]; [apply Cr|]. rewrite (cr_kept _ _ _ _ _ _ _ Cr) by lia. apply End. lia. }
  unfold entry_group. by rewrite E.
Qed.

Lemma group_new : entry_group p m' c e = Some (short_name (m' (cstart p c + e / 16)) (e mod 16 * 32), e).
Proof.
  unfold entry_group. rewrite (cr_attrib _ _ _ _ _ _ _ Cr), (cr_name _ _ _ _ _ _ _ Cr) by lia. destruct Alive as [A1 A2].
  by rewrite (proj2 (Z.eqb_neq _ 0xE5) A2), (proj2 (Z.eqb_neq _ 0) A1).
Qed.

(** Names in front of the new entry end in front of it. *)
Lemma group_before x : 0 <= x < e -> entry_group p m' c x = entry_group p m c x /\
  forall name x', entry_group p m c x = Some (name, x') -> x <= x' < e.
Proof.
  intros Hx. assert (E : forall y j, 0 <= y < e -> 0 <= j < 32 -> ebyte p m' c y j = ebyte p m c y j).
  { intros y j Hy Hj. apply (cr_kept _ _ _ _ _ _ _ Cr); lia. }
  unfold entry_group. rewrite !E by lia. destruct (_ || _) eqn:Ef; [done|]. destruct (_ && _) eqn:El.
  - apply andb_true_iff in El as [Ea%Z.eqb_eq Eb%negb_true_iff%Z.eqb_neq]. apply orb_false_iff in Ef as [Ef1%Z.eqb_neq Ef2%Z.eqb_neq].
    pose proof (CO x ltac:(lia) Ea Eb Ef1) as [Hn _ Hs Ha Ho]. set (k := ebyte p m c x 0 .^ 0x40) in *.
    assert (Hk : x + k < e).
    { destruct (Z.lt_ge_cases (x + k) e) as [|Ge]; [done|]. exfalso. destruct (Z.eq_dec (x + k) e) as [Eq|].
      - apply Orphan; [lia|]. replace (e - 1) with (x + (k - 1)) by lia. apply Ha. lia.
      - specialize (Ho (e - x) ltac:(lia)). replace (x + (e - x)) with e in Ho by lia. rewrite End in Ho by lia. lia. }
    split; [|intros name x' [= _ <-]; lia]. do 2 f_equal. unfold long_chars. apply map_ext_in. intros j Hj%in_seq.
    assert (0 <= Z.of_nat j / 13 < k) by zdm. assert (0 <= Z.of_nat j mod 13 < 13) by zdm.
    pose proof (long_offset_range (Z.of_nat j mod 13) ltac:(done)). apply E; lia.
  - split; [|intros name x' [= _ <-]; lia]. do 2 f_equal. unfold short_name.
    rewrite (get_string_ext (m (cstart p c + x / 16)) (m' (cstart p c + x / 16)) (x mod 16 * 32) 11); [done|apply MD|apply MD'|zdm|zdm|].
    intros i Hi. replace i with (x mod 16 * 32 + (i - x mod 16 * 32)) by lia. apply E; lia.
Qed.

Lemma listing_after k : forall x, e < x -> cluster_entries p - x <= Z.of_nat k -> cluster_listing p m' c x = [].
Proof.
  induction k as [|k IH]; intros x Hx Hk.
  - unfold cluster_listing. by replace (Z.to_nat (cluster_entries p - x)) with 0%nat by lia.
  - destruct (Z.le_gt_cases (cluster_entries p) x).
    { unfold cluster_listing. by replace (Z.to_nat (cluster_entries p - x)) with 0%nat by lia. }
    rewrite (cluster_listing_cons p m' c MD'), group_after by lia. apply IH; lia.
Qed.

Lemma listing_end k : forall x, e <= x -> cluster_entries p - x <= Z.of_nat k -> cluster_listing p m c x = [].
Proof.
  induction k as [|k IH]; intros x Hx Hk.
  - unfold cluster_listing. by replace (Z.to_nat (cluster_entries p - x)) with 0%nat by lia.
  - destruct (Z.le_gt_cases (cluster_entries p) x).
    { unfold cluster_listing. by replace (Z.to_nat (cluster_entries p - x)) with 0%nat by lia. }
    rewrite (cluster_listing_cons p m c MD) by lia. assert (entry_group p m c x = None) as ->; [|apply IH; lia].
    unfold entry_group. by rewrite End by lia.
Qed.

(** The new name is the last one. *)
Lemma listing_created k : forall x, 0 <= x <= e -> e - x <= Z.of_nat k ->
  cluster_listing p m' c x = cluster_listing p m c x ++ [(short_name (m' (cstart p c + e / 16)) (e mod 16 * 32), e)].
Proof.
  induction k as [|k IH]; intros x Hx Hk; (destruct (Z.eq_dec x e) as [->|N]; [|try lia]).
  1, 2: rewrite (listing_end (Z.to_nat (cluster_entries p)) e) by lia; rewrite (cluster_listing_cons p m' c MD'), group_new by lia;
    by rewrite (listing_after (Z.to_nat (cluster_entries p))) by lia.
  destruct (group_before x ltac:(lia)) as [E N']. rewrite (cluster_listing_cons p m' c MD'), (cluster_listing_cons p m c MD), E by lia.
  destruct (entry_group p m c x) as [[name x']|]; [|apply IH; lia].
  specialize (N' name x' eq_refl). cbn [app]. f_equal. apply IH; lia.
Qed.
End listed.

(** ** The name of the entry *)

Lemma toupper_range c : 0 <= c < 128 -> 0 <= toupper c < 128.
Proof. intros Hc. unfold toupper. destruct (Z.leb_spec 97 c), (Z.leb_spec c 122); cbn [andb]; lia. Qed.

Lemma toupper_idem c : toupper (toupper c) = toupper c.
Proof. unfold toupper. destruct (Z.leb_spec 97 c), (Z.leb_spec c 122); cbn [andb]; zif; try done; dec_bool; cbn [andb]; lia. Qed.

Lemma toupper_delim c : is_delim c = false -> is_delim (toupper c) = false.
Proof.
  unfold is_delim, toupper. intros E. destruct ((97 <=? c) && (c <=? 122)) eqn:R; [|done].
  apply andb_true_iff in R as [R1%Z.leb_le R2%Z.leb_le]. by zif.
Qed.

(** The first dot of the characters from [lo] to [hi]. *)
Definition first_dot (path : list Z) (lo hi d : Z) : Prop :=
  d = -1 /\ (forall x, lo <= x < hi -> arr path x <> 46) \/
  lo <= d < hi /\ arr path d = 46 /\ (forall x, lo <= x < d -> arr path x <> 46).

Lemma last_dot_spec path pmax n : forall i acc, 0 <= i -> first_dot path (pmax - i) pmax acc ->
  first_dot path (pmax - i - Z.of_nat n) pmax (last_dot n path pmax i acc).
Proof.
  induction n as [|n IH]; intros i acc Hi F; cbn [last_dot]; [by replace (pmax - i - Z.of_nat 0) with (pmax - i) by lia|].
  replace (pmax - i - Z.of_nat (S n)) with (pmax - (i + 1) - Z.of_nat n) by lia. apply IH; [lia|].
  destruct (Z.eqb_spec (arr path (pmax - 1 - i)) 46) as [E|N]; [right; split; [lia|split; [done|lia]]|].
  assert (S : forall y, (forall x, pmax - i <= x < y -> arr path x <> 46) -> forall x, pmax - (i + 1) <= x < y -> arr path x <> 46).
  { intros y F' x Hx. destruct (Z.eq_dec x (pmax - 1 - i)) as [->|]; [done|]. apply F'. lia. }
  destruct F as [(-> & F)|(R & E & F)]; [left; split; [done|by apply S]|right; split; [lia|split; [done|by apply S]]].
Qed.

Lemma length_put8 buf o v : length (put8 buf o v) = length buf.
Proof. apply length_insert. Qed.

Lemma arr_put8_short (buf : list Z) o v i : 0 <= o < Z.of_nat (length buf) -> 0 <= i ->
  arr (put8 buf o v) i = if i =? o then u8 v else arr buf i.
Proof. intros Ho Hi. unfold put8. rewrite arr_insert by lia. by rewrite Z.eqb_sym. Qed.

(** Characters that are copied one by one. *)
Lemma copy_name_spec path pmin n : forall i short, 0 <= i -> i + Z.of_nat n <= 8 -> length short = 11%nat ->
  (forall k, i <= k < i + Z.of_nat n -> arr path (pmin + k) <> 32 /\ arr path (pmin + k) <> 46) ->
  length (copy_name n path pmin i i short) = 11%nat /\
  forall j, 0 <= j -> arr (copy_name n path pmin i i short) j =
    if (i <=? j) && (j <? i + Z.of_nat n) then u8 (toupper (arr path (pmin + j))) else arr short j.
Proof.
  induction n as [|n IH]; intros i short Hi Hn L N; cbn [copy_name].
  - split; [done|]. intros j Hj. destruct (Z.leb_spec i j); zif; done.
  - destruct (N i) as [N1 N2]; [lia|]. zif.
    destruct (IH (i + 1) (put8 short i (toupper (arr path (pmin + i)))) ltac:(lia) ltac:(lia)) as [L' E].
    { by rewrite length_put8. } { intros k Hk. apply N. lia. }
    split; [done|]. intros j Hj. rewrite E by done. rewrite arr_put8_short by lia.
    destruct (Z.eqb_spec j i) as [->|]; [by zif|]. destruct (Z.leb_spec i j); zif; [|done].
    by replace (i + 1 + Z.of_nat n) with (i + Z.of_nat (S n)) by lia.
Qed.

Lemma copy_extension_spec path dot short : length short = 11%nat ->
  length (copy_extension path dot short) = 11%nat /\
  forall j, 0 <= j -> arr (copy_extension path dot short) j =
    if (0 <? dot) && (8 <=? j) && (j <? 11) then u8 (toupper (arr path (dot + 1 + (j - 8)))) else arr short j.
Proof.
  intros L. unfold copy_extension. destruct (0 <? dot); cbn [andb]; [|done]. cbn [foldl]. rewrite !length_put8. split; [done|].
  intros j Hj. rewrite !arr_put8_short by (rewrite ?length_put8; lia).
  destruct (Z.eqb_spec j (8 + 2)) as [->|]; [done|]. destruct (Z.eqb_spec j (8 + 1)) as [->|]; [done|].
  destruct (Z.eqb_spec j (8 + 0)) as [->|]; [done|]. destruct (Z.leb_spec 8 j); cbn [andb]; by zif.
Qed.

(** A name whose characters are those of the path, in upper case. *)
Lemma next_delim_length name L fuel : forall i, 0 <= i <= L -> L - i < Z.of_nat fuel -> arr name L = 0 ->
  (forall k, i <= k < L -> is_delim (u8 (arr name k)) = false) -> next_delim fuel name i = L.
Proof.
  induction fuel as [|fuel IH]; intros i Hi Hf E N; [lia|]. cbn [next_delim]. destruct (Z.eq_dec i L) as [->|].
  - by rewrite E.
  - rewrite N by lia. apply IH; [lia|lia|done|]. intros k Hk. apply N. lia.
Qed.

Lemma same_chars_all name path pmin n : forall k, 
  (forall j, k <= j < k + Z.of_nat n -> toupper (arr name j) = toupper (arr path (pmin + j))) -> same_chars n name path pmin k = true.
Proof.
  induction n as [|n IH]; intros k E; [done|]. cbn [same_chars]. rewrite E, Z.eqb_refl by lia. apply IH. intros j Hj. apply E. lia.
Qed.

Lemma name_matches_upper name path pmin pmax : pmin <= pmax -> Z.of_nat (length name) = pmax - pmin ->
  (forall k, 0 <= k < pmax - pmin -> arr name k = toupper (arr path (pmin + k)) /\ 0 <= arr path (pmin + k) < 128 /\
    is_delim (arr path (pmin + k)) = false) -> name_matches name path pmin pmax = true.
Proof.
  intros Hp L E. unfold name_matches, fat_idx_of_next_path_delim.
  rewrite (next_delim_length name (pmax - pmin)); [|lia|lia| |].
  - rewrite Z.eqb_refl. cbn [negb]. apply same_chars_all. intros j Hj. destruct (E j) as [-> _]; [lia|]. apply toupper_idem.
  - unfold arr. apply nth_overflow. lia.
  - intros k Hk. destruct (E k Hk) as (-> & R & N). pose proof (toupper_range _ R). rewrite u8_small by lia. by apply toupper_delim.
Qed.

Lemma until_blank_take l : forall k, (k <= length l)%nat -> (forall i, (i < k)%nat -> nth i l 0 <> 0x20) ->
  k = length l \/ nth k l 0 = 0x20 -> until_blank l = take k l.
Proof.
  induction l as [|c l IH]; intros k Hk N E; cbn [until_blank]; [by rewrite take_nil|]. destruct k as [|k].
  - destruct E as [|E]; [done|]. cbn in E. by rewrite E.
  - pose proof (N 0%nat ltac:(lia)) as N0. cbn in N0. rewrite (proj2 (Z.eqb_neq c 32) N0). cbn [take]. f_equal.
    apply IH; [cbn in Hk; lia|intros i Hi; apply (N (S i)); lia|]. destruct E as [E|E]; [left; by injection E|by right].
Qed.

(** A last part that is a short name: up to eight characters, and an extension of three. *)
Record short_part (path : list Z) (pmin pmax : Z) : Prop := {
  sp_ascii : Forall (fun c => 0 <= c < 128) path;
  sp_range : 0 <= pmin < pmax /\ pmax < FAT_MAX_SHORT_PATH;
  sp_chars : forall x, pmin <= x < pmax -> is_delim (arr path x) = false;
  sp_first : arr path pmin <> 46;
  sp_entries : nn_entries (make_name path pmin pmax) = 1;
  sp_ext : nn_dot (make_name path pmin pmax) = -1 \/ nn_dot (make_name path pmin pmax) + 4 = pmax
}.

(** The lengths of the name and of the part in front of the dot. *)
Lemma short_part_lengths path pmin pmax : short_part path pmin pmax ->
  let dot := nn_dot (make_name path pmin pmax) in let len := nn_len (make_name path pmin pmax) in
  1 <= len <= 8 /\ first_dot path pmin pmax dot /\
  (dot = -1 /\ len = pmax - pmin \/ 0 < dot /\ dot = pmin + len /\ pmax = dot + 4).
Proof.
  intros [As [R1 R2] Ch Fi En Ex]. change FAT_MAX_SHORT_PATH with 81 in R2. cbv zeta.
  unfold make_name in *. cbn [nn_dot nn_len nn_entries] in *.
  assert (Et : u32 (pmax - pmin) = pmax - pmin) by (apply u32_small; lia). rewrite !Et in *.
  set (dot := last_dot _ _ _ _ _) in *.
  assert (Fd : first_dot path pmin pmax dot).
  { pose proof (last_dot_spec path pmax (Z.to_nat (pmax - pmin)) 0 (-1) ltac:(lia)) as F.
    replace (pmax - 0 - Z.of_nat (Z.to_nat (pmax - pmin))) with pmin in F by lia. apply F. left. split; [done|intros x Hx; lia]. }
  assert (Big : 1 <= (pmax - pmin) / 13 + (if negb ((pmax - pmin) mod 13 =? 0) then 1 else 0)).
  { destruct (Z.eqb_spec ((pmax - pmin) mod 13) 0); cbn [negb]; zdm. }
  destruct Fd as [(Ed & Nd)|(Rd & Ed & Nd)].
  - rewrite Ed in *. cbn [Z.ltb Z.compare] in *. destruct (Z.ltb_spec 8 (pmax - pmin)); cbn [orb] in En; [lia|].
    split; [lia|]. split; [by left|]. by left.
  - destruct Ex as [|Ex]; [lia|]. destruct (Z.eq_dec dot pmin) as [E|]; [by rewrite <- E, Ed in Fi|].
    rewrite (proj2 (Z.ltb_lt 0 dot)) in * by lia. rewrite (u32_small (dot - pmin)) in * by lia.
    destruct (Z.ltb_spec 8 (dot - pmin)); cbn [orb] in En; [lia|].
    split; [lia|]. split; [by right|]. right. lia.
Qed.

(** The characters of the short name. *)
Lemma short_part_chars path pmin pmax : short_part path pmin pmax ->
  let nn := make_name path pmin pmax in
  length (nn_short nn) = 11%nat /\
  (forall j, 0 <= j < nn_len nn -> arr (nn_short nn) j = toupper (arr path (pmin + j))) /\
  (forall j, nn_len nn <= j < 8 -> arr (nn_short nn) j = 0x20) /\
  (forall j, 8 <= j < 11 -> arr (nn_short nn) j = if nn_dot nn =? -1 then 0x20 else toupper (arr path (nn_dot nn + 1 + (j - 8)))).
Proof.
  intros Sp. pose proof (short_part_lengths _ _ _ Sp) as (Hl & Fd & Hd). cbv zeta in *. set (nn := make_name path pmin pmax) in *.
  pose proof Sp as [As [R1 R2] Ch Fi _ _].
  assert (Rg : forall x, 0 <= arr path x < 128).
  { intros x. unfold arr. destruct (nth_in_or_default (Z.to_nat x) path 0) as [I| ->]; [|lia].
    rewrite List.Forall_forall in As. by apply As. }
  assert (U : forall x, u8 (toupper (arr path x)) = toupper (arr path x)).
  { intros x. pose proof (toupper_range _ (Rg x)). apply u8_small. lia. }
  change (nn_short nn) with (copy_extension path (nn_dot nn) (copy_name (Z.to_nat (nn_len nn)) path pmin 0 0 (replicate 11 0x20))).
  destruct (copy_name_spec path pmin (Z.to_nat (nn_len nn)) 0 (replicate 11 0x20)) as [L1 E1]; [lia|lia|done| |].
  { intros k Hk. assert (Hk' : pmin <= pmin + k < pmax) by lia. specialize (Ch _ Hk'). split.
    - intros E. by rewrite E in Ch.
    - destruct Fd as [(_ & F)|(Rd & _ & F)]; apply F; lia. }
  destruct (copy_extension_spec path (nn_dot nn) _ L1) as [L2 E2]. split; [done|].
  split; [|split]; intros j Hj; rewrite E2 by lia.
  - rewrite (proj2 (Z.leb_gt 8 j)) by lia. rewrite andb_false_r. cbn [andb]. rewrite E1 by lia. zif. apply U.
  - rewrite (proj2 (Z.leb_gt 8 j)) by lia. rewrite andb_false_r. cbn [andb]. rewrite E1 by lia. zif. unfold arr. rewrite nth_lookup, lookup_replicate_2 by lia. done.
  - zif. destruct Hd as [(-> & _)|(Hd & _)]; cbn [Z.ltb Z.compare Z.eqb andb].
    + rewrite E1 by lia. zif. unfold arr. rewrite nth_lookup, lookup_replicate_2 by lia. done.
    + rewrite (proj2 (Z.ltb_lt 0 _)) by done. rewrite (proj2 (Z.eqb_neq _ (-1))) by lia. cbn [andb]. apply U.
Qed.

Lemma nth_take_lt {A} (l : list A) n i x : (i < n)%nat -> nth i (take n l) x = nth i l x.
Proof. intros Hi. rewrite !nth_lookup. by rewrite lookup_take_lt. Qed.

Lemma nth_drop_add {A} (l : list A) n i x : nth i (drop n l) x = nth (n + i) l x.
Proof. by rewrite !nth_lookup, lookup_drop. Qed.

Lemma ascii_range path : Forall (fun c => 0 <= c < 128) path -> forall x, 0 <= arr path x < 128.
Proof.
  intros As x. unfold arr. destruct (nth_in_or_default (Z.to_nat x) path 0) as [I| ->]; [|lia].
  rewrite List.Forall_forall in As. by apply As.
Qed.

Section matches.
Context (path : list Z) (pmin pmax : Z) (buf : list Z) (o : Z) (Sp : short_part path pmin pmax).
Context (B : block_ok buf) (Ho : 0 <= o) (Ho1 : o + 11 <= 512).

Local Abbreviation nn := (make_name path pmin pmax).
Local Abbreviation sn := (fat_get_string buf o 11).

Context (Eb : forall j, 0 <= j < 11 -> arr buf (o + j) = u8 (arr (nn_short nn) j)).

Lemma part_not_blank x : pmin <= x < pmax -> toupper (arr path x) <> 0x20.
Proof. intros Hx E. pose proof (toupper_delim _ (sp_chars _ _ _ Sp x Hx)) as T. by rewrite E in T. Qed.

Lemma length_string : length sn = 11%nat.
Proof. unfold fat_get_string. rewrite length_take, length_drop, (proj1 B). lia. Qed.

Lemma string_chars j : 0 <= j < 11 -> nth (Z.to_nat j) sn 0 = arr (nn_short nn) j.
Proof.
  intros Hj. pose proof (short_part_chars _ _ _ Sp) as (_ & Cn & Cb & Ce). pose proof (ascii_range _ (sp_ascii _ _ _ Sp)) as Rg.
  unfold fat_get_string. rewrite nth_take_lt, nth_drop_add by lia.
  replace (Z.to_nat o + Z.to_nat j)%nat with (Z.to_nat (o + j)) by lia.
  change (nth (Z.to_nat (o + j)) buf 0) with (arr buf (o + j)). rewrite Eb by done. apply u8_small.
  destruct (Z.lt_ge_cases j (nn_len nn)); [rewrite Cn by lia; pose proof (toupper_range _ (Rg (pmin + j))); lia|].
  destruct (Z.lt_ge_cases j 8); [rewrite Cb by lia; lia|]. rewrite Ce by lia.
  destruct (_ =? -1); [lia|]. pose proof (toupper_range _ (Rg (nn_dot nn + 1 + (j - 8)))). lia.
Qed.

(** The name the driver reads back. *)
Lemma short_name_eq : short_name buf o =
  take (Z.to_nat (nn_len nn)) sn ++ (if nn_dot nn =? -1 then [] else 46 :: drop 8 sn).
Proof.
  pose proof (short_part_lengths _ _ _ Sp) as (Hl & _ & Hd). pose proof (short_part_chars _ _ _ Sp) as (_ & Cn & Cb & Ce).
  pose proof length_string as Ls. unfold short_name. f_equal.
  - rewrite (until_blank_take _ (Z.to_nat (nn_len nn))).
    + rewrite take_take. f_equal. lia.
    + rewrite length_take. lia.
    + intros i Hi. rewrite nth_take_lt by lia. replace i with (Z.to_nat (Z.of_nat i)) by lia. rewrite string_chars, Cn by lia. apply part_not_blank. lia.
    + destruct (Z.eq_dec (nn_len nn) 8) as [E8|]; [left; rewrite length_take; lia|right].
      rewrite nth_take_lt, string_chars, Cb by lia. done.
  - change (arr sn 8) with (nth (Z.to_nat 8) sn 0). rewrite string_chars, Ce by lia.
    destruct Hd as [(Hd & _)|(Hd & El & Ex)]; [by rewrite Hd|].
    rewrite (proj2 (Z.eqb_neq (nn_dot nn) (-1))) by lia. rewrite (proj2 (Z.eqb_neq _ 32)) by (apply part_not_blank; lia). cbn [negb]. f_equal.
    rewrite (until_blank_take _ 3); [by rewrite take_ge by (rewrite length_drop; lia)|rewrite length_drop; lia| |left; rewrite length_drop; lia].
    intros i Hi. rewrite nth_drop_add. replace (8 + i)%nat with (Z.to_nat (8 + Z.of_nat i)) by lia. rewrite string_chars, Ce by lia.
    rewrite (proj2 (Z.eqb_neq (nn_dot nn) (-1))) by lia. apply part_not_blank. lia.
Qed.

(** The entry has the name of the path. *)
Lemma short_part_matches : name_matches (short_name buf o) path pmin pmax = true.
Proof.
  pose proof (short_part_lengths _ _ _ Sp) as (Hl & Fd & Hd). pose proof (short_part_chars _ _ _ Sp) as (_ & Cn & _ & Ce).
  pose proof (ascii_range _ (sp_ascii _ _ _ Sp)) as Rg. pose proof (sp_chars _ _ _ Sp) as Ch. pose proof length_string as Ls.
  rewrite short_name_eq. assert (Lt : length (take (Z.to_nat (nn_len nn)) sn) = Z.to_nat (nn_len nn)) by (rewrite length_take; lia).
  destruct Hd as [(Hd & El)|(Hd & El & Ex)].
  - rewrite Hd, app_nil_r. apply name_matches_upper; [lia|lia|].
    intros k Hk. split; [|split; [apply Rg|apply Ch; lia]]. unfold arr at 1. rewrite nth_take_lt, string_chars, Cn by lia. done.
  - rewrite (proj2 (Z.eqb_neq (nn_dot nn) (-1))) by lia.
    apply name_matches_upper; [lia|rewrite length_app; cbn [length]; rewrite length_drop; lia|].
    intros k Hk. split; [|split; [apply Rg|apply Ch; lia]]. unfold arr at 1.
    destruct (Z.lt_ge_cases k (nn_len nn)); [rewrite app_nth1, nth_take_lt, string_chars, Cn by lia; done|].
    rewrite app_nth2, Lt by lia. destruct (Z.eq_dec k (nn_len nn)) as [->|].
    + replace (Z.to_nat (nn_len nn) - Z.to_nat (nn_len nn))%nat with 0%nat by lia. cbn [nth]. rewrite <- El.
      destruct Fd as [(? & _)|(_ & -> & _)]; [lia|done].
    + replace (Z.to_nat k - Z.to_nat (nn_len nn))%nat with (S (Z.to_nat (k - nn_len nn - 1))) by lia. cbn [nth]. rewrite nth_drop_add.
      replace (8 + Z.to_nat (k - nn_len nn - 1))%nat with (Z.to_nat (8 + (k - nn_len nn - 1))) by lia. rewrite string_chars, Ce by lia.
      rewrite (proj2 (Z.eqb_neq (nn_dot nn) (-1))) by lia. do 2 f_equal. lia.
Qed.
End matches.

(** ** [fat_create] and [fat_open] *)

(** What the creation of a file leaves: [s1] is the state with its cluster [n] allocated. *)
Record filled (s s' : fs) (c e n : Z) (i : nat) (short : list Z) : Prop := {
  fi_calm : calm s';
  fi_pinfo : fat_pinfo s' = fat_pinfo s;
  fi_init : fat_initialized s' = fat_initialized s;
  fi_files : fat_open_files s' = <[i := File false 0 (place c e) n n 0]> (fat_open_files s);
  fi_entry : created (fat_pinfo s) (blocks s) (blocks s') c e short n;
  fi_table : exists s1, allocated c false s n s1 /\ forall x, 0 <= x < fat_entries (fat_pinfo s) -> ftable s' x = ftable s1 x;
  fi_blocks : forall d j, data_cluster (fat_pinfo s) d -> d <> c -> 0 <= j < sectors_per_cluster (fat_pinfo s) ->
    blocks s' (cstart (fat_pinfo s) d + j) = blocks s (cstart (fat_pinfo s) d + j)
}.

(** The entry is relative to the blocks of its cluster only. *)
Lemma created_ext p m0 m m' c e short n : (forall j, 0 <= j < sectors_per_cluster p -> m0 (cstart p c + j) = m (cstart p c + j)) ->
  created p m0 m' c e short n -> created p m m' c e short n.
Proof.
  intros E [C1 C2 C3 C4 C5 C6]. split; try done. intros x j Hx Hj N N1. rewrite C6 by done. unfold ebyte. rewrite E; [done|].
  unfold cluster_entries in Hx. zdm.
Qed.

Lemma add_tail_short nn nums s : nn_entries nn = 1 -> add_tail nn nums s = inr (nn_short nn, s).
Proof. intros E. unfold add_tail. by rewrite E. Qed.

Lemma add_entries_spec s nn sl buf fd c e i g :
  calm s -> has_slot c e sl -> data_cluster (fat_pinfo s) c -> FAT_TV_LAST (ftable s c) = true -> 0 <= e ->
  e + 1 < cluster_entries (fat_pinfo s) -> nn_entries nn = 1 -> length (nn_short nn) = 11%nat -> space s 1 ->
  list_find (fun f => f_free f = true) (fat_open_files s) = Some (i, g) ->
  exists s' n, add_entries nn sl buf fd true s = inr ((Z.of_nat i + 3, n), s') /\ filled s s' c e n i (nn_short nn).
Proof.
  intros C Sl D Tl He He1 One L [(fr & _ & Lf & Ff) Sp] Fi. pose proof C as [H Ok]. pose proof (h_vol _ H) as V.
  pose proof Sl as (S1 & S2 & _). pose proof D as [[[Dc1 Dc2] _] _].
  pose proof (acquire_new c false s H ltac:(lia) Tl) as A.
  unfold add_entries. rewrite (bind_inr _ _ _ _ _ (add_tail_short nn (sl_nums sl) s One)). runs. rewrite S1, S2. cbn [place di_cluster di_sector di_index].
  destruct (fat_acquire_next_cluster c false s) as [[[] n] s1].
  2: { exfalso. destruct A as (_ & _ & _ & _ & _ & _ & _ & A). destruct fr as [|x fr]; [cbn in Lf; lia|].
       apply Forall_cons_1 in Ff as [Fx _]. by apply (A x). }
  cbn [fst snd]. pose proof (al_pinfo _ _ _ _ _ A) as P1. pose proof (al_free _ _ _ _ _ A) as [Fn _].
  assert (C1 : calm s1) by (split; apply A).
  assert (Hq : 0 <= e / 16 < sectors_per_cluster (fat_pinfo s)) by (unfold cluster_entries in He1; zdm).
  rewrite cluster_address by done. rewrite (bind_inr _ _ _ _ _ (reload_calm _ _ s1 C1)). rewrite One. change (Z.to_nat 1) with 1%nat. rewrite <- P1.
  destruct (write_new s1 c e n sl (nn_short nn) nn (u32 (nn_max nn - (if (nn_max nn - nn_min nn) mod 13 =? 0 then 13 else (nn_max nn - nn_min nn) mod 13)))
    i g fd C1) as (s2 & E2 & C2 & P2 & I2 & F2 & Cr & Oc); rewrite ?P1; try done; [| |].
  { pose proof (vol_spf _ V). unfold fat_entries in Fn. lia. }
  { by rewrite (al_files _ _ _ _ _ A). }
  rewrite P1 in *. rewrite (bind_inr _ _ _ _ _ E2). exists s2, n. split; [done|].
  assert (Eb : forall d j, data_cluster (fat_pinfo s) d -> 0 <= j -> blocks s1 (cstart (fat_pinfo s) d + j) = blocks s (cstart (fat_pinfo s) d + j)).
  { intros d j Dd Hj. apply (al_blocks _ _ _ _ _ A). right. by apply cluster_block_other. }
  split; [done|by rewrite P2|by rewrite I2, (al_init _ _ _ _ _ A)|by rewrite F2, (al_files _ _ _ _ _ A)| | |].
  - apply (created_ext _ (blocks s1)); [intros j Hj; apply Eb; [done|lia]|done].
  - exists s1. split; [done|]. intros x Hx. unfold ftable. rewrite P2, P1. by apply (table_outside _ _ _ c).
  - intros d j Dd N Hj. rewrite Oc; [apply Eb; [done|lia]|]. intros k Hk. apply not_eq_sym. by apply clusters_disjoint.
Qed.

(** A path whose last part is a new short name, which gets entry [e] of cluster [c], the end of the
    directory [ds]; the file gets descriptor [i], and may grow to [M] bytes. *)
Record creatable (M : Z) (s : fs) (path : list Z) (fuel : nat) (ds : list Z) (c e : Z) (i : nat) : Prop := {
  ct_calm : calm s;
  ct_init : fat_initialized s = true;
  ct_missing : leads s path fuel (inl ENOENT);
  ct_part : short_part path (fst (split_path path)) (snd (split_path path));
  ct_parent : parent_of s path (fst (split_path path)) fuel ds;
  ct_dir : directory s ds;
  ct_room : room (fat_pinfo s) (blocks s) (make_name path (fst (split_path path)) (snd (split_path path))) c e ds;
  ct_orphan : 0 < e -> ebyte (fat_pinfo s) (blocks s) c (e - 1) 11 <> 0x0F;
  ct_ranges : 0 <= e /\ e + 1 < cluster_entries (fat_pinfo s) /\ 0 <= M < 2147483648;
  ct_table : (length (fat_open_files s) = 16)%nat;
  ct_slot : exists g, list_find (fun f => f_free f = true) (fat_open_files s) = Some (i, g);
  ct_space : space s (M / bpc s + 1);
  ct_fuel : (length ds <= fuel)%nat
}.

Lemma fat_create_spec M s err path fuel ds c e i se fd : creatable M s path fuel ds c e i ->
  exists s' n, fat_create fuel path se fd true (set_errno err s) = inr ((true, Z.of_nat i + 3, n), s') /\
    filled s s' c e n i (nn_short (make_name path (fst (split_path path)) (snd (split_path path)))) /\
    data_cluster (fat_pinfo s) c /\ FAT_TV_LAST (ftable s c) = true.
Proof.
  intros [C In _ Pt Pa Dr Rm _ (He & He1 & HM) Ln [g Fi] Sp Fu]. pose proof C as [H Ok].
  unfold fat_create. runs. change (set_errno OK (set_errno err s)) with (set_errno OK s). rewrite (calm_ok s C). destruct (split_path path) as [pmin pmax]. cbn [fst snd] in *.
  destruct (parent_dir_spec s path pmin fuel ds se C Pa) as [se1 E1]. rewrite (bind_inr _ _ _ _ _ E1).
  destruct ds as [|dir ds]; [done|]. cbn [head]. set (nn := make_name path pmin pmax) in *.
  destruct (find_slots_spec s nn c e fuel (dir :: ds) C Dr (sp_entries _ _ _ Pt) Rm dir (se_buf se1)
    (Slots 0 (DirIdx dir 0 0) (DirIdx dir 0 0) (replicate 12 0) false false false) eq_refl ltac:(done) Fu)
    as (buf & sl & E2 & Sl & D & Tl).
  assert (Bp : 0 < bpc s) by (pose proof (bpc_pos s H); lia). assert (0 <= M / bpc s) by (apply Z.div_pos; lia).
  destruct (add_entries_spec s nn sl buf fd c e i g C Sl D Tl He He1 (sp_entries _ _ _ Pt)) as (s' & n & E3 & Fl);
    [apply short_part_chars, Pt|apply (space_le s (M / bpc s + 1)); [done|lia]|done|].
  exists s', n. split; [|done]. erewrite bind_inr.
  2: { rewrite (bind_inr _ _ _ _ _ E2). runs. rewrite Ok, bool_decide_eq_true_2 by done. cbn [negb].
       destruct Sl as (_ & _ & _ & _ & Sf). rewrite Sf. cbn [negb]. unfold too_long. rewrite (sp_entries _ _ _ Pt : nn_entries nn = 1). cbn [Z.eqb Pos.eqb].
       rewrite (proj2 (Z.leb_gt _ (nn_max nn))) by apply (proj2 (sp_range _ _ _ Pt)). exact E3. }
  cbn [fst snd]. runs. by rewrite (proj2 (fi_calm _ _ _ _ _ _ _ Fl)), bool_decide_eq_true_2.
Qed.

(** The new file, as a sequence of bytes. *)
Lemma filled_rep M s s' path fuel ds c e i n short : creatable M s path fuel ds c e i -> filled s s' c e n i short ->
  data_cluster (fat_pinfo s) c -> FAT_TV_LAST (ftable s c) = true ->
  file_rep M (Z.of_nat i + 3) (File false 0 (place c e) n n 0) [n] s' (AFile [] 0).
Proof.
  intros Ct Fl D Tl. pose proof (ct_calm _ _ _ _ _ _ _ _ Ct) as [H _]. pose proof (h_vol _ H) as V.
  destruct (ct_ranges _ _ _ _ _ _ _ _ Ct) as (He & He1 & HM). destruct (ct_slot _ _ _ _ _ _ _ _ Ct) as [g Fi].
  apply list_find_Some in Fi as (Ei & _ & _). pose proof (lookup_lt_Some _ _ _ Ei) as Li. pose proof (ct_table _ _ _ _ _ _ _ _ Ct) as Ln.
  destruct Fl as [C' P' I' F' _ (s1 & A & T) _]. pose proof (al_free _ _ _ _ _ A) as Fr. pose proof Fr as [Fn Tn].
  assert (Tc : ftable s c <> 0) by (apply Z.leb_le in Tl; lia). assert (Ncn : c <> n) by (intros ->; by apply Tc).
  destruct (ct_space _ _ _ _ _ _ _ _ Ct) as [Sp1 Sp2]. pose proof (Sp2 n Fr) as Dn.
  assert (Bp : bpc s' = bpc s) by (unfold bpc; by rewrite P'). pose proof (bpc_pos s H) as Bps.
  assert (Tn' : ftable s' n = 0x0FFFFFFF) by (rewrite T, (al_table _ _ _ _ _ A) by lia; by rewrite Z.eqb_refl).
  pose proof D as [[Dc _] _].
  assert (Tc' : ftable s' c = ftable s c).
  { rewrite T, (al_table _ _ _ _ _ A) by lia. by rewrite (proj2 (Z.eqb_neq c n)). }
  split; cbn [a_data a_pos length f_start_cluster f_current_cluster f_pos f_size]; try done; try (intros; lia).
  - apply C'.
  - unfold open_file. rewrite I', (ct_init _ _ _ _ _ _ _ _ Ct). cbn [negb]. unfold FAT_FD_OFFSET, FAT_MAX_FILES. zif. cbn [orb].
    replace (Z.to_nat (Z.of_nat i + 3 - 3)) with i by lia. by rewrite F', list_lookup_insert_eq by done.
  - split; [cbn [chain]; by rewrite Tn'|by apply NoDup_singleton|rewrite P'; by apply Forall_singleton].
  - rewrite Bp. cbn [length]. replace (M / bpc s + 1 - Z.of_nat 1) with (M / bpc s + 1 - 1) by lia.
    apply (space_weaken s1); [by rewrite P', (al_pinfo _ _ _ _ _ A)| |by apply (space_allocated c false s n)].
    rewrite (al_pinfo _ _ _ _ _ A). exact T.
  - split; cbn [f_dir_idx place di_cluster di_sector di_index]; rewrite ?P'; try done; [by rewrite Tc'|by rewrite list_elem_of_singleton| |zdm].
    unfold cluster_entries in He1. zdm.
Qed.

Lemma room_spec p m nn c e ds : room p m nn c e ds -> c ∈ ds /\ forall x, e <= x < cluster_entries p -> ebyte p m c x 0 = 0.
Proof.
  induction ds as [|d ds IH]; [done|]. intros R. destruct ds as [|d' ds].
  - destruct R as (-> & _ & _ & _ & R). split; [left|done].
  - destruct R as [_ R]. destruct (IH R) as [I E]. split; [by right|done].
Qed.

(** Claim C15. [fat_open] with [O_CREAT] adds a file at the end of its directory: the listing of the
    directory has the new name behind the others, and the name matches the path; a cluster that
    was free is the cluster of the file; the file descriptor stands for an empty sequence of
    bytes, which calls as in [fat_refines_bytes] (with [ops_ok]) read, write and seek; no
    other cluster of the volume is written. This is so for paths that are [creatable]: the last part
    does not exist in its directory and is an ASCII name of up to eight characters, with no
    extension or one of three; all entries of the directory in front of the new one are in use, and
    from there to the end of the last cluster there are only end markers, two at least; a
    descriptor is free, and free clusters for [M] bytes. In directories with deleted entries, or
    without room in the last cluster, the code may destroy another entry or share a cluster
    ([fat_create_destroys_next], [fat_create_shares_cluster]). *)
Theorem fat_open_creates M s err path fuel ds c e i oflag se :
  creatable M s path fuel ds c e i -> flag oflag O_CREAT = true ->
  exists s' f n name, fat_open fuel path oflag se (set_errno err s) = inr (Z.of_nat i + 3, s') /\ errno s' = OK /\
    cluster_listing (fat_pinfo s) (blocks s') c 0 = cluster_listing (fat_pinfo s) (blocks s) c 0 ++ [(name, e)] /\
    name_matches name path (fst (split_path path)) (snd (split_path path)) = true /\
    free_entry (fat_pinfo s) (blocks s) n /\ file_rep M (Z.of_nat i + 3) f [n] s' (AFile [] 0) /\
    forall d j, data_cluster (fat_pinfo s) d -> d <> c -> 0 <= j < sectors_per_cluster (fat_pinfo s) ->
      blocks s' (cstart (fat_pinfo s) d + j) = blocks s (cstart (fat_pinfo s) d + j).
Proof.
  intros Ct Fl. pose proof (ct_calm _ _ _ _ _ _ _ _ Ct) as C. pose proof C as [H Ok].
  destruct (ct_ranges _ _ _ _ _ _ _ _ Ct) as (He & He1 & HM). pose proof (ct_part _ _ _ _ _ _ _ _ Ct) as Pt.
  destruct (resolve_leads s path fuel _ se H (ct_missing _ _ _ _ _ _ _ _ Ct)) as (se1 & E1).
  destruct (fat_create_spec M s ENOENT path fuel ds c e i se1 (-1) Ct) as (s1 & n & E2 & Fd & D & Tl).
  pose proof (filled_rep _ _ _ _ _ _ _ _ _ _ _ Ct Fd D Tl) as R1.
  destruct (lseek_start _ _ _ _ _ _ R1) as (s2 & f2 & E3 & Ok2 & B2 & P2 & R2).
  assert (B : blocks s2 = blocks s1) by done.
  destruct (room_spec _ _ _ _ _ _ (ct_room _ _ _ _ _ _ _ _ Ct)) as [Ic End].
  assert (CO : cluster_ok (fat_pinfo s) (blocks s) c).
  { pose proof (dr_ok _ _ (ct_dir _ _ _ _ _ _ _ _ Ct)) as Fo. rewrite Forall_forall in Fo. by apply Fo. }
  destruct (short_part_chars _ _ _ Pt) as (Ls & Cn & _). cbv zeta in *.
  set (nn := make_name path _ _) in *. set (name := short_name (blocks s1 (cstart (fat_pinfo s) c + e / 16)) (e mod 16 * 32)).
  exists s2, f2, n, name. split.
  { unfold fat_open. runs. change (fat_initialized (set_errno err s)) with (fat_initialized s). rewrite (ct_init _ _ _ _ _ _ _ _ Ct). cbn [negb].
    runs. change (set_errno OK (set_errno err s)) with (set_errno OK s). rewrite (bind_inr _ _ _ _ _ E1). rewrite Fl.
    erewrite bind_inr; [|rewrite (bind_inr _ _ _ _ _ E2); reflexivity].
    cbn [fst snd]. runs. runs. rewrite (proj2 (fi_calm _ _ _ _ _ _ _ Fd)), bool_decide_eq_true_2 by done. runs. rewrite E3. cbn [fst snd].
    runs. by rewrite Ok2, bool_decide_eq_true_2. }
  split; [done|]. rewrite B2. split; [|split; [|split; [|split]]].
  - apply (listing_created (fat_pinfo s) (blocks s) (blocks s1) c e n (nn_short nn) (h_disk _ H) (h_disk _ (proj1 (fi_calm _ _ _ _ _ _ _ Fd)))
      CO (fi_entry _ _ _ _ _ _ _ Fd) He He1 End (ct_orphan _ _ _ _ _ _ _ _ Ct)) with (k := Z.to_nat e); [|lia|lia].
    pose proof (short_part_lengths _ _ _ Pt) as (Hl & _). cbv zeta in Hl. fold nn in Hl. rewrite Cn by lia.
    pose proof (toupper_range _ (ascii_range _ (sp_ascii _ _ _ Pt) (fst (split_path path) + 0))) as Rg. rewrite u8_small by lia.
    split; [|lia]. intros Z0. pose proof (toupper_delim _ (sp_chars _ _ _ Pt (fst (split_path path) + 0) ltac:(pose proof (sp_range _ _ _ Pt); lia))) as T.
    by rewrite Z0 in T.
  - apply short_part_matches; [done|apply (fi_calm _ _ _ _ _ _ _ Fd)|zdm|zdm|].
    intros j Hj. apply (cr_name _ _ _ _ _ _ _ (fi_entry _ _ _ _ _ _ _ Fd)). done.
  - destruct (fi_table _ _ _ _ _ _ _ Fd) as (s3 & A & _). apply A.
  - exact R2.
  - apply Fd.
Qed.

(** ** Examples *)

(** "dir/new.txt" *)
Definition new_path : list Z := [100; 105; 114; 47; 110; 101; 119; 46; 116; 120; 116].

Lemma new_missing : leads dir_fs new_path 20 (inl ENOENT).
Proof.
  exists [2], 2%nat. split; [done|]. split; [|lia].
  apply (resolves_dir _ _ 0 [2] 2 1 [4] 1); [by apply dir_directory; left|vm_compute; reflexivity|vm_compute; discriminate|
    vm_compute; reflexivity|vm_compute; reflexivity|].
  apply (resolves_none _ _ _ [4]); [by apply dir_directory; right|vm_compute; reflexivity].
Qed.

Lemma new_part : short_part new_path 4 11.
Proof.
  split.
  - repeat constructor; lia.
  - unfold FAT_MAX_SHORT_PATH. lia.
  - intros x Hx. assert (F : forallb (fun i => negb (is_delim (arr new_path (Z.of_nat i)))) (seq 4 7) = true) by (vm_compute; reflexivity).
    rewrite forallb_forall in F. specialize (F (Z.to_nat x) ltac:(apply in_seq; lia)). rewrite Z2Nat.id in F by lia. by apply negb_true_iff.
  - vm_compute. discriminate.
  - vm_compute. reflexivity.
  - right. vm_compute. reflexivity.
Qed.

Lemma new_room : room demo_pinfo (blocks dir_fs) (make_name new_path 4 11) 4 3 [4].
Proof.
  split; [done|]. split; [lia|]. split; [vm_compute; reflexivity|]. split.
  - intros x Hx. assert (x = 0 \/ x = 1 \/ x = 2) as [-> |[-> | ->]] by lia; (split; [vm_compute; discriminate|vm_compute; discriminate|]);
      intros N; vm_compute; discriminate.
  - intros x Hx. assert (F : forallb (fun i => ebyte demo_pinfo (blocks dir_fs) 4 (Z.of_nat i) 0 =? 0) (seq 3 13) = true) by (vm_compute; reflexivity).
    change (cluster_entries demo_pinfo) with 16 in Hx. rewrite forallb_forall in F. specialize (F (Z.to_nat x) ltac:(apply in_seq; lia)).
    rewrite Z2Nat.id in F by lia. by apply Z.eqb_eq.
Qed.

Lemma new_creatable : creatable 1000 dir_fs new_path 20 [4] 4 3 1.
Proof.
  split.
  - apply dir_calm.
  - reflexivity.
  - apply new_missing.
  - exact new_part.
  - exists 2, 1. split; [apply only_dir_leads|vm_compute; reflexivity].
  - by apply dir_directory; right.
  - exact new_room.
  - intros _. vm_compute. discriminate.
  - split; [lia|]. split; [vm_compute; reflexivity|lia].
  - reflexivity.
  - eexists. reflexivity.
  - apply dir_space.
  - cbn. lia.
Qed.

Lemma fat_open_creates_witness :
  exists s', fat_open 20 new_path O_CREAT fresh (set_errno EIO dir_fs) = inr (4, s') /\ errno s' = OK /\
    map snd (cluster_listing demo_pinfo (blocks s') 4 0) = [2; 3].
Proof.
  destruct (fat_open_creates 1000 dir_fs EIO new_path 20 [4] 4 3 1 O_CREAT fresh new_creatable eq_refl)
    as (s' & f & n & name & E & Ok & L & _).
  exists s'. split; [exact E|]. split; [exact Ok|]. change demo_pinfo with (fat_pinfo dir_fs). rewrite L. vm_compute. reflexivity.
Defined.

(** A file is created, written, closed, opened again, read, and removed. *)
Definition session : run (option (list Z) * bool * Z) :=
  fd ← fat_open 20 new_path O_CREAT fresh;
  _ ← call (fat_write fd [1; 2; 3]);
  _ ← call (fat_close fd);
  fd ← fat_open 20 new_path 0 fresh;
  out ← call (fat_read fd 10);
  _ ← call (fat_close fd);
  ok ← fat_unlink 20 new_path fresh;
  fd ← fat_open 20 new_path 0 fresh;
  mret (out, ok, fd).

Theorem session_result :
  match session dir_fs with
  | inr (r, s) => r = (Some [1; 2; 3], true, -1) /\ errno s = ENOENT
  | inl _ => False
  end.
Proof. vm_compute. split; reflexivity. Qed.
