(* ===== verification/SdHost.v ===== *)
(** * The SPI controller of the SD card

    src/hardware/src/main/scala/io/SDHostCtrl.scala as a function of a clock cycle, the card at
    its pins, and [spi_send] of src/c/libsd/sd_spi.c, which exchanges a byte through its
    registers. The processor may take any number of cycles between two accesses.

    The accesses carry byte addresses, which the controller decodes; the driver is written over
    its four pointers. What is proved: with pointers to the registers of the controller [spi_send]
    returns, and exchanges the eight bits of the byte with the card, the highest bit first. The
    pointers of sd_spi.c are not such: [sd_en_ptr] reads no register, and [spi_send] never
    returns ([spi_send_hangs]). *)

From stdpp Require Import base list numbers.
From Stdlib Require Import ZArith Lia.
From S2P Require Import Prelude.

Local Open Scope Z_scope.
Local Open Scope c_scope.

(** ** The controller *)

Record host := Host {
  enReg : bool;
  bufPntReg : Z;
  clkDivReg : Z;
  clkCntReg : Z;
  clkReg : bool;
  bufOutReg : Z;
  bufInReg : Z;
  csReg : bool;
  ocpDataReg : Z
}.

(** A command on the bus, to a byte address. *)
Inductive bus_cmd := BusIdle | BusRd (addr : Z) | BusWr (addr data : Z).

(** [io.ocp.M.Addr(5,2)]: 0 is the data, 1 the select pin, 2 [enReg] and 3 the divider; the other
    numbers are no register. *)
Definition reg_of (addr : Z) : Z := (addr >> 2) .& 15.

Definition writes_reg (n : Z) (cmd : bus_cmd) : bool :=
  match cmd with BusWr a _ => reg_of a =? n | _ => false end.

Definition wr_data (cmd : bus_cmd) : Z := match cmd with BusWr _ d => d | _ => 0 end.

Definition bit_set (v i : Z) (b : bool) : Z := if b then Z.setbit v i else Z.clearbit v i.

(** One clock cycle; [dat] is the pin [sdDatOut] of the card. *)
Definition host_cycle (cmd : bus_cmd) (dat : bool) (h : host) : host :=
  let wr := writes_reg 0 cmd in
  let tick := enReg h && (clkCntReg h =? 1) in
  let sample := tick && clkReg h in
  Host
    (if sample && (bufPntReg h =? 1) then false else if wr then true else enReg h)
    (if sample && negb (bufPntReg h =? 1) then (bufPntReg h - 1) mod 16 else if wr then 8 else bufPntReg h)
    (if writes_reg 3 cmd then u16 (wr_data cmd) else clkDivReg h)
    (if enReg h then (if clkCntReg h =? 1 then clkDivReg h else u16 (clkCntReg h - 1))
     else if wr then clkDivReg h else clkCntReg h)
    (if enReg h then (if tick then negb (clkReg h) else clkReg h) else false)
    (if wr then u8 (wr_data cmd) else bufOutReg h)
    (if sample then bit_set (bufInReg h) (bufPntReg h - 1) dat else if wr then 0 else bufInReg h)
    (if writes_reg 1 cmd then negb (wr_data cmd =? 0) else csReg h)
    (match cmd with
     | BusWr _ d => d
     | BusRd a => if reg_of a =? 0 then bufInReg h else if reg_of a =? 2 then Z.b2z (enReg h) else ocpDataReg h
     | BusIdle => ocpDataReg h
     end).

(** The pins. *)
Definition sdClk (h : host) : bool := enReg h && clkReg h.
Definition sdDatIn (h : host) : bool := Z.testbit (bufOutReg h) (bufPntReg h - 1).

(** ** The pointers of the driver *)

Record pointers := Ptrs { sd_ptr : Z; sd_cs_ptr : Z; sd_en_ptr : Z; sd_clkdiv_ptr : Z }.

(** Those of sd_spi.c: 0x04, 0x08 and 0x0c are added to a pointer to [int], of four bytes. The
    address [PATMOS_IO_SD] of the device is a macro of the C library. *)
Definition sd_pointers (PATMOS_IO_SD : Z) : pointers :=
  Ptrs PATMOS_IO_SD (PATMOS_IO_SD + 4 * 0x04) (PATMOS_IO_SD + 4 * 0x08) (PATMOS_IO_SD + 4 * 0x0c).

(** Pointers to the registers of the controller. *)
Definition to_registers (ptr : pointers) : Prop :=
  reg_of (sd_ptr ptr) = 0 /\ reg_of (sd_cs_ptr ptr) = 1 /\ reg_of (sd_en_ptr ptr) = 2 /\ reg_of (sd_clkdiv_ptr ptr) = 3.

(** ** The card at the pins *)

(** A card takes a bit when the clock rises, with the level of its select pin, and may change its
    output when the clock falls. *)
Class BitCard (K : Type) := {
  dat_out : K -> bool;
  clock_up : bool -> bool -> K -> K;
  clock_down : K -> K
}.

Section card.
Context {K : Type} `{BitCard K}.

Definition sys : Type := host * K.

Definition sys_cycle (cmd : bus_cmd) (s : sys) : sys :=
  let '(h, k) := s in
  let h' := host_cycle cmd (dat_out k) h in
  (h', if negb (sdClk h) && sdClk h' then clock_up (csReg h') (sdDatIn h') k
       else if sdClk h && negb (sdClk h') then clock_down k else k).

(** ** The processor

    [gap i] cycles pass in front of the [i]-th access to the controller; [ptr] are the pointers
    of the driver. *)
Context (ptr : pointers) (gap : nat -> nat).

Definition cpu : Type := sys * nat.

Definition bus_access (cmd : bus_cmd) (st : cpu) : cpu :=
  (sys_cycle cmd (Nat.iter (gap (snd st)) (sys_cycle BusIdle) (fst st)), S (snd st)).

Definition sd_load (a : Z) (st : cpu) : Z * cpu :=
  let st := bus_access (BusRd a) st in (ocpDataReg (fst (fst st)), st).

Definition sd_store (a v : Z) (st : cpu) : cpu := bus_access (BusWr a v) st.

(** [while( *sd_en_ptr != 0);] *)
Fixpoint wait_en (fuel : nat) (st : cpu) : option cpu :=
  match fuel with
  | O => None
  | S fuel => let '(v, st) := sd_load (sd_en_ptr ptr) st in if v =? 0 then Some st else wait_en fuel st
  end.

Definition spi_send (fuel : nat) (dat : Z) (st : cpu) : option (Z * cpu) :=
  match wait_en fuel st with
  | None => None
  | Some st =>
      match wait_en fuel (sd_store (sd_ptr ptr) dat st) with
      | None => None
      | Some st => let '(v, st) := sd_load (sd_ptr ptr) st in Some (u8 v, st)
      end
  end.

(** The end of [spi_set_clockrate]. *)
Definition set_clkdiv (fuel : nat) (v : Z) (st : cpu) : option cpu :=
  match wait_en fuel st with
  | None => None
  | Some st => Some (sd_store (sd_clkdiv_ptr ptr) v st)
  end.

(** ** What is exchanged *)

(** The bits [n - 1] to 0 of [b] are clocked into the card, and as many bits out of it. *)
Fixpoint exchange_bits (n : nat) (cs : bool) (b : Z) (k : K) : Z * K :=
  match n with
  | O => (0, k)
  | S n =>
      let k1 := clock_up cs (Z.testbit b (Z.of_nat n)) k in
      let '(r, k2) := exchange_bits n cs b (clock_down k1) in
      (Z.b2z (dat_out k1) * 2 ^ Z.of_nat n + r, k2)
  end.

Definition exchange (cs : bool) (b : Z) (k : K) : Z * K := exchange_bits 8 cs b k.

(** ** A transaction, cycle by cycle *)

Definition quiet (cmd : bus_cmd) : bool := match cmd with BusWr _ _ => false | _ => true end.

(** The clock divider, the byte to send and the select pin of a transaction. *)
Context (d b : Z) (c : bool) (Hptr : to_registers ptr).

(** [n] bits are left, [cnt] cycles until the clock turns from [clk]; [acc] has been received. *)
Record phase (clk : bool) (n cnt acc : Z) (k : K) (s : sys) : Prop := {
  ph_en : enReg (fst s) = true;
  ph_pnt : bufPntReg (fst s) = n;
  ph_div : clkDivReg (fst s) = d;
  ph_cnt : clkCntReg (fst s) = cnt;
  ph_clk : clkReg (fst s) = clk;
  ph_out : bufOutReg (fst s) = b;
  ph_in : bufInReg (fst s) = acc;
  ph_cs : csReg (fst s) = c;
  ph_card : snd s = k
}.

(** The controller has received [v] and does nothing. *)
Record host_idle (v : Z) (k : K) (s : sys) : Prop := {
  id_en : enReg (fst s) = false;
  id_div : clkDivReg (fst s) = d;
  id_in : bufInReg (fst s) = v;
  id_cs : csReg (fst s) = c;
  id_card : snd s = k
}.

(** A quiet cycle from a known state. *)
Ltac host_step :=
  unfold sys_cycle; split; unfold sdClk, sdDatIn;
  cbn [fst snd host_cycle enReg bufPntReg clkDivReg clkCntReg clkReg bufOutReg bufInReg csReg writes_reg wr_data];
  repeat match goal with E : _ = _ |- _ => progress rewrite E end;
  zif; try done; try (apply u16_small; lia).

Lemma phase_wait cmd clk n cnt acc k s :
  quiet cmd = true -> 1 < cnt < 65536 -> phase clk n cnt acc k s -> phase clk n (cnt - 1) acc k (sys_cycle cmd s).
Proof.
  intros Q Hc [E1 E2 E3 E4 E5 E6 E7 E8 E9]. destruct s as [h k0]. cbn [fst snd] in *.
  destruct cmd; try discriminate Q; clear Q; host_step; by destruct clk.
Qed.

Lemma phase_rise cmd n acc k s :
  quiet cmd = true -> phase false n 1 acc k s ->
  phase true n d acc (clock_up c (Z.testbit b (n - 1)) k) (sys_cycle cmd s).
Proof.
  intros Q [E1 E2 E3 E4 E5 E6 E7 E8 E9]. destruct s as [h k0]. cbn [fst snd] in *.
  destruct cmd; try discriminate Q; clear Q; host_step.
Qed.

Lemma phase_fall cmd n acc k s :
  quiet cmd = true -> 1 < n <= 8 -> phase true n 1 acc k s ->
  phase false (n - 1) d (bit_set acc (n - 1) (dat_out k)) (clock_down k) (sys_cycle cmd s).
Proof.
  intros Q Hn [E1 E2 E3 E4 E5 E6 E7 E8 E9]. destruct s as [h k0]. cbn [fst snd] in *.
  destruct cmd; try discriminate Q; clear Q; host_step; apply Z.mod_small; lia.
Qed.

Lemma phase_last cmd acc k s :
  quiet cmd = true -> phase true 1 1 acc k s ->
  host_idle (bit_set acc 0 (dat_out k)) (clock_down k) (sys_cycle cmd s).
Proof.
  intros Q [E1 E2 E3 E4 E5 E6 E7 E8 E9]. destruct s as [h k0]. cbn [fst snd] in *.
  destruct cmd; try discriminate Q; clear Q; host_step.
Qed.

Lemma idle_stays cmd v k s : quiet cmd = true -> host_idle v k s -> host_idle v k (sys_cycle cmd s).
Proof.
  intros Q [E1 E2 E3 E4 E5]. destruct s as [h k0]. cbn [fst snd] in *.
  destruct cmd; try discriminate Q; clear Q; host_step.
Qed.

Lemma idle_starts v k s : host_idle v k s -> 0 <= b < 256 -> phase false 8 d 0 k (sys_cycle (BusWr (sd_ptr ptr) b) s).
Proof.
  intros [E1 E2 E3 E4 E5] Hb. destruct Hptr as (P0 & P1 & P2 & P3). destruct s as [h k0]. cbn [fst snd] in *. host_step. by apply u8_small.
Qed.

(** What a phase leads to, and after how many cycles. *)
Definition rest_bits (clk : bool) (n : nat) (k : K) : Z * K :=
  if clk then
    let '(r, k2) := exchange_bits n c b (clock_down k) in (Z.b2z (dat_out k) * 2 ^ Z.of_nat n + r, k2)
  else exchange_bits (S n) c b k.

Definition rest_cycles (clk : bool) (n : nat) (cnt : Z) : Z :=
  cnt + (if clk then 0 else d) + Z.of_nat n * (2 * d).

(** The transaction ends in [r] cycles, with the byte [v] and the card in state [k']. *)
Inductive tx (v : Z) (k' : K) : Z -> sys -> Prop :=
  | tx_done s : host_idle v k' s -> tx v k' 0 s
  | tx_phase clk n cnt acc k s :
      phase clk (Z.of_nat (S n)) cnt acc k s -> (n < 8)%nat -> 1 <= cnt <= d ->
      acc mod 2 ^ Z.of_nat (S n) = 0 -> v = acc + fst (rest_bits clk n k) -> k' = snd (rest_bits clk n k) ->
      tx v k' (rest_cycles clk n cnt) s.

Lemma bit_set_add acc n x : acc mod 2 ^ Z.of_nat (S n) = 0 ->
  bit_set acc (Z.of_nat n) x = acc + Z.b2z x * 2 ^ Z.of_nat n.
Proof.
  intros Ha. assert (Hp : 0 < 2 ^ Z.of_nat n) by (apply Z.pow_pos_nonneg; lia).
  assert (Hs : 2 ^ Z.of_nat (S n) = 2 * 2 ^ Z.of_nat n) by (rewrite Nat2Z.inj_succ, Z.pow_succ_r; lia).
  destruct x; cbn [bit_set Z.b2z].
  - rewrite Z.setbit_spec', (lor_add _ _ (Z.of_nat (S n))); lia.
  - apply Z.bits_inj'. intros i Hi. rewrite Z.mul_0_l, Z.add_0_r, Z.clearbit_eqb by done.
    destruct (Z.eqb_spec (Z.of_nat n) i) as [<-|]; [|apply andb_true_r]. rewrite andb_false_r.
    rewrite <- (Z.mod_pow2_bits_low acc (Z.of_nat (S n))), Ha by lia. by rewrite Z.bits_0.
Qed.

Lemma bit_next acc n x :
  acc mod 2 ^ Z.of_nat (S (S n)) = 0 -> (acc + Z.b2z x * 2 ^ Z.of_nat (S n)) mod 2 ^ Z.of_nat (S n) = 0.
Proof.
  intros Ha. assert (Hp : 0 < 2 ^ Z.of_nat (S n)) by (apply Z.pow_pos_nonneg; lia).
  rewrite (Nat2Z.inj_succ (S n)), Z.pow_succ_r in Ha by lia. rewrite Z.mod_add by lia.
  apply Z.mod_divide in Ha as [q ->]; [|lia]. rewrite Z.mul_assoc. by apply Z.mod_mul; lia.
Qed.

Lemma tx_cycle cmd v k' r s :
  quiet cmd = true -> 1 <= d < 65536 -> tx v k' r s -> tx v k' (Z.max 0 (r - 1)) (sys_cycle cmd s).
Proof.
  intros Q Hd [s0 I|clk n cnt acc k s0 P Hn Hc Ha -> ->]; [apply tx_done; by apply idle_stays|].
  unfold rest_cycles. destruct (Z.eq_dec cnt 1) as [->|Nc].
  - destruct clk.
    + destruct n as [|n].
      * replace (Z.max 0 _) with 0 by (simpl; lia). apply tx_done.
        pose proof (phase_last cmd acc k s0 Q P) as I. cbn [rest_bits exchange_bits fst snd].
        change (bit_set acc 0 _) with (bit_set acc (Z.of_nat 0) (dat_out k)) in I.
        rewrite bit_set_add in I by done. by rewrite Z.add_0_r.
      * pose proof (phase_fall cmd (Z.of_nat (S (S n))) acc k s0 Q ltac:(lia) P) as I.
        replace (Z.of_nat (S (S n)) - 1) with (Z.of_nat (S n)) in I by lia. rewrite bit_set_add in I by done.
        replace (Z.max 0 _) with (rest_cycles false n d) by (unfold rest_cycles; lia).
        eapply tx_phase; [exact I|lia|lia| | |].
        -- by apply bit_next.
        -- cbn [rest_bits]. destruct (exchange_bits _ _ _ _). cbn [fst]. lia.
        -- cbn [rest_bits]. by destruct (exchange_bits _ _ _ _).
    + pose proof (phase_rise cmd (Z.of_nat (S n)) acc k s0 Q P) as I.
      replace (Z.max 0 _) with (rest_cycles true n d) by (unfold rest_cycles; lia).
      replace (Z.of_nat (S n) - 1) with (Z.of_nat n) in I by lia.
      by eapply tx_phase; [exact I|lia|lia|..].
  - pose proof (phase_wait cmd clk _ cnt acc k s0 Q ltac:(lia) P) as I.
    replace (Z.max 0 _) with (rest_cycles clk n (cnt - 1)) by (unfold rest_cycles; destruct clk; lia).
    by eapply tx_phase; [exact I|lia|lia|..].
Qed.

Lemma tx_idle_cycles n v k' r s :
  1 <= d < 65536 -> tx v k' r s -> tx v k' (Z.max 0 (r - Z.of_nat n)) (Nat.iter n (sys_cycle BusIdle) s).
Proof.
  intros Hd T. assert (0 <= r) by (destruct T; unfold rest_cycles; [lia|]; destruct clk; nia).
  induction n as [|n IH]; [by replace (Z.max 0 (r - Z.of_nat 0)) with r by lia|].
  pose proof (tx_cycle BusIdle v k' _ _ eq_refl Hd IH) as I.
  by replace (Z.max 0 (r - Z.of_nat (S n))) with (Z.max 0 (Z.max 0 (r - Z.of_nat n) - 1)) by lia.
Qed.

Lemma tx_en v k' r s : tx v k' r s -> 0 <= r /\ enReg (fst s) = (0 <? r).
Proof.
  intros [s0 [E _ _ _ _]|clk n cnt acc k s0 [E _ _ _ _ _ _ _ _] _ Hc _ _ _]; rewrite E; [done|].
  assert (0 < rest_cycles clk n cnt) by (unfold rest_cycles; destruct clk; nia). split; [lia|]. symmetry. by apply Z.ltb_lt.
Qed.

(** ** The processor waits for the end of a transaction *)

Lemma wait_en_spec v k' fuel : forall r st,
  1 <= d < 65536 -> tx v k' r (fst st) -> r < Z.of_nat fuel ->
  exists st', wait_en fuel st = Some st' /\ host_idle v k' (fst st').
Proof.
  induction fuel as [|fuel IH]; intros r st Hd T Hf; [destruct (tx_en _ _ _ _ T); lia|].
  cbn [wait_en sd_load]. unfold sd_load. set (s1 := Nat.iter (gap (snd st)) (sys_cycle BusIdle) (fst st)).
  pose proof (tx_idle_cycles (gap (snd st)) v k' r (fst st) Hd T) as T1. fold s1 in T1.
  destruct (tx_en _ _ _ _ T) as [R0 _]. destruct (tx_en _ _ _ _ T1) as [_ En].
  pose proof (tx_cycle (BusRd (sd_en_ptr ptr)) _ _ _ _ eq_refl Hd T1) as T2.
  assert (Ev : ocpDataReg (fst (fst (bus_access (BusRd (sd_en_ptr ptr)) st))) = Z.b2z (enReg (fst s1))).
  { destruct Hptr as (_ & _ & P & _). unfold bus_access. fold s1. destruct s1. cbn [fst sys_cycle host_cycle ocpDataReg].
    by rewrite P. }
  rewrite Ev, En. destruct (Z.ltb_spec 0 (Z.max 0 (r - Z.of_nat (gap (snd st))))); cbn [Z.b2z Z.eqb].
  - eapply IH; [done|exact T2|lia].
  - eexists. split; [reflexivity|]. unfold bus_access. fold s1. cbn [fst].
    replace (Z.max 0 (Z.max 0 (r - Z.of_nat (gap (snd st))) - 1)) with 0 in T2 by lia.
    inversion T2 as [s0 I|clk n cnt acc k s0 P Hn Hc Ha E1 E2 E3]; [done|].
    exfalso. unfold rest_cycles in E3. destruct clk; nia.
Qed.

Lemma host_idle_cycles n v k s : host_idle v k s -> host_idle v k (Nat.iter n (sys_cycle BusIdle) s).
Proof. intros I. induction n as [|n IH]; [done|]. by apply (idle_stays BusIdle). Qed.
End card.

Section driver.
Context {K : Type} `{BitCard K} (ptr : pointers) (gap : nat -> nat) (Hptr : to_registers ptr).

(** ** The registers of an idle controller *)

Lemma exchange_range n cs b (k : K) : 0 <= fst (exchange_bits n cs b k) < 2 ^ Z.of_nat n.
Proof.
  revert k. induction n as [|n IH]; intros k; [done|]. cbn [exchange_bits].
  specialize (IH (clock_down (clock_up cs (Z.testbit b (Z.of_nat n)) k))). destruct (exchange_bits n cs b _) as [r k2].
  cbn [fst] in *. rewrite Nat2Z.inj_succ, Z.pow_succ_r by lia. destruct (dat_out _); cbn [Z.b2z]; lia.
Qed.

Lemma load_data d c v (k : K) st : host_idle d c v k (fst st) ->
  fst (sd_load gap (sd_ptr ptr) st) = v /\ host_idle d c v k (fst (snd (sd_load gap (sd_ptr ptr) st))).
Proof.
  intros I. pose proof (host_idle_cycles d c (gap (snd st)) v k (fst st) I) as I1.
  unfold sd_load, bus_access. cbn [fst snd]. set (s1 := Nat.iter _ _ _) in *. split.
  - destruct I1 as [_ _ E _ _], Hptr as (P & _), s1. cbn [fst sys_cycle host_cycle ocpDataReg] in *. by rewrite P.
  - by apply idle_stays.
Qed.

Lemma store_cs d c v (k : K) x st : host_idle d c v k (fst st) ->
  host_idle d (negb (x =? 0)) v k (fst (sd_store gap (sd_cs_ptr ptr) x st)).
Proof.
  intros I. pose proof (host_idle_cycles d c (gap (snd st)) v k (fst st) I) as I1.
  unfold sd_store, bus_access. cbn [fst]. set (s1 := Nat.iter _ _ _) in *. destruct I1 as [E1 E2 E3 E4 E5], Hptr as (_ & P & _ & _).
  destruct s1 as [h k1]. unfold sys_cycle. cbn [fst snd] in *.
  split; unfold sdClk; cbn [fst snd host_cycle enReg clkDivReg bufInReg csReg clkReg writes_reg wr_data];
    rewrite ?P, ?E1; done.
Qed.

Lemma store_clkdiv d c v (k : K) x st : host_idle d c v k (fst st) ->
  host_idle (u16 x) c v k (fst (sd_store gap (sd_clkdiv_ptr ptr) x st)).
Proof.
  intros I. pose proof (host_idle_cycles d c (gap (snd st)) v k (fst st) I) as I1.
  unfold sd_store, bus_access. cbn [fst]. set (s1 := Nat.iter _ _ _) in *. destruct I1 as [E1 E2 E3 E4 E5], Hptr as (_ & _ & _ & P).
  destruct s1 as [h k1]. unfold sys_cycle. cbn [fst snd] in *.
  split; unfold sdClk; cbn [fst snd host_cycle enReg clkDivReg bufInReg csReg clkReg writes_reg wr_data];
    rewrite ?P, ?E1; done.
Qed.

Lemma set_clkdiv_spec d c v (k : K) x fuel st :
  1 <= d < 65536 -> 1 <= x < 65536 -> (0 < fuel)%nat -> host_idle d c v k (fst st) ->
  exists st', set_clkdiv ptr gap fuel x st = Some st' /\ host_idle x c v k (fst st').
Proof.
  intros Hd Hx Hf I. unfold set_clkdiv.
  destruct (wait_en_spec ptr gap d 0 c Hptr v k fuel 0 st Hd (tx_done _ _ _ _ _ _ I) ltac:(lia)) as (st1 & -> & I1).
  eexists. split; [reflexivity|]. pose proof (store_clkdiv d c v k x st1 I1) as I2. by rewrite u16_small in I2 by lia.
Qed.

(** With pointers to the registers, [spi_send] returns and exchanges a byte with the card: the eight bits of [dat] are
    clocked into the card, the highest first, and the eight bits the card shifts out are the
    result, whatever the divider of the clock and however long the processor takes between
    its accesses. *)
Theorem spi_send_exchanges d c v0 (k : K) dat fuel st :
  1 <= d < 65536 -> 0 <= dat < 256 -> 16 * d < Z.of_nat fuel -> host_idle d c v0 k (fst st) ->
  exists st', spi_send ptr gap fuel dat st = Some (fst (exchange c dat k), st') /\
    host_idle d c (fst (exchange c dat k)) (snd (exchange c dat k)) (fst st').
Proof.
  intros Hd Hdat Hf I. unfold spi_send.
  destruct (wait_en_spec ptr gap d dat c Hptr v0 k fuel 0 st Hd (tx_done _ _ _ _ _ _ I) ltac:(lia)) as (st1 & E1 & I1). rewrite E1.
  pose proof (idle_starts ptr d dat c Hptr v0 k _ (host_idle_cycles d c (gap (snd st1)) v0 k (fst st1) I1) Hdat) as P.
  assert (T : tx d dat c (fst (exchange c dat k)) (snd (exchange c dat k)) (rest_cycles d false 7 d) (fst (sd_store gap (sd_ptr ptr) dat st1))).
  { eapply tx_phase; [exact P|lia|lia|done|done|done]. }
  destruct (wait_en_spec ptr gap d dat c Hptr _ _ fuel _ _ Hd T) as (st2 & E2 & I2); [unfold rest_cycles; lia|].
  rewrite E2. destruct (load_data d c _ _ st2 I2) as [El Il].
  destruct (sd_load gap (sd_ptr ptr) st2) as [v st3]. cbn [fst snd] in *. exists st3. rewrite El, u8_small; [done|].
  apply (exchange_range 8).
Qed.
End driver.

(** ** The pointers of sd_spi.c *)

Section source_pointers.
Context {K : Type} `{BitCard K} (gap : nat -> nat) (PATMOS_IO_SD : Z).

Local Abbreviation ptr := (sd_pointers PATMOS_IO_SD).

(** The device starts at a multiple of the 64 bytes it decodes. *)
Hypothesis aligned : PATMOS_IO_SD mod 64 = 0.

Lemma reg_of_offset i : 0 <= i < 16 -> reg_of (PATMOS_IO_SD + 4 * i) = i.
Proof.
  intros Hi. apply Z.mod_divide in aligned as [q Eq]; [|done]. unfold reg_of.
  change 15 with (Z.ones 4). rewrite Z.land_ones, Z.shiftr_div_pow2 by done.
  replace (PATMOS_IO_SD + 4 * i) with ((q * 2 ^ 4 + i) * 2 ^ 2) by lia.
  rewrite Z.div_mul by done. rewrite Z.add_comm, Z.mod_add by done. by apply Z.mod_small.
Qed.

(** A read of [sd_en_ptr] reads no register: what was last stored to the device comes back. *)
Lemma load_en st : fst (sd_load gap (sd_en_ptr ptr) st) = ocpDataReg (fst (fst st)) /\
  ocpDataReg (fst (fst (snd (sd_load gap (sd_en_ptr ptr) st)))) = ocpDataReg (fst (fst st)).
Proof.
  assert (I : forall n s, ocpDataReg (fst (Nat.iter n (sys_cycle BusIdle) s)) = ocpDataReg (fst s)).
  { intros n s. induction n as [|n IH]; [done|]. rewrite <- IH. simpl. by destruct (Nat.iter n _ s). }
  rewrite <- (I (gap (snd st)) (fst st)). unfold sd_load, bus_access. cbn [fst snd].
  set (s1 := Nat.iter _ _ _). destruct s1 as [h k]. cbn [fst sys_cycle host_cycle ocpDataReg sd_en_ptr sd_pointers].
  by rewrite (reg_of_offset 0x08).
Qed.

Lemma store_shows a v st : ocpDataReg (fst (fst (sd_store gap a v st))) = v.
Proof. unfold sd_store, bus_access. cbn [fst]. by destruct (Nat.iter _ _ _). Qed.

(** So the loops on it turn for ever after a store of anything but 0. *)
Lemma wait_en_stuck fuel : forall st, ocpDataReg (fst (fst st)) <> 0 -> wait_en ptr gap fuel st = None.
Proof.
  induction fuel as [|fuel IH]; intros st Hs; [done|]. cbn [wait_en]. destruct (load_en st) as [E1 E2].
  destruct (sd_load gap (sd_en_ptr ptr) st) as [v st1]. cbn [fst snd] in *. rewrite E1.
  destruct (_ =? 0) eqn:E; [by apply Z.eqb_eq in E|]. apply IH. exact (eq_ind_r (fun x => x <> 0) Hs E2).
Qed.

(** [spi_send] never returns, unless it sends 0. *)
Theorem spi_send_hangs fuel dat st : dat <> 0 -> spi_send ptr gap fuel dat st = None.
Proof.
  intros Hd. unfold spi_send. destruct (wait_en ptr gap fuel st) as [st1|]; [|done].
  by rewrite (wait_en_stuck fuel) by (by rewrite store_shows).
Qed.

(** Nor does it after such a store. *)
Lemma spi_send_stuck fuel dat st : ocpDataReg (fst (fst st)) <> 0 -> spi_send ptr gap fuel dat st = None.
Proof. intros Hs. unfold spi_send. by rewrite wait_en_stuck. Qed.
End source_pointers.
