(* ===== verification/Sd.v ===== *)
(** * The SD card driver

    src/c/libsd/sd_spi.c (commands, blocks, initialisation) and sddisk.c (the disk interface of
    the FAT32 driver). The driver exchanges bytes over a bus, the operations [SpiOps] with the
    laws [SpiBus], which the controller of [SdHost] implements if the driver's pointers are those
    of its registers; the card is known by the answers the SD specification prescribes, the
    record [SdCard].

    What is proved: over such a bus reads and writes of blocks on the disk are reads and writes of
    the memory of the card, which is what the FAT32 driver relies on. With the pointers that
    sd_spi.c declares the controller is no such bus, and [disk_init] never returns. *)

From stdpp Require Import base list numbers.
From Stdlib Require Import ZArith Lia.
From S2P Require Import Prelude Fat SdHost.

Local Open Scope Z_scope.
Local Open Scope c_scope.

(** ** The bus *)

(** What the driver calls. *)
Class SpiOps (S : Type) := {
  bus_send : Z -> S -> option (Z * S);
  bus_cs : Z -> S -> S;
  bus_clkdiv : Z -> S -> option S
}.

(** What it relies on. [bus_ok cs k s]: the bus is idle, the select pin has the level [cs], and the
    card is in state [k]; [xchg] is the exchange of a byte with the card. *)
Class SpiBus (S K : Type) `{Ops : SpiOps S} := {
  xchg : bool -> Z -> K -> Z * K;
  bus_ok : bool -> K -> S -> Prop;
  bus_send_ok cs k b s : 0 <= b < 256 -> bus_ok cs k s ->
    exists s', bus_send b s = Some (fst (xchg cs b k), s') /\ bus_ok cs (snd (xchg cs b k)) s';
  bus_cs_ok cs k v s : bus_ok cs k s -> bus_ok (negb (v =? 0)) k (bus_cs v s);
  bus_clkdiv_ok cs k v s : 1 <= v < 65536 -> bus_ok cs k s ->
    exists s', bus_clkdiv v s = Some s' /\ bus_ok cs k s'
}.

(** The functions of sd_spi.c that access the controller, over the pointers [ptr]. *)
Section host.
Context {K : Type} `{BitCard K} (ptr : pointers) (gap : nat -> nat).

#[export] Instance host_ops (fuel : nat) : SpiOps cpu := {|
  bus_send := spi_send ptr gap fuel;
  bus_cs := sd_store gap (sd_cs_ptr ptr);
  bus_clkdiv := set_clkdiv ptr gap fuel
|}.

(** With pointers to its registers the controller implements the interface. The bound on the polls
    is enough for the largest divider. *)
Definition max_polls : nat := Z.to_nat 1048576.

Context (Hptr : to_registers ptr).

Definition host_ok (cs : bool) (k : K) (st : cpu) : Prop :=
  exists d v, 1 <= d < 65536 /\ host_idle d cs v k (fst st).

Lemma host_send_ok cs k b st : 0 <= b < 256 -> host_ok cs k st ->
  exists st', spi_send ptr gap max_polls b st = Some (fst (exchange cs b k), st') /\ host_ok cs (snd (exchange cs b k)) st'.
Proof.
  intros Hb (d & v & Hd & I).
  destruct (spi_send_exchanges ptr gap Hptr d cs v k b max_polls st Hd Hb ltac:(unfold max_polls; lia) I) as (st' & E & I').
  exists st'. split; [done|]. by exists d, (fst (exchange cs b k)).
Qed.

Lemma host_cs_ok cs k x st : host_ok cs k st -> host_ok (negb (x =? 0)) k (sd_store gap (sd_cs_ptr ptr) x st).
Proof. intros (d & v & Hd & I). exists d, v. split; [done|]. by eapply store_cs. Qed.

Lemma host_clkdiv_ok cs k x st : 1 <= x < 65536 -> host_ok cs k st ->
  exists st', set_clkdiv ptr gap max_polls x st = Some st' /\ host_ok cs k st'.
Proof.
  intros Hx (d & v & Hd & I).
  destruct (set_clkdiv_spec ptr gap Hptr d cs v k x max_polls st Hd Hx ltac:(unfold max_polls; lia) I) as (st' & E & I').
  exists st'. split; [done|]. by exists x, v.
Qed.

Definition host_bus : SpiBus cpu K (Ops := host_ops max_polls) :=
  Build_SpiBus _ _ (host_ops max_polls) exchange host_ok host_send_ok host_cs_ok host_clkdiv_ok.
End host.

(** ** The driver *)

Inductive SDErr :=
  | SD_SUCCESS | SD_BADRES | SD_CLK_DIVISOR | SD_CLK_HIGH | SD_GOIDLE | SD_TIMEOUT | SD_SENDIFCOND_BADRES
  | SD_SENDOPCOND_BADRES | SD_SENDOPCOND_UNABLE | SD_CRC_BADRES | SD_BLKLEN_BADRES | SD_BADCRC | SD_WR.

#[export] Instance sderr_eq_dec : EqDecision SDErr.
Proof. solve_decision. Defined.

Definition ACMD41_MAX_TRIES : Z := 1000.
Definition SD_WRITE_MAX_WAIT : Z := 1000000.
Definition SD_READ_MAX_WAIT : Z := 1000000.
Definition SD_BUSY_MAX_WAIT : Z := 1000000.
Definition SD_DATA_BEGIN_TOKEN : Z := 0xFE.

Section driver.
Context {B : Type} `{Ops : SpiOps B}.

(** The bus; the last response [sd_res.r1]; [sd_global_info.block_sz]; the fields of
    [disk_global_info]; and [errno]. *)
Record drv := Drv {
  bus : B;
  sd_res : Z;
  sd_block_sz : Z;
  dk_initialized : bool;
  dk_block_sz : Z;
  dk_errno : errno_t
}.

(** A computation of the driver; [None] only if the bus does not answer. *)
Definition M (A : Type) : Type := drv -> option (A * drv).
#[export] Instance M_ret : MRet M := fun A a s => Some (a, s).
#[export] Instance M_bind : MBind M := fun A C f m s =>
  match m s with Some (a, s) => f a s | None => None end.

Definition send (b : Z) : M Z := fun s =>
  match bus_send (u8 b) (bus s) with
  | Some (v, t) => Some (v, Drv t (sd_res s) (sd_block_sz s) (dk_initialized s) (dk_block_sz s) (dk_errno s))
  | None => None
  end.

Definition set_bus (f : B -> B) : M unit := fun s =>
  Some (tt, Drv (f (bus s)) (sd_res s) (sd_block_sz s) (dk_initialized s) (dk_block_sz s) (dk_errno s)).

Definition set_rate (v : Z) : M unit := fun s =>
  match bus_clkdiv v (bus s) with
  | Some t => Some (tt, Drv t (sd_res s) (sd_block_sz s) (dk_initialized s) (dk_block_sz s) (dk_errno s))
  | None => None
  end.

Definition set_res (v : Z) : M unit := fun s =>
  Some (tt, Drv (bus s) v (sd_block_sz s) (dk_initialized s) (dk_block_sz s) (dk_errno s)).

Definition set_disk (i : bool) (bs : Z) : M unit := fun s =>
  Some (tt, Drv (bus s) (sd_res s) (sd_block_sz s) i bs (dk_errno s)).

Definition set_info (bs : Z) : M unit := fun s =>
  Some (tt, Drv (bus s) (sd_res s) bs (dk_initialized s) (dk_block_sz s) (dk_errno s)).

Definition set_dk_errno (e : errno_t) : M unit := fun s =>
  Some (tt, Drv (bus s) (sd_res s) (sd_block_sz s) (dk_initialized s) (dk_block_sz s) e).

Definition gets {A} (f : drv -> A) : M A := fun s => Some (f s, s).

(** [get_cpu_freq] is a function of the C library. *)
Context (get_cpu_freq : Z).

Definition spi_set_clockrate (rate : Z) : M SDErr :=
  let patmos_rate := get_cpu_freq in
  if negb (patmos_rate mod rate =? 0) then mret SD_CLK_DIVISOR
  else if patmos_rate / 2 <? rate then mret SD_CLK_HIGH
  else
    let clkdiv := patmos_rate / rate / 2 in
    set_rate clkdiv ;; mret SD_SUCCESS.

Definition spi_clear : M unit :=
  set_bus (bus_cs 1) ;; send 0xFF ;; set_bus (bus_cs 0).

(** The loops that send 0xFF until [stop] holds of the answer, at most [n] times; the answer, or
    the last one and [false]. *)
Fixpoint send_until (stop : Z -> bool) (n : nat) (last : Z) : M (Z * bool) :=
  match n with
  | O => mret (last, false)
  | S n => r ← send 0xFF; if stop r then mret (r, true) else send_until stop n r
  end.

Definition sd_cmd (cmd arg0 arg1 arg2 arg3 crc : Z) : M Z :=
  spi_clear ;;
  send (cmd .| 0x40) ;; send arg0 ;; send arg1 ;; send arg2 ;; send arg3 ;; send (crc .| 1) ;;
  '(response, _) ← send_until (fun r => negb (r =? 0xFF)) 10 0xFF;
  mret response.

(** Commands store their response in [sd_res.r1]. *)
Definition sd_cmd_res (cmd arg0 arg1 arg2 arg3 crc : Z) : M Z :=
  r ← sd_cmd cmd arg0 arg1 arg2 arg3 crc; set_res r ;; mret r.

Fixpoint op_cond_loop (n : nat) (hcs : Z) : M SDErr :=
  match n with
  | O => mret SD_SENDOPCOND_UNABLE
  | S n =>
      sd_cmd_res 55 0 0 0 0 0xFF ;;
      r ← sd_cmd_res 41 hcs 0 0 0 0xFF;
      if r =? 0 then mret SD_SUCCESS
      else if negb (r =? 1) then mret SD_SENDOPCOND_BADRES
      else op_cond_loop n hcs
  end.

Definition sd_send_op_cond_cmd (hcs : Z) : M SDErr :=
  op_cond_loop (Z.to_nat ACMD41_MAX_TRIES) (if hcs =? 0 then 0 else 0x40).

(** [n] bytes are read from the card. *)
Fixpoint read_bytes (n : nat) : M (list Z) :=
  match n with
  | O => mret []
  | S n => b ← send 0xFF; bs ← read_bytes n; mret (b :: bs)
  end.

Fixpoint send_bytes (bs : list Z) : M unit :=
  match bs with
  | [] => mret tt
  | b :: bs => send b ;; send_bytes bs
  end.

(** Waits for an answer, which is left in [sd_res.r1]. *)
Definition wait_res (stop : Z -> bool) (n : Z) : M bool :=
  last ← gets sd_res;
  '(r, ok) ← send_until stop (Z.to_nat n) last;
  set_res r ;; mret ok.

(** The result, and the bytes that have been stored to [buffer]. *)
Definition sd_read_single_block (addr block_sz : Z) : M (SDErr * list Z) :=
  r ← sd_cmd_res 17 (u8 (addr >> 24)) (u8 (addr >> 16)) (u8 (addr >> 8)) (u8 addr) 0xFF;
  if negb (r =? 0) then mret (SD_BADRES, [])
  else
    ok ← wait_res (fun r => r =? SD_DATA_BEGIN_TOKEN) SD_READ_MAX_WAIT;
    if negb ok then mret (SD_TIMEOUT, [])
    else
      bs ← read_bytes (Z.to_nat block_sz);
      send 0xFF ;; send 0xFF ;;
      mret (SD_SUCCESS, bs).

Definition sd_write_single_block (addr : Z) (buffer : list Z) (block_sz : Z) : M SDErr :=
  r ← sd_cmd_res 24 (u8 (addr >> 24)) (u8 (addr >> 16)) (u8 (addr >> 8)) (u8 addr) 0xFF;
  if negb (r =? 0) then mret SD_BADRES
  else
    r ← send SD_DATA_BEGIN_TOKEN; set_res r ;;
    send_bytes (take (Z.to_nat block_sz) buffer) ;;
    ok ← wait_res (fun r => negb (r =? 0xFF)) SD_WRITE_MAX_WAIT;
    if negb ok then mret SD_TIMEOUT
    else
      r ← gets sd_res;
      let token := r .& 0x1F in
      if token =? 5 then
        ok ← wait_res (fun r => negb (r =? 0)) SD_BUSY_MAX_WAIT;
        if negb ok then mret SD_TIMEOUT else mret SD_SUCCESS
      else if token =? 11 then mret SD_BADCRC
      else if token =? 13 then mret SD_WR
      else mret SD_BADRES.

(** [sd_res.r7[0]] is [sd_res.r1]; the other bytes of the response are local here. *)
Definition sd_init : M SDErr :=
  e ← spi_set_clockrate 400000;
  if decide (e <> SD_SUCCESS) then mret e
  else
    set_bus (bus_cs 1) ;;
    read_bytes 10 ;;
    set_bus (bus_cs 0) ;;
    r ← sd_cmd_res 0 0 0 0 0 0x94;
    if negb (r =? 1) then mret SD_GOIDLE
    else
      r ← sd_cmd_res 8 0 0 1 0xAA 0x86;
      r7 ← read_bytes 4;
      if negb (r =? 1) || negb (arr r7 0 =? 0) || negb (arr r7 1 =? 0) || negb (arr r7 2 =? 1) ||
         negb (arr r7 3 =? 0xAA) then mret SD_SENDIFCOND_BADRES
      else
        e ← sd_send_op_cond_cmd 1;
        e ← (if decide (e <> SD_SUCCESS) then sd_send_op_cond_cmd 0 else mret SD_SUCCESS);
        if decide (e <> SD_SUCCESS) then mret e
        else
          r ← sd_cmd_res 16 0 0 2 0 0xFF;
          if negb (r =? 0) then mret SD_BLKLEN_BADRES
          else set_info 512 ;; spi_set_clockrate 20000000.

Definition sd_info : M Z := gets sd_block_sz.

(** ** The disk *)

Definition disk_info : M (bool * Z) := gets (fun s => (dk_initialized s, dk_block_sz s)).

(** 0, or -1 and [EIO]. *)
Definition disk_init : M Z :=
  res ← sd_init;
  if decide (res <> SD_SUCCESS) then set_dk_errno EIO ;; mret (-1)
  else
    bs ← sd_info;
    set_disk true bs ;; set_dk_errno OK ;; mret 0.

Fixpoint read_blocks (n : nat) (blk : Z) : M (Z * list Z) :=
  match n with
  | O => set_dk_errno OK ;; mret (0, [])
  | S n =>
      blksz ← gets dk_block_sz;
      '(e, bs) ← sd_read_single_block (u32 blk) blksz;
      if decide (e <> SD_SUCCESS) then set_dk_errno EIO ;; mret (-1, bs)
      else '(r, rest) ← read_blocks n (blk + 1); mret (r, bs ++ rest)
  end.

(** The result and the bytes stored to [buf]. *)
Definition disk_read (block num_blocks : Z) : M (Z * list Z) := read_blocks (Z.to_nat num_blocks) block.

Fixpoint write_blocks (n : nat) (blk : Z) (buf : list Z) : M Z :=
  match n with
  | O => set_dk_errno OK ;; mret 0
  | S n =>
      blksz ← gets dk_block_sz;
      res ← sd_write_single_block (u32 blk) buf blksz;
      if decide (res <> SD_SUCCESS) then set_dk_errno EIO ;; mret (-1)
      else write_blocks n (blk + 1) (drop (Z.to_nat blksz) buf)
  end.

Definition disk_write (block : Z) (buf : list Z) (num_blocks : Z) : M Z :=
  write_blocks (Z.to_nat num_blocks) block buf.
End driver.

Arguments drv : clear implicits.
Arguments M : clear implicits.

(** ** The pointers of sd_spi.c *)

Section source_pointers.
Context {K : Type} `{BitCard K} (gap : nat -> nat) (PATMOS_IO_SD : Z).
Hypothesis aligned : PATMOS_IO_SD mod 64 = 0.

(** Claim C40. With the pointers of sd_spi.c the disk is never initialised: they are meant to be 4,
    8 and 12 bytes behind the first register, but are 16, 32 and 48 bytes behind it, for the
    numbers are added to a pointer to [int]. So the polls of [sd_en_ptr] do not read the enable
    register of the controller but return what was stored to the device last. For a frequency of
    the processor that 400000 divides, at least 800000, and a device at a multiple of 64,
    [disk_init] does not return, for any number of polls, from any state of the controller, the
    card and the driver, and whatever the time between two accesses. *)
Theorem disk_init_hangs fuel get_cpu_freq (s : drv (cpu (K := K))) :
  get_cpu_freq mod 400000 = 0 -> 800000 <= get_cpu_freq ->
  disk_init (Ops := host_ops (sd_pointers PATMOS_IO_SD) gap fuel) get_cpu_freq s = None.
Proof.
  intros Hm Hf. unfold disk_init, sd_init, spi_set_clockrate. rewrite Hm. cbn [Z.eqb negb].
  destruct (Z.ltb_spec (get_cpu_freq / 2) 400000) as [L|_]; [assert (400000 <= get_cpu_freq / 2) by (by apply Z.div_le_lower_bound); lia|].
  unfold mbind, M_bind, mret, M_ret, set_rate. cbn [bus_clkdiv host_ops]. destruct (set_clkdiv _ _ _ _ _) as [t|]; [|done].
  rewrite decide_False by auto. unfold set_bus, read_bytes, mbind, M_bind, send.
  cbn [bus bus_cs bus_send host_ops]. rewrite spi_send_stuck; [done..|]. by rewrite store_shows.
Qed.
End source_pointers.

(** ** The card *)

Section spec.
Context {K : Type} (x : bool -> Z -> K -> Z * K).

(** Bytes are exchanged one after the other. *)
Fixpoint xchgs (cs : bool) (bs : list Z) (k : K) : list Z * K :=
  match bs with
  | [] => ([], k)
  | b :: bs => let '(r, k) := x cs b k in let '(rs, k) := xchgs cs bs k in (r :: rs, k)
  end.

Lemma xchgs_cons cs b bs k : snd (xchgs cs (b :: bs) k) = snd (xchgs cs bs (snd (x cs b k))).
Proof. cbn [xchgs]. destruct (x cs b k) as [y k1]. cbn [snd]. by destruct (xchgs cs bs k1). Qed.

(** The card answers [n] bytes of which [idle] holds, and then [y]. *)
Fixpoint waits (idle : Z -> bool) (n : nat) (y : Z) (k k' : K) : Prop :=
  match n with
  | O => x false 0xFF k = (y, k')
  | S n => idle (fst (x false 0xFF k)) = true /\ waits idle n y (snd (x false 0xFF k)) k'
  end.

(** The six bytes of a command with an address. *)
Definition frame (cmd a : Z) : list Z :=
  [cmd .| 0x40; u8 (a >> 24); u8 (a >> 16); u8 (a >> 8); u8 a; 0xFF].

(** What the specification of SD cards says of a card in transfer mode whose blocks have 512
    bytes. [ready m k]: it holds [m] and waits for a command; [reading m a k]: it has taken the
    command to send block [a]; [writing m a k]: to store a block at [a]. Waits are shorter
    than the driver is patient. Addresses count blocks, as on cards of high capacity. *)
Class SdCard := {
  ready : (Z -> list Z) -> K -> Prop;
  reading : (Z -> list Z) -> Z -> K -> Prop;
  writing : (Z -> list Z) -> Z -> K -> Prop;
  card_deselect m k : ready m k -> ready m (snd (x true 0xFF k));
  card_read m a k : ready m k -> 0 <= a < 4294967296 ->
    exists n k', (n <= 8)%nat /\ waits (Z.eqb 0xFF) n 0 (snd (xchgs false (frame 17 a) k)) k' /\ reading m a k';
  card_data m a k : reading m a k ->
    exists n k1, Z.of_nat n < SD_READ_MAX_WAIT /\ waits (fun v => negb (v =? 0xFE)) n 0xFE k k1 /\
      fst (xchgs false (replicate 512 0xFF) k1) = m a /\
      ready m (snd (xchgs false [0xFF; 0xFF] (snd (xchgs false (replicate 512 0xFF) k1))));
  card_write m a k : ready m k -> 0 <= a < 4294967296 ->
    exists n k', (n <= 8)%nat /\ waits (Z.eqb 0xFF) n 0 (snd (xchgs false (frame 24 a) k)) k' /\ writing m a k';
  card_store m a k buf : writing m a k -> block_ok buf ->
    exists n y k1 n' y' k2, Z.of_nat n < SD_WRITE_MAX_WAIT /\ Z.of_nat n' < SD_BUSY_MAX_WAIT /\
      waits (Z.eqb 0xFF) n y (snd (xchgs false (0xFE :: buf) k)) k1 /\ y <> 0xFF /\ y .& 0x1F = 5 /\
      waits (Z.eqb 0) n' y' k1 k2 /\ y' <> 0 /\ ready (put_block m a buf) k2
}.
End spec.

Arguments ready {K x SdCard}.
Arguments reading {K x SdCard}.
Arguments writing {K x SdCard}.
Arguments card_deselect {K x SdCard}.
Arguments card_read {K x SdCard}.
Arguments card_data {K x SdCard}.
Arguments card_write {K x SdCard}.
Arguments card_store {K x SdCard}.

(** ** What the functions of the driver do *)

Section correct.
Context {B K : Type} `{Bus : SpiBus B K}.

(** The select pin, the card, and [sd_res.r1]. *)
Record view := View { v_cs : bool; v_card : K; v_res : Z }.

Definition sees (v : view) (s : drv B) : Prop := bus_ok (v_cs v) (v_card v) (bus s) /\ sd_res s = v_res v.

(** The other variables of the driver. *)
Definition globals (s : drv B) : Z * bool * Z * errno_t :=
  (sd_block_sz s, dk_initialized s, dk_block_sz s, dk_errno s).

(** [runs m v a v']: from a state with view [v], the computation returns [a], with view [v']. *)
Definition runs_sd {A} (m : M B A) (v : view) (a : A) (v' : view) : Prop :=
  forall s, sees v s -> exists s', m s = Some (a, s') /\ sees v' s' /\ globals s' = globals s.

Lemma sd_ret {A} (a : A) v : runs_sd (mret a) v a v.
Proof. intros s H. by exists s. Qed.

Lemma sd_bind {A C} (m : M B A) (f : A -> M B C) v a v1 c v2 :
  runs_sd m v a v1 -> runs_sd (f a) v1 c v2 -> runs_sd (m ≫= f) v c v2.
Proof.
  intros Hm Hf s Hs. destruct (Hm s Hs) as (s1 & E1 & H1 & G1). destruct (Hf s1 H1) as (s2 & E2 & H2 & G2).
  exists s2. unfold mbind, M_bind. rewrite E1. split; [done|]. split; [done|congruence].
Qed.

Lemma sd_send b cs k r :
  runs_sd (send b) (View cs k r) (fst (xchg cs (u8 b) k)) (View cs (snd (xchg cs (u8 b) k)) r).
Proof.
  intros s [Hb Hr]. destruct (bus_send_ok cs k (u8 b) (bus s) (u8_range b) Hb) as (t & E & Hb').
  eexists. unfold send. rewrite E. split; [reflexivity|]. by repeat split.
Qed.

Lemma sd_set_cs v cs k r : runs_sd (set_bus (bus_cs v)) (View cs k r) tt (View (negb (v =? 0)) k r).
Proof. intros s [Hb Hr]. eexists. split; [reflexivity|]. split; [|done]. split; [by apply (bus_cs_ok cs)|done]. Qed.

Lemma sd_set_res v cs k r : runs_sd (set_res v) (View cs k r) tt (View cs k v).
Proof. intros s [Hb Hr]. eexists. split; [reflexivity|]. by repeat split. Qed.

Lemma sd_gets_res v : runs_sd (gets sd_res) v (v_res v) v.
Proof. intros s [Hb Hr]. exists s. split; [|done]. unfold gets. by rewrite Hr. Qed.

Local Abbreviation xs := (xchgs xchg).

Lemma sd_read_bytes n : forall cs k r,
  runs_sd (read_bytes n) (View cs k r) (fst (xs cs (replicate n 0xFF) k)) (View cs (snd (xs cs (replicate n 0xFF) k)) r).
Proof.
  induction n as [|n IH]; intros cs k r; [apply sd_ret|]. cbn [read_bytes replicate xchgs].
  eapply sd_bind; [apply sd_send|]. change (u8 0xFF) with 0xFF. destruct (xchg cs 0xFF k) as [y k1]. cbn [fst snd].
  eapply sd_bind; [apply IH|]. destruct (xs cs (replicate n 0xFF) k1). apply sd_ret.
Qed.

Lemma sd_send_bytes bs : forall cs k r, Forall (fun b => 0 <= b < 256) bs ->
  runs_sd (send_bytes bs) (View cs k r) tt (View cs (snd (xs cs bs k)) r).
Proof.
  induction bs as [|b bs IH]; intros cs k r F; [apply sd_ret|]. apply Forall_cons_1 in F as [Hb F]. cbn [send_bytes xchgs].
  eapply sd_bind; [apply sd_send|]. rewrite u8_small by done. destruct (xchg cs b k) as [y k1]. cbn [snd].
  specialize (IH cs k1 r F). by destruct (xs cs bs k1).
Qed.

Lemma sd_send_until stop idle y k' m : forall n last k r,
  (forall v, idle v = true -> stop v = false) -> stop y = true -> waits xchg idle m y k k' -> (m < n)%nat ->
  runs_sd (send_until stop n last) (View false k r) (y, true) (View false k' r).
Proof.
  induction m as [|m IH]; intros n last k r Hi Hy W L; (destruct n as [|n]; [lia|]); cbn [send_until waits] in *.
  - eapply sd_bind; [apply sd_send|]. change (u8 0xFF) with 0xFF. rewrite W. cbn [fst snd]. rewrite Hy. apply sd_ret.
  - destruct W as [W1 W2]. eapply sd_bind; [apply sd_send|]. change (u8 0xFF) with 0xFF.
    rewrite (Hi _ W1). apply IH; [done..|lia].
Qed.

(** A command: the card is deselected for a byte, and takes six bytes. *)
Lemma sd_run_cmd cmd a y k k' m r :
  u8 (cmd .| 0x40) = cmd .| 0x40 -> y <> 0xFF -> (m <= 8)%nat ->
  waits xchg (Z.eqb 0xFF) m y (snd (xs false (frame cmd a) (snd (xchg true 0xFF k)))) k' ->
  runs_sd (sd_cmd_res cmd (u8 (a >> 24)) (u8 (a >> 16)) (u8 (a >> 8)) (u8 a) 0xFF) (View false k r) y (View false k' y).
Proof.
  intros Hc Hy Hm W. unfold frame in W. rewrite !xchgs_cons in W. cbn [xchgs snd] in W.
  unfold sd_cmd_res, sd_cmd, spi_clear.
  eapply sd_bind with (v1 := View false k' r) (a := y); [|eapply sd_bind; [apply sd_set_res|apply sd_ret]].
  eapply sd_bind with (v1 := View false (snd (xchg true 0xFF k)) r).
  { eapply sd_bind; [apply (sd_set_cs 1)|]. eapply sd_bind; [apply sd_send|]. apply (sd_set_cs 0). }
  do 6 (eapply sd_bind; [apply sd_send|]). rewrite Hc, !u8_u8. change (u8 (0xFF .| 1)) with 0xFF.
  eapply sd_bind with (a := (y, true)); [|apply sd_ret]. eapply (sd_send_until _ _ y); [|by apply negb_true_iff, Z.eqb_neq|exact W|lia].
  intros v Hv%Z.eqb_eq. by subst v.
Qed.

Lemma sd_wait_res stop idle y k k' m n r :
  (forall v, idle v = true -> stop v = false) -> stop y = true -> waits xchg idle m y k k' -> Z.of_nat m < n ->
  runs_sd (wait_res stop n) (View false k r) true (View false k' y).
Proof.
  intros Hi Hy W L. unfold wait_res. eapply sd_bind; [apply sd_gets_res|].
  eapply sd_bind; [eapply sd_send_until; [exact Hi|done|exact W|lia]|].
  eapply sd_bind; [apply sd_set_res|apply sd_ret].
Qed.

Context {Card : SdCard (K := K) xchg}.

(** Blocks are read and written. *)
Lemma sd_read_spec m k r a : ready m k -> 0 <= a < 4294967296 ->
  exists k' r', runs_sd (sd_read_single_block a 512) (View false k r) (SD_SUCCESS, m a) (View false k' r') /\ ready m k'.
Proof.
  intros R Ha. destruct (card_read m a _ (card_deselect m k R) Ha) as (n1 & k1 & L1 & W1 & R1).
  destruct (card_data m a k1 R1) as (n2 & k2 & L2 & W2 & D & R2).
  eexists _, _. split; [|exact R2]. unfold sd_read_single_block. change (Z.to_nat 512) with 512%nat.
  eapply sd_bind; [eapply (sd_run_cmd 17 a 0); [reflexivity|discriminate|exact L1|exact W1]|]. cbn [Z.eqb negb].
  eapply sd_bind; [eapply (sd_wait_res _ _ 0xFE); [|reflexivity|exact W2|exact L2]|].
  { intros v Hv%negb_true_iff. exact Hv. }
  cbn [negb]. eapply sd_bind; [apply sd_read_bytes|]. rewrite D.
  eapply sd_bind; [apply sd_send|]. eapply sd_bind; [apply sd_send|]. rewrite !xchgs_cons. apply sd_ret.
Qed.

Lemma sd_write_spec m k r a buf : ready m k -> 0 <= a < 4294967296 -> block_ok buf ->
  exists k' r', runs_sd (sd_write_single_block a buf 512) (View false k r) SD_SUCCESS (View false k' r') /\
    ready (put_block m a buf) k'.
Proof.
  intros R Ha Hb. destruct (card_write m a _ (card_deselect m k R) Ha) as (n1 & k1 & L1 & W1 & R1).
  destruct (card_store m a k1 buf R1 Hb) as (n2 & y & k2 & n3 & y' & k3 & L2 & L3 & W2 & Hy & Ht & W3 & Hy' & R3).
  eexists _, _. split; [|exact R3]. unfold sd_write_single_block.
  eapply sd_bind; [eapply (sd_run_cmd 24 a 0); [reflexivity|discriminate|exact L1|exact W1]|]. cbn [Z.eqb negb].
  eapply sd_bind; [apply sd_send|]. eapply sd_bind; [apply sd_set_res|].
  rewrite (take_ge buf) by (rewrite (proj1 Hb); lia).
  eapply sd_bind; [apply sd_send_bytes, Hb|]. change (u8 SD_DATA_BEGIN_TOKEN) with 0xFE. rewrite xchgs_cons in W2.
  eapply sd_bind; [eapply (sd_wait_res _ _ y); [|by apply negb_true_iff, Z.eqb_neq|exact W2|exact L2]|].
  { intros v Hv%Z.eqb_eq. by subst v. }
  cbn [negb]. eapply sd_bind; [apply sd_gets_res|]. cbn [v_res]. rewrite Ht. cbn [Z.eqb Pos.eqb].
  eapply sd_bind; [eapply (sd_wait_res _ _ y'); [|by apply negb_true_iff, Z.eqb_neq|exact W3|exact L3]|apply sd_ret].
  intros v Hv%Z.eqb_eq. by subst v.
Qed.

(** The disk: the states of the driver in which it is used. *)
Definition disk_at (m : Z -> list Z) (s : drv B) : Prop :=
  dk_block_sz s = 512 /\ exists k, bus_ok false k (bus s) /\ ready m k.

Lemma disk_read_spec m a s : disk_at m s -> 0 <= a < 4294967296 ->
  exists s', disk_read a 1 s = Some ((0, m a), s') /\ disk_at m s' /\ dk_errno s' = OK.
Proof.
  intros (Hb & k & Hk & R) Ha. destruct (sd_read_spec m k (sd_res s) a R Ha) as (k' & r' & Run & R').
  destruct (Run s) as (s' & E & [Hk' _] & G); [done|]. injection G as G1 G2 G3 G4.
  exists (Drv (bus s') (sd_res s') (sd_block_sz s') (dk_initialized s') (dk_block_sz s') OK).
  split; [|split; [|done]].
  - unfold disk_read. change (Z.to_nat 1) with 1%nat. cbn [read_blocks]. unfold mbind, M_bind, gets. cbv beta iota.
    rewrite Hb, u32_small by done. rewrite E. cbn [decide]. destruct (decide _); [done|]. cbn. by rewrite app_nil_r.
  - split; [cbn; congruence|]. by exists k'.
Qed.

Lemma disk_write_spec m a buf s : disk_at m s -> 0 <= a < 4294967296 -> block_ok buf ->
  exists s', disk_write a buf 1 s = Some (0, s') /\ disk_at (put_block m a buf) s' /\ dk_errno s' = OK.
Proof.
  intros (Hb & k & Hk & R) Ha Hbuf. destruct (sd_write_spec m k (sd_res s) a buf R Ha Hbuf) as (k' & r' & Run & R').
  destruct (Run s) as (s' & E & [Hk' _] & G); [done|]. injection G as G1 G2 G3 G4.
  exists (Drv (bus s') (sd_res s') (sd_block_sz s') (dk_initialized s') (dk_block_sz s') OK).
  split; [|split; [|done]].
  - unfold disk_write. change (Z.to_nat 1) with 1%nat. cbn [write_blocks]. unfold mbind, M_bind, gets. cbv beta iota.
    rewrite Hb, u32_small by done. rewrite E. cbn [decide]. by destruct (decide _).
  - split; [cbn; congruence|]. by exists k'.
Qed.

(** ** The disk of the FAT32 driver *)

Inductive io := IoRead (a : Z) | IoWrite (a : Z) (buf : list Z).

Definition io_ok (o : io) : Prop :=
  match o with IoRead a => 0 <= a < 4294967296 | IoWrite a buf => 0 <= a < 4294967296 /\ block_ok buf end.

(** [fat_read_single_block] and [fat_write_single_block] on the blocks of [Fat]: the block that
    was read, and [None] for a failure. *)
Definition fat_io (o : io) (s : fs) : option (list Z) * fs :=
  match o with
  | IoRead a => fat_read_single_block a s
  | IoWrite a buf => let '(ok, s) := fat_write_single_block a buf s in ((if ok then Some [] else None), s)
  end.

(** And their code in fat32.c, on the disk. *)
Definition card_io (o : io) : M B (option (list Z)) :=
  match o with
  | IoRead a => '(r, buf) ← disk_read a 1; if r =? 0 then mret (Some buf) else set_dk_errno EIO ;; mret None
  | IoWrite a buf => r ← disk_write a buf 1; if r =? 0 then mret (Some []) else set_dk_errno EIO ;; mret None
  end.

Fixpoint fat_ios (os : list io) (s : fs) : list (option (list Z)) * fs :=
  match os with
  | [] => ([], s)
  | o :: os => let '(r, s) := fat_io o s in let '(rs, s) := fat_ios os s in (r :: rs, s)
  end.

Fixpoint card_ios (os : list io) : M B (list (option (list Z))) :=
  match os with
  | [] => mret []
  | o :: os => r ← card_io o; rs ← card_ios os; mret (r :: rs)
  end.

(** Claim C18. The disk the FAT32 driver assumes is the memory of the card, over a bus that
    exchanges bytes (the interface [SpiBus] between the driver and the controller): once the disk
    is initialised with blocks of 512 bytes and the card waits for a command, any sequence of
    reads and writes of blocks, sent as commands over the bus and answered byte by byte by the
    card as the SD specification says ([SdCard]: no errors, waits shorter than the driver's
    limits), returns what it returns on the map from addresses to blocks, and leaves the card
    with the same blocks; all loops of the driver above the bus end. The functions of sd_spi.c
    that access the controller are such a bus for pointers to its registers ([host_bus]), which
    the pointers the file declares are not ([disk_init_hangs]). *)
Theorem disk_refines_blocks os : forall (t : drv B) s,
  disk_at (blocks s) t -> faults s = [] -> Forall io_ok os ->
  exists t', card_ios os t = Some (fst (fat_ios os s), t') /\ disk_at (blocks (snd (fat_ios os s))) t'.
Proof.
  induction os as [|o os IH]; intros t s D F Ok; [by exists t|].
  apply Forall_cons_1 in Ok as [O1 O2]. cbn [card_ios fat_ios].
  assert (exists t1, card_io o t = Some (fst (fat_io o s), t1) /\ disk_at (blocks (snd (fat_io o s))) t1 /\
    faults (snd (fat_io o s)) = []) as (t1 & E1 & D1 & F1).
  { destruct o as [a|a buf]; cbn [card_io fat_io io_ok] in *; unfold fat_read_single_block, fat_write_single_block; rewrite F.
    - destruct (disk_read_spec _ a t D O1) as (t1 & E & D1 & _). exists t1. unfold mbind, M_bind. by rewrite E.
    - destruct O1 as [Ha Hb]. destruct (disk_write_spec _ a buf t D Ha Hb) as (t1 & E & D1 & _). exists t1.
      unfold mbind, M_bind. by rewrite E. }
  destruct (fat_io o s) as [r s1]. cbn [fst snd] in *. destruct (IH t1 s1 D1 F1 O2) as (t2 & E2 & D2).
  exists t2. unfold mbind, M_bind. rewrite E1, E2. by destruct (fat_ios os s1).
Qed.
End correct.
