(* ===== verification/SdDemo.v ===== *)
(** * An SD card

    A card that answers as the specification says, first byte by byte, then bit by bit at the
    pins of the controller: the hypotheses of [Sd] can hold, for the whole chain from the disk
    interface down to the clock cycles of the controller, once the pointers of the driver are
    those of its registers. *)

From stdpp Require Import base list numbers.
From Stdlib Require Import ZArith Lia.
From S2P Require Import Prelude Fat SdHost Sd.

Local Open Scope Z_scope.
Local Open Scope c_scope.

(** ** Bytes *)

(** The card waits for a command, for the token in front of a block, or collects a block. *)
Inductive sim_mode := MCmd | MToken (a : Z) | MData (a : Z) (acc : list Z).

(** [outq] are the bytes to send, [cmdbuf] the bytes of a command so far. *)
Record simcard := Sim { mem : Z -> list Z; outq : list Z; cmdbuf : list Z; sim_md : sim_mode }.

Definition be32 (c : list Z) : Z := arr c 1 * 16777216 + arr c 2 * 65536 + arr c 3 * 256 + arr c 4.

Definition sim_exec (c : list Z) (m : Z -> list Z) : simcard :=
  let answer q := Sim m q [] MCmd in
  let n := arr c 0 - 64 in
  if n =? 17 then answer ([0xFF; 0; 0xFF; 0xFE] ++ m (be32 c) ++ [0; 0])
  else if n =? 24 then Sim m [0] [] (MToken (be32 c))
  else if (n =? 0) || (n =? 55) then answer [1]
  else if n =? 8 then answer [1; 0; 0; 1; 0xAA]
  else if (n =? 41) || (n =? 16) then answer [0]
  else answer [4].

Definition sim_in (cs : bool) (b : Z) (k : simcard) : simcard :=
  if cs then k
  else match sim_md k with
       | MCmd =>
           if match cmdbuf k with [] => negb ((64 <=? b) && (b <? 128)) | _ => false end
           then Sim (mem k) (tail (outq k)) [] MCmd
           else
             let c := cmdbuf k ++ [b] in
             if (length c <? 6)%nat then Sim (mem k) (tail (outq k)) c MCmd else sim_exec c (mem k)
       | MToken a => Sim (mem k) (tail (outq k)) [] (if b =? 0xFE then MData a [] else MToken a)
       | MData a acc =>
           let acc := acc ++ [b] in
           if (length acc <? 514)%nat then Sim (mem k) (tail (outq k)) [] (MData a acc)
           else Sim (put_block (mem k) a (take 512 acc)) [0xE5; 0; 0; 1] [] MCmd
       end.

Definition sim_x (cs : bool) (b : Z) (k : simcard) : Z * simcard :=
  (if cs then 0xFF else u8 (match outq k with [] => 0xFF | v :: _ => v end), sim_in cs b k).

(** Bytes that are queued come out. *)
Lemma sim_reads m l : forall q, Forall (fun b => 0 <= b < 256) l ->
  xchgs sim_x false (replicate (length l) 0xFF) (Sim m (l ++ q) [] MCmd) = (l, Sim m q [] MCmd).
Proof.
  induction l as [|b l IH]; intros q F; [done|]. apply Forall_cons_1 in F as [Hb F].
  cbn [length replicate xchgs sim_x sim_in sim_md cmdbuf outq mem app tail andb negb Z.leb Z.ltb Z.compare Pos.compare Pos.compare_cont].
  rewrite (IH q F). by rewrite u8_small.
Qed.

Lemma sim_collects m a bs : forall acc, (length acc + length bs < 514)%nat ->
  snd (xchgs sim_x false bs (Sim m [] [] (MData a acc))) = Sim m [] [] (MData a (acc ++ bs)).
Proof.
  induction bs as [|b bs IH]; intros acc L; [by rewrite app_nil_r|]. simpl in L.
  cbn [xchgs sim_x sim_in sim_md outq mem tail].
  rewrite (proj2 (Nat.ltb_lt _ _)) by (rewrite length_app; simpl; lia).
  specialize (IH (acc ++ [b]) ltac:(rewrite length_app; simpl; lia)). rewrite <- app_assoc in IH.
  by destruct (xchgs sim_x false bs _).
Qed.

Lemma be32_frame c0 a : 0 <= a < 4294967296 ->
  be32 [c0; u8 (a >> 24); u8 (a >> 16); u8 (a >> 8); u8 a; 0xFF] = a.
Proof.
  intros Ha. unfold be32, arr. change (Z.to_nat 1) with 1%nat. change (Z.to_nat 2) with 2%nat. change (Z.to_nat 3) with 3%nat.
  change (Z.to_nat 4) with 4%nat. cbn [nth].
  rewrite !shr_div by lia. unfold u8. change (2 ^ 24) with (256 * 256 * 256). change (2 ^ 16) with (256 * 256).
  change (2 ^ 8) with 256. rewrite <- !Z.div_div by lia. set (b := a / 256). set (c := b / 256). set (d := c / 256).
  assert (a = 256 * b + a mod 256) by (apply Z.div_mod; lia). assert (b = 256 * c + b mod 256) by (apply Z.div_mod; lia).
  assert (c = 256 * d + c mod 256) by (apply Z.div_mod; lia). pose proof (Z.mod_pos_bound a 256 ltac:(lia)). pose proof (Z.mod_pos_bound b 256 ltac:(lia)).
  pose proof (Z.mod_pos_bound c 256 ltac:(lia)). rewrite (Z.mod_small d) by lia. lia.
Qed.

(** A command frame reaches the card. *)
Lemma sim_first m b : 64 <= b < 128 -> snd (sim_x false b (Sim m [] [] MCmd)) = Sim m [] [b] MCmd.
Proof. intros Hb. cbn. by zif. Qed.

Lemma sim_more m c0 c b : (length c < 4)%nat ->
  snd (sim_x false b (Sim m [] (c0 :: c) MCmd)) = Sim m [] (c0 :: c ++ [b]) MCmd.
Proof.
  intros L. unfold sim_x, sim_in. cbn [snd sim_md cmdbuf outq mem tail app].
  by rewrite (proj2 (Nat.ltb_lt _ _)) by (simpl; rewrite length_app; simpl; lia).
Qed.

Lemma sim_sixth m c0 c b : length c = 4%nat ->
  snd (sim_x false b (Sim m [] (c0 :: c) MCmd)) = sim_exec (c0 :: c ++ [b]) m.
Proof.
  intros L. unfold sim_x, sim_in. cbn [snd sim_md cmdbuf outq mem tail app].
  by rewrite (proj2 (Nat.ltb_ge _ _)) by (simpl; rewrite length_app; simpl; lia).
Qed.

Lemma sim_frame n m a : 64 <= n .| 0x40 < 128 ->
  snd (xchgs sim_x false (frame n a) (Sim m [] [] MCmd)) =
    sim_exec [n .| 0x40; u8 (a >> 24); u8 (a >> 16); u8 (a >> 8); u8 a; 0xFF] m.
Proof.
  intros Hn. unfold frame. rewrite xchgs_cons, sim_first by done. do 4 (rewrite xchgs_cons, sim_more by (simpl; lia)).
  by rewrite xchgs_cons, sim_sixth.
Qed.

(** ** The laws *)

Definition sim_ready (m : Z -> list Z) (k : simcard) : Prop := disk_ok m /\ k = Sim m [] [] MCmd.

Definition sim_reading (m : Z -> list Z) (a : Z) (k : simcard) : Prop :=
  disk_ok m /\ k = Sim m ([0xFF; 0xFE] ++ m a ++ [0; 0]) [] MCmd.

Definition sim_writing (m : Z -> list Z) (a : Z) (k : simcard) : Prop :=
  disk_ok m /\ k = Sim m [] [] (MToken a).

Lemma sim_card_read m a k : sim_ready m k -> 0 <= a < 4294967296 ->
  exists n k', (n <= 8)%nat /\ waits sim_x (Z.eqb 0xFF) n 0 (snd (xchgs sim_x false (frame 17 a) k)) k' /\ sim_reading m a k'.
Proof.
  intros [D ->] Ha. rewrite sim_frame by (vm_compute; done). unfold sim_exec. rewrite be32_frame by done.
  exists 1%nat. eexists. split; [lia|]. split; [split; reflexivity|]. by split.
Qed.

Lemma sim_card_data m a k : sim_reading m a k ->
  exists n k1, Z.of_nat n < SD_READ_MAX_WAIT /\ waits sim_x (fun v => negb (v =? 0xFE)) n 0xFE k k1 /\
    fst (xchgs sim_x false (replicate 512 0xFF) k1) = m a /\
    sim_ready m (snd (xchgs sim_x false [0xFF; 0xFF] (snd (xchgs sim_x false (replicate 512 0xFF) k1)))).
Proof.
  intros [D ->]. exists 1%nat. eexists. split; [done|]. split; [split; reflexivity|].
  cbn [snd sim_x sim_in sim_md cmdbuf outq mem tail app Z.leb Z.ltb Z.compare Pos.compare Pos.compare_cont andb negb].
  destruct (D a) as [L F]. rewrite <- L, sim_reads by done. split; [done|]. by split.
Qed.

Lemma sim_card_write m a k : sim_ready m k -> 0 <= a < 4294967296 ->
  exists n k', (n <= 8)%nat /\ waits sim_x (Z.eqb 0xFF) n 0 (snd (xchgs sim_x false (frame 24 a) k)) k' /\ sim_writing m a k'.
Proof.
  intros [D ->] Ha. rewrite sim_frame by (vm_compute; done). unfold sim_exec. rewrite be32_frame by done.
  exists 0%nat. eexists. split; [lia|]. split; [reflexivity|]. by split.
Qed.

Lemma sim_card_store m a k buf : sim_writing m a k -> block_ok buf ->
  exists n y k1 n' y' k2, Z.of_nat n < SD_WRITE_MAX_WAIT /\ Z.of_nat n' < SD_BUSY_MAX_WAIT /\
    waits sim_x (Z.eqb 0xFF) n y (snd (xchgs sim_x false (0xFE :: buf) k)) k1 /\ y <> 0xFF /\ y .& 0x1F = 5 /\
    waits sim_x (Z.eqb 0) n' y' k1 k2 /\ y' <> 0 /\ sim_ready (put_block m a buf) k2.
Proof.
  intros [D ->] [L F]. exists 2%nat, 0xE5, (Sim (put_block m a buf) [0; 0; 1] [] MCmd), 2%nat, 1.
  exists (Sim (put_block m a buf) [] [] MCmd). split; [done|]. split; [done|]. split; [|split; [done|split; [done|]]].
  - assert (E : snd (xchgs sim_x false (0xFE :: buf) (Sim m [] [] (MToken a))) = Sim m [] [] (MData a buf)).
    { pose proof (sim_collects m a buf [] ltac:(simpl; lia)) as C. cbn [app] in C. rewrite <- C.
      cbn [xchgs sim_x sim_in sim_md outq mem tail Z.eqb Pos.eqb]. by destruct (xchgs sim_x false buf _). }
    rewrite E. cbn [waits sim_x fst snd sim_in sim_md outq mem tail].
    rewrite (proj2 (Nat.ltb_lt _ _)) by (rewrite length_app; simpl; lia). split; [reflexivity|].
    cbn [sim_in sim_md outq mem tail fst snd]. rewrite (proj2 (Nat.ltb_ge _ _)) by (rewrite !length_app; simpl; lia).
    rewrite <- app_assoc, take_app_length' by done. split; reflexivity.
  - split; [split; [reflexivity|split; reflexivity]|]. split; [done|]. split; [|done]. by apply put_block_ok.
Qed.

(** ** Bits *)

(** The card behind a shift register: [sh] are the bits that have come in, [cnt] their number. *)
Record bitcard := Bits { byte_card : simcard; sh : Z; cnt : nat; sel : bool }.

Definition at_rest (k : simcard) : bitcard := Bits k 0 0 false.

#[export] Instance sim_bits : BitCard bitcard := {|
  dat_out w := Z.testbit (fst (sim_x (sel w) 0 (byte_card w))) (7 - Z.of_nat (cnt w));
  clock_up cs di w := Bits (byte_card w) (2 * sh w + Z.b2z di) (cnt w) cs;
  clock_down w :=
    if (cnt w =? 7)%nat then at_rest (sim_in (sel w) (sh w) (byte_card w))
    else Bits (byte_card w) (sh w) (S (cnt w)) (sel w)
|}.

(** A byte is its bits. *)
Definition bits_of (b : Z) : Z :=
  fold_left (fun v i => 2 * v + Z.b2z (Z.testbit b i)) [7; 6; 5; 4; 3; 2; 1; 0] 0.

Lemma bits_of_byte b : 0 <= b < 256 -> bits_of b = b.
Proof.
  intros Hb. assert (F : forallb (fun n => bits_of (Z.of_nat n) =? Z.of_nat n) (seq 0 256) = true) by (vm_compute; reflexivity).
  rewrite forallb_forall in F. specialize (F (Z.to_nat b)). rewrite Z2Nat.id in F by lia. apply Z.eqb_eq, F, in_seq. lia.
Qed.

Lemma exchange_byte cs b k : 0 <= b < 256 ->
  exchange cs b (at_rest k) = (fst (sim_x cs b k), at_rest (snd (sim_x cs b k))).
Proof.
  intros Hb. assert (Hy : 0 <= fst (sim_x cs b k) < 256) by (cbn; destruct cs; [lia|apply u8_range]).
  pose proof (bits_of_byte b Hb) as Eb. pose proof (bits_of_byte _ Hy) as Ey.
  unfold bits_of in Eb, Ey. cbn [fold_left] in Eb, Ey.
  unfold exchange, at_rest. cbn [exchange_bits clock_up clock_down dat_out sim_bits byte_card sh cnt sel Nat.eqb].
  change (fst (sim_x cs 0 k)) with (fst (sim_x cs b k)).
  change (Z.of_nat 7) with 7. change (Z.of_nat 6) with 6. change (Z.of_nat 5) with 5. change (Z.of_nat 4) with 4.
  change (Z.of_nat 3) with 3. change (Z.of_nat 2) with 2. change (Z.of_nat 1) with 1. change (Z.of_nat 0) with 0.
  rewrite Eb. f_equal. change (2 ^ 7) with 128. change (2 ^ 6) with 64. change (2 ^ 5) with 32. change (2 ^ 4) with 16.
  change (2 ^ 3) with 8. change (2 ^ 2) with 4. change (2 ^ 1) with 2. change (2 ^ 0) with 1.
  change (7 - 0) with 7. change (7 - 1) with 6. change (7 - 2) with 5. change (7 - 3) with 4.
  change (7 - 4) with 3. change (7 - 5) with 2. change (7 - 6) with 1. change (7 - 7) with 0. lia.
Qed.

(** Sequences of bytes. *)
Lemma xchgs_bytes cs bs : forall k, Forall (fun b => 0 <= b < 256) bs ->
  xchgs exchange cs bs (at_rest k) = (fst (xchgs sim_x cs bs k), at_rest (snd (xchgs sim_x cs bs k))).
Proof.
  induction bs as [|b bs IH]; intros k F; [done|]. apply Forall_cons_1 in F as [Hb F]. cbn [xchgs].
  rewrite exchange_byte by done. destruct (sim_x cs b k) as [y k1]. cbn [fst snd]. rewrite IH by done.
  by destruct (xchgs sim_x cs bs k1).
Qed.

Lemma waits_bytes idle n y : forall k k', waits sim_x idle n y k k' -> waits exchange idle n y (at_rest k) (at_rest k').
Proof.
  induction n as [|n IH]; intros k k'; cbn [waits]; rewrite exchange_byte by lia.
  - by intros ->.
  - cbn [fst snd]. intros [H1 H2]. split; [done|]. by apply IH.
Qed.

Lemma frame_bytes_ok n a : 0 <= n .| 0x40 < 256 -> Forall (fun b => 0 <= b < 256) (frame n a).
Proof. intros Hn. unfold frame. repeat (apply Forall_cons_2; [apply u8_range || lia|]). by apply Forall_nil_2. Qed.

Lemma ff_bytes n : Forall (fun b => 0 <= b < 256) (replicate n 0xFF).
Proof. by apply Forall_replicate. Qed.

Lemma data_bytes n k :
  fst (xchgs exchange false (replicate n 0xFF) (at_rest k)) = fst (xchgs sim_x false (replicate n 0xFF) k) /\
  snd (xchgs exchange false [0xFF; 0xFF] (snd (xchgs exchange false (replicate n 0xFF) (at_rest k)))) =
    at_rest (snd (xchgs sim_x false [0xFF; 0xFF] (snd (xchgs sim_x false (replicate n 0xFF) k)))).
Proof. rewrite xchgs_bytes by apply ff_bytes. split; [done|]. cbn [snd]. by rewrite xchgs_bytes by apply (ff_bytes 2). Qed.

Definition bit_state (P : simcard -> Prop) (w : bitcard) : Prop := exists k, w = at_rest k /\ P k.

#[export] Program Instance demo_card : SdCard (K := bitcard) exchange := {|
  ready m := bit_state (sim_ready m);
  reading m a := bit_state (sim_reading m a);
  writing m a := bit_state (sim_writing m a)
|}.
Next Obligation. intros m w (k & -> & R). rewrite exchange_byte by lia. by exists k. Qed.
Next Obligation.
  intros m a w (k & -> & R) Ha. destruct (sim_card_read m a k R Ha) as (n & k' & L & W & R').
  exists n, (at_rest k'). split; [done|]. rewrite xchgs_bytes by (apply frame_bytes_ok; vm_compute; done).
  split; [by apply waits_bytes|by exists k'].
Qed.
Next Obligation.
  intros m a w (k & -> & R). destruct (sim_card_data m a k R) as (n & k' & L & W & D & R').
  exists n, (at_rest k'). destruct (data_bytes 512 k') as [E1 E2]. rewrite E1, E2.
  split; [exact L|]. split; [by apply waits_bytes|]. split; [exact D|]. eexists. split; [reflexivity|exact R'].
Qed.
Next Obligation.
  intros m a w (k & -> & R) Ha. destruct (sim_card_write m a k R Ha) as (n & k' & L & W & R').
  exists n, (at_rest k'). split; [done|]. rewrite xchgs_bytes by (apply frame_bytes_ok; vm_compute; done).
  split; [by apply waits_bytes|by exists k'].
Qed.
Next Obligation.
  intros m a w buf (k & -> & R) Hb. destruct (sim_card_store m a k buf R Hb) as (n & y & k1 & n' & y' & k2 & L & L' & W & Hy & Ht & W' & Hy' & R').
  exists n, y, (at_rest k1), n', y', (at_rest k2). rewrite xchgs_bytes by (apply Forall_cons_2; [lia|apply Hb]).
  split; [exact L|]. split; [exact L'|]. split; [by apply waits_bytes|]. split; [done|]. split; [done|].
  split; [by apply waits_bytes|]. split; [done|by exists k2].
Qed.

(** ** The chain at work *)

(** Three cycles pass between accesses to the controller; the pointers are those the controller
    decodes; the clock divider is 100; the card holds the volume of [Fat]. *)
Definition demo_gap (i : nat) : nat := 3.

Definition demo_ptr : pointers := Ptrs 0 4 8 12.

Lemma demo_ptr_ok : to_registers demo_ptr.
Proof. by repeat split. Qed.

Definition demo_bus : SpiBus (cpu (K := bitcard)) bitcard := host_bus demo_ptr demo_gap demo_ptr_ok.

Definition demo_drv : drv (cpu (K := bitcard)) :=
  Drv ((Host false 0 100 0 false 0 0 false 0, at_rest (Sim (blocks demo_fs) [] [] MCmd)), 0%nat) 0 512 true 512 OK.

Lemma demo_disk : disk_at (Bus := demo_bus) (Card := demo_card) (blocks demo_fs) demo_drv.
Proof.
  split; [done|]. exists (at_rest (Sim (blocks demo_fs) [] [] MCmd)). split.
  - exists 100, 0. split; [lia|]. by split.
  - eexists. split; [reflexivity|]. split; [apply demo_healthy|done].
Qed.

Definition demo_ios : list io := [IoRead 3; IoWrite 7 (demo_block 2); IoRead 7].

Lemma demo_ios_ok : Forall io_ok demo_ios.
Proof.
  repeat (apply Forall_cons_2; [|]); [cbn; lia| |cbn; lia|by apply Forall_nil_2].
  split; [lia|]. apply block_okb_ok. vm_compute. reflexivity.
Qed.

Lemma disk_refines_blocks_witness :
  exists t', card_ios (Ops := host_ops demo_ptr demo_gap max_polls) demo_ios demo_drv =
    Some ([Some (demo_block 1); Some []; Some (demo_block 2)], t').
Proof.
  destruct (disk_refines_blocks (Bus := demo_bus) (Card := demo_card) demo_ios demo_drv demo_fs
    demo_disk eq_refl demo_ios_ok) as (t' & E & _).
  exists t'. exact E.
Defined.

(** A bus without a controller, to run the initialisation. *)
#[export] Instance sim_ops : SpiOps (bool * simcard) := {|
  bus_send b s := Some (fst (sim_x (fst s) b (snd s)), (fst s, snd (sim_x (fst s) b (snd s))));
  bus_cs v s := (negb (v =? 0), snd s);
  bus_clkdiv v s := Some s
|}.

#[export] Program Instance sim_bus : SpiBus (bool * simcard) simcard := {|
  xchg := sim_x;
  bus_ok cs k s := s = (cs, k)
|}.
Next Obligation. intros cs k b s _ ->. by eexists. Qed.
Next Obligation. by intros cs k v s ->. Qed.
Next Obligation. intros cs k v s _ ->. by eexists. Qed.

(** The initialisation of the disk succeeds with such a card, at 80 MHz. *)
Theorem disk_init_demo m r :
  exists s', disk_init (Ops := sim_ops) 80000000 (Drv (true, Sim m [] [] MCmd) r 0 false 0 OK) = Some (0, s') /\
    bus s' = (false, Sim m [] [] MCmd) /\ dk_initialized s' = true /\ dk_block_sz s' = 512.
Proof. eexists. split; [vm_compute; reflexivity|]. by repeat split. Qed.

(** With the pointers of sd_spi.c it does not return: a processor at 80 MHz, the device at the
    address 0xf00b0000. *)
Lemma disk_init_hangs_witness :
  disk_init (Ops := host_ops (sd_pointers 0xf00b0000) demo_gap max_polls) 80000000 demo_drv = None.
Proof. apply (disk_init_hangs demo_gap 0xf00b0000); reflexivity || lia. Defined.
